(* ===== verification/_CoqProject ===== *)
-Q . S2P
Prelude.v
Texts.v
Node.v
Rewards.v
Coins.v
BalanceUpdates.v
ContractTypes.v
Tokens.v
ContractTx.v
ValidationSummary.v
Balances.v
EpochTypes.v
Transactions.v
Delegation.v
EpochRewards.v
EpochResult.v
Upgrades.v
BlockData.v
DbEncoding.v
FlipLoader.v
FlipQueue.v
Save.v
TxPool.v
ContractsPool.v
Timestamps.v
DataService.v
Restore.v
Verifier.v
Online.v
Multisig.v
VoteTracker.v
Snapshots.v
Api.v
Server.v
FlipSizes.v
Program.v
Monitoring.v
TokenMigration.v
IndexLoop.v
LogFormat.v
Logging.v
LogFile.v
LogGlog.v
Queries.v
EpochTree.v
Govulncheck.v
Config.v
Startup.v
