(* ===== verification/Prelude.v ===== *)
(** * idena-indexer: a verification library

    The indexer follows a node of the Idena network and keeps what happens in a database.
    While the node applies a block, a collector gathers statistics about it
    (core/stats/collector.go); the block is then converted, with the states of the node
    before and after it, into the rows to be saved (indexer/), and saved in one
    transaction of the database (db/); a loop does so for every block and resets the
    database when the chain forks (indexer/indexer.go).  The files of this library are in
    that order, from the node to the loop; paths are under src/.

    ** Conventions

    A Go function that changes a state and may panic is a value of the monad [M S A] of
    this file, from states to an [outcome]; a pure one is a function.  Pointers that are
    shared are positions in a store ([ptr], or an index of the slice that holds the
    objects); pointers that are not are values, or options when they may be nil.  Maps
    are [gmap]s, nil being the empty one.  The order in which a map is ranged over is an
    argument that the theorems constrain by [ranges] only, so that they hold of every
    order.  Integers are [Z] with the wrap-around of their width written out ([u8] ..
    [u64], [swrap]); amounts are unbounded, as [big.Int] is.  The node, its virtual
    machine, the decimal and floating-point numbers, the encodings of addresses and the
    database are type classes ([NodeApi] of Node, and one for each file that needs more),
    and the laws assumed of them are classes of their own ([NodeLaws], [StorageLaws],
    [DbTextLaws]); each has a concrete instance, on which the witnesses are evaluated.

    ** The files

    - Prelude (this file): functional record update, the monad and its predicate [wp],
      fixed-width integers, sums, ranged-over maps, lists with an index.
    - Node: the data of the node - addresses, identities, transactions, blocks, states,
      the statistics of a validation - and [NodeApi].
    - Rewards: the rewards of an epoch in core/stats/collector.go, over a store of
      big.Int pointers.  [rewards_ledger]: each address and type has the sum of what
      was credited; [total_rewards_by_addr], [delegatees_epoch_rewards]: the totals by
      address and by pool agree with the rewards.
    - Coins: minted and burnt coins, mining rewards, penalties and transfers of the
      collector.  [burnt_coins_consistent], [mining_rewards_ledger].
    - BalanceUpdates: [Begin*BalanceUpdate] and [CompleteBalanceUpdate], with the merging
      and linking of the updates, over a store of updates.  [balance_updates_conserve]:
      the updates of an address start from its first observed balance, end at its last
      and are chained; [linked_updates_meet]; [interrupted_merge_counts_twice] is the
      case where the code counts a change twice.
    - ContractTypes, Tokens, ContractTx: the records of the contracts (db/types.go), the
      balances of tokens (core/stats/collector_contract.go), and the transactions of the
      collector, from [BeginApplyingTx] to [CompleteApplyingTx] with the caches of the
      nested calls and [AddTxReceipt].  A receipt publishes the records and balances of
      its calls when it succeeded, and nothing otherwise.
    - ValidationSummary: indexer/validation_summary.go.  Earned amounts add up, missed
      amounts have reasons, the calculation is total.
    - Balances: the changed balances and totals, penalties and miners of a block
      (indexer/balance.go, check_balances.go, penalty.go, state.go, miners_history.go,
      oracle_voting.go).
    - EpochTypes, Transactions, Delegation, EpochRewards, EpochResult, Upgrades: the
      conversion of the transactions (indexer/indexer.go, context.go), of the delegations
      and pools (delegation.go), of the rewards of an epoch (rewards.go,
      delegatee_epoch_rewards.go), of the result of a validation, and of the votes for
      upgrades (upgrade_voting.go, core/holder/upgrade/voting.go).
    - BlockData: [convertIncomingData], which composes them, with the block and its
      proposer (proposer.go).  [block_delegations_follow]: the table of delegations in
      the database follows the node's.
    - DbEncoding: db/postgres_types.go, the text of the rows and the JSON documents.
      [rows_are_read]: the database reads back each row that fits the widths of its
      columns, and refuses the others; [burnt_coins_regroup],
      [answers_are_counted], [epoch_rewards_document].
    - FlipLoader: core/flip/flip_content_loader.go.  What an author encoded reaches the
      database ([flip_reaches_the_database]), and a malformed flip ends the program
      ([malformed_flip_panics]).
    - FlipQueue: the loop of that file with the procedures of its statements.
      [flips_are_settled]: every flip of the queue is loaded or given up after its
      attempts; [refused_flip_blocks_the_queue]: unless the content of one of them, such
      as one without pictures, cannot be stored.
    - Save: db/postgres.go and postgres_restore.go.  [save_is_a_transaction]: the exact
      statements of a block, all or none; [converted_block_is_saved]: the conversion and
      the saving composed.
    - IndexLoop: the loop of indexer/indexer.go, as a state of the indexer, of the
      database and of the effects.  [index_block_reorganises]: whatever the chain the
      database held, after a block it holds the chain the block extends, with the right
      state; [refused_reset_never_ends]: unless the database refuses to be reset to the
      height; [index_block_totals]; [index_block_saves_before_publishing];
      [index_block_gap_panics].
    - TxPool: core/holder/transaction/mempool_txs.go, the pending transactions by hash and
      by address.  [pool_answers]: the pool follows the transactions that came and did not
      leave.
    - ContractsPool: core/mempool/contracts_pool.go.  [contract_txs_follow]: the
      transactions listed for an address and a contract; [removed_too_early_stays]: one
      that leaves while it waits in the channel stays listed.
    - Timestamps: core/mempool/mempool.go, as actions of its goroutines.
      [timestamps_are_kept]: no interleaving and no refusal of the database loses a
      timestamp or saves it twice; [timestamps_get_saved]: nor keeps it from being saved.
    - DataService: data/service.go, with the two tables of db/postgres_data.go and the
      names of db/postgres_identifiers.go.  [refreshes_are_spaced], over any turns of the
      loop; [due_items_are_refreshed]; [quoted_names_are_read].
    - Restore: core/restore/restore.go.  [restored_from_a_state]: the attempts end with
      the first that succeeds, and what it saves is the data of a state.
    - Verifier: contract/verification/.  [submissions_are_settled]: what waits gets its
      verdict; [unreachable_service_fails]: also when the service is down.
    - Online: core/holder/online/online.go.  [cache_follows_state], [miner_weights_sorted]:
      what is cached is what the state of the head has.
    - VoteTracker: core/mempool/vote_counting_tracker.go, peers_tracker.go.
      [accepted_events_are_saved]: over any interleaving, what a queue accepts is saved
      once, in order, and says what was submitted; [accepted_events_get_saved]: and that
      in a bounded number of turns; [peers_are_counted].
    - Snapshots: core/holder/state/.  [snapshot_is_imported]: the reading of a snapshot
      succeeds exactly when it is an import of all of its nodes, none cut to a smaller
      width, into a valid tree; [kept_states_are_valid], [kept_states_stay].
    - Multisig: core/holder/contract/contract.go.  [multisig_state_is_read].
    - Api, Server: core/api/api.go, core/server/.  [listings_are_complete]: following the
      tokens of the pages ends and gives the list; [every_request_is_answered]: no
      handler panics, or changes what it must not; [parameter_names_ignore_case];
      [deploys_ignore_the_author].
    - FlipSizes: core/flip/flip_loader.go.  [missing_sizes_are_loaded]: a round of retries
      gives fifty flips their sizes; [saved_sizes_are_right].
    - Program: the handlers of main.go for the events of the node and of the collector.
      [pending_transactions_are_served]: the API, the pools and the events composed.
    - Monitoring: monitoring/performance.go and its calls.
      [monitor_survives_taken_attempts]: the monitor lives exactly as long as the database
      refuses nothing but commits; [totals_of_report].
    - TokenMigration: migration/tokens/tokens.go.  [migration_fills_tables];
      [interrupted_migration_stays].
    - Texts: UTF-8, the trimming of spaces and the order of texts, as the standard library
      of Go has them.
    - LogFormat, Logging, LogFile, LogGlog: log/ and core/log/.  [logfmt_lines_are_read]: a
      reader finds in a line what was logged; [logging_never_panics], [console_lines]:
      loggers that are derived from each other, and trees of handlers;
      [log_keeps_the_latest]: the files and their rotation; [glog_cache_does_not_show]:
      the rules of [GlogHandler], with the regular expressions they are compiled to.
    - Queries: the scripts of db/common.go, [statements_are_found] with the files of
      resources/; the preparation of the database (db/postgres_init.go,
      import/words/words.go), [dictionary_is_filled]; the single queries of db/ and the
      storage of migration/runtime/.
    - EpochTree: indexer/tree.go with Snapshots.  [snapshots_follow_the_chain]: over a
      chain that grows and is cut, the file of an epoch is the snapshot of the state that
      began it; [interrupted_snapshot_stays], [kept_state_outlives_its_chain].
    - Config, Startup: config/config.go, main.go and incoming/incoming.go.
      [settings_come_from_the_file], [written_settings_are_read]: the file of the settings
      over the default ones; [consensus_follows_the_chain]; [program_starts]: from the
      file to the block the node starts with.
    - Govulncheck: scripts/govulncheck_filter.go.  [gate_opens_by_policy].
    ** Bounds and fuel

    [index_loop] takes fuel, one unit for a turn of the loop of [indexBlock]: a block
    that is to be saved needs at most one reset and one turn for each attempt of the
    database that fails, and the theorems ask for two more than the number of these
    faults.  The samples of a voting's history ([short_history_samples]) are for
    histories up to 2^21 items, where the rounding of float32 does not reach the end of
    the history.  A page of the API ([page_loop]) takes one unit more than its list has
    elements, and the binary search ([search]) as many, which their lemmas show to be
    enough.
    [handle] takes the depth of the stack, which the theorems ask to be more than the
    number of operations on loggers, as a handler can be the handler of another logger;
    [read_fields] takes the length of its line, and [apply_versions] a unit for each
    version it applies.  Every other recursion is on a list or a text.

    ** Not modelled

    The SQL of the procedures (resources/), which the classes [Storage] and [Database]
    stand for, but for the widths of the columns of the rows (DbEncoding) and the saving of
    the flips (FlipQueue); of log/, the handlers the program does not use: those of channels, buffers,
    the network and the system's log, and MatchFilterHandler, which asks for a field by
    reflection; the text of JSON, as it is written by the log and the server and as it is
    read by the configuration and the gate, where the tree is taken; the interfaces, and
    the constructors and getters that only store or return a field; tests/, which is not
    part of the program.
*)

From stdpp Require Export base tactics gmap strings list fin_maps.
From stdpp Require Export numbers option.
From Stdlib Require DecimalString DecimalZ.
From coqutil Require Import Tactics.RecordEta.

#[global] Set Default Goal Selector "!".
#[global] Set Warnings "-clear-no-such-hyp".

Create HintDb idx.

(** ** Functional record update

    [r <| f := v |>] and [r <| f ::= g |>] update one field of a record, the
    way a Go assignment [r.f = v] does.  The setter of a projection is derived
    from the eta-expansion of its record. *)

Declare Scope idx_scope.
Delimit Scope idx_scope with idx.
#[global] Open Scope idx_scope.

Class Setter {R E : Type} (proj : R → E) := mkSetter { modify_field : (E → E) → R → R }.
Arguments modify_field {R E} proj {_} f r /.

Ltac derive_setter R proj :=
  let body := eta R in
  lazymatch eval pattern proj in body with
  | ?h _ =>
      let s := eval cbv beta in (fun upd => h (fun r => upd (proj r))) in exact (mkSetter _ _ proj s)
  end.

#[export] Hint Extern 1 (@Setter ?R _ ?proj) => derive_setter R proj
  : typeclass_instances.

Notation "r <| f := v |>" := (modify_field f (λ _, v) r)
  (at level 1, left associativity, f at level 99, v at level 200,
   format "r <| f  :=  v |>") : idx_scope.
Notation "r <| f ::= g |>" := (modify_field f g r)
  (at level 1, left associativity, f at level 99, g at level 200,
   format "r <| f  ::=  g |>") : idx_scope.

(** ** Go calls that may panic

    A Go function that reads and writes the state [S] is a value of [M S A]:
    it ends normally with a result and the new state, or panics (a nil
    dereference, an index out of range, a call of [panic]). *)

Inductive outcome (A : Type) : Type :=
  | Done (a : A)
  | Panic.
Arguments Done {A} a.
Arguments Panic {A}.

Definition M (S A : Type) : Type := S → outcome (A * S).

#[export] Instance M_ret (S : Type) : MRet (M S) := λ A a s, Done (a, s).
#[export] Instance M_bind (S : Type) : MBind (M S) := λ A B f m s,
  match m s with
  | Done (a, s') => f a s'
  | Panic => Panic
  end.

Section monad.
Context {S : Type}.

Definition get_st : M S S := λ s, Done (s, s).
Definition gets {A} (f : S → A) : M S A := λ s, Done (f s, s).
Definition modify_st (f : S → S) : M S unit := λ s, Done (tt, f s).
Definition panic {A} : M S A := λ _, Panic.

(** [for _, x := range l { body x }] *)
Fixpoint for_each {A} (l : list A) (body : A → M S unit) : M S unit :=
  match l with
  | [] => mret tt
  | x :: l' => body x;; for_each l' body
  end.

(** The state a computation ends in, if it does not panic. *)
Definition final {A} (o : outcome (A * S)) : option S :=
  match o with Done (_, s) => Some s | Panic => None end.

Lemma bind_done {A B} (m : M S A) (f : A → M S B) s a s' :
  m s = Done (a, s') → (m ≫= f) s = f a s'.
Proof. unfold mbind, M_bind. by intros ->. Qed.

Lemma bind_assoc {A B C} (m : M S A) (f : A → M S B) (g : B → M S C) s :
  (m ≫= λ a, f a ≫= g) s = ((m ≫= f) ≫= g) s.
Proof. unfold mbind, M_bind. by destruct (m s) as [[a s']|]. Qed.

Lemma bind_panic {A B} (m : M S A) (f : A → M S B) s :
  m s = Panic → (m ≫= f) s = Panic.
Proof. unfold mbind, M_bind. by intros ->. Qed.

Lemma for_each_app {A} (l k : list A) (body : A → M S unit) s :
  for_each (l ++ k) body s = (for_each l body;; for_each k body) s.
Proof.
  revert s. induction l as [|x l IH]; intros s; [done|].
  cbn. unfold mbind, M_bind. destruct (body x s) as [[[] s']|]; [|done].
  apply IH.
Qed.

End monad.

(** A loop in a loop is a loop over the pairs. *)
Lemma for_each_pairs {S A B} (g : A → list B) (body : A → B → M S unit) (l : list A) s :
  for_each l (λ x, for_each (g x) (body x)) s
  = for_each (l ≫= λ x, (x,.) <$> g x) (λ p, body p.1 p.2) s.
Proof.
  revert s. induction l as [|x l IH]; intros s; [done|].
  cbn [for_each mbind list_bind]. rewrite for_each_app.
  assert (∀ k s, for_each ((x,.) <$> k) (λ p, body p.1 p.2) s = for_each k (body x) s) as Hk.
  { intros k. induction k as [|y k IHk]; intros s'; [done|]. cbn.
    unfold mbind, M_bind. destruct (body x y s') as [[[] s1]|]; [apply IHk|done]. }
  unfold mbind, M_bind in *. rewrite Hk. destruct (for_each (g x) (body x) s) as [[[] s1]|]; [apply IH|done].
Qed.

(** [wp m Q s]: run in [s], [m] does not panic, and [Q] holds of its result
    and of the state it ends in. *)
Definition wp {S A : Type} (m : M S A) (Q : A → S → Prop) (s : S) : Prop :=
  match m s with Done (a, s') => Q a s' | Panic => False end.

Section wp.
Context {S : Type}.
Implicit Types s : S.

Lemma wp_mono {A} (m : M S A) (Q Q' : A → S → Prop) s :
  wp m Q s → (∀ a s', Q a s' → Q' a s') → wp m Q' s.
Proof. unfold wp. destruct (m s) as [[a s']|]; [eauto|done]. Qed.

Lemma wp_bind {A B} (m : M S A) (f : A → M S B) (Q : B → S → Prop) s :
  wp m (λ a s', wp (f a) Q s') s → wp (m ≫= f) Q s.
Proof.
  unfold wp, mbind, M_bind. destruct (m s) as [[a s']|]; done.
Qed.

Lemma wp_bind_inv {A B} (m : M S A) (f : A → M S B) (Q : B → S → Prop) s :
  wp (m ≫= f) Q s → wp m (λ a s', wp (f a) Q s') s.
Proof.
  unfold wp, mbind, M_bind. destruct (m s) as [[a s']|]; done.
Qed.

Lemma wp_ret {A} (a : A) (Q : A → S → Prop) s : Q a s → wp (mret a) Q s.
Proof. done. Qed.

Lemma wp_gets {A} (f : S → A) (Q : A → S → Prop) s :
  Q (f s) s → wp (gets f) Q s.
Proof. done. Qed.

Lemma wp_modify (f : S → S) (Q : unit → S → Prop) s :
  Q tt (f s) → wp (modify_st f) Q s.
Proof. done. Qed.

Lemma wp_done {A} (m : M S A) (Q : A → S → Prop) s :
  wp m Q s → ∃ a s', m s = Done (a, s') ∧ Q a s'.
Proof. unfold wp. destruct (m s) as [[a s']|]; [eauto|done]. Qed.

Lemma wp_of_done {A} (m : M S A) (Q : A → S → Prop) s a s' :
  m s = Done (a, s') → wp m Q s → Q a s'.
Proof. unfold wp. by intros ->. Qed.

Lemma wp_for_each {A} (P : S → Prop) (l : list A) (body : A → M S unit) s :
  (∀ x s, x ∈ l → P s → wp (body x) (λ _ s', P s') s) →
  P s → wp (for_each l body) (λ _ s', P s') s.
Proof.
  revert s. induction l as [|x l IH]; intros s Hbody HP; [done|].
  cbn [for_each]. apply wp_bind. eapply wp_mono.
  { apply Hbody; [left|done]. }
  intros [] s' HP'. apply IH; [|done].
  intros y s0 Hy. apply Hbody. by right.
Qed.

(** The same, with an invariant on the elements that are done. *)
Lemma wp_for_each_prefix {A} (P : list A → S → Prop) (l : list A) (body : A → M S unit) s :
  (∀ pre x s, x ∈ l → P pre s → wp (body x) (λ _ s', P (pre ++ [x]) s') s) →
  P [] s → wp (for_each l body) (λ _ s', P l s') s.
Proof.
  intros Hb. change l with ([] ++ l) at 2. generalize (@nil A) as pre. revert s.
  induction l as [|x l IH]; intros s pre HP; [by rewrite app_nil_r|].
  cbn [for_each]. apply wp_bind. eapply wp_mono; [apply Hb; [left|exact HP]|].
  intros [] s1 HP1. replace (pre ++ x :: l) with ((pre ++ [x]) ++ l) by by rewrite <- app_assoc.
  apply IH; [|done]. intros; apply Hb; [by right|done].
Qed.

(** A loop that builds the list of its results: [P] holds of the elements that are
    done and of the state, [R] relates an element to its result. *)
Lemma wp_mapM {A B} (P : list A → S → Prop) (R : A → B → Prop) (f : A → M S B) l s :
  (∀ pre x s, x ∈ l → P pre s → wp (f x) (λ y s', P (pre ++ [x]) s' ∧ R x y) s) →
  P [] s → wp (mapM f l) (λ ys s', P l s' ∧ Forall2 R l ys) s.
Proof.
  intros Hf. change l with ([] ++ l) at 2. generalize (@nil A) as pre. revert s.
  induction l as [|x l IH]; intros s pre HP.
  { rewrite app_nil_r. by split. }
  cbn. apply wp_bind. eapply wp_mono; [apply Hf; [left|exact HP]|].
  intros y s1 [HP1 HR]. apply wp_bind. eapply wp_mono.
  { apply (IH ltac:(intros; apply Hf; [by right|done]) s1 (pre ++ [x]) HP1). }
  intros ys s2 [HP2 HRs]. rewrite <- app_assoc in HP2. apply wp_ret. split; [done|by constructor].
Qed.
End wp.

#[export] Hint Resolve wp_ret wp_gets wp_modify : idx.

(** One step of symbolic execution of a goal [wp m Q s]. *)
Ltac wp_step :=
  lazymatch goal with
  | |- wp (_ ≫= _) _ _ => apply wp_bind
  | |- wp (mret _) _ _ => apply wp_ret
  | |- wp (gets _) _ _ => apply wp_gets
  | |- wp (modify_st _) _ _ => apply wp_modify
  end; cbn beta.
Ltac wp_steps := repeat wp_step.
(** Use a proved specification for the call at the head of the goal. *)
Tactic Notation "wp_call" uconstr(spec) := eapply wp_mono; [eapply spec|].

(** ** Fixed-width integers

    Values are [Z]; arithmetic that Go performs at width [w] is followed by
    the wrap-around [uwrap w]. *)

Definition uwrap (w : Z) (z : Z) : Z := (z `mod` 2 ^ w)%Z.
Abbreviation u8 := (uwrap 8).
Abbreviation u16 := (uwrap 16).
Abbreviation u32 := (uwrap 32).
Abbreviation u64 := (uwrap 64).

(** Conversion to a signed [w]-bit integer ([int64(x)]). *)
Definition swrap (w : Z) (z : Z) : Z :=
  (let r := z `mod` 2 ^ w in if 2 ^ (w - 1) <=? r then r - 2 ^ w else r)%Z.

Lemma uwrap_range w z : (0 ≤ w → 0 ≤ uwrap w z < 2 ^ w)%Z.
Proof. intros. apply Z.mod_pos_bound. apply Z.pow_pos_nonneg; lia. Qed.

Lemma uwrap_small w z : (0 ≤ z < 2 ^ w → uwrap w z = z)%Z.
Proof. apply Z.mod_small. Qed.

Lemma swrap_small w z : (0 < w → 0 ≤ z < 2 ^ (w - 1) → swrap w z = z)%Z.
Proof.
  intros Hw Hz. unfold swrap.
  assert (2 ^ w = 2 * 2 ^ (w - 1))%Z as Hp.
  { rewrite <- Z.pow_succ_r by lia. f_equal. lia. }
  rewrite Z.mod_small by lia. destruct (Z.leb_spec (2 ^ (w - 1)) z); lia.
Qed.

#[export] Hint Resolve uwrap_range : idx.

(** ** Nilable integers ([*big.Int]) *)

(** [v == nil || v.Sign() == 0] *)
Definition nil_or_zero (v : option Z) : bool :=
  match v with None => true | Some z => (z =? 0)%Z end.

(** [if v == nil { v = new(big.Int) }] *)
Definition or_zero (v : option Z) : Z := default 0%Z v.

Lemma nil_or_zero_spec v : nil_or_zero v = true ↔ or_zero v = 0%Z.
Proof. destruct v as [z|]; cbn; [apply Z.eqb_eq|done]. Qed.

(** At most one element. *)
Definition option_list {A} (o : option A) : list A :=
  match o with Some a => [a] | None => [] end.

Lemma omap_cons_list {A B} (f : A → option B) x l :
  omap f (x :: l) = option_list (f x) ++ omap f l.
Proof. cbn. by destruct (f x). Qed.

Lemma foldl_bind {A B C} (f : C → B → C) (g : A → list B) (l : list A) c :
  foldl (λ c x, foldl f c (g x)) c l = foldl f c (l ≫= g).
Proof.
  revert c. induction l as [|x l IH]; intros c; [done|]. cbn. by rewrite IH, foldl_app.
Qed.

Lemma foldl_ext_eq {A B} (f g : B → A → B) (l : list A) b :
  (∀ b x, f b x = g b x) → foldl f b l = foldl g b l.
Proof. intros He. revert b. induction l as [|x l IH]; intros b; [done|]. cbn. by rewrite He, IH. Qed.

(** ** Sums *)

Fixpoint sumZ {A} (f : A → Z) (l : list A) : Z :=
  match l with
  | [] => 0
  | x :: l' => f x + sumZ f l'
  end%Z.

Section sums.
Context {A : Type}.
Implicit Types (f g : A → Z) (l k : list A).

Lemma sumZ_cons f x l : sumZ f (x :: l) = (f x + sumZ f l)%Z.
Proof. done. Qed.

Lemma sumZ_app f l k : sumZ f (l ++ k) = (sumZ f l + sumZ f k)%Z.
Proof. induction l as [|x l IH]; cbn; [done|]. rewrite IH. lia. Qed.

Lemma sumZ_snoc f l x : sumZ f (l ++ [x]) = (sumZ f l + f x)%Z.
Proof. rewrite sumZ_app. cbn. lia. Qed.

Lemma sumZ_ext f g l : (∀ x, x ∈ l → f x = g x) → sumZ f l = sumZ g l.
Proof.
  induction l as [|x l IH]; intros H; cbn; [done|].
  rewrite (H x) by left. rewrite IH; [done|]. intros. apply H. by right.
Qed.

Lemma sumZ_perm f l k : l ≡ₚ k → sumZ f l = sumZ f k.
Proof. induction 1; cbn; lia. Qed.

Lemma sumZ_add f g l : sumZ (λ x, (f x + g x)%Z) l = (sumZ f l + sumZ g l)%Z.
Proof. induction l as [|x l IH]; cbn; [done|]. rewrite IH. lia. Qed.

Lemma sumZ_zero l : sumZ (λ _, 0%Z) l = 0%Z.
Proof. induction l as [|x l IH]; cbn; [done|]. by rewrite IH. Qed.

Lemma sumZ_nonneg f l : (∀ x, x ∈ l → 0 ≤ f x)%Z → (0 ≤ sumZ f l)%Z.
Proof.
  induction l as [|x l IH]; intros H; cbn; [done|].
  specialize (H x) as Hx. apply Z.add_nonneg_nonneg; [apply Hx; left|].
  apply IH. intros. apply H. by right.
Qed.

Lemma sumZ_map {B} (h : B → A) f (l : list B) :
  sumZ f (h <$> l) = sumZ (λ x, f (h x)) l.
Proof. induction l as [|x l IH]; cbn; [done|]. by rewrite IH. Qed.

(** Changing the summand at the single position [i]. *)
Lemma sumZ_point f g l i x :
  l !! i = Some x →
  (∀ j y, l !! j = Some y → j ≠ i → f y = g y) →
  sumZ f l = (sumZ g l + (f x - g x))%Z.
Proof.
  revert i. induction l as [|y l IH]; intros [|i] Hi Hext; cbn in *; simplify_eq.
  - rewrite (sumZ_ext f g l); [lia|].
    intros z [j Hj]%list_elem_of_lookup. apply (Hext (S j)); [done|lia].
  - rewrite (IH i); [|done|].
    + rewrite (Hext 0 y) by (done || lia). lia.
    + intros j z Hj Hne. apply (Hext (S j)); [done|lia].
Qed.
End sums.

Lemma sumZ_insert {A} (f : A → Z) (l : list A) i x y :
  l !! i = Some x → sumZ f (<[i:=y]> l) = (sumZ f l + (f y - f x))%Z.
Proof.
  revert i. induction l as [|z l IH]; intros [|i] Hi; csimpl; simplify_eq/=.
  - lia.
  - rewrite (IH i Hi). lia.
Qed.

Lemma list_alter_insert_step {A} (f : A → A) (l : list A) i x :
  l !! i = Some x → alter f i l = <[i:=f x]> l.
Proof.
  revert i. induction l as [|y l IH]; intros [|i] Hi; csimpl; simplify_eq/=; [done|].
  f_equal. by apply IH.
Qed.

(** Sum over a finite map. *)
Definition sum_map `{Countable K} {V} (f : K → V → Z) (m : gmap K V) : Z :=
  sumZ (λ kv, f kv.1 kv.2) (map_to_list m).

Section sum_map.
Context `{Countable K} {V : Type}.
Implicit Types (f : K → V → Z) (m : gmap K V).

Lemma sum_map_empty f : sum_map f ∅ = 0%Z.
Proof. unfold sum_map. by rewrite map_to_list_empty. Qed.

Lemma sum_map_insert_new f m k v :
  m !! k = None → sum_map f (<[k:=v]> m) = (f k v + sum_map f m)%Z.
Proof.
  intros Hk. unfold sum_map.
  rewrite (sumZ_perm _ _ _ (map_to_list_insert m k v Hk)). done.
Qed.

Lemma sum_map_delete f m k v :
  m !! k = Some v → sum_map f m = (f k v + sum_map f (delete k m))%Z.
Proof.
  intros Hk. rewrite <- (insert_delete_id m k v Hk) at 1.
  apply sum_map_insert_new. apply lookup_delete_eq.
Qed.

Lemma sum_map_insert f m k v :
  sum_map f (<[k:=v]> m)
  = (sum_map f m + f k v - default 0 (f k <$> (m !! k)))%Z.
Proof.
  destruct (m !! k) as [w|] eqn:Hk; cbn.
  - rewrite <- insert_delete_eq, sum_map_insert_new by apply lookup_delete_eq.
    rewrite (sum_map_delete f m k w Hk). lia.
  - rewrite sum_map_insert_new by done. lia.
Qed.

Lemma sum_map_ext f g m :
  (∀ k v, m !! k = Some v → f k v = g k v) → sum_map f m = sum_map g m.
Proof.
  intros Hext. apply sumZ_ext. intros [k v] Hkv.
  apply Hext. by apply elem_of_map_to_list.
Qed.
End sum_map.

(** ** Ranging over a Go map

    The order in which Go ranges over a map is unspecified.  A definition
    whose result depends on it takes the order as an argument, and its
    theorems hold for every order [l] with [ranges m l]. *)

Definition ranges `{Countable K} {V} (m : gmap K V) (l : list (K * V)) : Prop :=
  l ≡ₚ map_to_list m.

Lemma ranges_canonical `{Countable K} {V} (m : gmap K V) : ranges m (map_to_list m).
Proof. unfold ranges. done. Qed.

Lemma ranges_elem `{Countable K} {V} (m : gmap K V) l k v :
  ranges m l → (k, v) ∈ l ↔ m !! k = Some v.
Proof. intros Hl. rewrite Hl. apply elem_of_map_to_list. Qed.

Lemma ranges_NoDup `{Countable K} {V} (m : gmap K V) l :
  ranges m l → NoDup l.*1.
Proof. intros Hl. rewrite Hl. apply NoDup_fst_map_to_list. Qed.

Lemma ranges_sum `{Countable K} {V} (m : gmap K V) l (f : K → V → Z) :
  ranges m l → sumZ (λ kv, f kv.1 kv.2) l = sum_map f m.
Proof. intros Hl. apply sumZ_perm, Hl. Qed.

#[export] Hint Resolve ranges_canonical : idx.

(** ** Lists with an index

    A slice and a map from keys to the positions of its elements, or to pointers to
    them: what Go code keeps to find an element it may update. *)

Section indexed_list.
Context `{Countable K} {A : Type} (key : A → K).
Implicit Types (l : list A) (m : gmap K nat) (k : K).

Definition il_wf l m : Prop := ∀ k i,
  m !! k = Some i ↔ ∃ x, l !! i = Some x ∧ key x = k.

(** The element of a key. *)
Definition il_row l m k : option A := i ← m !! k; l !! i.

Lemma il_empty : il_wf [] ∅.
Proof.
  intros k i. rewrite lookup_empty. split; [done|]. intros (x & Hx & _). by rewrite lookup_nil in Hx.
Qed.

Lemma il_append_wf l m x :
  il_wf l m → m !! key x = None → il_wf (l ++ [x]) (<[key x := length l]> m).
Proof.
  intros Hw Hnew k i. destruct (decide (k = key x)) as [->|Hne].
  - rewrite lookup_insert_eq. split.
    + intros [= <-]. exists x. by rewrite lookup_app_r, Nat.sub_diag by done.
    + intros (r & Hr & Ha). apply lookup_app_Some in Hr as [Hr|[Hle Hr]].
      * exfalso. assert (m !! key x = Some i); [|congruence]. apply Hw. by exists r.
      * apply list_lookup_singleton_Some in Hr as [? _]. f_equal. lia.
  - rewrite lookup_insert_ne by done. rewrite (Hw k i). split.
    + intros (r & Hr & Ha). exists r. by rewrite lookup_app_l by (by eapply lookup_lt_Some).
    + intros (r & Hr & Ha). apply lookup_app_Some in Hr as [Hr|[Hle Hr]]; [by exists r|].
      apply list_lookup_singleton_Some in Hr as [_ ->]. congruence.
Qed.

Lemma il_append_row l m x k :
  il_wf l m →
  il_row (l ++ [x]) (<[key x := length l]> m) k = if decide (key x = k) then Some x else il_row l m k.
Proof.
  intros Hw. unfold il_row. destruct (decide (key x = k)) as [->|Hne].
  - rewrite lookup_insert_eq. cbn. by rewrite lookup_app_r, Nat.sub_diag by done.
  - rewrite lookup_insert_ne by done. destruct (m !! k) as [i|] eqn:Hi; [|done].
    cbn. destruct (proj1 (Hw k i) Hi) as (r & Hr & _). by rewrite lookup_app_l by (by eapply lookup_lt_Some).
Qed.

Lemma il_alter_wf l m i f : (∀ x, key (f x) = key x) → il_wf l m → il_wf (alter f i l) m.
Proof.
  intros Hf Hw k j. rewrite (Hw k j). rewrite list_lookup_alter.
  destruct (decide (i = j)) as [->|Hne]; [|done]. destruct (l !! j) as [r|]; cbn; [|done].
  split; intros (r' & [= <-] & <-); eexists; (split; [reflexivity|by rewrite Hf]).
Qed.

Lemma il_alter_row l m i k k' f :
  il_wf l m → m !! k = Some i →
  il_row (alter f i l) m k' = if decide (k = k') then f <$> il_row l m k' else il_row l m k'.
Proof.
  intros Hw Hk. unfold il_row. destruct (decide (k = k')) as [<-|Hne].
  - rewrite Hk. cbn. by rewrite list_lookup_alter, decide_True by done.
  - destruct (m !! k') as [j|] eqn:Hj; [|done]. cbn. rewrite list_lookup_alter, decide_False; [done|].
    intros ->. apply Hw in Hk as (r1 & H1 & <-), Hj as (r2 & H2 & <-). congruence.
Qed.

Lemma il_row_None l m k : il_wf l m → il_row l m k = None → m !! k = None.
Proof.
  intros Hw. unfold il_row. destruct (m !! k) as [i|] eqn:Hi; [|done].
  destruct (proj1 (Hw k i) Hi) as (r & Hr & _). cbn. by rewrite Hr.
Qed.

Lemma il_rows l m :
  il_wf l m → NoDup (key <$> l) ∧ ∀ x, x ∈ l ↔ il_row l m (key x) = Some x.
Proof.
  intros Hw. split.
  - apply list.NoDup_alt. intros i j k Hi Hj. rewrite list_lookup_fmap in Hi, Hj.
    destruct (l !! i) as [x|] eqn:H1; [|done]. destruct (l !! j) as [y|] eqn:H2; [|done].
    cbn in Hi, Hj. simplify_eq.
    assert (m !! key x = Some i) by (apply Hw; by exists x).
    assert (m !! key x = Some j) by (apply Hw; by exists y). congruence.
  - intros x. unfold il_row. split.
    + intros [i Hi]%list_elem_of_lookup. by rewrite (proj2 (Hw (key x) i)) by (by exists x).
    + destruct (m !! key x) as [i|]; [|done]. cbn. apply list_elem_of_lookup_2.
Qed.
End indexed_list.

(** ** Texts *)

(** [strings.ToLower], of texts of ASCII characters *)
Definition lower (c : Ascii.ascii) : Ascii.ascii :=
  let n := Ascii.nat_of_ascii c in
  if ((65 <=? n) && (n <=? 90))%nat then Ascii.ascii_of_nat (n + 32) else c.
Fixpoint ToLower (s : string) : string :=
  match s with EmptyString => EmptyString | String c s => String (lower c) (ToLower s) end.

(** [strings.Split(s, sep)] for one character: there is always a first part. *)
Fixpoint Split (sep : Ascii.ascii) (s : string) : list string :=
  match s with
  | EmptyString => [EmptyString]
  | String c s =>
      if Ascii.eqb c sep then EmptyString :: Split sep s
      else match Split sep s with
           | part :: parts => String c part :: parts
           | [] => [String c EmptyString]
           end
  end.

(** [strings.Join(l, sep)] for one character. *)
Fixpoint Join (sep : Ascii.ascii) (l : list string) : string :=
  match l with
  | [] => EmptyString
  | [s] => s
  | s :: l => String.append s (String sep (Join sep l))
  end.

(** The characters of a text. *)
Fixpoint all_chars (p : Ascii.ascii → bool) (s : string) : bool :=
  match s with EmptyString => true | String c s => p c && all_chars p s end.

Lemma append_cons c s t : String.append (String c s) t = String c (String.append s t).
Proof. done. Qed.
Lemma append_nil s : String.append EmptyString s = s.
Proof. done. Qed.
Create Rewrite HintDb texts.
#[export] Hint Rewrite append_cons append_nil : texts.
Lemma append_assoc s t u : String.append (String.append s t) u = String.append s (String.append t u).
Proof. induction s as [|c s IH]; [done|]. change (String c (String.append (String.append s t) u) = String c (String.append s (String.append t u))). by rewrite IH. Qed.

Lemma length_append_text s t : String.length (String.append s t) = (String.length s + String.length t)%nat.
Proof. induction s as [|c s IH]; [done|]. rewrite append_cons. cbn [String.length]. lia. Qed.

(** An integer in decimal, as [fmt] prints it with %v or %d. *)
Definition FormatInt (z : Z) : string := DecimalString.NilEmpty.string_of_int (Z.to_int z).

Lemma FormatInt_inj z z' : FormatInt z = FormatInt z' → z = z'.
Proof.
  unfold FormatInt. intros Hz. apply (f_equal DecimalString.NilEmpty.int_of_string) in Hz.
  rewrite !DecimalString.NilEmpty.isi in Hz. injection Hz as Hz.
  apply (f_equal Z.of_int) in Hz. by rewrite !DecimalZ.of_to in Hz.
Qed.

Lemma append_nil_r s : String.append s EmptyString = s.
Proof. induction s as [|c s IH]; [done|]. by rewrite append_cons, IH. Qed.

(** The texts of a list, one after the other. *)
Definition concat_texts (l : list string) : string := foldr String.append EmptyString l.
Lemma concat_texts_app l k : concat_texts (l ++ k) = String.append (concat_texts l) (concat_texts k).
Proof.
  induction l as [|s l IH]; [done|]. cbn [app concat_texts foldr]. fold (concat_texts (l ++ k)) (concat_texts l).
  by rewrite IH, append_assoc.
Qed.
