(* ===== verification/Texts.v ===== *)
(** * Texts

    What the standard library of Go does with texts, which are sequences of bytes: UTF-8 as
    it is read and written, the trimming of spaces and the order of texts. *)

From Stdlib Require Import Ascii.
From S2P Require Import Prelude.

(** ** UTF-8 *)

Definition byte_of (c : ascii) : Z := Z.of_N (N_of_ascii c).
Definition char_of (z : Z) : ascii := ascii_of_N (Z.to_N z).

Definition RuneError : Z := 65533.

(** A continuation byte between two bounds. *)
Definition between (lo hi : Z) (c : ascii) : bool := (lo <=? byte_of c)%Z && (byte_of c <=? hi)%Z.
Definition low_bits (c : ascii) : Z := (byte_of c `mod` 64)%Z.

(** [utf8.DecodeRuneInString]: the first rune of a text that is not empty, and its width. *)
Definition DecodeRune (s : string) : Z * nat :=
  match s with
  | EmptyString => (RuneError, 0)
  | String a s =>
      let b := byte_of a in
      if (b <? 128)%Z then (b, 1)
      else if (194 <=? b)%Z && (b <=? 223)%Z then
        match s with
        | String c _ => if between 128 191 c then ((b - 192) * 64 + low_bits c, 2%nat)%Z else (RuneError, 1)
        | _ => (RuneError, 1)
        end
      else if (224 <=? b)%Z && (b <=? 239)%Z then
        match s with
        | String c (String d _) =>
            if between (if (b =? 224)%Z then 160 else 128) (if (b =? 237)%Z then 159 else 191) c && between 128 191 d
            then ((b - 224) * 4096 + low_bits c * 64 + low_bits d, 3%nat)%Z else (RuneError, 1)
        | _ => (RuneError, 1)
        end
      else if (240 <=? b)%Z && (b <=? 244)%Z then
        match s with
        | String c (String d (String e _)) =>
            if between (if (b =? 240)%Z then 144 else 128) (if (b =? 244)%Z then 143 else 191) c
               && between 128 191 d && between 128 191 e
            then ((b - 240) * 262144 + low_bits c * 4096 + low_bits d * 64 + low_bits e, 4%nat)%Z else (RuneError, 1)
        | _ => (RuneError, 1)
        end
      else (RuneError, 1)
  end.

(** [for _, r := range s]: the first [skip] bytes are those of the last rune. *)
Fixpoint runes_from (skip : nat) (s : string) : list Z :=
  match s, skip with
  | EmptyString, _ => []
  | String _ s, S skip => runes_from skip s
  | String _ rest, O => let (r, width) := DecodeRune s in r :: runes_from (width - 1) rest
  end.
Definition runes (s : string) : list Z := runes_from 0 s.

(** [utf8.RuneCountInString] *)
Definition RuneCount (s : string) : nat := length (runes s).

Definition valid_rune (r : Z) : bool :=
  ((0 <=? r) && (r <=? 1114111) && negb ((55296 <=? r) && (r <=? 57343)))%Z.

Definition continuation (r : Z) : ascii := char_of (128 + r `mod` 64)%Z.

(** [buf.WriteRune(r)] *)
Definition EncodeRune (r : Z) : string :=
  let r := if valid_rune r then r else RuneError in
  if (r <? 128)%Z then String (char_of r) EmptyString
  else if (r <? 2048)%Z then String (char_of (192 + r / 64)) (String (continuation r) EmptyString)
  else if (r <? 65536)%Z then
    String (char_of (224 + r / 4096)) (String (continuation (r / 64)) (String (continuation r) EmptyString))
  else String (char_of (240 + r / 262144)) (String (continuation (r / 4096))
         (String (continuation (r / 64)) (String (continuation r) EmptyString))).

(** A text of runes in UTF-8. *)
Definition utf8_text (rs : list Z) : string := concat_texts (EncodeRune <$> rs).

Lemma byte_char z : (0 ≤ z < 256)%Z → byte_of (char_of z) = z.
Proof.
  intros Hz. unfold byte_of, char_of. rewrite N_ascii_embedding by lia. lia.
Qed.
Lemma char_byte c : char_of (byte_of c) = c.
Proof. unfold byte_of, char_of. rewrite N2Z.id. apply ascii_N_embedding. Qed.
Lemma byte_of_range c : (0 ≤ byte_of c < 256)%Z.
Proof. unfold byte_of. pose proof (N_ascii_bounded c). lia. Qed.

Lemma byte_continuation r : byte_of (continuation r) = (128 + r `mod` 64)%Z.
Proof. pose proof (Z.mod_pos_bound r 64). apply byte_char. lia. Qed.
Lemma low_bits_continuation r : low_bits (continuation r) = (r `mod` 64)%Z.
Proof.
  unfold low_bits. rewrite byte_continuation. pose proof (Z.mod_pos_bound r 64 ltac:(lia)).
  replace (128 + r `mod` 64)%Z with (r `mod` 64 + 2 * 64)%Z by lia.
  rewrite Z.mod_add by lia. apply Z.mod_mod. lia.
Qed.
Lemma between_continuation lo hi r :
  between lo hi (continuation r) = true ↔ (lo ≤ 128 + r `mod` 64 ≤ hi)%Z.
Proof. unfold between. rewrite byte_continuation. rewrite andb_true_iff, !Z.leb_le. done. Qed.

Ltac decide_Z :=
  repeat match goal with
  | |- context [(?a <? ?b)%Z] => first
      [rewrite (proj2 (Z.ltb_lt a b)) by lia | rewrite (proj2 (Z.ltb_ge a b)) by lia]
  | |- context [(?a <=? ?b)%Z] => first
      [rewrite (proj2 (Z.leb_le a b)) by lia | rewrite (proj2 (Z.leb_gt a b)) by lia]
  end.

(** The first rune of a text that starts with a rune is that rune. *)
Lemma decode_encode r s :
  valid_rune r = true → DecodeRune (String.append (EncodeRune r) s) = (r, String.length (EncodeRune r)).
Proof.
  intros Hv. unfold EncodeRune. rewrite Hv.
  assert (0 ≤ r ≤ 1114111 ∧ ¬ (55296 ≤ r ≤ 57343))%Z as [Hr Hs].
  { unfold valid_rune in Hv. lia. }
  pose proof (Z.div_mod r 64 ltac:(lia)) as D0. pose proof (Z.mod_pos_bound r 64 ltac:(lia)) as B0.
  pose proof (Z.div_mod (r / 64) 64 ltac:(lia)) as D1. pose proof (Z.mod_pos_bound (r / 64) 64 ltac:(lia)) as B1.
  rewrite Z.div_div in D1 by lia. change (64 * 64)%Z with 4096%Z in D1.
  pose proof (Z.div_mod (r / 4096) 64 ltac:(lia)) as D2. pose proof (Z.mod_pos_bound (r / 4096) 64 ltac:(lia)) as B2.
  rewrite Z.div_div in D2 by lia. change (4096 * 64)%Z with 262144%Z in D2.
  destruct (Z.ltb_spec r 128) as [H1|H1].
  { autorewrite with texts; cbn [DecodeRune String.length]. rewrite byte_char by lia. by decide_Z. }
  destruct (Z.ltb_spec r 2048) as [H2|H2].
  { autorewrite with texts; cbn [DecodeRune String.length]. rewrite byte_char by lia. decide_Z. cbn [andb].
    rewrite (proj2 (between_continuation _ _ _)) by lia. rewrite low_bits_continuation. f_equal. lia. }
  destruct (Z.ltb_spec r 65536) as [H3|H3].
  { autorewrite with texts; cbn [DecodeRune String.length]. rewrite byte_char by lia. decide_Z. cbn [andb].
    rewrite !(proj2 (between_continuation _ _ _)) by (repeat case_match; lia).
    rewrite !low_bits_continuation. cbn [andb]. f_equal. lia. }
  autorewrite with texts; cbn [DecodeRune String.length]. rewrite byte_char by lia. decide_Z. cbn [andb].
  rewrite !(proj2 (between_continuation _ _ _)) by (repeat case_match; lia).
  rewrite !low_bits_continuation. cbn [andb]. f_equal. lia.
Qed.

Lemma runes_skip s t : runes_from (String.length s) (String.append s t) = runes t.
Proof. induction s as [|c s IH]; [by rewrite append_nil|]. rewrite append_cons. apply IH. Qed.

Lemma EncodeRune_cons r : ∃ c s, EncodeRune r = String c s.
Proof. unfold EncodeRune. repeat case_match; eauto. Qed.

Lemma runes_encode r s : valid_rune r = true → runes (String.append (EncodeRune r) s) = r :: runes s.
Proof.
  intros Hv. pose proof (decode_encode r s Hv) as Hd. destruct (EncodeRune_cons r) as (c & t & He).
  rewrite He, append_cons in *. unfold runes at 1. cbn [runes_from]. rewrite Hd. cbn [String.length].
  rewrite Nat.sub_succ, Nat.sub_0_r. by rewrite runes_skip.
Qed.

(** The runes of a text in UTF-8 are those it was written from. *)
Lemma runes_utf8 rs : forallb valid_rune rs = true → runes (utf8_text rs) = rs.
Proof.
  unfold utf8_text. induction rs as [|r rs IH]; [done|].
  cbn [forallb fmap list_fmap concat_texts foldr]. intros [Hr Hrs]%andb_true_iff.
  rewrite runes_encode by done. f_equal. by apply IH.
Qed.

(** ** Spaces *)

(** [unicode.IsSpace] *)
Definition IsSpace (r : Z) : bool :=
  ((9 <=? r) && (r <=? 13) || (r =? 32) || (r =? 133) || (r =? 160) || (r =? 5760)
   || (8192 <=? r) && (r <=? 8202) || (r =? 8232) || (r =? 8233) || (r =? 8239) || (r =? 8287) || (r =? 12288))%Z.

(** The first [skip] bytes are those of a space. *)
Fixpoint trim_left_from (skip : nat) (s : string) : string :=
  match s, skip with
  | EmptyString, _ => EmptyString
  | String _ s, S skip => trim_left_from skip s
  | String _ rest, O => let (r, width) := DecodeRune s in if IsSpace r then trim_left_from (width - 1) rest else s
  end.
(** The first [skip] bytes are those of the last rune, and are kept here. *)
Fixpoint trim_right_from (skip : nat) (s : string) : string :=
  match s, skip with
  | EmptyString, _ => EmptyString
  | String c s, S skip => String c (trim_right_from skip s)
  | String c rest, O =>
      let (r, width) := DecodeRune s in
      let t := trim_right_from (width - 1) rest in
      if IsSpace r && (String.length t =? width - 1)%nat then EmptyString else String c t
  end.

(** [strings.TrimSpace] *)
Definition TrimSpace (s : string) : string := trim_right_from 0 (trim_left_from 0 s).

(** Of a text without spaces nothing is cut. *)
Lemma trim_left_spaceless s : forallb (λ r, negb (IsSpace r)) (runes s) = true → trim_left_from 0 s = s.
Proof.
  destruct s as [|c s]; [done|]. unfold runes. cbn [runes_from trim_left_from].
  destruct (DecodeRune (String c s)) as [r w]. cbn [forallb]. by destruct (IsSpace r).
Qed.
Lemma trim_right_spaceless skip s : forallb (λ r, negb (IsSpace r)) (runes_from skip s) = true → trim_right_from skip s = s.
Proof.
  revert skip. induction s as [|c s IH]; intros [|skip]; [done..| |].
  - cbn [runes_from trim_right_from]. destruct (DecodeRune (String c s)) as [r w]. cbn [forallb].
    intros [Hr Hs]%andb_true_iff. rewrite IH by done. by destruct (IsSpace r).
  - cbn [runes_from trim_right_from]. intros Hs. by rewrite IH.
Qed.
Lemma TrimSpace_spaceless s : forallb (λ r, negb (IsSpace r)) (runes s) = true → TrimSpace s = s.
Proof. intros Hs. unfold TrimSpace. rewrite trim_left_spaceless by done. by apply trim_right_spaceless. Qed.

(** ** The order of texts *)

(** [s < t], byte by byte *)
Fixpoint text_ltb (s t : string) : bool :=
  match s, t with
  | _, EmptyString => false
  | EmptyString, String _ _ => true
  | String a s, String b t => (byte_of a <? byte_of b)%Z || ((byte_of a =? byte_of b)%Z && text_ltb s t)
  end.

Lemma byte_of_inj a b : byte_of a = byte_of b → a = b.
Proof. intros Hab. by rewrite <- (char_byte a), Hab, char_byte. Qed.
Lemma text_ltb_irrefl s : text_ltb s s = false.
Proof. induction s as [|a s IH]; [done|]. cbn. rewrite IH, Z.ltb_irrefl. by rewrite andb_false_r. Qed.
Lemma text_ltb_trans s t u : text_ltb s t = true → text_ltb t u = true → text_ltb s u = true.
Proof.
  revert t u. induction s as [|a s IH]; intros [|b t] [|c u]; cbn; try done.
  rewrite !orb_true_iff, !andb_true_iff, !Z.ltb_lt, !Z.eqb_eq. intros [Hab|[Hab Hst]] [Hbc|[Hbc Htu]]; try (left; lia).
  right. split; [lia|]. by eapply IH.
Qed.
Lemma text_ltb_total s t : text_ltb s t = false → text_ltb t s = false → s = t.
Proof.
  revert t. induction s as [|a s IH]; intros [|b t]; cbn; try done.
  rewrite !orb_false_iff, !andb_false_iff, !Z.ltb_ge, !Z.eqb_neq. intros [H1 H2] [H3 H4].
  assert (Hab : byte_of a = byte_of b) by lia. f_equal; [by apply byte_of_inj|]. apply IH; [by destruct H2|by destruct H4].
Qed.
