(* ===== verification/Node.v ===== *)
(** * The node the indexer listens to

    The types of idena-go, go-cid and shopspring/decimal that the indexer's
    code mentions, reduced to what that code reads of them, and the functions
    it calls, as the parameters of the class [NodeApi].  Nothing here is
    defined by the repository under src/ except the names: a transaction, an
    identity and an application state are records of the observations the
    indexer makes, and every function of the node is a field of [NodeApi]. *)

From S2P Require Import Prelude.

(** ** Keys *)

(** [common.Address] is [[20]byte]: the number its bytes spell, big-endian. *)
Record Address := mkAddress { address_word : Z }.
(** [common.Hash] is [[32]byte]. *)
Record Hash := mkHash { hash_word : Z }.

#[export] Instance Address_eq_dec : EqDecision Address.
Proof. solve_decision. Defined.
#[export] Instance Hash_eq_dec : EqDecision Hash.
Proof. solve_decision. Defined.
#[export] Instance Address_countable : Countable Address :=
  inj_countable' address_word mkAddress ltac:(by intros []).
#[export] Instance Hash_countable : Countable Hash :=
  inj_countable' hash_word mkHash ltac:(by intros []).
#[export] Instance Address_inhabited : Inhabited Address := populate (mkAddress 0).
#[export] Instance Hash_inhabited : Inhabited Hash := populate (mkHash 0).

(** [common.Address{}] and [common.EmptyAddress] *)
Definition zeroAddress : Address := mkAddress 0.

(** A byte string; every element is in [0, 255]. *)
Abbreviation bytes := (list Z).

(** ** Identities and transactions *)

(** [state.IdentityState]; the codes are those of dic_identity_states. *)
Inductive IdentityState :=
  | Undefined | Invite | CandidateState | Verified | Suspended
  | Killed | Zombie | Newbie | Human.

#[export] Instance IdentityState_eq_dec : EqDecision IdentityState.
Proof. solve_decision. Defined.

Definition IdentityState_code (s : IdentityState) : Z :=
  match s with
  | Undefined => 0 | Invite => 1 | CandidateState => 2 | Verified => 3
  | Suspended => 4 | Killed => 5 | Zombie => 6 | Newbie => 7 | Human => 8
  end.

Inductive TxType :=
  | SendTx | ActivationTx | InviteTx | KillTx | SubmitFlipTx
  | SubmitAnswersHashTx | SubmitShortAnswersTx | SubmitLongAnswersTx
  | EvidenceTx | OnlineStatusTx | KillInviteeTx | ChangeGodAddressTx | BurnTx
  | ChangeProfileTx | DeleteFlipTx | DeployContractTx | CallContractTx
  | TerminateContractTx | DelegateTx | UndelegateTx | KillDelegatorTx
  | StoreToIpfsTx | OtherTx (code : Z).

#[export] Instance TxType_eq_dec : EqDecision TxType.
Proof. solve_decision. Defined.

(** [types.Transaction], with the sender recovered by [types.Sender] and the
    hash computed by [Hash()] as fields. *)
Record Tx := mkTx {
  tx_Type : TxType;
  tx_Hash : Hash;
  tx_Sender : Address;
  tx_To : option Address;
  tx_Amount : option Z;
  tx_Tips : option Z;
  tx_MaxFee : option Z;
  tx_AccountNonce : Z;
  tx_Epoch : Z;
  tx_Payload : bytes;
  tx_Size : Z
}.

(** [types.FlipToReward] and [state.IdentityFlip], by their [Cid]. *)
Record FlipToReward := mkFlipToReward { ftr_Cid : bytes }.
Record IdentityFlip := mkIdentityFlip { if_Cid : bytes; if_Pair : Z }.

(** A pointer to an address: where it points, and the address there. *)
Record AddressPtr := mkAddressPtr { ap_loc : positive; ap_val : Address }.

(** [state.Identity] *)
Record Identity := mkIdentity {
  id_State : IdentityState;
  id_Stake : option Z;
  id_Penalty : option Z;
  id_PenaltySeconds : Z;
  id_Birthday : Z;
  id_PubKey : bytes;
  id_Flips : list IdentityFlip;
  id_Delegatee : option AddressPtr;
  id_InviterTxHash : option Hash;
  (** the scores of the last validations *)
  id_Scores : bytes;
  (** [ShiftedShardId()], [GetMaximumAvailableFlips()], [GetTotalWordPairsCount()] *)
  id_ShiftedShardId : Z;
  id_MaximumAvailableFlips : Z;
  id_TotalWordPairsCount : Z
}.

(** [types.ValidationResults] of one shard: the authors with their reason, and
    the good authors with their [Missed] flag. *)
Record ValidationResults := mkValidationResults {
  vr_BadAuthors : gmap Address Z;
  vr_GoodAuthors : gmap Address bool
}.

(** [types.GradeReported] *)
Definition GradeReported : Z := 1.

(** [types.TxEvent] and [types.TxReceipt] *)
Record TxEvent := mkTxEvent {
  ev_EventName : string;
  ev_Contract : Address;
  ev_Data : list bytes
}.

Record TxReceipt := mkTxReceipt {
  rc_Success : bool;
  rc_TxHash : Hash;
  rc_From : Address;
  rc_ContractAddress : Address;
  rc_Method : string;
  rc_Events : list TxEvent;
  rc_GasUsed : Z;
  rc_GasCost : option Z;
  rc_Error : option string;
  rc_ActionResult : bytes
}.

(** [types.BlockFlag] *)
Inductive BlockFlag :=
  | IdentityUpdate | FlipLotteryStarted | ShortSessionStarted | LongSessionStarted
  | AfterLongSessionStarted | ValidationFinished | Snapshot | OfflinePropose
  | OfflineCommit | NewGenesis.

#[export] Instance BlockFlag_eq_dec : EqDecision BlockFlag.
Proof. solve_decision. Defined.

(** [types.Block] with what the indexer reads of its header and of its body; its sizes
    are those of its encodings. *)
Record Block := mkBlock {
  b_Height : Z;
  b_Hash : Hash;
  b_ParentHash : Hash;
  b_Flags : list BlockFlag;
  b_Transactions : list Tx;
  b_Time : Z;
  b_Coinbase : Address;
  b_IsEmpty : bool;
  b_BodySize : Z;
  b_FullSize : Z;
  (** [Header.ProposedHeader.Upgrade], when there is a proposed header *)
  b_Upgrade : option Z;
  b_OfflineAddr : option Address
}.

(** [block.Header.Flags().HasFlag(flag)] *)
Definition HasFlag (b : Block) (flag : BlockFlag) : bool := bool_decide (flag ∈ b_Flags b).
Definition b_ValidationFinished (b : Block) : bool := HasFlag b ValidationFinished.

(** [state.DiscriminationFlag], by the flags it has *)
Record DiscriminationFlag := mkDiscriminationFlag {
  DiscriminatedNewbie : bool;
  DiscriminatedDelegation : bool;
  DiscriminatedStake : bool
}.

(** [appstate.AppState]: what the state database and the validators cache
    answer at one height. *)
Record AppState := mkAppState {
  GetBalance : Address → Z;
  GetStakeBalance : Address → Z;
  GetIdentity : Address → Identity;
  GetCodeHash : Address → option Hash;
  GetShardId : Address → Z;
  PoolSize : Address → Z;
  IsPool : Address → bool;
  IsOnlineIdentity : Address → bool;
  IterateOverIdentities : list (Address * Identity);
  IterateAccounts : list Address;
  (** the delegators of [State.Delegations()], and the sizes of the validators cache *)
  Delegations : list Address;
  OnlineSize : Z;
  ValidatorsSize : Z;
  (** [State.Epoch()], [State.EpochBlock()] *)
  Epoch : Z;
  EpochBlock : Z
}.

(** [State.GetIdentityState(addr)] and [State.Delegatee(addr)] *)
Definition GetIdentityState (st : AppState) (a : Address) : IdentityState :=
  id_State (GetIdentity st a).
Definition Delegatee (st : AppState) (a : Address) : option AddressPtr :=
  id_Delegatee (GetIdentity st a).

(** ** Functions of the node and of the libraries *)

Class NodeApi := {
  (** [decimal.Decimal] and [blockchain.ConvertToFloat] *)
  Decimal : Type;
  ConvertToFloat : option Z → Decimal;
  (** [decimal.NewFromBigInt(z, 0)], [NewFromFloat32], [Mul], [math.ToInt] *)
  Float32 : Type;
  Decimal_of_int : Z → Decimal;
  Decimal_of_float32 : Float32 → Decimal;
  Decimal_Mul : Decimal → Decimal → Decimal;
  Decimal_ToInt : Decimal → option Z;
  (** [Decimal.IsZero] and [Decimal.Cmp] *)
  Decimal_IsZero : Decimal → bool;
  Decimal_Cmp : Decimal → Decimal → Z;
  (** [Decimal.Float64] *)
  Float64 : Type;
  Decimal_Float64 : Decimal → Float64;
  (** [*big.Float]: [math.Zero] and [Add] *)
  BigFloat : Type;
  math_Zero : BigFloat;
  BigFloat_Add : BigFloat → BigFloat → BigFloat;
  (** [SetInt], [Quo], [x.Cmp(y) < 0], and [big.NewFloat] *)
  BigFloat_SetInt : Z → BigFloat;
  BigFloat_Quo : BigFloat → BigFloat → BigFloat;
  BigFloat_less : BigFloat → BigFloat → bool;
  NewFloat : Float64 → BigFloat;
  (** [float64(n)], [x / y] and [x - y] *)
  Float64_of_int : Z → Float64;
  Float64_Div : Float64 → Float64 → Float64;
  Float64_Sub : Float64 → Float64 → Float64;
  (** [math.Pow] and [float32(x)] *)
  math_Pow : Float64 → Float64 → Float64;
  Float32_of_Float64 : Float64 → Float32;
  (** [crypto.Hash] *)
  crypto_Hash : bytes → bytes;
  (** [helpers.ExtractByte(0, b)]: the value, and whether there is no error *)
  ExtractByte : bytes → Z * bool;
  (** [Address.Hex], [Hash.Hex] and their inverses *)
  address_Hex : Address → string;
  hash_Hex : Hash → string;
  HexToAddress : string → Address;
  HexToHash : string → Hash;
  (** [Address.Bytes] and [Address.SetBytes] *)
  address_Bytes : Address → bytes;
  address_SetBytes : bytes → Address;
  (** [cid.Parse] ([None] on an error), [Cid.String], and the zero [Cid] *)
  Cid : Type;
  cid_Parse : bytes → option Cid;
  cid_String : Cid → string;
  cid_Undef : Cid;
  (** [IdentityState.NewbieOrBetter] *)
  NewbieOrBetter : IdentityState → bool
}.

(** Documented behaviour the theorems rely on. *)
Class NodeLaws `{NodeApi} := {
  (** the hexadecimal form determines the address and the hash *)
  address_Hex_inj :: Inj (=) (=) address_Hex;
  hash_Hex_inj :: Inj (=) (=) hash_Hex;
  HexToAddress_Hex a : HexToAddress (address_Hex a) = a
}.

(** The string a parsed cid is stored under; the zero [Cid] when parsing
    fails and the error is ignored ([flipCid, _ := cid.Parse(..)]). *)
Definition cid_text `{NodeApi} (b : bytes) : string :=
  cid_String (default cid_Undef (cid_Parse b)).

(** ** The statistics of a validation *)

(** [statsTypes.FlipAnswerStats], [FlipStats], [IdentityStats],
    [ValidationShardStats] and [ValidationStats]. *)
Record FlipAnswerStats `{NodeApi} := mkFlipAnswerStats {
  fas_Respondent : Address;
  fas_Answer : Z;
  fas_Point : Float32;
  fas_Grade : Z;
  fas_Index : Z;
  fas_Considered : bool
}.

Record FlipStats `{NodeApi} := mkFlipStats {
  fs_ShortAnswers : list FlipAnswerStats;
  fs_LongAnswers : list FlipAnswerStats;
  fs_Status : Z;
  fs_Answer : Z;
  fs_Grade : Z;
  fs_GradeScore : Decimal
}.

Record IdentityStats `{NodeApi} := mkIdentityStats {
  is_ShortPoint : Float32;
  is_ShortFlips : Z;
  is_LongPoint : Float32;
  is_LongFlips : Z;
  is_LongFlipsToSolve : list Z;
  is_ShortFlipsToSolve : list Z;
  is_Approved : bool;
  is_Missed : bool
}.

Record ValidationShardStats `{NodeApi} := mkValidationShardStats {
  vss_FlipCids : list bytes;
  vss_FlipsPerIdx : gmap Z FlipStats;
  vss_IdentitiesPerAddr : gmap Address IdentityStats;
  vss_WrongGradeReasons : gmap Address Z
}.

Record ValidationStats `{NodeApi} := mkValidationStats {
  vs_Shards : option (gmap Z ValidationShardStats);
  vs_Failed : bool
}.

(** ** A concrete instance, for evaluating the definitions on inputs *)

Fixpoint sample_digits (n : nat) : string :=
  match n with
  | O => EmptyString
  | S n' => String.String (Ascii.ascii_of_nat 49) (sample_digits n')
  end.

Definition sample_hex (z : Z) : string :=
  match z with
  | Z0 => "0x"
  | Zpos p => String.append "0x" (sample_digits (Pos.to_nat p))
  | Zneg p => String.append "-x" (sample_digits (Pos.to_nat p))
  end%string.

Definition sample_unhex (s : string) : Z :=
  (if String.prefix "-" s then - Z.of_nat (String.length s - 2)
   else Z.of_nat (String.length s - 2))%Z.

Definition sample_newbie_or_better (s : IdentityState) : bool :=
  match s with Newbie | Verified | Human => true | _ => false end.

#[export] Instance SampleApi : NodeApi := {|
  Decimal := Z;
  ConvertToFloat := or_zero;
  Float32 := Z;
  Decimal_of_int z := z;
  Decimal_of_float32 z := z;
  Decimal_Mul := Z.mul;
  Decimal_ToInt z := Some z;
  Decimal_IsZero z := (z =? 0)%Z;
  Decimal_Cmp x y := Z.sgn (x - y);
  Float64 := Z;
  Decimal_Float64 z := z;
  BigFloat := Z;
  math_Zero := 0%Z;
  BigFloat_Add := Z.add;
  BigFloat_SetInt z := z;
  BigFloat_Quo := Z.div;
  BigFloat_less := Z.ltb;
  NewFloat z := z;
  Float64_of_int z := z;
  Float64_Div := Z.div;
  Float64_Sub := Z.sub;
  math_Pow x _ := x;
  Float32_of_Float64 z := z;
  crypto_Hash b := b;
  ExtractByte b := match b with z :: _ => (z, true) | [] => (0%Z, false) end;
  address_Hex a := sample_hex (address_word a);
  hash_Hex h := sample_hex (hash_word h);
  HexToAddress s := mkAddress (sample_unhex s);
  HexToHash s := mkHash (sample_unhex s);
  address_Bytes a := replicate 19 0%Z ++ [address_word a];
  address_SetBytes b := mkAddress (foldl (λ acc x, acc * 256 + x)%Z 0%Z b);
  Cid := bytes;
  cid_Parse b := match b with [] => None | _ => Some b end;
  cid_String b := match b with [] => "b"%string | _ => sample_digits (Z.to_nat (sumZ id b)) end;
  cid_Undef := [];
  NewbieOrBetter := sample_newbie_or_better
|}.

Lemma sample_digits_length n : String.length (sample_digits n) = n.
Proof. induction n as [|n IH]; simpl; [done|]. by rewrite IH. Qed.

Lemma sample_unhex_hex z : sample_unhex (sample_hex z) = z.
Proof.
  destruct z as [|p|p]; [done| |]; unfold sample_hex, sample_unhex, String.append; cbn;
    rewrite sample_digits_length; lia.
Qed.

#[export] Instance SampleLaws : NodeLaws.
Proof.
  split.
  - intros [a] [b] Hab. cbn in Hab. f_equal.
    rewrite <- (sample_unhex_hex a), <- (sample_unhex_hex b). by rewrite Hab.
  - intros [a] [b] Hab. cbn in Hab. f_equal.
    rewrite <- (sample_unhex_hex a), <- (sample_unhex_hex b). by rewrite Hab.
  - intros [a]. cbn. f_equal. apply sample_unhex_hex.
Qed.

(** An identity, a state and a transaction with every field empty. *)
Definition sample_identity : Identity :=
  {| id_State := Undefined; id_Stake := None; id_Penalty := None;
     id_PenaltySeconds := 0; id_Birthday := 0; id_PubKey := []; id_Flips := [];
     id_Delegatee := None; id_InviterTxHash := None; id_Scores := [];
     id_ShiftedShardId := 1; id_MaximumAvailableFlips := 0; id_TotalWordPairsCount := 0 |}.

Definition sample_state : AppState :=
  {| GetBalance _ := 0%Z; GetStakeBalance _ := 0%Z;
     GetIdentity _ := sample_identity; GetCodeHash _ := None;
     GetShardId _ := 1%Z; PoolSize _ := 0%Z; IsPool _ := false;
     IsOnlineIdentity _ := false; IterateOverIdentities := [];
     IterateAccounts := []; Delegations := []; OnlineSize := 0%Z;
     ValidatorsSize := 0%Z; Epoch := 0%Z; EpochBlock := 0%Z |}.

Definition sample_tx : Tx :=
  {| tx_Type := SendTx; tx_Hash := mkHash 1; tx_Sender := mkAddress 1;
     tx_To := None; tx_Amount := None; tx_Tips := None; tx_MaxFee := None;
     tx_AccountNonce := 0; tx_Epoch := 0; tx_Payload := []; tx_Size := 0 |}.

Definition sample_block (height hash parent : Z) : Block :=
  {| b_Height := height; b_Hash := mkHash hash; b_ParentHash := mkHash parent; b_Flags := [];
     b_Transactions := []; b_Time := 0; b_Coinbase := mkAddress 0; b_IsEmpty := false;
     b_BodySize := 0; b_FullSize := 0; b_Upgrade := None; b_OfflineAddr := None |}.
