(* ===== verification/Rewards.v ===== *)
(** * Epoch rewards of the statistics collector

    core/stats/collector.go, the methods [SetTotal*], [Add*Reward] and their
    helpers, and the reward types of core/stats/types.go.  The collector keeps
    a list of reward records, an index of the mergeable ones, the rewards
    forwarded to pools, and the total of each address.

    The amounts are [*big.Int]: a record keeps the pointers its caller passed
    and a later reward of the same type and address is added into them in
    place, so the integers live in a store.  The theorems relate every view of
    the collected rewards to the sequence of calls. *)

From S2P Require Import Prelude Node.

(** ** Reward types *)

(** Go: core/stats/types.go RewardType:12-31 *)
Inductive RewardType :=
  | Validation | Flips | Invitations | FoundationPayouts | ZeroWalletFund
  | Invitations2 | Invitations3 | SavedInvite | SavedInviteWin | ReportedFlips
  | Staking | Candidate | ExtraFlips | Invitee1 | Invitee2 | Invitee3.

#[export] Instance RewardType_eq_dec : EqDecision RewardType.
Proof. solve_decision. Defined.

(** Go: indexer/rewards.go convertRewardType *)
Definition RewardType_byte (t : RewardType) : Z :=
  match t with
  | Validation => 0 | Flips => 1 | Invitations => 2 | FoundationPayouts => 3
  | ZeroWalletFund => 4 | Invitations2 => 5 | Invitations3 => 6
  | SavedInvite => 7 | SavedInviteWin => 8 | ReportedFlips => 9
  | Staking => 10 | Candidate => 11 | ExtraFlips => 12
  | Invitee1 => 13 | Invitee2 => 14 | Invitee3 => 15
  end.

Definition all_reward_types : list RewardType :=
  [Validation; Flips; Invitations; FoundationPayouts; ZeroWalletFund;
   Invitations2; Invitations3; SavedInvite; SavedInviteWin; ReportedFlips;
   Staking; Candidate; ExtraFlips; Invitee1; Invitee2; Invitee3].

Definition RewardType_of_byte (z : Z) : option RewardType :=
  find (λ t, (RewardType_byte t =? z)%Z) all_reward_types.

Lemma RewardType_of_byte_byte t : RewardType_of_byte (RewardType_byte t) = Some t.
Proof. by destruct t. Qed.

#[export] Instance RewardType_countable : Countable RewardType :=
  inj_countable RewardType_byte RewardType_of_byte RewardType_of_byte_byte.

(** ** Data *)

(** A [*big.Int]. *)
Abbreviation ptr := positive.

(** Go: core/stats/types.go RewardStats:127-132 *)
Record RewardStats := mkRewardStats {
  rs_Address : Address;
  rs_Balance : ptr;
  rs_Stake : ptr;
  rs_Type : RewardType
}.

(** Go: core/stats/types.go EpochReward:143-146 *)
Record EpochReward := mkEpochReward { er_Balance : Z; er_Stake : Z }.

(** Go: core/stats/types.go DelegatorEpochRewards:139-141 *)
Record DelegatorEpochRewards := mkDelegatorEpochRewards {
  EpochRewards : gmap RewardType EpochReward
}.

(** Go: core/stats/types.go DelegateeEpochRewards:134-137 *)
Record DelegateeEpochRewards := mkDelegateeEpochRewards {
  TotalRewards : gmap RewardType EpochReward;
  DelegatorsEpochRewards : gmap Address DelegatorEpochRewards
}.

(** Go: db/types.go RewardedInvite:181-185 *)
Record RewardedInvite := mkRewardedInvite {
  ri_TxHash : string; ri_Type : Z; ri_EpochHeight : Z
}.
(** Go: db/types.go RewardedInvitee:187-190 *)
Record RewardedInvitee := mkRewardedInvitee {
  rie_TxHash : string; rie_EpochHeight : Z
}.
(** Go: db/types.go ReportedFlipReward:198-203 *)
Record ReportedFlipReward `{NodeApi} := mkReportedFlipReward {
  rfr_Address : string; rfr_Balance : Decimal; rfr_Stake : Decimal;
  rfr_Cid : string
}.

(** Go: core/stats/types.go RewardsStats:94-125

    A nil map and an empty map answer every read of the program alike, so
    both are [∅]. *)
Record RewardsStats `{NodeApi} := mkRewardsStats {
  ValidationResultsByShard : gmap Z ValidationResults;
  Total : option Z;
  ValidationTotal : option Z; ValidationShare : option Z;
  StakingTotal : option Z; StakingShare : option Z;
  CandidateTotal : option Z; CandidateShare : option Z;
  FlipsTotal : option Z; FlipsShare : option Z;
  FlipsExtra : option Z; FlipsExtraShare : option Z;
  Reports : option Z; ReportsShare : option Z;
  InvitationsTotal : option Z; InvitationsShare : option Z;
  FoundationPayoutsTotal : option Z;
  ZeroWalletFundTotal : option Z;
  Rewards : list RewardStats;
  DelegateesEpochRewards : gmap Address DelegateeEpochRewards;
  AgesByAddress : gmap string Z;
  StakedAmountsByAddress : gmap string Z;
  FailedStakedAmountsByAddress : gmap string Z;
  RewardedFlipCids : list string;
  RewardedExtraFlipCids : list string;
  RewardedInvites : list RewardedInvite;
  RewardedInvitees : list RewardedInvitee;
  SavedInviteRewardsCountByAddrAndType : gmap Address (gmap RewardType Z);
  ReportedFlipRewards : list ReportedFlipReward;
  TotalRewardsByAddr : gmap Address Z
}.

Definition emptyRewardsStats `{NodeApi} : RewardsStats :=
  mkRewardsStats _ ∅ None None None None None None None None None None None
    None None None None None None [] ∅ ∅ ∅ ∅ [] [] [] [] ∅ [] ∅.

(** The part of [statsCollector] the reward methods read and write: the store
    of integers, [c.stats.RewardsStats], [c.pending.epochRewardsByTypeAndAddr],
    [c.stats.ValidationStats] and [c.consensusConf.EnableUpgrade11]. *)
Record Rw `{NodeApi} := mkRw {
  rw_ints : gmap ptr Z;
  rw_stats : option RewardsStats;
  rw_index : gmap RewardType (gmap Address RewardStats);
  rw_validation : option ValidationStats;
  rw_upgrade11 : bool
}.

Section operations.
Context `{NodeApi}.

(** *** The store *)

Definition load (p : ptr) : M Rw Z := λ st,
  match rw_ints st !! p with Some z => Done (z, st) | None => Panic end.
Definition store (p : ptr) (z : Z) : M Rw unit :=
  modify_st (λ st, st <| rw_ints ::= insert p z |>).
(** [new(big.Int)], then [Set(z)] *)
Definition alloc (z : Z) : M Rw ptr := λ st,
  let p := fresh (dom (rw_ints st)) in
  Done (p, st <| rw_ints ::= insert p z |>).
(** the value behind a pointer that may be nil *)
Definition load_opt (p : option ptr) : M Rw (option Z) :=
  match p with
  | None => mret None
  | Some p => z ← load p; mret (Some z)
  end.
(** [if v == nil { v = new(big.Int) }] *)
Definition or_new (p : option ptr) : M Rw ptr :=
  match p with None => alloc 0 | Some p => mret p end.

(** *** The statistics *)

(** Go: core/stats/collector.go initRewardStats *)
Definition initRewardStats : M Rw unit :=
  modify_st (λ st, st <| rw_stats ::= λ s, Some (default emptyRewardsStats s) |>).

(** an assignment to a field of [*c.stats.RewardsStats]; nil panics *)
Definition with_stats (f : RewardsStats → RewardsStats) : M Rw unit := λ st,
  match rw_stats st with
  | None => Panic
  | Some s => Done (tt, st <| rw_stats := Some (f s) |>)
  end.

(** Go: core/stats/collector.go SetValidationResults *)
Definition SetValidationResults (vr : gmap Z ValidationResults) : M Rw unit :=
  initRewardStats;; with_stats (λ s, s <| ValidationResultsByShard := vr |>).

(** Go: core/stats/collector.go SetTotalReward *)
Definition SetTotalReward (amount : option Z) : M Rw unit :=
  initRewardStats;; with_stats (λ s, s <| Total := amount |>).
(** Go: core/stats/collector.go SetTotalValidationReward *)
Definition SetTotalValidationReward (amount share : option Z) : M Rw unit :=
  initRewardStats;;
  with_stats (λ s, s <| ValidationTotal := amount |> <| ValidationShare := share |>).
(** Go: core/stats/collector.go SetTotalStakingReward *)
Definition SetTotalStakingReward (amount share : option Z) : M Rw unit :=
  initRewardStats;;
  with_stats (λ s, s <| StakingTotal := amount |> <| StakingShare := share |>).
(** Go: core/stats/collector.go SetTotalCandidateReward *)
Definition SetTotalCandidateReward (amount share : option Z) : M Rw unit :=
  initRewardStats;;
  with_stats (λ s, s <| CandidateTotal := amount |> <| CandidateShare := share |>).
(** Go: core/stats/collector.go SetTotalFlipsBasicReward *)
Definition SetTotalFlipsBasicReward (amount share : option Z) : M Rw unit :=
  initRewardStats;;
  with_stats (λ s, s <| FlipsTotal := amount |> <| FlipsShare := share |>).
(** Go: core/stats/collector.go SetTotalFlipsExtraReward *)
Definition SetTotalFlipsExtraReward (amount share : option Z) : M Rw unit :=
  initRewardStats;;
  with_stats (λ s, s <| FlipsExtra := amount |> <| FlipsExtraShare := share |>).
(** Go: core/stats/collector.go SetTotalReportsReward *)
Definition SetTotalReportsReward (amount share : option Z) : M Rw unit :=
  initRewardStats;;
  with_stats (λ s, s <| Reports := amount |> <| ReportsShare := share |>).
(** Go: core/stats/collector.go SetTotalInvitationsReward *)
Definition SetTotalInvitationsReward (amount share : option Z) : M Rw unit :=
  initRewardStats;;
  with_stats (λ s, s <| InvitationsTotal := amount |> <| InvitationsShare := share |>).
(** Go: core/stats/collector.go SetTotalFoundationPayouts *)
Definition SetTotalFoundationPayouts (amount : option Z) : M Rw unit :=
  initRewardStats;; with_stats (λ s, s <| FoundationPayoutsTotal := amount |>).
(** Go: core/stats/collector.go SetTotalZeroWalletFund *)
Definition SetTotalZeroWalletFund (amount : option Z) : M Rw unit :=
  initRewardStats;; with_stats (λ s, s <| ZeroWalletFundTotal := amount |>).

(** *** Reward records *)

(** The types whose rewards are merged into one record per address, the
    condition of [increaseEpochRewardIfExists]. *)
Definition merged (t : RewardType) : bool :=
  match t with
  | Invitations | Invitations2 | Invitations3 | SavedInvite | SavedInviteWin
  | ReportedFlips | Flips | ExtraFlips | Validation => true
  | _ => false
  end.

(** Go: core/stats/collector.go increaseEpochRewardIfExists *)
Definition increaseEpochRewardIfExists (r : RewardStats) : M Rw bool :=
  if negb (merged (rs_Type r)) then mret false else
  index ← gets rw_index;
  let rewardsByAddr := default ∅ (index !! rs_Type r) in
  match rewardsByAddr !! rs_Address r with
  | Some reward =>
      b ← load (rs_Balance reward);
      rb ← load (rs_Balance r);
      store (rs_Balance reward) (b + rb);;
      s ← load (rs_Stake reward);
      sb ← load (rs_Stake r);
      store (rs_Stake reward) (s + sb);;
      mret true
  | None =>
      modify_st (λ st, st <| rw_index ::=
        insert (rs_Type r) (<[rs_Address r := r]> rewardsByAddr) |>);;
      mret false
  end.

(** Go: core/stats/collector.go addReward *)
Definition addReward (addr : Address) (balance stake : option ptr)
    (rewardType : RewardType) : M Rw unit :=
  b ← load_opt balance;
  s ← load_opt stake;
  if nil_or_zero b && nil_or_zero s then mret tt else
  balance ← or_new balance;
  stake ← or_new stake;
  initRewardStats;;
  let rewardsStats := mkRewardStats addr balance stake rewardType in
  exists_ ← increaseEpochRewardIfExists rewardsStats;
  if (exists_ : bool) then mret tt else
  with_stats (λ s, s <| Rewards ::= λ l, l ++ [rewardsStats] |>).

(** Go: core/stats/collector.go addAddrTotalReward *)
Definition addAddrTotalReward (addr : Address) (balance stake : option ptr)
    : M Rw unit :=
  b ← load_opt balance;
  s ← load_opt stake;
  if nil_or_zero b && nil_or_zero s then mret tt else
  initRewardStats;;
  let reward := (or_zero b + or_zero s)%Z in
  with_stats (λ st, st <| TotalRewardsByAddr ::= λ m,
    match m !! addr with
    | Some amount => <[addr := (amount + reward)%Z]> m
    | None => <[addr := reward]> m
    end |>).

Definition add_epoch_reward (m : gmap RewardType EpochReward) (t : RewardType)
    (balance stake : Z) : gmap RewardType EpochReward :=
  let r := default (mkEpochReward 0 0) (m !! t) in
  <[t := mkEpochReward (er_Balance r + balance) (er_Stake r + stake)]> m.

(** Go: core/stats/collector.go addDelegateeReward

    The integers of an [EpochReward] are allocated here and reachable from
    the maps only, so they are kept as values. *)
Definition addDelegateeReward (delegator delegatee : Address)
    (balance stake : option ptr) (rewardType : RewardType) : M Rw unit :=
  b ← load_opt balance;
  s ← load_opt stake;
  if nil_or_zero b && nil_or_zero s then mret tt else
  initRewardStats;;
  with_stats (λ st, st <| DelegateesEpochRewards ::= λ m,
    let d := default (mkDelegateeEpochRewards ∅ ∅) (m !! delegatee) in
    let dr := default (mkDelegatorEpochRewards ∅)
                      (DelegatorsEpochRewards d !! delegator) in
    <[delegatee := mkDelegateeEpochRewards
        (add_epoch_reward (TotalRewards d) rewardType (or_zero b) (or_zero s))
        (<[delegator := mkDelegatorEpochRewards
             (add_epoch_reward (EpochRewards dr) rewardType (or_zero b) (or_zero s))]>
          (DelegatorsEpochRewards d))]> m |>).

(** [if balanceDest != stakeDest { c.addDelegateeReward(stakeDest, balanceDest, ...) }] *)
Definition delegate_unless_own (balanceDest stakeDest : Address)
    (balance : option ptr) (t : RewardType) : M Rw unit :=
  if decide (balanceDest = stakeDest) then mret tt
  else addDelegateeReward stakeDest balanceDest balance None t.

(** *** The reward methods *)

(** Go: core/stats/collector.go AddValidationReward *)
Definition AddValidationReward (balanceDest stakeDest : Address) (age : Z)
    (balance stake : option ptr) : M Rw unit :=
  addReward stakeDest balance stake Validation;;
  delegate_unless_own balanceDest stakeDest balance Validation;;
  initRewardStats;;
  with_stats (λ s, s <| AgesByAddress ::=
    insert (address_Hex stakeDest) (u16 (age + 1)) |>);;
  addAddrTotalReward stakeDest balance stake.

(** Go: core/stats/collector.go AddCandidateReward *)
Definition AddCandidateReward (balanceDest stakeDest : Address)
    (balance stake : option ptr) : M Rw unit :=
  addReward stakeDest balance stake Candidate;;
  delegate_unless_own balanceDest stakeDest balance Candidate;;
  initRewardStats;;
  addAddrTotalReward stakeDest balance stake.

(** Go: core/stats/collector.go AddStakingReward *)
Definition AddStakingReward (balanceDest stakeDest : Address)
    (stakedAmount : option Z) (balance stake : option ptr) : M Rw unit :=
  addReward stakeDest balance stake Staking;;
  delegate_unless_own balanceDest stakeDest balance Staking;;
  initRewardStats;;
  match stakedAmount with
  | None => mret tt
  | Some a => with_stats (λ s, s <| StakedAmountsByAddress ::=
                insert (address_Hex stakeDest) a |>)
  end;;
  addAddrTotalReward stakeDest balance stake.

(** Go: core/stats/collector.go addRewardedFlips *)
Definition addRewardedFlips (flips : list FlipToReward) : M Rw unit :=
  match flips with
  | [] => mret tt
  | _ => initRewardStats;;
         with_stats (λ s, s <| RewardedFlipCids ::= λ l,
           l ++ ((λ f, cid_text (ftr_Cid f)) <$> flips) |>)
  end.

(** Go: core/stats/collector.go addRewardedExtraFlips *)
Definition addRewardedExtraFlips (flips : list FlipToReward) : M Rw unit :=
  match flips with
  | [] => mret tt
  | _ => initRewardStats;;
         with_stats (λ s, s <| RewardedExtraFlipCids ::= λ l,
           l ++ ((λ f, cid_text (ftr_Cid f)) <$> flips) |>)
  end.

(** Go: core/stats/collector.go AddFlipsBasicReward *)
Definition AddFlipsBasicReward (balanceDest stakeDest : Address)
    (balance stake : option ptr) (flipsToReward : list FlipToReward) : M Rw unit :=
  addReward stakeDest balance stake Flips;;
  delegate_unless_own balanceDest stakeDest balance Flips;;
  upgrade11 ← gets rw_upgrade11;
  (if negb upgrade11 || (length flipsToReward <=? 3)%nat
   then addRewardedFlips flipsToReward
   else addRewardedFlips (take 3 flipsToReward);;
        addRewardedExtraFlips (drop 3 flipsToReward));;
  addAddrTotalReward stakeDest balance stake.

(** Go: core/stats/collector.go AddFlipsExtraReward *)
Definition AddFlipsExtraReward (balanceDest stakeDest : Address)
    (balance stake : option ptr) (flipsToReward : list FlipToReward) : M Rw unit :=
  addReward stakeDest balance stake ExtraFlips;;
  delegate_unless_own balanceDest stakeDest balance ExtraFlips;;
  upgrade11 ← gets rw_upgrade11;
  (if negb upgrade11 then addRewardedExtraFlips flipsToReward else mret tt);;
  addAddrTotalReward stakeDest balance stake.

(** Go: core/stats/collector.go getFlipCid *)
Definition getFlipCid (shardId flipIdx : Z) : M Rw (option bytes) :=
  if (flipIdx <? 0)%Z then mret None else
  v ← gets rw_validation;
  match v with
  | None => panic
  | Some vs =>
      mret (shards ← vs_Shards vs;
            shard ← shards !! shardId;
            vss_FlipCids shard !! Z.to_nat flipIdx)
  end.

(** Go: core/stats/collector.go addReportedFlipReward *)
Definition addReportedFlipReward (addr : Address) (shardId flipIdx : Z)
    (balance stake : option ptr) : M Rw unit :=
  cidBytes ← getFlipCid shardId flipIdx;
  match (cidBytes : option bytes) with
  | None => mret tt
  | Some cidBytes =>
      initRewardStats;;
      b ← load_opt balance;
      s ← load_opt stake;
      with_stats (λ st, st <| ReportedFlipRewards ::= λ l,
        l ++ [mkReportedFlipReward _ (address_Hex addr) (ConvertToFloat b)
                (ConvertToFloat s) (cid_text cidBytes)] |>)
  end.

(** Go: core/stats/collector.go AddReportedFlipsReward *)
Definition AddReportedFlipsReward (balanceDest stakeDest : Address)
    (shardId flipIdx : Z) (balance stake : option ptr) : M Rw unit :=
  addReward stakeDest balance stake ReportedFlips;;
  delegate_unless_own balanceDest stakeDest balance ReportedFlips;;
  addReportedFlipReward stakeDest shardId flipIdx balance stake;;
  addAddrTotalReward stakeDest balance stake.

(** Go: core/stats/collector.go determineInviteeRewardType *)
Definition determineInviteeRewardType (age : Z) : M Rw RewardType :=
  if (age =? 1)%Z then mret Invitee1
  else if (age =? 2)%Z then mret Invitee2
  else if (age =? 3)%Z then mret Invitee3
  else panic.

(** Go: core/stats/collector.go addRewardedInvitee *)
Definition addRewardedInvitee (txHash : Hash) (epochHeight : Z) : M Rw unit :=
  initRewardStats;;
  with_stats (λ s, s <| RewardedInvitees ::= λ l,
    l ++ [mkRewardedInvitee (hash_Hex txHash) epochHeight] |>).

(** Go: core/stats/collector.go AddInviteeReward *)
Definition AddInviteeReward (addr : Address) (stake : option ptr) (age : Z)
    (txHash : Hash) (epochHeight : Z) : M Rw unit :=
  rewardType ← determineInviteeRewardType age;
  addReward addr None stake rewardType;;
  addRewardedInvitee txHash epochHeight;;
  addAddrTotalReward addr None stake.

(** Go: core/stats/collector.go determineInvitationsRewardType *)
Definition determineInvitationsRewardType (age : Z) (isSavedInviteWinner : bool)
    : option RewardType :=
  if (age =? 0)%Z then Some (if isSavedInviteWinner then SavedInviteWin else SavedInvite)
  else if (age =? 1)%Z then Some Invitations
  else if (age =? 2)%Z then Some Invitations2
  else if (age =? 3)%Z then Some Invitations3
  else None.

(** Go: core/stats/collector.go addRewardedInvite *)
Definition addRewardedInvite (addr : Address) (txHash : option Hash)
    (rewardType : RewardType) (epochHeight : Z) : M Rw unit :=
  if decide (rewardType = SavedInviteWin ∨ rewardType = SavedInvite) then
    initRewardStats;;
    with_stats (λ s, s <| SavedInviteRewardsCountByAddrAndType ::= λ m,
      let byType := default ∅ (m !! addr) in
      <[addr := <[rewardType := u8 (default 0%Z (byType !! rewardType) + 1)]> byType]> m |>)
  else
    match txHash with
    | None => mret tt
    | Some h =>
        initRewardStats;;
        with_stats (λ s, s <| RewardedInvites ::= λ l,
          l ++ [mkRewardedInvite (hash_Hex h) (RewardType_byte rewardType) epochHeight] |>)
    end.

(** Go: core/stats/collector.go AddInvitationsReward *)
Definition AddInvitationsReward (balanceDest stakeDest : Address)
    (balance stake : option ptr) (age : Z) (txHash : option Hash)
    (epochHeight : Z) (isSavedInviteWinner : bool) : M Rw unit :=
  match determineInvitationsRewardType age isSavedInviteWinner with
  | None => mret tt
  | Some rewardType =>
      addReward stakeDest balance stake rewardType;;
      delegate_unless_own balanceDest stakeDest balance rewardType;;
      addRewardedInvite stakeDest txHash rewardType epochHeight;;
      addAddrTotalReward stakeDest balance stake
  end.

(** Go: core/stats/collector.go AddFoundationPayout *)
Definition AddFoundationPayout (addr : Address) (balance : option ptr) : M Rw unit :=
  addReward addr balance None FoundationPayouts.
(** Go: core/stats/collector.go AddZeroWalletFund *)
Definition AddZeroWalletFund (addr : Address) (balance : option ptr) : M Rw unit :=
  addReward addr balance None ZeroWalletFund.

(** Go: core/stats/collector.go AddNonValidatedStake *)
Definition AddNonValidatedStake (addr : Address) (amount : option Z) : M Rw unit :=
  match amount with
  | None => mret tt
  | Some a =>
      initRewardStats;;
      with_stats (λ s, s <| FailedStakedAmountsByAddress ::=
        insert (address_Hex addr) a |>)
  end.
(** Go: core/stats/collector.go AddPenalizedStake *)
Definition AddPenalizedStake (addr : Address) (amount : option Z) : M Rw unit :=
  AddNonValidatedStake addr amount.
End operations.

(** ** Specification

    [owned] are the integers reachable from the reward records, [amount] is
    what the records hold for a type and an address, [total_of] and the two
    [pool_*] functions read the other views. *)

Section specification.
Context `{NodeApi}.
Implicit Types st : Rw.

Definition stats_of st : RewardsStats := default emptyRewardsStats (rw_stats st).
Definition records st : list RewardStats := Rewards (stats_of st).
Definition indexed st (t : RewardType) (a : Address) : option RewardStats :=
  default ∅ (rw_index st !! t) !! a.
Definition value st (p : ptr) : Z := default 0%Z (rw_ints st !! p).
Definition owned st (p : ptr) : Prop :=
  ∃ r, r ∈ records st ∧ (p = rs_Balance r ∨ p = rs_Stake r).

Definition amount (sel : RewardStats → ptr) st (t : RewardType) (a : Address) : Z :=
  sumZ (λ r, if decide (rs_Type r = t ∧ rs_Address r = a)
             then value st (sel r) else 0%Z) (records st).

Definition total_of st (a : Address) : Z :=
  default 0%Z (TotalRewardsByAddr (stats_of st) !! a).

Definition pool_of st (d : Address) : DelegateeEpochRewards :=
  default (mkDelegateeEpochRewards ∅ ∅) (DelegateesEpochRewards (stats_of st) !! d).
Definition reward_at (m : gmap RewardType EpochReward) (t : RewardType) : Z :=
  er_Balance (default (mkEpochReward 0 0) (m !! t)).
Definition pool_total st (d : Address) (t : RewardType) : Z :=
  reward_at (TotalRewards (pool_of st d)) t.
Definition pool_share st (d g : Address) (t : RewardType) : Z :=
  reward_at (EpochRewards (default (mkDelegatorEpochRewards ∅)
    (DelegatorsEpochRewards (pool_of st d) !! g))) t.

(** No two records share an integer, every integer exists, and the index
    holds exactly the records of the merged types. *)
Record wf st : Prop := {
  wf_separate : ∀ i j r r', records st !! i = Some r → records st !! j = Some r' →
    rs_Balance r ≠ rs_Stake r' ∧
    (rs_Balance r = rs_Balance r' → i = j) ∧ (rs_Stake r = rs_Stake r' → i = j);
  wf_dom : ∀ p, owned st p → is_Some (rw_ints st !! p);
  wf_index : ∀ t a r, indexed st t a = Some r →
    r ∈ records st ∧ rs_Type r = t ∧ rs_Address r = a ∧ merged t = true;
  wf_indexed : ∀ r, r ∈ records st → merged (rs_Type r) = true →
    indexed st (rs_Type r) (rs_Address r) = Some r
}.

(** A pointer a caller may pass: nil, or an integer no record holds. *)
Definition passable st (p : option ptr) : Prop :=
  match p with None => True | Some p => is_Some (rw_ints st !! p) ∧ ¬ owned st p end.
Definition readable st (p : option ptr) : Prop :=
  match p with None => True | Some p => is_Some (rw_ints st !! p) end.
Definition read st (p : option ptr) : option Z := p ≫= λ p, rw_ints st !! p.
Definition distinct (p q : option ptr) : Prop := p = None ∨ p ≠ q.

(** [st'] is [st] with more integers. *)
Definition grown st st' : Prop :=
  ∃ ints, st' = st <| rw_ints := ints |> ∧ rw_ints st ⊆ ints.

(** Everything the views read, integers apart, is the same. *)
Definition same_views st st' : Prop :=
  Rewards (stats_of st') = Rewards (stats_of st) ∧
  TotalRewardsByAddr (stats_of st') = TotalRewardsByAddr (stats_of st) ∧
  DelegateesEpochRewards (stats_of st') = DelegateesEpochRewards (stats_of st) ∧
  rw_index st' = rw_index st ∧ rw_ints st' = rw_ints st ∧
  rw_validation st' = rw_validation st ∧ rw_upgrade11 st' = rw_upgrade11 st.

(** *** The store *)

Lemma wp_load p z (Q : Z → Rw → Prop) st :
  rw_ints st !! p = Some z → Q z st → wp (load p) Q st.
Proof. unfold wp, load. by intros ->. Qed.

Lemma wp_load_opt p (Q : option Z → Rw → Prop) st :
  readable st p → Q (read st p) st → wp (load_opt p) Q st.
Proof.
  destruct p as [p|]; cbn; [|done]. intros [z Hz] HQ.
  apply wp_bind, (wp_load _ z); [done|]. apply wp_ret. by rewrite <- Hz.
Qed.

Lemma passable_readable st p : passable st p → readable st p.
Proof. destruct p; cbn; tauto. Qed.

Lemma grown_refl st : grown st st.
Proof. exists (rw_ints st). by destruct st. Qed.

Lemma grown_lookup st st' p z :
  grown st st' → rw_ints st !! p = Some z → rw_ints st' !! p = Some z.
Proof. intros (ints & -> & Hsub) Hp. cbn. by eapply lookup_weaken. Qed.

Lemma grown_trans st1 st2 st3 : grown st1 st2 → grown st2 st3 → grown st1 st3.
Proof.
  intros (i2 & -> & H2) (i3 & -> & H3). exists i3. split; [done|].
  cbn in H3. by etrans.
Qed.

Lemma grown_wf st st' : grown st st' → wf st → wf st'.
Proof.
  intros Hg [Hsep Hdom Hix Hixd]. destruct Hg as (ints & -> & Hsub).
  split; [exact Hsep| |exact Hix|exact Hixd].
  intros p Hp. destruct (Hdom p Hp) as [z Hz]. exists z. cbn.
  by eapply lookup_weaken.
Qed.

Lemma grown_amount st st' sel t a :
  (sel = rs_Balance ∨ sel = rs_Stake) →
  grown st st' → wf st → amount sel st' t a = amount sel st t a.
Proof.
  intros Hsel Hg Hwf. unfold amount.
  assert (records st' = records st) as -> by (by destruct Hg as (? & -> & _)).
  apply sumZ_ext. intros r Hr. destruct (decide _); [|done].
  destruct (wf_dom _ Hwf (sel r)) as [z Hz].
  { exists r. destruct Hsel; subst; tauto. }
  unfold value. by rewrite Hz, (grown_lookup st st' _ z Hg Hz).
Qed.

Lemma wp_or_new st p :
  passable st p → wf st →
  wp (or_new p) (λ q st', grown st st' ∧ ¬ owned st q ∧
    rw_ints st' !! q = Some (or_zero (read st p)) ∧
    (p = Some q ∨ rw_ints st !! q = None)) st.
Proof.
  intros Hp Hwf. destruct p as [p|].
  - apply wp_ret. destruct Hp as [[z Hz] Hno]. split_and!.
    + apply grown_refl.
    + done.
    + cbn. by rewrite Hz.
    + by left.
  - cbn. unfold wp, alloc. set (q := fresh _).
    assert (rw_ints st !! q = None) as Hq.
    { apply not_elem_of_dom, is_fresh. }
    split_and!.
    + eexists. split; [reflexivity|]. cbn. by apply insert_subseteq.
    + intros Ho. destruct (wf_dom _ Hwf q Ho) as [z Hz]. congruence.
    + cbn. by rewrite lookup_insert_eq.
    + by right.
Qed.

(** *** The statistics *)

(** [initRewardStats] followed by an assignment to a field. *)
Lemma wp_update f (Q : unit → Rw → Prop) st :
  Q tt (st <| rw_stats := Some (f (stats_of st)) |>) →
  wp (initRewardStats;; with_stats f) Q st.
Proof. unfold wp. by destruct st as [ints [s|] ix v u]. Qed.

Lemma wp_init (Q : unit → Rw → Prop) st :
  Q tt (st <| rw_stats := Some (stats_of st) |>) → wp initRewardStats Q st.
Proof. done. Qed.

Lemma wp_with_stats f (Q : unit → Rw → Prop) st s :
  rw_stats st = Some s → Q tt (st <| rw_stats := Some (f s) |>) →
  wp (with_stats f) Q st.
Proof. unfold wp, with_stats. by intros ->. Qed.
End specification.

(** ** [addReward] *)

Section add_reward.
Context `{NodeApi}.
Implicit Types st : Rw.

(** What a reward of [b] for ([t], [a]) adds to the ledger at ([t'], [a']). *)
Definition credit (t : RewardType) (a : Address) (z : Z)
    (t' : RewardType) (a' : Address) : Z :=
  if decide (t = t' ∧ a = a') then z else 0%Z.

(** The records changed by a reward of [zb] and [zs] for ([t], [a]). *)
Definition credited st t a zb zs st' : Prop :=
  wf st' ∧
  (∀ t' a', amount rs_Balance st' t' a'
            = (amount rs_Balance st t' a' + credit t a zb t' a')%Z) ∧
  (∀ t' a', amount rs_Stake st' t' a'
            = (amount rs_Stake st t' a' + credit t a zs t' a')%Z) ∧
  (∀ p z, ¬ owned st p → rw_ints st !! p = Some z → rw_ints st' !! p = Some z) ∧
  (TotalRewardsByAddr (stats_of st') = TotalRewardsByAddr (stats_of st) ∧
   DelegateesEpochRewards (stats_of st') = DelegateesEpochRewards (stats_of st) ∧
   rw_validation st' = rw_validation st ∧ rw_upgrade11 st' = rw_upgrade11 st).

Lemma credit_zero t a t' a' : credit t a 0 t' a' = 0%Z.
Proof. unfold credit. by destruct (decide _). Qed.

Lemma credited_zero st t a : wf st → credited st t a 0 0 st.
Proof.
  intros Hwf. split; [done|].
  split_and!; try done; intros; rewrite credit_zero; lia.
Qed.

(** Adding into one integer of the [i]-th record changes only that record's
    share of the ledger. *)
Definition bump (p : ptr) (z : Z) st : Rw :=
  st <| rw_ints ::= insert p (value st p + z)%Z |>.

Lemma value_bump st p z q :
  value (bump p z st) q = (value st q + if decide (q = p) then z else 0)%Z.
Proof.
  unfold value at 1, bump. cbn. destruct (decide (q = p)) as [->|Hne].
  - by rewrite lookup_insert_eq.
  - rewrite lookup_insert_ne by done. unfold value. lia.
Qed.

Lemma bump_wf st p z : owned st p → wf st → wf (bump p z st).
Proof.
  intros Hp [Hsep Hdom Hix Hixd]. split; [exact Hsep| |exact Hix|exact Hixd].
  intros q Hq. cbn. destruct (decide (p = q)) as [->|Hne].
  - rewrite lookup_insert_eq. eauto.
  - rewrite lookup_insert_ne by done. by apply Hdom.
Qed.

Lemma amount_bump_other sel st p z t a :
  (∀ r, r ∈ records st → sel r ≠ p) →
  amount sel (bump p z st) t a = amount sel st t a.
Proof.
  intros Hsel. apply sumZ_ext. intros r Hr. destruct (decide _); [|done].
  rewrite value_bump. rewrite decide_False by (apply Hsel, Hr). lia.
Qed.

Lemma amount_bump sel st r z t a :
  r ∈ records st →
  (∀ i j r r', records st !! i = Some r → records st !! j = Some r' →
               sel r = sel r' → i = j) →
  amount sel (bump (sel r) z st) t a
  = (amount sel st t a + credit (rs_Type r) (rs_Address r) z t a)%Z.
Proof.
  intros [i Hi]%list_elem_of_lookup Hsep. unfold amount at 1.
  rewrite (sumZ_point _
    (λ r, if decide (rs_Type r = t ∧ rs_Address r = a) then value st (sel r) else 0%Z)
    _ i r Hi).
  - fold (amount sel st t a). unfold credit. f_equal. destruct (decide _) as [Hd|Hd].
    + rewrite value_bump, decide_True by done. lia.
    + lia.
  - intros j r' Hj Hne. destruct (decide _); [|done].
    rewrite value_bump, decide_False; [lia|].
    intros Heq. apply Hne. by eapply Hsep.
Qed.

Lemma wf_sep_balance st i j r r' :
  wf st → records st !! i = Some r → records st !! j = Some r' →
  rs_Balance r = rs_Balance r' → i = j.
Proof. intros Hwf Hi Hj. by destruct (wf_separate _ Hwf i j r r' Hi Hj) as (?&?&?). Qed.
Lemma wf_sep_stake st i j r r' :
  wf st → records st !! i = Some r → records st !! j = Some r' →
  rs_Stake r = rs_Stake r' → i = j.
Proof. intros Hwf Hi Hj. by destruct (wf_separate _ Hwf i j r r' Hi Hj) as (?&?&?). Qed.
Lemma wf_sep_both st r r' :
  wf st → r ∈ records st → r' ∈ records st → rs_Balance r ≠ rs_Stake r'.
Proof.
  intros Hwf [i Hi]%list_elem_of_lookup [j Hj]%list_elem_of_lookup.
  by destruct (wf_separate _ Hwf i j r r' Hi Hj).
Qed.

(** The merging branch of [increaseEpochRewardIfExists]. *)
Lemma bump_credited st r zb zs :
  wf st → r ∈ records st →
  credited st (rs_Type r) (rs_Address r) zb zs
    (bump (rs_Stake r) zs (bump (rs_Balance r) zb st)).
Proof.
  intros Hwf Hr.
  assert (owned st (rs_Balance r)) as HoB by (exists r; tauto).
  assert (owned st (rs_Stake r)) as HoS by (exists r; tauto).
  assert (wf (bump (rs_Balance r) zb st)) as Hwf1 by by apply bump_wf.
  split; [by apply bump_wf|]. split_and!; try done.
  - intros t a. rewrite amount_bump_other.
    + rewrite (amount_bump rs_Balance); [done|done|].
      intros i j r1 r2. by apply wf_sep_balance.
    + intros r' Hr'. by apply (wf_sep_both st).
  - intros t a. rewrite (amount_bump rs_Stake); [|done|].
    + rewrite amount_bump_other; [done|].
      intros r' Hr' Heq. by apply (wf_sep_both st r r').
    + intros i j r1 r2. by apply wf_sep_stake.
  - intros p z Hp Hz. cbn.
    rewrite !lookup_insert_ne by (intros <-; by apply Hp). done.
Qed.

(** The appending branch of [addReward]. *)
Definition appended (r : RewardStats) st : Rw :=
  (if merged (rs_Type r)
   then st <| rw_index ::= insert (rs_Type r)
              (<[rs_Address r := r]> (default ∅ (rw_index st !! rs_Type r))) |>
   else st)
  <| rw_stats := Some ((stats_of st) <| Rewards ::= λ l, l ++ [r] |>) |>.

Lemma records_appended st r : records (appended r st) = records st ++ [r].
Proof. done. Qed.

Lemma indexed_appended st r t a :
  indexed (appended r st) t a =
    if decide (merged (rs_Type r) = true ∧ rs_Type r = t ∧ rs_Address r = a)
    then Some r else indexed st t a.
Proof.
  unfold appended, indexed. destruct (merged (rs_Type r)) eqn:Hm; cbn.
  - destruct (decide (rs_Type r = t)) as [<-|Ht].
    + rewrite lookup_insert_eq. cbn. destruct (decide (rs_Address r = a)) as [<-|Ha].
      * by rewrite lookup_insert_eq, decide_True.
      * by rewrite lookup_insert_ne, decide_False by tauto.
    + by rewrite lookup_insert_ne, decide_False by tauto.
  - by rewrite decide_False by (intros [? _]; congruence).
Qed.

Lemma appended_separate st r i j r1 r2 :
  wf st → ¬ owned st (rs_Balance r) → ¬ owned st (rs_Stake r) →
  rs_Balance r ≠ rs_Stake r →
  (records st ++ [r]) !! i = Some r1 → (records st ++ [r]) !! j = Some r2 →
  rs_Balance r1 ≠ rs_Stake r2 ∧
  (rs_Balance r1 = rs_Balance r2 → i = j) ∧ (rs_Stake r1 = rs_Stake r2 → i = j).
Proof.
  intros Hwf HB HS Hne Hi Hj.
  apply lookup_snoc_Some in Hi as [[Hi1 Hi]|[Hi1 <-]];
    apply lookup_snoc_Some in Hj as [[Hj1 Hj]|[Hj1 <-]].
  - by apply (wf_separate _ Hwf i j r1 r2).
  - apply list_elem_of_lookup_2 in Hi.
    split_and!; intros Heq; exfalso; [apply HS|apply HB|apply HS];
      exists r1; split; try done; rewrite <- Heq; tauto.
  - apply list_elem_of_lookup_2 in Hj.
    split_and!; intros Heq; exfalso; [apply HB|apply HB|apply HS];
      exists r2; split; try done; rewrite Heq; tauto.
  - split_and!; [done|lia|lia].
Qed.

Lemma appended_wf st r :
  wf st → ¬ owned st (rs_Balance r) → ¬ owned st (rs_Stake r) →
  rs_Balance r ≠ rs_Stake r →
  is_Some (rw_ints st !! rs_Balance r) → is_Some (rw_ints st !! rs_Stake r) →
  (merged (rs_Type r) = true → indexed st (rs_Type r) (rs_Address r) = None) →
  wf (appended r st).
Proof.
  intros Hwf HB HS Hne HdB HdS Hfree.
  assert (rw_ints (appended r st) = rw_ints st) as Hints
    by (unfold appended; by destruct (merged _)).
  split.
  - intros i j r1 r2. rewrite records_appended. by apply appended_separate.
  - intros p (r' & Hr' & Hp). rewrite Hints. rewrite records_appended in Hr'.
    apply elem_of_app in Hr' as [Hr'| ->%list_elem_of_singleton].
    + apply (wf_dom _ Hwf). by exists r'.
    + destruct Hp; subst p; assumption.
  - intros t a r'. rewrite indexed_appended, records_appended.
    destruct (decide _) as [(Hm & Ht & Ha)|_].
    + intros [= <-]. split_and!; [apply elem_of_app; right; left|done|done|congruence].
    + intros Hix. destruct (wf_index _ Hwf _ _ _ Hix) as (?&?&?&?).
      split_and!; [apply elem_of_app; by left|done..].
  - intros r' Hr' Hm. rewrite indexed_appended, records_appended in *.
    apply elem_of_app in Hr' as [Hr'| ->%list_elem_of_singleton].
    + rewrite decide_False; [by apply (wf_indexed _ Hwf)|].
      intros (Hm' & Ht & Ha). specialize (Hfree Hm').
      rewrite Ht, Ha, (wf_indexed _ Hwf) in Hfree; done.
    + by rewrite decide_True.
Qed.

Lemma amount_appended sel st r t a :
  amount sel (appended r st) t a
  = (amount sel st t a + credit (rs_Type r) (rs_Address r) (value st (sel r)) t a)%Z.
Proof.
  unfold amount. rewrite records_appended, sumZ_snoc.
  unfold value, appended, credit. by destruct (merged _).
Qed.

Lemma appended_credited st r zb zs :
  wf st → ¬ owned st (rs_Balance r) → ¬ owned st (rs_Stake r) →
  rs_Balance r ≠ rs_Stake r →
  rw_ints st !! rs_Balance r = Some zb → rw_ints st !! rs_Stake r = Some zs →
  (merged (rs_Type r) = true → indexed st (rs_Type r) (rs_Address r) = None) →
  credited st (rs_Type r) (rs_Address r) zb zs (appended r st).
Proof.
  intros Hwf HB HS Hne HdB HdS Hfree. split; [apply appended_wf; eauto|].
  split_and!; try (unfold appended; by destruct (merged _)).
  - intros. rewrite amount_appended. unfold value. by rewrite HdB.
  - intros. rewrite amount_appended. unfold value. by rewrite HdS.
Qed.

(** The pure form of the two branches. *)
Lemma wp_increase r zb zs st :
  wf st → rw_stats st ≠ None →
  ¬ owned st (rs_Balance r) → ¬ owned st (rs_Stake r) →
  rw_ints st !! rs_Balance r = Some zb → rw_ints st !! rs_Stake r = Some zs →
  rs_Balance r ≠ rs_Stake r →
  wp (exists_ ← increaseEpochRewardIfExists r;
      if (exists_ : bool) then mret tt else
      with_stats (λ s, s <| Rewards ::= λ l, l ++ [r] |>))
     (λ _ st', credited st (rs_Type r) (rs_Address r) zb zs st') st.
Proof.
  intros Hwf Hst HB HS HvB HvS Hne.
  assert (∃ s, rw_stats st = Some s) as [s Hs]
    by (destruct (rw_stats st); [eauto|done]).
  assert (stats_of st = s) as Hso by (unfold stats_of; by rewrite Hs).
  unfold increaseEpochRewardIfExists. destruct (merged (rs_Type r)) eqn:Hm; cbn [negb].
  - wp_steps. destruct (_ !! rs_Address r) as [r0|] eqn:Hr0.
    + destruct (wf_index _ Hwf _ _ r0 Hr0) as (Hin & Ht & Ha & _).
      destruct (wf_dom _ Hwf (rs_Balance r0)) as [b Hb]; [exists r0; tauto|].
      destruct (wf_dom _ Hwf (rs_Stake r0)) as [k Hk]; [exists r0; tauto|].
      assert (rs_Balance r0 ≠ rs_Stake r0) as Hne0 by by apply (wf_sep_both st).
      assert (rs_Balance r0 ≠ rs_Stake r) as HneS by (intros Heq; apply HS; exists r0; split; [done|left; congruence]).
      rewrite <- Ht, <- Ha.
      apply wp_bind, (wp_load _ b); [done|].
      apply wp_bind, (wp_load _ zb); [done|]. apply wp_bind, wp_modify.
      apply wp_bind, (wp_load _ k); [cbn; by rewrite lookup_insert_ne|].
      apply wp_bind, (wp_load _ zs); [cbn; by rewrite lookup_insert_ne|].
      apply wp_bind, wp_modify. apply wp_ret, wp_ret.
      pose proof (bump_credited st r0 zb zs Hwf Hin) as Hc.
      unfold bump, value in Hc. cbn in Hc.
      by rewrite lookup_insert_ne, Hb, Hk in Hc by done.
    + wp_steps. eapply wp_with_stats; [done|].
      pose proof (appended_credited st r zb zs Hwf HB HS Hne HvB HvS (λ _, Hr0)) as Hc.
      unfold appended in Hc. rewrite Hm, Hso in Hc. exact Hc.
  - wp_steps. eapply wp_with_stats; [done|].
    assert (merged (rs_Type r) = true → indexed st (rs_Type r) (rs_Address r) = None)
      as Hfree by (by rewrite Hm).
    pose proof (appended_credited st r zb zs Hwf HB HS Hne HvB HvS Hfree) as Hc.
    unfold appended in Hc. rewrite Hm, Hso in Hc. exact Hc.
Qed.

Lemma grown_credited st st1 t a zb zs st' :
  wf st → grown st st1 → credited st1 t a zb zs st' → credited st t a zb zs st'.
Proof.
  intros Hwf Hg (Hwf' & HaB & HaS & Hp & Hv).
  assert (∀ p, owned st1 p ↔ owned st p) as Ho by (by destruct Hg as (? & -> & _)).
  split; [done|]. split; [|split; [|split]].
  - intros. rewrite HaB. rewrite (grown_amount st st1) by tauto. done.
  - intros. rewrite HaS. rewrite (grown_amount st st1) by tauto. done.
  - intros p z Hno Hz. apply Hp; [by rewrite Ho|]. by eapply grown_lookup.
  - destruct Hg as (ints & -> & _). exact Hv.
Qed.

Lemma wp_addReward addr balance stake t st :
  wf st → passable st balance → passable st stake → distinct balance stake →
  wp (addReward addr balance stake t)
     (λ _ st', credited st t addr (or_zero (read st balance))
                                  (or_zero (read st stake)) st') st.
Proof.
  intros Hwf Hb Hs Hd. unfold addReward.
  apply wp_bind, wp_load_opt; [by apply passable_readable|].
  apply wp_bind, wp_load_opt; [by apply passable_readable|].
  destruct (nil_or_zero (read st balance) && nil_or_zero (read st stake)) eqn:Hz.
  { apply andb_true_iff in Hz as [->%nil_or_zero_spec ->%nil_or_zero_spec].
    apply wp_ret, credited_zero, Hwf. }
  apply wp_bind. wp_call wp_or_new; [done|done|].
  intros qb st1 (Hg1 & Hnb & Hvb & Hqb).
  assert (wf st1) as Hwf1 by by eapply grown_wf.
  assert (∀ p, owned st1 p ↔ owned st p) as Ho by (by destruct Hg1 as (? & -> & _)).
  assert (passable st1 stake ∧ read st1 stake = read st stake) as [Hs1 Hr1].
  { destruct stake as [p|]; [|done]. destruct Hs as [[z Hp] Hno]. cbn.
    rewrite Ho, (grown_lookup _ _ _ _ Hg1 Hp), Hp. split; [|done]. split; [eauto|done]. }
  apply wp_bind. wp_call wp_or_new; [done|done|].
  intros qs st2 (Hg2 & Hns & Hvs & Hqs). rewrite Hr1 in Hvs.
  assert (qb ≠ qs) as Hqq.
  { intros <-. destruct Hqs as [->|Hqs]; [|congruence].
    destruct Hqb as [->|Hqb].
    - destruct Hd as [?|?]; done.
    - destruct Hs as [[z Hz'] _]. congruence. }
  assert (grown st st2) as Hg by by eapply grown_trans.
  apply wp_bind, wp_init.
  set (st3 := st2 <| rw_stats := Some (stats_of st2) |>).
  assert (credited st2 t addr (or_zero (read st balance)) (or_zero (read st stake)) = 
          credited st3 t addr (or_zero (read st balance)) (or_zero (read st stake))) as Heq
    by done.
  assert (∀ p, owned st3 p ↔ owned st1 p) as Ho2 by (by destruct Hg2 as (? & -> & _)).
  wp_call (wp_increase (mkRewardStats addr qb qs t)
            (or_zero (read st balance)) (or_zero (read st stake))); cbn.
  - destruct (grown_wf _ _ Hg Hwf) as [H1 H2 H3 H4]. by split.
  - done.
  - change (¬ owned st3 qb). rewrite Ho2, Ho. done.
  - change (¬ owned st3 qs). by rewrite Ho2.
  - by apply (grown_lookup st1 st2).
  - done.
  - done.
  - intros _ st' Hst'. apply (grown_credited st st2); [done|done|]. rewrite Heq. exact Hst'.
Qed.
End add_reward.

(** ** The calls of an epoch

    The node calls the methods with integers of its own for every reward, so a
    call allocates the amounts it passes. *)

Section calls.
Context `{NodeApi}.
Implicit Types st : Rw.

Inductive RewardCall :=
  | CallValidation (balanceDest stakeDest : Address) (age : Z) (b s : option Z)
  | CallCandidate (balanceDest stakeDest : Address) (b s : option Z)
  | CallStaking (balanceDest stakeDest : Address) (staked b s : option Z)
  | CallFlipsBasic (balanceDest stakeDest : Address) (b s : option Z) (flips : list FlipToReward)
  | CallFlipsExtra (balanceDest stakeDest : Address) (b s : option Z) (flips : list FlipToReward)
  | CallReportedFlips (balanceDest stakeDest : Address) (shardId flipIdx : Z) (b s : option Z)
  | CallInvitee (addr : Address) (s : option Z) (age : Z) (tx : Hash) (height : Z)
  | CallInvitations (balanceDest stakeDest : Address) (b s : option Z) (age : Z)
      (tx : option Hash) (height : Z) (winner : bool)
  | CallFoundation (addr : Address) (b : option Z)
  | CallZeroWallet (addr : Address) (b : option Z)
  | CallPenalizedStake (addr : Address) (amount : option Z).

Definition alloc_opt (v : option Z) : M Rw (option ptr) :=
  match v with None => mret None | Some z => p ← alloc z; mret (Some p) end.

Definition with_amounts (b s : option Z)
    (k : option ptr → option ptr → M Rw unit) : M Rw unit :=
  pb ← alloc_opt b; ps ← alloc_opt s; k pb ps.

Definition call (c : RewardCall) : M Rw unit :=
  match c with
  | CallValidation bd sd age b s =>
      with_amounts b s (λ b s, AddValidationReward bd sd age b s)
  | CallCandidate bd sd b s => with_amounts b s (λ b s, AddCandidateReward bd sd b s)
  | CallStaking bd sd a b s => with_amounts b s (λ b s, AddStakingReward bd sd a b s)
  | CallFlipsBasic bd sd b s fl =>
      with_amounts b s (λ b s, AddFlipsBasicReward bd sd b s fl)
  | CallFlipsExtra bd sd b s fl =>
      with_amounts b s (λ b s, AddFlipsExtraReward bd sd b s fl)
  | CallReportedFlips bd sd shard idx b s =>
      with_amounts b s (λ b s, AddReportedFlipsReward bd sd shard idx b s)
  | CallInvitee a s age tx h =>
      with_amounts None s (λ _ s, AddInviteeReward a s age tx h)
  | CallInvitations bd sd b s age tx h w =>
      with_amounts b s (λ b s, AddInvitationsReward bd sd b s age tx h w)
  | CallFoundation a b => with_amounts b None (λ b _, AddFoundationPayout a b)
  | CallZeroWallet a b => with_amounts b None (λ b _, AddZeroWalletFund a b)
  | CallPenalizedStake a v => AddPenalizedStake a v
  end.

(** What a call should add, and to whom; [cr_total]: to the total of the
    address too. *)
Record Credit := mkCredit {
  cr_type : RewardType; cr_pool : Address; cr_addr : Address;
  cr_balance : Z; cr_stake : Z; cr_total : bool
}.

Definition invitee_type (age : Z) : RewardType :=
  (if age =? 1 then Invitee1 else if age =? 2 then Invitee2 else Invitee3)%Z.

Definition credit_of (c : RewardCall) : option Credit :=
  match c with
  | CallValidation bd sd _ b s => Some (mkCredit Validation bd sd (or_zero b) (or_zero s) true)
  | CallCandidate bd sd b s => Some (mkCredit Candidate bd sd (or_zero b) (or_zero s) true)
  | CallStaking bd sd _ b s => Some (mkCredit Staking bd sd (or_zero b) (or_zero s) true)
  | CallFlipsBasic bd sd b s _ => Some (mkCredit Flips bd sd (or_zero b) (or_zero s) true)
  | CallFlipsExtra bd sd b s _ => Some (mkCredit ExtraFlips bd sd (or_zero b) (or_zero s) true)
  | CallReportedFlips bd sd _ _ b s =>
      Some (mkCredit ReportedFlips bd sd (or_zero b) (or_zero s) true)
  | CallInvitee a s age _ _ => Some (mkCredit (invitee_type age) a a 0 (or_zero s) true)
  | CallInvitations bd sd b s age _ _ w =>
      (λ t, mkCredit t bd sd (or_zero b) (or_zero s) true)
        <$> determineInvitationsRewardType age w
  | CallFoundation a b => Some (mkCredit FoundationPayouts a a (or_zero b) 0 false)
  | CallZeroWallet a b => Some (mkCredit ZeroWalletFund a a (or_zero b) 0 false)
  | CallPenalizedStake _ _ => None
  end.

(** The calls that do not panic: an invitee's age is 1, 2 or 3, and the
    validation statistics are there when a flip is looked up. *)
Definition legal (v : option ValidationStats) (c : RewardCall) : bool :=
  match c with
  | CallInvitee _ _ age _ _ => ((1 <=? age) && (age <=? 3))%Z
  | CallReportedFlips _ _ _ idx _ _ =>
      ((idx <? 0)%Z || match v with None => false | Some _ => true end)
  | _ => true
  end.

Definition balance_credit (k : option Credit) (t : RewardType) (a : Address) : Z :=
  match k with Some k => credit (cr_type k) (cr_addr k) (cr_balance k) t a | None => 0 end.
Definition stake_credit (k : option Credit) (t : RewardType) (a : Address) : Z :=
  match k with Some k => credit (cr_type k) (cr_addr k) (cr_stake k) t a | None => 0 end.
Definition total_credit (k : option Credit) (a : Address) : Z :=
  match k with
  | Some k => if decide (cr_total k = true ∧ cr_addr k = a)
              then (cr_balance k + cr_stake k)%Z else 0%Z
  | None => 0%Z
  end.
(** the balance part of a reward whose stake goes to another address *)
Definition share_credit (k : option Credit) (d g : Address) (t : RewardType) : Z :=
  match k with
  | Some k => if decide (cr_pool k = d ∧ cr_addr k = g ∧ cr_type k = t ∧ cr_pool k ≠ cr_addr k)
              then cr_balance k else 0%Z
  | None => 0%Z
  end.
Definition pool_credit (k : option Credit) (d : Address) (t : RewardType) : Z :=
  match k with
  | Some k => if decide (cr_pool k = d ∧ cr_type k = t ∧ cr_pool k ≠ cr_addr k)
              then cr_balance k else 0%Z
  | None => 0%Z
  end.

(** [st'] is [st] after the credit [k]. *)
Record moved st (k : option Credit) st' : Prop := {
  mv_wf : wf st';
  mv_balance t a : amount rs_Balance st' t a
                   = (amount rs_Balance st t a + balance_credit k t a)%Z;
  mv_stake t a : amount rs_Stake st' t a
                 = (amount rs_Stake st t a + stake_credit k t a)%Z;
  mv_total a : total_of st' a = (total_of st a + total_credit k a)%Z;
  mv_pool d t : pool_total st' d t = (pool_total st d t + pool_credit k d t)%Z;
  mv_share d g t : pool_share st' d g t = (pool_share st d g t + share_credit k d g t)%Z;
  mv_ints p z : ¬ owned st p → rw_ints st !! p = Some z → rw_ints st' !! p = Some z;
  mv_validation : rw_validation st' = rw_validation st
}.

Lemma moved_refl st : wf st → moved st None st.
Proof. intros Hwf. split; try done; intros; cbn; lia. Qed.

Lemma moved_views st k st1 st2 : moved st k st1 → same_views st1 st2 → moved st k st2.
Proof.
  intros [[W1 W2 W3 W4] Hb Hs Ht Hp Hg Hi Hv] (ER & ET & ED & EX & EI & EV & _).
  assert (records st2 = records st1) as Er by exact ER.
  assert (∀ t a, indexed st2 t a = indexed st1 t a) as Ex by (intros; unfold indexed; by rewrite EX).
  assert (∀ p, value st2 p = value st1 p) as Ev by (intros; unfold value; by rewrite EI).
  assert (∀ sel t a, amount sel st2 t a = amount sel st1 t a) as Ea.
  { intros. unfold amount. rewrite Er. apply sumZ_ext. intros. by rewrite Ev. }
  split.
  - split.
    + by rewrite Er.
    + intros p. unfold owned. rewrite Er, EI. apply W2.
    + intros t a r. rewrite Ex, Er. apply W3.
    + intros r. rewrite Er, Ex. apply W4.
  - intros. by rewrite Ea, Hb.
  - intros. by rewrite Ea, Hs.
  - intros. unfold total_of at 1. rewrite ET. apply Ht.
  - intros. unfold pool_total at 1, pool_of. rewrite ED. apply Hp.
  - intros. unfold pool_share at 1, pool_of. rewrite ED. apply Hg.
  - intros p z Ho Hz. rewrite EI. by apply Hi.
  - congruence.
Qed.

Lemma moved_readable st k st' p :
  moved st k st' → passable st p → readable st' p ∧ read st' p = read st p.
Proof.
  intros Hm. destruct p as [p|]; [|done]. cbn. intros [[z Hz] Hno].
  rewrite Hz, (mv_ints _ _ _ Hm p z Hno Hz). eauto.
Qed.

Lemma moved_grown st st1 k st' : wf st → grown st st1 → moved st1 k st' → moved st k st'.
Proof.
  intros Hwf Hg [W Hb Hs Ht Hp Hgr Hi Hv].
  assert (∀ p, owned st1 p ↔ owned st p) as Ho by (by destruct Hg as (? & -> & _)).
  split; [done|..].
  - intros. rewrite Hb. by rewrite (grown_amount st st1) by tauto.
  - intros. rewrite Hs. by rewrite (grown_amount st st1) by tauto.
  - intros. rewrite Ht. by destruct Hg as (? & -> & _).
  - intros. rewrite Hp. by destruct Hg as (? & -> & _).
  - intros. rewrite Hgr. by destruct Hg as (? & -> & _).
  - intros p z Hno Hz. apply Hi; [by rewrite Ho|]. by eapply grown_lookup.
  - rewrite Hv. by destruct Hg as (? & -> & _).
Qed.
End calls.

(** *** The steps every reward method is made of *)

Section steps.
Context `{NodeApi}.
Implicit Types st : Rw.

Lemma reward_at_add m t b s t' :
  reward_at (add_epoch_reward m t b s) t'
  = (reward_at m t' + if decide (t = t') then b else 0)%Z.
Proof.
  unfold reward_at, add_epoch_reward. destruct (decide (t = t')) as [->|Hne].
  - by rewrite lookup_insert_eq.
  - rewrite lookup_insert_ne by done. lia.
Qed.

Lemma wp_pay addr balance stake t st :
  wf st → passable st balance → passable st stake → distinct balance stake →
  wp (addReward addr balance stake t)
     (λ _ st', moved st (Some (mkCredit t addr addr (or_zero (read st balance))
                                       (or_zero (read st stake)) false)) st') st.
Proof.
  intros Hwf Hb Hs Hd. wp_call wp_addReward; [done..|].
  intros _ st' (Hwf' & HB & HS & Hi & HT & HD & HV & _).
  split; try done.
  - intros a. unfold total_of. rewrite HT. cbn. rewrite decide_False by (by intros []). lia.
  - intros d t'. unfold pool_total, pool_of. rewrite HD. cbn.
    rewrite decide_False by tauto. lia.
  - intros d g t'. unfold pool_share, pool_of. rewrite HD. cbn.
    rewrite decide_False by tauto. lia.
Qed.

(** The state [addDelegateeReward] leaves. *)
Definition forwarded (delegator delegatee : Address) (t : RewardType) (b : Z) st : Rw :=
  st <| rw_stats := Some ((stats_of st) <| DelegateesEpochRewards ::= λ m,
    let d := default (mkDelegateeEpochRewards ∅ ∅) (m !! delegatee) in
    let dr := default (mkDelegatorEpochRewards ∅)
                      (DelegatorsEpochRewards d !! delegator) in
    <[delegatee := mkDelegateeEpochRewards
        (add_epoch_reward (TotalRewards d) t b 0)
        (<[delegator := mkDelegatorEpochRewards
             (add_epoch_reward (EpochRewards dr) t b 0)]>
          (DelegatorsEpochRewards d))]> m |>) |>.

Lemma pool_of_forwarded g d t b st d' :
  pool_of (forwarded g d t b st) d' =
    if decide (d = d') then
      mkDelegateeEpochRewards (add_epoch_reward (TotalRewards (pool_of st d)) t b 0)
        (<[g := mkDelegatorEpochRewards (add_epoch_reward (EpochRewards
             (default (mkDelegatorEpochRewards ∅)
                (DelegatorsEpochRewards (pool_of st d) !! g))) t b 0)]>
          (DelegatorsEpochRewards (pool_of st d)))
    else pool_of st d'.
Proof.
  unfold pool_of, forwarded. cbn. destruct (decide (d = d')) as [<-|Hne].
  - by rewrite lookup_insert_eq.
  - by rewrite lookup_insert_ne.
Qed.

Lemma pool_total_forwarded g d t b st d' t' :
  pool_total (forwarded g d t b st) d' t'
  = (pool_total st d' t' + if decide (d = d' ∧ t = t') then b else 0)%Z.
Proof.
  unfold pool_total. rewrite pool_of_forwarded.
  destruct (decide (d = d')) as [<-|Hne]; cbn [TotalRewards].
  - rewrite reward_at_add. repeat case_decide; try tauto; lia.
  - rewrite decide_False by tauto. lia.
Qed.

Lemma pool_share_forwarded g d t b st d' g' t' :
  pool_share (forwarded g d t b st) d' g' t'
  = (pool_share st d' g' t' + if decide (d = d' ∧ g = g' ∧ t = t') then b else 0)%Z.
Proof.
  unfold pool_share. rewrite pool_of_forwarded.
  destruct (decide (d = d')) as [<-|Hne]; cbn [DelegatorsEpochRewards].
  - destruct (decide (g = g')) as [<-|Hg].
    + rewrite lookup_insert_eq. cbn [default EpochRewards from_option id].
      rewrite reward_at_add. repeat case_decide; try tauto; lia.
    + rewrite lookup_insert_ne by done. rewrite decide_False by tauto. lia.
  - rewrite decide_False by tauto. lia.
Qed.

Lemma wf_forwarded g d t b st : wf st → wf (forwarded g d t b st).
Proof. intros [W1 W2 W3 W4]. by split. Qed.

Lemma wp_forward bd sd balance stake t st st1 zb zs :
  moved st (Some (mkCredit t sd sd zb zs false)) st1 →
  passable st balance → or_zero (read st balance) = zb →
  passable st stake →
  wp (delegate_unless_own bd sd balance t)
     (λ _ st2, moved st (Some (mkCredit t bd sd zb zs false)) st2 ∧
               (readable st2 balance ∧ read st2 balance = read st balance) ∧
               (readable st2 stake ∧ read st2 stake = read st stake)) st1.
Proof.
  intros Hm Hb Hz Hs.
  destruct (moved_readable _ _ _ _ Hm Hb) as [Hb1 Hb2].
  destruct (moved_readable _ _ _ _ Hm Hs) as [Hs1 Hs2].
  unfold delegate_unless_own. destruct (decide (bd = sd)) as [->|Hne].
  { apply wp_ret. done. }
  unfold addDelegateeReward. apply wp_bind, wp_load_opt; [done|].
  apply wp_bind, wp_ret. rewrite Hb2. destruct Hm as [W HB HS HT HP HG HI HV].
  destruct (nil_or_zero (read st balance) && nil_or_zero None) eqn:Hzero.
  - apply andb_true_iff in Hzero as [Hzero%nil_or_zero_spec _].
    apply wp_ret. split_and!; try done. split; try done.
    + intros d t'. rewrite HP. cbn. repeat case_decide; try tauto; lia.
    + intros d g t'. rewrite HG. cbn. repeat case_decide; try tauto; lia.
  - apply wp_update. rewrite Hz.
    change (moved st (Some (mkCredit t bd sd zb zs false)) (forwarded sd bd t zb st1) ∧
            (readable st1 balance ∧ read st1 balance = read st balance) ∧
            (readable st1 stake ∧ read st1 stake = read st stake)).
    split_and!; try done. split; try done.
    + by apply wf_forwarded.
    + intros d t'. rewrite pool_total_forwarded, HP. cbn.
      repeat case_decide; try tauto; try lia; naive_solver.
    + intros d g t'. rewrite pool_share_forwarded, HG. cbn.
      repeat case_decide; try tauto; try lia; naive_solver.
Qed.

Lemma wp_total addr bd balance stake t st st1 zb zs :
  moved st (Some (mkCredit t bd addr zb zs false)) st1 →
  readable st1 balance → or_zero (read st1 balance) = zb →
  readable st1 stake → or_zero (read st1 stake) = zs →
  wp (addAddrTotalReward addr balance stake)
     (λ _ st2, moved st (Some (mkCredit t bd addr zb zs true)) st2) st1.
Proof.
  intros [W HB HS HT HP HG HI HV] Hb Hzb Hs Hzs. unfold addAddrTotalReward.
  apply wp_bind, wp_load_opt; [done|]. apply wp_bind, wp_load_opt; [done|].
  destruct (nil_or_zero (read st1 balance) && nil_or_zero (read st1 stake)) eqn:Hz.
  - apply andb_true_iff in Hz as [H1%nil_or_zero_spec H2%nil_or_zero_spec].
    apply wp_ret. split; try done.
    intros a. rewrite HT. cbn. repeat case_decide; try tauto; lia.
  - apply wp_update. rewrite Hzb, Hzs. split; try done.
    + by destruct W as [W1 W2 W3 W4].
    + intros a. specialize (HT a). cbn in HT |- *. rewrite decide_False in HT by (by intros []).
      unfold total_of in *. cbn. rewrite Z.add_0_r in HT. rewrite <- HT.
      destruct (_ !! addr) as [v|] eqn:Hv; destruct (decide (addr = a)) as [<-|Hne].
      * rewrite lookup_insert_eq, Hv, decide_True by done. done.
      * rewrite lookup_insert_ne, decide_False by tauto. lia.
      * rewrite lookup_insert_eq, Hv, decide_True by done. done.
      * rewrite lookup_insert_ne, decide_False by tauto. lia.
Qed.
End steps.

(** *** The methods *)

Section methods.
Context `{NodeApi}.
Implicit Types st : Rw.

(** [k] goes on to [next] having changed none of the views. *)
Definition quietly (v : option ValidationStats) (k next : M Rw unit) : Prop :=
  ∀ st Q, rw_validation st = v →
    (∀ st', same_views st st' → wp next Q st') → wp k Q st.

Lemma same_views_refl st : same_views st st.
Proof. by repeat split. Qed.

Lemma quietly_next v next : quietly v next next.
Proof. intros st Q _ Hn. apply Hn, same_views_refl. Qed.

(** An assignment to a field no view reads. *)
Lemma quietly_update v f next :
  (∀ s, Rewards (f s) = Rewards s ∧ TotalRewardsByAddr (f s) = TotalRewardsByAddr s ∧
        DelegateesEpochRewards (f s) = DelegateesEpochRewards s) →
  quietly v (initRewardStats;; with_stats f;; next) next.
Proof.
  intros Hf st Q _ Hn. apply wp_bind, wp_init. apply wp_bind.
  eapply wp_with_stats; [done|]. apply Hn. by destruct (Hf (stats_of st)) as (?&?&?).
Qed.

Lemma quietly_update_step f v st Q :
  (∀ s, Rewards (f s) = Rewards s ∧ TotalRewardsByAddr (f s) = TotalRewardsByAddr s ∧
        DelegateesEpochRewards (f s) = DelegateesEpochRewards s) →
  rw_validation st = v → (∀ st', same_views st st' → Q tt st') →
  wp (initRewardStats;; with_stats f) Q st.
Proof.
  intros Hf _ HQ. apply wp_update, HQ. by destruct (Hf (stats_of st)) as (?&?&?).
Qed.

Lemma same_views_trans st1 st2 st3 :
  same_views st1 st2 → same_views st2 st3 → same_views st1 st3.
Proof.
  intros (?&?&?&?&?&?&?) (?&?&?&?&?&?&?). unfold same_views.
  split_and!; congruence.
Qed.

Lemma wp_addRewardedFlips flips st :
  wp (addRewardedFlips flips) (λ _ st', same_views st st') st.
Proof.
  destruct flips as [|f l]; [apply wp_ret, same_views_refl|].
  by apply (quietly_update_step _ (rw_validation st)).
Qed.
Lemma wp_addRewardedExtraFlips flips st :
  wp (addRewardedExtraFlips flips) (λ _ st', same_views st st') st.
Proof.
  destruct flips as [|f l]; [apply wp_ret, same_views_refl|].
  by apply (quietly_update_step _ (rw_validation st)).
Qed.

Lemma wp_addRewardedInvite addr tx t h st :
  wp (addRewardedInvite addr tx t h) (λ _ st', same_views st st') st.
Proof.
  unfold addRewardedInvite. destruct (decide _).
  - by apply (quietly_update_step _ (rw_validation st)).
  - destruct tx; [|apply wp_ret, same_views_refl].
    by apply (quietly_update_step _ (rw_validation st)).
Qed.

Lemma wp_getFlipCid shard idx st :
  (0 ≤ idx → rw_validation st ≠ None)%Z →
  wp (getFlipCid shard idx) (λ _ st', st' = st) st.
Proof.
  intros Hl. unfold getFlipCid. destruct (Z.ltb_spec idx 0); [by apply wp_ret|].
  apply wp_bind, wp_gets. destruct (rw_validation st) as [vs|]; [by apply wp_ret|].
  by destruct Hl.
Qed.

Lemma wp_addReportedFlipReward addr shard idx balance stake st :
  (0 ≤ idx → rw_validation st ≠ None)%Z →
  readable st balance → readable st stake →
  wp (addReportedFlipReward addr shard idx balance stake)
     (λ _ st', same_views st st') st.
Proof.
  intros Hl Hb Hs. apply wp_bind. wp_call wp_getFlipCid; [done|].
  intros [c|] ? ->; [|apply wp_ret, same_views_refl].
  apply wp_bind, wp_init. apply wp_bind, wp_load_opt; [done|].
  apply wp_bind, wp_load_opt; [done|]. by eapply wp_with_stats.
Qed.

(** [addReward], the forwarding to the pool, some bookkeeping, the total. *)
Lemma wp_reward t bd sd balance stake (k : M Rw unit) st :
  wf st → passable st balance → passable st stake → distinct balance stake →
  (∀ st2 Q, rw_validation st2 = rw_validation st →
     readable st2 balance → readable st2 stake →
     (∀ st3, same_views st2 st3 → wp (addAddrTotalReward sd balance stake) Q st3) →
     wp k Q st2) →
  wp (addReward sd balance stake t;; delegate_unless_own bd sd balance t;; k)
     (λ _ st', moved st (Some (mkCredit t bd sd (or_zero (read st balance))
                                        (or_zero (read st stake)) true)) st') st.
Proof.
  intros Hwf Hb Hs Hd Hk. apply wp_bind. wp_call wp_pay; [done..|].
  intros [] st1 Hm1. apply wp_bind. wp_call wp_forward; [done..|].
  intros [] st2 (Hm2 & [Hrb Hb2] & [Hrs Hs2]).
  apply Hk; [by apply (mv_validation _ _ _ Hm2)|done|done|].
  intros st3 Hv.
  pose proof (moved_views _ _ _ _ Hm2 Hv) as Hm3.
  destruct Hv as (_ & _ & _ & _ & EI & _).
  assert (∀ p, read st3 p = read st2 p) as Er by (intros [p|]; cbn; by rewrite ?EI).
  assert (∀ p, readable st2 p → readable st3 p) as Erd by (intros [p|]; cbn; by rewrite ?EI).
  eapply wp_total; [done|by apply Erd| |by apply Erd|]; by rewrite Er; congruence.
Qed.

Definition kept st (p : option ptr) (v : option Z) : Prop :=
  passable st p ∧ read st p = v.

Lemma alloc_opt_done v st :
  wf st → ∃ p st1, alloc_opt v st = Done (p, st1) ∧ grown st st1 ∧ kept st1 p v ∧
    (∀ q, p = Some q → rw_ints st !! q = None).
Proof.
  intros Hwf. destruct v as [z|]; cbn.
  - unfold mbind, M_bind, alloc. cbn. set (q := fresh _).
    assert (rw_ints st !! q = None) as Hq by apply not_elem_of_dom, is_fresh.
    eexists _, _. split; [reflexivity|]. split; [|split].
    + eexists. split; [reflexivity|]. cbn. by apply insert_subseteq.
    + split; cbn; rewrite lookup_insert_eq; [|done]. split; [eauto|].
      intros Ho. destruct (wf_dom _ Hwf q Ho) as [w Hw]. congruence.
    + intros q' [= <-]. done.
  - exists None, st. split_and!; [done|apply grown_refl|done..].
Qed.

Lemma with_amounts_run b s k st :
  wf st → ∃ st' pb ps, with_amounts b s k st = k pb ps st' ∧
    grown st st' ∧ kept st' pb b ∧ kept st' ps s ∧ distinct pb ps.
Proof.
  intros Hwf. unfold with_amounts, mbind, M_bind.
  destruct (alloc_opt_done b st Hwf) as (pb & st1 & -> & Hg1 & [Hp1 Hr1] & Hf1).
  assert (wf st1) as Hwf1 by by eapply grown_wf.
  destruct (alloc_opt_done s st1 Hwf1) as (ps & st2 & -> & Hg2 & Hk2 & Hf2).
  exists st2, pb, ps. split; [done|]. split; [by eapply grown_trans|].
  split; [|split; [done|]].
  - destruct pb as [p|]; [|done]. destruct Hp1 as [[z Hz] Hno].
    split; cbn in *; rewrite (grown_lookup _ _ _ _ Hg2 Hz); [|congruence].
    split; [eauto|]. by destruct Hg2 as (? & -> & _).
  - destruct pb as [p|]; [|by left]. right. intros <-. destruct Hp1 as [[z Hz] _].
    specialize (Hf2 p eq_refl). congruence.
Qed.

Lemma wp_with_amounts b s k (Q : unit → Rw → Prop) st :
  wf st →
  (∀ st' pb ps, grown st st' → kept st' pb b → kept st' ps s → distinct pb ps →
     wp (k pb ps) Q st') →
  wp (with_amounts b s k) Q st.
Proof.
  intros Hwf Hk. unfold wp.
  destruct (with_amounts_run b s k st Hwf) as (st' & pb & ps & -> & ? & ? & ? & ?).
  by apply Hk.
Qed.

Lemma wp_determine_invitee age (Q : RewardType → Rw → Prop) st :
  ((1 <=? age) && (age <=? 3))%Z = true →
  Q (invitee_type age) st → wp (determineInviteeRewardType age) Q st.
Proof.
  intros [H1%Z.leb_le H3%Z.leb_le]%andb_true_iff HQ.
  assert (age = 1 ∨ age = 2 ∨ age = 3)%Z as [-> | [-> | ->]] by lia; exact HQ.
Qed.

Lemma wp_invitee addr stake age tx h st :
  wf st → passable st stake → ((1 <=? age) && (age <=? 3))%Z = true →
  wp (AddInviteeReward addr stake age tx h)
     (λ _ st', moved st (Some (mkCredit (invitee_type age) addr addr 0
                                        (or_zero (read st stake)) true)) st') st.
Proof.
  intros Hwf Hs Hage. apply wp_bind, wp_determine_invitee; [done|].
  apply wp_bind. wp_call wp_pay; [done|done|done|by left|].
  intros [] st1 Hm. apply (quietly_update (rw_validation st1)); [done|done|].
  intros st2 Hv. pose proof (moved_views _ _ _ _ Hm Hv) as Hm2.
  destruct (moved_readable _ _ _ _ Hm2 Hs) as [Hr Her].
  apply (wp_total addr addr None stake _ st); [exact Hm2|done|done|done|by rewrite Her].
Qed.

Lemma wp_call_moved c st :
  wf st → legal (rw_validation st) c = true →
  wp (call c) (λ _ st', moved st (credit_of c) st') st.
Proof.
  intros Hwf Hl. destruct c; cbn [call credit_of].
  all: try (apply wp_with_amounts; [done|]; intros st' pb ps Hg [Hpb Eb] [Hps Es] Hd; subst;
            pose proof (grown_wf _ _ Hg Hwf) as Hwf').
  all: try (eapply wp_mono; [apply wp_reward; [done..|]|
              intros [] st3 Hm; by apply (moved_grown _ _ _ _ Hwf Hg Hm)];
            intros st2 Q Hv Hrb Hrs Hnext).
  - by eapply (quietly_update (rw_validation st2)).
  - apply wp_bind, wp_init. by apply Hnext.
  - destruct staked as [a|].
    + by eapply (quietly_update (rw_validation st2)).
    + apply wp_bind, wp_init. apply wp_bind, wp_ret. by apply Hnext.
  - apply wp_bind, wp_gets. apply wp_bind. destruct (_ || _).
    + wp_call wp_addRewardedFlips. intros [] st3. apply Hnext.
    + apply wp_bind. wp_call wp_addRewardedFlips. intros [] st3 H3.
      wp_call wp_addRewardedExtraFlips. intros [] st4 H4. apply Hnext.
      by eapply same_views_trans.
  - apply wp_bind, wp_gets. apply wp_bind. destruct (negb _).
    + wp_call wp_addRewardedExtraFlips. intros [] st3. apply Hnext.
    + apply wp_ret, Hnext, same_views_refl.
  - apply wp_bind. wp_call wp_addReportedFlipReward; [|done|done|].
    + rewrite Hv. intros Hi. destruct Hg as (? & -> & _). cbn in *.
      destruct (rw_validation st); [done|]. lia.
    + intros [] st3. apply Hnext.
  - wp_call wp_invitee; [done|done|done|]. intros [] st1.
    by apply moved_grown.
  - unfold AddInvitationsReward. destruct (determineInvitationsRewardType _ _) as [t|].
    + wp_call wp_reward; [done..| |intros [] st1; by apply moved_grown].
      intros st2 Q Hv Hrb Hrs Hnext. apply wp_bind. wp_call wp_addRewardedInvite.
      intros [] st3. apply Hnext.
    + apply wp_ret. apply (moved_grown _ _ _ _ Hwf Hg), moved_refl, Hwf'.
  - wp_call (wp_pay addr pb None); [done|done|done|destruct pb; [by right|by left]|].
    intros [] st1. by apply moved_grown.
  - wp_call (wp_pay addr pb None); [done|done|done|destruct pb; [by right|by left]|].
    intros [] st1. by apply moved_grown.
  - unfold AddPenalizedStake, AddNonValidatedStake.
    destruct amount0 as [a|]; [|by apply wp_ret, moved_refl].
    apply wp_update. by eapply moved_views; [apply moved_refl|].
Qed.
End methods.

(** ** Properties *)

Section properties.
Context `{NodeApi}.
Implicit Types st : Rw.

(** The state of a fresh block. *)
Definition start (v : option ValidationStats) (upgrade11 : bool) : Rw :=
  mkRw _ ∅ None ∅ v upgrade11.

Definition run (cs : list RewardCall) : M Rw unit := for_each cs call.

Lemma start_wf v u : wf (start v u).
Proof.
  split.
  - intros i j r r'. cbn. by rewrite lookup_nil.
  - intros p (r & Hr & _). by apply elem_of_nil in Hr.
  - intros t a r. unfold indexed, start. cbn [rw_index].
    rewrite lookup_empty. cbn. by rewrite lookup_empty.
  - intros r Hr. by apply elem_of_nil in Hr.
Qed.

(** [st'] is [st] after the calls [cs]. *)
Record ran st (cs : list RewardCall) st' : Prop := {
  ran_wf : wf st';
  ran_balance t a : amount rs_Balance st' t a
    = (amount rs_Balance st t a + sumZ (λ c, balance_credit (credit_of c) t a) cs)%Z;
  ran_stake t a : amount rs_Stake st' t a
    = (amount rs_Stake st t a + sumZ (λ c, stake_credit (credit_of c) t a) cs)%Z;
  ran_total a : total_of st' a
    = (total_of st a + sumZ (λ c, total_credit (credit_of c) a) cs)%Z;
  ran_pool d t : pool_total st' d t
    = (pool_total st d t + sumZ (λ c, pool_credit (credit_of c) d t) cs)%Z;
  ran_share d g t : pool_share st' d g t
    = (pool_share st d g t + sumZ (λ c, share_credit (credit_of c) d g t) cs)%Z
}.

Lemma wp_run cs st :
  wf st → forallb (legal (rw_validation st)) cs = true →
  wp (run cs) (λ _ st', ran st cs st') st.
Proof.
  revert st. induction cs as [|c cs IH]; intros st Hwf Hl.
  { apply wp_ret. split; [done|..]; intros; cbn; lia. }
  apply andb_true_iff in Hl as [Hc Hcs].
  apply wp_bind. wp_call wp_call_moved; [done|done|].
  intros [] st1 [W HB HS HT HP HG _ HV].
  wp_call IH; [done|by rewrite HV|].
  intros [] st2 [W2 HB2 HS2 HT2 HP2 HG2].
  split; [done|..]; intros; cbn [sumZ].
  - rewrite HB2, HB. lia.
  - rewrite HS2, HS. lia.
  - rewrite HT2, HT. lia.
  - rewrite HP2, HP. lia.
  - rewrite HG2, HG. lia.
Qed.

(** A call that is not legal panics in every well-formed state. *)
Lemma illegal_call_panics c st :
  wf st → legal (rw_validation st) c = false → call c st = Panic.
Proof.
  intros Hwf Hl. destruct c; cbn in Hl; try done; cbn [call].
  - apply orb_false_iff in Hl as [Hidx Hv].
    destruct (with_amounts_run b s (λ b s,
      AddReportedFlipsReward balanceDest stakeDest shardId flipIdx b s) st Hwf)
      as (st1 & pb & ps & -> & Hg & [Hb _] & [Hs _] & Hd).
    pose proof (grown_wf _ _ Hg Hwf) as Hwf1. unfold AddReportedFlipsReward.
    destruct (wp_done _ _ _ (wp_pay stakeDest pb ps ReportedFlips st1 Hwf1 Hb Hs Hd))
      as ([] & st2 & E2 & Hm2).
    destruct (wp_done _ _ _ (wp_forward balanceDest stakeDest pb ps _ _ _ _ _ Hm2 Hb eq_refl Hs))
      as ([] & st3 & E3 & Hm3 & _).
    rewrite (bind_done _ _ _ _ _ E2), (bind_done _ _ _ _ _ E3).
    apply bind_panic. unfold addReportedFlipReward. apply bind_panic.
    unfold getFlipCid. rewrite Hidx.
    rewrite (bind_done _ _ _ (rw_validation st3) st3) by done.
    rewrite (mv_validation _ _ _ Hm3). destruct Hg as (? & -> & _). cbn.
    by destruct (rw_validation st).
  - destruct (with_amounts_run None s (λ _ s, AddInviteeReward addr s age tx height) st Hwf)
      as (st1 & pb & ps & -> & _).
    apply bind_panic. unfold determineInviteeRewardType.
    apply andb_false_iff in Hl.
    destruct (Z.eqb_spec age 1); [subst; destruct Hl; done|].
    destruct (Z.eqb_spec age 2); [subst; destruct Hl; done|].
    destruct (Z.eqb_spec age 3); [subst; destruct Hl; done|]. done.
Qed.

(** [C6]  The reward records are a faithful ledger: after any sequence of
    reward calls that do not panic, what the records of a type and an
    address hold, balance and stake, is the sum of what the calls credited
    to that type and address, although the records are merged in place. *)
Theorem rewards_ledger v u cs :
  forallb (legal v) cs = true →
  wp (run cs) (λ _ st, ∀ t a,
    amount rs_Balance st t a = sumZ (λ c, balance_credit (credit_of c) t a) cs ∧
    amount rs_Stake st t a = sumZ (λ c, stake_credit (credit_of c) t a) cs)
    (start v u).
Proof.
  intros Hl. wp_call wp_run; [apply start_wf|done|].
  intros [] st Hr t a. rewrite (ran_balance _ _ _ Hr), (ran_stake _ _ _ Hr). done.
Qed.

(** [TotalRewardsByAddr] holds for every address the sum of the
    balances and stakes of its rewards, foundation payouts and the zero
    wallet fund excepted, which the collector keeps out of it. *)
Theorem total_rewards_by_addr v u cs :
  forallb (legal v) cs = true →
  wp (run cs) (λ _ st, ∀ a,
    total_of st a = sumZ (λ c, total_credit (credit_of c) a) cs) (start v u).
Proof.
  intros Hl. wp_call wp_run; [apply start_wf|done|].
  intros [] st Hr a. by rewrite (ran_total _ _ _ Hr).
Qed.

(** [DelegateesEpochRewards] is consistent: for every pool and type the
    total, and for every delegator of it the share, are the sums of the
    balances of the rewards whose balance went to the pool. *)
Theorem delegatees_epoch_rewards v u cs :
  forallb (legal v) cs = true →
  wp (run cs) (λ _ st, ∀ d t,
    pool_total st d t = sumZ (λ c, pool_credit (credit_of c) d t) cs ∧
    ∀ g, pool_share st d g t = sumZ (λ c, share_credit (credit_of c) d g t) cs)
    (start v u).
Proof.
  intros Hl. wp_call wp_run; [apply start_wf|done|].
  intros [] st Hr d t. split; [by rewrite (ran_pool _ _ _ Hr)|].
  intros g. by rewrite (ran_share _ _ _ Hr).
Qed.

(** At most one record per mergeable type and address: two records of
    such a type with the same address are the same position of the list. *)
Theorem one_record_per_address v u cs :
  forallb (legal v) cs = true →
  wp (run cs) (λ _ st, ∀ i j r r',
    records st !! i = Some r → records st !! j = Some r' →
    merged (rs_Type r) = true → rs_Type r = rs_Type r' →
    rs_Address r = rs_Address r' → i = j) (start v u).
Proof.
  intros Hl. wp_call wp_run; [apply start_wf|done|].
  intros [] st Hr i j r r' Hi Hj Hm Ht Ha. pose proof (ran_wf _ _ _ Hr) as Hwf.
  pose proof (wf_indexed _ Hwf r (list_elem_of_lookup_2 _ _ _ Hi) Hm) as H1.
  rewrite Ht in Hm.
  pose proof (wf_indexed _ Hwf r' (list_elem_of_lookup_2 _ _ _ Hj) Hm) as H2.
  rewrite Ht, Ha in H1. rewrite H1 in H2. simplify_eq.
  by apply (wf_sep_balance st i j r' r').
Qed.

(** A sequence of reward calls panics if and only if it holds an invitee
    reward whose age is not 1, 2 or 3, or a reported-flip reward with an
    index while the validation statistics are missing. *)
Theorem rewards_panic v u cs :
  run cs (start v u) = Panic ↔ forallb (legal v) cs = false.
Proof.
  assert (∀ st, wf st → rw_validation st = v →
            run cs st = Panic ↔ forallb (legal v) cs = false) as Hgen.
  { induction cs as [|c l IH]; intros st Hwf <-; [done|]. cbn [forallb].
    destruct (legal (rw_validation st) c) eqn:Hc; cbn [andb].
    - pose proof (wp_call_moved c st Hwf Hc) as Hw.
      apply wp_done in Hw as ([] & st1 & E & Hm).
      rewrite <- (IH st1 (mv_wf _ _ _ Hm) (mv_validation _ _ _ Hm)).
      unfold run. cbn [for_each]. unfold mbind at 1, M_bind at 1. by rewrite E.
    - split; [done|]. intros _. unfold run. cbn [for_each].
      unfold mbind, M_bind. by rewrite (illegal_call_panics c st Hwf Hc). }
  apply Hgen; [apply start_wf|done].
Qed.
End properties.

(** A flip reward of two shards for one address, forwarded to a pool, with an
    invitee and a foundation payout around it. *)
Definition sample_calls : list RewardCall :=
  [CallFlipsBasic (mkAddress 9) (mkAddress 1) (Some 70) (Some 30) [];
   CallInvitee (mkAddress 2) (Some 5) 3 (mkHash 4) 7;
   CallFlipsBasic (mkAddress 9) (mkAddress 1) (Some 7) None [mkFlipToReward [1]];
   CallFoundation (mkAddress 1) (Some 11)]%Z.

Lemma rewards_ledger_witness :
  forallb (legal None) sample_calls = true ∧
  wp (run sample_calls) (λ _ st, ∀ t a,
    amount rs_Balance st t a = sumZ (λ c, balance_credit (credit_of c) t a) sample_calls ∧
    amount rs_Stake st t a = sumZ (λ c, stake_credit (credit_of c) t a) sample_calls)
    (start None true).
Proof. split; [reflexivity|]. apply (rewards_ledger None true sample_calls). reflexivity. Defined.

Lemma total_rewards_by_addr_witness :
  forallb (legal None) sample_calls = true ∧
  wp (run sample_calls) (λ _ st, ∀ a,
    total_of st a = sumZ (λ c, total_credit (credit_of c) a) sample_calls) (start None true).
Proof. split; [reflexivity|]. apply (total_rewards_by_addr None true sample_calls). reflexivity. Defined.

Lemma delegatees_epoch_rewards_witness :
  forallb (legal None) sample_calls = true ∧
  wp (run sample_calls) (λ _ st, ∀ d t,
    pool_total st d t = sumZ (λ c, pool_credit (credit_of c) d t) sample_calls ∧
    ∀ g, pool_share st d g t = sumZ (λ c, share_credit (credit_of c) d g t) sample_calls)
    (start None true).
Proof. split; [reflexivity|]. apply (delegatees_epoch_rewards None true sample_calls). reflexivity. Defined.

Lemma one_record_per_address_witness :
  forallb (legal None) sample_calls = true ∧
  wp (run sample_calls) (λ _ st, ∀ i j r r',
    records st !! i = Some r → records st !! j = Some r' →
    merged (rs_Type r) = true → rs_Type r = rs_Type r' →
    rs_Address r = rs_Address r' → i = j) (start None true).
Proof. split; [reflexivity|]. apply (one_record_per_address None true sample_calls). reflexivity. Defined.

(** The views of the sample, evaluated. *)
Example sample_calls_views :
  match run sample_calls (start None true) with
  | Done (_, st) =>
      amount rs_Balance st Flips (mkAddress 1) = 77%Z ∧
      amount rs_Stake st Flips (mkAddress 1) = 30%Z ∧
      total_of st (mkAddress 1) = 107%Z ∧
      pool_total st (mkAddress 9) Flips = 77%Z ∧ length (records st) = 3%nat
  | Panic => False
  end.
Proof. vm_compute. repeat split. Qed.
