(* ===== verification/Coins.v ===== *)
(** * Coins: minted, burnt, mined, charged

    core/stats/collector.go, the methods that count what a block mints and
    burns, the mining rewards of the proposer and of the final committee, the
    penalties it charges and the transfers that go with kill and activation
    transactions. *)

From S2P Require Import Prelude Node.

(** ** Data *)

(** Go: db/types.go BurntCoinsReason:25-30

    The type is an alias of [uint8], and so is [BalanceUpdateReason]: the last
    two are the balance update reasons [ContractReason] and
    [EmbeddedContractTerminationReason], which [AddTxReceipt] passes. *)
Inductive BurntCoinsReason :=
  | PenaltyBurntCoins | InviteBurntCoins | FeeBurntCoins | KilledBurntCoins
  | BurnTxBurntCoins | DustClearingBurntCoins
  | ContractBurntCoins | ContractTerminationBurntCoins.

Definition BurntCoinsReason_byte (r : BurntCoinsReason) : Z :=
  match r with
  | PenaltyBurntCoins => 0 | InviteBurntCoins => 1 | FeeBurntCoins => 2
  | KilledBurntCoins => 4 | BurnTxBurntCoins => 5 | DustClearingBurntCoins => 6
  | ContractBurntCoins => 10 | ContractTerminationBurntCoins => 11
  end.

(** Go: db/types.go BurntCoins *)
Record BurntCoins `{NodeApi} := mkBurntCoins {
  bc_Amount : Decimal;
  bc_Reason : BurntCoinsReason;
  bc_TxHash : string
}.

(** Go: core/stats/types.go MiningReward *)
Record MiningReward `{NodeApi} := mkMiningReward {
  mr_Address : Address;
  mr_Balance : Z;
  mr_Stake : Z;
  mr_StakeWeight : BigFloat;
  mr_Proposer : bool
}.

(** Go: core/stats/types.go Penalty *)
Record Penalty := mkPenalty { pn_Seconds : Z; pn_InheritedFrom : option Address }.

(** [db.ActivationTxTransfer], [KillTxTransfer], [KillInviteeTxTransfer] *)
Record TxTransfer `{NodeApi} := mkTxTransfer { tt_TxHash : string; tt_Amount : Decimal }.

(** The part of [statsCollector] these methods read and write.  The values of
    [c.pending.finalCommitteeRewardsByAddr] are pointers to entries of
    [c.stats.MiningRewards], modelled by their positions. *)
Record Coins `{NodeApi} := mkCoins {
  co_MintedCoins : option Z;
  co_BurntCoins : option Z;
  co_BurntCoinsByAddr : gmap Address (list BurntCoins);
  co_MiningRewards : list MiningReward;
  co_finalCommitteeRewardsByAddr : gmap Address nat;
  co_OriginalFinalCommittee : gmap Address unit;
  co_PoolFinalCommittee : gmap Address unit;
  co_CommitteeRewardShare : option Z;
  co_ChargedPenaltySecondsByAddr : gmap Address Penalty;
  co_ActivationTxTransfers : list TxTransfer;
  co_KillTxTransfers : list TxTransfer;
  co_KillInviteeTxTransfers : list TxTransfer;
  co_KilledInactiveIdentities : gmap Address unit;
  co_pendingTx : option Tx
}.

Definition emptyCoins `{NodeApi} : Coins :=
  mkCoins _ None None ∅ [] ∅ ∅ ∅ None ∅ [] [] [] ∅ None.

Section operations.
Context `{NodeApi}.
Implicit Types st : Coins.

(** ** Minted and burnt coins *)

(** Go: core/stats/collector.go AddMintedCoins *)
Definition AddMintedCoins (amount : option Z) st : Coins :=
  match amount with
  | None => st
  | Some a => st <| co_MintedCoins ::= λ m, Some (or_zero m + a)%Z |>
  end.

(** Go: core/stats/collector.go addBurntCoins *)
Definition addBurntCoins (addr : Address) (amount : option Z)
    (reason : BurntCoinsReason) (tx : option Tx) st : Coins :=
  if nil_or_zero amount then st else
  let txHash := match tx with
                | None => EmptyString
                | Some tx => hash_Hex (tx_Hash tx)
                end in
  st <| co_BurntCoins ::= λ b, Some (or_zero b + or_zero amount)%Z |>
     <| co_BurntCoinsByAddr ::= λ m,
          <[addr := default [] (m !! addr)
                    ++ [mkBurntCoins _ (ConvertToFloat amount) reason txHash]]> m |>.

(** Go: core/stats/collector.go AddPenaltyBurntCoins *)
Definition AddPenaltyBurntCoins (addr : Address) (amount : option Z) st : Coins :=
  addBurntCoins addr amount PenaltyBurntCoins None st.

(** Go: core/stats/collector.go AddInviteBurntCoins *)
Definition AddInviteBurntCoins (addr : Address) (amount : option Z) (tx : Tx) st : Coins :=
  addBurntCoins addr amount InviteBurntCoins (Some tx) st.

(** Go: core/stats/collector.go AddFeeBurntCoins *)
Definition AddFeeBurntCoins (addr : Address) (feeAmount : option Z)
    (burntRate : Float32) (tx : Tx) st : Coins :=
  if nil_or_zero feeAmount then st else
  let burntFee := Decimal_Mul (Decimal_of_int (or_zero feeAmount))
                              (Decimal_of_float32 burntRate) in
  addBurntCoins addr (Decimal_ToInt burntFee) FeeBurntCoins (Some tx) st.

(** Go: core/stats/collector.go AddKilledBurntCoins *)
Definition AddKilledBurntCoins (addr : Address) (amount : option Z) st : Coins :=
  addBurntCoins addr amount KilledBurntCoins (co_pendingTx st) st.

(** Go: core/stats/collector.go AddBurnTxBurntCoins *)
Definition AddBurnTxBurntCoins (addr : Address) (tx : Tx) st : Coins :=
  addBurntCoins addr (Some (or_zero (tx_Amount tx))) BurnTxBurntCoins (Some tx) st.

(** Go: core/stats/collector.go AfterAddStake *)
Definition AfterAddStake (addr : Address) (amount : option Z) (appState : AppState) st
    : Coins :=
  if decide (GetIdentityState appState addr = Killed)
  then addBurntCoins addr amount KilledBurntCoins None st else st.

(** ** Mining rewards *)

(** Go: core/stats/collector.go addMiningReward

    With the position of the new entry, when there is one. *)
Definition addMiningReward (addr : Address) (balance stake : option Z)
    (stakeWeight : option BigFloat) (isProposerReward : bool) st : Coins * option nat :=
  let balance := or_zero balance in
  let stake := or_zero stake in
  if ((balance =? 0) && (stake =? 0))%Z then (st, None) else
  (st <| co_MiningRewards ::= λ l,
      l ++ [mkMiningReward _ addr balance stake (default math_Zero stakeWeight)
                           isProposerReward] |>,
   Some (length (co_MiningRewards st))).

(** Go: core/stats/collector.go AddProposerReward *)
Definition AddProposerReward (balanceDest stakeDest : Address)
    (balance stake : option Z) (stakeWeight : option BigFloat) st : Coins :=
  if decide (balanceDest = stakeDest) then
    (addMiningReward balanceDest balance stake stakeWeight true st).1
  else
    let st := (addMiningReward balanceDest balance (Some 0%Z) stakeWeight true st).1 in
    (addMiningReward stakeDest (Some 0%Z) stake stakeWeight true st).1.

(** Go: core/stats/collector.go addFinalCommitteeReward *)
Definition addFinalCommitteeReward (addr : Address) (balance stake : Z)
    (stakeWeight : BigFloat) st : Coins :=
  match co_finalCommitteeRewardsByAddr st !! addr with
  | Some i =>
      st <| co_MiningRewards ::= alter (λ r, mkMiningReward _ (mr_Address r)
              (mr_Balance r + balance) (mr_Stake r + stake)
              (BigFloat_Add (mr_StakeWeight r) stakeWeight) (mr_Proposer r)) i |>
  | None =>
      match addMiningReward addr (Some balance) (Some stake) (Some stakeWeight) false st with
      | (st, Some i) => st <| co_finalCommitteeRewardsByAddr ::= insert addr i |>
      | (st, None) => st
      end
  end.

(** Go: core/stats/collector.go AddFinalCommitteeReward *)
Definition AddFinalCommitteeReward (balanceDest stakeDest : Address)
    (balance stake : option Z) (stakeWeight : option BigFloat) st : Coins :=
  let b := or_zero balance in
  let s := or_zero stake in
  let st :=
    if (negb (b =? 0) || negb (s =? 0))%Z then
      let w := default math_Zero stakeWeight in
      if decide (balanceDest = stakeDest) then
        addFinalCommitteeReward balanceDest b s w st
      else
        addFinalCommitteeReward stakeDest 0 s w
          (addFinalCommitteeReward balanceDest b 0 w st)
    else st in
  st <| co_OriginalFinalCommittee ::= insert stakeDest tt |>
     <| co_PoolFinalCommittee ::= insert balanceDest tt |>.

(** Go: core/stats/collector.go SetCommitteeRewardShare *)
Definition SetCommitteeRewardShare (amount : option Z) st : Coins :=
  st <| co_CommitteeRewardShare := amount |>.

(** ** Penalties *)

(** Go: core/stats/collector.go addChargedPenaltySeconds *)
Definition addChargedPenaltySeconds (addr : Address) (value : Z)
    (inheritedFrom : option Address) st : Coins :=
  if (value =? 0)%Z then st else
  st <| co_ChargedPenaltySecondsByAddr ::= insert addr (mkPenalty value inheritedFrom) |>.

(** Go: core/stats/collector.go BeforeSetPenalty *)
Definition BeforeSetPenalty (addr : Address) (seconds : Z)
    (inheritedFrom : option Address) (appState : AppState) st : Coins :=
  addChargedPenaltySeconds addr seconds inheritedFrom st.

(** ** Transfers of kill and activation transactions *)

(** Go: core/stats/collector.go AddActivationTxBalanceTransfer *)
Definition AddActivationTxBalanceTransfer (tx : Tx) (amount : option Z) : M Coins unit :=
  match tx_To tx with
  | None => panic
  | Some to =>
      if decide (tx_Sender tx = to) then mret tt
      else if nil_or_zero amount then mret tt
      else modify_st (λ st, st <| co_ActivationTxTransfers ::= λ l,
             l ++ [mkTxTransfer _ (hash_Hex (tx_Hash tx)) (ConvertToFloat amount)] |>)
  end.

(** Go: core/stats/collector.go AddKillTxStakeTransfer *)
Definition AddKillTxStakeTransfer (tx : Tx) (amount : option Z) st : Coins :=
  if nil_or_zero amount then st else
  st <| co_KillTxTransfers ::= λ l,
    l ++ [mkTxTransfer _ (hash_Hex (tx_Hash tx)) (ConvertToFloat amount)] |>.

(** Go: core/stats/collector.go AddKillInviteeTxStakeTransfer *)
Definition AddKillInviteeTxStakeTransfer (tx : Tx) (stake stakeToTransfer : option Z)
    : M Coins unit :=
  (if negb (nil_or_zero stakeToTransfer) then
     modify_st (λ st, st <| co_KillInviteeTxTransfers ::= λ l,
       l ++ [mkTxTransfer _ (hash_Hex (tx_Hash tx)) (ConvertToFloat stakeToTransfer)] |>)
   else mret tt);;
  if negb (nil_or_zero stake) && negb (nil_or_zero stakeToTransfer)
     && (or_zero stakeToTransfer <? or_zero stake)%Z
  then match tx_To tx with
       | None => panic
       | Some to => modify_st
           (AddKilledBurntCoins to (Some (or_zero stake - or_zero stakeToTransfer)%Z))
       end
  else mret tt.
End operations.

(** ** Burnt coins: the total and the entries agree *)

Section burnt.
Context `{NodeApi}.
Implicit Types st : Coins.

Inductive BurnCall :=
  | BurnPenalty (addr : Address) (amount : option Z)
  | BurnInvite (addr : Address) (amount : option Z) (tx : Tx)
  | BurnFee (addr : Address) (fee : option Z) (rate : Float32) (tx : Tx)
  | BurnKilled (addr : Address) (amount : option Z)
  | BurnTxCall (addr : Address) (tx : Tx)
  | BurnDust (addr : Address) (amount : option Z)
  | BurnAddStake (addr : Address) (amount : option Z) (appState : AppState).

Definition burn (c : BurnCall) st : Coins :=
  match c with
  | BurnPenalty a v => AddPenaltyBurntCoins a v st
  | BurnInvite a v tx => AddInviteBurntCoins a v tx st
  | BurnFee a v rate tx => AddFeeBurntCoins a v rate tx st
  | BurnKilled a v => AddKilledBurntCoins a v st
  | BurnTxCall a tx => AddBurnTxBurntCoins a tx st
  | BurnDust a v => addBurntCoins a v DustClearingBurntCoins None st
  | BurnAddStake a v s => AfterAddStake a v s st
  end.

(** What a call burns: the address, the amount and the entry to record. *)
Definition burnt (pending : option Tx) (c : BurnCall) : option (Address * Z * BurntCoins) :=
  let entry a v reason tx :=
    if nil_or_zero v then None else
    Some (a, or_zero v, mkBurntCoins _ (ConvertToFloat v) reason
            (match tx with None => EmptyString | Some tx => hash_Hex (tx_Hash tx) end)) in
  match c with
  | BurnPenalty a v => entry a v PenaltyBurntCoins None
  | BurnInvite a v tx => entry a v InviteBurntCoins (Some tx)
  | BurnFee a v rate tx =>
      if nil_or_zero v then None else
      entry a (Decimal_ToInt (Decimal_Mul (Decimal_of_int (or_zero v))
                                          (Decimal_of_float32 rate))) FeeBurntCoins (Some tx)
  | BurnKilled a v => entry a v KilledBurntCoins pending
  | BurnTxCall a tx => entry a (Some (or_zero (tx_Amount tx))) BurnTxBurntCoins (Some tx)
  | BurnDust a v => entry a v DustClearingBurntCoins None
  | BurnAddStake a v s =>
      if decide (GetIdentityState s a = Killed) then entry a v KilledBurntCoins None else None
  end.

(** The state after one recorded burn. *)
Definition record_burn (b : option (Address * Z * BurntCoins)) st : Coins :=
  match b with
  | None => st
  | Some (a, v, e) =>
      st <| co_BurntCoins ::= λ b, Some (or_zero b + v)%Z |>
         <| co_BurntCoinsByAddr ::= λ m, <[a := default [] (m !! a) ++ [e]]> m |>
  end.

Lemma addBurntCoins_record addr v reason tx st :
  addBurntCoins addr v reason tx st =
  record_burn (if nil_or_zero v then None else
    Some (addr, or_zero v, mkBurntCoins _ (ConvertToFloat v) reason
      (match tx with None => EmptyString | Some tx => hash_Hex (tx_Hash tx) end))) st.
Proof. unfold addBurntCoins. by destruct (nil_or_zero v). Qed.

Lemma burn_record c st : burn c st = record_burn (burnt (co_pendingTx st) c) st.
Proof.
  destruct c; cbn [burn burnt];
    unfold AddPenaltyBurntCoins, AddInviteBurntCoins, AddFeeBurntCoins,
      AddKilledBurntCoins, AddBurnTxBurntCoins, AfterAddStake;
    rewrite ?addBurntCoins_record; try done.
  - by destruct (nil_or_zero fee).
  - by destruct (decide _).
Qed.

Lemma record_burn_pending b st : co_pendingTx (record_burn b st) = co_pendingTx st.
Proof. by destruct b as [[[]]|]. Qed.

Definition burn_all (cs : list BurnCall) st : Coins := foldl (λ st c, burn c st) st cs.

Definition burnt_amount (b : option (Address * Z * BurntCoins)) : Z :=
  match b with Some (_, v, _) => v | None => 0 end.
Definition burnt_entry (a : Address) (b : option (Address * Z * BurntCoins)) : list BurntCoins :=
  match b with
  | Some (a', _, e) => if decide (a' = a) then [e] else []
  | None => []
  end.

Lemma burn_all_spec cs st tx :
  co_pendingTx st = tx →
  or_zero (co_BurntCoins (burn_all cs st))
    = (or_zero (co_BurntCoins st) + sumZ (λ c, burnt_amount (burnt tx c)) cs)%Z ∧
  ∀ a, default [] (co_BurntCoinsByAddr (burn_all cs st) !! a)
    = default [] (co_BurntCoinsByAddr st !! a) ++ (cs ≫= λ c, burnt_entry a (burnt tx c)).
Proof.
  revert st. induction cs as [|c cs IH]; intros st Hp.
  { split; [cbn; lia|]. intros a. by rewrite app_nil_r. }
  cbn [burn_all foldl]. change (foldl _ ?s cs) with (burn_all cs s).
  destruct (IH (burn c st)) as [IHt IHe]; [by rewrite burn_record, record_burn_pending|].
  split.
  - rewrite IHt, burn_record, Hp. cbn [sumZ].
    destruct (burnt tx c) as [[[a v] e]|]; cbn; lia.
  - intros a. rewrite IHe, burn_record, Hp, bind_cons, (assoc_L (++)). f_equal.
    destruct (burnt tx c) as [[[a' v] e]|]; cbn; [|by rewrite app_nil_r].
    destruct (decide (a' = a)) as [->|Hne].
    + by rewrite lookup_insert_eq.
    + by rewrite lookup_insert_ne, app_nil_r.
Qed.

(** After any sequence of burns of a block, [BurntCoins] is the sum of the
    amounts burnt and [BurntCoinsByAddr] holds, for every address and in order,
    one entry for each burn of that address whose amount is neither nil nor
    zero. *)
Theorem burnt_coins_consistent cs tx :
  let st := burn_all cs (emptyCoins <| co_pendingTx := tx |>) in
  or_zero (co_BurntCoins st) = sumZ (λ c, burnt_amount (burnt tx c)) cs ∧
  ∀ a, default [] (co_BurntCoinsByAddr st !! a)
       = cs ≫= λ c, burnt_entry a (burnt tx c).
Proof.
  cbn zeta. destruct (burn_all_spec cs (emptyCoins <| co_pendingTx := tx |>) tx)
    as [Ht He]; [reflexivity|]. split; [exact Ht|]. intros a. by rewrite He.
Qed.
End burnt.

(** ** Mining rewards *)

Section mining.
Context `{NodeApi}.
Implicit Types st : Coins.

Inductive MiningCall :=
  | ProposerCall (balanceDest stakeDest : Address) (b s : option Z) (w : option BigFloat)
  | CommitteeCall (balanceDest stakeDest : Address) (b s : option Z) (w : option BigFloat).

Definition mine (c : MiningCall) st : Coins :=
  match c with
  | ProposerCall bd sd b s w => AddProposerReward bd sd b s w st
  | CommitteeCall bd sd b s w => AddFinalCommitteeReward bd sd b s w st
  end.
Definition mine_all (cs : list MiningCall) st : Coins := foldl (λ st c, mine c st) st cs.

(** What the rewards of an address and a role hold. *)
Definition mined (sel : MiningReward → Z) st (p : bool) (a : Address) : Z :=
  sumZ (λ r, if decide (mr_Proposer r = p ∧ mr_Address r = a) then sel r else 0%Z)
       (co_MiningRewards st).

Definition at_key (p : bool) (a : Address) (z : Z) (p' : bool) (a' : Address) : Z :=
  if decide (p = p' ∧ a = a') then z else 0%Z.

Definition mining_role (c : MiningCall) : bool :=
  match c with ProposerCall _ _ _ _ _ => true | CommitteeCall _ _ _ _ _ => false end.
Definition mining_balance (c : MiningCall) (p : bool) (a : Address) : Z :=
  match c with ProposerCall bd _ b _ _ | CommitteeCall bd _ b _ _ =>
    at_key (mining_role c) bd (or_zero b) p a end.
Definition mining_stake (c : MiningCall) (p : bool) (a : Address) : Z :=
  match c with ProposerCall _ sd _ s _ | CommitteeCall _ sd _ s _ =>
    at_key (mining_role c) sd (or_zero s) p a end.

(** The index holds exactly the committee rewards, one for an address. *)
Definition mining_wf st : Prop :=
  ∀ i r, co_MiningRewards st !! i = Some r → mr_Proposer r = false →
         co_finalCommitteeRewardsByAddr st !! mr_Address r = Some i.
Definition index_wf st : Prop :=
  ∀ a i, co_finalCommitteeRewardsByAddr st !! a = Some i →
         ∃ r, co_MiningRewards st !! i = Some r ∧ mr_Address r = a ∧ mr_Proposer r = false.

(** [st'] is [st] with [b] and [s] more for the role [p] of [ab] and [as_]. *)
Definition mining_step st p ab b as_ s st' : Prop :=
  mining_wf st' ∧ index_wf st' ∧
  (∀ p' a', mined mr_Balance st' p' a' = (mined mr_Balance st p' a' + at_key p ab b p' a')%Z) ∧
  (∀ p' a', mined mr_Stake st' p' a' = (mined mr_Stake st p' a' + at_key p as_ s p' a')%Z).

Lemma at_key_zero p a p' a' : at_key p a 0 p' a' = 0%Z.
Proof. unfold at_key. by destruct (decide _). Qed.

Lemma mined_snoc sel st st' r p a :
  co_MiningRewards st' = co_MiningRewards st ++ [r] →
  mined sel st' p a
  = (mined sel st p a + at_key (mr_Proposer r) (mr_Address r) (sel r) p a)%Z.
Proof. intros Hst'. unfold mined. rewrite Hst', sumZ_snoc. done. Qed.

Lemma addMiningReward_proposer addr b s w st :
  mining_wf st → index_wf st →
  mining_step st true addr (or_zero b) addr (or_zero s)
    (addMiningReward addr b s w true st).1.
Proof.
  intros Hm Hi. unfold addMiningReward.
  destruct ((or_zero b =? 0) && (or_zero s =? 0))%Z eqn:Hz; cbn [fst].
  - apply andb_true_iff in Hz as [->%Z.eqb_eq ->%Z.eqb_eq].
    split_and!; [done|done|..]; intros; rewrite at_key_zero; lia.
  - split_and!.
    + intros i r Hr Hp. cbn in *. apply lookup_snoc_Some in Hr as [[_ Hr]|[_ <-]]; [|done].
      by apply Hm.
    + intros a i Ha. destruct (Hi a i Ha) as (r & Hr & ? & ?). exists r.
      split; [|done]. cbn. apply lookup_app_l_Some, Hr.
    + intros p a. by apply (mined_snoc mr_Balance _ _
        (mkMiningReward _ addr (or_zero b) (or_zero s) (default math_Zero w) true)).
    + intros p a. by apply (mined_snoc mr_Stake _ _
        (mkMiningReward _ addr (or_zero b) (or_zero s) (default math_Zero w) true)).
Qed.

Lemma addFinalCommitteeReward_step addr b s w st :
  mining_wf st → index_wf st →
  mining_step st false addr b addr s (addFinalCommitteeReward addr b s w st).
Proof.
  intros Hm Hi. unfold addFinalCommitteeReward.
  destruct (co_finalCommitteeRewardsByAddr st !! addr) as [i|] eqn:Hix.
  - destruct (Hi _ _ Hix) as (r & Hr & Ha & Hp). split_and!.
    + intros j r' Hj Hp'. cbn in Hj. rewrite list_alter_insert_step with (x := r) in Hj by done.
      apply list_lookup_insert_Some in Hj as [(<- & <- & _)|[_ Hj]]; cbn in *.
      * by rewrite Ha.
      * by apply Hm.
    + intros a j Hj. destruct (Hi a j Hj) as (r' & Hr' & Ha' & Hp').
      cbn. destruct (decide (i = j)) as [<-|Hne].
      * rewrite list_lookup_alter_eq, Hr'. eexists. split; [reflexivity|done].
      * rewrite list_lookup_alter_ne by done. eauto.
    + intros p a. unfold mined. cbn. rewrite list_alter_insert_step with (x := r) by done.
      rewrite (sumZ_insert _ _ _ r) by done. cbn. rewrite Ha, Hp.
      unfold at_key. repeat case_decide; try tauto; lia.
    + intros p a. unfold mined. cbn. rewrite list_alter_insert_step with (x := r) by done.
      rewrite (sumZ_insert _ _ _ r) by done. cbn. rewrite Ha, Hp.
      unfold at_key. repeat case_decide; try tauto; lia.
  - unfold addMiningReward. cbn [or_zero default from_option id].
    destruct ((b =? 0) && (s =? 0))%Z eqn:Hz.
    + apply andb_true_iff in Hz as [->%Z.eqb_eq ->%Z.eqb_eq].
      split_and!; [done|done|..]; intros; rewrite at_key_zero; lia.
    + split_and!.
      * intros j r' Hj Hp'. cbn in *.
        apply lookup_snoc_Some in Hj as [[Hlt Hj]|[-> <-]]; cbn.
        -- destruct (decide (addr = mr_Address r')) as [He|He].
           ++ rewrite He, (Hm j r' Hj Hp') in Hix. done.
           ++ rewrite lookup_insert_ne by done. by apply Hm.
        -- by rewrite lookup_insert_eq.
      * intros a j Hj. cbn in *. apply lookup_insert_Some in Hj as [[<- <-]|[_ Hj]].
        -- eexists. rewrite lookup_app_r, Nat.sub_diag by lia. done.
        -- destruct (Hi a j Hj) as (r & Hr & ? & ?). exists r.
           split; [apply lookup_app_l_Some, Hr|done].
      * intros p a. by eapply (mined_snoc mr_Balance _ _ (mkMiningReward _ addr b s w false)).
      * intros p a. by eapply (mined_snoc mr_Stake _ _ (mkMiningReward _ addr b s w false)).
Qed.

Lemma mining_step_wf st p ab b as_ s st' :
  mining_step st p ab b as_ s st' → mining_wf st' ∧ index_wf st'.
Proof. by intros (? & ? & _). Qed.

Lemma mine_step c st :
  mining_wf st → index_wf st →
  mining_wf (mine c st) ∧ index_wf (mine c st) ∧
  ∀ p a, mined mr_Balance (mine c st) p a
           = (mined mr_Balance st p a + mining_balance c p a)%Z ∧
         mined mr_Stake (mine c st) p a = (mined mr_Stake st p a + mining_stake c p a)%Z.
Proof.
  intros Hm Hi. destruct c as [bd sd b s w|bd sd b s w]; cbn.
  - unfold AddProposerReward. destruct (decide (bd = sd)) as [<-|Hne].
    + destruct (addMiningReward_proposer bd b s w st Hm Hi) as (? & ? & HB & HS).
      split_and!; [done|done|]. intros p a. by rewrite HB, HS.
    + destruct (addMiningReward_proposer bd b (Some 0%Z) w st Hm Hi) as (Hm1 & Hi1 & HB1 & HS1).
      destruct (addMiningReward_proposer sd (Some 0%Z) s w _ Hm1 Hi1) as (Hm2 & Hi2 & HB & HS).
      split_and!; [done|done|]. intros p a.
      rewrite HB, HS, HB1, HS1. cbn. rewrite !at_key_zero. lia.
  - unfold AddFinalCommitteeReward.
    destruct (negb (or_zero b =? 0) || negb (or_zero s =? 0))%Z eqn:Hz.
    + destruct (decide (bd = sd)) as [<-|Hne].
      * destruct (addFinalCommitteeReward_step bd (or_zero b) (or_zero s)
                    (default math_Zero w) st Hm Hi) as (? & ? & HB & HS).
        split_and!; [done|done|]. intros p a. split; [apply HB|apply HS].
      * destruct (addFinalCommitteeReward_step bd (or_zero b) 0
                    (default math_Zero w) st Hm Hi) as (Hm1 & Hi1 & HB1 & HS1).
        destruct (addFinalCommitteeReward_step sd 0 (or_zero s)
                    (default math_Zero w) _ Hm1 Hi1) as (Hm2 & Hi2 & HB & HS).
        split_and!; [done|done|]. intros p a. specialize (HB p a). specialize (HS p a).
        rewrite HB1 in HB. rewrite HS1 in HS. rewrite at_key_zero in HB, HS.
        split; [etrans; [exact HB|cbn; lia]|etrans; [exact HS|cbn; lia]].
    + apply orb_false_iff in Hz as [Hb%negb_false_iff%Z.eqb_eq Hs%negb_false_iff%Z.eqb_eq].
      split_and!; [done|done|]. intros p a. rewrite Hb, Hs, !at_key_zero.
      split; [by rewrite Z.add_0_r|by rewrite Z.add_0_r].
Qed.

Lemma mine_all_spec cs st :
  mining_wf st → index_wf st →
  mining_wf (mine_all cs st) ∧
  ∀ p a, mined mr_Balance (mine_all cs st) p a
           = (mined mr_Balance st p a + sumZ (λ c, mining_balance c p a) cs)%Z ∧
         mined mr_Stake (mine_all cs st) p a
           = (mined mr_Stake st p a + sumZ (λ c, mining_stake c p a) cs)%Z.
Proof.
  revert st. induction cs as [|c cs IH]; intros st Hm Hi.
  { split; [done|]. intros p a. cbn. lia. }
  destruct (mine_step c st Hm Hi) as (Hm1 & Hi1 & H1).
  destruct (IH (mine c st) Hm1 Hi1) as (Hm2 & H2).
  cbn [mine_all foldl]. change (foldl _ ?s cs) with (mine_all cs s).
  split; [done|]. intros p a. destruct (H1 p a) as [HB1 HS1]. destruct (H2 p a) as [HB2 HS2].
  cbn [sumZ]. rewrite HB2, HS2, HB1, HS1. lia.
Qed.

Lemma empty_mining_wf : mining_wf emptyCoins ∧ index_wf emptyCoins.
Proof.
  split.
  - intros i r. cbn. by rewrite lookup_nil.
  - intros a i. cbn. by rewrite lookup_empty.
Qed.

(** [C12]  The mining rewards are a ledger of the calls: for a role (proposer or
    final committee) and an address, the balances and the stakes of the
    rewards of the block sum to what the calls gave to that address as the
    destination of the balance and of the stake, and an address has at most
    one reward as a member of the final committee. *)
Theorem mining_rewards_ledger cs :
  let st := mine_all cs emptyCoins in
  (∀ p a, mined mr_Balance st p a = sumZ (λ c, mining_balance c p a) cs ∧
          mined mr_Stake st p a = sumZ (λ c, mining_stake c p a) cs) ∧
  (∀ i j r r', co_MiningRewards st !! i = Some r → co_MiningRewards st !! j = Some r' →
     mr_Proposer r = false → mr_Proposer r' = false → mr_Address r = mr_Address r' → i = j).
Proof.
  cbn zeta. destruct empty_mining_wf as [Hm Hi].
  destruct (mine_all_spec cs emptyCoins Hm Hi) as [Hwf Hsum]. split.
  - exact Hsum.
  - intros i j r r' Hr Hr' Hp Hp' Ha.
    pose proof (Hwf i r Hr Hp) as H1. pose proof (Hwf j r' Hr' Hp') as H2.
    rewrite Ha, H2 in H1. by simplify_eq.
Qed.

(** The members recorded: every call names the destination of the stake as
    the original member and the destination of the balance as the pool. *)
Lemma final_committee_members cs a st :
  is_Some (co_OriginalFinalCommittee (mine_all cs st) !! a) ↔
    is_Some (co_OriginalFinalCommittee st !! a) ∨
    ∃ bd b s w, CommitteeCall bd a b s w ∈ cs.
Proof.
  revert st. induction cs as [|c cs IH]; intros st.
  { split; [by left|]. intros [?|(? & ? & ? & ? & Hin)]; [done|by apply elem_of_nil in Hin]. }
  cbn [mine_all foldl]. change (foldl _ ?s cs) with (mine_all cs s). rewrite IH.
  setoid_rewrite elem_of_cons.
  assert (is_Some (co_OriginalFinalCommittee (mine c st) !! a) ↔
          is_Some (co_OriginalFinalCommittee st !! a) ∨
          ∃ bd b s w, CommitteeCall bd a b s w = c) as ->.
  2: { split.
       - intros [[?|(bd & b & s & w & <-)]|(bd & b & s & w & Hin)];
           [by left|right; by eauto 7|right; by eauto 7].
       - intros [?|(bd & b & s & w & [<-|Hin])];
           [by left; left|left; right; by eauto|right; by eauto]. }
  destruct c as [bd sd b s w|bd sd b s w]; cbn.
  - transitivity (is_Some (co_OriginalFinalCommittee st !! a)).
    2: { split; [by left|]. by intros [?|(? & ? & ? & ? & [=])]. }
    unfold AddProposerReward, addMiningReward.
    repeat case_match; simplify_eq/=; done.
  - assert (∀ a b s w st', co_OriginalFinalCommittee (addFinalCommitteeReward a b s w st')
                           = co_OriginalFinalCommittee st') as Hfr.
    { intros. unfold addFinalCommitteeReward, addMiningReward.
      repeat case_match; simplify_eq/=; done. }
    unfold AddFinalCommitteeReward. cbn.
    destruct (decide (sd = a)) as [->|Hne].
    + rewrite lookup_insert_eq. split; [intros _; right; by eauto|by eauto].
    + rewrite lookup_insert_ne by done.
      transitivity (is_Some (co_OriginalFinalCommittee st !! a)).
      { repeat case_match; by rewrite ?Hfr. }
      split; [by left|]. by intros [?|(? & ? & ? & ? & [=])].
Qed.
End mining.
