(* ===== verification/BalanceUpdates.v ===== *)
(** * Balance updates

    core/stats/collector.go, [Begin*BalanceUpdate], [CompleteBalanceUpdate] and
    their helpers.  The node calls a [Begin] method before it changes the
    balance of some addresses and [CompleteBalanceUpdate] after; the collector
    records the change as a [db.BalanceUpdate].  Rewards of one kind to one
    address are merged into the update recorded first, and the three updates of
    a delegated epoch reward are linked so that they stay consecutive. *)

From S2P Require Import Prelude Node Coins.

(** ** Data *)

(** Go: db/types.go BalanceUpdateReason:32-45 *)
Inductive BalanceUpdateReason :=
  | TxReason | VerifiedStakeTransferReason | ProposerRewardReason
  | CommitteeRewardReason | EpochRewardReason | FailedValidationReason
  | PenaltyReason | EpochPenaltyResetReason | DustClearingReason | ContractReason
  | EmbeddedContractTerminationReason | DelegatorEpochRewardReason
  | DelegateeEpochRewardReason | IdentityClearingReason.

#[export] Instance BalanceUpdateReason_eq_dec : EqDecision BalanceUpdateReason.
Proof. solve_decision. Defined.

Definition reason_code (r : BalanceUpdateReason) : Z :=
  match r with
  | TxReason => 0 | VerifiedStakeTransferReason => 1 | ProposerRewardReason => 2
  | CommitteeRewardReason => 3 | EpochRewardReason => 4 | FailedValidationReason => 5
  | PenaltyReason => 6 | EpochPenaltyResetReason => 7 | DustClearingReason => 9
  | ContractReason => 10 | EmbeddedContractTerminationReason => 11
  | DelegatorEpochRewardReason => 12 | DelegateeEpochRewardReason => 13
  | IdentityClearingReason => 14
  end.

Definition all_reasons : list BalanceUpdateReason :=
  [TxReason; VerifiedStakeTransferReason; ProposerRewardReason;
   CommitteeRewardReason; EpochRewardReason; FailedValidationReason;
   PenaltyReason; EpochPenaltyResetReason; DustClearingReason; ContractReason;
   EmbeddedContractTerminationReason; DelegatorEpochRewardReason;
   DelegateeEpochRewardReason; IdentityClearingReason].

Lemma reason_decode r : find (λ r', (reason_code r' =? reason_code r)%Z) all_reasons = Some r.
Proof. by destruct r. Qed.

#[export] Instance BalanceUpdateReason_countable : Countable BalanceUpdateReason :=
  inj_countable reason_code
    (λ z, find (λ r', (reason_code r' =? z)%Z) all_reasons) reason_decode.

(** Go: db/types.go BalanceUpdate *)
Record BalanceUpdate := mkBalanceUpdate {
  u_Address : Address;
  u_BalanceOld : Z; u_StakeOld : Z;
  u_PenaltyOld : option Z; u_PenaltySecondsOld : Z;
  u_BalanceNew : Z; u_StakeNew : Z;
  u_PenaltyNew : option Z; u_PenaltySecondsNew : Z;
  u_PenaltyPayment : option Z;
  u_TxHash : option Hash;
  u_Reason : BalanceUpdateReason
}.

(** An entry of [c.pending.balanceUpdates]: a [db.BalanceUpdate] whose new
    values are still nil. *)
Record PendingUpdate := mkPendingUpdate {
  p_Address : Address;
  p_BalanceOld : Z; p_StakeOld : Z;
  p_PenaltyOld : option Z; p_PenaltySecondsOld : Z;
  p_PenaltyPayment : option Z;
  p_TxHash : option Hash;
  p_Reason : BalanceUpdateReason
}.

Abbreviation ptr := positive.

(** The part of [statsCollector] these methods read and write: the store of
    balance updates, [c.stats.BalanceUpdates], [c.stats.BalanceUpdateAddrs],
    [c.pending.balanceUpdates], [balanceUpdatesByReasonAndAddr],
    [linkedBalanceUpdatesByNext] (of an update, the one before it),
    [linkedBalanceUpdatesByPrev] (the one after it), and the coins. *)
Record Bu `{NodeApi} := mkBu {
  bu_store : gmap ptr BalanceUpdate;
  bu_recorded : list ptr;
  bu_addrs : gset Address;
  bu_pending : list PendingUpdate;
  bu_byReason : gmap BalanceUpdateReason (gmap Address ptr);
  bu_byNext : gmap ptr ptr;
  bu_byPrev : gmap ptr ptr;
  bu_coins : Coins
}.

Definition emptyBu `{NodeApi} : Bu := mkBu _ ∅ [] ∅ [] ∅ ∅ ∅ emptyCoins.

Section operations.
Context `{NodeApi}.

(** ** What is observed of an address *)

(** Go: core/stats/collector.go getStakeIfNotKilled *)
Definition getStakeIfNotKilled (addr : Address) (appState : AppState) : Z :=
  if decide (GetIdentityState appState addr = Killed) then 0%Z
  else GetStakeBalance appState addr.

(** Go: core/stats/collector.go getPenaltyIfNotKilled *)
Definition getPenaltyIfNotKilled (addr : Address) (appState : AppState) : option Z :=
  if decide (GetIdentityState appState addr = Killed) then Some 0%Z
  else id_Penalty (GetIdentity appState addr).

(** Go: core/stats/collector.go getPenaltySecondsIfNotKilled *)
Definition getPenaltySecondsIfNotKilled (addr : Address) (appState : AppState) : Z :=
  if decide (GetIdentityState appState addr = Killed) then 0%Z
  else id_PenaltySeconds (GetIdentity appState addr).

(** Go: core/stats/collector.go isBalanceOrStakeOrPenaltyChanged *)
Definition isBalanceOrStakeOrPenaltyChanged (u : BalanceUpdate) : bool :=
  negb (u_BalanceOld u =? u_BalanceNew u)%Z
  || negb (u_StakeOld u =? u_StakeNew u)%Z
  || negb (or_zero (u_PenaltyOld u) =? or_zero (u_PenaltyNew u))%Z
  || negb (u_PenaltySecondsOld u =? u_PenaltySecondsNew u)%Z
  || match u_PenaltyPayment u with Some z => (0 <? z)%Z | None => false end.

(** Go: core/stats/collector.go isBalanceChanged *)
Definition isBalanceChanged (u : BalanceUpdate) : bool :=
  negb (u_BalanceOld u =? u_BalanceNew u)%Z.

(** ** The store *)

Definition load (p : ptr) : M Bu BalanceUpdate := λ st,
  match bu_store st !! p with Some u => Done (u, st) | None => Panic end.
Definition store (p : ptr) (u : BalanceUpdate) : M Bu unit :=
  modify_st (λ st, st <| bu_store ::= insert p u |>).
Definition alloc (u : BalanceUpdate) : M Bu ptr := λ st,
  let p := fresh (dom (bu_store st)) in
  Done (p, st <| bu_store ::= insert p u |>).

(** ** Beginning an update *)

(** Go: core/stats/collector.go addPendingBalanceUpdate *)
Definition addPendingBalanceUpdate (addr : Address) (appState : AppState)
    (reason : BalanceUpdateReason) (txHash : option Hash)
    (potentialPenaltyPayment : option Z) : M Bu unit :=
  let penaltySecondsOld := getPenaltySecondsIfNotKilled addr appState in
  let penaltyPayment :=
    if (0 <? penaltySecondsOld)%Z then potentialPenaltyPayment else None in
  modify_st (λ st, st <| bu_pending ::= λ l, l ++
    [mkPendingUpdate addr (GetBalance appState addr) (getStakeIfNotKilled addr appState)
       (getPenaltyIfNotKilled addr appState) penaltySecondsOld penaltyPayment txHash
       reason] |>).

(** [if balanceDest != stakeDest { c.addPendingBalanceUpdate(stakeDest, ...) }] *)
Definition addPendingPair (first second : Address) (appState : AppState)
    (reason : BalanceUpdateReason) (payment : option Z) : M Bu unit :=
  addPendingBalanceUpdate first appState reason None payment;;
  if decide (first = second) then mret tt
  else addPendingBalanceUpdate second appState reason None None.

(** Go: core/stats/collector.go BeginVerifiedStakeTransferBalanceUpdate *)
Definition BeginVerifiedStakeTransferBalanceUpdate (addrFrom addrTo : Address)
    (appState : AppState) : M Bu unit :=
  addPendingPair addrFrom addrTo appState VerifiedStakeTransferReason None.

(** The loop over the additional addresses: [seen] is [addressMap]. *)
Fixpoint addAdditional (seen : gset Address) (addrs : list Address)
    (appState : AppState) (txHash : Hash) : M Bu unit :=
  match addrs with
  | [] => mret tt
  | a :: addrs =>
      if decide (a ∈ seen) then addAdditional seen addrs appState txHash
      else addPendingBalanceUpdate a appState TxReason (Some txHash) None;;
           addAdditional ({[a]} ∪ seen) addrs appState txHash
  end.

(** Go: core/stats/collector.go BeginTxBalanceUpdate *)
Definition BeginTxBalanceUpdate (tx : Tx) (appState : AppState)
    (additionalAddresses : list Address) : M Bu unit :=
  let sender := tx_Sender tx in
  let txHash := tx_Hash tx in
  addPendingBalanceUpdate sender appState TxReason (Some txHash) None;;
  match tx_To tx with
  | Some to => if decide (to = sender) then mret tt
               else addPendingBalanceUpdate to appState TxReason (Some txHash) None
  | None => mret tt
  end;;
  addAdditional ({[sender]} ∪ match tx_To tx with Some to => {[to]} | None => ∅ end)
    additionalAddresses appState txHash.

(** Go: core/stats/collector.go BeginProposerRewardBalanceUpdate *)
Definition BeginProposerRewardBalanceUpdate (balanceDest stakeDest : Address)
    (potentialPenaltyPayment : option Z) (appState : AppState) : M Bu unit :=
  addPendingPair balanceDest stakeDest appState ProposerRewardReason potentialPenaltyPayment.

(** Go: core/stats/collector.go BeginCommitteeRewardBalanceUpdate *)
Definition BeginCommitteeRewardBalanceUpdate (balanceDest stakeDest : Address)
    (potentialPenaltyPayment : option Z) (appState : AppState) : M Bu unit :=
  addPendingPair balanceDest stakeDest appState CommitteeRewardReason potentialPenaltyPayment.

(** Go: core/stats/collector.go BeginEpochRewardBalanceUpdate *)
Definition BeginEpochRewardBalanceUpdate (balanceDest stakeDest : Address)
    (appState : AppState) : M Bu unit :=
  addPendingPair balanceDest stakeDest appState EpochRewardReason None.

(** Go: core/stats/collector.go BeginFailedValidationBalanceUpdate *)
Definition BeginFailedValidationBalanceUpdate (addr : Address) (appState : AppState)
    : M Bu unit := addPendingBalanceUpdate addr appState FailedValidationReason None None.

(** Go: core/stats/collector.go BeginPenaltyBalanceUpdate *)
Definition BeginPenaltyBalanceUpdate (addr : Address) (appState : AppState)
    : M Bu unit := addPendingBalanceUpdate addr appState PenaltyReason None None.

(** Go: core/stats/collector.go BeginEpochPenaltyResetBalanceUpdate *)
Definition BeginEpochPenaltyResetBalanceUpdate (addr : Address) (appState : AppState)
    : M Bu unit := addPendingBalanceUpdate addr appState EpochPenaltyResetReason None None.

(** Go: core/stats/collector.go BeginIdentityClearingBalanceUpdate *)
Definition BeginIdentityClearingBalanceUpdate (addr : Address) (appState : AppState)
    : M Bu unit :=
  addPendingBalanceUpdate addr appState IdentityClearingReason None None;;
  let stake := getStakeIfNotKilled addr appState in
  (if (0 <? stake)%Z
   then modify_st (λ st, st <| bu_coins ::= AddKilledBurntCoins addr (Some stake) |>)
   else mret tt);;
  modify_st (λ st, st <| bu_coins ::= λ c,
    c <| co_KilledInactiveIdentities ::= insert addr tt |> |>).

(** Go: core/stats/collector.go BeginDustClearingBalanceUpdate *)
Definition BeginDustClearingBalanceUpdate (addr : Address) (appState : AppState)
    : M Bu unit := addPendingBalanceUpdate addr appState DustClearingReason None None.

(** ** Linked updates *)

(** Go: core/stats/collector.go getPendingBalanceUpdate *)
Definition getPendingBalanceUpdate (reason : BalanceUpdateReason) (addr : Address)
    : M Bu (option ptr) :=
  gets (λ st, default ∅ (bu_byReason st !! reason) !! addr).

(** [linkedBalanceUpdatesByNext[next] = prev; linkedBalanceUpdatesByPrev[prev] = next] *)
Definition link (next prev : ptr) : M Bu unit :=
  modify_st (λ st, st <| bu_byNext ::= insert next prev |>
                      <| bu_byPrev ::= insert prev next |>).

(** Go: core/stats/collector.go updateLinkedBalanceUpdates *)
Definition updateLinkedBalanceUpdates (p : ptr) : M Bu unit :=
  u ← load p;
  match u_Reason u with
  | DelegateeEpochRewardReason | EpochRewardReason | DelegatorEpochRewardReason =>
      byNext ← gets bu_byNext;
      byPrev ← gets bu_byPrev;
      match (byNext : gmap ptr ptr) !! p, (byPrev : gmap ptr ptr) !! p with
      | Some prev, _ =>
          v ← load prev;
          store p (u <| u_BalanceOld := u_BalanceNew v |> <| u_StakeOld := u_StakeNew v |>)
      | None, Some next =>
          n ← load next;
          let balanceNew := (u_BalanceNew u - (u_BalanceNew n - u_BalanceOld n))%Z in
          let stakeNew := (u_StakeNew u - (u_StakeNew n - u_StakeOld n))%Z in
          store p (u <| u_BalanceNew := balanceNew |> <| u_StakeNew := stakeNew |>);;
          n ← load next;
          store next (n <| u_BalanceNew := (u_BalanceNew n + (balanceNew - u_BalanceOld n))%Z |>
                        <| u_BalanceOld := balanceNew |>
                        <| u_StakeNew := (u_StakeNew n + (stakeNew - u_StakeOld n))%Z |>
                        <| u_StakeOld := stakeNew |>)
      | None, None => mret tt
      end
  | _ => mret tt
  end.

(** The assignments of [handleMultipleBalanceUpdate] to the update [bu] that is
    already pending. *)
Definition merge_into (bu u : BalanceUpdate) : BalanceUpdate :=
  let bu := bu <| u_BalanceNew := u_BalanceNew u |> <| u_StakeNew := u_StakeNew u |>
               <| u_PenaltyNew := u_PenaltyNew u |>
               <| u_PenaltySecondsNew := u_PenaltySecondsNew u |> in
  let bu := match u_PenaltyPayment u with
            | None => bu
            | Some z => bu <| u_PenaltyPayment ::= λ v, Some (or_zero v + z)%Z |>
            end in
  if decide (u_Reason u = DelegatorEpochRewardReason) then
    bu <| u_BalanceOld := u_BalanceOld u |> <| u_StakeOld := u_StakeOld u |>
       <| u_PenaltyOld := u_PenaltyOld u |>
       <| u_PenaltySecondsOld := u_PenaltySecondsOld u |>
       <| u_PenaltyPayment := u_PenaltyPayment u |>
  else bu.

(** The links of an update that is new for its reason and address. *)
Definition link_new (p : ptr) (u : BalanceUpdate) : M Bu unit :=
  match u_Reason u with
  | EpochRewardReason =>
      delegator ← getPendingBalanceUpdate DelegatorEpochRewardReason (u_Address u);
      match (delegator : option ptr) with
      | Some d => link p d
      | None =>
          delegatee ← getPendingBalanceUpdate DelegateeEpochRewardReason (u_Address u);
          match (delegatee : option ptr) with Some d => link p d | None => mret tt end
      end
  | DelegatorEpochRewardReason | DelegateeEpochRewardReason =>
      epochReward ← getPendingBalanceUpdate EpochRewardReason (u_Address u);
      match (epochReward : option ptr) with Some e => link p e | None => mret tt end
  | _ => mret tt
  end.

(** Go: core/stats/collector.go handleMultipleBalanceUpdate *)
Definition handleMultipleBalanceUpdate (p : ptr) : M Bu bool :=
  u ← load p;
  pending ← getPendingBalanceUpdate (u_Reason u) (u_Address u);
  match (pending : option ptr) with
  | Some q =>
      bu ← load q;
      store q (merge_into bu u);;
      updateLinkedBalanceUpdates q;;
      mret true
  | None =>
      modify_st (λ st, st <| bu_byReason ::= λ m,
        <[u_Reason u := <[u_Address u := p]> (default ∅ (m !! u_Reason u))]> m |>);;
      link_new p u;;
      updateLinkedBalanceUpdates p;;
      mret false
  end.

(** ** Completing an update *)

(** Go: core/stats/collector.go afterBalanceUpdate *)
Definition afterBalanceUpdate (addr : Address) : M Bu unit :=
  modify_st (λ st, st <| bu_addrs ::= λ s, {[addr]} ∪ s |>).

(** [c.stats.BalanceUpdates = append(c.stats.BalanceUpdates, u)] and the set *)
Definition append_update (p : ptr) : M Bu unit :=
  u ← load p;
  modify_st (λ st, st <| bu_recorded ::= λ l, l ++ [p] |>);;
  afterBalanceUpdate (u_Address u).

(** [if !c.handleMultipleBalanceUpdate(u) { append }] *)
Definition merge_or_append (p : ptr) : M Bu unit :=
  handled ← handleMultipleBalanceUpdate p;
  if (handled : bool) then mret tt else append_update p.

Definition complete_one (p : PendingUpdate) (appState : AppState) : BalanceUpdate :=
  let a := p_Address p in
  mkBalanceUpdate a (p_BalanceOld p) (p_StakeOld p) (p_PenaltyOld p)
    (p_PenaltySecondsOld p) (GetBalance appState a) (getStakeIfNotKilled a appState)
    (getPenaltyIfNotKilled a appState) (getPenaltySecondsIfNotKilled a appState)
    (p_PenaltyPayment p) (p_TxHash p) (p_Reason p).

Fixpoint alloc_all (us : list BalanceUpdate) : M Bu (list ptr) :=
  match us with
  | [] => mret []
  | u :: us => p ← alloc u; ps ← alloc_all us; mret (p :: ps)
  end.

(** Go: core/stats/collector.go completeBalanceUpdates *)
Definition completeBalanceUpdates (appState : AppState) : M Bu (list ptr) :=
  pending ← gets bu_pending;
  ps ← alloc_all ((λ p, complete_one p appState) <$> pending);
  modify_st (λ st, st <| bu_pending := [] |>);;
  mret ps.

(** The three updates of an epoch reward whose balance went to a pool: the
    reward to the delegator, its transfer to the delegatee, and the delegatee's
    own update. *)
Definition rewardBalanceUpdate (delegator delegatee : BalanceUpdate) : BalanceUpdate :=
  mkBalanceUpdate (u_Address delegator) (u_BalanceOld delegator) (u_StakeOld delegator)
    (u_PenaltyOld delegator) (u_PenaltySecondsOld delegator)
    (u_BalanceOld delegator + (u_BalanceNew delegatee - u_BalanceOld delegatee))
    (u_StakeNew delegator) (u_PenaltyNew delegator) (u_PenaltySecondsNew delegator)
    None None EpochRewardReason.
Definition delegatorBalanceUpdate (delegator reward : BalanceUpdate) : BalanceUpdate :=
  mkBalanceUpdate (u_Address reward) (u_BalanceNew reward) (u_StakeNew reward)
    (u_PenaltyNew reward) (u_PenaltySecondsNew reward)
    (u_BalanceNew delegator) (u_StakeNew delegator)
    (u_PenaltyNew delegator) (u_PenaltySecondsNew delegator)
    None None DelegatorEpochRewardReason.

(** The condition of the first branch of [CompleteBalanceUpdate]. *)
Definition is_delegated (u0 u1 : BalanceUpdate) : bool :=
  bool_decide (u_Reason u0 = u_Reason u1) && bool_decide (u_Reason u0 = EpochRewardReason)
  && negb (bool_decide (u_Address u0 = u_Address u1)).

(** The updates of [p0] and [p1] as a delegated epoch reward. *)
Definition complete_delegated (p0 p1 : ptr) : M Bu unit :=
  u0 ← load p0;
  let '(pdelegator, pdelegatee) := if isBalanceChanged u0 then (p1, p0) else (p0, p1) in
  delegator ← load pdelegator;
  delegatee ← load pdelegatee;
  let reward := rewardBalanceUpdate delegator delegatee in
  preward ← alloc reward;
  ptransfer ← alloc (delegatorBalanceUpdate delegator reward);
  store pdelegatee (delegatee <| u_Reason := DelegateeEpochRewardReason |>);;
  merge_or_append preward;;
  merge_or_append ptransfer;;
  merge_or_append pdelegatee.

(** The body of the loop over the updates that are not. *)
Definition complete_single (p : ptr) : M Bu unit :=
  u ← load p;
  if negb (isBalanceOrStakeOrPenaltyChanged u) then mret tt else
  (if decide (u_Reason u = DustClearingReason)
   then modify_st (λ st, st <| bu_coins ::=
          addBurntCoins (u_Address u) (Some (u_BalanceOld u)) DustClearingBurntCoins None |>)
   else mret tt);;
  if decide (u_Reason u = EpochRewardReason ∨ u_Reason u = CommitteeRewardReason
             ∨ u_Reason u = VerifiedStakeTransferReason)
  then merge_or_append p else append_update p.

(** Go: core/stats/collector.go CompleteBalanceUpdate *)
Definition CompleteBalanceUpdate (appState : AppState) : M Bu unit :=
  balanceUpdates ← completeBalanceUpdates appState;
  match (balanceUpdates : list ptr) with
  | [p0; p1] =>
      u0 ← load p0;
      u1 ← load p1;
      if is_delegated u0 u1 then complete_delegated p0 p1
      else for_each balanceUpdates complete_single
  | _ => for_each balanceUpdates complete_single
  end.
End operations.

(** ** Specification

    Balance and stake are treated alike: [s = true] reads the stake. *)

Section specification.
Context `{NodeApi}.
Implicit Types (st : Bu) (u : BalanceUpdate) (A : Address).

Definition old (s : bool) u : Z := if s then u_StakeOld u else u_BalanceOld u.
Definition new (s : bool) u : Z := if s then u_StakeNew u else u_BalanceNew u.
Definition delta (s : bool) u : Z := (new s u - old s u)%Z.

(** The change of an address according to the recorded updates. *)
Definition delta_at (s : bool) A st (p : ptr) : Z :=
  match bu_store st !! p with
  | Some u => if decide (u_Address u = A) then delta s u else 0%Z
  | None => 0%Z
  end.
Definition recorded_delta (s : bool) A st : Z := sumZ (delta_at s A st) (bu_recorded st).

Definition by_reason st (r : BalanceUpdateReason) A : option ptr :=
  default ∅ (bu_byReason st !! r) !! A.

(** The reasons whose updates are merged, by the group that is merged
    together; 0: not merged. *)
Definition group (r : BalanceUpdateReason) : nat :=
  match r with
  | CommitteeRewardReason => 1
  | VerifiedStakeTransferReason => 2
  | EpochRewardReason | DelegatorEpochRewardReason | DelegateeEpochRewardReason => 3
  | _ => 0
  end.

Definition role (r : BalanceUpdateReason) : option bool :=
  match r with
  | DelegatorEpochRewardReason => Some true
  | DelegateeEpochRewardReason => Some false
  | _ => None
  end.

(** What a sequence of updates of one address has shown so far: its first old
    values, its last new values, the group of the last update, the reasons
    seen, and whether the address is a delegator or a delegatee. *)
Record Track := mkTrack {
  tr_start : bool → Z;
  tr_end : bool → Z;
  tr_last : nat;
  tr_seen : list BalanceUpdateReason;
  tr_role : option bool
}.

(** The update may follow: it starts where the address is, no update of
    another group came between it and the updates it is merged with, an
    address is not both a delegator and a delegatee, and a transfer to the
    delegatee follows the reward it transfers. *)
Definition follows (t : Track) u : bool :=
  (old false u =? tr_end t false)%Z && (old true u =? tr_end t true)%Z
  && ((group (u_Reason u) =? 0)%nat || (tr_last t =? group (u_Reason u))%nat
      || forallb (λ r, negb (group r =? group (u_Reason u))%nat) (tr_seen t))
  && match role (u_Reason u), tr_role t with
     | Some a, Some b => Bool.eqb a b
     | _, _ => true
     end
  && (negb (bool_decide (u_Reason u = DelegatorEpochRewardReason))
      || bool_decide (EpochRewardReason ∈ tr_seen t)).

Definition advance (g : gmap Address Track) u : option (gmap Address Track) :=
  match g !! u_Address u with
  | None =>
      if decide (u_Reason u = DelegatorEpochRewardReason) then None else
      Some (<[u_Address u := mkTrack (λ s, old s u) (λ s, new s u) (group (u_Reason u))
                               [u_Reason u] (role (u_Reason u))]> g)
  | Some t =>
      if follows t u then
        Some (<[u_Address u := mkTrack (tr_start t) (λ s, new s u) (group (u_Reason u))
                 (u_Reason u :: tr_seen t)
                 (match tr_role t with Some b => Some b | None => role (u_Reason u) end)]> g)
      else None
  end.

(** The linked pair of an address: the update that is first and the one that
    follows it. *)
Definition partner st A : option ptr :=
  match by_reason st DelegatorEpochRewardReason A with
  | Some p => Some p
  | None => by_reason st DelegateeEpochRewardReason A
  end.

Definition linked st (prev next : ptr) : Prop :=
  bu_byNext st !! next = Some prev ∧ bu_byPrev st !! prev = Some next ∧
  bu_byNext st !! prev = None ∧ bu_byPrev st !! next = None ∧
  ∃ u v, bu_store st !! prev = Some u ∧ bu_store st !! next = Some v ∧
         ∀ s, new s u = old s v.

Definition unlinked st (p : ptr) : Prop :=
  bu_byNext st !! p = None ∧ bu_byPrev st !! p = None.

(** How the epoch updates of an address hang together. *)
Definition epoch_shape st A : Prop :=
  match by_reason st EpochRewardReason A, partner st A with
  | Some e, Some q =>
      linked st e q ∨ (linked st q e ∧ by_reason st DelegatorEpochRewardReason A = None)
  | Some e, None => unlinked st e
  | None, Some q => unlinked st q ∧ by_reason st DelegatorEpochRewardReason A = None
  | None, None => True
  end.

(** [z s] is the new value of the last update of group [c] of the address. *)
Definition group_ends st A (c : nat) (z : bool → Z) : Prop :=
  (∀ r p u, group r = c → by_reason st r A = Some p → bu_store st !! p = Some u →
            bu_byPrev st !! p = None → ∀ s, new s u = z s).

Definition role_ok st A (o : option bool) : Prop :=
  (is_Some (by_reason st DelegatorEpochRewardReason A) → o = Some true) ∧
  (is_Some (by_reason st DelegateeEpochRewardReason A) → o = Some false).

Record tracked st A (t : Track) : Prop := {
  tk_sum s : recorded_delta s A st = (tr_end t s - tr_start t s)%Z;
  tk_seen r : group r ≠ 0 → r ∈ tr_seen t ↔ is_Some (by_reason st r A);
  tk_end : tr_last t ≠ 0 → group_ends st A (tr_last t) (tr_end t);
  tk_role : role_ok st A (tr_role t)
}.

Record inv (g : gmap Address Track) st : Prop := {
  inv_nodup : NoDup (bu_recorded st);
  inv_dom p : p ∈ bu_recorded st → is_Some (bu_store st !! p);
  inv_by r A p : by_reason st r A = Some p →
    p ∈ bu_recorded st ∧ group r ≠ 0 ∧
    ∃ u, bu_store st !! p = Some u ∧ u_Reason u = r ∧ u_Address u = A;
  inv_shape A : epoch_shape st A;
  inv_links p q : bu_byNext st !! p = Some q ∨ bu_byPrev st !! p = Some q →
    p ∈ bu_recorded st ∧ q ∈ bu_recorded st ∧
    ∃ u, bu_store st !! p = Some u ∧ group (u_Reason u) = 3;
  inv_addrs A : A ∈ bu_addrs st ↔
    ∃ p u, p ∈ bu_recorded st ∧ bu_store st !! p = Some u ∧ u_Address u = A;
  inv_tracked A t : g !! A = Some t → tracked st A t;
  inv_untracked A : g !! A = None →
    ∀ p u, p ∈ bu_recorded st → bu_store st !! p = Some u → u_Address u ≠ A
}.
End specification.

(** ** The invariant through one update *)

Section steps.
Context `{NodeApi}.
Implicit Types (st : Bu) (u v : BalanceUpdate) (A B : Address).

Lemma recorded_delta_store st q v v' A s :
  NoDup (bu_recorded st) → q ∈ bu_recorded st → bu_store st !! q = Some v →
  u_Address v = A → u_Address v' = A →
  recorded_delta s A (st <| bu_store ::= insert q v' |>)
  = (recorded_delta s A st + (delta s v' - delta s v))%Z.
Proof.
  intros Hnd [i Hi]%list_elem_of_lookup Hv HA HA'. unfold recorded_delta. cbn.
  rewrite (sumZ_point _ (delta_at s A st) _ i q Hi).
  - f_equal. unfold delta_at. cbn. by rewrite lookup_insert_eq, Hv, !decide_True.
  - intros j x Hj Hne. unfold delta_at. cbn. rewrite lookup_insert_ne; [done|].
    intros <-. by apply Hne, (NoDup_lookup _ _ _ _ Hnd Hj Hi).
Qed.

(** Two states agree on the updates of [B]. *)
Definition agree_at st st' B : Prop :=
  (∀ r, by_reason st' r B = by_reason st r B) ∧
  (∀ r p, by_reason st r B = Some p →
     bu_store st' !! p = bu_store st !! p ∧ bu_byNext st' !! p = bu_byNext st !! p ∧
     bu_byPrev st' !! p = bu_byPrev st !! p).

(** The same for the updates of an epoch reward only. *)
Definition agree_epoch st st' B : Prop :=
  (∀ r, group r = 3 → by_reason st' r B = by_reason st r B) ∧
  (∀ r p, group r = 3 → by_reason st r B = Some p →
     bu_store st' !! p = bu_store st !! p ∧ bu_byNext st' !! p = bu_byNext st !! p ∧
     bu_byPrev st' !! p = bu_byPrev st !! p).

Lemma agree_at_epoch st st' B : agree_at st st' B → agree_epoch st st' B.
Proof. intros [H1 H2]. split; eauto. Qed.

Lemma agree_shape st st' B : agree_epoch st st' B → epoch_shape st B → epoch_shape st' B.
Proof.
  intros [Hby Hst]. unfold epoch_shape, partner. rewrite !Hby by done.
  assert (∀ r r' p q, group r = 3 → group r' = 3 → by_reason st r B = Some p →
            by_reason st r' B = Some q → linked st p q → linked st' p q) as Hl.
  { intros r r' p q Hr Hr' Hp Hq (H1 & H2 & H3 & H4 & u & v & Hu & Hv & Hs).
    destruct (Hst _ _ Hr Hp) as (Ep1 & Ep2 & Ep3).
    destruct (Hst _ _ Hr' Hq) as (Eq1 & Eq2 & Eq3).
    unfold linked. rewrite Ep1, Ep2, Ep3, Eq1, Eq2, Eq3. split_and!; try done. eauto. }
  assert (∀ r p, group r = 3 → by_reason st r B = Some p → unlinked st p → unlinked st' p) as Hu.
  { intros r p Hr Hp. destruct (Hst _ _ Hr Hp) as (_ & E2 & E3). unfold unlinked. by rewrite E2, E3. }
  pose proof (Hl EpochRewardReason DelegatorEpochRewardReason) as L1.
  pose proof (Hl DelegatorEpochRewardReason EpochRewardReason) as L2.
  pose proof (Hl EpochRewardReason DelegateeEpochRewardReason) as L3.
  pose proof (Hl DelegateeEpochRewardReason EpochRewardReason) as L4.
  pose proof (Hu EpochRewardReason) as U1. pose proof (Hu DelegatorEpochRewardReason) as U2.
  pose proof (Hu DelegateeEpochRewardReason) as U3. clear Hl Hu Hst Hby.
  destruct (by_reason st EpochRewardReason B) as [e|];
    destruct (by_reason st DelegatorEpochRewardReason B) as [n|];
    [| |naive_solver|]; destruct (by_reason st DelegateeEpochRewardReason B) as [p|];
    naive_solver.
Qed.

Lemma agree_tracked st st' B t :
  agree_at st st' B →
  (∀ r p, by_reason st r B = Some p → is_Some (bu_store st !! p)) →
  (∀ s, recorded_delta s B st' = recorded_delta s B st) →
  tracked st B t → tracked st' B t.
Proof.
  intros [Hby Hst] Hdom Hsum [T1 T2 T3 T4]. split.
  - intros s. by rewrite Hsum.
  - intros r Hr. rewrite Hby. by apply T2.
  - intros Hl r p u Hr Hp Hu Hprev. rewrite Hby in Hp.
    destruct (Hst _ _ Hp) as (E1 & _ & E3). rewrite E1 in Hu. rewrite E3 in Hprev.
    by eapply T3.
  - unfold role_ok. by rewrite !Hby.
Qed.

(** One update of the address [A]: the other addresses keep theirs, and the
    invariant has to be shown of [A] only. *)
Lemma inv_step g st st' A t' fresh_ps :
  inv g st →
  bu_recorded st' = bu_recorded st ++ fresh_ps →
  NoDup (bu_recorded st') →
  (∀ x v, x ∈ bu_recorded st → bu_store st !! x = Some v →
     ∃ v', bu_store st' !! x = Some v' ∧ u_Address v' = u_Address v ∧
           u_Reason v' = u_Reason v ∧
           (u_Address v ≠ A → v' = v ∧ bu_byNext st' !! x = bu_byNext st !! x ∧
                              bu_byPrev st' !! x = bu_byPrev st !! x)) →
  (∀ x, x ∈ fresh_ps → ∃ v, bu_store st' !! x = Some v ∧ u_Address v = A) →
  (∀ r B, B ≠ A → by_reason st' r B = by_reason st r B) →
  (∀ r x, by_reason st' r A = Some x →
     x ∈ bu_recorded st' ∧ group r ≠ 0 ∧
     ∃ u, bu_store st' !! x = Some u ∧ u_Reason u = r ∧ u_Address u = A) →
  (∀ p q, bu_byNext st' !! p = Some q ∨ bu_byPrev st' !! p = Some q →
     p ∈ bu_recorded st' ∧ q ∈ bu_recorded st' ∧
     ∃ u, bu_store st' !! p = Some u ∧ group (u_Reason u) = 3) →
  (∀ B, B ∈ bu_addrs st' ↔ B ∈ bu_addrs st ∨ B = A) →
  (∃ x v, x ∈ bu_recorded st' ∧ bu_store st' !! x = Some v ∧ u_Address v = A) →
  epoch_shape st' A → tracked st' A t' →
  inv (<[A:=t']> g) st'.
Proof.
  intros Hinv S1 Hnd S2 S3 S4 S4A S5 S6 S7 Hshape Htr.
  assert (∀ x, x ∈ bu_recorded st' ↔ x ∈ bu_recorded st ∨ x ∈ fresh_ps) as Hrec
    by (intros; by rewrite S1, elem_of_app).
  assert (∀ B, B ≠ A → agree_at st st' B) as Hagree.
  { intros B HB. split; [intros; by apply S4|]. intros r p Hp.
    destruct (inv_by _ _ Hinv _ _ _ Hp) as (Hin & _ & u & Hu & _ & HuA).
    destruct (S2 _ _ Hin Hu) as (v' & Hv' & _ & _ & Hsame).
    destruct Hsame as (-> & ? & ?); [congruence|]. by rewrite Hu, Hv'. }
  assert (∀ x v', x ∈ bu_recorded st → bu_store st' !! x = Some v' →
            ∃ v, bu_store st !! x = Some v ∧ u_Address v' = u_Address v) as Hback.
  { intros x v' Hin Hv'. destruct (inv_dom _ _ Hinv _ Hin) as [v Hv].
    destruct (S2 _ _ Hin Hv) as (w & Hw & ? & _). exists v. split; [done|]. congruence. }
  split.
  - done.
  - intros x [Hx|Hx]%Hrec.
    + destruct (inv_dom _ _ Hinv _ Hx) as [v Hv].
      destruct (S2 _ _ Hx Hv) as (v' & -> & _). eauto.
    + destruct (S3 _ Hx) as (v & -> & _). eauto.
  - intros r B p Hp. destruct (decide (B = A)) as [->|HB]; [by apply S4A|].
    rewrite S4 in Hp by done.
    destruct (inv_by _ _ Hinv _ _ _ Hp) as (Hin & Hg & u & Hu & Hr & HuA).
    split; [apply Hrec; by left|]. split; [done|].
    destruct (S2 _ _ Hin Hu) as (v' & Hv' & Ha & Hr' & _). exists v'.
    split_and!; [done|congruence|congruence].
  - intros B. destruct (decide (B = A)) as [->|HB]; [done|].
    eapply agree_shape; [by apply agree_at_epoch, Hagree|by apply (inv_shape _ _ Hinv)].
  - done.
  - intros B. rewrite S6, (inv_addrs _ _ Hinv). split.
    + intros [(p & u & Hin & Hu & Ha)| ->].
      * destruct (S2 _ _ Hin Hu) as (v' & Hv' & Ha' & _).
        exists p, v'. split_and!; [apply Hrec; by left|done|congruence].
      * destruct S7 as (x & v & ? & ? & ?). eauto.
    + intros (p & u & [Hin|Hin]%Hrec & Hu & Ha).
      * destruct (Hback _ _ Hin Hu) as (v & Hv & Hav). left.
        exists p, v. split_and!; [done|done|congruence].
      * destruct (S3 _ Hin) as (v & Hv & HvA). right. congruence.
  - intros B t. destruct (decide (B = A)) as [->|HB].
    { rewrite lookup_insert_eq. by intros [= <-]. }
    rewrite lookup_insert_ne by done. intros Ht.
    eapply agree_tracked; [by apply Hagree| | |by apply (inv_tracked _ _ Hinv)].
    { intros r p Hp. destruct (inv_by _ _ Hinv _ _ _ Hp) as (_ & _ & u & -> & _). eauto. }
    intros s. unfold recorded_delta. rewrite S1, sumZ_app.
    rewrite (sumZ_ext (delta_at s B st') (λ _, 0%Z) fresh_ps), sumZ_zero, Z.add_0_r.
    + apply sumZ_ext. intros x Hx. destruct (inv_dom _ _ Hinv _ Hx) as [v Hv].
      destruct (S2 _ _ Hx Hv) as (v' & Hv' & Ha & _ & Hsame). unfold delta_at.
      rewrite Hv, Hv', Ha. destruct (decide _) as [Hd|]; [|done].
      destruct Hsame as [-> _]; [congruence|done].
    + intros x Hx. destruct (S3 _ Hx) as (v & Hv & HvA). unfold delta_at.
      rewrite Hv, decide_False; [done|congruence].
  - intros B. destruct (decide (B = A)) as [->|HB].
    { by rewrite lookup_insert_eq. }
    rewrite lookup_insert_ne by done. intros Hg p u [Hin|Hin]%Hrec Hu.
    + destruct (Hback _ _ Hin Hu) as (v & Hv & ->).
      by eapply (inv_untracked _ _ Hinv).
    + destruct (S3 _ Hin) as (v & Hv & HvA). congruence.
Qed.

(** A step that changes the store only. *)
Lemma inv_store_step g st st' A t' :
  inv g st →
  st' = st <| bu_store := bu_store st' |> →
  (∀ x v, x ∈ bu_recorded st → bu_store st !! x = Some v →
     ∃ v', bu_store st' !! x = Some v' ∧ u_Address v' = u_Address v ∧
           u_Reason v' = u_Reason v ∧ (u_Address v ≠ A → v' = v)) →
  (∃ x v, x ∈ bu_recorded st ∧ bu_store st !! x = Some v ∧ u_Address v = A) →
  epoch_shape st' A → tracked st' A t' →
  inv (<[A:=t']> g) st'.
Proof.
  intros Hinv Est S2 (y & w & Hy & Hw & HwA) Hshape Htr.
  assert (bu_recorded st' = bu_recorded st) as E1 by by rewrite Est.
  assert (bu_byNext st' = bu_byNext st) as E2 by by rewrite Est.
  assert (bu_byPrev st' = bu_byPrev st) as E3 by by rewrite Est.
  assert (bu_addrs st' = bu_addrs st) as E4 by by rewrite Est.
  assert (∀ r B, by_reason st' r B = by_reason st r B) as E5 by (intros; by rewrite Est).
  eapply (inv_step g st st' A t' []); try done.
  - by rewrite E1, app_nil_r.
  - rewrite E1. apply (inv_nodup _ _ Hinv).
  - intros x v Hx Hv. destruct (S2 _ _ Hx Hv) as (v' & ? & ? & ? & Hs). exists v'.
    split_and!; try done. intros Hne. rewrite E2, E3. split_and!; [by apply Hs|done|done].
  - by intros x Hx%elem_of_nil.
  - intros r x. rewrite E5, E1. intros Hx.
    destruct (inv_by _ _ Hinv _ _ _ Hx) as (Hin & Hg & u & Hu & Hr & Ha).
    destruct (S2 _ _ Hin Hu) as (v' & Hv' & Ha' & Hr' & _).
    split_and!; [done|done|]. exists v'. split_and!; [done|congruence|congruence].
  - intros p q. rewrite E1, E2, E3. intros Hpq.
    destruct (inv_links _ _ Hinv _ _ Hpq) as (Hp & Hq & u & Hu & Hg).
    destruct (S2 _ _ Hp Hu) as (v' & Hv' & _ & Hr & _).
    split_and!; [done|done|]. exists v'. by rewrite Hr.
  - intros B. rewrite E4. split; [by left|]. intros [?| ->]; [done|].
    apply (inv_addrs _ _ Hinv). eauto.
  - rewrite E1. destruct (S2 _ _ Hy Hw) as (v' & Hv' & Ha' & _). exists y, v'.
    split_and!; [done|done|congruence].
Qed.

(** The shape of the group an epoch update belongs to. *)
Lemma epoch_cases g st r A q t :
  inv g st → g !! A = Some t → group r = 3 → by_reason st r A = Some q →
  (unlinked st q ∧ r ≠ DelegatorEpochRewardReason ∧
     ∀ r' x, group r' = 3 → by_reason st r' A = Some x → x = q) ∨
  (∃ e re, linked st e q ∧ group re = 3 ∧ by_reason st re A = Some e ∧
     ∀ r' x, group r' = 3 → by_reason st r' A = Some x → x = q ∨ x = e) ∨
  (∃ n rn, linked st q n ∧ r ≠ DelegatorEpochRewardReason ∧
     group rn = 3 ∧ by_reason st rn A = Some n ∧
     ∀ r' x, group r' = 3 → by_reason st r' A = Some x → x = q ∨ x = n).
Proof.
  intros Hinv Ht Hr Hq. pose proof (inv_shape _ _ Hinv A) as Hsh.
  destruct (tk_role _ _ _ (inv_tracked _ _ Hinv A t Ht)) as [HN HP].
  unfold epoch_shape, partner in Hsh.
  destruct (by_reason st EpochRewardReason A) as [e|] eqn:He;
    destruct (by_reason st DelegatorEpochRewardReason A) as [n|] eqn:Hn;
    destruct (by_reason st DelegateeEpochRewardReason A) as [p|] eqn:Hp;
    try (rewrite HN in HP by eauto; by specialize (HP ltac:(eauto))).
  all: assert (∀ r' x, group r' = 3 → by_reason st r' A = Some x →
         by_reason st EpochRewardReason A = Some x ∨
         by_reason st DelegatorEpochRewardReason A = Some x ∨
         by_reason st DelegateeEpochRewardReason A = Some x) as Hmem
       by (intros [] x Hg3 Hx; try done; tauto).
  all: rewrite He, Hn, Hp in Hmem.
  all: assert (r = EpochRewardReason ∨ r = DelegatorEpochRewardReason ∨
               r = DelegateeEpochRewardReason) as [-> | [-> | ->]] by (destruct r; naive_solver).
  all: simplify_eq.
  all: try (destruct Hsh as [Hsh|[Hsh Hno]]; [|try done]).
  all: first [ left; split_and!; naive_solver
             | right; left; eexists _, _; split_and!;
                 [exact Hsh| |eassumption|naive_solver]; done
             | right; right; eexists _, _; split_and!;
                 [exact Hsh|done| |eassumption|naive_solver]; done ].
Qed.

(** *** Merging *)

Lemma merge_into_spec v u :
  u_Address (merge_into v u) = u_Address v ∧ u_Reason (merge_into v u) = u_Reason v ∧
  (∀ s, new s (merge_into v u) = new s u) ∧
  (u_Reason u ≠ DelegatorEpochRewardReason → ∀ s, old s (merge_into v u) = old s v).
Proof.
  unfold merge_into. destruct (u_PenaltyPayment u); destruct (decide _);
    (split_and!; [done|done|by intros []|]); try done; by intros _ [].
Qed.

Lemma follows_old t u s : follows t u = true → old s u = tr_end t s.
Proof.
  unfold follows. rewrite !andb_true_iff, !Z.eqb_eq. destruct s; tauto.
Qed.

(** The track after an update. *)
Definition next_track (t : Track) u : Track :=
  mkTrack (tr_start t) (λ s, new s u) (group (u_Reason u)) (u_Reason u :: tr_seen t)
    (match tr_role t with Some b => Some b | None => role (u_Reason u) end).

Lemma follows_last g st A t u r q :
  inv g st → g !! A = Some t → follows t u = true → group (u_Reason u) ≠ 0 →
  group r = group (u_Reason u) → by_reason st r A = Some q →
  group_ends st A (group (u_Reason u)) (tr_end t).
Proof.
  intros Hinv Ht Hf Hg Hr Hq. pose proof (inv_tracked _ _ Hinv A t Ht) as Htr.
  assert (r ∈ tr_seen t) as Hseen by (apply (tk_seen _ _ _ Htr); [congruence|eauto]).
  unfold follows in Hf. rewrite !andb_true_iff, !orb_true_iff in Hf.
  destruct Hf as [[[_ [[Hz|Hl]|Hno]] _] _].
  - by apply Nat.eqb_eq in Hz.
  - apply Nat.eqb_eq in Hl. rewrite <- Hl. apply (tk_end _ _ _ Htr). congruence.
  - rewrite forallb_forall in Hno. apply list_elem_of_In in Hseen.
    specialize (Hno _ Hseen). by rewrite Hr, Nat.eqb_refl in Hno.
Qed.

Lemma tracked_merge st st' A t u :
  tracked st A t → follows t u = true → is_Some (by_reason st (u_Reason u) A) →
  bu_byReason st' = bu_byReason st →
  (∀ s, recorded_delta s A st' = (recorded_delta s A st + (new s u - tr_end t s))%Z) →
  (group (u_Reason u) ≠ 0 → group_ends st' A (group (u_Reason u)) (λ s, new s u)) →
  tracked st' A (next_track t u).
Proof.
  intros [T1 T2 T3 [R1 R2]] Hf Hby Eby Hsum Hend.
  assert (∀ r, by_reason st' r A = by_reason st r A) as E by (intros; unfold by_reason; by rewrite Eby).
  split.
  - intros s. rewrite Hsum, T1. cbn. lia.
  - intros r Hr. rewrite E. cbn. rewrite elem_of_cons, T2 by done.
    split; [by intros [->|?]|by right].
  - intros Hl. by apply Hend.
  - unfold role_ok. rewrite !E. cbn. split; intros Hs.
    + by rewrite R1.
    + by rewrite R2.
Qed.
End steps.

(** *** Merging into the pending update *)

Section merging.
Context `{NodeApi}.
Implicit Types (st : Bu) (u v : BalanceUpdate) (A : Address).

Lemma wp_load_update p u (Q : BalanceUpdate → Bu → Prop) st :
  bu_store st !! p = Some u → Q u st → wp (load p) Q st.
Proof. unfold wp, load. by intros ->. Qed.

(** What a step may change of the state: the store only, and only at recorded
    updates. *)
Definition store_only st st' : Prop :=
  st' = st <| bu_store := bu_store st' |> ∧
  ∀ x, x ∉ bu_recorded st → bu_store st' !! x = bu_store st !! x.

Lemma store_step g st q v w A t u :
  inv g st → g !! A = Some t → follows t u = true → u_Address u = A →
  group (u_Reason u) ≠ 0 → by_reason st (u_Reason u) A = Some q →
  bu_store st !! q = Some v →
  u_Address w = u_Address v → u_Reason w = u_Reason v →
  (∀ s, delta s w = (delta s v + (new s u - tr_end t s))%Z) →
  let st' := st <| bu_store ::= insert q w |> in
  epoch_shape st' A → group_ends st' A (group (u_Reason u)) (λ s, new s u) →
  inv (<[A:=next_track t u]> g) st' ∧ store_only st st'.
Proof.
  intros Hinv Ht Hf HA Hg Hq Hv Ha Hr Hdelta st' Hshape Hends.
  destruct (inv_by _ _ Hinv _ _ _ Hq) as (Hin & _ & v0 & Hv0 & Hvr & HvA). simplify_eq.
  split.
  - apply (inv_store_step g st); try done.
    + intros x y Hx Hy. cbn. destruct (decide (q = x)) as [->|Hne].
      * rewrite lookup_insert_eq. simplify_eq. exists w. by split_and!.
      * rewrite lookup_insert_ne by done. eauto 6.
    + eauto.
    + apply (tracked_merge st); try done.
      * by apply (inv_tracked _ _ Hinv).
      * intros s. unfold st'.
        rewrite (recorded_delta_store st q v w) 
          by (first [done | apply (inv_nodup _ _ Hinv) | congruence]).
        rewrite Hdelta. lia.
  - split; [done|]. intros x Hx. cbn. apply lookup_insert_ne. by intros ->.
Qed.

Lemma not_epoch_updateLinked p u (Q : unit → Bu → Prop) st :
  bu_store st !! p = Some u → group (u_Reason u) ≠ 3 → Q tt st →
  wp (updateLinkedBalanceUpdates p) Q st.
Proof.
  intros Hu Hg HQ. apply wp_bind, (wp_load_update _ u); [done|].
  by destruct (u_Reason u).
Qed.

(** [updateLinkedBalanceUpdates] on an epoch update, by its links. *)
Lemma epoch_updateLinked p u (Q : unit → Bu → Prop) st :
  bu_store st !! p = Some u → group (u_Reason u) = 3 →
  wp (match bu_byNext st !! p, bu_byPrev st !! p with
      | Some prev, _ =>
          v ← load prev;
          store p (u <| u_BalanceOld := u_BalanceNew v |> <| u_StakeOld := u_StakeNew v |>)
      | None, Some next =>
          n ← load next;
          let balanceNew := (u_BalanceNew u - (u_BalanceNew n - u_BalanceOld n))%Z in
          let stakeNew := (u_StakeNew u - (u_StakeNew n - u_StakeOld n))%Z in
          store p (u <| u_BalanceNew := balanceNew |> <| u_StakeNew := stakeNew |>);;
          n ← load next;
          store next (n <| u_BalanceNew := (u_BalanceNew n + (balanceNew - u_BalanceOld n))%Z |>
                        <| u_BalanceOld := balanceNew |>
                        <| u_StakeNew := (u_StakeNew n + (stakeNew - u_StakeOld n))%Z |>
                        <| u_StakeOld := stakeNew |>)
      | None, None => mret tt
      end) Q st →
  wp (updateLinkedBalanceUpdates p) Q st.
Proof.
  intros Hu Hg HQ. unfold updateLinkedBalanceUpdates. apply wp_bind, (wp_load_update _ u); [done|].
  by destruct (u_Reason u).
Qed.

Lemma bu_insert_insert st p u v :
  (st <| bu_store ::= insert p u |>) <| bu_store ::= insert p v |>
  = st <| bu_store ::= insert p v |>.
Proof. destruct st. cbn. f_equal. apply insert_insert_eq. Qed.

(** Changing only numbers of the updates of an address keeps its links as long
    as linked updates still meet. *)
Lemma shape_store st st' A :
  bu_byReason st' = bu_byReason st → bu_byNext st' = bu_byNext st →
  bu_byPrev st' = bu_byPrev st →
  (∀ r r' p q, by_reason st r A = Some p → by_reason st r' A = Some q →
     linked st p q → linked st' p q) →
  epoch_shape st A → epoch_shape st' A.
Proof.
  intros E1 E2 E3 Hl. unfold epoch_shape, partner.
  assert (∀ r, by_reason st' r A = by_reason st r A) as -> by (intros; unfold by_reason; by rewrite E1).
  assert (∀ r, by_reason st' r A = by_reason st r A) as E by (intros; unfold by_reason; by rewrite E1).
  rewrite !E. unfold unlinked. rewrite E2, E3.
  destruct (by_reason st EpochRewardReason A) as [e|] eqn:He;
    destruct (by_reason st DelegatorEpochRewardReason A) as [n|] eqn:Hn;
    [| |naive_solver|]; destruct (by_reason st DelegateeEpochRewardReason A) as [p|] eqn:Hp;
    naive_solver.
Qed.
End merging.

Section merge_cases.
Context `{NodeApi}.
Implicit Types (st : Bu) (u v : BalanceUpdate) (A : Address).
Context (g : gmap Address Track) (st : Bu) (q : ptr) (u v : BalanceUpdate) (t : Track).
Let A := u_Address u.
Context (Hinv : inv g st) (Ht : g !! A = Some t) (Hf : follows t u = true).
Context (Hg : group (u_Reason u) ≠ 0) (Hq : by_reason st (u_Reason u) A = Some q).
Context (Hv : bu_store st !! q = Some v).
Let w := merge_into v u.
Let st1 : Bu := st <| bu_store ::= insert q w |>.

Lemma merged_at : q ∈ bu_recorded st ∧ u_Reason v = u_Reason u ∧ u_Address v = A.
Proof.
  destruct (inv_by _ _ Hinv _ _ _ Hq) as (Hin & _ & v0 & Hv0 & Hvr & HvA).
  rewrite Hv in Hv0. injection Hv0 as <-. done.
Qed.

Lemma ends_at : group_ends st A (group (u_Reason u)) (tr_end t).
Proof. by eapply follows_last. Qed.

Lemma pending_new p y r :
  group r = group (u_Reason u) → by_reason st r A = Some p → bu_store st !! p = Some y →
  bu_byPrev st !! p = None → ∀ s, new s y = tr_end t s.
Proof. intros. by eapply ends_at. Qed.

(** An update that is not the first of a linked pair takes the new values. *)
Lemma merge_plain st' w' :
  st' = st <| bu_store ::= insert q w' |> →
  u_Address w' = u_Address v → u_Reason w' = u_Reason v →
  (∀ s, new s w' = new s u) → (∀ s, old s w' = old s v) →
  bu_byPrev st !! q = None →
  (∀ r' x, group r' = group (u_Reason u) → by_reason st r' A = Some x →
     x = q ∨ is_Some (bu_byPrev st !! x)) →
  inv (<[A:=next_track t u]> g) st' ∧ store_only st st'.
Proof.
  intros -> Ha Hr Hn Ho Hprev Hmem. destruct merged_at as (Hin & Hvr & HvA).
  eapply store_step; try done.
  - intros s. unfold delta. rewrite Hn, Ho.
    rewrite (pending_new q v (u_Reason u)) by done. lia.
  - apply (shape_store st); try done; [|apply (inv_shape _ _ Hinv)].
    intros r r' x y Hx Hy (L1 & L2 & L3 & L4 & ux & vy & Hux & Hvy & Hs).
    split_and!; try done. cbn.
    assert (x ≠ q) as Hxq by congruence. rewrite lookup_insert_ne by done.
    destruct (decide (q = y)) as [<-|Hne].
    + exists ux, w'. rewrite lookup_insert_eq. split_and!; [done|done|].
      intros s. rewrite Ho, Hs. congruence.
    + exists ux, vy. rewrite lookup_insert_ne by done. done.
  - intros r' x y Hgr Hx Hy Hp s. change (by_reason st r' A = Some x) in Hx.
    change (bu_byPrev st !! x = None) in Hp.
    destruct (Hmem r' x Hgr Hx) as [->|[z Hz]]; [|congruence].
    cbn in Hy. rewrite lookup_insert_eq in Hy. simplify_eq. by rewrite Hn.
Qed.

Lemma w_spec : u_Address w = u_Address v ∧ u_Reason w = u_Reason v ∧ (∀ s, new s w = new s u) ∧
  (u_Reason u ≠ DelegatorEpochRewardReason → ∀ s, old s w = old s v).
Proof. apply merge_into_spec. Qed.

Lemma st1_lookup : bu_store st1 !! q = Some w.
Proof. cbn. apply lookup_insert_eq. Qed.

Lemma wp_merge_committee :
  group (u_Reason u) ≠ 3 →
  wp (updateLinkedBalanceUpdates q) (λ _ st', inv (<[A:=next_track t u]> g) st' ∧
    store_only st st') st1.
Proof.
  intros H3. destruct w_spec as (Ha & Hr & Hn & Ho). destruct merged_at as (Hin & Hvr & HvA).
  apply (not_epoch_updateLinked q w); [apply st1_lookup|congruence|].
  assert (bu_byPrev st !! q = None) as Hp.
  { destruct (bu_byPrev st !! q) as [n|] eqn:Hp; [|done].
    destruct (inv_links _ _ Hinv q n) as (_ & _ & x & Hx & Hg3); [by right|].
    rewrite Hv in Hx. injection Hx as <-. congruence. }
  apply (merge_plain st1 w); try done.
  - apply Ho. destruct (u_Reason u); done.
  - intros r' x Hgr Hx. left.
    assert (r' = u_Reason u) as -> by (destruct r', (u_Reason u); done). congruence.
Qed.

Lemma wp_merge_alone :
  group (u_Reason u) = 3 → unlinked st q → u_Reason u ≠ DelegatorEpochRewardReason →
  (∀ r' x, group r' = 3 → by_reason st r' A = Some x → x = q) →
  wp (updateLinkedBalanceUpdates q) (λ _ st', inv (<[A:=next_track t u]> g) st' ∧
    store_only st st') st1.
Proof.
  intros H3 [Hu1 Hu2] HN Hmem. destruct w_spec as (Ha & Hr & Hn & Ho).
  destruct merged_at as (Hin & Hvr & HvA).
  apply (epoch_updateLinked q w); [apply st1_lookup|congruence|].
  change (bu_byNext st1) with (bu_byNext st). change (bu_byPrev st1) with (bu_byPrev st).
  rewrite Hu1, Hu2. apply wp_ret. apply (merge_plain st1 w); try done; [by apply Ho|].
  intros r' x Hgr Hx. left. apply (Hmem r'); [congruence|done].
Qed.

Lemma wp_merge_next e re :
  group (u_Reason u) = 3 → linked st e q → group re = 3 → by_reason st re A = Some e →
  (∀ r' x, group r' = 3 → by_reason st r' A = Some x → x = q ∨ x = e) →
  wp (updateLinkedBalanceUpdates q) (λ _ st', inv (<[A:=next_track t u]> g) st' ∧
    store_only st st') st1.
Proof.
  intros H3 (L1 & L2 & L3 & L4 & x & y & Hx & Hy & Hxy) Hre He Hmem.
  destruct w_spec as (Ha & Hr & Hn & Ho). destruct merged_at as (Hin & Hvr & HvA).
  assert (q ≠ e) as Hne by congruence. rewrite Hv in Hy. injection Hy as <-.
  apply (epoch_updateLinked q w); [apply st1_lookup|congruence|].
  change (bu_byNext st1) with (bu_byNext st). rewrite L1.
  apply wp_bind, (wp_load_update _ x); [cbn; by rewrite lookup_insert_ne|]. apply wp_modify.
  unfold st1. rewrite bu_insert_insert.
  apply (merge_plain _ (w <| u_BalanceOld := u_BalanceNew x |> <| u_StakeOld := u_StakeNew x |>));
    try done.
  intros r' z Hgr Hz. destruct (Hmem r' z) as [->| ->]; [congruence|done|by left|].
  right. eauto.
Qed.

(** The first of a linked pair: the second takes the new values and the two
    still meet. *)
Lemma wp_merge_prev n rn :
  group (u_Reason u) = 3 → linked st q n → u_Reason u ≠ DelegatorEpochRewardReason →
  group rn = 3 → by_reason st rn A = Some n →
  (∀ r' x, group r' = 3 → by_reason st r' A = Some x → x = q ∨ x = n) →
  wp (updateLinkedBalanceUpdates q) (λ _ st', inv (<[A:=next_track t u]> g) st' ∧
    store_only st st') st1.
Proof.
  intros H3 (L1 & L2 & L3 & L4 & x & y & Hx & Hy & Hxy) HN Hrn Hn' Hmem.
  destruct w_spec as (Ha & Hr & Hn & Ho). specialize (Ho HN).
  destruct merged_at as (Hin & Hvr & HvA).
  assert (q ≠ n) as Hne by congruence. rewrite Hv in Hx. injection Hx as <-.
  destruct (inv_by _ _ Hinv _ _ _ Hn') as (Hnin & _ & y' & Hy' & Hyr & HyA).
  rewrite Hy in Hy'. injection Hy' as <-.
  apply (epoch_updateLinked q w); [apply st1_lookup|congruence|].
  change (bu_byNext st1) with (bu_byNext st). change (bu_byPrev st1) with (bu_byPrev st).
  rewrite L3, L2.
  apply wp_bind, (wp_load_update _ y); [cbn; by rewrite lookup_insert_ne|]. apply wp_bind, wp_modify.
  unfold st1. rewrite bu_insert_insert.
  apply wp_bind, (wp_load_update _ y); [cbn; by rewrite lookup_insert_ne|]. apply wp_modify.
  match goal with |- inv _ (?a <| bu_store ::= insert n ?b |>) ∧ _ =>
    match a with st <| bu_store ::= insert q ?c |> => set (w' := c); set (y' := b) end end.
  assert (∀ s, new s w' = (new s u - (new s y - old s y))%Z) as Hw'.
  { intros s. specialize (Hn s). unfold w'. destruct s; cbn in *; lia. }
  assert (∀ s, old s w' = old s v) as Hw'o by (intros s; rewrite <- Ho; by destruct s).
  assert (∀ s, old s y' = new s w') as Hy'o by (by intros []).
  assert (∀ s, new s y' = new s u) as Hy'n.
  { intros s. specialize (Hw' s). specialize (Hn s). unfold y', w' in *.
    destruct s; cbn in *; lia. }
  assert (∀ s, new s y = tr_end t s) as Hend by (apply (pending_new n y rn); congruence).
  assert (u_Address w' = A) as HAw by (transitivity (u_Address w); [done|congruence]).
  assert (u_Address y' = A) as HAy by (transitivity (u_Address y); [done|congruence]).
  set (st2 := st <| bu_store ::= insert q w' |>).
  assert (∀ s, recorded_delta s A (st2 <| bu_store ::= insert n y' |>)
               = (recorded_delta s A st + (new s u - tr_end t s))%Z) as Hsum.
  { intros s. rewrite (recorded_delta_store st2 n y y').
    - unfold st2. rewrite (recorded_delta_store st q v w')
        by (first [done | apply (inv_nodup _ _ Hinv)]).
      unfold delta. rewrite Hw'o, Hy'o, Hy'n, Hw', <- Hend, Hxy. lia.
    - apply (inv_nodup _ _ Hinv).
    - done.
    - cbn. by rewrite lookup_insert_ne.
    - done.
    - done. }
  assert (∀ z, z ≠ q → z ≠ n →
    bu_store (st2 <| bu_store ::= insert n y' |>) !! z = bu_store st !! z) as Hother
    by (intros z H1 H2; cbn; by rewrite !lookup_insert_ne).
  assert (bu_store (st2 <| bu_store ::= insert n y' |>) !! q = Some w') as Hlq
    by (cbn; by rewrite lookup_insert_ne, lookup_insert_eq).
  assert (bu_store (st2 <| bu_store ::= insert n y' |>) !! n = Some y') as Hln
    by (cbn; by rewrite lookup_insert_eq).
  set (st3 := st2 <| bu_store ::= insert n y' |>) in *.
  split; [|split; [done|]; intros z Hz; apply Hother; by intros ->].
  apply (inv_store_step g st); try done.
  - intros z b Hz Hb. destruct (decide (z = q)) as [->|Hzq].
    { exists w'. rewrite Hv in Hb. injection Hb as <-. by split_and!. }
    destruct (decide (z = n)) as [->|Hzn].
    { exists y'. rewrite Hy in Hb. injection Hb as <-. by split_and!. }
    rewrite Hother by done. eauto 6.
  - eauto.
  - apply (shape_store st); try done; [|apply (inv_shape _ _ Hinv)].
    intros r r' a b Hra Hrb (K1 & K2 & K3 & K4 & K5). split_and!; try done.
    assert (group r = 3 ∧ group r' = 3) as [Hgr Hgr'].
    { split.
      - destruct (inv_links _ _ Hinv a b) as (_ & _ & z & Hz & Hz3); [by right|].
        destruct (inv_by _ _ Hinv _ _ _ Hra) as (_ & _ & z' & Hz' & <- & _). congruence.
      - destruct (inv_links _ _ Hinv b a) as (_ & _ & z & Hz & Hz3); [by left|].
        destruct (inv_by _ _ Hinv _ _ _ Hrb) as (_ & _ & z' & Hz' & <- & _). congruence. }
    assert (a = q) as -> by (destruct (Hmem r a Hgr Hra); [done|congruence]).
    assert (b = n) as -> by congruence. exists w', y'. done.
  - apply (tracked_merge st); try done.
    + by apply (inv_tracked _ _ Hinv).
    + intros _ r' z b Hgr Hz Hb Hp s. change (by_reason st r' A = Some z) in Hz.
      change (bu_byPrev st !! z = None) in Hp.
      destruct (Hmem r' z) as [->| ->]; [congruence|done|congruence|].
      rewrite Hln in Hb. injection Hb as <-. done.
Qed.

Lemma wp_merge :
  wp (store q (merge_into v u);; updateLinkedBalanceUpdates q;; mret true)
     (λ b st', b = true ∧ inv (<[A:=next_track t u]> g) st' ∧ store_only st st') st.
Proof.
  apply wp_bind, wp_modify. apply wp_bind.
  assert (wp (updateLinkedBalanceUpdates q) (λ _ st', inv (<[A:=next_track t u]> g) st' ∧
    store_only st st') st1) as Hwp; [|].
  - destruct (decide (group (u_Reason u) = 3)) as [H3|H3]; [|by apply wp_merge_committee].
    destruct (epoch_cases g st _ A q t Hinv Ht H3 Hq)
      as [(? & ? & ?)|[(e & re & ? & ? & ? & ?)|(n & rn & ? & ? & ? & ? & ?)]].
    + by apply wp_merge_alone.
    + by apply (wp_merge_next e re).
    + by apply (wp_merge_prev n rn).
  - eapply wp_mono; [exact Hwp|]. intros [] st' Hst'. apply wp_ret. done.
Qed.
End merge_cases.

(** *** Appending a new update *)

Section append_cases.
Context `{NodeApi}.
Context (g : gmap Address Track) (st : Bu) (p : ptr) (u : BalanceUpdate).
Let A := u_Address u.
Let r := u_Reason u.
Context (Hinv : inv g st) (Hp : p ∉ bu_recorded st) (Hu : bu_store st !! p = Some u).

Definition new_track : Track :=
  match g !! u_Address u with
  | None => mkTrack (λ s, old s u) (λ s, new s u) (group (u_Reason u)) [u_Reason u]
                    (role (u_Reason u))
  | Some t => next_track t u
  end.

(** The state after the update [u'] has been appended, registered for its
    reason if [reg], and linked to [lk]. *)
Definition appended (u' : BalanceUpdate) (reg : bool) (lk : option ptr) : Bu :=
  mkBu _ (<[p:=u']> (bu_store st)) (bu_recorded st ++ [p])
    ({[u_Address u]} ∪ bu_addrs st) (bu_pending st)
    (if reg then <[u_Reason u := <[u_Address u := p]>
                     (default ∅ (bu_byReason st !! u_Reason u))]> (bu_byReason st)
     else bu_byReason st)
    (match lk with Some q => <[p:=q]> (bu_byNext st) | None => bu_byNext st end)
    (match lk with Some q => <[q:=p]> (bu_byPrev st) | None => bu_byPrev st end)
    (bu_coins st).

Lemma by_appended u' reg lk r' B :
  by_reason (appended u' reg lk) r' B =
    if decide (reg = true ∧ r = r' ∧ A = B) then Some p else by_reason st r' B.
Proof.
  unfold by_reason, appended. cbn. fold A r. destruct reg.
  - destruct (decide (r = r')) as [<-|Hr].
    + rewrite lookup_insert_eq. cbn. destruct (decide (A = B)) as [<-|HA].
      * by rewrite lookup_insert_eq, decide_True.
      * by rewrite lookup_insert_ne, decide_False by tauto.
    + by rewrite lookup_insert_ne, decide_False by tauto.
  - by rewrite decide_False by (by intros []).
Qed.

Lemma by_appended_same u' lk r' : r = r' → by_reason (appended u' true lk) r' A = Some p.
Proof. intros Hr. by rewrite by_appended, decide_True. Qed.

Lemma by_appended_other u' reg lk r' :
  r ≠ r' → by_reason (appended u' reg lk) r' A = by_reason st r' A.
Proof. intros Hr. rewrite by_appended, decide_False; [done|]. by intros (_ & ? & _). Qed.

Lemma unowned_unlinked : unlinked st p.
Proof.
  split.
  - destruct (bu_byNext st !! p) as [q|] eqn:E; [|done].
    destruct (inv_links _ _ Hinv p q) as (? & _); [by left|done].
  - destruct (bu_byPrev st !! p) as [q|] eqn:E; [|done].
    destruct (inv_links _ _ Hinv p q) as (? & _); [by right|done].
Qed.

Lemma recorded_delta_appended u' reg lk s :
  u_Address u' = A → delta s u' = delta s u →
  recorded_delta s A (appended u' reg lk) = (recorded_delta s A st + delta s u)%Z.
Proof.
  intros HA Hd. unfold recorded_delta. cbn. rewrite sumZ_snoc. f_equal.
  - apply sumZ_ext. intros x Hx. unfold delta_at. cbn.
    rewrite lookup_insert_ne; [done|]. by intros ->.
  - unfold delta_at. cbn. by rewrite lookup_insert_eq, decide_True.
Qed.

Lemma untracked_by r' : g !! A = None → by_reason st r' A = None.
Proof.
  intros Hg. destruct (by_reason st r' A) as [x|] eqn:E; [|done].
  destruct (inv_by _ _ Hinv _ _ _ E) as (Hin & _ & y & Hy & _ & HyA).
  by destruct (inv_untracked _ _ Hinv A Hg x y).
Qed.

Lemma untracked_delta s : g !! A = None → recorded_delta s A st = 0%Z.
Proof.
  intros Hg. unfold recorded_delta. rewrite (sumZ_ext _ (λ _, 0%Z)); [apply sumZ_zero|].
  intros x Hx. unfold delta_at. destruct (bu_store st !! x) as [y|] eqn:E; [|done].
  rewrite decide_False; [done|]. by apply (inv_untracked _ _ Hinv A Hg x).
Qed.

Lemma appended_tracked u' reg lk :
  u_Address u' = A → (∀ s, new s u' = new s u) → (∀ s, old s u' = old s u) →
  reg = negb (group r =? 0) →
  match g !! A with Some t => follows t u = true | None => True end →
  (group r ≠ 0 → ∀ r' x, group r' = group r → by_reason st r' A = Some x →
     r' = r ∨ lk = Some x) →
  tracked (appended u' reg lk) A new_track.
Proof.
  intros HA Hn Ho Hreg Hf Hmem.
  assert (∀ s, recorded_delta s A (appended u' reg lk)
               = (recorded_delta s A st + (new s u - old s u))%Z) as Hsum.
  { intros s. rewrite recorded_delta_appended; [done|done|]. unfold delta. by rewrite Hn, Ho. }
  assert (group r ≠ 0 → group_ends (appended u' reg lk) A (group r) (λ s, new s u)) as Hends.
  { intros Hg0 r' x y Hgr Hx Hy Hprev s. rewrite by_appended in Hx.
    destruct (decide _) as [(_ & <- & _)|Hd].
    - simplify_eq. cbn in Hy. rewrite lookup_insert_eq in Hy. simplify_eq. apply Hn.
    - destruct (Hmem Hg0 r' x Hgr Hx) as [->|Hlk].
      + exfalso. apply Hd. split_and!; [|done|done].
        rewrite Hreg. apply Nat.eqb_neq in Hg0. by rewrite Hg0.
      + cbn in Hprev. rewrite Hlk, lookup_insert_eq in Hprev. done. }
  assert (∀ r', group r' ≠ 0 → is_Some (by_reason (appended u' reg lk) r' A)
            ↔ r' = r ∨ is_Some (by_reason st r' A)) as Hby.
  { intros r' Hr'. rewrite by_appended. destruct (decide _) as [(_ & <- & _)|Hd].
    - split; [by left|eauto].
    - split; [by right|]. intros [->|?]; [|done]. exfalso. apply Hd.
      split_and!; [|done|done]. rewrite Hreg. apply Nat.eqb_neq in Hr'. by rewrite Hr'. }
  unfold new_track. fold A r. destruct (g !! A) as [t|] eqn:Hg.
  - destruct (inv_tracked _ _ Hinv A t Hg) as [T1 T2 T3 [R1 R2]]. split.
    + intros s. rewrite Hsum, T1, (follows_old _ _ _ Hf). cbn. lia.
    + intros r' Hr'. rewrite Hby by done. cbn. rewrite elem_of_cons, T2 by done. done.
    + intros Hl. by apply Hends.
    + unfold role_ok. rewrite !by_appended. cbn. fold r.
      unfold follows in Hf. rewrite !andb_true_iff in Hf. destruct Hf as [[_ Hrole] _].
      fold r in Hrole.
      split; intros Hs; (destruct (decide _) as [(_ & E & _)|_];
        [rewrite E in *; cbn in *; destruct (tr_role t) as [[]|]; done|]).
      * by rewrite R1.
      * by rewrite R2.
  - split.
    + intros s. rewrite Hsum, untracked_delta by done. cbn. lia.
    + intros r' Hr'. rewrite Hby, untracked_by by done. cbn.
      rewrite list_elem_of_singleton. split; [by left|]. intros [?|[? ?]]; done.
    + intros Hl. by apply Hends.
    + unfold role_ok. rewrite !by_appended, !untracked_by by done. cbn. fold r.
      split; intros Hs; (destruct (decide _) as [(_ & E & _)|_]; [by rewrite E|by destruct Hs]).
Qed.

Definition delivered (st' : Bu) : Prop :=
  inv (<[A:=new_track]> g) st' ∧ bu_pending st' = bu_pending st ∧
  bu_recorded st' = bu_recorded st ++ [p] ∧
  ∀ x, x ∉ bu_recorded st → x ≠ p → bu_store st' !! x = bu_store st !! x.

Lemma appended_inv u' reg lk :
  u_Address u' = A → u_Reason u' = r →
  (∀ s, new s u' = new s u) → (∀ s, old s u' = old s u) →
  reg = negb (group r =? 0) →
  match g !! A with Some t => follows t u = true | None => True end →
  (group r ≠ 0 → ∀ r' x, group r' = group r → by_reason st r' A = Some x →
     r' = r ∨ lk = Some x) →
  (∀ q, lk = Some q → group r = 3 ∧ ∃ rq, group rq = 3 ∧ by_reason st rq A = Some q) →
  epoch_shape (appended u' reg lk) A →
  delivered (appended u' reg lk).
Proof.
  intros HA Hr' Hn Ho Hreg Hf Hmem Hlk Hshape.
  assert (∀ q, lk = Some q → q ∈ bu_recorded st ∧ ∃ y, bu_store st !! q = Some y ∧
            u_Address y = A ∧ group (u_Reason y) = 3) as Hq.
  { intros q E. destruct (Hlk q E) as (_ & rq & Hrq & Hby).
    destruct (inv_by _ _ Hinv _ _ _ Hby) as (? & _ & y & ? & <- & ?). eauto 6. }
  split; [|split_and!; [done|done|intros x _ Hx; cbn; by apply lookup_insert_ne]].
  assert (∀ x, x ∈ bu_recorded st → bu_store (appended u' reg lk) !! x = bu_store st !! x) as Hst.
  { intros x Hx. cbn. apply lookup_insert_ne. by intros ->. }
  assert (bu_store (appended u' reg lk) !! p = Some u') as Hstp by (cbn; apply lookup_insert_eq).
  apply (inv_step g st _ A new_track [p]); try done.
  - cbn. apply list.NoDup_app. split_and!; [apply (inv_nodup _ _ Hinv)| |apply NoDup_singleton].
    intros x Hx ->%list_elem_of_singleton. done.
  - intros x v Hx Hv. exists v. rewrite Hst by done. split_and!; try done.
    intros HvA. assert (p ≠ x) by (by intros ->). split_and!; [done|..]; cbn.
    + destruct lk; [by rewrite lookup_insert_ne|done].
    + destruct lk as [q|]; [|done]. destruct (Hq q eq_refl) as (_ & y & Hy & HyA & _).
      rewrite lookup_insert_ne; [done|]. intros <-. congruence.
  - intros x ->%list_elem_of_singleton. eauto.
  - intros r' B HB. rewrite by_appended, decide_False; [done|]. by intros (_ & _ & <-).
  - intros r' x. rewrite by_appended. destruct (decide _) as [(Er & <- & _)|_].
    + intros [= <-]. split_and!; [cbn; apply elem_of_app; right; left| |eauto].
      rewrite Hreg in Er. by apply negb_true_iff, Nat.eqb_neq in Er.
    + intros Hx. destruct (inv_by _ _ Hinv _ _ _ Hx) as (Hin & Hg & y & Hy & Hyr & HyA).
      split_and!; [cbn; apply elem_of_app; by left|done|]. exists y. by rewrite Hst.
  - assert (∀ x q, bu_byNext st !! x = Some q ∨ bu_byPrev st !! x = Some q →
      x ∈ bu_recorded st ++ [p] ∧ q ∈ bu_recorded st ++ [p] ∧
      ∃ y, bu_store (appended u' reg lk) !! x = Some y ∧ group (u_Reason y) = 3) as Hold.
    { intros x q Hxq. destruct (inv_links _ _ Hinv _ _ Hxq) as (Hx & Hq' & y & Hy & Hy3).
      rewrite Hst by done. split_and!; [apply elem_of_app; by left..|eauto]. }
    intros x q Hxq. destruct lk as [l|]; [|by apply Hold].
    destruct (Hq l eq_refl) as (Hl & y & Hy & HyA & Hy3). destruct (Hlk l eq_refl) as [Hr3 _].
    cbn in Hxq. destruct Hxq as [Hxq|Hxq]; apply lookup_insert_Some in Hxq
      as [[<- <-]|[_ Hxq]]; [|by apply Hold; left| |by apply Hold; right].
    + split_and!; [cbn; apply elem_of_app; right; left|cbn; apply elem_of_app; by left|].
      exists u'. by rewrite Hr'.
    + split_and!; [cbn; apply elem_of_app; by left|cbn; apply elem_of_app; right; left|].
      exists y. by rewrite Hst.
  - intros B. cbn. rewrite elem_of_union, elem_of_singleton. tauto.
  - exists p, u'. split_and!; [cbn; apply elem_of_app; right; left|done|done].
  - by apply appended_tracked.
Qed.

(** The state after registering [p], and linking it to [lk]. *)
Definition registered (lk : option ptr) : Bu :=
  mkBu _ (bu_store st) (bu_recorded st) (bu_addrs st) (bu_pending st)
    (<[u_Reason u := <[u_Address u := p]> (default ∅ (bu_byReason st !! u_Reason u))]>
       (bu_byReason st))
    (match lk with Some q => <[p:=q]> (bu_byNext st) | None => bu_byNext st end)
    (match lk with Some q => <[q:=p]> (bu_byPrev st) | None => bu_byPrev st end)
    (bu_coins st).

Lemma wp_append_update u' lk (Q : unit → Bu → Prop) :
  u_Address u' = A → Q tt (appended u' true lk) →
  wp (append_update p) Q ((registered lk) <| bu_store ::= insert p u' |>).
Proof.
  intros HA HQ. apply wp_bind, (wp_load_update _ u'); [cbn; by rewrite lookup_insert_eq|].
  apply wp_bind, wp_modify, wp_modify. cbn. by rewrite HA.
Qed.

Lemma registered_id lk : registered lk = (registered lk) <| bu_store ::= insert p u |>.
Proof. unfold registered. cbn. by rewrite (insert_id (bu_store st)). Qed.

(** The new update is not linked. *)
Lemma wp_deliver_unlinked (Q : unit → Bu → Prop) :
  Q tt (appended u true None) →
  wp (updateLinkedBalanceUpdates p;; append_update p) Q (registered None).
Proof.
  intros HQ. destruct unowned_unlinked as [L1 L2].
  assert (wp (append_update p) Q (registered None)) as Hwp
    by (rewrite registered_id; by apply wp_append_update).
  apply wp_bind. destruct (decide (group r = 3)) as [H3|H3].
  - apply (epoch_updateLinked p u); [done|done|]. cbn. rewrite L1, L2. by apply wp_ret.
  - by apply (not_epoch_updateLinked p u).
Qed.

(** The new update follows [q]. *)
Lemma wp_deliver_linked q y (Q : unit → Bu → Prop) :
  group r = 3 → q ≠ p → bu_store st !! q = Some y → (∀ s, new s y = old s u) →
  (∀ u', u_Address u' = A → u_Reason u' = r → (∀ s, new s u' = new s u) →
     (∀ s, old s u' = old s u) → Q tt (appended u' true (Some q))) →
  wp (updateLinkedBalanceUpdates p;; append_update p) Q (registered (Some q)).
Proof.
  intros H3 Hqp Hy Hyu HQ. apply wp_bind.
  apply (epoch_updateLinked p u); [done|done|]. cbn. rewrite lookup_insert_eq.
  apply wp_bind, (wp_load_update _ y); [done|]. apply wp_modify.
  apply wp_append_update; [done|]. apply HQ; try done; intros s; rewrite <- ?Hyu; by destruct s.
Qed.

Lemma handle_new (Q : unit → Bu → Prop) :
  by_reason st r A = None →
  wp (link_new p u;; updateLinkedBalanceUpdates p;; append_update p) Q (registered None) →
  wp (merge_or_append p) Q st.
Proof.
  intros Hby Hwp. unfold merge_or_append, handleMultipleBalanceUpdate.
  apply wp_bind, wp_bind, (wp_load_update _ u); [done|]. apply wp_bind, wp_gets.
  change (default ∅ (bu_byReason st !! u_Reason u) !! u_Address u) with (by_reason st r A).
  rewrite Hby. apply wp_bind, wp_modify. apply wp_bind.
  apply wp_bind_inv in Hwp.
  change (st <| bu_byReason ::= _ |>) with (registered None).
  eapply wp_mono; [exact Hwp|]. intros [] st1 H1. apply wp_bind.
  apply wp_bind_inv in H1. eapply wp_mono; [exact H1|]. intros [] st2 H2.
  by apply wp_ret.
Qed.

Lemma by_registered r' B lk :
  group r ≠ 0 → r' ≠ r → by_reason (registered lk) r' B = by_reason st r' B.
Proof.
  intros _ Hr. unfold by_reason, registered. cbn. by rewrite lookup_insert_ne.
Qed.

Lemma wp_link_new (Q : unit → Bu → Prop) :
  group r ≠ 0 →
  (let lk := match r with
    | EpochRewardReason => partner st A
    | DelegatorEpochRewardReason | DelegateeEpochRewardReason =>
        by_reason st EpochRewardReason A
    | _ => None
    end in wp (updateLinkedBalanceUpdates p;; append_update p) Q (registered lk)) →
  wp (link_new p u;; updateLinkedBalanceUpdates p;; append_update p) Q (registered None).
Proof.
  intros Hg Hwp. apply wp_bind. unfold link_new. fold r.
  assert (∀ r' q, r' ≠ r → by_reason st r' A = q →
    default ∅ (bu_byReason (registered None) !! r') !! u_Address u = q) as Hby.
  { intros r' q Hr' <-. by apply (by_registered r' A None). }
  unfold partner in Hwp. destruct r eqn:Er; try (by apply wp_ret).
  - apply wp_bind, wp_gets. rewrite (Hby DelegatorEpochRewardReason _) by done.
    destruct (by_reason st DelegatorEpochRewardReason A) as [n|]; [by apply wp_modify|].
    apply wp_bind, wp_gets. rewrite (Hby DelegateeEpochRewardReason _) by done.
    destruct (by_reason st DelegateeEpochRewardReason A) as [n|]; [by apply wp_modify|].
    by apply wp_ret.
  - apply wp_bind, wp_gets. rewrite (Hby EpochRewardReason _) by done.
    destruct (by_reason st EpochRewardReason A) as [n|]; [by apply wp_modify|by apply wp_ret].
  - apply wp_bind, wp_gets. rewrite (Hby EpochRewardReason _) by done.
    destruct (by_reason st EpochRewardReason A) as [n|]; [by apply wp_modify|by apply wp_ret].
Qed.

Context (Hf : match g !! A with
              | Some t => follows t u = true
              | None => r ≠ DelegatorEpochRewardReason
              end).

Lemma follows_weak : match g !! A with Some t => follows t u = true | None => True end.
Proof. by destruct (g !! A). Qed.

(** The update the new one is linked to ends where the new one starts. *)
Lemma pending_meets rq q :
  group r ≠ 0 → group rq = group r → by_reason st rq A = Some q → bu_byPrev st !! q = None →
  q ≠ p ∧ ∃ y, bu_store st !! q = Some y ∧ ∀ s, new s y = old s u.
Proof.
  intros Hg Hrq Hq Hprev. destruct (inv_by _ _ Hinv _ _ _ Hq) as (Hin & _ & y & Hy & _ & HyA).
  split; [by intros ->|]. exists y. split; [done|]. intros s.
  destruct (g !! A) as [t|] eqn:Ht.
  - rewrite (follows_old t u s Hf).
    by apply (follows_last g st A t u rq q Hinv Ht Hf Hg Hrq Hq rq q).
  - by destruct (inv_untracked _ _ Hinv A Ht q y).
Qed.

Lemma delivered_unlinked :
  (group r ≠ 0 → ∀ r' x, group r' = group r → by_reason st r' A = Some x → r' = r) →
  epoch_shape (appended u (negb (group r =? 0)) None) A →
  delivered (appended u (negb (group r =? 0)) None).
Proof.
  intros Hmem Hsh. apply appended_inv; try done; [apply follows_weak|].
  intros Hg r' x Hr' Hx. left. by apply (Hmem Hg r' x).
Qed.

(** The shape of the other groups is not concerned. *)
Lemma shape_other reg : group r ≠ 3 → epoch_shape (appended u reg None) A.
Proof.
  intros H3. apply (agree_shape st); [|apply (inv_shape _ _ Hinv)]. split.
  - intros r' Hr'. rewrite by_appended, decide_False; [done|]. intros (_ & <- & _). done.
  - intros r' x _ Hx. destruct (inv_by _ _ Hinv _ _ _ Hx) as (Hin & _).
    split_and!; [|done|done]. cbn. apply lookup_insert_ne. by intros ->.
Qed.

Lemma appended_linked u' q y :
  q ≠ p → bu_store st !! q = Some y → (∀ s, new s y = old s u) → (∀ s, old s u' = old s u) →
  unlinked st q → linked (appended u' true (Some q)) q p.
Proof.
  intros Hqp Hy Hyu Ho [L1 L2]. destruct unowned_unlinked as [L3 L4]. unfold linked. cbn.
  rewrite !lookup_insert_eq, !lookup_insert_ne by done. split_and!; try done.
  exists y, u'. split_and!; [done|done|]. intros s. by rewrite Ho.
Qed.

Lemma roles_exclusive :
  (r = DelegatorEpochRewardReason → by_reason st DelegateeEpochRewardReason A = None) ∧
  (r = DelegateeEpochRewardReason → by_reason st DelegatorEpochRewardReason A = None).
Proof.
  destruct (g !! A) as [t|] eqn:Ht.
  - destruct (tk_role _ _ _ (inv_tracked _ _ Hinv A t Ht)) as [R1 R2].
    unfold follows in Hf. rewrite !andb_true_iff in Hf. destruct Hf as [[_ Hrole] _].
    fold r in Hrole. split; intros E; rewrite E in Hrole; cbn in Hrole.
    + destruct (by_reason st DelegateeEpochRewardReason A); [|done].
      rewrite R2 in Hrole by eauto. done.
    + destruct (by_reason st DelegatorEpochRewardReason A); [|done].
      rewrite R1 in Hrole by eauto. done.
  - split; intros _; by apply untracked_by.
Qed.

Lemma delegator_has_reward :
  r = DelegatorEpochRewardReason → is_Some (by_reason st EpochRewardReason A).
Proof.
  intros E. destruct (g !! A) as [t|] eqn:Ht; [|done].
  apply (tk_seen _ _ _ (inv_tracked _ _ Hinv A t Ht)); [done|].
  unfold follows in Hf. rewrite !andb_true_iff in Hf. destruct Hf as [_ Hn].
  fold r in Hn. rewrite E in Hn. cbn in Hn. by apply bool_decide_eq_true in Hn.
Qed.

(** The three reasons of an epoch reward, each new for its address. *)
Lemma wp_new_reward :
  r = EpochRewardReason → by_reason st r A = None →
  wp (updateLinkedBalanceUpdates p;; append_update p) (λ _ st', delivered st')
     (registered (partner st A)).
Proof.
  intros Er Hby. pose proof (inv_shape _ _ Hinv A) as Hsh. unfold epoch_shape in Hsh.
  rewrite <- Er, Hby in Hsh. unfold partner in *.
  destruct (by_reason st DelegatorEpochRewardReason A) as [n|] eqn:HN; [by destruct Hsh|].
  assert (∀ r' x, group r' = group r → by_reason st r' A = Some x →
            r' = r ∨ by_reason st DelegateeEpochRewardReason A = Some x) as Hmem.
  { rewrite Er. intros r' x Hr' Hx. destruct r'; try done; [by left|congruence|by right]. }
  destruct (by_reason st DelegateeEpochRewardReason A) as [q|] eqn:HP.
  - destruct Hsh as [Hlk _].
    destruct (pending_meets DelegateeEpochRewardReason q) as (Hqp & y & Hy & Hyu);
      [by rewrite Er|by rewrite Er|done|by destruct Hlk|].
    apply (wp_deliver_linked q y); [by rewrite Er|done|done|done|].
    intros u' HA Hr' Hn Ho. apply appended_inv; [done|done|done|done|by rewrite Er|apply follows_weak| | |].
    + intros _ r' x Hgr Hx. by apply Hmem.
    + intros q' [= <-]. split; [by rewrite Er|]. by exists DelegateeEpochRewardReason.
    + unfold epoch_shape, partner.
      rewrite (by_appended_same _ _ EpochRewardReason) by done.
      rewrite !by_appended_other, HN, HP by by rewrite Er.
      right. split; [|done]. by eapply appended_linked.
  - apply wp_deliver_unlinked. replace true with (negb (group r =? 0)) by by rewrite Er.
    apply delivered_unlinked.
    + intros _ r' x Hr' Hx. by destruct (Hmem r' x Hr' Hx).
    + unfold epoch_shape, partner. replace (negb (group r =? 0)) with true by by rewrite Er.
      rewrite (by_appended_same _ _ EpochRewardReason) by done.
      rewrite !by_appended_other, HN, HP by by rewrite Er.
      by destruct unowned_unlinked.
Qed.

Lemma wp_new_transfer :
  r = DelegatorEpochRewardReason ∨ r = DelegateeEpochRewardReason →
  by_reason st r A = None →
  wp (updateLinkedBalanceUpdates p;; append_update p) (λ _ st', delivered st')
     (registered (by_reason st EpochRewardReason A)).
Proof.
  intros Er Hby. destruct roles_exclusive as [R1 R2]. pose proof delegator_has_reward as Hrew.
  pose proof (inv_shape _ _ Hinv A) as Hsh. unfold epoch_shape, partner in Hsh.
  assert (group r = 3) as Hr3 by (by destruct Er as [-> | ->]).
  assert (by_reason st DelegatorEpochRewardReason A = None) as HN
    by (destruct Er as [E|E]; [by rewrite <- E|by apply R2]).
  assert (by_reason st DelegateeEpochRewardReason A = None) as HP
    by (destruct Er as [E|E]; [by apply R1|by rewrite <- E]).
  rewrite HN, HP in Hsh.
  destruct (by_reason st EpochRewardReason A) as [e|] eqn:He.
  - destruct (pending_meets EpochRewardReason e) as (Hqp & y & Hy & Hyu);
      [by rewrite Hr3|by rewrite Hr3|done|by destruct Hsh|].
    apply (wp_deliver_linked e y); [done|done|done|done|].
    intros u' HA Hr' Hn Ho. apply appended_inv; [done|done|done|done|by rewrite Hr3|apply follows_weak| | |].
    + intros _ r' x Hgr Hx. right. rewrite Hr3 in Hgr. destruct r'; try done; congruence.
    + intros q' [= <-]. split; [done|]. by exists EpochRewardReason.
    + assert (linked (appended u' true (Some e)) e p) by by eapply appended_linked.
      unfold epoch_shape, partner. rewrite (by_appended_other _ _ _ EpochRewardReason), He
        by by destruct Er as [-> | ->].
      destruct Er as [E|E].
      * rewrite (by_appended_same _ _ DelegatorEpochRewardReason) by done. by left.
      * rewrite (by_appended_other _ _ _ DelegatorEpochRewardReason), HN by by rewrite E.
        rewrite (by_appended_same _ _ DelegateeEpochRewardReason) by done. by left.
  - destruct Er as [E|E]; [destruct (Hrew E); done|].
    apply wp_deliver_unlinked. replace true with (negb (group r =? 0)) by by rewrite Hr3.
    apply delivered_unlinked.
    + intros _ r' x Hr' Hx. rewrite E in *. destruct r'; try done; congruence.
    + unfold epoch_shape, partner. replace (negb (group r =? 0)) with true by by rewrite E.
      rewrite !by_appended_other, He, HN by by rewrite E.
      rewrite (by_appended_same _ _ DelegateeEpochRewardReason) by done.
      by destruct unowned_unlinked.
Qed.

Lemma wp_deliver_new :
  group r ≠ 0 → by_reason st r A = None →
  wp (merge_or_append p) (λ _ st', delivered st') st.
Proof.
  intros Hg Hby. apply handle_new; [done|]. apply wp_link_new; [done|].
  pose proof wp_new_reward as HE. pose proof wp_new_transfer as HT.
  assert (group r ≠ 3 → wp (updateLinkedBalanceUpdates p;; append_update p)
            (λ _ st', delivered st') (registered None)) as Hother.
  { intros H3. apply wp_deliver_unlinked.
    replace true with (negb (group r =? 0)) by by destruct (group r).
    apply delivered_unlinked; [|by apply shape_other].
    intros _ r' x Hr' Hx. destruct r', r; done. }
  cbn zeta. destruct r; try (by apply Hother); [by apply HE|by apply HT; [left|]|].
  apply HT; [by right|done].
Qed.

Lemma wp_append_other : group r = 0 → wp (append_update p) (λ _ st', delivered st') st.
Proof.
  intros Hg. apply wp_bind, (wp_load_update _ u); [done|]. apply wp_bind, wp_modify, wp_modify.
  assert (delivered (appended u (negb (group r =? 0)) None)) as Hd.
  { apply delivered_unlinked; [done|]. apply shape_other. by rewrite Hg. }
  rewrite Hg in Hd. unfold appended in Hd. cbn in Hd. rewrite (insert_id (bu_store st)) in Hd by done.
  exact Hd.
Qed.
End append_cases.

(** *** One update *)

Section deliver.
Context `{NodeApi}.
Implicit Types (st : Bu) (u v : BalanceUpdate) (A : Address).

(** What a step leaves alone: the updates that are neither recorded nor [p]. *)
Definition frame st (p : ptr) st' : Prop :=
  bu_pending st' = bu_pending st ∧
  ∀ x, x ∉ bu_recorded st → x ≠ p →
    bu_store st' !! x = bu_store st !! x ∧ x ∉ bu_recorded st'.

Lemma advance_new_track g u g' :
  advance g u = Some g' →
  g' = <[u_Address u := new_track g u]> g ∧
  match g !! u_Address u with
  | Some t => follows t u = true
  | None => u_Reason u ≠ DelegatorEpochRewardReason
  end.
Proof.
  unfold advance, new_track. destruct (g !! u_Address u) as [t|].
  - destruct (follows t u); [|done]. intros [= <-]. done.
  - destruct (decide _); [done|]. intros [= <-]. done.
Qed.

Lemma wp_deliver g g' st p u :
  inv g st → p ∉ bu_recorded st → bu_store st !! p = Some u → advance g u = Some g' →
  wp (if decide (group (u_Reason u) = 0) then append_update p else merge_or_append p)
     (λ _ st', inv g' st' ∧ frame st p st') st.
Proof.
  intros Hinv Hp Hu [-> Hf]%advance_new_track.
  assert (∀ st', delivered g st p u st' →
            inv (<[u_Address u := new_track g u]> g) st' ∧ frame st p st') as Hd.
  { intros st' (Hi & Hpend & Hrec & Hother). split; [done|]. split; [done|].
    intros x Hx Hxp. split; [by apply Hother|]. rewrite Hrec.
    rewrite elem_of_app, list_elem_of_singleton. tauto. }
  destruct (decide _) as [Hg|Hg].
  - pose proof (wp_append_other g st p u Hinv Hp Hu Hf Hg) as Hw.
    eapply wp_mono; [exact Hw|]. intros [] st'. apply Hd.
  - destruct (by_reason st (u_Reason u) (u_Address u)) as [q|] eqn:Hq.
    + destruct (inv_by _ _ Hinv _ _ _ Hq) as (Hin & _ & v & Hv & _ & HvA).
      destruct (g !! u_Address u) as [t|] eqn:Ht;
        [|by destruct (inv_untracked _ _ Hinv _ Ht q v)].
      pose proof (wp_merge g st q u v t Hinv Ht Hf Hg Hq Hv) as Hw.
      apply wp_bind, wp_bind, (wp_load_update _ u); [done|]. apply wp_bind, wp_gets.
      change (default ∅ (bu_byReason st !! u_Reason u) !! u_Address u)
        with (by_reason st (u_Reason u) (u_Address u)).
      rewrite Hq. apply wp_bind, (wp_load_update _ v); [done|].
      eapply wp_mono; [exact Hw|]. intros b st' (-> & Hi & [Est Hs]).
      apply wp_ret. unfold new_track. rewrite Ht. split; [done|].
      split; [by rewrite Est|]. intros x Hx _. split; [by apply Hs|]. by rewrite Est.
    + pose proof (wp_deliver_new g st p u Hinv Hp Hu Hf Hg Hq) as Hw.
      eapply wp_mono; [exact Hw|]. intros [] st'. apply Hd.
Qed.
End deliver.

(** ** Events: a [Begin] call, a change of the state, [CompleteBalanceUpdate] *)

Section events.
Context `{NodeApi}.
Implicit Types (st : Bu) (u v : BalanceUpdate) (A : Address).

Inductive BeginCall :=
  | BeginVerifiedStakeTransfer (from to : Address)
  | BeginTx (tx : Tx) (additional : list Address)
  | BeginProposerReward (balanceDest stakeDest : Address) (payment : option Z)
  | BeginCommitteeReward (balanceDest stakeDest : Address) (payment : option Z)
  | BeginEpochReward (balanceDest stakeDest : Address)
  | BeginFailedValidation (addr : Address)
  | BeginPenalty (addr : Address)
  | BeginEpochPenaltyReset (addr : Address)
  | BeginIdentityClearing (addr : Address)
  | BeginDustClearing (addr : Address).

Definition begin (b : BeginCall) (appState : AppState) : M Bu unit :=
  match b with
  | BeginVerifiedStakeTransfer f t => BeginVerifiedStakeTransferBalanceUpdate f t appState
  | BeginTx tx l => BeginTxBalanceUpdate tx appState l
  | BeginProposerReward bd sd pay => BeginProposerRewardBalanceUpdate bd sd pay appState
  | BeginCommitteeReward bd sd pay => BeginCommitteeRewardBalanceUpdate bd sd pay appState
  | BeginEpochReward bd sd => BeginEpochRewardBalanceUpdate bd sd appState
  | BeginFailedValidation a => BeginFailedValidationBalanceUpdate a appState
  | BeginPenalty a => BeginPenaltyBalanceUpdate a appState
  | BeginEpochPenaltyReset a => BeginEpochPenaltyResetBalanceUpdate a appState
  | BeginIdentityClearing a => BeginIdentityClearingBalanceUpdate a appState
  | BeginDustClearing a => BeginDustClearingBalanceUpdate a appState
  end.

Record Event := mkEvent { ev_begin : BeginCall; ev_before : AppState; ev_after : AppState }.

Definition handle_event (e : Event) : M Bu unit :=
  begin (ev_begin e) (ev_before e);; CompleteBalanceUpdate (ev_after e).

(** The addresses a [Begin] call observes. *)
Fixpoint additional_of (seen : gset Address) (l : list Address) : list Address :=
  match l with
  | [] => []
  | a :: l => if decide (a ∈ seen) then additional_of seen l
              else a :: additional_of ({[a]} ∪ seen) l
  end.

Definition pair_of (a b : Address) : list Address := if decide (a = b) then [a] else [a; b].

Definition touched (b : BeginCall) : list Address :=
  match b with
  | BeginVerifiedStakeTransfer a b | BeginProposerReward a b _
  | BeginCommitteeReward a b _ | BeginEpochReward a b => pair_of a b
  | BeginTx tx l =>
      match tx_To tx with
      | Some to => pair_of (tx_Sender tx) to
                   ++ additional_of ({[tx_Sender tx]} ∪ {[to]}) l
      | None => tx_Sender tx :: additional_of ({[tx_Sender tx]} ∪ ∅) l
      end
  | BeginFailedValidation a | BeginPenalty a | BeginEpochPenaltyReset a
  | BeginIdentityClearing a | BeginDustClearing a => [a]
  end.

Definition reason_of (b : BeginCall) : BalanceUpdateReason :=
  match b with
  | BeginVerifiedStakeTransfer _ _ => VerifiedStakeTransferReason
  | BeginTx _ _ => TxReason
  | BeginProposerReward _ _ _ => ProposerRewardReason
  | BeginCommitteeReward _ _ _ => CommitteeRewardReason
  | BeginEpochReward _ _ => EpochRewardReason
  | BeginFailedValidation _ => FailedValidationReason
  | BeginPenalty _ => PenaltyReason
  | BeginEpochPenaltyReset _ => EpochPenaltyResetReason
  | BeginIdentityClearing _ => IdentityClearingReason
  | BeginDustClearing _ => DustClearingReason
  end.

Definition hash_of (b : BeginCall) : option Hash :=
  match b with BeginTx tx _ => Some (tx_Hash tx) | _ => None end.

(** The penalty payment goes to the first address. *)
Definition payment_of (b : BeginCall) (s0 : AppState) (a : Address) : option Z :=
  match b with
  | BeginProposerReward bd _ pay | BeginCommitteeReward bd _ pay =>
      if decide (a = bd)
      then if (0 <? getPenaltySecondsIfNotKilled a s0)%Z then pay else None
      else None
  | _ => None
  end.

Definition observe (b : BeginCall) (s0 : AppState) (a : Address) : PendingUpdate :=
  mkPendingUpdate a (GetBalance s0 a) (getStakeIfNotKilled a s0) (getPenaltyIfNotKilled a s0)
    (getPenaltySecondsIfNotKilled a s0) (payment_of b s0 a) (hash_of b) (reason_of b).

Definition coins_same st st' : Prop :=
  st' = st <| bu_pending := bu_pending st' |> <| bu_coins := bu_coins st' |>.

(** [m] appends the pending updates [l] and may change the coins. *)
Definition appends (m : M Bu unit) (l : list PendingUpdate) : Prop :=
  ∀ st, wp m (λ _ st', coins_same st st' ∧ bu_pending st' = bu_pending st ++ l) st.

Lemma appends_nil : appends (mret tt) [].
Proof. intros st. apply wp_ret. split; [by destruct st|]. by rewrite app_nil_r. Qed.

Lemma appends_bind m l k l' : appends m l → appends k l' → appends (m;; k) (l ++ l').
Proof.
  intros Hm Hk st. apply wp_bind. eapply wp_mono; [apply Hm|]. intros _ st1 [E1 P1].
  eapply wp_mono; [apply Hk|]. intros _ st2 [E2 P2]. split.
  - rewrite E2, E1. by destruct st.
  - by rewrite P2, P1, (assoc_L (++)).
Qed.

Lemma appends_coins f : appends (modify_st (λ st, st <| bu_coins ::= f |>)) [].
Proof. intros st. apply wp_modify. split; [by destruct st|]. cbn. by rewrite app_nil_r. Qed.

Lemma appends_one a s0 r h pay :
  appends (addPendingBalanceUpdate a s0 r h pay)
    [mkPendingUpdate a (GetBalance s0 a) (getStakeIfNotKilled a s0)
       (getPenaltyIfNotKilled a s0) (getPenaltySecondsIfNotKilled a s0)
       (if (0 <? getPenaltySecondsIfNotKilled a s0)%Z then pay else None) h r].
Proof. intros st. apply wp_modify. split; [by destruct st|done]. Qed.

Lemma payment_none (c : bool) : (if c then None else None) = @None Z.
Proof. by destruct c. Qed.

Lemma appends_additional tx l0 s0 seen l :
  appends (addAdditional seen l s0 (tx_Hash tx))
          (observe (BeginTx tx l0) s0 <$> additional_of seen l).
Proof.
  revert seen. induction l as [|a l IH]; intros seen; cbn; [apply appends_nil|].
  destruct (decide (a ∈ seen)); [apply IH|].
  change (?x :: ?l) with ([x] ++ l). rewrite fmap_app. apply appends_bind; [|apply IH].
  pose proof (appends_one a s0 TxReason (Some (tx_Hash tx)) None) as Ha.
  rewrite payment_none in Ha. exact Ha.
Qed.

Lemma appends_pair b a1 a2 s0 r pay :
  reason_of b = r → hash_of b = None →
  payment_of b s0 a1 = (if (0 <? getPenaltySecondsIfNotKilled a1 s0)%Z then pay else None) →
  (a1 ≠ a2 → payment_of b s0 a2 = None) →
  appends (addPendingPair a1 a2 s0 r pay) (observe b s0 <$> pair_of a1 a2).
Proof.
  intros Hr Hh H1 H2. unfold addPendingPair, pair_of.
  destruct (decide (a1 = a2)) as [<-|Hne].
  - rewrite <- (app_nil_r (_ <$> _)). apply appends_bind; [|apply appends_nil].
    cbn. unfold observe. rewrite Hr, Hh, H1. apply appends_one.
  - change [a1; a2] with ([a1] ++ [a2]). rewrite fmap_app. apply appends_bind; cbn;
      unfold observe; rewrite Hr, Hh, ?H1, ?H2 by done; [apply appends_one|].
    pose proof (appends_one a2 s0 r None None) as Ha. by rewrite payment_none in Ha.
Qed.

Lemma appends_single b a s0 r :
  reason_of b = r → hash_of b = None → payment_of b s0 a = None →
  appends (addPendingBalanceUpdate a s0 r None None) (observe b s0 <$> [a]).
Proof.
  intros Hr Hh Hp. pose proof (appends_one a s0 r None None) as Ha.
  rewrite payment_none in Ha. cbn. unfold observe. by rewrite Hr, Hh, Hp.
Qed.

(** A [Begin] call records the old values of every address it touches. *)
Lemma begin_appends b s0 : appends (begin b s0) (observe b s0 <$> touched b).
Proof.
  destruct b; cbn [begin touched].
  1,3,4,5: apply appends_pair; try done; cbn; rewrite ?payment_none;
    try (by rewrite decide_True); try (intros; by rewrite decide_False); try done.
  2,3,4,6: by apply appends_single.
  - unfold BeginTxBalanceUpdate.
    pose proof (appends_one (tx_Sender tx) s0 TxReason (Some (tx_Hash tx)) None) as Hs.
    rewrite payment_none in Hs.
    destruct (tx_To tx) as [to|] eqn:Hto.
    + unfold pair_of. pose proof (appends_one to s0 TxReason (Some (tx_Hash tx)) None) as Ht.
      rewrite payment_none in Ht. rewrite fmap_app.
      destruct (decide (tx_Sender tx = to)) as [Heq|Hne].
      * apply appends_bind; [exact Hs|]. rewrite decide_True by done.
        apply (appends_bind _ [] _ _ appends_nil), appends_additional.
      * change [tx_Sender tx; to] with ([tx_Sender tx] ++ [to]).
        rewrite fmap_app, <- (assoc_L (++)). apply appends_bind; [exact Hs|].
        rewrite decide_False by done. apply appends_bind; [exact Ht|apply appends_additional].
    + change (tx_Sender tx :: ?l) with ([tx_Sender tx] ++ l). rewrite fmap_app.
      apply appends_bind; [exact Hs|].
      apply (appends_bind _ [] _ _ appends_nil), appends_additional.
  - unfold BeginIdentityClearingBalanceUpdate. rewrite <- (app_nil_r (_ <$> _)).
    apply appends_bind; [by apply appends_single|].
    change (@nil PendingUpdate) with (@nil PendingUpdate ++ []).
    apply appends_bind; [|apply appends_coins].
    destruct (0 <? _)%Z; [apply appends_coins|apply appends_nil].
Qed.

(** The addresses a call touches are pairwise different. *)
Lemma additional_of_spec seen l a :
  a ∈ additional_of seen l ↔ a ∈ l ∧ a ∉ seen.
Proof.
  revert seen. induction l as [|x l IH]; intros seen; cbn; [set_solver|].
  destruct (decide (x ∈ seen)).
  - rewrite IH. set_solver.
  - rewrite elem_of_cons, IH. destruct (decide (a = x)); set_solver.
Qed.

Lemma additional_of_NoDup seen l : NoDup (additional_of seen l).
Proof.
  revert seen. induction l as [|x l IH]; intros seen; cbn; [constructor|].
  destruct (decide (x ∈ seen)); [apply IH|]. constructor; [|apply IH].
  rewrite additional_of_spec. set_solver.
Qed.

Lemma pair_of_NoDup a b : NoDup (pair_of a b).
Proof.
  unfold pair_of. destruct (decide (a = b)); repeat constructor; set_solver.
Qed.

Lemma pair_of_spec a b x : x ∈ pair_of a b ↔ x = a ∨ x = b.
Proof. unfold pair_of. destruct (decide (a = b)); set_solver. Qed.

Lemma touched_NoDup b : NoDup (touched b).
Proof.
  destruct b; cbn; try apply pair_of_NoDup; try apply NoDup_singleton.
  destruct (tx_To tx) as [to|].
  - apply list.NoDup_app. split_and!; [apply pair_of_NoDup| |apply additional_of_NoDup].
    intros x Hx. rewrite additional_of_spec. apply pair_of_spec in Hx. set_solver.
  - constructor; [|apply additional_of_NoDup]. rewrite additional_of_spec. set_solver.
Qed.
End events.

(** ** Completing: the updates an event records *)

Section complete.
Context `{NodeApi}.
Implicit Types (st : Bu) (u v : BalanceUpdate) (A : Address).

(** The updates recorded when [us] are completed, in order. *)
Definition delegated_effects (u0 u1 : BalanceUpdate) : list BalanceUpdate :=
  let '(delegator, delegatee) := if isBalanceChanged u0 then (u1, u0) else (u0, u1) in
  let reward := rewardBalanceUpdate delegator delegatee in
  [reward; delegatorBalanceUpdate delegator reward;
   delegatee <| u_Reason := DelegateeEpochRewardReason |>].

Definition complete_effects (us : list BalanceUpdate) : list BalanceUpdate :=
  match us with
  | [u0; u1] => if is_delegated u0 u1 then delegated_effects u0 u1
                else filter isBalanceOrStakeOrPenaltyChanged us
  | _ => filter isBalanceOrStakeOrPenaltyChanged us
  end.

Definition observed (e : Event) : list BalanceUpdate :=
  (λ a, complete_one (observe (ev_begin e) (ev_before e) a) (ev_after e)) <$> touched (ev_begin e).

Definition effects (e : Event) : list BalanceUpdate := complete_effects (observed e).

Fixpoint advance_all (g : gmap Address Track) (us : list BalanceUpdate)
    : option (gmap Address Track) :=
  match us with
  | [] => Some g
  | u :: us => advance g u ≫= λ g', advance_all g' us
  end.

Lemma advance_all_app g us vs :
  advance_all g (us ++ vs) = advance_all g us ≫= λ g', advance_all g' vs.
Proof.
  revert g. induction us as [|u us IH]; intros g; [done|]. cbn.
  destruct (advance g u) as [g'|]; cbn; [apply IH|done].
Qed.

Lemma inv_coins g st c : inv g st → inv g (st <| bu_coins := c |>).
Proof.
  intros [I1 I2 I3 I4 I5 I6 I7 I8]. split; try done.
  intros A t Ht. by destruct (I7 A t Ht).
Qed.

Lemma inv_pending g st l : inv g st → inv g (st <| bu_pending := l |>).
Proof.
  intros [I1 I2 I3 I4 I5 I6 I7 I8]. split; try done.
  intros A t Ht. by destruct (I7 A t Ht).
Qed.

(** The updates at [ps] are [us], not recorded yet and pairwise different. *)
Definition held st (ps : list ptr) (us : list BalanceUpdate) : Prop :=
  NoDup ps ∧ Forall2 (λ p u, bu_store st !! p = Some u ∧ p ∉ bu_recorded st) ps us.

Lemma held_cons st p ps u us :
  held st (p :: ps) (u :: us) ↔
  (¬ p ∈ ps) ∧ bu_store st !! p = Some u ∧ (¬ p ∈ bu_recorded st) ∧ held st ps us.
Proof.
  unfold held. rewrite list.NoDup_cons. split.
  - intros [[? ?] Hf]. apply list.Forall2_cons in Hf as [[? ?] ?]. done.
  - intros (? & ? & ? & ? & ?). split; [done|]. by constructor.
Qed.

Lemma held_frame st p st' ps us :
  frame st p st' → p ∉ ps → held st ps us → held st' ps us.
Proof.
  intros [_ Hf] Hp [Hnd Hh]. split; [done|].
  induction Hh as [|q u ps us [Hq Hno] Hh IH]; [constructor|].
  apply not_elem_of_cons in Hp as [Hpq Hp]. apply list.NoDup_cons in Hnd as [_ Hnd].
  constructor; [|by apply IH]. destruct (Hf q) as [-> ?]; [done|congruence|done].
Qed.

Lemma frame_coins st p c : frame st p (st <| bu_coins := c |>).
Proof. split; [done|]. by intros x Hx _. Qed.

Lemma frame_refl st p : frame st p st.
Proof. split; [done|]. by intros x Hx _. Qed.

Lemma frame_trans st1 st2 st3 p : frame st1 p st2 → frame st2 p st3 → frame st1 p st3.
Proof.
  intros [P1 F1] [P2 F2]. split; [congruence|]. intros x Hx Hp.
  destruct (F1 x Hx Hp) as [E1 R1]. destruct (F2 x R1 Hp) as [E2 R2].
  split; [congruence|done].
Qed.

Lemma wp_complete_single g g' st p u :
  role (u_Reason u) = None →
  inv g st → p ∉ bu_recorded st → bu_store st !! p = Some u →
  advance_all g (filter isBalanceOrStakeOrPenaltyChanged [u]) = Some g' →
  wp (complete_single p) (λ _ st', inv g' st' ∧ frame st p st') st.
Proof.
  intros Hrole Hinv Hp Hu Hadv. apply wp_bind, (wp_load_update _ u); [done|].
  rewrite filter_cons, filter_nil in Hadv.
  destruct (isBalanceOrStakeOrPenaltyChanged u) eqn:Hch; cbn [negb].
  - rewrite decide_True in Hadv by done. cbn in Hadv.
    destruct (advance g u) as [g1|] eqn:Hadv1; [|done]. cbn in Hadv. simplify_eq.
    apply wp_bind.
    assert (∀ c, wp (if decide (u_Reason u = EpochRewardReason ∨ u_Reason u = CommitteeRewardReason
                  ∨ u_Reason u = VerifiedStakeTransferReason)
                then merge_or_append p else append_update p)
              (λ _ st', inv g' st' ∧ frame st p st') (st <| bu_coins := c |>)) as Hw.
    { intros c.
      pose proof (wp_deliver g g' (st <| bu_coins := c |>) p u (inv_coins _ _ c Hinv) Hp Hu Hadv1) as Hd.
      assert (∀ st', frame (st <| bu_coins := c |>) p st' → frame st p st') as Hfr
        by (intros st'; apply frame_trans, frame_coins).
      eapply (wp_mono _ (λ _ st', inv g' st' ∧ frame (st <| bu_coins := c |>) p st'));
        [|intros [] st' [? ?]; eauto].
      repeat case_decide; try done; exfalso; destruct (u_Reason u); naive_solver. }
    destruct (decide (u_Reason u = DustClearingReason)).
    + apply wp_modify. apply (Hw (addBurntCoins _ _ _ _ (bu_coins st))).
    + apply wp_ret. specialize (Hw (bu_coins st)). by destruct st.
  - destruct (decide _) as [Hc|_] in Hadv; [apply Is_true_true in Hc; congruence|].
    cbn in Hadv. simplify_eq.
    apply wp_ret. split; [done|apply frame_refl].
Qed.

Lemma wp_complete_all g g' st ps us :
  Forall (λ u, role (u_Reason u) = None) us →
  inv g st → held st ps us →
  advance_all g (filter isBalanceOrStakeOrPenaltyChanged us) = Some g' →
  wp (for_each ps complete_single)
     (λ _ st', inv g' st' ∧ bu_pending st' = bu_pending st) st.
Proof.
  revert g st us. induction ps as [|p ps IH]; intros g st us Hrole Hinv Hh Hadv.
  { destruct us; [|by destruct Hh as [_ Hh%Forall2_nil_cons_inv]].
    cbn in Hadv. simplify_eq. by apply wp_ret. }
  destruct us as [|u us]; [by destruct Hh as [_ Hh%Forall2_cons_nil_inv]|].
  apply held_cons in Hh as (Hpps & Hu & Hp & Hh). apply list.Forall_cons in Hrole as [Hr1 Hr2].
  change (u :: us) with ([u] ++ us) in Hadv. rewrite list.filter_app, advance_all_app in Hadv.
  destruct (advance_all g (filter _ [u])) as [g1|] eqn:H1; [|done]. cbn in Hadv.
  apply wp_bind. eapply wp_mono; [by eapply wp_complete_single|].
  intros [] st1 [Hinv1 Hf1]. eapply wp_mono.
  - eapply IH; [done|done|by eapply held_frame|done].
  - intros [] st2 [? HP]. split; [done|]. rewrite HP. by destruct Hf1.
Qed.

Lemma held_dom st ps us p : held st ps us → p ∈ ps → is_Some (bu_store st !! p).
Proof.
  intros [_ Hh] [i Hi]%list_elem_of_lookup.
  destruct (Forall2_lookup_l _ _ _ _ _ Hh Hi) as (u & _ & Hu & _). eauto.
Qed.

(** Writing an update that is not recorded. *)
Lemma inv_unrecorded g st p u :
  inv g st → p ∉ bu_recorded st → inv g (st <| bu_store ::= insert p u |>).
Proof.
  intros [I1 I2 I3 I4 I5 I6 I7 I8] Hp.
  assert (∀ x, x ∈ bu_recorded st →
    bu_store (st <| bu_store ::= insert p u |>) !! x = bu_store st !! x) as Hrec
    by (intros x Hx; cbn; apply lookup_insert_ne; by intros ->).
  assert (∀ s A x, x ∈ bu_recorded st →
    delta_at s A (st <| bu_store ::= insert p u |>) x = delta_at s A st x) as Hdelta
    by (intros s A x Hx; unfold delta_at; by rewrite Hrec).
  split; try done.
  - intros x Hx. rewrite Hrec by done. by apply I2.
  - intros r A x Hx. destruct (I3 r A x Hx) as (? & ? & ?). by rewrite Hrec.
  - intros A. eapply (agree_shape st); [|apply I4]. split; [done|].
    intros r x _ Hx. destruct (I3 r A x Hx) as (? & _). by rewrite Hrec.
  - intros x q Hxq. destruct (I5 x q Hxq) as (? & ? & ?). by rewrite Hrec.
  - intros A. rewrite I6. split; intros (x & v & Hx & Hv & HA); exists x, v;
      (split_and!; [done| |done]); rewrite Hrec in *; done.
  - intros A t Ht. eapply (agree_tracked st); [|..|by apply I7].
    + split; [done|]. intros r x Hx. destruct (I3 r A x Hx) as (? & _). by rewrite Hrec.
    + intros r x Hx. destruct (I3 r A x Hx) as (? & _ & v & -> & _). eauto.
    + intros s. apply sumZ_ext. intros x Hx. by apply Hdelta.
  - intros A Hg x v Hx. rewrite Hrec by done. by apply (I8 A Hg).
Qed.

(** [st'] is [st] with more updates in the store. *)
Definition grown st st' : Prop :=
  bu_recorded st' = bu_recorded st ∧ bu_pending st' = bu_pending st ∧
  ∀ x, is_Some (bu_store st !! x) → bu_store st' !! x = bu_store st !! x.

Lemma grown_held st st' ps us : grown st st' → held st ps us → held st' ps us.
Proof.
  intros (Er & _ & Hs) [Hnd Hh]. split; [done|]. eapply list.Forall2_impl; [exact Hh|].
  intros x v [Hx ?]. rewrite Er. split; [|done]. by rewrite Hs by eauto.
Qed.

Lemma store_grown_trans st1 st2 st3 : grown st1 st2 → grown st2 st3 → grown st1 st3.
Proof.
  intros (R1 & P1 & S1) (R2 & P2 & S2). split_and!; [congruence..|].
  intros x Hx. rewrite S2, S1; [done|done|]. by rewrite S1.
Qed.

Lemma wp_alloc u (Q : ptr → Bu → Prop) st g :
  inv g st →
  (∀ p st', inv g st' → grown st st' → bu_store st !! p = None →
     bu_store st' !! p = Some u → p ∉ bu_recorded st → Q p st') →
  wp (alloc u) Q st.
Proof.
  intros Hinv HQ. unfold wp, alloc. set (p := fresh _).
  assert (bu_store st !! p = None) as Hp by apply not_elem_of_dom, is_fresh.
  assert (p ∉ bu_recorded st) as Hprec.
  { intros Hin. destruct (inv_dom _ _ Hinv _ Hin). congruence. }
  apply HQ; try done.
  - by apply inv_unrecorded.
  - split_and!; [done|done|]. intros x [v Hx]. cbn. apply lookup_insert_ne. congruence.
  - cbn. by rewrite lookup_insert_eq.
Qed.

Lemma wp_alloc_all us g st :
  inv g st →
  wp (alloc_all us) (λ ps st', inv g st' ∧ grown st st' ∧ held st' ps us ∧
    ∀ p, p ∈ ps → bu_store st !! p = None) st.
Proof.
  revert st. induction us as [|u us IH]; intros st Hinv.
  { apply wp_ret. split_and!; [done|done|split; constructor|]. by intros p Hp%elem_of_nil. }
  apply wp_bind, (wp_alloc u _ _ g); [done|]. intros p st1 Hinv1 Hg1 Hp Hu Hrec.
  apply wp_bind. eapply wp_mono; [by apply IH|].
  intros ps st2 (Hinv2 & Hg2 & Hh2 & Hnew). apply wp_ret.
  assert (∀ q, q ∈ ps → bu_store st !! q = None) as Hps.
  { intros q Hq. destruct (bu_store st !! q) eqn:E; [|done].
    destruct Hg1 as (_ & _ & Hs). specialize (Hs q). rewrite E, (Hnew q Hq) in Hs. by destruct Hs. }
  split_and!; [done|by eapply store_grown_trans| |].
  - apply held_cons. split_and!; [|by destruct Hg2 as (_ & _ & ->)| |done].
    + intros Hin. specialize (Hnew p Hin). congruence.
    + destruct Hg1 as (E1 & _), Hg2 as (E2 & _). by rewrite E2, E1.
  - intros q [->|Hq]%elem_of_cons; [done|by apply Hps].
Qed.

Lemma wp_merge_deliver g g' st p u :
  group (u_Reason u) ≠ 0 →
  inv g st → p ∉ bu_recorded st → bu_store st !! p = Some u → advance g u = Some g' →
  wp (merge_or_append p) (λ _ st', inv g' st' ∧ frame st p st') st.
Proof.
  intros Hg Hinv Hp Hu Ha. pose proof (wp_deliver g g' st p u Hinv Hp Hu Ha) as Hw.
  by rewrite decide_False in Hw by done.
Qed.

(** Three linked updates, one after the other. *)
Lemma wp_deliver_three g g' st p1 p2 p3 u1 u2 u3 :
  group (u_Reason u1) ≠ 0 → group (u_Reason u2) ≠ 0 → group (u_Reason u3) ≠ 0 →
  inv g st → held st [p1; p2; p3] [u1; u2; u3] → advance_all g [u1; u2; u3] = Some g' →
  wp (merge_or_append p1;; merge_or_append p2;; merge_or_append p3)
     (λ _ st', inv g' st' ∧ bu_pending st' = bu_pending st) st.
Proof.
  intros G1 G2 G3 Hinv Hh Hadv. cbn in Hadv.
  destruct (advance g u1) as [g1|] eqn:A1; [|done]. cbn in Hadv.
  destruct (advance g1 u2) as [g2|] eqn:A2; [|done]. cbn in Hadv.
  destruct (advance g2 u3) as [g3|] eqn:A3; [|done]. cbn in Hadv. simplify_eq.
  apply held_cons in Hh as (N1 & S1 & R1 & Hh).
  apply wp_bind. eapply wp_mono; [by apply (wp_merge_deliver g g1 st p1 u1)|].
  intros [] st1 [Hi1 F1]. apply (held_frame _ _ _ _ _ F1 N1) in Hh.
  apply held_cons in Hh as (N2 & S2 & R2 & Hh).
  apply wp_bind. eapply wp_mono; [by apply (wp_merge_deliver g1 g2 st1 p2 u2)|].
  intros [] st2 [Hi2 F2]. apply (held_frame _ _ _ _ _ F2 N2) in Hh.
  apply held_cons in Hh as (_ & S3 & R3 & _).
  eapply wp_mono; [by apply (wp_merge_deliver g2 g' st2 p3 u3)|].
  intros [] st3 [Hi3 F3]. split; [done|].
  destruct F1 as [E1 _], F2 as [E2 _], F3 as [E3 _]. congruence.
Qed.

Lemma wp_complete_delegated g g' st p0 p1 u0 u1 :
  is_delegated u0 u1 = true →
  inv g st → held st [p0; p1] [u0; u1] →
  advance_all g (delegated_effects u0 u1) = Some g' →
  wp (complete_delegated p0 p1)
     (λ _ st', inv g' st' ∧ bu_pending st' = bu_pending st) st.
Proof.
  intros Hdel Hinv Hh Hadv. apply held_cons in Hh as (N0 & S0 & R0 & Hh).
  apply held_cons in Hh as (_ & S1 & R1 & _). apply not_elem_of_cons in N0 as [N0 _].
  apply wp_bind, (wp_load_update _ u0); [done|]. unfold delegated_effects in Hadv.
  assert (∀ pd pe ud ue,
    pd ≠ pe → bu_store st !! pd = Some ud → bu_store st !! pe = Some ue →
    pd ∉ bu_recorded st → pe ∉ bu_recorded st →
    (let reward := rewardBalanceUpdate ud ue in
     advance_all g [reward; delegatorBalanceUpdate ud reward;
                    ue <| u_Reason := DelegateeEpochRewardReason |>] = Some g') →
    wp (delegator ← load pd; delegatee ← load pe;
        let reward := rewardBalanceUpdate delegator delegatee in
        preward ← alloc reward;
        ptransfer ← alloc (delegatorBalanceUpdate delegator reward);
        store pe (delegatee <| u_Reason := DelegateeEpochRewardReason |>);;
        merge_or_append preward;; merge_or_append ptransfer;; merge_or_append pe)
      (λ _ st', inv g' st' ∧ bu_pending st' = bu_pending st) st) as Hgen.
  { clear S0 S1 R0 R1 Hadv N0. intros pd pe ud ue Hne Sd Se Rd Re Hadv.
    apply wp_bind, (wp_load_update _ ud); [done|]. apply wp_bind, (wp_load_update _ ue); [done|].
    apply wp_bind, (wp_alloc _ _ _ g); [done|]. intros pr st1 Hi1 G1 D1 L1 NR1.
    apply wp_bind, (wp_alloc _ _ _ g); [done|]. intros pt st2 Hi2 G2 D2 L2 NR2.
    destruct G1 as (ER1 & EP1 & ES1), G2 as (ER2 & EP2 & ES2).
    assert (bu_store st2 !! pe = Some ue) as Se2 by (rewrite ES2, ES1; rewrite ?ES1; eauto).
    assert (bu_store st2 !! pr = Some (rewardBalanceUpdate ud ue)) as Sr2
      by (rewrite ES2 by eauto; done).
    assert (pr ≠ pe) by congruence. assert (pt ≠ pr) by congruence.
    assert (pt ≠ pe) by (intros ->; rewrite ES1 in D2 by eauto; congruence).
    apply wp_bind, wp_modify. eapply wp_mono;
      [apply (wp_deliver_three g g' _ pr pt pe (rewardBalanceUpdate ud ue)
         (delegatorBalanceUpdate ud (rewardBalanceUpdate ud ue))
         (ue <| u_Reason := DelegateeEpochRewardReason |>)); [done|done|done| | |exact Hadv]|].
    - apply inv_unrecorded; [done|]. by rewrite ER2, ER1.
    - rewrite ER1 in NR2. split.
      + repeat (apply list.NoDup_cons; split); [..|constructor];
          rewrite ?elem_of_cons, ?elem_of_nil; intuition congruence.
      + rewrite <- ER1, <- ER2 in Rd, Re, NR1, NR2.
        repeat apply list.Forall2_cons_2; try apply Forall2_nil; cbn; (split; [|done]).
        * by rewrite lookup_insert_ne.
        * by rewrite lookup_insert_ne.
        * apply lookup_insert_eq.
    - intros [] st' [? E]. split; [done|]. rewrite E. cbn. congruence. }
  destruct (isBalanceChanged u0).
  - apply (Hgen p1 p0 u1 u0); done.
  - apply (Hgen p0 p1 u0 u1); done.
Qed.

Lemma wp_CompleteBalanceUpdate g g' st s1 :
  Forall (λ p, role (p_Reason p) = None) (bu_pending st) →
  inv g st →
  advance_all g (complete_effects ((λ p, complete_one p s1) <$> bu_pending st)) = Some g' →
  wp (CompleteBalanceUpdate s1) (λ _ st', inv g' st' ∧ bu_pending st' = []) st.
Proof.
  intros Hrole Hinv Hadv. set (us := (λ p, complete_one p s1) <$> bu_pending st) in *.
  assert (Forall (λ u, role (u_Reason u) = None) us) as Hus
    by (unfold us; by apply Forall_fmap).
  apply wp_bind, wp_bind, wp_gets. apply wp_bind. fold us.
  eapply wp_mono; [by apply (wp_alloc_all us g)|].
  intros ps st1 (Hi1 & Hg1 & Hh1 & _). apply wp_bind, wp_modify, wp_ret.
  set (st2 := st1 <| bu_pending := [] |>).
  assert (inv g st2) as Hi2 by by apply inv_pending.
  assert (held st2 ps us) as Hh2 by exact Hh1. clear Hi1 Hg1 Hh1.
  assert (advance_all g (filter isBalanceOrStakeOrPenaltyChanged us) = Some g' →
          wp (for_each ps complete_single) (λ _ st', inv g' st' ∧ bu_pending st' = []) st2) as Hall.
  { intros Ha. eapply wp_mono; [by apply (wp_complete_all g g' st2 ps us)|]. by intros [] st'. }
  clearbody us. destruct ps as [|p0 [|p1 [|p2 ps]]]; destruct us as [|u0 [|u1 [|u2 us]]];
    try (destruct Hh2 as [_ Hh2]; by inversion Hh2);
    try (destruct Hh2 as [_ Hh2]; apply Forall2_length in Hh2; done);
    try (by apply Hall).
  cbn [complete_effects] in Hadv.
  pose proof Hh2 as Hh. apply held_cons in Hh as (_ & S0 & _ & Hh).
  apply held_cons in Hh as (_ & S1 & _ & _).
  apply wp_bind, (wp_load_update _ u0); [done|]. apply wp_bind, (wp_load_update _ u1); [done|].
  destruct (is_delegated u0 u1) eqn:Hd; [|by apply Hall].
  eapply wp_mono; [by apply (wp_complete_delegated g g' st2 p0 p1 u0 u1)|]. by intros [] st'.
Qed.

Lemma reason_of_role b : role (reason_of b) = None.
Proof. by destruct b. Qed.

Lemma wp_handle_event g g' st e :
  inv g st → bu_pending st = [] → advance_all g (effects e) = Some g' →
  wp (handle_event e) (λ _ st', inv g' st' ∧ bu_pending st' = []) st.
Proof.
  intros Hinv Hp Hadv. apply wp_bind. eapply wp_mono; [apply begin_appends|].
  intros _ st1 [E1 P1]. rewrite Hp in P1. cbn in P1.
  apply (wp_CompleteBalanceUpdate g).
  - rewrite P1. apply Forall_fmap, Forall_true. intros a. apply reason_of_role.
  - rewrite E1. by apply inv_coins, inv_pending.
  - rewrite P1, <- list_fmap_compose. exact Hadv.
Qed.
End complete.

(** ** Properties *)

Section properties.
Context `{NodeApi}.
Implicit Types (st : Bu) (u v : BalanceUpdate) (A : Address).

Definition run_events (es : list Event) : M Bu unit := for_each es handle_event.

(** The updates of the events form, for every address, one chain: see
    [follows]. *)
Definition orderly (es : list Event) : bool :=
  match advance_all ∅ (es ≫= effects) with Some _ => true | None => false end.

(** What the node's state shows of the change of an address in an event. *)
Definition holding (s : bool) (w : AppState) A : Z :=
  if s then getStakeIfNotKilled A w else GetBalance w A.
Definition event_delta (s : bool) A (e : Event) : Z :=
  if decide (A ∈ touched (ev_begin e))
  then (holding s (ev_after e) A - holding s (ev_before e) A)%Z else 0%Z.

Definition update_delta (s : bool) A u : Z :=
  if decide (u_Address u = A) then delta s u else 0%Z.

Definition span (g : gmap Address Track) (s : bool) A : Z :=
  match g !! A with Some t => (tr_end t s - tr_start t s)%Z | None => 0%Z end.

Lemma advance_span g u g' s A :
  advance g u = Some g' → span g' s A = (span g s A + update_delta s A u)%Z.
Proof.
  intros [-> Hf]%advance_new_track. unfold span, update_delta, new_track, delta.
  destruct (decide (u_Address u = A)) as [<-|Hne].
  - rewrite lookup_insert_eq. revert Hf.
    destruct (g !! u_Address u) as [t|]; cbn; intros Hf; [|lia].
    rewrite (follows_old t u s Hf). lia.
  - rewrite lookup_insert_ne by done. lia.
Qed.

Lemma advance_all_span g us g' s A :
  advance_all g us = Some g' → span g' s A = (span g s A + sumZ (update_delta s A) us)%Z.
Proof.
  revert g. induction us as [|u us IH]; intros g Hadv; cbn in *; simplify_eq; [lia|].
  destruct (advance g u) as [g1|] eqn:H1; [|done]. cbn in Hadv.
  rewrite (IH g1 Hadv), (advance_span _ _ _ s A H1). lia.
Qed.

Lemma unchanged_delta s u : isBalanceOrStakeOrPenaltyChanged u = false → delta s u = 0%Z.
Proof.
  unfold isBalanceOrStakeOrPenaltyChanged. rewrite !orb_false_iff.
  intros [[[[Hb Hs] _] _] _]. apply negb_false_iff, Z.eqb_eq in Hb, Hs.
  unfold delta. destruct s; cbn; lia.
Qed.

Lemma filter_delta s A us :
  sumZ (update_delta s A) (filter isBalanceOrStakeOrPenaltyChanged us)
  = sumZ (update_delta s A) us.
Proof.
  induction us as [|u us IH]; [done|]. rewrite filter_cons. cbn [sumZ].
  destruct (decide _) as [Hc|Hc]; cbn [sumZ]; [lia|]. rewrite IH.
  unfold update_delta at 2. apply Is_true_false in Hc. rewrite (unchanged_delta s u Hc).
  destruct (decide _); lia.
Qed.

Lemma delegated_delta s A u0 u1 :
  sumZ (update_delta s A) (delegated_effects u0 u1) = sumZ (update_delta s A) [u0; u1].
Proof.
  unfold delegated_effects, update_delta, delta. destruct (isBalanceChanged u0); cbn;
    repeat case_decide; destruct s; cbn; lia.
Qed.

Lemma complete_delta s A us :
  sumZ (update_delta s A) (complete_effects us) = sumZ (update_delta s A) us.
Proof.
  unfold complete_effects. destruct us as [|u0 [|u1 [|u2 us]]]; try apply filter_delta.
  destruct (is_delegated u0 u1); [apply delegated_delta|apply filter_delta].
Qed.

Lemma effects_delta s A e : sumZ (update_delta s A) (effects e) = event_delta s A e.
Proof.
  unfold effects. rewrite complete_delta. unfold observed. rewrite sumZ_map.
  unfold event_delta. destruct (decide (A ∈ touched (ev_begin e))) as [Hin|Hno].
  - apply list_elem_of_lookup in Hin as [i Hi].
    rewrite (sumZ_point _ (λ _, 0%Z) _ i A Hi), sumZ_zero.
    + unfold update_delta, delta. cbn. rewrite decide_True by done.
      unfold holding. destruct s; cbn; lia.
    + intros j B Hj Hne. unfold update_delta. cbn. rewrite decide_False; [done|].
      intros ->. by apply Hne, (NoDup_lookup _ _ _ _ (touched_NoDup (ev_begin e)) Hj Hi).
  - rewrite (sumZ_ext _ (λ _, 0%Z)); [apply sumZ_zero|]. intros B HB.
    unfold update_delta. cbn. rewrite decide_False; [done|]. by intros ->.
Qed.

Lemma empty_inv : inv ∅ emptyBu.
Proof.
  assert (∀ r A, by_reason emptyBu r A = None) as Hby.
  { intros r A. unfold by_reason. cbn. rewrite lookup_empty. cbn. apply lookup_empty. }
  split.
  - constructor.
  - by intros p Hp%elem_of_nil.
  - intros r A p. by rewrite Hby.
  - intros A. unfold epoch_shape, partner. by rewrite !Hby.
  - intros p q. cbn. rewrite !lookup_empty. by intros [?|?].
  - intros A. cbn. split; [set_solver|]. intros (p & u & Hp & _). by apply elem_of_nil in Hp.
  - intros A t. by rewrite lookup_empty.
  - intros A _ p u Hp. by apply elem_of_nil in Hp.
Qed.

Lemma wp_run_events g g' st es :
  inv g st → bu_pending st = [] → advance_all g (es ≫= effects) = Some g' →
  wp (run_events es) (λ _ st', inv g' st') st.
Proof.
  revert g st. induction es as [|e es IH]; intros g st Hinv Hp Hadv.
  { cbn in Hadv. simplify_eq. by apply wp_ret. }
  rewrite bind_cons, advance_all_app in Hadv.
  destruct (advance_all g (effects e)) as [g1|] eqn:H1; [|done]. cbn in Hadv.
  apply wp_bind. eapply wp_mono; [by eapply wp_handle_event|].
  intros [] st1 [Hinv1 Hp1]. by eapply IH.
Qed.

Lemma orderly_track es : orderly es = true → ∃ g, advance_all ∅ (es ≫= effects) = Some g.
Proof. unfold orderly. destruct (advance_all _ _); [eauto|done]. Qed.

Lemma sum_effects s A es :
  sumZ (update_delta s A) (es ≫= effects) = sumZ (event_delta s A) es.
Proof.
  induction es as [|e es IH]; [done|]. rewrite bind_cons, sumZ_app, effects_delta, IH. done.
Qed.

(** [C7]  The balance updates of a block lose nothing and count nothing twice:
    after any orderly sequence of events, whatever was merged, split between
    delegator and delegatee or relinked, the differences of balance (and of
    stake) of the updates recorded for an address sum to the differences the
    events made to that address. *)
Theorem balance_updates_conserve es :
  orderly es = true →
  wp (run_events es) (λ _ st, ∀ A s,
    recorded_delta s A st = sumZ (event_delta s A) es) emptyBu.
Proof.
  intros [g Hg]%orderly_track. eapply wp_mono; [apply (wp_run_events ∅ g)|].
  - apply empty_inv.
  - done.
  - done.
  - intros [] st Hinv A s. rewrite <- sum_effects.
    pose proof (advance_all_span _ _ _ s A Hg) as Hs.
    assert (span ∅ s A = 0%Z) as H0 by (unfold span; by rewrite lookup_empty).
    rewrite H0 in Hs. rewrite Z.add_0_l in Hs. rewrite <- Hs. unfold span.
    destruct (g !! A) as [t|] eqn:Ht.
    + apply (tk_sum _ _ _ (inv_tracked _ _ Hinv A t Ht)).
    + apply (untracked_delta g st
        (mkBalanceUpdate A 0 0 None 0 0 0 None 0 None None TxReason) Hinv s Ht).
Qed.

(** [C8]  The three updates of delegated epoch rewards stay chained: whenever
    two recorded updates of an address are linked, the second starts, in
    balance and in stake, exactly where the first ends; and the set of changed
    addresses is the set of the addresses of the recorded updates. *)
Theorem linked_updates_meet es :
  orderly es = true →
  wp (run_events es) (λ _ st,
    (∀ A prev next, by_reason st EpochRewardReason A = Some prev →
       (by_reason st DelegatorEpochRewardReason A = Some next ∨
        by_reason st DelegateeEpochRewardReason A = Some next) →
       ∃ u v, ((bu_store st !! prev = Some u ∧ bu_store st !! next = Some v) ∨
               (bu_store st !! next = Some u ∧ bu_store st !! prev = Some v)) ∧
              ∀ s, new s u = old s v) ∧
    ∀ A, A ∈ bu_addrs st ↔
      ∃ p u, p ∈ bu_recorded st ∧ bu_store st !! p = Some u ∧ u_Address u = A) emptyBu.
Proof.
  intros [g Hg]%orderly_track. eapply wp_mono; [apply (wp_run_events ∅ g)|].
  - apply empty_inv.
  - done.
  - done.
  - intros [] st Hinv. split; [|apply (inv_addrs _ _ Hinv)].
    intros A prev next Hprev Hnext. pose proof (inv_shape _ _ Hinv A) as Hsh.
    destruct (inv_by _ _ Hinv _ _ _ Hprev) as (Hin & _ & u & Hu & _ & HuA).
    destruct (g !! A) as [t|] eqn:Ht; [|by destruct (inv_untracked _ _ Hinv A Ht prev u)].
    destruct (tk_role _ _ _ (inv_tracked _ _ Hinv A t Ht)) as [R1 R2].
    assert (partner st A = Some next) as Hp.
    { unfold partner. destruct Hnext as [-> | Hn]; [done|].
      destruct (by_reason st DelegatorEpochRewardReason A); [|done].
      rewrite R1 in R2 by eauto. rewrite Hn in R2. by specialize (R2 ltac:(eauto)). }
    unfold epoch_shape in Hsh. rewrite Hprev, Hp in Hsh.
    destruct Hsh as [(_ & _ & _ & _ & x & y & ? & ? & ?)|[(_ & _ & _ & _ & x & y & ? & ? & ?) _]];
      exists x, y; tauto.
Qed.

(** A [Begin] call observes every address it touches exactly once, whatever
    addresses coincide: the pending updates hold the old values of the touched
    addresses, which are pairwise different. *)
Theorem begin_observes_once b w st :
  bu_pending st = [] →
  wp (begin b w) (λ _ st', NoDup (p_Address <$> bu_pending st') ∧
    bu_pending st' = observe b w <$> touched b) st.
Proof.
  intros Hp. eapply wp_mono; [apply begin_appends|]. intros _ st' [_ E].
  rewrite Hp, app_nil_l in E. rewrite E. split; [|done]. rewrite <- list_fmap_compose.
  rewrite (list_fmap_ext _ id); [|done]. rewrite list_fmap_id. apply touched_NoDup.
Qed.
End properties.

(** ** Concrete runs *)

(** Address 1 holds [d] and stakes [k], address 2 holds [p]. *)
Definition sample_holdings (d k p : Z) : AppState :=
  {| GetBalance a := if decide (a = mkAddress 1) then d
                     else if decide (a = mkAddress 2) then p else 0%Z;
     GetStakeBalance a := if decide (a = mkAddress 1) then k else 0%Z;
     GetIdentity _ := sample_identity; GetCodeHash _ := None; GetShardId _ := 1%Z;
     PoolSize _ := 0%Z; IsPool _ := false; IsOnlineIdentity _ := false;
     IterateOverIdentities := []; IterateAccounts := []; Delegations := [];
     OnlineSize := 0%Z; ValidatorsSize := 0%Z; Epoch := 0%Z; EpochBlock := 0%Z |}.

(** Two epoch rewards of the delegator 1, whose balance goes to the pool 2, and
    between them a reward of the pool itself. *)
Definition sample_events : list Event :=
  [mkEvent (BeginEpochReward (mkAddress 2) (mkAddress 1))
     (sample_holdings 5 10 100) (sample_holdings 5 14 130);
   mkEvent (BeginEpochReward (mkAddress 2) (mkAddress 2))
     (sample_holdings 5 14 130) (sample_holdings 5 14 131);
   mkEvent (BeginTx sample_tx [mkAddress 7]) (sample_holdings 5 14 131) (sample_holdings 5 14 131);
   mkEvent (BeginEpochReward (mkAddress 2) (mkAddress 1))
     (sample_holdings 5 14 131) (sample_holdings 5 19 151)].

Lemma balance_updates_conserve_witness :
  orderly sample_events = true ∧
  wp (run_events sample_events) (λ _ st, ∀ A s,
    recorded_delta s A st = sumZ (event_delta s A) sample_events) emptyBu.
Proof.
  split; [vm_compute; reflexivity|].
  apply (balance_updates_conserve sample_events). vm_compute. reflexivity.
Defined.

Lemma linked_updates_meet_witness :
  orderly sample_events = true ∧
  wp (run_events sample_events) (λ _ st,
    (∀ A prev next, by_reason st EpochRewardReason A = Some prev →
       (by_reason st DelegatorEpochRewardReason A = Some next ∨
        by_reason st DelegateeEpochRewardReason A = Some next) →
       ∃ u v, ((bu_store st !! prev = Some u ∧ bu_store st !! next = Some v) ∨
               (bu_store st !! next = Some u ∧ bu_store st !! prev = Some v)) ∧
              ∀ s, new s u = old s v) ∧
    ∀ A, A ∈ bu_addrs st ↔
      ∃ p u, p ∈ bu_recorded st ∧ bu_store st !! p = Some u ∧ u_Address u = A) emptyBu.
Proof.
  split; [vm_compute; reflexivity|].
  apply (linked_updates_meet sample_events). vm_compute. reflexivity.
Defined.

Lemma begin_observes_once_witness :
  bu_pending emptyBu = [] ∧
  wp (begin (BeginTx sample_tx [mkAddress 1; mkAddress 7; mkAddress 7]) sample_state)
     (λ _ st', NoDup (p_Address <$> bu_pending st') ∧
        bu_pending st' = observe (BeginTx sample_tx [mkAddress 1; mkAddress 7; mkAddress 7])
                           sample_state
          <$> touched (BeginTx sample_tx [mkAddress 1; mkAddress 7; mkAddress 7])) emptyBu.
Proof.
  split; [reflexivity|].
  apply (begin_observes_once (BeginTx sample_tx [mkAddress 1; mkAddress 7; mkAddress 7])
           sample_state emptyBu). reflexivity.
Defined.

(** The recorded updates of the run: the delegator's reward and its transfer,
    the pool's update and its own reward: four after merging. *)
Example sample_events_recorded :
  match run_events sample_events emptyBu with
  | Done (_, st) =>
      length (bu_recorded st) = 4%nat ∧
      recorded_delta false (mkAddress 2) st = 51%Z ∧
      recorded_delta false (mkAddress 1) st = 0%Z ∧
      recorded_delta true (mkAddress 1) st = 9%Z
  | Panic => False
  end.
Proof. vm_compute. repeat split. Qed.

(** The order matters: when a transaction of the same address is recorded
    between two committee rewards, the second is merged into an update that no
    longer ends where it starts, and the transaction is counted twice. *)
Example interrupted_merge_counts_twice :
  let es :=
    [mkEvent (BeginCommitteeReward (mkAddress 1) (mkAddress 1) None)
       (sample_holdings 0 0 0) (sample_holdings 10 0 0);
     mkEvent (BeginTx sample_tx []) (sample_holdings 10 0 0) (sample_holdings 17 0 0);
     mkEvent (BeginCommitteeReward (mkAddress 1) (mkAddress 1) None)
       (sample_holdings 17 0 0) (sample_holdings 19 0 0)] in
  orderly es = false ∧
  sumZ (event_delta false (mkAddress 1)) es = 19%Z ∧
  match run_events es emptyBu with
  | Done (_, st) => recorded_delta false (mkAddress 1) st = 26%Z
  | Panic => False
  end.
Proof. vm_compute. repeat split. Qed.
