(* ===== verification/ContractTypes.v ===== *)
(** * Contracts: the records the collector fills

    db/types.go, the structures of the embedded contracts (oracle voting, oracle
    lock, refundable oracle lock, multisig, time lock), one for each deployment,
    call and termination, and the structures of the balance updates of contract
    transactions. *)

From S2P Require Import Prelude Node.

(** Go: db/types.go Contract *)
Record Contract := mkContract {
  wc_TxHash : Hash;
  wc_ContractAddress : Address;
  wc_Code : bytes
}.

(** Go: db/types.go OracleVotingContract *)
Record OracleVotingContract := mkOracleVotingContract {
  ovc_TxHash : Hash;
  ovc_ContractAddress : Address;
  ovc_Stake : option Z;
  ovc_StartTime : Z;
  ovc_VotingDuration : Z;
  ovc_VotingMinPayment : option Z;
  ovc_Fact : bytes;
  ovc_State : Z;
  ovc_PublicVotingDuration : Z;
  ovc_WinnerThreshold : Z;
  ovc_Quorum : Z;
  ovc_CommitteeSize : Z;
  ovc_OwnerFee : Z;
  ovc_OwnerDeposit : option Z;
  ovc_OracleRewardFund : option Z;
  ovc_RefundRecipient : option Address;
  ovc_Hash : bytes;
  ovc_NetworkSize : Z
}.

(** Go: db/types.go OracleVotingContractCallStart *)
Record OracleVotingContractCallStart := mkOracleVotingContractCallStart {
  ovs_TxHash : Hash;
  ovs_State : Z;
  ovs_StartHeight : Z;
  ovs_Epoch : Z;
  ovs_VotingMinPayment : option Z;
  ovs_VrfSeed : bytes;
  ovs_Committee : list Address;
  ovs_CommitteeSize : Z
}.

(** Go: db/types.go OracleVotingContractCallVoteProof *)
Record OracleVotingContractCallVoteProof := mkOracleVotingContractCallVoteProof {
  ovp_TxHash : Hash;
  ovp_VoteHash : bytes;
  ovp_Votes : Z;
  ovp_NewSecretVotesCount : option Z;
  ovp_DiscriminatedNewbie : bool;
  ovp_DiscriminatedDelegation : bool;
  ovp_DiscriminatedStake : bool
}.

(** Go: db/types.go OracleVotingContractCallVote *)
Record OracleVotingContractCallVote := mkOracleVotingContractCallVote {
  ovv_TxHash : Hash;
  ovv_Vote : Z;
  ovv_Salt : bytes;
  ovv_OptionVotes : option Z;
  ovv_OptionAllVotes : Z;
  ovv_SecretVotesCount : option Z;
  ovv_Delegatee : option Address;
  ovv_DiscriminatedNewbie : bool;
  ovv_DiscriminatedDelegation : bool;
  ovv_DiscriminatedStake : bool;
  ovv_PrevPoolVote : option Z;
  ovv_PrevOptionVotes : option Z
}.

(** Go: db/types.go OracleVotingContractCallFinish *)
Record OracleVotingContractCallFinish := mkOracleVotingContractCallFinish {
  ovf_TxHash : Hash;
  ovf_State : Z;
  ovf_Result : option Z;
  ovf_Fund : option Z;
  ovf_OracleReward : option Z;
  ovf_OwnerReward : option Z
}.

(** Go: db/types.go OracleVotingContractCallProlongation *)
Record OracleVotingContractCallProlongation := mkOracleVotingContractCallProlongation {
  ovl_TxHash : Hash;
  ovl_Epoch : Z;
  ovl_StartBlock : option Z;
  ovl_VrfSeed : bytes;
  ovl_EpochWithoutGrowth : option Z;
  ovl_ProlongVoteCount : option Z;
  ovl_Committee : list Address;
  ovl_CommitteeSize : Z
}.

(** Go: db/types.go OracleVotingContractCallAddStake *)
Record OracleVotingContractCallAddStake := mkOracleVotingContractCallAddStake {
  ova_TxHash : Hash
}.

(** Go: db/types.go OracleVotingContractTermination *)
Record OracleVotingContractTermination := mkOracleVotingContractTermination {
  ovt_TxHash : Hash;
  ovt_Fund : option Z;
  ovt_OracleReward : option Z;
  ovt_OwnerReward : option Z
}.

(** Go: db/types.go OracleLockContract *)
Record OracleLockContract := mkOracleLockContract {
  olc_TxHash : Hash;
  olc_ContractAddress : Address;
  olc_Stake : option Z;
  olc_OracleVotingAddress : Address;
  olc_ExpectedValue : Z;
  olc_SuccessAddress : Address;
  olc_FailAddress : Address
}.

(** Go: db/types.go OracleLockContractCallCheckOracleVoting *)
Record OracleLockContractCallCheckOracleVoting := mkOracleLockContractCallCheckOracleVoting {
  olk_TxHash : Hash;
  olk_OracleVotingResult : option Z
}.

(** Go: db/types.go OracleLockContractCallPush *)
Record OracleLockContractCallPush := mkOracleLockContractCallPush {
  olp_TxHash : Hash;
  olp_Success : bool;
  olp_OracleVotingResult : Z;
  olp_Transfer : option Z
}.

(** Go: db/types.go OracleLockContractTermination *)
Record OracleLockContractTermination := mkOracleLockContractTermination {
  olt_TxHash : Hash;
  olt_Dest : Address
}.

(** Go: db/types.go RefundableOracleLockContract *)
Record RefundableOracleLockContract := mkRefundableOracleLockContract {
  rlc_TxHash : Hash;
  rlc_ContractAddress : Address;
  rlc_Stake : option Z;
  rlc_OracleVotingAddress : Address;
  rlc_ExpectedValue : Z;
  rlc_SuccessAddress : option Address;
  rlc_FailAddress : option Address;
  rlc_RefundDelay : Z;
  rlc_DepositDeadline : Z;
  rlc_OracleVotingFeeOld : Z;
  rlc_OracleVotingFee : Z
}.

(** Go: db/types.go RefundableOracleLockContractCallDeposit *)
Record RefundableOracleLockContractCallDeposit := mkRefundableOracleLockContractCallDeposit {
  rld_TxHash : Hash;
  rld_OwnSum : option Z;
  rld_Sum : option Z;
  rld_Fee : option Z
}.

(** Go: db/types.go RefundableOracleLockContractCallPush *)
Record RefundableOracleLockContractCallPush := mkRefundableOracleLockContractCallPush {
  rlp_TxHash : Hash;
  rlp_State : Z;
  rlp_OracleVotingExists : bool;
  rlp_OracleVotingResult : option Z;
  rlp_Transfer : option Z;
  rlp_RefundBlock : Z
}.

(** Go: db/types.go RefundableOracleLockContractCallRefund *)
Record RefundableOracleLockContractCallRefund `{NodeApi} := mkRefundableOracleLockContractCallRefund {
  rlr_TxHash : Hash;
  rlr_Balance : option Z;
  rlr_Coef : Float64
}.

(** Go: db/types.go RefundableOracleLockContractTermination *)
Record RefundableOracleLockContractTermination := mkRefundableOracleLockContractTermination {
  rlt_TxHash : Hash;
  rlt_Dest : Address
}.

(** Go: db/types.go MultisigContract *)
Record MultisigContract := mkMultisigContract {
  msc_TxHash : Hash;
  msc_ContractAddress : Address;
  msc_Stake : option Z;
  msc_MinVotes : Z;
  msc_MaxVotes : Z;
  msc_State : Z
}.

(** Go: db/types.go MultisigContractCallAdd *)
Record MultisigContractCallAdd := mkMultisigContractCallAdd {
  msa_TxHash : Hash;
  msa_Address : Address;
  msa_NewState : option Z
}.

(** Go: db/types.go MultisigContractCallSend *)
Record MultisigContractCallSend := mkMultisigContractCallSend {
  mss_TxHash : Hash;
  mss_Dest : Address;
  mss_Amount : option Z
}.

(** Go: db/types.go MultisigContractCallPush *)
Record MultisigContractCallPush := mkMultisigContractCallPush {
  msp_TxHash : Hash;
  msp_Dest : Address;
  msp_Amount : option Z;
  msp_VoteAddressCnt : Z;
  msp_VoteAmountCnt : Z
}.

(** Go: db/types.go MultisigContractTermination *)
Record MultisigContractTermination := mkMultisigContractTermination {
  mst_TxHash : Hash;
  mst_Dest : Address
}.

(** Go: db/types.go TimeLockContract *)
Record TimeLockContract := mkTimeLockContract {
  tlc_TxHash : Hash;
  tlc_ContractAddress : Address;
  tlc_Stake : option Z;
  tlc_Timestamp : Z
}.

(** Go: db/types.go TimeLockContractCallTransfer *)
Record TimeLockContractCallTransfer := mkTimeLockContractCallTransfer {
  tlx_TxHash : Hash;
  tlx_Dest : Address;
  tlx_Amount : option Z
}.

(** Go: db/types.go TimeLockContractTermination *)
Record TimeLockContractTermination := mkTimeLockContractTermination {
  tlt_TxHash : Hash;
  tlt_Dest : Address
}.

(** Go: db/types.go ContractTxBalanceUpdate *)
Record ContractTxBalanceUpdate := mkContractTxBalanceUpdate {
  cbu_Address : Address;
  cbu_BalanceOld : option Z;
  cbu_BalanceNew : option Z;
  cbu_ContractAddress : option Address
}.

(** Go: db/types.go ContractTxBalanceUpdates *)
Record ContractTxBalanceUpdates := mkContractTxBalanceUpdates {
  cbs_TxHash : Hash;
  cbs_ContractAddress : Address;
  cbs_ContractCallMethod : option Z;
  cbs_Updates : list ContractTxBalanceUpdate
}.

(** Go: db/types.go RemovedTransitiveDelegation *)
Record RemovedTransitiveDelegation := mkRemovedTransitiveDelegation {
  rtd_Delegator : Address;
  rtd_Delegatee : Address
}.

(** Go: db/types.go DelegationHistoryUpdate *)
Record DelegationHistoryUpdate := mkDelegationHistoryUpdate {
  dhu_DelegatorAddress : Address;
  dhu_DelegationTx : option Hash;
  dhu_DelegationBlockHeight : option Z;
  dhu_UndelegationReason : option Z;
  dhu_UndelegationTx : option Hash;
  dhu_UndelegationBlockHeight : option Z
}.
