(* ===== verification/Tokens.v ===== *)
(** * Tokens

    core/stats/collector_contract.go: reading a token contract through the
    virtual machine, finding in the receipts of a block the holders whose token
    balance may have changed, and keeping their balances. *)

From S2P Require Import Prelude Node.

(** ** Reading a token contract *)

(** Go: core/stats/collector_contract.go Token:39-42 *)
Record Token := mkToken { tn_Name : bytes; tn_Symbol : bytes; tn_Decimals : Z }.

(** Go: core/stats/collector_contract.go TokenContractHolder

    [None] is an error. *)
Class TokenContractHolder := {
  Info : AppState → Address → option Token;
  Balance : AppState → Address → bytes → option Z
}.

(** An error: [None] is nil. *)
Abbreviation error := (option string).

(** [errors.Wrap] and [errors.Wrapf]: nil when the error is nil *)
Definition Wrap (err : error) (message : string) : error :=
  (λ e, String.append message (String.append ": " e)) <$> err.

(** What the virtual machine answers to a call. *)
Record VmReceipt := mkVmReceipt {
  vm_Success : bool; vm_Error : error; vm_ActionResult : bytes
}.

(** The node and the codecs a call goes through. *)
Class TokenVm := {
  attachment_ToBytes : string → list bytes → bytes + string;
  vm_Run : AppState → Address → bytes → VmReceipt;
  Unmarshal_ActionResult : bytes → bytes + string;
  hex_args : bytes → list bytes
}.

Section reading.
Context `{NodeApi, TokenVm}.

(** Go: core/stats/collector_contract.go call *)
Definition call (contractAddress : Address) (method : string) (args : list bytes)
    (appState : AppState) : bytes * error :=
  match attachment_ToBytes method args with
  | inr err => ([], Wrap (Some err) "failed to build payload")
  | inl payload =>
      let txReceipt := vm_Run appState contractAddress payload in
      if negb (vm_Success txReceipt) then
        ([], Wrap (vm_Error txReceipt) "failed to call getBalance")
      else
        match Unmarshal_ActionResult (vm_ActionResult txReceipt) with
        | inr err => ([], Wrap (vm_Error txReceipt) "invalid ActionResult")
        | inl outputData => (outputData, None)
        end
  end.

(** Go: core/stats/collector_contract.go TokenContractHolderImpl.Info *)
Definition Info_impl (appState : AppState) (contractAddress : Address) : Token + string :=
  match call contractAddress "name" [] appState with
  | (_, Some err) => inr err
  | (name, None) =>
      match call contractAddress "symbol" [] appState with
      | (_, Some err) => inr err
      | (symbol, None) =>
          match call contractAddress "decimals" [] appState with
          | (_, Some err) => inr err
          | (outputData, None) =>
              match ExtractByte outputData with
              | (v, true) => inl (mkToken name symbol v)
              | (_, false) => inr "ExtractByte"%string
              end
          end
      end
  end.

(** Go: core/stats/collector_contract.go TokenContractHolderImpl.Balance *)
Definition Balance_impl (appState : AppState) (contractAddress : Address) (address : bytes)
    : Z + string :=
  match call contractAddress "getBalance" (hex_args address) appState with
  | (_, Some err) => inr err
  | (outputData, None) => inl (foldl (λ acc x, acc * 256 + x)%Z 0%Z outputData)
  end.

Definition to_option {A} (r : A + string) : option A :=
  match r with inl a => Some a | inr _ => None end.

(** [TokenContractHolderImpl] as a [TokenContractHolder] *)
Definition TokenContractHolderImpl : TokenContractHolder :=
  {| Info w c := to_option (Info_impl w c); Balance w c a := to_option (Balance_impl w c a) |}.

(** A balance the contract answers with a malformed result is read as
    zero and not as an error: the decoding error is replaced by the error of the
    receipt, which is nil when the call succeeded. *)
Theorem malformed_balance_is_zero w c a payload r err :
  attachment_ToBytes "getBalance" (hex_args a) = inl payload →
  vm_Run w c payload = r → vm_Success r = true → vm_Error r = None →
  Unmarshal_ActionResult (vm_ActionResult r) = inr err →
  Balance_impl w c a = inl 0%Z.
Proof.
  intros Hp <- Hs He Hu. unfold Balance_impl, call.
  rewrite Hp. cbn. rewrite Hs. cbn. rewrite Hu, He. done.
Qed.

(** A failing call is an error when the receipt carries one. *)
Lemma failed_call_is_error w c a payload e :
  attachment_ToBytes "getBalance" (hex_args a) = inl payload →
  vm_Success (vm_Run w c payload) = false → vm_Error (vm_Run w c payload) = Some e →
  ∃ e', Balance_impl w c a = inr e'.
Proof.
  intros Hp Hs He. unfold Balance_impl, call. rewrite Hp. cbn. rewrite Hs. cbn.
  rewrite He. cbn. eauto.
Qed.
End reading.

Definition SampleVm : TokenVm :=
  {| attachment_ToBytes _ _ := inl []; vm_Run _ _ _ := mkVmReceipt true None [7%Z];
     Unmarshal_ActionResult _ := inr "bad"%string; hex_args a := [a] |}.

Lemma malformed_balance_is_zero_witness :
  @attachment_ToBytes SampleVm "getBalance" (@hex_args SampleVm [1%Z]) = inl [] ∧
  @Balance_impl SampleVm sample_state (mkAddress 1) [1%Z] = inl 0%Z.
Proof.
  split; [reflexivity|].
  apply (@malformed_balance_is_zero SampleVm sample_state (mkAddress 1) [1%Z]
           [] (mkVmReceipt true None [7%Z]) "bad"); reflexivity.
Defined.

(** ** The holders of a receipt *)

(** Go: core/stats/collector_contract.go tokenBalanceUpdate *)
Record tokenBalanceUpdate := mkTokenBalanceUpdate {
  tb_contractAddress : Address;
  tb_address : Address;
  tb_addressBytes : bytes;
  tb_balance : option Z
}.

(** Go: db/types.go TokenBalance *)
Record TokenBalance := mkTokenBalance {
  tk_ContractAddress : Address; tk_Address : Address; tk_Balance : Z
}.

(** Go: core/stats/collector_contract.go tokenBalanceUpdateCollector

    The entries of the two-level map are positions of [updates]. *)
Record tokenBalanceUpdateCollector := mkTokenBalanceUpdateCollector {
  tc_updates : list tokenBalanceUpdate;
  tc_updatesByContractAndAddress : gmap Address (gmap Address nat)
}.

Definition emptyTokenCollector : tokenBalanceUpdateCollector :=
  mkTokenBalanceUpdateCollector [] ∅.

Section updates.
Context `{NodeApi}.

(** Go: core/stats/collector_contract.go detectTokenBalanceUpdate *)
Definition detectTokenBalanceUpdate (holder : bytes) (contract : Address)
    : option tokenBalanceUpdate :=
  let b := if (length holder <? 20)%nat
           then holder ++ replicate (20 - length holder) 0%Z else holder in
  let address := address_SetBytes b in
  if decide (address = zeroAddress) then None
  else Some (mkTokenBalanceUpdate contract address holder None).

(** Go: core/stats/collector_contract.go detectTransferTokenBalanceUpdates *)
Definition detectTransferTokenBalanceUpdates (event : TxEvent) : list tokenBalanceUpdate :=
  match ev_Data event with
  | [sender; receiver; _] =>
      option_list (detectTokenBalanceUpdate sender (ev_Contract event))
      ++ option_list (detectTokenBalanceUpdate receiver (ev_Contract event))
  | _ => []
  end.

(** Go: core/stats/collector_contract.go detectAirdropTokenBalanceUpdate *)
Definition detectAirdropTokenBalanceUpdate (event : TxEvent) : option tokenBalanceUpdate :=
  match ev_Data event with
  | [holder; _] => detectTokenBalanceUpdate holder (ev_Contract event)
  | _ => None
  end.

(** Go: core/stats/collector_contract.go detectTokenBalanceUpdates *)
Definition detectTokenBalanceUpdates (event : TxEvent) : list tokenBalanceUpdate :=
  let name := ToLower (ev_EventName event) in
  if decide (name = "transfer"%string) then detectTransferTokenBalanceUpdates event
  else if decide (name = "airdrop"%string) then option_list (detectAirdropTokenBalanceUpdate event)
  else [].

(** The updates a receipt adds, in order. *)
Definition receipt_updates (r : TxReceipt) : list tokenBalanceUpdate :=
  (if bool_decide (ToLower (rc_Method r) = "burn"%string) && (length (rc_Events r) =? 0)%nat
   then option_list (detectTokenBalanceUpdate (address_Bytes (rc_From r)) (rc_ContractAddress r))
   else [])
  ++ (rc_Events r ≫= detectTokenBalanceUpdates).

(** The closure [add] of [applyTxReceipt]. *)
Definition tc_add (c : tokenBalanceUpdateCollector) (update : tokenBalanceUpdate)
    : tokenBalanceUpdateCollector :=
  let contractUpdates :=
    default ∅ (tc_updatesByContractAndAddress c !! tb_contractAddress update) in
  match contractUpdates !! tb_address update with
  | Some i => c <| tc_updates ::= alter (λ u, u <| tb_balance := None |>) i |>
  | None => mkTokenBalanceUpdateCollector (tc_updates c ++ [update])
      (<[tb_contractAddress update :=
           <[tb_address update := length (tc_updates c)]> contractUpdates]>
        (tc_updatesByContractAndAddress c))
  end.

Context `{TokenContractHolder}.

(** The balance of an update, read when it is not known. *)
Definition refresh (appState : AppState) (u : tokenBalanceUpdate) : tokenBalanceUpdate :=
  match tb_balance u with
  | Some _ => u
  | None => u <| tb_balance := Balance appState (tb_contractAddress u) (tb_addressBytes u) |>
  end.

Definition to_balance (u : tokenBalanceUpdate) : list TokenBalance :=
  match tb_balance u with
  | Some b => [mkTokenBalance (tb_contractAddress u) (tb_address u) b]
  | None => []
  end.

(** Go: core/stats/collector_contract.go applyTxReceipt *)
Definition applyTxReceipt (c : tokenBalanceUpdateCollector) (txReceipt : TxReceipt)
    (appState : AppState) : tokenBalanceUpdateCollector * list TokenBalance :=
  let c := foldl tc_add c (receipt_updates txReceipt) in
  let c := c <| tc_updates ::= fmap (refresh appState) |> in
  (c, tc_updates c ≫= to_balance).

(** Go: core/stats/collector_contract.go detectTokens *)
Fixpoint detectTokens (contracts : list Address) (appState : AppState)
    : list (Address * Token) :=
  match contracts with
  | [] => []
  | c :: contracts =>
      match Info appState c with
      | Some t => (c, t) :: detectTokens contracts appState
      | None => detectTokens contracts appState
      end
  end.

(** ** Properties *)

(** The index holds the position of every update, and no two updates are of one
    holder of one contract. *)
Definition tc_find (c : tokenBalanceUpdateCollector) (k a : Address) : option nat :=
  default ∅ (tc_updatesByContractAndAddress c !! k) !! a.

Definition tc_wf (c : tokenBalanceUpdateCollector) : Prop :=
  (∀ i u, tc_updates c !! i = Some u → tc_find c (tb_contractAddress u) (tb_address u) = Some i) ∧
  (∀ k a i, tc_find c k a = Some i →
     ∃ u, tc_updates c !! i = Some u ∧ tb_contractAddress u = k ∧ tb_address u = a).

Lemma tc_find_insert c k a i k' a' ups :
  tc_find (mkTokenBalanceUpdateCollector ups
    (<[k := <[a := i]> (default ∅ (tc_updatesByContractAndAddress c !! k))]>
       (tc_updatesByContractAndAddress c))) k' a'
  = if decide (k = k' ∧ a = a') then Some i else tc_find c k' a'.
Proof.
  unfold tc_find. cbn. destruct (decide (k = k')) as [<-|Hk].
  - rewrite lookup_insert_eq. cbn. destruct (decide (a = a')) as [<-|Ha].
    + by rewrite lookup_insert_eq, decide_True.
    + by rewrite lookup_insert_ne, decide_False by tauto.
  - by rewrite lookup_insert_ne, decide_False by tauto.
Qed.

Lemma tc_add_wf c u : tc_wf c → tc_wf (tc_add c u).
Proof.
  intros [W1 W2]. unfold tc_add.
  change (default ∅ (tc_updatesByContractAndAddress c !! tb_contractAddress u)
            !! tb_address u) with (tc_find c (tb_contractAddress u) (tb_address u)).
  destruct (tc_find c (tb_contractAddress u) (tb_address u)) as [i|] eqn:Hf.
  - destruct (W2 _ _ _ Hf) as (v & Hv & Hk & Ha).
    assert (tc_updates (c <| tc_updates ::= alter (λ u, u <| tb_balance := None |>) i |>)
            = <[i := v <| tb_balance := None |>]> (tc_updates c)) as Eu
      by (cbn; by rewrite list_alter_insert_step with (x := v)).
    split.
    + intros j w. rewrite Eu. intros [(<- & <- & _)|[_ Hw]]%list_lookup_insert_Some.
      * cbn. by apply W1.
      * by apply W1.
    + intros k a j Hj. destruct (W2 k a j Hj) as (w & Hw & ? & ?). rewrite Eu.
      destruct (decide (i = j)) as [<-|Hne].
      * exists (v <| tb_balance := None |>). simplify_eq.
        rewrite list_lookup_insert_eq; [done|]. by eapply lookup_lt_Some.
      * exists w. by rewrite list_lookup_insert_ne.
  - split.
    + intros j w. cbn. rewrite tc_find_insert.
      intros [[Hlt Hw]|[-> <-]]%lookup_snoc_Some.
      * rewrite decide_False; [by apply W1|]. intros [Hk Ha].
        rewrite Hk, Ha, (W1 j w Hw) in Hf. done.
      * by rewrite decide_True.
    + intros k a j. rewrite tc_find_insert. destruct (decide _) as [[<- <-]|_].
      * intros [= <-]. exists u. cbn. by rewrite lookup_app_r, Nat.sub_diag by lia.
      * intros Hj. destruct (W2 k a j Hj) as (w & Hw & ? & ?). exists w. cbn.
        split; [by apply lookup_app_l_Some|done].
Qed.

Lemma tc_add_all_wf c us : tc_wf c → tc_wf (foldl tc_add c us).
Proof. revert c. induction us as [|u us IH]; intros c Hc; cbn; [done|]. by apply IH, tc_add_wf. Qed.

Lemma refresh_key w u :
  tb_contractAddress (refresh w u) = tb_contractAddress u ∧
  tb_address (refresh w u) = tb_address u.
Proof. unfold refresh. by destruct (tb_balance u). Qed.

Lemma refresh_wf c w : tc_wf c → tc_wf (c <| tc_updates ::= fmap (refresh w) |>).
Proof.
  intros [W1 W2]. split.
  - intros i u. cbn. rewrite list_lookup_fmap. intros (v & Hv & ->)%fmap_Some.
    destruct (refresh_key w v) as [-> ->]. by apply W1.
  - intros k a i Hi. destruct (W2 k a i Hi) as (v & Hv & <- & <-).
    exists (refresh w v). split; [|apply refresh_key].
    change ((refresh w <$> tc_updates c) !! i = Some (refresh w v)).
    by rewrite list_lookup_fmap, Hv.
Qed.

(** The collector keeps one update for a holder of a contract through any
    number of receipts, so the balances a receipt returns name every holder of
    every contract at most once. *)
Theorem token_balances_unique c r w :
  tc_wf c →
  tc_wf (applyTxReceipt c r w).1 ∧
  NoDup ((λ b, (tk_ContractAddress b, tk_Address b)) <$> (applyTxReceipt c r w).2).
Proof.
  intros Hc. set (c' := (applyTxReceipt c r w).1).
  assert (tc_wf c') as Hc' by (apply refresh_wf, tc_add_all_wf, Hc).
  split; [done|]. change (applyTxReceipt c r w).2 with (tc_updates c' ≫= to_balance).
  assert (∀ l, (∀ i j u v, l !! i = Some u → l !! j = Some v →
      tb_contractAddress u = tb_contractAddress v → tb_address u = tb_address v → i = j) →
    NoDup ((λ b, (tk_ContractAddress b, tk_Address b)) <$> (l ≫= to_balance))) as Hgen.
  { induction l as [|u l IH]; intros Hl; cbn; [constructor|].
    assert (NoDup ((λ b, (tk_ContractAddress b, tk_Address b)) <$> (l ≫= to_balance))) as Htl.
    { apply IH. intros i j x y Hi Hj Hk Ha. specialize (Hl (S i) (S j) x y Hi Hj Hk Ha). lia. }
    unfold to_balance at 1. destruct (tb_balance u) as [b|]; cbn; [|exact Htl].
    constructor; [|exact Htl]. intros (b' & Heq & Hb')%list_elem_of_fmap.
    apply list_elem_of_bind in Hb' as (v & Hb' & [j Hj]%list_elem_of_lookup).
    unfold to_balance in Hb'. destruct (tb_balance v); [|by apply elem_of_nil in Hb'].
    apply list_elem_of_singleton in Hb' as ->. cbn in Heq. simplify_eq.
    by specialize (Hl 0 (S j) u v eq_refl Hj ltac:(done) ltac:(done)). }
  apply Hgen. intros i j u v Hi Hj Hk Ha. destruct Hc' as [W1 _].
  pose proof (W1 i u Hi) as H1. pose proof (W1 j v Hj) as H2.
  rewrite Hk, Ha, H2 in H1. by simplify_eq.
Qed.

(** The balance of the holder has to be read again. *)
Definition tc_stale (c : tokenBalanceUpdateCollector) (k a : Address) : Prop :=
  ∃ v, v ∈ tc_updates c ∧ tb_contractAddress v = k ∧ tb_address v = a ∧ tb_balance v = None.

Lemma tc_add_stale c u k a :
  tc_wf c → tb_balance u = None →
  tc_stale c k a ∨ (tb_contractAddress u = k ∧ tb_address u = a) → tc_stale (tc_add c u) k a.
Proof.
  intros [W1 W2] Hu Hor. unfold tc_add.
  change (default ∅ (tc_updatesByContractAndAddress c !! tb_contractAddress u)
            !! tb_address u) with (tc_find c (tb_contractAddress u) (tb_address u)).
  destruct (tc_find c (tb_contractAddress u) (tb_address u)) as [i|] eqn:Hf.
  - destruct (W2 _ _ _ Hf) as (v & Hv & Hk & Ha).
    assert (tc_updates (c <| tc_updates ::= alter (λ u, u <| tb_balance := None |>) i |>)
            = <[i := v <| tb_balance := None |>]> (tc_updates c)) as Eu
      by (cbn; by rewrite list_alter_insert_step with (x := v)).
    assert (i < length (tc_updates c))%nat as Hi by by eapply lookup_lt_Some.
    unfold tc_stale. rewrite Eu. destruct Hor as [(x & [j Hx]%list_elem_of_lookup & ? & ? & ?)|[<- <-]].
    + destruct (decide (i = j)) as [<-|Hne].
      * exists (v <| tb_balance := None |>). simplify_eq. split; [|done].
        apply list_elem_of_lookup. exists i. by rewrite list_lookup_insert_eq.
      * exists x. split; [|done]. apply list_elem_of_lookup. exists j.
        by rewrite list_lookup_insert_ne.
    + exists (v <| tb_balance := None |>). split; [|done].
      apply list_elem_of_lookup. exists i. by rewrite list_lookup_insert_eq.
  - unfold tc_stale. cbn. destruct Hor as [(x & Hx & ? & ? & ?)|[? ?]].
    + exists x. split; [|done]. apply elem_of_app. by left.
    + exists u. split; [|done]. apply elem_of_app. right. left.
Qed.

Lemma tc_add_all_stale us c k a :
  tc_wf c → Forall (λ u, tb_balance u = None) us →
  tc_stale c k a ∨ (∃ u, u ∈ us ∧ tb_contractAddress u = k ∧ tb_address u = a) →
  tc_stale (foldl tc_add c us) k a.
Proof.
  revert c. induction us as [|u us IH]; intros c Hc Hus Hor; cbn.
  { destruct Hor as [?|(u & Hu & _)]; [done|by apply elem_of_nil in Hu]. }
  apply list.Forall_cons in Hus as [Hu Hus]. apply IH; [by apply tc_add_wf|done|].
  destruct Hor as [?|(v & [->|Hv]%elem_of_cons & Hk & Ha)].
  - left. apply tc_add_stale; tauto.
  - left. apply tc_add_stale; tauto.
  - right. eauto.
Qed.

Lemma receipt_updates_unread r : Forall (λ u, tb_balance u = None) (receipt_updates r).
Proof.
  assert (∀ h k u, detectTokenBalanceUpdate h k = Some u → tb_balance u = None) as Hd.
  { intros h k u. unfold detectTokenBalanceUpdate. destruct (decide _); [done|]. by intros [= <-]. }
  assert (∀ h k, Forall (λ u, tb_balance u = None) (option_list (detectTokenBalanceUpdate h k)))
    as Hl.
  { intros h k. destruct (detectTokenBalanceUpdate h k) eqn:E; cbn; constructor; [eauto|constructor]. }
  unfold receipt_updates. apply list.Forall_app. split.
  - destruct (_ && _); [apply Hl|constructor].
  - apply list.Forall_forall. intros u (e & Hu & _)%list_elem_of_bind.
    unfold detectTokenBalanceUpdates, detectTransferTokenBalanceUpdates,
      detectAirdropTokenBalanceUpdate in Hu.
    repeat case_decide; [| |by apply elem_of_nil in Hu].
    + destruct (ev_Data e) as [|x [|y [|z [|? ?]]]]; try (by apply elem_of_nil in Hu).
      apply elem_of_app in Hu as [Hu|Hu]; revert u Hu; apply list.Forall_forall, Hl.
    + destruct (ev_Data e) as [|x [|y [|? ?]]]; try (by apply elem_of_nil in Hu).
      revert u Hu. apply list.Forall_forall, Hl.
Qed.

(** [C13]  A receipt makes the collector read again the balance of every holder
    it names, in the state it is applied to: for every update detected in it,
    the entry of that holder and contract holds what the token contract answers
    then, and the answer is among the balances returned. *)
Theorem touched_balances_are_read c r w u :
  tc_wf c → u ∈ receipt_updates r →
  ∃ v, v ∈ tc_updates (applyTxReceipt c r w).1 ∧
    tb_contractAddress v = tb_contractAddress u ∧ tb_address v = tb_address u ∧
    tb_balance v = Balance w (tb_contractAddress v) (tb_addressBytes v) ∧
    (∀ b, tb_balance v = Some b →
       mkTokenBalance (tb_contractAddress u) (tb_address u) b ∈ (applyTxReceipt c r w).2).
Proof.
  intros Hc Hu.
  destruct (tc_add_all_stale (receipt_updates r) c (tb_contractAddress u) (tb_address u) Hc
              (receipt_updates_unread r)) as (v & Hv & Hk & Ha & Hb); [right; eauto|].
  exists (refresh w v).
  assert (refresh w v ∈ tc_updates (applyTxReceipt c r w).1) as Hin.
  { change (refresh w v ∈ refresh w <$> tc_updates (foldl tc_add c (receipt_updates r))).
    by apply list_elem_of_fmap_2. }
  destruct (refresh_key w v) as [Ek Ea]. split_and!; [done|congruence|congruence| |].
  - rewrite Ek. unfold refresh. by rewrite Hb.
  - intros b Hbal. apply list_elem_of_bind. exists (refresh w v). split; [|exact Hin].
    unfold to_balance. rewrite Hbal, Ek, Ea, Hk, Ha. left.
Qed.
End updates.

(** A transfer of a token whose contract answers ten times the length of the
    holder's address. *)
Definition SampleHolder : TokenContractHolder :=
  {| Info _ _ := None; Balance _ _ a := Some (10 * Z.of_nat (length a))%Z |}.

Definition sample_receipt : TxReceipt :=
  mkTxReceipt true (mkHash 1) (mkAddress 1) (mkAddress 50) "call"
    [mkTxEvent "Transfer" (mkAddress 50) [replicate 20 1%Z; replicate 20 2%Z; [5%Z]]] 0 None None [].

Lemma emptyTokenCollector_wf : tc_wf emptyTokenCollector.
Proof.
  split; [by intros i u|]. intros k a i. unfold tc_find. cbn. rewrite lookup_empty. cbn.
  by rewrite lookup_empty.
Qed.

Lemma token_balances_unique_witness :
  tc_wf emptyTokenCollector ∧
  NoDup ((λ b, (tk_ContractAddress b, tk_Address b)) <$>
         (@applyTxReceipt _ SampleHolder emptyTokenCollector sample_receipt sample_state).2).
Proof.
  split; [apply emptyTokenCollector_wf|].
  apply (@token_balances_unique _ SampleHolder emptyTokenCollector sample_receipt sample_state
           emptyTokenCollector_wf).
Defined.

Lemma touched_balances_are_read_witness :
  let u := default (mkTokenBalanceUpdate zeroAddress zeroAddress [] None)
                   (head (receipt_updates sample_receipt)) in
  (u ∈ receipt_updates sample_receipt) ∧
  ∃ v, v ∈ tc_updates (@applyTxReceipt _ SampleHolder emptyTokenCollector sample_receipt
                         sample_state).1 ∧
    tb_contractAddress v = tb_contractAddress u ∧ tb_address v = tb_address u ∧
    tb_balance v = @Balance SampleHolder sample_state (tb_contractAddress v) (tb_addressBytes v) ∧
    (∀ b, tb_balance v = Some b →
       mkTokenBalance (tb_contractAddress u) (tb_address u) b
         ∈ (@applyTxReceipt _ SampleHolder emptyTokenCollector sample_receipt sample_state).2).
Proof.
  cbn zeta.
  assert (default (mkTokenBalanceUpdate zeroAddress zeroAddress [] None)
            (head (receipt_updates sample_receipt)) ∈ receipt_updates sample_receipt) as Hin
    by (vm_compute; left).
  split; [exact Hin|].
  exact (@touched_balances_are_read _ SampleHolder emptyTokenCollector sample_receipt sample_state
           _ emptyTokenCollector_wf Hin).
Defined.
