(* ===== verification/ContractTx.v ===== *)
(** * Contract transactions

    core/stats/collector.go, from [BeginApplyingTx] to [AddTxReceipt]: the
    transaction being applied, the balance changes and the burnt coins of its
    contract calls, kept in one cache per call frame, the records of the embedded
    contracts, and what a receipt publishes of them. *)

From S2P Require Import Prelude Node Coins ContractTypes Tokens.

(** ** Data *)

(** Go: core/stats/types.go IdentityStateChange *)
Record IdentityStateChange := mkIdentityStateChange {
  isc_PrevState : IdentityState;
  isc_NewState : IdentityState
}.

(** Go: db/types.go ActivationTx *)
Record ActivationTxRecord := mkActivationTxRecord {
  atx_TxHash : string;
  atx_InviteTxHash : string;
  atx_ShardId : Z
}.

(** Go: core/stats/collector.go contractBalanceUpdate

    With the [db.BalanceUpdate] it embeds; its stake and penalty never change. *)
Record ContractUpdate := mkContractUpdate {
  cu_Address : Address;
  cu_TxHash : Hash;
  cu_BalanceOld : option Z;
  cu_BalanceNew : option Z;
  cu_Stake : Z;
  cu_Penalty : option Z;
  cu_PenaltySeconds : Z;
  cu_contractAddress : option Address
}.

(** Go: core/stats/collector.go balanceUpdateCache

    The values of [updatesByAddress] are entries of [updates], by position. *)
Record UpdateCache := mkUpdateCache {
  uc_updates : list ContractUpdate;
  uc_updatesByAddress : gmap Address nat
}.

(** Go: core/stats/collector.go pendingBurntCoins

    [pb_termination]: the reason is [EmbeddedContractTerminationReason], and not
    [ContractReason]. *)
Record PendingBurnt := mkPendingBurnt {
  pb_address : Address;
  pb_amount : Z;
  pb_termination : bool
}.

(** Go: core/stats/collector.go burntCoinsCache *)
Record BurntCache := mkBurntCache {
  bn_coins : list PendingBurnt;
  bn_coinsByAddress : gmap Address nat
}.

(** Go: core/stats/collector.go oracleVotingCommitteeStartCtx *)
Record CommitteeStartCtx := mkCommitteeStartCtx { csc_committeeSize : Z; csc_networkSize : Z }.

(** Go: core/stats/collector.go identityInfo *)
Record identityInfo := mkIdentityInfo { ii_pubKey : bytes; ii_state : IdentityState }.

(** A [*map[common.Address]*big.Int], which identifies a call frame. *)
Abbreviation frame := positive.

(** Go: core/stats/collector.go pendingTx *)
Record PendingTx `{NodeApi} := mkPendingTx {
  pt_tx : Tx;
  pt_contractBalanceUpdateCache : gmap frame UpdateCache;
  pt_contractBalanceUpdates : list ContractUpdate;
  pt_contractBurntCoinsCache : gmap frame BurntCache;
  pt_contractBurntCoins : list PendingBurnt;
  pt_oracleVotingCommitteeStartCtx : option CommitteeStartCtx;
  pt_oracleVotingContractDeploy : option OracleVotingContract;
  pt_oracleVotingContractCallStart : option OracleVotingContractCallStart;
  pt_oracleVotingContractCallVoteProof : option OracleVotingContractCallVoteProof;
  pt_oracleVotingContractCallVote : option OracleVotingContractCallVote;
  pt_oracleVotingContractCallFinish : option OracleVotingContractCallFinish;
  pt_oracleVotingContractCallProlongation : option OracleVotingContractCallProlongation;
  pt_oracleVotingContractCallAddStake : option OracleVotingContractCallAddStake;
  pt_oracleVotingContractTermination : option OracleVotingContractTermination;
  pt_oracleLockContract : option OracleLockContract;
  pt_oracleLockContractCallCheckOracleVoting : option OracleLockContractCallCheckOracleVoting;
  pt_oracleLockContractCallPush : option OracleLockContractCallPush;
  pt_oracleLockContractTermination : option OracleLockContractTermination;
  pt_refundableOracleLockContract : option RefundableOracleLockContract;
  pt_refundableOracleLockContractCallDeposit : option RefundableOracleLockContractCallDeposit;
  pt_refundableOracleLockContractCallPush : option RefundableOracleLockContractCallPush;
  pt_refundableOracleLockContractCallRefund : option RefundableOracleLockContractCallRefund;
  pt_refundableOracleLockContractTermination : option RefundableOracleLockContractTermination;
  pt_multisigContract : option MultisigContract;
  pt_multisigContractCallAdd : option MultisigContractCallAdd;
  pt_multisigContractCallSend : option MultisigContractCallSend;
  pt_multisigContractCallPush : option MultisigContractCallPush;
  pt_multisigContractTermination : option MultisigContractTermination;
  pt_timeLockContract : option TimeLockContract;
  pt_timeLockContractCallTransfer : option TimeLockContractCallTransfer;
  pt_timeLockContractTermination : option TimeLockContractTermination;
  pt_inviteTxHash : option Hash;
  pt_deployedWasmContracts : gmap Address bytes
}.

(** Go: core/stats/types.go Stats

    The fields of the statistics of a block that the transactions fill. *)
Record TxStats `{NodeApi} := mkTxStats {
  ts_OracleVotingContracts : list OracleVotingContract;
  ts_OracleVotingContractCallStarts : list OracleVotingContractCallStart;
  ts_OracleVotingContractCallVoteProofs : list OracleVotingContractCallVoteProof;
  ts_OracleVotingContractCallVotes : list OracleVotingContractCallVote;
  ts_OracleVotingContractCallFinishes : list OracleVotingContractCallFinish;
  ts_OracleVotingContractCallProlongations : list OracleVotingContractCallProlongation;
  ts_OracleVotingContractCallAddStakes : list OracleVotingContractCallAddStake;
  ts_OracleVotingContractTerminations : list OracleVotingContractTermination;
  ts_OracleLockContracts : list OracleLockContract;
  ts_OracleLockContractCallCheckOracleVotings : list OracleLockContractCallCheckOracleVoting;
  ts_OracleLockContractCallPushes : list OracleLockContractCallPush;
  ts_OracleLockContractTerminations : list OracleLockContractTermination;
  ts_RefundableOracleLockContracts : list RefundableOracleLockContract;
  ts_RefundableOracleLockContractCallDeposits : list RefundableOracleLockContractCallDeposit;
  ts_RefundableOracleLockContractCallPushes : list RefundableOracleLockContractCallPush;
  ts_RefundableOracleLockContractCallRefunds : list RefundableOracleLockContractCallRefund;
  ts_RefundableOracleLockContractTerminations : list RefundableOracleLockContractTermination;
  ts_MultisigContracts : list MultisigContract;
  ts_MultisigContractCallAdds : list MultisigContractCallAdd;
  ts_MultisigContractCallSends : list MultisigContractCallSend;
  ts_MultisigContractCallPushes : list MultisigContractCallPush;
  ts_MultisigContractTerminations : list MultisigContractTermination;
  ts_TimeLockContracts : list TimeLockContract;
  ts_TimeLockContractCallTransfers : list TimeLockContractCallTransfer;
  ts_TimeLockContractTerminations : list TimeLockContractTermination;
  ts_NewActualOracleVotingContracts : list Address;
  ts_NewNotActualOracleVotingContracts : list Address;
  ts_Contracts : list Contract;
  ts_TxReceipts : list TxReceipt;
  ts_ContractTxsBalanceUpdates : list ContractTxBalanceUpdates;
  ts_BalanceUpdates : list ContractUpdate;
  ts_BalanceUpdateAddrs : gset Address;
  ts_IdentityStateChanges : gmap Hash (gmap Address IdentityStateChange);
  ts_FeesByTxHash : gmap Hash (option Z);
  ts_UsedGasByTxHash : gmap Hash Z;
  ts_BlockGasUsed : Z;
  ts_ActivationTxs : list ActivationTxRecord;
  ts_CandidateCountDiff : Z;
  ts_RemovedTransitiveDelegations : list RemovedTransitiveDelegation;
  ts_DelegationHistoryUpdates : list DelegationHistoryUpdate;
  ts_Tokens : list (Address * Token);
  ts_TokenBalanceUpdates : list TokenBalance
}.

Definition emptyTxStats `{NodeApi} : TxStats := mkTxStats _ [] [] [] [] [] [] [] [] [] [] [] [] [] [] [] [] [] [] [] [] [] [] [] [] []
  [] [] [] [] [] [] ∅ ∅ ∅ ∅ 0 [] 0 [] [] [] [].

(** The part of [statsCollector] the methods of this file read and write. *)
Record Ct `{NodeApi} := mkCt {
  ct_stats : TxStats;
  ct_coins : Coins;
  ct_pendingTx : option PendingTx;
  ct_identityStates : list IdentityState;
  ct_identitiesByAddr : gmap Address identityInfo;
  ct_tokens : tokenBalanceUpdateCollector
}.

Definition emptyCt `{NodeApi} : Ct := mkCt _ emptyTxStats emptyCoins None [] ∅ emptyTokenCollector.

Definition newPendingTx `{NodeApi} (tx : Tx) : PendingTx :=
  mkPendingTx _ tx ∅ [] ∅ [] None None None None None None None None None None None None None None None None None None None None None None None None None None None ∅.

(** The updates that change a balance, those of the sender, and the others. *)
Abbreviation changed_updates := (filter (λ u : ContractUpdate, cu_BalanceOld u ≠ cu_BalanceNew u)).
Abbreviation updates_of sender := (filter (λ u : ContractUpdate, cu_Address u = sender)).
Abbreviation updates_of_others sender := (filter (λ u : ContractUpdate, cu_Address u ≠ sender)).

Section operations.
Context `{NodeApi}.

(** [c.pending.tx], which is nil outside a transaction *)
Definition pending_tx : M Ct PendingTx := λ st,
  match ct_pendingTx st with Some p => Done (p, st) | None => Panic end.
Definition set_pending (f : PendingTx → PendingTx) : M Ct unit := λ st,
  match ct_pendingTx st with
  | Some p => Done (tt, st <| ct_pendingTx := Some (f p) |>)
  | None => Panic
  end.
Definition set_stats (f : TxStats → TxStats) : M Ct unit :=
  modify_st (λ st, st <| ct_stats ::= f |>).
(** [*p], which panics when [p] is nil *)
Definition deref {A} (p : option A) : M Ct A :=
  match p with Some a => mret a | None => panic end.
(** ** Contract balance updates, by call frame *)

Definition emptyUpdateCache : UpdateCache := mkUpdateCache [] ∅.
Definition emptyBurntCache : BurntCache := mkBurntCache [] ∅.

Definition getStakeIfNotKilled (addr : Address) (appState : AppState) : Z :=
  if decide (GetIdentityState appState addr = Killed) then 0%Z
  else GetStakeBalance appState addr.
Definition getPenaltyIfNotKilled (addr : Address) (appState : AppState) : option Z :=
  if decide (GetIdentityState appState addr = Killed) then Some 0%Z
  else id_Penalty (GetIdentity appState addr).
Definition getPenaltySecondsIfNotKilled (addr : Address) (appState : AppState) : Z :=
  if decide (GetIdentityState appState addr = Killed) then 0%Z
  else id_PenaltySeconds (GetIdentity appState addr).

(** Go: core/stats/collector.go updateBalanceUpdate *)
Definition updateBalanceUpdate (u : option ContractUpdate) (txHash : Hash) (address : Address)
    (getCurrentBalance : Address → option Z) (newBalance : option Z)
    (contractAddress : option Address) (appState : AppState) : ContractUpdate :=
  let u := default (mkContractUpdate address txHash (getCurrentBalance address) None
                      (getStakeIfNotKilled address appState)
                      (getPenaltyIfNotKilled address appState)
                      (getPenaltySecondsIfNotKilled address appState) contractAddress) u in
  u <| cu_BalanceNew := newBalance |>.

(** Go: core/stats/collector.go balanceUpdateCache.add *)
Definition uc_add (cache : UpdateCache) (txHash : Hash) (address : Address)
    (getCurrentBalance : Address → option Z) (newBalance : option Z)
    (contractAddress : option Address) (appState : AppState) : UpdateCache :=
  let upd u := updateBalanceUpdate u txHash address getCurrentBalance newBalance
                                   contractAddress appState in
  match uc_updatesByAddress cache !! address with
  | Some i => cache <| uc_updates ::= alter (λ u, upd (Some u)) i |>
  | None => mkUpdateCache (uc_updates cache ++ [upd None])
              (<[address := length (uc_updates cache)]> (uc_updatesByAddress cache))
  end.

(** Go: core/stats/collector.go balanceUpdateCache.importFrom *)
Definition uc_importFrom (cache external : UpdateCache) : UpdateCache :=
  cache <| uc_updates ::= λ l, l ++ uc_updates external |>.

(** Go: core/stats/collector.go burntCoinsCache.add *)
Definition bn_add (cache : BurntCache) (address : Address) (amount : option Z) : BurntCache :=
  if nil_or_zero amount then cache else
  match bn_coinsByAddress cache !! address with
  | Some i => cache <| bn_coins ::= alter (λ c, c <| pb_amount ::= λ a, (a + or_zero amount)%Z |>) i |>
  | None => mkBurntCache (bn_coins cache ++ [mkPendingBurnt address (or_zero amount) false])
              (<[address := length (bn_coins cache)]> (bn_coinsByAddress cache))
  end.

(** Go: core/stats/collector.go burntCoinsCache.importFrom *)
Definition bn_importFrom (cache external : BurntCache) : BurntCache :=
  cache <| bn_coins ::= λ l, l ++ bn_coins external |>.

(** Go: core/stats/collector.go getOrPutContractBalanceUpdateCache *)
Definition getOrPutContractBalanceUpdateCache (fr : frame) : M Ct UpdateCache :=
  p ← pending_tx;
  match pt_contractBalanceUpdateCache p !! fr with
  | Some cache => mret cache
  | None =>
      set_pending (λ p, p <| pt_contractBalanceUpdateCache ::= insert fr emptyUpdateCache |>);;
      mret emptyUpdateCache
  end.

(** Go: core/stats/collector.go getOrPutContractBurntCoinsCache *)
Definition getOrPutContractBurntCoinsCache (fr : frame) : M Ct BurntCache :=
  p ← pending_tx;
  match pt_contractBurntCoinsCache p !! fr with
  | Some cache => mret cache
  | None =>
      set_pending (λ p, p <| pt_contractBurntCoinsCache ::= insert fr emptyBurntCache |>);;
      mret emptyBurntCache
  end.

(** Go: core/stats/collector.go AddContractBalanceUpdate *)
Definition AddContractBalanceUpdate (contractAddress : option Address) (address : Address)
    (getCurrentBalance : Address → option Z) (newBalance : option Z) (appState : AppState)
    (balancesCache : frame) : M Ct unit :=
  cache ← getOrPutContractBalanceUpdateCache balancesCache;
  p ← pending_tx;
  set_pending (λ p, p <| pt_contractBalanceUpdateCache ::= insert balancesCache
    (uc_add cache (tx_Hash (pt_tx p)) address getCurrentBalance newBalance
            contractAddress appState) |>).

(** Go: core/stats/collector.go AddContractBurntCoins *)
Definition AddContractBurntCoins (address : Address) (getAmount : Address → option Z)
    (balancesCache : frame) : M Ct unit :=
  let amount := getAmount address in
  if nil_or_zero amount then mret tt else
  cache ← getOrPutContractBurntCoinsCache balancesCache;
  set_pending (λ p, p <| pt_contractBurntCoinsCache ::=
    insert balancesCache (bn_add cache address amount) |>).

(** The first half of [ApplyContractBalanceUpdates]: the updates of the frame go to
    its parent, or to the transaction. *)
Definition apply_updates (balancesCache : frame) (parentBalancesCache : option frame)
    : M Ct unit :=
  cache ← getOrPutContractBalanceUpdateCache balancesCache;
  set_pending (λ p, p <| pt_contractBalanceUpdateCache ::= delete balancesCache |>);;
  match parentBalancesCache with
  | Some parent =>
      parentCache ← getOrPutContractBalanceUpdateCache parent;
      set_pending (λ p, p <| pt_contractBalanceUpdateCache ::=
        insert parent (uc_importFrom parentCache cache) |>)
  | None =>
      set_pending (λ p, p <| pt_contractBalanceUpdates ::= λ l, l ++ uc_updates cache |>)
  end.

(** Its second half: the burnt coins. *)
Definition apply_burnt (balancesCache : frame) (parentBalancesCache : option frame)
    : M Ct unit :=
  burntCache ← getOrPutContractBurntCoinsCache balancesCache;
  set_pending (λ p, p <| pt_contractBurntCoinsCache ::= delete balancesCache |>);;
  match parentBalancesCache with
  | Some parent =>
      parentCache ← getOrPutContractBurntCoinsCache parent;
      set_pending (λ p, p <| pt_contractBurntCoinsCache ::=
        insert parent (bn_importFrom parentCache burntCache) |>)
  | None =>
      set_pending (λ p, p <| pt_contractBurntCoins ::= λ l, l ++ bn_coins burntCache |>)
  end.

(** Go: core/stats/collector.go ApplyContractBalanceUpdates

    [None] is the nil parent of the outermost call. *)
Definition ApplyContractBalanceUpdates (balancesCache : frame)
    (parentBalancesCache : option frame) : M Ct unit :=
  apply_updates balancesCache parentBalancesCache;;
  apply_burnt balancesCache parentBalancesCache.

(** Go: core/stats/collector.go AddContractTerminationBurntCoins *)
Definition AddContractTerminationBurntCoins (address : Address) (stake refund : option Z)
    : M Ct unit :=
  match stake, refund with
  | Some stake, Some refund =>
      if (stake =? refund)%Z then mret tt else
      set_pending (λ p, p <| pt_contractBurntCoins ::= λ l,
        l ++ [mkPendingBurnt address (stake - refund) true] |>)
  | _, _ => mret tt
  end.

(** ** The records of the embedded contracts *)

(** [new(big.Int).SetBytes(b)] *)
Definition SetBytes (b : bytes) : Z := foldl (λ acc x, acc * 256 + x)%Z 0%Z b.

(** An [Add*] method of an embedded contract: it builds its record with the
    hash of the pending transaction. *)
Definition add_record (f : Hash → PendingTx → PendingTx) : M Ct unit :=
  p ← pending_tx; set_pending (f (tx_Hash (pt_tx p))).

(** Go: core/stats/collector.go AddOracleVotingDeploy *)
Definition AddOracleVotingDeploy (contractAddress : Address) (startTime : Z)
    (votingMinPayment : option Z) (fact : bytes) (state votingDuration publicVotingDuration
     winnerThreshold quorum committeeSize networkSize ownerFee : Z)
    (ownerDeposit oracleRewardFund : option Z) (refundRecipient : option Address)
    (hash : bytes) : M Ct unit :=
  add_record (λ h p, p <| pt_oracleVotingContractDeploy := Some {|
    ovc_TxHash := h; ovc_ContractAddress := contractAddress; ovc_Stake := None;
    ovc_StartTime := startTime; ovc_VotingDuration := votingDuration;
    ovc_VotingMinPayment := votingMinPayment; ovc_Fact := fact; ovc_State := state;
    ovc_PublicVotingDuration := publicVotingDuration;
    ovc_WinnerThreshold := winnerThreshold; ovc_Quorum := quorum;
    ovc_CommitteeSize := committeeSize; ovc_OwnerFee := ownerFee;
    ovc_OwnerDeposit := ownerDeposit; ovc_OracleRewardFund := oracleRewardFund;
    ovc_RefundRecipient := refundRecipient; ovc_Hash := hash;
    ovc_NetworkSize := networkSize |} |>).

(** Go: core/stats/collector.go AddOracleVotingCallStart *)
Definition AddOracleVotingCallStart (state startBlock epoch : Z) (votingMinPayment : option Z)
    (vrfSeed : bytes) (committeeSize networkSize : Z) : M Ct unit :=
  add_record (λ h p, p <| pt_oracleVotingContractCallStart := Some {|
    ovs_TxHash := h; ovs_State := state; ovs_StartHeight := startBlock; ovs_Epoch := epoch;
    ovs_VotingMinPayment := votingMinPayment; ovs_VrfSeed := vrfSeed; ovs_Committee := [];
    ovs_CommitteeSize := committeeSize |} |>
    <| pt_oracleVotingCommitteeStartCtx := Some (mkCommitteeStartCtx committeeSize networkSize) |>).

(** Go: core/stats/collector.go AddOracleVotingCallVoteProof *)
Definition AddOracleVotingCallVoteProof (voteHash : bytes) (newSecretVotesCount : option Z)
    (discriminationFlags : DiscriminationFlag) : M Ct unit :=
  add_record (λ h p, p <| pt_oracleVotingContractCallVoteProof := Some {|
    ovp_TxHash := h; ovp_VoteHash := voteHash; ovp_Votes := 0;
    ovp_NewSecretVotesCount := newSecretVotesCount;
    ovp_DiscriminatedNewbie := DiscriminatedNewbie discriminationFlags;
    ovp_DiscriminatedDelegation := DiscriminatedDelegation discriminationFlags;
    ovp_DiscriminatedStake := DiscriminatedStake discriminationFlags |} |>).

(** Go: core/stats/collector.go AddOracleVotingCallVote

    [prevPoolVote] is [None] for a nil slice. *)
Definition AddOracleVotingCallVote (vote : Z) (salt : bytes) (newOptionVotes : option Z)
    (newOptionAllVotes : Z) (newSecretVotesCount : option Z) (delegatee : option Address)
    (prevPoolVote : option bytes) (newPrevOptionVotes : option Z)
    (discriminationFlags : DiscriminationFlag) : M Ct unit :=
  add_record (λ h p, p <| pt_oracleVotingContractCallVote := Some {|
    ovv_TxHash := h; ovv_Vote := vote; ovv_Salt := salt; ovv_OptionVotes := newOptionVotes;
    ovv_OptionAllVotes := newOptionAllVotes; ovv_SecretVotesCount := newSecretVotesCount;
    ovv_Delegatee := delegatee;
    ovv_DiscriminatedNewbie := DiscriminatedNewbie discriminationFlags;
    ovv_DiscriminatedDelegation := DiscriminatedDelegation discriminationFlags;
    ovv_DiscriminatedStake := DiscriminatedStake discriminationFlags;
    ovv_PrevPoolVote := (λ b, (ExtractByte b).1) <$> prevPoolVote;
    ovv_PrevOptionVotes := newPrevOptionVotes |} |>).

(** Go: core/stats/collector.go AddOracleVotingCallFinish *)
Definition AddOracleVotingCallFinish (state : Z) (result fund oracleReward ownerReward : option Z)
    : M Ct unit :=
  add_record (λ h p, p <| pt_oracleVotingContractCallFinish := Some {|
    ovf_TxHash := h; ovf_State := state; ovf_Result := result; ovf_Fund := fund;
    ovf_OracleReward := oracleReward; ovf_OwnerReward := ownerReward |} |>).

(** Go: core/stats/collector.go AddOracleVotingCallProlongation *)
Definition AddOracleVotingCallProlongation (startBlock : option Z) (epoch : Z) (vrfSeed : bytes)
    (committeeSize networkSize newCommitteeSize : Z)
    (newEpochWithoutGrowth newProlongVoteCount : option Z) : M Ct unit :=
  add_record (λ h p, p <| pt_oracleVotingContractCallProlongation := Some {|
    ovl_TxHash := h; ovl_Epoch := epoch; ovl_StartBlock := startBlock; ovl_VrfSeed := vrfSeed;
    ovl_EpochWithoutGrowth := newEpochWithoutGrowth; ovl_ProlongVoteCount := newProlongVoteCount;
    ovl_Committee := []; ovl_CommitteeSize := newCommitteeSize |} |>
    <| pt_oracleVotingCommitteeStartCtx :=
         Some (mkCommitteeStartCtx newCommitteeSize (swrap 64 networkSize)) |>).

(** Go: core/stats/collector.go AddOracleVotingCallAddStake *)
Definition AddOracleVotingCallAddStake : M Ct unit :=
  add_record (λ h p, p <| pt_oracleVotingContractCallAddStake :=
    Some {| ova_TxHash := h |} |>).

(** Go: core/stats/collector.go AddOracleVotingTermination *)
Definition AddOracleVotingTermination (fund oracleReward ownerReward : option Z) : M Ct unit :=
  add_record (λ h p, p <| pt_oracleVotingContractTermination := Some {|
    ovt_TxHash := h; ovt_Fund := fund; ovt_OracleReward := oracleReward;
    ovt_OwnerReward := ownerReward |} |>).

(** Go: core/stats/collector.go AddOracleLockDeploy *)
Definition AddOracleLockDeploy (contractAddress oracleVotingAddress : Address) (value : Z)
    (successAddress failAddress : Address) : M Ct unit :=
  add_record (λ h p, p <| pt_oracleLockContract := Some {|
    olc_TxHash := h; olc_ContractAddress := contractAddress; olc_Stake := None;
    olc_OracleVotingAddress := oracleVotingAddress; olc_ExpectedValue := value;
    olc_SuccessAddress := successAddress; olc_FailAddress := failAddress |} |>).

(** Go: core/stats/collector.go AddOracleLockCallPush *)
Definition AddOracleLockCallPush (success : bool) (oracleVotingResult : Z) (transfer : option Z)
    : M Ct unit :=
  add_record (λ h p, p <| pt_oracleLockContractCallPush := Some {|
    olp_TxHash := h; olp_Success := success; olp_OracleVotingResult := oracleVotingResult;
    olp_Transfer := transfer |} |>).

(** Go: core/stats/collector.go AddOracleLockCallCheckOracleVoting *)
Definition AddOracleLockCallCheckOracleVoting (votedValue : Z) (err : option string) : M Ct unit :=
  add_record (λ h p, p <| pt_oracleLockContractCallCheckOracleVoting := Some {|
    olk_TxHash := h;
    olk_OracleVotingResult := match err with None => Some votedValue | Some _ => None end |} |>).

(** Go: core/stats/collector.go AddOracleLockTermination *)
Definition AddOracleLockTermination (dest : Address) : M Ct unit :=
  add_record (λ h p, p <| pt_oracleLockContractTermination :=
    Some {| olt_TxHash := h; olt_Dest := dest |} |>).

(** Go: core/stats/collector.go AddRefundableOracleLockDeploy *)
Definition AddRefundableOracleLockDeploy (contractAddress oracleVotingAddress : Address)
    (value : Z) (successAddress : Address) (successAddressErr : option string)
    (failAddress : Address) (failAddressErr : option string)
    (refundDelay depositDeadline oracleVotingFeeOld oracleVotingFee state : Z)
    (sum : option Z) : M Ct unit :=
  add_record (λ h p, p <| pt_refundableOracleLockContract := Some {|
    rlc_TxHash := h; rlc_ContractAddress := contractAddress; rlc_Stake := None;
    rlc_OracleVotingAddress := oracleVotingAddress; rlc_ExpectedValue := value;
    rlc_SuccessAddress := match successAddressErr with None => Some successAddress | Some _ => None end;
    rlc_FailAddress := match failAddressErr with None => Some failAddress | Some _ => None end;
    rlc_RefundDelay := refundDelay; rlc_DepositDeadline := depositDeadline;
    rlc_OracleVotingFeeOld := oracleVotingFeeOld; rlc_OracleVotingFee := oracleVotingFee |} |>).

(** Go: core/stats/collector.go AddRefundableOracleLockCallDeposit *)
Definition AddRefundableOracleLockCallDeposit (ownSum sum fee : option Z) : M Ct unit :=
  add_record (λ h p, p <| pt_refundableOracleLockContractCallDeposit := Some {|
    rld_TxHash := h; rld_OwnSum := ownSum; rld_Sum := sum; rld_Fee := fee |} |>).

(** Go: core/stats/collector.go AddRefundableOracleLockCallPush *)
Definition AddRefundableOracleLockCallPush (state : Z) (oracleVotingExists : bool)
    (oracleVotingResult : Z) (oracleVotingResultErr : option string) (transfer : option Z)
    (refundBlock : Z) : M Ct unit :=
  add_record (λ h p, p <| pt_refundableOracleLockContractCallPush := Some {|
    rlp_TxHash := h; rlp_State := state; rlp_OracleVotingExists := oracleVotingExists;
    rlp_OracleVotingResult :=
      match oracleVotingResultErr with None => Some oracleVotingResult | Some _ => None end;
    rlp_Transfer := transfer; rlp_RefundBlock := refundBlock |} |>).

(** Go: core/stats/collector.go AddRefundableOracleLockCallRefund *)
Definition AddRefundableOracleLockCallRefund (balance : option Z) (coef : Decimal) : M Ct unit :=
  add_record (λ h p, p <| pt_refundableOracleLockContractCallRefund :=
    Some (mkRefundableOracleLockContractCallRefund _ h balance (Decimal_Float64 coef)) |>).

(** Go: core/stats/collector.go AddRefundableOracleLockTermination *)
Definition AddRefundableOracleLockTermination (dest : Address) : M Ct unit :=
  add_record (λ h p, p <| pt_refundableOracleLockContractTermination :=
    Some {| rlt_TxHash := h; rlt_Dest := dest |} |>).

(** Go: core/stats/collector.go AddMultisigDeploy *)
Definition AddMultisigDeploy (contractAddress : Address) (minVotes maxVotes state : Z)
    : M Ct unit :=
  add_record (λ h p, p <| pt_multisigContract := Some {|
    msc_TxHash := h; msc_ContractAddress := contractAddress; msc_Stake := None;
    msc_MinVotes := minVotes; msc_MaxVotes := maxVotes; msc_State := state |} |>).

(** Go: core/stats/collector.go AddMultisigCallAdd *)
Definition AddMultisigCallAdd (address : Address) (newState : option Z) : M Ct unit :=
  add_record (λ h p, p <| pt_multisigContractCallAdd := Some {|
    msa_TxHash := h; msa_Address := address; msa_NewState := newState |} |>).

(** Go: core/stats/collector.go AddMultisigCallSend *)
Definition AddMultisigCallSend (dest : Address) (amount : bytes) : M Ct unit :=
  add_record (λ h p, p <| pt_multisigContractCallSend := Some {|
    mss_TxHash := h; mss_Dest := dest; mss_Amount := Some (SetBytes amount) |} |>).

(** Go: core/stats/collector.go AddMultisigCallPush *)
Definition AddMultisigCallPush (dest : Address) (amount : bytes)
    (voteAddressCnt voteAmountCnt : Z) : M Ct unit :=
  add_record (λ h p, p <| pt_multisigContractCallPush := Some {|
    msp_TxHash := h; msp_Dest := dest; msp_Amount := Some (SetBytes amount);
    msp_VoteAddressCnt := u8 voteAddressCnt; msp_VoteAmountCnt := u8 voteAmountCnt |} |>).

(** Go: core/stats/collector.go AddMultisigTermination *)
Definition AddMultisigTermination (dest : Address) : M Ct unit :=
  add_record (λ h p, p <| pt_multisigContractTermination :=
    Some {| mst_TxHash := h; mst_Dest := dest |} |>).

(** Go: core/stats/collector.go AddTimeLockDeploy *)
Definition AddTimeLockDeploy (contractAddress : Address) (timestamp : Z) : M Ct unit :=
  add_record (λ h p, p <| pt_timeLockContract := Some {|
    tlc_TxHash := h; tlc_ContractAddress := contractAddress; tlc_Stake := None;
    tlc_Timestamp := timestamp |} |>).

(** Go: core/stats/collector.go AddTimeLockCallTransfer *)
Definition AddTimeLockCallTransfer (dest : Address) (amount : option Z) : M Ct unit :=
  add_record (λ h p, p <| pt_timeLockContractCallTransfer := Some {|
    tlx_TxHash := h; tlx_Dest := dest; tlx_Amount := amount |} |>).

(** Go: core/stats/collector.go AddTimeLockTermination *)
Definition AddTimeLockTermination (dest : Address) : M Ct unit :=
  add_record (λ h p, p <| pt_timeLockContractTermination :=
    Some {| tlt_TxHash := h; tlt_Dest := dest |} |>).

(** Go: core/stats/collector.go AddWasmContract *)
Definition AddWasmContract (address : Address) (code : bytes) : M Ct unit :=
  set_pending (λ p, p <| pt_deployedWasmContracts ::= insert address code |>).

(** Go: core/stats/collector.go AddContractStake *)
Definition AddContractStake (amount : option Z) : M Ct unit :=
  if nil_or_zero amount then mret tt else
  set_pending (λ p,
    p <| pt_oracleVotingContractDeploy ::= fmap (λ c, c <| ovc_Stake := amount |>) |>
      <| pt_oracleLockContract ::= fmap (λ c, c <| olc_Stake := amount |>) |>
      <| pt_refundableOracleLockContract ::= fmap (λ c, c <| rlc_Stake := amount |>) |>
      <| pt_timeLockContract ::= fmap (λ c, c <| tlc_Stake := amount |>) |>
      <| pt_multisigContract ::= fmap (λ c, c <| msc_Stake := amount |>) |>).

(** ** The receipt *)

(** [maxOracleVotingHash] and the selection of [getOracleVotingCommittee]. *)
Definition maxOracleVotingHash : BigFloat := BigFloat_SetInt (2 ^ 256 - 1).

Definition in_committee (committeeSize networkSize : Z) (vrfSeed : bytes)
    (identity : identityInfo) : bool :=
  let selectionHash := crypto_Hash (ii_pubKey identity ++ vrfSeed) in
  let q := BigFloat_Quo (BigFloat_SetInt (SetBytes selectionHash)) maxOracleVotingHash in
  let networkSizeF := Float64_of_int (if (networkSize =? 0)%Z then 1 else networkSize) in
  let bound := Float64_Sub (Float64_of_int 1) (Float64_Div (Float64_of_int committeeSize) networkSizeF) in
  NewbieOrBetter (ii_state identity) && negb (BigFloat_less q (NewFloat bound)).

(** The order in which Go ranges over the two maps of this section. *)
Context (identity_order : gmap Address identityInfo → list (Address * identityInfo)).
Context (wasm_order : gmap Address bytes → list (Address * bytes)).

(** Go: core/stats/collector.go getOracleVotingCommittee *)
Definition getOracleVotingCommittee (committeeSize networkSize : Z) (vrfSeed : bytes)
    (appState : AppState) : M Ct (list Address) :=
  cached ← gets ct_identitiesByAddr;
  if negb (bool_decide (cached = ∅)) then
    mret (filter (λ ai, in_committee committeeSize networkSize vrfSeed ai.2)
                 (identity_order cached)).*1
  else
    let identities := (λ ai : Address * Identity,
      (ai.1, mkIdentityInfo (id_PubKey ai.2) (id_State ai.2))) <$> IterateOverIdentities appState in
    modify_st (λ st, st <| ct_identitiesByAddr :=
      foldl (λ m ai, <[ai.1 := ai.2]> m) ∅ identities |>);;
    mret (filter (λ ai, in_committee committeeSize networkSize vrfSeed ai.2) identities).*1.

(** [if c.pending.tx.x != nil { ...; contractCallMethod = ... }] *)
Definition publish {R} (field : PendingTx → option R) (method set : option Z)
    (body : R → M Ct unit) : M Ct (option Z) :=
  p ← pending_tx;
  match field p with
  | None => mret method
  | Some r => body r;; mret (match set with Some _ => set | None => method end)
  end.

(** Go: core/stats/collector.go applyEmbeddedContractTxReceipt *)
Definition applyEmbeddedContractTxReceipt (appState : AppState) : M Ct (option Z) :=
  p ← pending_tx;
  let m : option Z := None in
  m ← publish pt_oracleVotingContractDeploy m (None) (λ r,
    set_stats (λ s, s <| ts_OracleVotingContracts ::= λ l, l ++ [r] |>));
  m ← publish pt_oracleVotingContractCallStart m (Some 0%Z) (λ r,
    ctx ← deref (pt_oracleVotingCommitteeStartCtx p);
    committee ← getOracleVotingCommittee (csc_committeeSize ctx) (csc_networkSize ctx)
                  (ovs_VrfSeed r) appState;
    set_stats (λ s, s <| ts_OracleVotingContractCallStarts ::= λ l, l ++ [r <| ovs_Committee := committee |>] |>);;
    to ← deref (tx_To (pt_tx p));
    set_stats (λ s, s <| ts_NewActualOracleVotingContracts ::= λ l, l ++ [to] |>));
  m ← publish pt_oracleVotingContractCallVoteProof m (Some 1%Z) (λ r,
    set_stats (λ s, s <| ts_OracleVotingContractCallVoteProofs ::= λ l, l ++ [r] |>));
  m ← publish pt_oracleVotingContractCallVote m (Some 2%Z) (λ r,
    set_stats (λ s, s <| ts_OracleVotingContractCallVotes ::= λ l, l ++ [r] |>));
  m ← publish pt_oracleVotingContractCallFinish m (Some 3%Z) (λ r,
    set_stats (λ s, s <| ts_OracleVotingContractCallFinishes ::= λ l, l ++ [r] |>);;
    to ← deref (tx_To (pt_tx p));
    set_stats (λ s, s <| ts_NewNotActualOracleVotingContracts ::= λ l, l ++ [to] |>));
  m ← publish pt_oracleVotingContractCallProlongation m (Some 4%Z) (λ r,
    ctx ← deref (pt_oracleVotingCommitteeStartCtx p);
    committee ← getOracleVotingCommittee (csc_committeeSize ctx) (csc_networkSize ctx)
                  (ovl_VrfSeed r) appState;
    set_stats (λ s, s <| ts_OracleVotingContractCallProlongations ::= λ l, l ++ [r <| ovl_Committee := committee |>] |>);;
    to ← deref (tx_To (pt_tx p));
    set_stats (λ s, s <| ts_NewActualOracleVotingContracts ::= λ l, l ++ [to] |>));
  m ← publish pt_oracleVotingContractCallAddStake m (Some 5%Z) (λ r,
    set_stats (λ s, s <| ts_OracleVotingContractCallAddStakes ::= λ l, l ++ [r] |>));
  m ← publish pt_oracleVotingContractTermination m (None) (λ r,
    set_stats (λ s, s <| ts_OracleVotingContractTerminations ::= λ l, l ++ [r] |>);;
    to ← deref (tx_To (pt_tx p));
    set_stats (λ s, s <| ts_NewNotActualOracleVotingContracts ::= λ l, l ++ [to] |>));
  m ← publish pt_oracleLockContract m (None) (λ r,
    set_stats (λ s, s <| ts_OracleLockContracts ::= λ l, l ++ [r] |>));
  m ← publish pt_oracleLockContractCallCheckOracleVoting m (Some 1%Z) (λ r,
    set_stats (λ s, s <| ts_OracleLockContractCallCheckOracleVotings ::= λ l, l ++ [r] |>));
  m ← publish pt_oracleLockContractCallPush m (Some 0%Z) (λ r,
    set_stats (λ s, s <| ts_OracleLockContractCallPushes ::= λ l, l ++ [r] |>));
  m ← publish pt_oracleLockContractTermination m (None) (λ r,
    set_stats (λ s, s <| ts_OracleLockContractTerminations ::= λ l, l ++ [r] |>));
  m ← publish pt_refundableOracleLockContract m (None) (λ r,
    set_stats (λ s, s <| ts_RefundableOracleLockContracts ::= λ l, l ++ [r] |>));
  m ← publish pt_refundableOracleLockContractCallDeposit m (Some 0%Z) (λ r,
    set_stats (λ s, s <| ts_RefundableOracleLockContractCallDeposits ::= λ l, l ++ [r] |>));
  m ← publish pt_refundableOracleLockContractCallPush m (Some 1%Z) (λ r,
    set_stats (λ s, s <| ts_RefundableOracleLockContractCallPushes ::= λ l, l ++ [r] |>));
  m ← publish pt_refundableOracleLockContractCallRefund m (Some 2%Z) (λ r,
    set_stats (λ s, s <| ts_RefundableOracleLockContractCallRefunds ::= λ l, l ++ [r] |>));
  m ← publish pt_refundableOracleLockContractTermination m (None) (λ r,
    set_stats (λ s, s <| ts_RefundableOracleLockContractTerminations ::= λ l, l ++ [r] |>));
  m ← publish pt_multisigContract m (None) (λ r,
    set_stats (λ s, s <| ts_MultisigContracts ::= λ l, l ++ [r] |>));
  m ← publish pt_multisigContractCallAdd m (Some 0%Z) (λ r,
    set_stats (λ s, s <| ts_MultisigContractCallAdds ::= λ l, l ++ [r] |>));
  m ← publish pt_multisigContractCallSend m (Some 1%Z) (λ r,
    set_stats (λ s, s <| ts_MultisigContractCallSends ::= λ l, l ++ [r] |>));
  m ← publish pt_multisigContractCallPush m (Some 2%Z) (λ r,
    set_stats (λ s, s <| ts_MultisigContractCallPushes ::= λ l, l ++ [r] |>));
  m ← publish pt_multisigContractTermination m (None) (λ r,
    set_stats (λ s, s <| ts_MultisigContractTerminations ::= λ l, l ++ [r] |>));
  m ← publish pt_timeLockContract m (None) (λ r,
    set_stats (λ s, s <| ts_TimeLockContracts ::= λ l, l ++ [r] |>));
  m ← publish pt_timeLockContractCallTransfer m (Some 0%Z) (λ r,
    set_stats (λ s, s <| ts_TimeLockContractCallTransfers ::= λ l, l ++ [r] |>));
  m ← publish pt_timeLockContractTermination m (None) (λ r,
    set_stats (λ s, s <| ts_TimeLockContractTerminations ::= λ l, l ++ [r] |>));  mret m.

(** Go: core/stats/collector.go isBalanceOrStakeOrPenaltyChanged

    On the update of a contract call, whose stake and penalty never change and
    which has no payment.  [Cmp] of two nil pointers is 0, and of a nil pointer
    and another one a panic. *)
Definition isContractUpdateChanged (u : ContractUpdate) : M Ct bool :=
  match cu_BalanceOld u, cu_BalanceNew u with
  | Some o, Some n => mret (negb (o =? n)%Z)
  | None, None => mret false
  | _, _ => panic
  end.

Definition burn_pending (tx : Tx) (b : PendingBurnt) : M Ct unit :=
  modify_st (λ st, st <| ct_coins ::=
    addBurntCoins (pb_address b) (Some (pb_amount b))
      (if pb_termination b then ContractTerminationBurntCoins
       else ContractBurntCoins) (Some tx) |>).

(** [&db.ContractTxBalanceUpdate{Address: sender}] *)
Definition sender_update (sender : Address) (old new : option Z) : ContractTxBalanceUpdate :=
  {| cbu_Address := sender; cbu_BalanceOld := old; cbu_BalanceNew := new;
     cbu_ContractAddress := None |}.

(** The loop of [AddTxReceipt] over the balance updates of the calls: the sender's
    update, and those of the others, in order. *)
Fixpoint publish_updates (sender : Address) (us : list ContractUpdate)
    (su : ContractTxBalanceUpdate) (others : list ContractTxBalanceUpdate)
    : M Ct (ContractTxBalanceUpdate * list ContractTxBalanceUpdate) :=
  match us with
  | [] => mret (su, others)
  | u :: us =>
      changed ← isContractUpdateChanged u;
      if negb changed then publish_updates sender us su others else
      set_stats (λ s, s <| ts_BalanceUpdates ::= λ l, l ++ [u] |>
                        <| ts_BalanceUpdateAddrs ::= λ A, {[cu_Address u]} ∪ A |>);;
      if decide (cu_Address u = sender) then
        publish_updates sender us (sender_update sender (cu_BalanceOld u) (cu_BalanceNew u)) others
      else
        publish_updates sender us su (others ++ [
          {| cbu_Address := cu_Address u; cbu_BalanceOld := cu_BalanceOld u;
             cbu_BalanceNew := cu_BalanceNew u; cbu_ContractAddress := cu_contractAddress u |}])
  end.

Context `{TokenContractHolder}.

(** Go: core/stats/collector.go collectTokens *)
Definition collectTokens (contracts : list Address) (appState : AppState) : M Ct unit :=
  set_stats (λ s, s <| ts_Tokens ::= λ l, l ++ detectTokens contracts appState |>).

(** Go: core/stats/collector.go collectTokenBalanceUpdates *)
Definition collectTokenBalanceUpdates (txReceipt : TxReceipt) (appState : AppState) : M Ct unit :=
  modify_st (λ st,
    let r := applyTxReceipt (ct_tokens st) txReceipt appState in
    (st <| ct_tokens := r.1 |>) <| ct_stats ::= λ s, s <| ts_TokenBalanceUpdates := r.2 |> |>).

(** Go: core/stats/collector.go AddTxReceipt *)
Definition AddTxReceipt (txReceipt : TxReceipt) (appState : AppState) : M Ct unit :=
  set_stats (λ s, s <| ts_TxReceipts ::= λ l, l ++ [txReceipt] |>);;
  p ← pending_tx;
  let tx := pt_tx p in
  let sender := tx_Sender tx in
  let su := sender_update sender None None in
  '(deployedWasmContracts, contractCallMethod, updates) ←
    (if rc_Success txReceipt then
       contractCallMethod ← applyEmbeddedContractTxReceipt appState;
       let deployed := wasm_order (pt_deployedWasmContracts p) in
       set_stats (λ s, s <| ts_Contracts ::= λ l, l ++
         ((λ ac, {| wc_TxHash := tx_Hash tx; wc_ContractAddress := ac.1; wc_Code := ac.2 |})
          <$> deployed) |>);;
       r ← publish_updates sender (pt_contractBalanceUpdates p) su [];
       for_each (pt_contractBurntCoins p) (burn_pending tx);;
       mret (deployed.*1, contractCallMethod, r.1 :: r.2)
     else mret ([], None, [su]));
  let isFailedDeploy := bool_decide (tx_Type tx = DeployContractTx) && negb (rc_Success txReceipt) in
  (if negb (bool_decide (rc_ContractAddress txReceipt = zeroAddress)) && negb isFailedDeploy then
     set_stats (λ s, s <| ts_ContractTxsBalanceUpdates ::= λ l, l ++ [
       {| cbs_TxHash := tx_Hash tx; cbs_ContractAddress := rc_ContractAddress txReceipt;
          cbs_ContractCallMethod := contractCallMethod; cbs_Updates := updates |}] |>)
   else mret tt);;
  collectTokens deployedWasmContracts appState;;
  collectTokenBalanceUpdates txReceipt appState.

(** ** The transaction being applied *)

(** [&inviter.TxHash] of an activation, nil without an inviter *)
Definition activation_invite (tx : Tx) (appState : AppState) : option Hash :=
  if decide (tx_Type tx = ActivationTx)
  then id_InviterTxHash (GetIdentity appState (tx_Sender tx)) else None.

(** [tx.To != nil && *tx.To != sender] *)
Definition other_recipient (tx : Tx) : option Address :=
  match tx_To tx with
  | Some to => if decide (to = tx_Sender tx) then None else Some to
  | None => None
  end.

(** Go: core/stats/collector.go BeginApplyingTx *)
Definition BeginApplyingTx (tx : Tx) (appState : AppState) : M Ct unit :=
  modify_st (λ st,
    st <| ct_pendingTx := Some ((newPendingTx tx) <| pt_inviteTxHash := activation_invite tx appState |>) |>
       <| ct_identityStates := GetIdentityState appState (tx_Sender tx)
            :: (GetIdentityState appState <$> option_list (other_recipient tx)) |>).

(** Go: core/stats/collector.go isContractAddress *)
Definition isContractAddress (address : Address) (appState : AppState) : bool :=
  bool_decide (GetCodeHash appState address ≠ None).

(** Go: core/stats/collector.go isContractTx *)
Definition isContractTx (tx : Tx) : bool :=
  bool_decide (tx_Type tx = DeployContractTx) || bool_decide (tx_Type tx = CallContractTx)
  || bool_decide (tx_Type tx = TerminateContractTx).

(** Go: core/stats/collector.go collectTxSentToContract *)
Definition collectTxSentToContract (appState : AppState) : M Ct unit :=
  p ← pending_tx;
  let tx := pt_tx p in
  if isContractTx tx then mret tt else
  match tx_To tx with
  | None => mret tt
  | Some to =>
      if negb (isContractAddress to appState) then mret tt else
      set_stats (λ s, s <| ts_ContractTxsBalanceUpdates ::= λ l, l ++ [
        {| cbs_TxHash := tx_Hash tx; cbs_ContractAddress := to; cbs_ContractCallMethod := None;
           cbs_Updates := [sender_update (tx_Sender tx) None None] |}] |>)
  end.

(** Go: core/stats/collector.go collectActivationTx *)
Definition collectActivationTx (appState : AppState) : M Ct unit :=
  p ← pending_tx;
  let tx := pt_tx p in
  if decide (tx_Type tx ≠ ActivationTx) then mret tt else
  recipient ← deref (tx_To tx);
  inviteTxHash ← deref (pt_inviteTxHash p);
  set_stats (λ s, s <| ts_ActivationTxs ::= λ l, l ++ [
    {| atx_TxHash := hash_Hex (tx_Hash tx); atx_InviteTxHash := hash_Hex inviteTxHash;
       atx_ShardId := GetShardId appState recipient |}] |>).

(** The update a delegation or an undelegation makes. *)
Definition delegation_update (tx : Tx) : option DelegationHistoryUpdate :=
  let u := {| dhu_DelegatorAddress := tx_Sender tx; dhu_DelegationTx := None;
              dhu_DelegationBlockHeight := None; dhu_UndelegationReason := None;
              dhu_UndelegationTx := None; dhu_UndelegationBlockHeight := None |} in
  match tx_Type tx with
  | DelegateTx => Some (u <| dhu_DelegationTx := Some (tx_Hash tx) |>)
  | UndelegateTx => Some (u <| dhu_UndelegationTx := Some (tx_Hash tx) |>
                            <| dhu_UndelegationReason := Some 1%Z |>)
  | _ => None
  end.

(** Go: core/stats/collector.go collectDelegationHistoryUpdate *)
Definition collectDelegationHistoryUpdate : M Ct unit :=
  p ← pending_tx;
  match delegation_update (pt_tx p) with
  | Some u => set_stats (λ s, s <| ts_DelegationHistoryUpdates ::= λ l, l ++ [u] |>)
  | None => mret tt
  end.

(** [map[common.Address]*IdentityStateChange] with the entry of an address whose
    state differs. *)
Definition state_change (addr : Address) (prev new : IdentityState)
    : list (Address * IdentityStateChange) :=
  if decide (prev = new) then [] else [(addr, mkIdentityStateChange prev new)].

(** What one change adds to [CandidateCountDiff]. *)
Definition candidate_diff (c : IdentityStateChange) : Z :=
  ((if bool_decide (isc_NewState c = CandidateState) then 1 else 0)
   - (if bool_decide (isc_PrevState c = CandidateState) then 1 else 0))%Z.

(** Go: core/stats/collector.go CompleteApplyingTx *)
Definition CompleteApplyingTx (appState : AppState) : M Ct unit :=
  p ← pending_tx;
  states ← gets ct_identityStates;
  let tx := pt_tx p in
  let sender := tx_Sender tx in
  prev ← deref (states !! 0);
  let c1 := state_change sender prev (GetIdentityState appState sender) in
  c2 ← (match other_recipient tx with
        | Some to =>
            prev ← deref (states !! 1);
            mret (state_change to prev (GetIdentityState appState to))
        | None => mret []
        end);
  let changesByAddress := c1 ++ c2 in
  (if decide (changesByAddress = []) then mret tt else
   set_stats (λ s,
     s <| ts_IdentityStateChanges ::= insert (tx_Hash tx) (list_to_map changesByAddress) |>
       <| ts_CandidateCountDiff ::= λ d, (d + sumZ (λ c, candidate_diff c.2) changesByAddress)%Z |>));;
  collectTxSentToContract appState;;
  collectActivationTx appState;;
  collectDelegationHistoryUpdate;;
  modify_st (λ st, st <| ct_pendingTx := None |>).

(** Go: core/stats/collector.go AddTxFee *)
Definition AddTxFee (feeAmount : option Z) : M Ct unit :=
  p ← pending_tx;
  set_stats (λ s, s <| ts_FeesByTxHash ::= insert (tx_Hash (pt_tx p)) feeAmount |>).

(** Go: core/stats/collector.go AddTxGas *)
Definition AddTxGas (tx : Tx) (gas : Z) : M Ct unit :=
  set_stats (λ s, s <| ts_UsedGasByTxHash ::= insert (tx_Hash tx) gas |>).

(** Go: core/stats/collector.go AddBlockGas *)
Definition AddBlockGas (gas : Z) : M Ct unit :=
  set_stats (λ s, s <| ts_BlockGasUsed := gas |>).

(** Go: core/stats/collector.go AddRemovedTransitiveDelegation *)
Definition AddRemovedTransitiveDelegation (delegator delegatee : Address) : M Ct unit :=
  set_stats (λ s, s <| ts_RemovedTransitiveDelegations ::= λ l,
    l ++ [{| rtd_Delegator := delegator; rtd_Delegatee := delegatee |}] |>).

(** ** The collector of one block after another

    [cl_state]: the [stats] and [pending] of the collector, nil before
    [EnableCollecting] and after [CompleteCollecting]; the methods above run
    when they are there. *)
Record Collector := mkCollector { cl_statsEnabled : bool; cl_state : option Ct }.

(** Go: core/stats/collector.go EnableCollecting *)
Definition EnableCollecting (c : Collector) : Collector := c <| cl_state := Some emptyCt |>.

(** Go: core/stats/collector.go CompleteCollecting *)
Definition CompleteCollecting (c : Collector) : Collector := c <| cl_state := None |>.

(** Go: core/stats/collector.go Disable *)
Definition Disable (c : Collector) : Collector := c <| cl_statsEnabled := false |>.

(** Go: core/stats/collector.go Enable *)
Definition Enable (c : Collector) : Collector := c <| cl_statsEnabled := true |>.

(** Go: core/stats/collector.go GetStats *)
Definition GetStats (c : Collector) : option TxStats :=
  if negb (cl_statsEnabled c) then Some emptyTxStats else ct_stats <$> cl_state c.

(** ** What the methods do *)

Implicit Types st : Ct.
Implicit Types p : PendingTx.

Lemma pending_tx_done st p :
  ct_pendingTx st = Some p → pending_tx st = Done (p, st).
Proof. unfold pending_tx. by intros ->. Qed.

Lemma set_pending_done f st p :
  ct_pendingTx st = Some p → set_pending f st = Done (tt, st <| ct_pendingTx := Some (f p) |>).
Proof. unfold set_pending. by intros ->. Qed.

Lemma wp_pending_tx st p (Q : PendingTx → Ct → Prop) :
  ct_pendingTx st = Some p → Q p st → wp pending_tx Q st.
Proof. unfold wp, pending_tx. by intros ->. Qed.

Lemma wp_set_pending f st p (Q : unit → Ct → Prop) :
  ct_pendingTx st = Some p → Q tt (st <| ct_pendingTx := Some (f p) |>) → wp (set_pending f) Q st.
Proof. unfold wp, set_pending. by intros ->. Qed.

(** *** The committee *)

(** The identities a committee is drawn from: those cached in the block, or
    those of the state. *)
Definition committee_identities (cached : gmap Address identityInfo) (w : AppState)
    : list (Address * identityInfo) :=
  if decide (cached = ∅) then
    (λ ai : Address * Identity, (ai.1, mkIdentityInfo (id_PubKey ai.2) (id_State ai.2)))
      <$> IterateOverIdentities w
  else identity_order cached.

Definition committee_cache (cached : gmap Address identityInfo) (w : AppState)
    : gmap Address identityInfo :=
  if decide (cached = ∅) then
    foldl (λ m ai, <[ai.1 := ai.2]> m) ∅ (committee_identities ∅ w)
  else cached.

Definition committee (size network : Z) (seed : bytes) (ids : list (Address * identityInfo))
    : list Address :=
  (filter (λ ai : Address * identityInfo, in_committee size network seed ai.2) ids).*1.

Lemma getOracleVotingCommittee_done size network seed w st :
  getOracleVotingCommittee size network seed w st
  = Done (committee size network seed (committee_identities (ct_identitiesByAddr st) w),
          st <| ct_identitiesByAddr := committee_cache (ct_identitiesByAddr st) w |>).
Proof.
  unfold getOracleVotingCommittee, committee_identities, committee_cache.
  erewrite bind_done by reflexivity. case_bool_decide as Hc; cbn.
  - rewrite !decide_True by done. reflexivity.
  - rewrite !decide_False by done. by destruct st.
Qed.

(** A map filled from a list of pairs with distinct keys ranges over the list. *)
Lemma fill_lookup (l : list (Address * identityInfo)) (m : gmap Address identityInfo) a v :
  NoDup l.*1 →
  (foldl (λ m ai, <[ai.1 := ai.2]> m) m l) !! a = Some v ↔
  (a, v) ∈ l ∨ ((a ∉ l.*1) ∧ m !! a = Some v).
Proof.
  revert m. induction l as [|[b w] l IH]; intros m Hnd; cbn.
  { split; [|intros [H1|[_ ?]]; [by apply elem_of_nil in H1|done]].
    intros. right. split; [apply not_elem_of_nil|done]. }
  apply list.NoDup_cons in Hnd as [Hb Hnd]. rewrite IH by done.
  rewrite elem_of_cons, not_elem_of_cons, lookup_insert_Some. split.
  - intros [?|[Ha [[<- <-]|[Hne ?]]]]; [by left; right|left; by left|right]. done.
  - intros [[[= -> ->]|Hin]|[[Hne Ha] Hm]].
    + right. split; [done|]. by left.
    + by left.
    + right. split; [done|]. right. split; congruence.
Qed.

Lemma fill_ranges (l : list (Address * identityInfo)) :
  NoDup l.*1 → ranges (foldl (λ m ai, <[ai.1 := ai.2]> m) ∅ l) l.
Proof.
  intros Hnd. unfold ranges. apply NoDup_Permutation.
  - by eapply NoDup_fmap_1.
  - apply NoDup_map_to_list.
  - intros [a v]. rewrite elem_of_map_to_list, fill_lookup by done.
    rewrite lookup_empty. naive_solver.
Qed.

(** The identities of the state are read once for a block: the second
    committee drawn in it, whatever the state then, is drawn from those the first
    was, and with the same parameters it is the same committee, up to the order in
    which Go ranges over the cache. *)
Theorem committee_read_once size network seed w w' st :
  (∀ m, ranges m (identity_order m)) →
  ct_identitiesByAddr st = ∅ →
  NoDup (IterateOverIdentities w).*1 → IterateOverIdentities w ≠ [] →
  ∃ c c' st' st'',
    getOracleVotingCommittee size network seed w st = Done (c, st') ∧
    getOracleVotingCommittee size network seed w' st' = Done (c', st'') ∧
    c ≡ₚ c' ∧ st'' = st' ∧
    (∀ a, a ∈ c ↔ ∃ i, (a, i) ∈ IterateOverIdentities w ∧
       in_committee size network seed (mkIdentityInfo (id_PubKey i) (id_State i)) = true).
Proof.
  intros Hord Hc Hnd Hne.
  set (ids := committee_identities ∅ w).
  assert (ids.*1 = (IterateOverIdentities w).*1) as Hkeys.
  { unfold ids, committee_identities. rewrite decide_True by done.
    rewrite <- list_fmap_compose. by apply list_fmap_ext. }
  assert (ranges (committee_cache ∅ w) ids) as Hr.
  { unfold committee_cache. rewrite decide_True by done. apply fill_ranges. by rewrite Hkeys. }
  assert (committee_cache ∅ w ≠ ∅) as Hcne.
  { intros He. unfold ranges in Hr. rewrite He, map_to_list_empty in Hr.
    apply Permutation_nil_r in Hr. rewrite Hr in Hkeys.
    by destruct (IterateOverIdentities w). }
  eexists _, _, _, _. rewrite !getOracleVotingCommittee_done. split_and!; [reflexivity..| | |].
  - cbn. rewrite Hc. fold ids. apply fmap_Permutation.
    unfold committee_identities at 1. rewrite decide_False by done.
    apply filter_Permutation. unfold ranges in Hr. rewrite Hr. symmetry. apply Hord.
  - cbn. rewrite Hc. unfold committee_cache at 1. by rewrite decide_False.
  - intros a. rewrite Hc. fold ids. unfold committee, ids, committee_identities.
    rewrite decide_True by done. rewrite list_elem_of_fmap. split.
    + intros ([b v] & -> & [Hin Hb]%list_elem_of_filter).
      apply list_elem_of_fmap in Hb as ([b' i] & [= -> ->] & Hb). exists i.
      split; [done|]. by apply Is_true_true in Hin.
    + intros (i & Hi & Hin). exists (a, mkIdentityInfo (id_PubKey i) (id_State i)).
      split; [done|]. apply list_elem_of_filter. split; [by apply Is_true_true|].
      apply list_elem_of_fmap. by exists (a, i).
Qed.

(** *** The records of the embedded contracts *)

Definition present {A} (o : option A) : bool := match o with Some _ => true | None => false end.

(** [*contractAddress], of a record that names the contract as actual or not. *)
Definition to_if {A} (o : option A) p : list Address :=
  if present o then option_list (tx_To (pt_tx p)) else [].

Lemma publish_done {R} (field : PendingTx → option R) (upd : option R → Ct → Ct)
    (body : R → M Ct unit) l set st p :
  ct_pendingTx st = Some p →
  upd None st = st →
  (∀ r, field p = Some r → body r st = Done (tt, upd (Some r) st)) →
  publish field (list.last l) set body st
  = Done (list.last (l ++ match set with Some c => if present (field p) then [c] else [] | None => [] end),
          upd (field p) st).
Proof.
  intros Hp Hnone Hsome. unfold publish. erewrite bind_done by by apply pending_tx_done.
  destruct (field p) as [r|] eqn:Hf; cbn.
  - erewrite bind_done by by apply Hsome. cbn.
    destruct set; cbn; [by rewrite last_snoc|by rewrite app_nil_r].
  - rewrite Hnone. destruct set; by rewrite app_nil_r.
Qed.

Lemma publish_record {R} (field : PendingTx → option R) (to : TxStats → list R)
    `{!Setter to} l set st p :
  ct_pendingTx st = Some p →
  st <| ct_stats ::= modify_field to (λ k, k ++ []) |> = st →
  publish field (list.last l) set (λ r, set_stats (λ s, s <| to ::= λ k, k ++ [r] |>)) st
  = Done (list.last (l ++ match set with Some c => if present (field p) then [c] else [] | None => [] end),
          st <| ct_stats ::= λ s, s <| to ::= λ k, k ++ option_list (field p) |> |>).
Proof.
  intros Hp Hnil.
  apply (publish_done field (λ o s0, s0 <| ct_stats ::= λ s, s <| to ::= λ k, k ++ option_list o |> |>));
    [done|exact Hnil|done].
Qed.

(** What [applyEmbeddedContractTxReceipt] needs of the transaction: the methods that
    fill the records guarantee it. *)
Definition embedded_ok p : bool :=
  implb (present (pt_oracleVotingContractCallStart p)
         || present (pt_oracleVotingContractCallProlongation p))
        (present (pt_oracleVotingCommitteeStartCtx p))
  && implb (present (pt_oracleVotingContractCallStart p)
            || present (pt_oracleVotingContractCallFinish p)
            || present (pt_oracleVotingContractCallProlongation p)
            || present (pt_oracleVotingContractTermination p))
           (present (tx_To (pt_tx p))).

(** The codes of the call methods of the records of a transaction, in the order in
    which they are published. *)
Definition call_methods p : list Z :=
  (if present (pt_oracleVotingContractCallStart p) then [0%Z] else [])
  ++ (if present (pt_oracleVotingContractCallVoteProof p) then [1%Z] else [])
  ++ (if present (pt_oracleVotingContractCallVote p) then [2%Z] else [])
  ++ (if present (pt_oracleVotingContractCallFinish p) then [3%Z] else [])
  ++ (if present (pt_oracleVotingContractCallProlongation p) then [4%Z] else [])
  ++ (if present (pt_oracleVotingContractCallAddStake p) then [5%Z] else [])
  ++ (if present (pt_oracleLockContractCallCheckOracleVoting p) then [1%Z] else [])
  ++ (if present (pt_oracleLockContractCallPush p) then [0%Z] else [])
  ++ (if present (pt_refundableOracleLockContractCallDeposit p) then [0%Z] else [])
  ++ (if present (pt_refundableOracleLockContractCallPush p) then [1%Z] else [])
  ++ (if present (pt_refundableOracleLockContractCallRefund p) then [2%Z] else [])
  ++ (if present (pt_multisigContractCallAdd p) then [0%Z] else [])
  ++ (if present (pt_multisigContractCallSend p) then [1%Z] else [])
  ++ (if present (pt_multisigContractCallPush p) then [2%Z] else [])
  ++ (if present (pt_timeLockContractCallTransfer p) then [0%Z] else []).

(** The committee of a record with the seed [seed]. *)
Definition drawn p (w : AppState) (cached : gmap Address identityInfo) (seed : bytes)
    : list Address :=
  match pt_oracleVotingCommitteeStartCtx p with
  | Some c => committee (csc_committeeSize c) (csc_networkSize c) seed
                (committee_identities cached w)
  | None => []
  end.

Definition cache_if {A} (o : option A) (w : AppState) (cached : gmap Address identityInfo)
    : gmap Address identityInfo :=
  if present o then committee_cache cached w else cached.

(** The bodies of the blocks of [applyEmbeddedContractTxReceipt], one after another. *)
Ltac publish_none :=
  cbn; rewrite ?app_nil_r; reflexivity.
Ltac publish_some Hctx Hto :=
  let r := fresh "r" in let Hr := fresh "Hr" in intros r Hr;
  first [reflexivity |
    rewrite Hr in Hto; cbn in Hto; rewrite ?orb_true_r in Hto; cbn in Hto;
    unfold to_if; destruct (tx_To _) as [to|]; [|discriminate Hto];
    first [reflexivity |
      rewrite Hr in Hctx; cbn in Hctx; rewrite ?orb_true_r in Hctx; cbn in Hctx;
      unfold drawn; destruct (pt_oracleVotingCommitteeStartCtx _) as [ctx|]; [|discriminate Hctx];
      erewrite bind_done by reflexivity;
      erewrite bind_done by apply getOracleVotingCommittee_done; reflexivity]].

Ltac norm_state :=
  lazymatch goal with |- ?m ?s = ?rhs =>
    let s' := eval cbn in s in
    lazymatch s' with mkCt _ _ _ _ _ _ _ => change (m s' = rhs) | _ => idtac end
  | _ => idtac end.
Ltac step_publish Hp Hctx Hto upd :=
  etrans; [apply bind_done; apply (publish_done _ upd);
           [exact Hp|publish_none|publish_some Hctx Hto]|];
  cbv beta; norm_state.
(** A block that only appends the record to its list. *)
Ltac step_record Hp :=
  etrans; [apply bind_done; eapply publish_record; [exact Hp|publish_none]|];
  cbv beta; norm_state.

(** The lists of the embedded contracts, with each record of the transaction once:
    a start and a prolongation have the committee drawn for their seed. *)
Definition published p (w : AppState) (cached : gmap Address identityInfo) (s0 s : TxStats)
    : Prop :=
    ts_OracleVotingContracts s = ts_OracleVotingContracts s0
      ++ option_list (pt_oracleVotingContractDeploy p) ∧
    ts_OracleVotingContractCallStarts s = ts_OracleVotingContractCallStarts s0
      ++ option_list ((λ r, r <| ovs_Committee :=
      drawn p w cached (ovs_VrfSeed r) |>) <$> pt_oracleVotingContractCallStart p) ∧
    ts_NewActualOracleVotingContracts s = ts_NewActualOracleVotingContracts s0
      ++ to_if (pt_oracleVotingContractCallStart p) p
      ++ to_if (pt_oracleVotingContractCallProlongation p) p ∧
    ts_OracleVotingContractCallVoteProofs s = ts_OracleVotingContractCallVoteProofs s0
      ++ option_list (pt_oracleVotingContractCallVoteProof p) ∧
    ts_OracleVotingContractCallVotes s = ts_OracleVotingContractCallVotes s0
      ++ option_list (pt_oracleVotingContractCallVote p) ∧
    ts_OracleVotingContractCallFinishes s = ts_OracleVotingContractCallFinishes s0
      ++ option_list (pt_oracleVotingContractCallFinish p) ∧
    ts_NewNotActualOracleVotingContracts s = ts_NewNotActualOracleVotingContracts s0
      ++ to_if (pt_oracleVotingContractCallFinish p) p
      ++ to_if (pt_oracleVotingContractTermination p) p ∧
    ts_OracleVotingContractCallProlongations s = ts_OracleVotingContractCallProlongations s0
      ++ option_list ((λ r, r <| ovl_Committee :=
      drawn p w (cache_if (pt_oracleVotingContractCallStart p) w cached)
        (ovl_VrfSeed r) |>) <$> pt_oracleVotingContractCallProlongation p) ∧
    ts_OracleVotingContractCallAddStakes s = ts_OracleVotingContractCallAddStakes s0
      ++ option_list (pt_oracleVotingContractCallAddStake p) ∧
    ts_OracleVotingContractTerminations s = ts_OracleVotingContractTerminations s0
      ++ option_list (pt_oracleVotingContractTermination p) ∧
    ts_OracleLockContracts s = ts_OracleLockContracts s0
      ++ option_list (pt_oracleLockContract p) ∧
    ts_OracleLockContractCallCheckOracleVotings s = ts_OracleLockContractCallCheckOracleVotings s0
      ++ option_list (pt_oracleLockContractCallCheckOracleVoting p) ∧
    ts_OracleLockContractCallPushes s = ts_OracleLockContractCallPushes s0
      ++ option_list (pt_oracleLockContractCallPush p) ∧
    ts_OracleLockContractTerminations s = ts_OracleLockContractTerminations s0
      ++ option_list (pt_oracleLockContractTermination p) ∧
    ts_RefundableOracleLockContracts s = ts_RefundableOracleLockContracts s0
      ++ option_list (pt_refundableOracleLockContract p) ∧
    ts_RefundableOracleLockContractCallDeposits s = ts_RefundableOracleLockContractCallDeposits s0
      ++ option_list (pt_refundableOracleLockContractCallDeposit p) ∧
    ts_RefundableOracleLockContractCallPushes s = ts_RefundableOracleLockContractCallPushes s0
      ++ option_list (pt_refundableOracleLockContractCallPush p) ∧
    ts_RefundableOracleLockContractCallRefunds s = ts_RefundableOracleLockContractCallRefunds s0
      ++ option_list (pt_refundableOracleLockContractCallRefund p) ∧
    ts_RefundableOracleLockContractTerminations s = ts_RefundableOracleLockContractTerminations s0
      ++ option_list (pt_refundableOracleLockContractTermination p) ∧
    ts_MultisigContracts s = ts_MultisigContracts s0
      ++ option_list (pt_multisigContract p) ∧
    ts_MultisigContractCallAdds s = ts_MultisigContractCallAdds s0
      ++ option_list (pt_multisigContractCallAdd p) ∧
    ts_MultisigContractCallSends s = ts_MultisigContractCallSends s0
      ++ option_list (pt_multisigContractCallSend p) ∧
    ts_MultisigContractCallPushes s = ts_MultisigContractCallPushes s0
      ++ option_list (pt_multisigContractCallPush p) ∧
    ts_MultisigContractTerminations s = ts_MultisigContractTerminations s0
      ++ option_list (pt_multisigContractTermination p) ∧
    ts_TimeLockContracts s = ts_TimeLockContracts s0
      ++ option_list (pt_timeLockContract p) ∧
    ts_TimeLockContractCallTransfers s = ts_TimeLockContractCallTransfers s0
      ++ option_list (pt_timeLockContractCallTransfer p) ∧
    ts_TimeLockContractTerminations s = ts_TimeLockContractTerminations s0
      ++ option_list (pt_timeLockContractTermination p).

(** The other fields. *)
Definition embedded_frame (s0 s : TxStats) : Prop :=
    ts_Contracts s = ts_Contracts s0 ∧
    ts_TxReceipts s = ts_TxReceipts s0 ∧
    ts_ContractTxsBalanceUpdates s = ts_ContractTxsBalanceUpdates s0 ∧
    ts_BalanceUpdates s = ts_BalanceUpdates s0 ∧
    ts_BalanceUpdateAddrs s = ts_BalanceUpdateAddrs s0 ∧
    ts_IdentityStateChanges s = ts_IdentityStateChanges s0 ∧
    ts_FeesByTxHash s = ts_FeesByTxHash s0 ∧
    ts_UsedGasByTxHash s = ts_UsedGasByTxHash s0 ∧
    ts_BlockGasUsed s = ts_BlockGasUsed s0 ∧
    ts_ActivationTxs s = ts_ActivationTxs s0 ∧
    ts_CandidateCountDiff s = ts_CandidateCountDiff s0 ∧
    ts_RemovedTransitiveDelegations s = ts_RemovedTransitiveDelegations s0 ∧
    ts_DelegationHistoryUpdates s = ts_DelegationHistoryUpdates s0 ∧
    ts_Tokens s = ts_Tokens s0 ∧
    ts_TokenBalanceUpdates s = ts_TokenBalanceUpdates s0.

Lemma applyEmbeddedContractTxReceipt_done p w st :
  ct_pendingTx st = Some p → embedded_ok p = true →
  ∃ s, applyEmbeddedContractTxReceipt w st
       = Done (list.last (call_methods p),
               mkCt _ s (ct_coins st) (ct_pendingTx st) (ct_identityStates st)
                 (cache_if (pt_oracleVotingContractCallProlongation p) w
                   (cache_if (pt_oracleVotingContractCallStart p) w (ct_identitiesByAddr st)))
                 (ct_tokens st)) ∧
    published p w (ct_identitiesByAddr st) (ct_stats st) s ∧ embedded_frame (ct_stats st) s.
Proof.
  intros Hp Hok. unfold embedded_ok in Hok.
  apply andb_true_iff in Hok as [Hctx Hto].
  destruct st as [s coins pend ids cache tokens]. destruct s. cbn in Hp.
  eexists. split.
  { unfold applyEmbeddedContractTxReceipt.
    erewrite bind_done by by apply pending_tx_done.
    change (@None Z) with (list.last (@nil Z)).
    do 1 step_record Hp.
    step_publish Hp Hctx Hto (λ o s0, s0 <| ct_stats ::= λ s, s
      <| ts_OracleVotingContractCallStarts ::= λ l, l ++ option_list ((λ r, r <| ovs_Committee := drawn p w (ct_identitiesByAddr s0) (ovs_VrfSeed r) |>) <$> o) |>
      <| ts_NewActualOracleVotingContracts ::= λ l, l ++ to_if o p |> |> <| ct_identitiesByAddr ::= cache_if o w |>).
    do 2 step_record Hp.
    step_publish Hp Hctx Hto (λ o s0, s0 <| ct_stats ::= λ s, s
      <| ts_OracleVotingContractCallFinishes ::= λ l, l ++ option_list o |>
      <| ts_NewNotActualOracleVotingContracts ::= λ l, l ++ to_if o p |> |>).
    step_publish Hp Hctx Hto (λ o s0, s0 <| ct_stats ::= λ s, s
      <| ts_OracleVotingContractCallProlongations ::= λ l, l ++ option_list ((λ r, r <| ovl_Committee := drawn p w (ct_identitiesByAddr s0) (ovl_VrfSeed r) |>) <$> o) |>
      <| ts_NewActualOracleVotingContracts ::= λ l, l ++ to_if o p |> |> <| ct_identitiesByAddr ::= cache_if o w |>).
    do 1 step_record Hp.
    step_publish Hp Hctx Hto (λ o s0, s0 <| ct_stats ::= λ s, s
      <| ts_OracleVotingContractTerminations ::= λ l, l ++ option_list o |>
      <| ts_NewNotActualOracleVotingContracts ::= λ l, l ++ to_if o p |> |>).
    do 17 step_record Hp.
    unfold call_methods, mret, M_ret. rewrite ?app_nil_r, ?app_nil_l, <- ?app_assoc. reflexivity. }
  unfold published, embedded_frame. split_and!; reflexivity.
Qed.

(** *** The receipt *)

(** The balances of an update are both nil or both not. *)
Definition balances_ok (u : ContractUpdate) : bool :=
  Bool.eqb (present (cu_BalanceOld u)) (present (cu_BalanceNew u)).

(** The update of the contract transaction that goes with one of its calls. *)
Definition tx_update (u : ContractUpdate) : ContractTxBalanceUpdate :=
  {| cbu_Address := cu_Address u; cbu_BalanceOld := cu_BalanceOld u;
     cbu_BalanceNew := cu_BalanceNew u; cbu_ContractAddress := cu_contractAddress u |}.

(** The sender's entry: the balances of the last of its updates. *)
Definition sender_entry (sender : Address) (us : list ContractUpdate)
    (su : ContractTxBalanceUpdate) : ContractTxBalanceUpdate :=
  match list.last (updates_of sender us) with
  | Some u => sender_update sender (cu_BalanceOld u) (cu_BalanceNew u)
  | None => su
  end.

Lemma sender_entry_cons sender u us su :
  sender_entry sender (u :: us) su
  = sender_entry sender us
      (if decide (cu_Address u = sender)
       then sender_update sender (cu_BalanceOld u) (cu_BalanceNew u) else su).
Proof.
  unfold sender_entry. rewrite filter_cons. destruct (decide _); [|done].
  rewrite last_cons. by destruct (list.last _).
Qed.

Lemma isContractUpdateChanged_done u st :
  balances_ok u = true →
  isContractUpdateChanged u st = Done (bool_decide (cu_BalanceOld u ≠ cu_BalanceNew u), st).
Proof.
  unfold balances_ok, isContractUpdateChanged. intros Hok.
  destruct (cu_BalanceOld u) as [o|], (cu_BalanceNew u) as [n|]; try discriminate Hok; cbn.
  - unfold mret, M_ret. f_equal. f_equal. destruct (Z.eqb_spec o n) as [->|Hne]; cbn.
    + symmetry. apply bool_decide_eq_false. naive_solver.
    + symmetry. apply bool_decide_eq_true. congruence.
  - done.
Qed.

Lemma publish_updates_done sender us su others st :
  forallb balances_ok us = true →
  ∃ A, publish_updates sender us su others st
  = Done ((sender_entry sender (changed_updates us) su,
           others ++ (tx_update <$> updates_of_others sender (changed_updates us))),
          st <| ct_stats ::= λ s, s <| ts_BalanceUpdates ::= λ l, l ++ changed_updates us |>
                                    <| ts_BalanceUpdateAddrs := A |> |>).
Proof.
  revert su others st. induction us as [|u us IH]; intros su others st Hok.
  { exists (ts_BalanceUpdateAddrs (ct_stats st)).
    destruct st as [[]]. unfold sender_entry. cbn. by rewrite !app_nil_r. }
  apply andb_true_iff in Hok as [Hu Hus]. cbn [publish_updates].
  rewrite filter_cons.
  erewrite bind_done by by apply isContractUpdateChanged_done.
  destruct (decide (cu_BalanceOld u ≠ cu_BalanceNew u)) as [Hne|Heq].
  2:{ rewrite bool_decide_false by done. apply IH, Hus. }
  rewrite bool_decide_true by done. cbn [negb].
  erewrite bind_done by reflexivity.
  rewrite sender_entry_cons. rewrite filter_cons.
  destruct (decide (cu_Address u = sender)) as [Hs|Hs].
  - rewrite decide_False by tauto. edestruct IH as [A HA]; [done|]. exists A. rewrite HA.
    destruct st as [[]]. cbn. by rewrite <- app_assoc.
  - rewrite decide_True by done. edestruct IH as [A HA]; [done|]. exists A. rewrite HA.
    destruct st as [[]]. cbn. by rewrite <- !app_assoc.
Qed.

(** The coins after those of the calls are burnt. *)
Definition burn_all (tx : Tx) (bs : list PendingBurnt) (c : Coins) : Coins :=
  foldl (λ c b, addBurntCoins (pb_address b) (Some (pb_amount b))
    (if pb_termination b then ContractTerminationBurntCoins else ContractBurntCoins)
    (Some tx) c) c bs.

Lemma burn_pending_done tx bs st :
  for_each bs (burn_pending tx) st = Done (tt, st <| ct_coins ::= burn_all tx bs |>).
Proof.
  revert st. induction bs as [|b bs IH]; intros st; cbn [for_each].
  { by destruct st. }
  erewrite bind_done by reflexivity. rewrite IH. by destruct st.
Qed.

Lemma burn_all_total tx bs c :
  or_zero (co_BurntCoins (burn_all tx bs c)) = (or_zero (co_BurntCoins c) + sumZ pb_amount bs)%Z.
Proof.
  revert c. induction bs as [|b bs IH]; intros c; cbn [burn_all foldl sumZ]; [lia|].
  etrans; [apply IH|]. unfold addBurntCoins. destruct (nil_or_zero _) eqn:Hz.
  - apply nil_or_zero_spec in Hz. cbn in Hz. lia.
  - cbn. lia.
Qed.

(** The entry of [ContractTxsBalanceUpdates] a receipt makes. *)
Definition receipt_entry p (r : TxReceipt) (method : option Z)
    (updates : list ContractTxBalanceUpdate) : list ContractTxBalanceUpdates :=
  if bool_decide (rc_ContractAddress r = zeroAddress)
     || bool_decide (tx_Type (pt_tx p) = DeployContractTx) && negb (rc_Success r) then [] else
  [{| cbs_TxHash := tx_Hash (pt_tx p); cbs_ContractAddress := rc_ContractAddress r;
      cbs_ContractCallMethod := method; cbs_Updates := updates |}].

(** [AddTxReceipt] after the records and the balances: the entry and the tokens. *)
Definition receipt_rest p (r : TxReceipt) (w : AppState) (method : option Z)
    (deployed : list Address) (updates : list ContractTxBalanceUpdate) st : Ct :=
  st <| ct_stats ::= λ s,
          s <| ts_ContractTxsBalanceUpdates ::= λ l, l ++ receipt_entry p r method updates |>
            <| ts_Tokens ::= λ l, l ++ detectTokens deployed w |>
            <| ts_TokenBalanceUpdates := (applyTxReceipt (ct_tokens st) r w).2 |> |>
     <| ct_tokens := (applyTxReceipt (ct_tokens st) r w).1 |>.

Lemma failed_done p r w st :
  ct_pendingTx st = Some p → rc_Success r = false →
  AddTxReceipt r w st
  = Done (tt, receipt_rest p r w None [] [sender_update (tx_Sender (pt_tx p)) None None]
                (st <| ct_stats ::= λ s, s <| ts_TxReceipts ::= λ l, l ++ [r] |> |>)).
Proof.
  intros Hp Hr. unfold AddTxReceipt. erewrite bind_done by reflexivity.
  erewrite bind_done by by apply pending_tx_done. cbn zeta. rewrite Hr.
  erewrite bind_done by reflexivity. unfold receipt_rest, receipt_entry. rewrite Hr.
  destruct st as [[]]. unfold collectTokens, collectTokenBalanceUpdates, set_stats, modify_st, mbind, M_bind, mret, M_ret.
  destruct (bool_decide (rc_ContractAddress r = _)), (bool_decide (tx_Type _ = _));
    cbn; by rewrite ?app_nil_r.
Qed.

Lemma successful_done p r w st :
  ct_pendingTx st = Some p → rc_Success r = true → embedded_ok p = true →
  forallb balances_ok (pt_contractBalanceUpdates p) = true →
  ∃ s A c,
    published p w (ct_identitiesByAddr st) (ct_stats st) s ∧
    embedded_frame ((ct_stats st) <| ts_TxReceipts ::= λ l, l ++ [r] |>) s ∧
    AddTxReceipt r w st
    = Done (tt, receipt_rest p r w (list.last (call_methods p))
        (wasm_order (pt_deployedWasmContracts p)).*1
        (sender_entry (tx_Sender (pt_tx p)) (changed_updates (pt_contractBalanceUpdates p))
           (sender_update (tx_Sender (pt_tx p)) None None)
         :: (tx_update <$> updates_of_others (tx_Sender (pt_tx p))
                             (changed_updates (pt_contractBalanceUpdates p))))
        (mkCt _ (s <| ts_Contracts ::= λ l, l ++
                  ((λ ac, mkContract (tx_Hash (pt_tx p)) ac.1 ac.2)
                    <$> wasm_order (pt_deployedWasmContracts p)) |>
                 <| ts_BalanceUpdates ::= λ l, l ++ changed_updates (pt_contractBalanceUpdates p) |>
                 <| ts_BalanceUpdateAddrs := A |>)
          (burn_all (pt_tx p) (pt_contractBurntCoins p) (ct_coins st)) (Some p)
          (ct_identityStates st) c (ct_tokens st))).
Proof.
  intros Hp Hr Hok Hbal. unfold AddTxReceipt.
  set (st0 := st <| ct_stats ::= λ s, s <| ts_TxReceipts ::= λ l, l ++ [r] |> |>).
  destruct (applyEmbeddedContractTxReceipt_done p w st0 Hp Hok) as (s & Happly & Hpub & Hfr).
  set (st1 := mkCt _ (s <| ts_Contracts ::= λ l, l ++
                  ((λ ac, mkContract (tx_Hash (pt_tx p)) ac.1 ac.2)
                    <$> wasm_order (pt_deployedWasmContracts p)) |>)
                (ct_coins st) (ct_pendingTx st) (ct_identityStates st)
                (cache_if (pt_oracleVotingContractCallProlongation p) w
                   (cache_if (pt_oracleVotingContractCallStart p) w (ct_identitiesByAddr st)))
                (ct_tokens st)).
  destruct (publish_updates_done (tx_Sender (pt_tx p)) (pt_contractBalanceUpdates p)
              (sender_update (tx_Sender (pt_tx p)) None None) [] st1 Hbal) as [A HA].
  exists s, A, (ct_identitiesByAddr st1). split; [exact Hpub|]. split; [exact Hfr|].
  erewrite bind_done by reflexivity.
  erewrite bind_done by by apply pending_tx_done. cbn zeta. rewrite Hr.
  etrans.
  { apply bind_done. etrans; [apply bind_done, Happly|]. cbn beta.
    etrans; [apply bind_done; reflexivity|]. cbn beta.
    etrans; [apply bind_done, HA|]. cbn beta.
    etrans; [apply bind_done, burn_pending_done|]. cbn beta. reflexivity. }
  cbn beta iota. unfold receipt_rest, receipt_entry. rewrite Hr.
  cbn [negb andb]. rewrite ?andb_false_r, ?andb_true_r, ?orb_false_r. cbn [negb andb].
  rewrite ?andb_true_r.
  cbn in Hp. destruct s, st as [[]]. cbn in Hp. subst.
  unfold collectTokens, collectTokenBalanceUpdates, set_stats, modify_st, mbind, M_bind, mret, M_ret.
  destruct (bool_decide (rc_ContractAddress r = _)); cbn; by rewrite ?app_nil_r.
Qed.

(** [C10]  A successful receipt publishes every record the embedded contracts left in
    the transaction, once and in the list of its kind, and names the contracts whose
    voting it makes actual or not actual; a start and a prolongation are published
    with the committee drawn for their seed; the entry of the contract has the call
    method of the last record that has one, and the code of every deployed contract
    is published with the hash of the transaction. *)
Theorem receipt_publishes_records p r w st :
  ct_pendingTx st = Some p → rc_Success r = true → embedded_ok p = true →
  forallb balances_ok (pt_contractBalanceUpdates p) = true →
  ∃ st' updates, AddTxReceipt r w st = Done (tt, st') ∧
    published p w (ct_identitiesByAddr st) (ct_stats st) (ct_stats st') ∧
    ts_TxReceipts (ct_stats st') = ts_TxReceipts (ct_stats st) ++ [r] ∧
    ts_Contracts (ct_stats st') = ts_Contracts (ct_stats st)
      ++ ((λ ac, mkContract (tx_Hash (pt_tx p)) ac.1 ac.2)
            <$> wasm_order (pt_deployedWasmContracts p)) ∧
    ts_ContractTxsBalanceUpdates (ct_stats st') = ts_ContractTxsBalanceUpdates (ct_stats st)
      ++ receipt_entry p r (list.last (call_methods p)) updates.
Proof.
  intros Hp Hr Hok Hbal.
  destruct (successful_done p r w st Hp Hr Hok Hbal) as (s & A & c & Hpub & Hfr & Hdone).
  eexists _, _. split; [exact Hdone|]. split; [exact Hpub|].
  destruct Hfr as (Hc & Htr & Htx & _). split_and!.
  - exact Htr.
  - cbn. by rewrite Hc.
  - cbn. by rewrite Htx.
Qed.

(** A successful receipt publishes the balance updates of its calls that change
    a balance, in the order of the calls; the entry of the contract has one update
    for each of them that is not of the sender, and for the sender the balances of
    the last of its own (nil without one); the block burns what the calls burnt; and
    the tokens of the deployed contracts and the balances of their holders are read. *)
Theorem receipt_publishes_balances p r w st :
  ct_pendingTx st = Some p → rc_Success r = true → embedded_ok p = true →
  forallb balances_ok (pt_contractBalanceUpdates p) = true →
  let us := changed_updates (pt_contractBalanceUpdates p) in
  let sender := tx_Sender (pt_tx p) in
  ∃ st' method, AddTxReceipt r w st = Done (tt, st') ∧
    ts_BalanceUpdates (ct_stats st') = ts_BalanceUpdates (ct_stats st) ++ us ∧
    ts_ContractTxsBalanceUpdates (ct_stats st') = ts_ContractTxsBalanceUpdates (ct_stats st)
      ++ receipt_entry p r method
           (sender_entry sender us (sender_update sender None None)
            :: (tx_update <$> updates_of_others sender us)) ∧
    or_zero (co_BurntCoins (ct_coins st'))
      = (or_zero (co_BurntCoins (ct_coins st)) + sumZ pb_amount (pt_contractBurntCoins p))%Z ∧
    ts_Tokens (ct_stats st') = ts_Tokens (ct_stats st)
      ++ detectTokens (wasm_order (pt_deployedWasmContracts p)).*1 w ∧
    ts_TokenBalanceUpdates (ct_stats st') = (applyTxReceipt (ct_tokens st) r w).2 ∧
    ct_pendingTx st' = Some p.
Proof.
  intros Hp Hr Hok Hbal us sender.
  destruct (successful_done p r w st Hp Hr Hok Hbal) as (s & A & c & _ & Hfr & Hdone).
  eexists _, _. split; [exact Hdone|].
  destruct Hfr as (_ & _ & Htx & Hbu & _ & _ & _ & _ & _ & _ & _ & _ & _ & Htok & _). cbn.
  rewrite Hbu, Htx, Htok, burn_all_total. done.
Qed.

(** [C11]  A failed receipt publishes none of the records, balance updates, burnt coins
    and contracts of its transaction: besides the receipt, the entry of the contract
    (not of a deployment) has only the sender, with no balances and no call method,
    and the balances of the token holders the receipt names are read again. *)
Theorem failed_receipt_publishes_nothing p r w st :
  ct_pendingTx st = Some p → rc_Success r = false →
  AddTxReceipt r w st
  = Done (tt, mkCt _
      ((ct_stats st) <| ts_TxReceipts ::= λ l, l ++ [r] |>
         <| ts_ContractTxsBalanceUpdates ::= λ l, l ++
              (if bool_decide (rc_ContractAddress r = zeroAddress)
                  || bool_decide (tx_Type (pt_tx p) = DeployContractTx) then [] else
               [mkContractTxBalanceUpdates (tx_Hash (pt_tx p)) (rc_ContractAddress r) None
                  [sender_update (tx_Sender (pt_tx p)) None None]]) |>
         <| ts_TokenBalanceUpdates := (applyTxReceipt (ct_tokens st) r w).2 |>)
      (ct_coins st) (ct_pendingTx st) (ct_identityStates st) (ct_identitiesByAddr st)
      (applyTxReceipt (ct_tokens st) r w).1).
Proof.
  intros Hp Hr. rewrite (failed_done p) by done. unfold receipt_rest, receipt_entry.
  rewrite Hr, andb_true_r. destruct st as [[]]. cbn. by rewrite !app_nil_r.
Qed.

(** *** The states of the sender and of the recipient *)

(** The addresses whose states [BeginApplyingTx] keeps. *)
Definition participants (tx : Tx) : list Address :=
  tx_Sender tx :: option_list (other_recipient tx).

Definition is_candidate (w : AppState) (a : Address) : Z :=
  if bool_decide (GetIdentityState w a = CandidateState) then 1 else 0.

Lemma state_change_diff a prev new :
  sumZ (λ c, candidate_diff c.2) (state_change a prev new)
  = ((if bool_decide (new = CandidateState) then 1 else 0)
     - (if bool_decide (prev = CandidateState) then 1 else 0))%Z.
Proof.
  unfold state_change. destruct (decide (prev = new)) as [->|Hne]; cbn; [lia|].
  unfold candidate_diff. cbn. lia.
Qed.

(** The change of state of the address between two application states. *)
Definition change_of (w0 w1 : AppState) (a : Address) : list (Address * IdentityStateChange) :=
  state_change a (GetIdentityState w0 a) (GetIdentityState w1 a).

(** [st] is between the two calls: the transaction is [tx], seen first in [w0]. *)
Definition applying (tx : Tx) (w0 : AppState) st : Prop :=
  (∃ p, ct_pendingTx st = Some p ∧ pt_tx p = tx ∧ pt_inviteTxHash p = activation_invite tx w0) ∧
  ct_identityStates st = GetIdentityState w0 <$> participants tx.

(** An activation has a recipient and an inviter. *)
Definition activation_ok (tx : Tx) (w0 : AppState) : bool :=
  implb (bool_decide (tx_Type tx = ActivationTx))
        (present (tx_To tx) && present (activation_invite tx w0)).

(** The entry of a transaction sent to a contract that is not a contract
    transaction. *)
Definition sent_entry (tx : Tx) (w : AppState) : list ContractTxBalanceUpdates :=
  if isContractTx tx then [] else
  (λ to, mkContractTxBalanceUpdates (tx_Hash tx) to None [sender_update (tx_Sender tx) None None])
    <$> filter (λ to, isContractAddress to w = true) (option_list (tx_To tx)).

Definition activation_entry (tx : Tx) (w0 w : AppState) : list ActivationTxRecord :=
  if decide (tx_Type tx = ActivationTx) then
    to ← option_list (tx_To tx);
    ih ← option_list (activation_invite tx w0);
    [mkActivationTxRecord (hash_Hex (tx_Hash tx)) (hash_Hex ih) (GetShardId w to)]
  else [].

Lemma collectTxSentToContract_done p w st :
  ct_pendingTx st = Some p →
  collectTxSentToContract w st
  = Done (tt, st <| ct_stats ::= λ s,
      s <| ts_ContractTxsBalanceUpdates ::= λ l, l ++ sent_entry (pt_tx p) w |> |>).
Proof.
  intros Hp. unfold collectTxSentToContract. erewrite bind_done by by apply pending_tx_done.
  unfold sent_entry. destruct st as [[]]. cbn zeta. destruct (isContractTx _); cbn.
  { by rewrite app_nil_r. }
  destruct (tx_To (pt_tx p)) as [to|]; cbn; [|by rewrite app_nil_r].
  destruct (isContractAddress to w) eqn:Hc; cbn; by rewrite ?app_nil_r.
Qed.

Lemma collectActivationTx_done p w0 w st :
  ct_pendingTx st = Some p → pt_inviteTxHash p = activation_invite (pt_tx p) w0 →
  activation_ok (pt_tx p) w0 = true →
  collectActivationTx w st
  = Done (tt, st <| ct_stats ::= λ s,
      s <| ts_ActivationTxs ::= λ l, l ++ activation_entry (pt_tx p) w0 w |> |>).
Proof.
  intros Hp Hinv Hok. unfold collectActivationTx. erewrite bind_done by by apply pending_tx_done.
  unfold activation_entry. unfold activation_ok in Hok. destruct st as [[]]. cbn zeta.
  destruct (decide (tx_Type (pt_tx p) = ActivationTx)) as [Hty|Hty].
  2:{ rewrite decide_True by done. cbn. by rewrite app_nil_r. }
  rewrite bool_decide_true in Hok by done. rewrite decide_False by (by intros Hn; apply Hn).
  rewrite Hinv. destruct (tx_To (pt_tx p)); [|done]. by destruct (activation_invite _ _).
Qed.

Lemma collectDelegationHistoryUpdate_done p st :
  ct_pendingTx st = Some p →
  collectDelegationHistoryUpdate st
  = Done (tt, st <| ct_stats ::= λ s,
      s <| ts_DelegationHistoryUpdates ::= λ l, l ++ option_list (delegation_update (pt_tx p)) |> |>).
Proof.
  intros Hp. unfold collectDelegationHistoryUpdate.
  erewrite bind_done by by apply pending_tx_done. destruct st as [[]].
  destruct (delegation_update _); cbn; by rewrite ?app_nil_r.
Qed.

(** The changes [CompleteApplyingTx] finds. *)
Definition changes (tx : Tx) (w0 w1 : AppState) : list (Address * IdentityStateChange) :=
  participants tx ≫= change_of w0 w1.

Definition completed_stats (tx : Tx) (w0 w1 : AppState) (s : TxStats) : TxStats :=
  s <| ts_IdentityStateChanges ::= λ m,
         if decide (changes tx w0 w1 = []) then m
         else <[tx_Hash tx := list_to_map (changes tx w0 w1)]> m |>
    <| ts_CandidateCountDiff ::= λ d, (d + sumZ (λ c, candidate_diff c.2) (changes tx w0 w1))%Z |>
    <| ts_ContractTxsBalanceUpdates ::= λ l, l ++ sent_entry tx w1 |>
    <| ts_ActivationTxs ::= λ l, l ++ activation_entry tx w0 w1 |>
    <| ts_DelegationHistoryUpdates ::= λ l, l ++ option_list (delegation_update tx) |>.

Lemma CompleteApplyingTx_done tx w0 w1 st :
  applying tx w0 st → activation_ok tx w0 = true →
  CompleteApplyingTx w1 st
  = Done (tt, st <| ct_stats ::= completed_stats tx w0 w1 |> <| ct_pendingTx := None |>).
Proof.
  intros [(p & Hp & <- & Hinv) Hids] Hok. unfold CompleteApplyingTx.
  erewrite bind_done by by apply pending_tx_done. erewrite bind_done by reflexivity.
  cbn zeta. rewrite Hids. unfold participants at 1. cbn [fmap list_fmap].
  erewrite bind_done by reflexivity.
  set (st1 := st <| ct_stats ::= λ s, s <| ts_IdentityStateChanges ::= λ m,
         if decide (changes (pt_tx p) w0 w1 = []) then m
         else <[tx_Hash (pt_tx p) := list_to_map (changes (pt_tx p) w0 w1)]> m |>
    <| ts_CandidateCountDiff ::= λ d, (d + sumZ (λ c, candidate_diff c.2) (changes (pt_tx p) w0 w1))%Z |> |>).
  assert (∀ (f : list (Address * IdentityStateChange) → M Ct unit),
    (match other_recipient (pt_tx p) with
     | Some to => deref ((GetIdentityState w0 <$> participants (pt_tx p)) !! 1) ≫= λ prev,
                  mret (state_change to prev (GetIdentityState w1 to))
     | None => mret []
     end ≫= f) st = f (option_list (other_recipient (pt_tx p)) ≫= change_of w0 w1) st) as Hc2.
  { intros f. unfold participants. destruct (other_recipient _) as [to|]; cbn; [|done].
    by rewrite app_nil_r. }
  etrans; [apply Hc2|]. clear Hc2.
  etrans; [apply (bind_done _ _ _ tt st1)|].
  { unfold st1. change (state_change _ _ _ ++ _) with (changes (pt_tx p) w0 w1).
    destruct (decide _) as [->|?]; destruct st as [[]]; cbn; [|done]. by rewrite Z.add_0_r. }
  etrans; [apply bind_done, (collectTxSentToContract_done p), Hp|].
  etrans; [apply bind_done, (collectActivationTx_done p w0); done|].
  etrans; [apply bind_done, (collectDelegationHistoryUpdate_done p), Hp|].
  clear. unfold st1, completed_stats, modify_st. generalize (changes (pt_tx p) w0 w1) as chs.
  intros chs. destruct st as [s]. reflexivity.
Qed.

Lemma changes_diff tx w0 w1 :
  sumZ (λ c, candidate_diff c.2) (changes tx w0 w1)
  = sumZ (λ a, is_candidate w1 a - is_candidate w0 a)%Z (participants tx).
Proof.
  unfold changes. induction (participants tx) as [|a l IH]; cbn; [done|].
  rewrite sumZ_app. unfold change_of at 1. rewrite state_change_diff. unfold is_candidate at 1 2. lia.
Qed.

Lemma changes_lookup tx w0 w1 a :
  (list_to_map (changes tx w0 w1) : gmap Address IdentityStateChange) !! a
  = if decide (a ∈ participants tx ∧ GetIdentityState w0 a ≠ GetIdentityState w1 a)
    then Some (mkIdentityStateChange (GetIdentityState w0 a) (GetIdentityState w1 a)) else None.
Proof.
  unfold changes. induction (participants tx) as [|b l IH]; cbn.
  { rewrite decide_False; [done|]. intros [H1 _]. by apply elem_of_nil in H1. }
  rewrite list_to_map_app, lookup_union, IH. unfold change_of at 1, state_change.
  destruct (decide (a = b)) as [->|Hne].
  - destruct (decide (GetIdentityState w0 b = GetIdentityState w1 b)) as [He|He]; cbn.
    + rewrite lookup_empty, !decide_False by tauto. done.
    + rewrite lookup_insert_eq. rewrite (decide_True (P := b ∈ b :: l ∧ _)) by (split; [left|done]).
      by destruct (decide _).
  - assert ((list_to_map (if decide (GetIdentityState w0 b = GetIdentityState w1 b) then []
      else [(b, mkIdentityStateChange (GetIdentityState w0 b) (GetIdentityState w1 b))])
      : gmap Address IdentityStateChange) !! a = None) as ->.
    { destruct (decide (GetIdentityState w0 b = GetIdentityState w1 b)).
      - by rewrite list_to_map_nil, lookup_empty.
      - by rewrite list_to_map_cons, list_to_map_nil, lookup_insert_ne, lookup_empty. }
    rewrite (left_id None _). apply decide_ext. rewrite elem_of_cons. tauto.
Qed.

(** From [BeginApplyingTx] in a state to [CompleteApplyingTx] in another,
    whatever the methods called in between as long as they leave the transaction and
    the states kept at the beginning: the count of candidates changes by the
    difference, over the sender and the recipient, of being a candidate in the two
    states; the change of an address is published under the hash of the transaction
    exactly when its two states differ; a delegation, an undelegation, an activation
    and a transfer to a contract leave their record; and no transaction is left. *)
Theorem applied_tx_changes (tx : Tx) (w0 w1 : AppState) (body : M Ct unit) st :
  activation_ok tx w0 = true →
  (∀ st1, applying tx w0 st1 → wp body (λ _ st2, applying tx w0 st2 ∧
     ts_CandidateCountDiff (ct_stats st2) = ts_CandidateCountDiff (ct_stats st1) ∧
     ts_IdentityStateChanges (ct_stats st2) = ts_IdentityStateChanges (ct_stats st1)) st1) →
  wp (BeginApplyingTx tx w0;; body;; CompleteApplyingTx w1) (λ _ st',
    ct_pendingTx st' = None ∧
    ts_CandidateCountDiff (ct_stats st')
    = (ts_CandidateCountDiff (ct_stats st)
       + sumZ (λ a, is_candidate w1 a - is_candidate w0 a)%Z (participants tx))%Z ∧
    (∀ a, (ts_IdentityStateChanges (ct_stats st') !! tx_Hash tx ≫= lookup a) =
       if decide (a ∈ participants tx ∧ GetIdentityState w0 a ≠ GetIdentityState w1 a)
       then Some (mkIdentityStateChange (GetIdentityState w0 a) (GetIdentityState w1 a))
       else if decide (changes tx w0 w1 = []) then
         ts_IdentityStateChanges (ct_stats st) !! tx_Hash tx ≫= lookup a else None)) st.
Proof.
  intros Hok Hbody. unfold BeginApplyingTx. wp_step. wp_step. wp_step.
  wp_call Hbody.
  { split; [|done]. by eexists. }
  intros _ st2 (Happ & Hcd & Hch). cbn in Hcd, Hch.
  unfold wp. rewrite (CompleteApplyingTx_done tx w0 w1) by done.
  split; [done|]. split.
  { rewrite <- changes_diff, <- Hcd. done. }
  intros a. rewrite <- Hch.
  change ((if decide (changes tx w0 w1 = []) then ts_IdentityStateChanges (ct_stats st2)
           else <[tx_Hash tx := list_to_map (changes tx w0 w1)]>
                  (ts_IdentityStateChanges (ct_stats st2))) !! tx_Hash tx ≫= lookup a = 
          if decide (a ∈ participants tx ∧ GetIdentityState w0 a ≠ GetIdentityState w1 a)
          then Some (mkIdentityStateChange (GetIdentityState w0 a) (GetIdentityState w1 a))
          else if decide (changes tx w0 w1 = []) then
            ts_IdentityStateChanges (ct_stats st2) !! tx_Hash tx ≫= lookup a else None).
  destruct (decide (changes tx w0 w1 = [])) as [He|He].
  - pose proof (changes_lookup tx w0 w1 a) as Hl. rewrite He in Hl. cbn in Hl.
    rewrite lookup_empty in Hl. by destruct (decide (_ ∧ _)).
  - rewrite lookup_insert_eq. etrans; [apply changes_lookup|]. by destruct (decide (_ ∧ _)).
Qed.

(** ** Call frames *)

(** What a contract call does, as the collector hears of it: it changes the balance
    of an address, burns coins, or calls another contract in a frame of its own,
    which is applied to the caller's when the call succeeds and dropped otherwise. *)
#[warnings="-register-all"]
Inductive CallEvent :=
  | EvBalance (contract : option Address) (address : Address) (current new : option Z)
  | EvBurn (address : Address) (amount : option Z)
  | EvCall (sub : frame) (ok : bool) (events : list CallEvent).

Fixpoint run_event (w : AppState) (fr : frame) (e : CallEvent) : M Ct unit :=
  match e with
  | EvBalance c a current new => AddContractBalanceUpdate c a (λ _, current) new w fr
  | EvBurn a amount => AddContractBurntCoins a (λ _, amount) fr
  | EvCall sub ok events =>
      (fix run_all (l : list CallEvent) : M Ct unit :=
         match l with
         | [] => mret tt
         | e :: l => run_event w sub e;; run_all l
         end) events;;
      if ok then ApplyContractBalanceUpdates sub (Some fr) else mret tt
  end.

(** What the successful calls of an event burn of the address. *)
Fixpoint burnt_of (a : Address) (e : CallEvent) : Z :=
  match e with
  | EvBalance _ _ _ _ => 0
  | EvBurn b amount => if decide (a = b) then or_zero amount else 0
  | EvCall _ ok events => if ok then sumZ (burnt_of a) events else 0
  end.

(** The frames an event opens. *)
Fixpoint frames_of (e : CallEvent) : list frame :=
  match e with
  | EvCall sub _ events => sub :: concat (map frames_of events)
  | _ => []
  end.

(** A transaction: the events of its outermost frame, then its application. *)
Definition run_call (w : AppState) (root : frame) (events : list CallEvent) : M Ct unit :=
  for_each events (run_event w root);; ApplyContractBalanceUpdates root None.

Lemma run_call_event w fr sub ok events :
  run_event w fr (EvCall sub ok events)
  = (for_each events (run_event w sub);;
     if ok then ApplyContractBalanceUpdates sub (Some fr) else mret tt).
Proof.
  cbn. f_equal. induction events as [|e l IH]; cbn; [done|]. f_equal.
  by rewrite IH.
Qed.

Lemma CallEvent_nested_ind (P : CallEvent → Prop) :
  (∀ c a cur new, P (EvBalance c a cur new)) →
  (∀ a amount, P (EvBurn a amount)) →
  (∀ sub ok events, Forall P events → P (EvCall sub ok events)) →
  ∀ e, P e.
Proof.
  intros Hbal Hburn Hcall. fix IH 1. intros [c a cur new|a amount|sub ok events].
  - apply Hbal.
  - apply Hburn.
  - apply Hcall. induction events as [|e l IHl]; constructor; [apply IH|apply IHl].
Qed.

(** The amount burnt of the address. *)
Definition burnt_amount (a : Address) (bs : list PendingBurnt) : Z :=
  sumZ (λ b, if decide (a = pb_address b) then pb_amount b else 0%Z) bs.

Definition burnt_in p (fr : frame) : BurntCache :=
  default emptyBurntCache (pt_contractBurntCoinsCache p !! fr).

(** The index of a cache names entries of its address. *)
Definition bn_wf (c : BurntCache) : Prop :=
  ∀ a i, bn_coinsByAddress c !! a = Some i →
    ∃ b, bn_coins c !! i = Some b ∧ pb_address b = a.

Definition live st p : Prop :=
  ct_pendingTx st = Some p ∧ ∀ fr c, pt_contractBurntCoinsCache p !! fr = Some c → bn_wf c.

Lemma live_burnt_in st p fr : live st p → bn_wf (burnt_in p fr).
Proof.
  intros [_ Hwf]. unfold burnt_in. destruct (pt_contractBurntCoinsCache p !! fr) eqn:Hc; cbn.
  - by eapply Hwf.
  - intros a i. cbn. by rewrite lookup_empty.
Qed.

Lemma bn_add_spec c a amount :
  bn_wf c →
  bn_wf (bn_add c a amount) ∧
  ∀ a', burnt_amount a' (bn_coins (bn_add c a amount))
        = (burnt_amount a' (bn_coins c) + if decide (a' = a) then or_zero amount else 0)%Z.
Proof.
  intros Hwf. unfold bn_add. destruct (nil_or_zero amount) eqn:Hz.
  { apply nil_or_zero_spec in Hz. rewrite Hz. split; [done|]. intros a'. destruct (decide _); lia. }
  destruct (bn_coinsByAddress c !! a) as [i|] eqn:Hi; split.
  - destruct (Hwf a i Hi) as (b & Hb & Ha). intros a' j Hj. cbn in Hj.
    destruct (Hwf a' j Hj) as (b' & Hb' & Ha'). cbn.
    rewrite (list_alter_insert_step _ _ i b) by done. destruct (decide (i = j)) as [<-|Hne].
    + eexists. rewrite list_lookup_insert_eq by by eapply lookup_lt_Some. split; [done|].
      cbn. by simplify_eq.
    + rewrite list_lookup_insert_ne by done. eauto.
  - destruct (Hwf a i Hi) as (b & Hb & Ha). intros a'. cbn.
    rewrite (list_alter_insert_step _ _ i b) by done. unfold burnt_amount.
    rewrite (sumZ_insert _ _ i b) by done. cbn. rewrite Ha. destruct (decide (a' = a)); lia.
  - intros a' j. cbn. rewrite lookup_insert_Some. intros [[<- <-]|[_ Hj]].
    + eexists. rewrite lookup_app_r, Nat.sub_diag by lia. done.
    + destruct (Hwf a' j Hj) as (b & Hb & Ha). exists b. by rewrite (lookup_app_l_Some _ _ _ _ Hb).
  - intros a'. cbn. unfold burnt_amount. rewrite sumZ_snoc. done.
Qed.

Lemma bn_import_spec c d :
  bn_wf c →
  bn_wf (bn_importFrom c d) ∧
  ∀ a, burnt_amount a (bn_coins (bn_importFrom c d))
       = (burnt_amount a (bn_coins c) + burnt_amount a (bn_coins d))%Z.
Proof.
  intros Hwf. split.
  - intros a i Hi. destruct (Hwf a i Hi) as (b & Hb & Ha). exists b. cbn.
    by rewrite (lookup_app_l_Some _ _ _ _ Hb).
  - intros a. apply sumZ_app.
Qed.

(** The effect of an event of the frame [fr] on the burnt coins: what the frame holds
    grows by [f], and only its cache and those of [subs] change. *)
Definition burns (fr : frame) (subs : list frame) (f : Address → Z) p p' : Prop :=
  (∀ a, burnt_amount a (bn_coins (burnt_in p' fr))
        = (burnt_amount a (bn_coins (burnt_in p fr)) + f a)%Z) ∧
  (∀ fr', fr' ≠ fr → fr' ∉ subs →
     pt_contractBurntCoinsCache p' !! fr' = pt_contractBurntCoinsCache p !! fr') ∧
  pt_contractBurntCoins p' = pt_contractBurntCoins p.

Lemma getOrPutContractBurntCoinsCache_done fr st p :
  live st p →
  ∃ st' p', getOrPutContractBurntCoinsCache fr st = Done (burnt_in p fr, st') ∧ live st' p' ∧
    pt_contractBurntCoinsCache p' = <[fr := burnt_in p fr]> (pt_contractBurntCoinsCache p) ∧
    pt_contractBurntCoins p' = pt_contractBurntCoins p ∧ pt_tx p' = pt_tx p.
Proof.
  intros [Hp Hwf]. unfold getOrPutContractBurntCoinsCache, burnt_in.
  erewrite bind_done by by apply pending_tx_done.
  destruct (pt_contractBurntCoinsCache p !! fr) as [c|] eqn:Hc.
  - exists st, p. split_and!; [done|by split|by rewrite insert_id|done|done].
  - erewrite bind_done by by apply set_pending_done.
    eexists _, (p <| pt_contractBurntCoinsCache ::= insert fr emptyBurntCache |>).
    split; [reflexivity|]. split; [|done]. split; [reflexivity|]. cbn. intros f c.
    rewrite lookup_insert_Some. intros [[<- <-]|[_ ?]]; [|by eapply Hwf].
    intros a i. cbn. by rewrite lookup_empty.
Qed.

Lemma getOrPutContractBalanceUpdateCache_done fr st p :
  ct_pendingTx st = Some p →
  ∃ c st' p', getOrPutContractBalanceUpdateCache fr st = Done (c, st') ∧
    ct_pendingTx st' = Some p' ∧
    pt_contractBurntCoinsCache p' = pt_contractBurntCoinsCache p ∧
    pt_contractBurntCoins p' = pt_contractBurntCoins p.
Proof.
  intros Hp. unfold getOrPutContractBalanceUpdateCache.
  erewrite bind_done by by apply pending_tx_done. destruct (_ !! fr) as [c|].
  - by exists c, st, p.
  - erewrite bind_done by by apply set_pending_done. by eexists _, _, _.
Qed.

Lemma wp_apply_updates fr parent st p :
  ct_pendingTx st = Some p →
  wp (apply_updates fr parent)
    (λ _ st', ∃ p', ct_pendingTx st' = Some p' ∧
       pt_contractBurntCoinsCache p' = pt_contractBurntCoinsCache p ∧
       pt_contractBurntCoins p' = pt_contractBurntCoins p) st.
Proof.
  intros Hp. unfold apply_updates. destruct (getOrPutContractBalanceUpdateCache_done fr st p Hp)
    as (c & st1 & p1 & Hget & Hp1 & Hc1 & Hb1).
  wp_step. unfold wp at 1. rewrite Hget. wp_step. apply (wp_set_pending _ _ p1); [done|].
  destruct parent as [parent|].
  - set (p2 := p1 <| pt_contractBalanceUpdateCache ::= delete fr |>).
    set (st1' := st1 <| ct_pendingTx := Some p2 |>).
    destruct (getOrPutContractBalanceUpdateCache_done parent st1' p2 eq_refl)
      as (c' & st2 & p3 & Hget2 & Hp3 & Hc3 & Hb3).
    wp_step. unfold wp at 1. rewrite Hget2. apply (wp_set_pending _ _ p3); [done|].
    eexists. split; [reflexivity|]. cbn. rewrite Hc3, Hb3. done.
  - eapply wp_set_pending; [reflexivity|]. eexists. split; [reflexivity|]. done.
Qed.


Lemma wp_apply_burnt_parent fr parent st p :
  live st p → fr ≠ parent →
  wp (apply_burnt fr (Some parent))
    (λ _ st', ∃ p', live st' p' ∧
       burns parent [fr] (λ a, burnt_amount a (bn_coins (burnt_in p fr))) p p') st.
Proof.
  intros Hp Hne. destruct (getOrPutContractBurntCoinsCache_done fr st p Hp)
    as (st1 & p1 & Hget & [Hp1 Hw1] & Hc1 & Hb1 & _).
  unfold apply_burnt. wp_step. unfold wp at 1. rewrite Hget. wp_step.
  apply (wp_set_pending _ _ p1); [done|].
  set (p2 := p1 <| pt_contractBurntCoinsCache ::= delete fr |>).
  assert (live (st1 <| ct_pendingTx := Some p2 |>) p2) as Hl2.
  { split; [done|]. intros f c. cbn. intros [_ Hc]%lookup_delete_Some. by eapply Hw1. }
  assert (burnt_in p2 parent = burnt_in p parent) as Hpar.
  { unfold burnt_in. cbn. by rewrite Hc1, lookup_delete_ne, lookup_insert_ne. }
  destruct (getOrPutContractBurntCoinsCache_done parent _ p2 Hl2)
    as (st3 & p3 & Hget3 & [Hp3 Hw3] & Hc3 & Hb3 & _).
  wp_step. unfold wp at 1. rewrite Hget3. apply (wp_set_pending _ _ p3); [done|].
  destruct (bn_import_spec (burnt_in p2 parent) (burnt_in p fr) (live_burnt_in _ _ _ Hl2))
    as [Hwf Ham].
  eexists. split; [split; [reflexivity|]|split_and!].
  - intros f c. cbn. rewrite lookup_insert_Some. intros [[<- <-]|[_ Hc]]; [done|].
    by eapply Hw3.
  - intros a. unfold burnt_in at 1. cbn. rewrite lookup_insert_eq. cbn [default].
    rewrite <- Hpar. apply Ham.
  - intros f Hf1 Hf2. cbn. rewrite Hc3. cbn. rewrite Hc1.
    rewrite !lookup_insert_ne, lookup_delete_ne, lookup_insert_ne by set_solver. done.
  - cbn. rewrite Hb3. cbn. exact Hb1.
Qed.

Lemma wp_apply_burnt_root fr st p :
  live st p →
  wp (apply_burnt fr None)
    (λ _ st', ∃ p', live st' p' ∧
       ∀ a, burnt_amount a (pt_contractBurntCoins p')
            = (burnt_amount a (pt_contractBurntCoins p)
               + burnt_amount a (bn_coins (burnt_in p fr)))%Z) st.
Proof.
  intros Hp. destruct (getOrPutContractBurntCoinsCache_done fr st p Hp)
    as (st1 & p1 & Hget & [Hp1 Hw1] & Hc1 & Hb1 & _).
  unfold apply_burnt. wp_step. unfold wp at 1. rewrite Hget. wp_step.
  apply (wp_set_pending _ _ p1); [done|]. eapply wp_set_pending; [reflexivity|].
  eexists. split; [split; [reflexivity|]|].
  - intros f c. cbn. intros [_ Hc]%lookup_delete_Some. by eapply Hw1.
  - intros a. cbn. unfold burnt_amount. rewrite sumZ_app. by rewrite Hb1.
Qed.

(** What running an event does to the burnt coins. *)
Definition event_ok (w : AppState) (e : CallEvent) : Prop := ∀ fr st p,
  live st p → NoDup (fr :: frames_of e) →
  (∀ f, f ∈ frames_of e → pt_contractBurntCoinsCache p !! f = None) →
  wp (run_event w fr e)
    (λ _ st', ∃ p', live st' p' ∧ burns fr (frames_of e) (λ a, burnt_of a e) p p') st.

Lemma wp_run_call_events w events : Forall (event_ok w) events → ∀ fr st p,
  live st p → NoDup (fr :: concat (map frames_of events)) →
  (∀ f, f ∈ concat (map frames_of events) → pt_contractBurntCoinsCache p !! f = None) →
  wp (for_each events (run_event w fr))
    (λ _ st', ∃ p', live st' p' ∧
       burns fr (concat (map frames_of events)) (λ a, sumZ (burnt_of a) events) p p') st.
Proof.
  induction 1 as [|e events He _ IH]; intros fr st p Hl Hnd Hfresh; cbn [for_each].
  { exists p. split; [done|]. split_and!; [|done..]. intros a. cbn. lia. }
  cbn [map concat] in *. apply list.NoDup_cons in Hnd as [Hfr Hnd].
  apply list.NoDup_app in Hnd as (Hnd1 & Hdisj & Hnd2). apply not_elem_of_app in Hfr as [Hf1 Hf2].
  wp_step. wp_call (He fr st p Hl); [by constructor| |].
  { intros f Hf. apply Hfresh, elem_of_app. by left. }
  intros [] st1 (p1 & Hl1 & Ha1 & Hc1 & Hb1).
  wp_call (IH fr st1 p1 Hl1); [by constructor| |].
  { intros f Hf. rewrite Hc1; [apply Hfresh, elem_of_app; by right| |].
    - intros ->. done.
    - intros Hf'. by apply (Hdisj f). }
  intros [] st2 (p2 & Hl2 & Ha2 & Hc2 & Hb2). exists p2. split; [done|]. split_and!.
  - intros a. rewrite Ha2, Ha1. cbn. lia.
  - intros f Hne [Hn1 Hn2]%not_elem_of_app. rewrite Hc2 by done. by apply Hc1.
  - congruence.
Qed.

(** An event leaves in its frame what its successful calls burn. *)
Lemma wp_run_event w e : event_ok w e.
Proof.
  induction e as [c b cur new|b amount|sub ok events IH] using CallEvent_nested_ind;
    intros fr st p Hl Hnd Hfresh.
  - cbn. unfold AddContractBalanceUpdate. destruct Hl as [Hp Hw].
    destruct (getOrPutContractBalanceUpdateCache_done fr st p Hp)
      as (c' & st1 & p1 & Hget & Hp1 & Hc1 & Hb1).
    wp_step. unfold wp at 1. rewrite Hget. wp_step. apply (wp_pending_tx _ p1); [done|].
    apply (wp_set_pending _ _ p1); [done|].
    eexists. split; [split; [reflexivity|]|split_and!]; cbn.
    + rewrite Hc1. done.
    + intros a. unfold burnt_in. cbn. rewrite Hc1. lia.
    + intros. by rewrite Hc1.
    + done.
  - cbn. unfold AddContractBurntCoins. cbn beta zeta.
    destruct (nil_or_zero amount) eqn:Hz.
    { wp_step. exists p. split; [done|]. apply nil_or_zero_spec in Hz. split_and!; [|done..].
      intros a. rewrite Hz. destruct (decide _); lia. }
    destruct (getOrPutContractBurntCoinsCache_done fr st p Hl)
      as (st1 & p1 & Hget & [Hp1 Hw1] & Hc1 & Hb1 & _).
    wp_step. unfold wp at 1. rewrite Hget. apply (wp_set_pending _ _ p1); [done|].
    destruct (bn_add_spec (burnt_in p fr) b amount (live_burnt_in _ _ _ Hl)) as [Hwf Ham].
    eexists. split; [split; [reflexivity|]|split_and!]; cbn.
    + intros f c. rewrite lookup_insert_Some. intros [[<- <-]|[_ Hc]]; [done|by eapply Hw1].
    + intros a. unfold burnt_in at 1. cbn. rewrite lookup_insert_eq. apply Ham.
    + intros f Hf _. rewrite Hc1. by rewrite !lookup_insert_ne.
    + done.
  - rewrite run_call_event. cbn [frames_of] in *.
    apply list.NoDup_cons in Hnd as [Hfr Hnd]. pose proof Hnd as [Hsub _]%list.NoDup_cons.
    apply not_elem_of_cons in Hfr as [Hne Hfr].
    wp_step. wp_call (wp_run_call_events w events IH sub st p); [done|done| |].
    { intros f Hf. apply Hfresh. by right. }
    intros [] st1 (p1 & Hl1 & Ha1 & Hc1 & Hb1).
    assert (burnt_in p1 fr = burnt_in p fr) as Hfr1
      by (unfold burnt_in; by rewrite Hc1).
    assert (∀ a, burnt_amount a (bn_coins (burnt_in p1 sub)) = sumZ (burnt_of a) events) as Hs.
    { intros a. rewrite Ha1. unfold burnt_in. rewrite Hfresh by left. done. }
    destruct ok.
    + unfold ApplyContractBalanceUpdates. wp_step. destruct Hl1 as [Hp1 Hw1].
      wp_call (wp_apply_updates sub (Some fr) st1 p1 Hp1).
      intros [] st2 (p2 & Hp2 & Hc2 & Hb2).
      assert (live st2 p2) as Hl2 by (split; [done|]; rewrite Hc2; done).
      wp_call (wp_apply_burnt_parent sub fr st2 p2 Hl2); [done|].
      intros _ st3 (p3 & Hl3 & Ha3 & Hc3 & Hb3). exists p3. split; [done|]. split_and!.
      * intros a. rewrite Ha3. cbn. rewrite <- Hs, <- Hfr1. unfold burnt_in. by rewrite Hc2.
      * intros f Hf1 [Hf2 Hf3]%not_elem_of_cons. rewrite Hc3 by set_solver.
        rewrite Hc2. by apply Hc1.
      * congruence.
    + wp_step. exists p1. split; [done|]. split_and!; [|intros f Hf1 [Hf2 Hf3]%not_elem_of_cons; by apply Hc1|done].
      intros a. rewrite Hfr1. cbn. lia.
Qed.

Lemma event_ok_all w events : Forall (event_ok w) events.
Proof. apply list.Forall_forall. intros e _. apply wp_run_event. Qed.

(** [C9]  A contract transaction whose call frames are distinct burns, of every
    address, exactly what the events of its successful frames burn: a frame whose
    call fails, or is inside a call that fails, leaves nothing, however deep the
    calls are nested; and none of the methods panics. *)
Theorem burnt_by_successful_calls w root events st p :
  live st p → NoDup (root :: concat (map frames_of events)) →
  (∀ f, f ∈ root :: concat (map frames_of events) → pt_contractBurntCoinsCache p !! f = None) →
  wp (run_call w root events) (λ _ st', ∃ p', live st' p' ∧
    ∀ a, burnt_amount a (pt_contractBurntCoins p')
         = (burnt_amount a (pt_contractBurntCoins p) + sumZ (burnt_of a) events)%Z) st.
Proof.
  intros Hl Hnd Hfresh. unfold run_call. wp_step.
  wp_call (wp_run_call_events w events (event_ok_all w events) root st p); [done|done| |].
  { intros f Hf. apply Hfresh. by right. }
  intros [] st1 (p1 & [Hp1 Hw1] & Ha1 & _ & Hb1). unfold ApplyContractBalanceUpdates. wp_step.
  wp_call (wp_apply_updates root None st1 p1 Hp1). intros [] st2 (p2 & Hp2 & Hc2 & Hb2).
  assert (live st2 p2) as Hl2 by (split; [done|]; rewrite Hc2; done).
  wp_call (wp_apply_burnt_root root st2 p2 Hl2). intros _ st3 (p3 & Hl3 & Ha3).
  exists p3. split; [done|]. intros a. rewrite Ha3, Hb2, Hb1.
  f_equal. unfold burnt_in. rewrite Hc2. change (burnt_amount a (bn_coins (burnt_in p1 root)) = sumZ (burnt_of a) events).
  rewrite Ha1. unfold burnt_in. rewrite Hfresh by left. done.
Qed.

(** *** The balance updates of one frame *)

(** A change of balance in a frame: the contract, the address, its balance before,
    and after. *)
Definition Change : Type := option Address * Address * option Z * option Z.
Definition ch_address (c : Change) : Address := c.1.1.2.
Definition ch_before (c : Change) : option Z := c.1.2.
Definition ch_after (c : Change) : option Z := c.2.

(** The cache of a frame after its changes. *)
Definition frame_cache (h : Hash) (w : AppState) (cs : list Change) : UpdateCache :=
  foldl (λ cache c, uc_add cache h (ch_address c) (λ _, ch_before c) (ch_after c) c.1.1.1 w)
        emptyUpdateCache cs.

Abbreviation changes_to a := (filter (λ c : Change, ch_address c = a)).

Lemma frame_cache_snoc h w cs c :
  frame_cache h w (cs ++ [c])
  = uc_add (frame_cache h w cs) h (ch_address c) (λ _, ch_before c) (ch_after c) c.1.1.1 w.
Proof. unfold frame_cache. by rewrite foldl_app. Qed.

(** The update of [a] in the cache tells the changes [cs] of [a]. *)
Definition tells (a : Address) (cs : list Change) (u : ContractUpdate) : Prop :=
  cu_Address u = a ∧
  (∃ c, head (changes_to a cs) = Some c ∧ cu_BalanceOld u = ch_before c) ∧
  (∃ c, list.last (changes_to a cs) = Some c ∧ cu_BalanceNew u = ch_after c).

Definition cache_tells (cs : list Change) (cache : UpdateCache) : Prop :=
  (∀ i u, uc_updates cache !! i = Some u → uc_updatesByAddress cache !! cu_Address u = Some i) ∧
  (∀ a, match uc_updatesByAddress cache !! a with
        | Some i => ∃ u, uc_updates cache !! i = Some u ∧ tells a cs u
        | None => changes_to a cs = []
        end).

Lemma changes_to_snoc a cs c :
  changes_to a (cs ++ [c]) = changes_to a cs ++ (if decide (ch_address c = a) then [c] else []).
Proof.
  rewrite list.filter_app, filter_cons, filter_nil. by destruct (decide _).
Qed.

Lemma tells_snoc_ne a cs c u : ch_address c ≠ a → tells a cs u → tells a (cs ++ [c]) u.
Proof. intros Hne. unfold tells. by rewrite changes_to_snoc, decide_False, app_nil_r. Qed.

Lemma uc_add_tells cs c cache h w :
  cache_tells cs cache →
  cache_tells (cs ++ [c])
    (uc_add cache h (ch_address c) (λ _, ch_before c) (ch_after c) c.1.1.1 w).
Proof.
  intros [Hidx Hall]. unfold uc_add. pose proof (Hall (ch_address c)) as Hc.
  destruct (uc_updatesByAddress cache !! ch_address c) as [i|] eqn:Hi.
  - destruct Hc as (u & Hu & Hua & (c1 & Hc1 & Hold) & _).
    set (u' := u <| cu_BalanceNew := ch_after c |>).
    assert (uc_updates (cache <| uc_updates ::= alter (λ u, updateBalanceUpdate (Some u) h
        (ch_address c) (λ _, ch_before c) (ch_after c) c.1.1.1 w) i |>)
      = <[i := u']> (uc_updates cache)) as Eu
      by (cbn; by rewrite (list_alter_insert_step _ _ i u)).
    assert (i < length (uc_updates cache))%nat as Hlt by by eapply lookup_lt_Some.
    split.
    + intros j v. rewrite Eu. intros [(<- & <- & _)|[_ Hv]]%list_lookup_insert_Some.
      * cbn. by rewrite Hua.
      * by apply Hidx.
    + intros a. rewrite Eu. cbn. specialize (Hall a).
      destruct (decide (ch_address c = a)) as [<-|Hne].
      * rewrite Hi. exists u'. rewrite list_lookup_insert_eq by done. split; [done|].
        unfold tells. rewrite changes_to_snoc, decide_True, last_snoc by done.
        split; [done|]. split; [|by exists c]. exists c1. split; [|done].
        by destruct (changes_to _ cs).
      * destruct (uc_updatesByAddress cache !! a) as [j|] eqn:Hj.
        -- destruct Hall as (v & Hv & Ht). exists v.
           rewrite list_lookup_insert_ne by (intros <-; destruct Ht as [Ht _]; simplify_eq).
           split; [done|]. by apply tells_snoc_ne.
        -- by rewrite changes_to_snoc, decide_False, app_nil_r.
  - split.
    + intros j v. cbn. intros [[Hlt Hv]|[-> <-]]%lookup_snoc_Some.
      * rewrite lookup_insert_ne; [by apply Hidx|].
        intros Heq. rewrite Heq, (Hidx _ _ Hv) in Hi. done.
      * cbn. by rewrite lookup_insert_eq.
    + intros a. cbn. specialize (Hall a). destruct (decide (ch_address c = a)) as [<-|Hne].
      * rewrite lookup_insert_eq. eexists. rewrite lookup_app_r, Nat.sub_diag by lia.
        split; [done|]. unfold tells. rewrite changes_to_snoc, decide_True, Hc by done.
        split; [done|]. split; by exists c.
      * rewrite lookup_insert_ne by done.
        destruct (uc_updatesByAddress cache !! a) as [j|] eqn:Hj.
        -- destruct Hall as (v & Hv & Ht). exists v. rewrite (lookup_app_l_Some _ _ _ _ Hv).
           split; [done|]. by apply tells_snoc_ne.
        -- by rewrite changes_to_snoc, decide_False, app_nil_r.
Qed.

(** The changes a frame makes leave one balance update for each address it
    touches: its old balance is the one before the first change, its new balance the
    one after the last. *)
Theorem frame_updates h w cs :
  NoDup (cu_Address <$> uc_updates (frame_cache h w cs)) ∧
  ∀ a, (∃ u, u ∈ uc_updates (frame_cache h w cs) ∧ tells a cs u) ↔ changes_to a cs ≠ [].
Proof.
  assert (cache_tells cs (frame_cache h w cs)) as [Hidx Hall].
  { induction cs as [|c cs IH] using rev_ind.
    - split; [by intros i u|]. intros a. cbn. by rewrite lookup_empty.
    - rewrite frame_cache_snoc. by apply uc_add_tells. }
  split.
  - apply NoDup_alt. intros i j a Hi Hj. rewrite list_lookup_fmap in Hi, Hj.
    apply fmap_Some in Hi as (u & Hu & ->). apply fmap_Some in Hj as (v & Hv & Heq).
    pose proof (Hidx i u Hu). pose proof (Hidx j v Hv). rewrite Heq in *. by simplify_eq.
  - intros a. specialize (Hall a). split.
    + intros (u & _ & _ & (c & Hc & _) & _) He. by rewrite He in Hc.
    + intros Hne. destruct (uc_updatesByAddress _ !! a) as [i|]; [|done].
      destruct Hall as (u & Hu & Ht). exists u. split; [|done]. by eapply list_elem_of_lookup_2.
Qed.
End operations.

(** ** Evaluated transactions *)

Definition sample_contract_tx : Tx :=
  sample_tx <| tx_Type := CallContractTx |> <| tx_To := Some (mkAddress 9) |>.

(** A transaction in progress with the records of a start of a voting, a multisig
    push and a changed balance. *)
Definition sample_pending : PendingTx :=
  (newPendingTx sample_contract_tx)
    <| pt_oracleVotingContractCallVote := Some (mkOracleVotingContractCallVote
         (mkHash 1) 1 [] None 0 None None false false false None None) |>
    <| pt_contractBalanceUpdates :=
         [mkContractUpdate (mkAddress 1) (mkHash 1) (Some 5%Z) (Some 4%Z) 0 None 0 None;
          mkContractUpdate (mkAddress 2) (mkHash 1) (Some 0%Z) (Some 1%Z) 0 None 0 (Some (mkAddress 9))] |>
    <| pt_contractBurntCoins := [mkPendingBurnt (mkAddress 2) 7 false] |>.

Definition sample_ct : Ct := emptyCt <| ct_pendingTx := Some sample_pending |>.
Definition ok_receipt : TxReceipt :=
  mkTxReceipt true (mkHash 1) (mkAddress 1) (mkAddress 9) "sendVote" [] 0 None None [].
Definition failed_receipt : TxReceipt := ok_receipt <| rc_Success := false |>.

Lemma committee_read_once_witness :
  let w := sample_state <| IterateOverIdentities :=
    [(mkAddress 3, sample_identity <| id_State := Human |>)] |> in
  IterateOverIdentities w ≠ [] ∧
  ∃ c c' st' st'',
    getOracleVotingCommittee map_to_list 10 10 [] w sample_ct = Done (c, st') ∧
    getOracleVotingCommittee map_to_list 10 10 [] sample_state st' = Done (c', st'') ∧
    c ≡ₚ c' ∧ st'' = st' ∧
    (∀ a, a ∈ c ↔ ∃ i, (a, i) ∈ IterateOverIdentities w ∧
       in_committee 10 10 [] (mkIdentityInfo (id_PubKey i) (id_State i)) = true).
Proof.
  split; [done|].
  apply (committee_read_once map_to_list 10 10 []
           (sample_state <| IterateOverIdentities :=
              [(mkAddress 3, sample_identity <| id_State := Human |>)] |>) sample_state sample_ct).
  - intros m. apply ranges_canonical.
  - reflexivity.
  - cbn. apply list.NoDup_singleton.
  - done.
Defined.

Lemma receipt_publishes_records_witness :
  embedded_ok sample_pending = true ∧
  ∃ st' updates,
    @AddTxReceipt _ map_to_list map_to_list SampleHolder ok_receipt sample_state sample_ct
    = Done (tt, st') ∧
    published map_to_list sample_pending sample_state ∅ (ct_stats sample_ct) (ct_stats st') ∧
    ts_TxReceipts (ct_stats st') = [ok_receipt] ∧
    ts_Contracts (ct_stats st') = [] ++ ((λ ac, mkContract (mkHash 1) ac.1 ac.2) <$> map_to_list ∅) ∧
    ts_ContractTxsBalanceUpdates (ct_stats st') = [] ++ receipt_entry sample_pending ok_receipt
      (list.last (call_methods sample_pending)) updates.
Proof.
  split; [reflexivity|].
  apply (@receipt_publishes_records _ map_to_list map_to_list SampleHolder sample_pending
           ok_receipt sample_state sample_ct); reflexivity.
Defined.

Lemma receipt_publishes_balances_witness :
  let us := changed_updates (pt_contractBalanceUpdates sample_pending) in
  ∃ st' method,
    @AddTxReceipt _ map_to_list map_to_list SampleHolder ok_receipt sample_state sample_ct
    = Done (tt, st') ∧
    ts_BalanceUpdates (ct_stats st') = [] ++ us ∧
    ts_ContractTxsBalanceUpdates (ct_stats st') = [] ++ receipt_entry sample_pending ok_receipt method
      (sender_entry (mkAddress 1) us (sender_update (mkAddress 1) None None)
       :: (tx_update <$> updates_of_others (mkAddress 1) us)) ∧
    or_zero (co_BurntCoins (ct_coins st')) = (0 + 7)%Z ∧
    ts_Tokens (ct_stats st')
    = [] ++ @detectTokens SampleHolder (map_to_list (∅ : gmap Address bytes)).*1 sample_state ∧
    ts_TokenBalanceUpdates (ct_stats st')
    = (@applyTxReceipt _ SampleHolder emptyTokenCollector ok_receipt sample_state).2 ∧
    ct_pendingTx st' = Some sample_pending.
Proof.
  apply (@receipt_publishes_balances _ map_to_list map_to_list SampleHolder sample_pending
           ok_receipt sample_state sample_ct); reflexivity.
Defined.

Lemma failed_receipt_publishes_nothing_witness :
  ∃ st', @AddTxReceipt _ map_to_list map_to_list SampleHolder failed_receipt sample_state sample_ct
         = Done (tt, st') ∧ ts_OracleVotingContractCallVotes (ct_stats st') = [].
Proof.
  eexists. split.
  - apply (@failed_receipt_publishes_nothing _ map_to_list map_to_list SampleHolder sample_pending
             failed_receipt sample_state sample_ct); reflexivity.
  - reflexivity.
Defined.

(** An activation by which the sender, an invite, becomes a candidate. *)
Definition activation : Tx :=
  sample_tx <| tx_Type := ActivationTx |> <| tx_To := Some (mkAddress 2) |>.
Definition before_activation : AppState :=
  sample_state <| GetIdentity := λ a, if decide (a = mkAddress 1)
    then sample_identity <| id_State := Invite |> <| id_InviterTxHash := Some (mkHash 7) |>
    else sample_identity |>.
Definition after_activation : AppState :=
  sample_state <| GetIdentity := λ a, if decide (a = mkAddress 2)
    then sample_identity <| id_State := CandidateState |> else sample_identity |>.

Lemma applied_tx_changes_witness :
  activation_ok activation before_activation = true ∧
  wp (BeginApplyingTx activation before_activation;; AddTxFee (Some 3%Z);;
      CompleteApplyingTx after_activation) (λ _ st',
    ct_pendingTx st' = None ∧
    ts_CandidateCountDiff (ct_stats st')
    = (0 + sumZ (λ a, is_candidate after_activation a - is_candidate before_activation a)%Z
             (participants activation))%Z ∧
    (∀ a, (ts_IdentityStateChanges (ct_stats st') !! tx_Hash activation ≫= lookup a) =
       if decide (a ∈ participants activation ∧
                  GetIdentityState before_activation a ≠ GetIdentityState after_activation a)
       then Some (mkIdentityStateChange (GetIdentityState before_activation a)
                    (GetIdentityState after_activation a))
       else if decide (changes activation before_activation after_activation = []) then
         ts_IdentityStateChanges (ct_stats emptyCt) !! tx_Hash activation ≫= lookup a
       else None)) emptyCt.
Proof.
  split; [reflexivity|].
  apply (applied_tx_changes activation before_activation after_activation (AddTxFee (Some 3%Z)) emptyCt).
  - reflexivity.
  - intros st1 [(p & Hp & Ht & Hi) Hids]. unfold AddTxFee, set_stats. wp_step.
    apply (wp_pending_tx _ p); [exact Hp|]. wp_step. split; [|done]. split; [|done]. by exists p.
Defined.

(** The outermost call burns 5, calls one contract that burns 7 and succeeds and
    another that burns 11 and fails. *)
Definition sample_calls : list CallEvent :=
  [EvBurn (mkAddress 2) (Some 5%Z);
   EvCall 2 true [EvBurn (mkAddress 2) (Some 7%Z)];
   EvCall 3 false [EvBurn (mkAddress 2) (Some 11%Z);
                   EvCall 4 true [EvBurn (mkAddress 2) (Some 13%Z)]]].

Lemma burnt_by_successful_calls_witness :
  sumZ (burnt_of (mkAddress 2)) sample_calls = 12%Z ∧
  wp (run_call sample_state 1 sample_calls) (λ _ st', ∃ p', live st' p' ∧
    ∀ a, burnt_amount a (pt_contractBurntCoins p')
         = (burnt_amount a [] + sumZ (burnt_of a) sample_calls)%Z)
    (emptyCt <| ct_pendingTx := Some (newPendingTx sample_contract_tx) |>).
Proof.
  split; [reflexivity|].
  apply (burnt_by_successful_calls sample_state 1 sample_calls
    (emptyCt <| ct_pendingTx := Some (newPendingTx sample_contract_tx) |>)
    (newPendingTx sample_contract_tx)).
  - split; [reflexivity|]. intros fr c. cbn. by rewrite lookup_empty.
  - apply (bool_decide_unpack _). by vm_compute.
  - intros f _. apply lookup_empty.
Defined.

(** The outermost call takes 10 from the address, calls a contract that gives it 5
    back, and then takes 15 more: from 100 to 80. *)
Definition overlapping_calls : list CallEvent :=
  [EvBalance None (mkAddress 2) (Some 100%Z) (Some 90%Z);
   EvCall 2 true [EvBalance None (mkAddress 2) (Some 90%Z) (Some 95%Z)];
   EvBalance None (mkAddress 2) (Some 95%Z) (Some 80%Z)].

(** When a call changes a balance before and after a call inside it that
    changes it too, the published updates overlap: the outer one covers the whole
    change, the inner one a part of it again, and the last one is not the one with
    the final balance. *)
Example overlapping_frames :
  (λ p, (λ u, (cu_Address u, cu_BalanceOld u, cu_BalanceNew u)) <$> pt_contractBalanceUpdates p)
    <$> (final (run_call sample_state 1 overlapping_calls
                  (emptyCt <| ct_pendingTx := Some (newPendingTx sample_contract_tx) |>))
         ≫= ct_pendingTx)
  = Some [(mkAddress 2, Some 100%Z, Some 80%Z); (mkAddress 2, Some 90%Z, Some 95%Z)].
Proof. vm_compute. reflexivity. Qed.
