(* ===== verification/ValidationSummary.v ===== *)
(** * Validation reward summaries

    indexer/validation_summary.go: for each validated identity, what it earned in
    the eight kinds of rewards of the epoch, what it missed, and why.  The amounts
    come from the statistics of the collector (file Rewards), through maps that are
    filled when the first summary is asked for.

    [None] in the result of a definition is a panic of the code: an index out of
    range, or a nil [*big.Int] that is dereferenced. *)

From S2P Require Import Prelude Node Rewards.

(** ** Data *)

(** Go: db/types.go ValidationRewardSummary *)
Record ValidationRewardSummary := mkValidationRewardSummary {
  vrs_Earned : option Z;
  vrs_Missed : option Z;
  vrs_MissedReason : option Z
}.

(** Go: db/types.go ValidationRewardSummaries *)
Record ValidationRewardSummaries := mkValidationRewardSummaries {
  vss_Address : string;
  vss_PrevStake : option Z;
  vss_Validation : ValidationRewardSummary;
  vss_Flips : ValidationRewardSummary;
  vss_ExtraFlips : ValidationRewardSummary;
  vss_Invitations : ValidationRewardSummary;
  vss_Reports : ValidationRewardSummary;
  vss_Candidate : ValidationRewardSummary;
  vss_Staking : ValidationRewardSummary;
  vss_Invitee : ValidationRewardSummary
}.

(** The constants [missedRewardReason*]. *)
Definition missedRewardReasonEmpty : Z := 0.
Definition missedRewardReasonPenalty : Z := 1.
Definition missedRewardReasonNotValidated : Z := 2.
Definition missedRewardReasonMissedValidation : Z := 3.
Definition missedRewardReasonNotAllFlips : Z := 4.
Definition missedRewardReasonNotAllReports : Z := 5.
Definition missedRewardReasonIgnoredGrades : Z := 10.
Definition requiredFlips : Z := 3.

(** Go: indexer/validation_summary.go validationRewardSummariesCalculator:31-46

    What it computes; the statistics it computes it from are the variables of the
    section below. *)
Record Calculator := mkCalculator {
  cl_initialized : bool;
  cl_rewardsByAddrAndType : gmap Address (gmap RewardType Z);
  cl_rewardedReportedFlipsByAddr : gmap string (gset string);
  cl_flipsWithReportConsensusByRespondent : gmap Address (list string);
  cl_rewardedFlips : gset string;
  cl_rewardedExtraFlips : gset string
}.

(** Go: indexer/validation_summary.go newValidationRewardSummariesCalculator *)
Definition newCalculator : Calculator := mkCalculator false ∅ ∅ ∅ ∅ ∅.

(** [l[i]] *)
Definition at_index {A} (l : list A) (i : Z) : option A :=
  if (i <? 0)%Z then None else l !! Z.to_nat i.

(** Go: indexer/validation_summary.go missedRewardReasonOrNil *)
Definition missedRewardReasonOrNil (value : Z) : option Z :=
  if (value =? missedRewardReasonEmpty)%Z then None else Some value.

Section calculator.
Context `{NodeApi}.

(** ** One kind of reward *)

(** Go: indexer/validation_summary.go getRewardedFlips *)
Definition getRewardedFlips (identityFlips : list IdentityFlip) (rewardedFlips : gset string) : Z :=
  foldl (λ res f,
    match cid_Parse (if_Cid f) with
    | None => res
    | Some c => if decide (cid_String c ∈ rewardedFlips) then u8 (res + 1) else res
    end) 0%Z identityFlips.

(** The reason of a missed amount that depends on the state of the identity. *)
Definition state_reason (penalized : bool) (missed : Z) : Z :=
  if (0 <? missed)%Z
  then if penalized then missedRewardReasonPenalty else missedRewardReasonNotValidated
  else missedRewardReasonEmpty.

(** [math2.ToInt(decimal.NewFromBigInt(share, 0).Mul(decimal.NewFromFloat32(w)))] *)
Definition weighted (share : Z) (w : Float32) : option Z :=
  Decimal_ToInt (Decimal_Mul (Decimal_of_int share) (Decimal_of_float32 w)).

(** [float32(math.Pow(float64(age), float64(1)/3))] *)
Definition age_coef (age : Z) : Float32 :=
  Float32_of_Float64 (math_Pow (Float64_of_int age)
    (Float64_Div (Float64_of_int 1) (Float64_of_int 3))).

(** Go: indexer/validation_summary.go calculateValidationRewardSummary *)
Definition calculateValidationRewardSummary (reward : option Z) (newState : IdentityState)
    (penalized : bool) (age : Z) (share : option Z) : option ValidationRewardSummary :=
  match share with
  | Some share =>
      if negb (NewbieOrBetter newState) || penalized then
        missed ← weighted share (age_coef age);
        mret (mkValidationRewardSummary reward (Some missed)
                (missedRewardReasonOrNil (state_reason penalized missed)))
      else mret (mkValidationRewardSummary reward None None)
  | None => mret (mkValidationRewardSummary reward None None)
  end.

(** Go: indexer/validation_summary.go calculateCandidateRewardSummary *)
Definition calculateCandidateRewardSummary (reward : option Z) (prevState newState : IdentityState)
    (penalized : bool) (share : option Z) : ValidationRewardSummary :=
  match share with
  | Some missed =>
      if bool_decide (prevState = CandidateState) && (negb (NewbieOrBetter newState) || penalized)
      then mkValidationRewardSummary reward (Some missed)
             (missedRewardReasonOrNil (state_reason penalized missed))
      else mkValidationRewardSummary reward None None
  | None => mkValidationRewardSummary reward None None
  end.

(** Go: indexer/validation_summary.go stakeWeight

    The literal 0.9 is the double nearest to 9/10. *)
Definition stakeWeight (amount : option Z) : Float32 :=
  Float32_of_Float64 (math_Pow (Decimal_Float64 (ConvertToFloat amount))
    (Float64_Div (Float64_of_int 9) (Float64_of_int 10))).

(** Go: indexer/validation_summary.go calculateStakingRewardSummary *)
Definition calculateStakingRewardSummary (reward : option Z) (newState : IdentityState)
    (penalized : bool) (share stake : option Z) : option ValidationRewardSummary :=
  match share, stake with
  | Some share, Some s =>
      if (0 <? s)%Z && (negb (NewbieOrBetter newState) || penalized) then
        missed ← weighted share (stakeWeight stake);
        mret (mkValidationRewardSummary reward (Some missed)
                (missedRewardReasonOrNil (state_reason penalized missed)))
      else mret (mkValidationRewardSummary reward None None)
  | _, _ => mret (mkValidationRewardSummary reward None None)
  end.

(** The reason of missed flips. *)
Definition flips_reason (penalized missedValidation : bool) (missed : option Z) : Z :=
  match missed with
  | Some m =>
      if (0 <? m)%Z then
        if penalized then missedRewardReasonPenalty
        else if missedValidation then missedRewardReasonMissedValidation
        else missedRewardReasonNotAllFlips
      else missedRewardReasonEmpty
  | None => missedRewardReasonEmpty
  end.

(** Go: indexer/validation_summary.go calculateFlipsRewardSummary *)
Definition calculateFlipsRewardSummary (reward share : option Z) (availableFlips : Z)
    (identityFlips : list IdentityFlip) (rewardedFlips rewardedExtraFlips : gset string)
    (penalized missedValidation enableUpgrade10 enableUpgrade11 : bool)
    : ValidationRewardSummary :=
  let rewardedFlipsCnt := getRewardedFlips identityFlips rewardedFlips in
  let missed :=
    match share with
    | Some share =>
        if (0 <? availableFlips)%Z then
          if enableUpgrade10 && negb enableUpgrade11 then
            Some (share * u8 (requiredFlips - rewardedFlipsCnt))%Z
          else
            let rewardedFlipsCnt :=
              u8 (rewardedFlipsCnt + getRewardedFlips identityFlips rewardedExtraFlips) in
            Some (share * u8 (availableFlips - rewardedFlipsCnt))%Z
        else None
    | None => None
    end in
  mkValidationRewardSummary reward missed
    (missedRewardReasonOrNil (flips_reason penalized missedValidation missed)).

(** Go: indexer/validation_summary.go calculateExtraFlipsRewardSummary *)
Definition calculateExtraFlipsRewardSummary (reward share : option Z) (availableFlips : Z)
    (identityFlips : list IdentityFlip) (rewardedExtraFlips : gset string)
    (penalized missedValidation : bool) (stake : option Z) : option ValidationRewardSummary :=
  let rewardedFlipsCnt := getRewardedFlips identityFlips rewardedExtraFlips in
  let result missed :=
    mkValidationRewardSummary reward missed
      (missedRewardReasonOrNil (flips_reason penalized missedValidation missed)) in
  match share, stake with
  | Some share, Some s =>
      if (0 <? s)%Z && (requiredFlips <? availableFlips)%Z then
        flipReward ← weighted share (stakeWeight stake);
        mret (result (Some (flipReward
          * u8 (u8 (availableFlips - requiredFlips) - rewardedFlipsCnt))%Z))
      else mret (result None)
  | _, _ => mret (result None)
  end.

Definition invitationRewardTypes : list RewardType :=
  [Invitations; Invitations2; Invitations3; SavedInvite; SavedInviteWin].
Definition inviteeRewardTypes : list RewardType := [Invitee1; Invitee2; Invitee3].

(** The loop over the reward types of a kind. *)
Definition earned_of (types : list RewardType) (rewards : gmap RewardType Z) : option Z :=
  foldl (λ earned t,
    match rewards !! t with
    | Some reward => Some (or_zero earned + reward)%Z
    | None => earned
    end) None types.

(** Go: indexer/validation_summary.go calculateInvitationsRewardSummary *)
Definition calculateInvitationsRewardSummary (rewards : gmap RewardType Z) (penalized : bool)
    : ValidationRewardSummary :=
  mkValidationRewardSummary (earned_of invitationRewardTypes rewards) None
    (missedRewardReasonOrNil
       (if penalized then missedRewardReasonPenalty else missedRewardReasonEmpty)).

(** Go: indexer/validation_summary.go calculateInviteeRewardSummary *)
Definition calculateInviteeRewardSummary (rewards : gmap RewardType Z) (penalized : bool)
    (newState : IdentityState) : ValidationRewardSummary :=
  mkValidationRewardSummary (earned_of inviteeRewardTypes rewards) None
    (missedRewardReasonOrNil
       (if penalized then missedRewardReasonPenalty
        else if negb (NewbieOrBetter newState) then missedRewardReasonNotValidated
        else missedRewardReasonEmpty)).

(** Go: indexer/validation_summary.go calculateReportsRewardSummary

    The two counters of its loop are the two folds. *)
Definition calculateReportsRewardSummary (reward : option Z) (share : Z)
    (penalized ignoredGrades : bool) (reportedFlips rewardedReportedFlips : gset string)
    (flipsWithReportConsensus : list string) : ValidationRewardSummary :=
  let missedReports := foldl (λ n f,
    if decide (f ∈ rewardedReportedFlips) then n else (n + 1)%Z) 0%Z flipsWithReportConsensus in
  let hasIgnoredSuccessReport := foldl (λ b f,
    if ignoredGrades && negb b then bool_decide (f ∈ reportedFlips) else b)
    false flipsWithReportConsensus in
  if (0 <? missedReports)%Z then
    let missed := (share * missedReports)%Z in
    mkValidationRewardSummary reward (Some missed)
      (missedRewardReasonOrNil
         (if (0 <? missed)%Z then
            if penalized then missedRewardReasonPenalty
            else if hasIgnoredSuccessReport then missedRewardReasonIgnoredGrades
            else missedRewardReasonNotAllReports
          else missedRewardReasonEmpty))
  else mkValidationRewardSummary reward None None.

(** ** The calculator *)

(** The statistics of the collector with the integers they point to, the statistics
    of the validation, the switches of the consensus configuration, and the orders in
    which Go ranges over the shards and over the identities of a shard. *)
Context (rewardsStats : RewardsStats) (ints : gmap ptr Z).
Context (validationStats : option ValidationStats) (EnableUpgrade10 EnableUpgrade11 : bool).
Context (shard_order : gmap Z ValidationShardStats → list (Z * ValidationShardStats)).
Context (identity_order : gmap Address IdentityStats → list (Address * IdentityStats)).

(** [new(big.Int).Add(zeroIfNil(reward.Balance), zeroIfNil(reward.Stake))] *)
Definition record_value (r : RewardStats) : Z :=
  (default 0 (ints !! rs_Balance r) + default 0 (ints !! rs_Stake r))%Z.

Definition init_rewards : gmap Address (gmap RewardType Z) :=
  foldl (λ m r, <[rs_Address r := <[rs_Type r := record_value r]>
                                    (default ∅ (m !! rs_Address r))]> m)
        ∅ (Rewards rewardsStats).

Definition init_reported : gmap string (gset string) :=
  foldl (λ m r, <[rfr_Address r := {[rfr_Cid r]} ∪ default ∅ (m !! rfr_Address r)]> m)
        ∅ (ReportedFlipRewards rewardsStats).

(** The flips with a consensus on reporting, of those an identity had to solve. *)
Fixpoint consensus_flips (shard : ValidationShardStats) (flips : list Z) : option (list string) :=
  match flips with
  | [] => Some []
  | flipToSolve :: flips =>
      let reported :=
        match vss_FlipsPerIdx shard !! flipToSolve with
        | Some flipStats => bool_decide (fs_Grade flipStats = GradeReported)
        | None => false
        end in
      if reported then
        flipCidBytes ← at_index (vss_FlipCids shard) flipToSolve;
        rest ← consensus_flips shard flips;
        match cid_Parse flipCidBytes with
        | None => mret rest
        | Some flipCid => mret (cid_String flipCid :: rest)
        end
      else consensus_flips shard flips
  end.

(** One loop of [init]: the entries of [l], written in order. *)
Fixpoint init_consensus (l : list (ValidationShardStats * (Address * IdentityStats)))
    (m : gmap Address (list string)) : option (gmap Address (list string)) :=
  match l with
  | [] => Some m
  | (shard, (address, identityStats)) :: l =>
      flips ← consensus_flips shard (is_LongFlipsToSolve identityStats);
      init_consensus l (<[address := flips]> m)
  end.

(** The identities of the shards, in the order they are visited. *)
Definition visited : list (ValidationShardStats * (Address * IdentityStats)) :=
  match validationStats with
  | Some v => shard_order (default ∅ (vs_Shards v)) ≫= λ s,
                (λ i, (s.2, i)) <$> identity_order (vss_IdentitiesPerAddr s.2)
  | None => []
  end.

(** Go: indexer/validation_summary.go validationRewardSummariesCalculator.init *)
Definition init : option Calculator :=
  consensus ← init_consensus visited ∅;
  mret (mkCalculator true init_rewards init_reported consensus
          (list_to_set (RewardedFlipCids rewardsStats))
          (list_to_set (RewardedExtraFlipCids rewardsStats))).

(** What the caller asks for. *)
Record Query := mkQuery {
  q_address : Address; q_shardId : Z; q_age : Z; q_identityFlips : list IdentityFlip;
  q_prevState : IdentityState; q_newState : IdentityState; q_availableFlips : Z;
  q_prevStake : option Z; q_ignoredGrades : bool; q_reportedFlips : gset string
}.

(** [_, penalized = shardValidationResults.BadAuthors[address]] *)
Definition penalized (q : Query) : bool :=
  match ValidationResultsByShard rewardsStats !! q_shardId q with
  | Some r => bool_decide (is_Some (vr_BadAuthors r !! q_address q))
  | None => false
  end.

Definition missedValidation (q : Query) : bool :=
  match ValidationResultsByShard rewardsStats !! q_shardId q with
  | Some r => default false (vr_GoodAuthors r !! q_address q)
  | None => false
  end.

(** The share of a report: a fifth of that of a flip when it is not set. *)
Definition reports_share : Z :=
  match ReportsShare rewardsStats with
  | Some share => share
  | None => (or_zero (FlipsShare rewardsStats) / 5)%Z
  end.

(** The body of [calculateValidationRewardSummaries], the calculator being
    initialized. *)
Definition summaries (c : Calculator) (q : Query) : option ValidationRewardSummaries :=
  let rewardsByType := default ∅ (cl_rewardsByAddrAndType c !! q_address q) in
  let penalized := penalized q in
  let missedValidation := missedValidation q in
  validation ← calculateValidationRewardSummary (rewardsByType !! Validation) (q_newState q)
                 penalized (q_age q) (ValidationShare rewardsStats);
  let candidate := calculateCandidateRewardSummary (rewardsByType !! Candidate) (q_prevState q)
                     (q_newState q) penalized (CandidateShare rewardsStats) in
  staking ← calculateStakingRewardSummary (rewardsByType !! Staking) (q_newState q) penalized
              (StakingShare rewardsStats) (q_prevStake q);
  let flips := calculateFlipsRewardSummary (rewardsByType !! Flips) (FlipsShare rewardsStats)
                 (q_availableFlips q) (q_identityFlips q) (cl_rewardedFlips c)
                 (cl_rewardedExtraFlips c) penalized missedValidation
                 EnableUpgrade10 EnableUpgrade11 in
  extraFlips ← calculateExtraFlipsRewardSummary (rewardsByType !! ExtraFlips)
                 (FlipsExtraShare rewardsStats) (q_availableFlips q) (q_identityFlips q)
                 (cl_rewardedExtraFlips c) penalized missedValidation (q_prevStake q);
  let invitations := calculateInvitationsRewardSummary rewardsByType penalized in
  let invitee := calculateInviteeRewardSummary rewardsByType penalized (q_newState q) in
  let convertedAddress := address_Hex (q_address q) in
  let reports := calculateReportsRewardSummary (rewardsByType !! ReportedFlips) reports_share
                   penalized (q_ignoredGrades q) (q_reportedFlips q)
                   (default ∅ (cl_rewardedReportedFlipsByAddr c !! convertedAddress))
                   (default [] (cl_flipsWithReportConsensusByRespondent c !! q_address q)) in
  mret (mkValidationRewardSummaries convertedAddress (q_prevStake q) validation flips
          extraFlips invitations reports candidate staking invitee).

(** Go: indexer/validation_summary.go calculateValidationRewardSummaries *)
Definition calculateValidationRewardSummaries (c : Calculator) (q : Query)
    : option (ValidationRewardSummaries * Calculator) :=
  c ← (if negb (cl_initialized c) then init else mret c);
  s ← summaries c q;
  mret (s, c).

(** The calls of one epoch. *)
Fixpoint calculate_all (c : Calculator) (qs : list Query)
    : option (list ValidationRewardSummaries) :=
  match qs with
  | [] => Some []
  | q :: qs =>
      r ← calculateValidationRewardSummaries c q;
      rest ← calculate_all r.2 qs;
      mret (r.1 :: rest)
  end.
End calculator.

(** ** Counting rewarded flips *)

Section counting.
Context `{NodeApi}.

Definition is_rewarded (flips : gset string) (f : IdentityFlip) : bool :=
  match cid_Parse (if_Cid f) with
  | Some c => bool_decide (cid_String c ∈ flips)
  | None => false
  end.

Definition rewarded_count (fs : list IdentityFlip) (flips : gset string) : Z :=
  sumZ (λ f, if is_rewarded flips f then 1 else 0)%Z fs.

Lemma rewarded_count_bounds fs flips :
  (0 ≤ rewarded_count fs flips ≤ Z.of_nat (length fs))%Z.
Proof.
  unfold rewarded_count. induction fs as [|f fs IH]; cbn [sumZ length]; [lia|].
  destruct (is_rewarded flips f); lia.
Qed.

Lemma getRewardedFlips_count fs flips :
  (Z.of_nat (length fs) < 256)%Z →
  getRewardedFlips fs flips = rewarded_count fs flips.
Proof.
  intros Hlen. unfold getRewardedFlips, rewarded_count.
  enough (∀ n, (0 ≤ n)%Z → (n + Z.of_nat (length fs) < 256)%Z →
    foldl (λ res f, match cid_Parse (if_Cid f) with
      | None => res
      | Some c => if decide (cid_String c ∈ flips) then u8 (res + 1) else res
      end) n fs = (n + sumZ (λ f, if is_rewarded flips f then 1 else 0) fs)%Z) as Hgen
    by (rewrite Hgen; lia).
  clear Hlen. induction fs as [|f fs IH]; intros n Hn Hlen; cbn [foldl sumZ length] in *; [lia|].
  unfold is_rewarded at 1. destruct (cid_Parse (if_Cid f)) as [c|]; [|rewrite IH; lia].
  case_bool_decide; [rewrite decide_True by done|rewrite decide_False by done]; [|rewrite IH; lia].
  rewrite uwrap_small by (change (2 ^ 8)%Z with 256%Z; lia). rewrite IH; lia.
Qed.

(** The missed flips are counted modulo 256: the amount is the share of a flip
    times the number of flips the identity could have made less those rewarded, when
    these are at most as many; with more of them the byte wraps around. *)
Theorem missed_flips_amount reward share n fs flips extra p mv u10 u11 :
  (0 < n < 256)%Z → (Z.of_nat (length fs) < 128)%Z → u10 && negb u11 = false →
  let rewarded := (rewarded_count fs flips + rewarded_count fs extra)%Z in
  vrs_Missed (calculateFlipsRewardSummary reward (Some share) n fs flips extra p mv u10 u11)
  = Some (share * (n - rewarded + if rewarded <=? n then 0 else 256))%Z.
Proof.
  intros Hn Hlen Hu rewarded. unfold calculateFlipsRewardSummary. cbn [vrs_Missed].
  rewrite Hu, (proj2 (Z.ltb_lt 0 n)), !getRewardedFlips_count by lia.
  pose proof (rewarded_count_bounds fs flips). pose proof (rewarded_count_bounds fs extra).
  assert (u8 (rewarded_count fs flips + rewarded_count fs extra) = rewarded) as ->
    by (apply uwrap_small; change (2 ^ 8)%Z with 256%Z; lia).
  f_equal. f_equal. unfold uwrap. change (2 ^ 8)%Z with 256%Z.
  destruct (Z.leb_spec rewarded n).
  - rewrite Z.add_0_r. apply Z.mod_small. subst rewarded. lia.
  - rewrite <- (Z_mod_plus_full _ 1). apply Z.mod_small. subst rewarded. lia.
Qed.
End counting.

(** ** The maps of the calculator *)

Section properties.
Context `{NodeApi}.
Context (rewardsStats : RewardsStats) (ints : gmap ptr Z).
Context (validationStats : option ValidationStats) (EnableUpgrade10 EnableUpgrade11 : bool).
Context (shard_order : gmap Z ValidationShardStats → list (Z * ValidationShardStats)).
Context (identity_order : gmap Address IdentityStats → list (Address * IdentityStats)).

Abbreviation init_rewards := (init_rewards rewardsStats ints).
Abbreviation record_value := (record_value ints).
Abbreviation summaries :=
  (summaries rewardsStats EnableUpgrade10 EnableUpgrade11).
Abbreviation init := (init rewardsStats ints validationStats shard_order identity_order).
Abbreviation calculate :=
  (calculateValidationRewardSummaries rewardsStats ints validationStats EnableUpgrade10
     EnableUpgrade11 shard_order identity_order).

Abbreviation records_of a t :=
  (filter (λ r : RewardStats, rs_Address r = a ∧ rs_Type r = t) (Rewards rewardsStats)).

(** The reward of the address: the last record of its type. *)
Lemma init_rewards_lookup a t :
  default ∅ (init_rewards !! a) !! t = record_value <$> list.last (records_of a t).
Proof.
  unfold ValidationSummary.init_rewards. generalize (Rewards rewardsStats) as l. intros l.
  induction l as [|r l IH] using rev_ind.
  { cbn. rewrite lookup_empty. cbn. apply lookup_empty. }
  rewrite foldl_app, list.filter_app, filter_cons, filter_nil. cbn [foldl].
  destruct (decide (rs_Address r = a)) as [<-|Ha].
  - rewrite lookup_insert_eq. cbn [default from_option id].
    destruct (decide (rs_Type r = t)) as [<-|Ht].
    + rewrite lookup_insert_eq, decide_True, last_snoc by done. done.
    + rewrite lookup_insert_ne, decide_False, app_nil_r by tauto. apply IH.
  - rewrite lookup_insert_ne, decide_False, app_nil_r by tauto. apply IH.
Qed.

(** The pairs of an address and a type name one record each. *)
Definition distinct_records : Prop :=
  NoDup ((λ r, (rs_Address r, rs_Type r)) <$> Rewards rewardsStats).

Lemma reward_is_sum a t :
  distinct_records →
  or_zero (default ∅ (init_rewards !! a) !! t) = sumZ record_value (records_of a t).
Proof.
  intros Hnd. rewrite init_rewards_lookup. revert Hnd. unfold distinct_records.
  generalize (Rewards rewardsStats) as l. intros l.
  induction l as [|r l IH]; intros Hnd; [done|].
  cbn [fmap list_fmap] in Hnd. apply list.NoDup_cons in Hnd as [Hr Hnd].
  rewrite filter_cons. destruct (decide (rs_Address r = a ∧ rs_Type r = t)) as [[<- <-]|]; [|by apply IH].
  assert (filter (λ r0, rs_Address r0 = rs_Address r ∧ rs_Type r0 = rs_Type r) l = []) as ->.
  { destruct (filter _ l) as [|r' l'] eqn:Hf; [done|]. exfalso. apply Hr.
    assert (r' ∈ r' :: l') as Hr' by left. rewrite <- Hf in Hr'.
    apply list_elem_of_filter in Hr' as [[Ha Ht] Hr'].
    apply list_elem_of_fmap. exists r'. split; [congruence|done]. }
  cbn. lia.
Qed.

(** The types of the rewards a summary tells about: all but those of the funds. *)
Definition summarized : list RewardType :=
  [Validation; Candidate; Staking; Flips; ExtraFlips; ReportedFlips]
  ++ invitationRewardTypes ++ inviteeRewardTypes.

Lemma summarized_spec t : t ∈ summarized ↔ t ≠ FoundationPayouts ∧ t ≠ ZeroWalletFund.
Proof.
  destruct (decide (t ∈ summarized)) as [Hin|Hin].
  - split; [intros _|done]. split; intros ->; revert Hin; apply (bool_decide_unpack _); by vm_compute.
  - split; [done|]. intros [H1 H2]. exfalso. apply Hin. clear Hin.
    destruct t; try done; apply (bool_decide_unpack _); by vm_compute.
Qed.

Lemma earned_of_sum types rewards :
  or_zero (earned_of types rewards) = sumZ (λ t, or_zero (rewards !! t)) types.
Proof.
  unfold earned_of.
  enough (∀ e, or_zero (foldl (λ earned t, match rewards !! t with
      | Some reward => Some (or_zero earned + reward)%Z | None => earned end) e types)
    = (or_zero e + sumZ (λ t, or_zero (rewards !! t)) types)%Z) as Hgen by (rewrite Hgen; done).
  induction types as [|t types IH]; intros e; cbn [foldl sumZ]; [lia|].
  rewrite IH. destruct (rewards !! t); cbn; lia.
Qed.

Lemma sum_by_type a (types : list RewardType) (l : list RewardStats) :
  NoDup types →
  sumZ (λ t, sumZ record_value (filter (λ r, rs_Address r = a ∧ rs_Type r = t) l)) types
  = sumZ record_value (filter (λ r, rs_Address r = a ∧ rs_Type r ∈ types) l).
Proof.
  intros Hnd. induction l as [|r l IH].
  { cbn. apply (sumZ_zero types). }
  rewrite filter_cons. destruct (decide (rs_Address r = a ∧ rs_Type r ∈ types)) as [[<- Hin]|Hno].
  - apply list_elem_of_lookup in Hin as [i Hi].
    rewrite (sumZ_point _ (λ t, sumZ record_value
      (filter (λ r0, rs_Address r0 = rs_Address r ∧ rs_Type r0 = t) l)) _ i (rs_Type r)); [|done|].
    + rewrite IH, filter_cons, decide_True by done. cbn [sumZ]. lia.
    + intros j t Hj Hne. rewrite filter_cons, decide_False; [done|].
      intros [_ <-]. apply Hne. by eapply NoDup_lookup.
  - rewrite <- IH. apply sumZ_ext. intros t Ht. rewrite filter_cons, decide_False; [done|].
    intros [<- <-]. by apply Hno.
Qed.

(** What the summary says the address earned. *)
Definition total_earned (s : ValidationRewardSummaries) : Z :=
  (or_zero (vrs_Earned (vss_Validation s)) + or_zero (vrs_Earned (vss_Candidate s))
   + or_zero (vrs_Earned (vss_Staking s)) + or_zero (vrs_Earned (vss_Flips s))
   + or_zero (vrs_Earned (vss_ExtraFlips s)) + or_zero (vrs_Earned (vss_Reports s))
   + or_zero (vrs_Earned (vss_Invitations s)) + or_zero (vrs_Earned (vss_Invitee s)))%Z.

Lemma validation_summary_earned r n p g sh s :
  calculateValidationRewardSummary r n p g sh = Some s → vrs_Earned s = r.
Proof.
  unfold calculateValidationRewardSummary. destruct sh as [sh|]; [|by intros [= <-]].
  destruct (_ || _); [|by intros [= <-]]. destruct (weighted _ _); [|done]. by intros [= <-].
Qed.

Lemma staking_summary_earned r n p sh st s :
  calculateStakingRewardSummary r n p sh st = Some s → vrs_Earned s = r.
Proof.
  unfold calculateStakingRewardSummary. destruct sh as [sh|], st as [st|]; try by intros [= <-].
  destruct (_ && _); [|by intros [= <-]]. destruct (weighted _ _); [|done]. by intros [= <-].
Qed.

Lemma extra_summary_earned r sh n fs ex p mv st s :
  calculateExtraFlipsRewardSummary r sh n fs ex p mv st = Some s → vrs_Earned s = r.
Proof.
  unfold calculateExtraFlipsRewardSummary. destruct sh as [sh|], st as [st|]; try by intros [= <-].
  destruct (_ && _); [|by intros [= <-]]. destruct (weighted _ _); [|done]. by intros [= <-].
Qed.

Lemma candidate_summary_earned r ps n p sh :
  vrs_Earned (calculateCandidateRewardSummary r ps n p sh) = r.
Proof. unfold calculateCandidateRewardSummary. destruct sh; [|done]. by destruct (_ && _). Qed.

Lemma reports_summary_earned r sh p ig rf rrf fs :
  vrs_Earned (calculateReportsRewardSummary r sh p ig rf rrf fs) = r.
Proof. unfold calculateReportsRewardSummary. by destruct (_ <? _)%Z. Qed.

(** What the parts of a summary are. *)
Lemma summaries_parts c q s :
  summaries c q = Some s →
  let rewards := default ∅ (cl_rewardsByAddrAndType c !! q_address q) in
  let p := penalized rewardsStats q in
  let mv := missedValidation rewardsStats q in
  calculateValidationRewardSummary (rewards !! Validation) (q_newState q) p (q_age q)
    (ValidationShare rewardsStats) = Some (vss_Validation s) ∧
  vss_Candidate s = calculateCandidateRewardSummary (rewards !! Candidate) (q_prevState q)
    (q_newState q) p (CandidateShare rewardsStats) ∧
  calculateStakingRewardSummary (rewards !! Staking) (q_newState q) p
    (StakingShare rewardsStats) (q_prevStake q) = Some (vss_Staking s) ∧
  vss_Flips s = calculateFlipsRewardSummary (rewards !! Flips) (FlipsShare rewardsStats)
    (q_availableFlips q) (q_identityFlips q) (cl_rewardedFlips c) (cl_rewardedExtraFlips c)
    p mv EnableUpgrade10 EnableUpgrade11 ∧
  calculateExtraFlipsRewardSummary (rewards !! ExtraFlips) (FlipsExtraShare rewardsStats)
    (q_availableFlips q) (q_identityFlips q) (cl_rewardedExtraFlips c) p mv (q_prevStake q)
    = Some (vss_ExtraFlips s) ∧
  vss_Invitations s = calculateInvitationsRewardSummary rewards p ∧
  vss_Invitee s = calculateInviteeRewardSummary rewards p (q_newState q) ∧
  vss_Reports s = calculateReportsRewardSummary (rewards !! ReportedFlips)
    (reports_share rewardsStats) p (q_ignoredGrades q) (q_reportedFlips q)
    (default ∅ (cl_rewardedReportedFlipsByAddr c !! address_Hex (q_address q)))
    (default [] (cl_flipsWithReportConsensusByRespondent c !! q_address q)).
Proof.
  unfold ValidationSummary.summaries. intros Hs.
  destruct (calculateValidationRewardSummary _ _ _ _ _) as [v|] eqn:Hv; [|done].
  destruct (calculateStakingRewardSummary _ _ _ _ _) as [k|] eqn:Hk; [|done].
  destruct (calculateExtraFlipsRewardSummary _ _ _ _ _ _ _ _) as [e|] eqn:He; [|done].
  cbn in Hs. injection Hs as <-. done.
Qed.

Lemma init_rewards_of c : init = Some c → cl_rewardsByAddrAndType c = init_rewards.
Proof.
  unfold ValidationSummary.init. destruct (init_consensus _ _); [|done]. by intros [= <-].
Qed.

(** [C39]  The eight earned amounts of the first summary asked for add up to the
    rewards of the address that are not payments of the funds, each counted in
    exactly one of them, when no two records have one address and one type. *)
Theorem earned_amounts_add_up q s c :
  distinct_records → calculate newCalculator q = Some (s, c) →
  total_earned s
  = sumZ record_value (filter (λ r, rs_Address r = q_address q ∧
      rs_Type r ≠ FoundationPayouts ∧ rs_Type r ≠ ZeroWalletFund) (Rewards rewardsStats)).
Proof.
  intros Hnd. unfold calculateValidationRewardSummaries. cbn [negb newCalculator cl_initialized].
  destruct init as [c'|] eqn:Hi; [|done]. cbn.
  destruct (summaries c' q) as [s'|] eqn:Hs; [|done]. cbn. intros [= -> ->].
  destruct (summaries_parts c q s Hs) as (Hv & Hc & Hk & Hf & He & Hin & Hie & Hr).
  unfold total_earned.
  rewrite (validation_summary_earned _ _ _ _ _ _ Hv), (staking_summary_earned _ _ _ _ _ _ Hk),
    (extra_summary_earned _ _ _ _ _ _ _ _ _ He), Hc, Hf, Hin, Hie, Hr,
    candidate_summary_earned, reports_summary_earned. cbn [vrs_Earned calculateInvitationsRewardSummary
      calculateInviteeRewardSummary calculateFlipsRewardSummary].
  rewrite !earned_of_sum, (init_rewards_of c Hi).
  rewrite (list_filter_iff _ (λ r : RewardStats, rs_Address r = q_address q ∧ rs_Type r ∈ summarized))
    by (intros r; by rewrite summarized_spec).
  rewrite <- sum_by_type by (apply (bool_decide_unpack _); by vm_compute).
  symmetry. etrans; [apply sumZ_ext; intros t _; symmetry; by apply reward_is_sum|].
  cbn [sumZ summarized invitationRewardTypes inviteeRewardTypes app]. lia.
Qed.

(** ** The reasons *)

(** An amount is missed and a reason is given together, and the reason is the penalty
    for whom is penalized. *)
Definition reason_ok (p : bool) (x : ValidationRewardSummary) : Prop :=
  (vrs_MissedReason x ≠ None ↔ ∃ m, vrs_Missed x = Some m ∧ (0 < m)%Z) ∧
  (p = true → vrs_MissedReason x = None ∨ vrs_MissedReason x = Some missedRewardReasonPenalty).

(** The shape of the reasons: one when the amount is positive, the penalty first. *)
Lemma reason_ok_intro p r m other :
  other ≠ missedRewardReasonEmpty →
  reason_ok p (mkValidationRewardSummary r (Some m) (missedRewardReasonOrNil
    (if (0 <? m)%Z then if p then missedRewardReasonPenalty else other
     else missedRewardReasonEmpty))).
Proof.
  intros Hother. unfold reason_ok, missedRewardReasonOrNil. cbn.
  destruct (Z.ltb_spec 0 m) as [Hm|Hm]; cbn.
  - destruct p; cbn.
    + split; [|by right]. split; [|done]. intros _. by exists m.
    + destruct (Z.eqb_spec other missedRewardReasonEmpty); [done|]. split; [|done].
      split; [|done]. intros _. by exists m.
  - split; [|by left]. split; [done|]. intros (? & [= <-] & ?). lia.
Qed.

Lemma reason_ok_none p r : reason_ok p (mkValidationRewardSummary r None None).
Proof. split; [|by left]. split; [done|]. by intros (? & ? & _). Qed.

Lemma flips_reason_ok p mv r m :
  reason_ok p (mkValidationRewardSummary r m (missedRewardReasonOrNil (flips_reason p mv m))).
Proof.
  destruct m as [m|]; [|apply reason_ok_none]. unfold flips_reason.
  by destruct mv; apply reason_ok_intro.
Qed.

Lemma validation_reason_ok r n p g sh s :
  calculateValidationRewardSummary r n p g sh = Some s →
  reason_ok p s ∧ (NewbieOrBetter n = true → p = false → vrs_Missed s = None).
Proof.
  unfold calculateValidationRewardSummary.
  destruct sh as [sh|]; [|intros [= <-]; split; [apply reason_ok_none|done]].
  destruct (negb (NewbieOrBetter n) || p) eqn:Hc; [|intros [= <-]; split; [apply reason_ok_none|done]].
  destruct (weighted _ _); [|done]. intros [= <-]. split; [by apply reason_ok_intro|].
  intros Hn ->. by rewrite Hn in Hc.
Qed.

Lemma candidate_reason_ok r ps n p sh :
  let s := calculateCandidateRewardSummary r ps n p sh in
  reason_ok p s ∧ (NewbieOrBetter n = true → p = false → vrs_Missed s = None).
Proof.
  cbn zeta. unfold calculateCandidateRewardSummary.
  destruct sh as [sh|]; [|split; [apply reason_ok_none|done]].
  destruct (_ && _) eqn:Hc; [|split; [apply reason_ok_none|done]].
  split; [by apply reason_ok_intro|]. intros Hn ->. by rewrite Hn, andb_false_r in Hc.
Qed.

Lemma staking_reason_ok r n p sh st s :
  calculateStakingRewardSummary r n p sh st = Some s →
  reason_ok p s ∧ (NewbieOrBetter n = true → p = false → vrs_Missed s = None).
Proof.
  unfold calculateStakingRewardSummary.
  destruct sh as [sh|], st as [st|]; try (intros [= <-]; split; [apply reason_ok_none|done]).
  destruct (_ && _) eqn:Hc; [|intros [= <-]; split; [apply reason_ok_none|done]].
  destruct (weighted _ _); [|done]. intros [= <-]. split; [by apply reason_ok_intro|].
  intros Hn ->. by rewrite Hn, andb_false_r in Hc.
Qed.

Lemma extra_reason_ok r sh n fs ex p mv st s :
  calculateExtraFlipsRewardSummary r sh n fs ex p mv st = Some s → reason_ok p s.
Proof.
  unfold calculateExtraFlipsRewardSummary. cbn zeta.
  destruct sh as [sh|], st as [st|]; try (intros [= <-]; by apply (flips_reason_ok p mv r None)).
  destruct (_ && _); [|intros [= <-]; by apply (flips_reason_ok p mv r None)].
  destruct (weighted _ _); [|done]. intros [= <-]. eapply (flips_reason_ok p mv r (Some _)).
Qed.

Lemma reports_reason_ok r sh p ig rf rrf fs :
  reason_ok p (calculateReportsRewardSummary r sh p ig rf rrf fs).
Proof.
  unfold calculateReportsRewardSummary. destruct (_ <? _)%Z; [|apply reason_ok_none].
  match goal with |- context [foldl ?f false fs] => destruct (foldl f false fs) end.
  - by apply reason_ok_intro.
  - by apply reason_ok_intro.
Qed.

(** In every summary, each of the six rewards that can be missed gives a reason
    exactly when a positive amount is missed; the reason of whom is penalized is the
    penalty; and an identity that is validated and not penalized misses nothing of
    the rewards of its validation, its candidacy and its stake. *)
Theorem missed_amounts_have_reasons c q s :
  summaries c q = Some s →
  let p := penalized rewardsStats q in
  Forall (reason_ok p) [vss_Validation s; vss_Candidate s; vss_Staking s; vss_Flips s;
                        vss_ExtraFlips s; vss_Reports s] ∧
  (NewbieOrBetter (q_newState q) = true → p = false →
   vrs_Missed (vss_Validation s) = None ∧ vrs_Missed (vss_Candidate s) = None ∧
   vrs_Missed (vss_Staking s) = None).
Proof.
  intros Hs p. destruct (summaries_parts c q s Hs) as (Hv & Hc & Hk & Hf & He & _ & _ & Hr).
  pose proof (validation_reason_ok _ _ _ _ _ _ Hv) as [Ov Mv].
  pose proof (staking_reason_ok _ _ _ _ _ _ Hk) as [Ok Mk].
  rewrite Hc, Hf, Hr. split.
  - repeat apply list.Forall_cons_2; try done.
    + apply candidate_reason_ok.
    + apply flips_reason_ok.
    + by eapply extra_reason_ok.
    + apply reports_reason_ok.
  - intros Hn Hp. split_and!; [by apply Mv| |by apply Mk]. by apply candidate_reason_ok.
Qed.

(** ** The calls of an epoch *)

Lemma init_initialized c : init = Some c → cl_initialized c = true.
Proof.
  unfold ValidationSummary.init. destruct (init_consensus _ _); [|done]. by intros [= <-].
Qed.

Abbreviation calculate_all :=
  (calculate_all rewardsStats ints validationStats EnableUpgrade10 EnableUpgrade11
     shard_order identity_order).

Lemma calculate_all_initialized c qs :
  cl_initialized c = true → calculate_all c qs = mapM (summaries c) qs.
Proof.
  intros Hc. induction qs as [|q qs IH]; [done|]. cbn [ValidationSummary.calculate_all mapM].
  unfold calculateValidationRewardSummaries. rewrite Hc. cbn.
  destruct (summaries c q) as [s|]; cbn; [|done]. by rewrite IH.
Qed.

(** The maps are filled once: the summaries of an epoch are those the calculator
    of the first call gives to each query, whatever the other queries and their
    order. *)
Theorem initialized_once qs :
  calculate_all newCalculator qs
  = if decide (qs = []) then Some [] else init ≫= λ c, mapM (summaries c) qs.
Proof.
  destruct qs as [|q qs]; [done|]. rewrite decide_False by done.
  cbn [ValidationSummary.calculate_all mapM]. unfold calculateValidationRewardSummaries. cbn.
  destruct init as [c|] eqn:Hi; cbn; [|done].
  destruct (summaries c q) as [s|]; cbn; [|done].
  rewrite calculate_all_initialized by by apply init_initialized. done.
Qed.

(** The flips an identity had to solve and that have statistics are flips of the shard. *)
Definition flips_in_range (e : ValidationShardStats * (Address * IdentityStats)) : bool :=
  forallb (λ i, implb (bool_decide (is_Some (vss_FlipsPerIdx e.1 !! i)))
                  ((0 <=? i) && (i <? Z.of_nat (length (vss_FlipCids e.1))))%Z)
          (is_LongFlipsToSolve e.2.2).

Lemma consensus_flips_total shard flips :
  forallb (λ i, implb (bool_decide (is_Some (vss_FlipsPerIdx shard !! i)))
                  ((0 <=? i) && (i <? Z.of_nat (length (vss_FlipCids shard))))%Z) flips = true →
  is_Some (consensus_flips shard flips).
Proof.
  induction flips as [|i flips IH]; cbn; [by eexists|]. intros [Hi [fs Hfs]%IH]%andb_true_iff.
  destruct (vss_FlipsPerIdx shard !! i) as [st|]; cbn in Hi; [|by eexists].
  case_bool_decide; [|by eexists]. apply andb_true_iff in Hi as [Hge Hl].
  apply Z.leb_le in Hge. apply Z.ltb_lt in Hl. unfold at_index.
  rewrite (proj2 (Z.ltb_ge i 0)) by lia.
  destruct (vss_FlipCids shard !! Z.to_nat i) as [b|] eqn:Hb.
  - cbn. rewrite Hfs. cbn. destruct (cid_Parse b); by eexists.
  - apply lookup_ge_None in Hb. lia.
Qed.

Lemma init_consensus_total l m :
  forallb flips_in_range l = true → is_Some (init_consensus l m).
Proof.
  revert m. induction l as [|[shard [a i]] l IH]; intros m; cbn; [by eexists|].
  intros [Hi Hl]%andb_true_iff.
  destruct (consensus_flips_total shard (is_LongFlipsToSolve i) Hi) as [fs ->]. by apply IH.
Qed.

Lemma summaries_ok c q :
  (∀ d : Decimal, Decimal_ToInt d ≠ None) → is_Some (summaries c q).
Proof.
  intros Hint.
  assert (∀ sh w, is_Some (weighted sh w)) as Hw.
  { intros sh w. unfold weighted. destruct (Decimal_ToInt _) eqn:E; [by eexists|by apply Hint in E]. }
  unfold ValidationSummary.summaries, calculateValidationRewardSummary,
    calculateStakingRewardSummary, calculateExtraFlipsRewardSummary.
  repeat first [progress cbn | case_match | rewrite bind_Some | by eexists
               | match goal with |- context [weighted ?s ?w] => destruct (Hw s w) as [? ->] end].
Qed.

(** One call of the calculator. *)
Lemma calculate_ok c q :
  (∀ d : Decimal, Decimal_ToInt d ≠ None) →
  forallb flips_in_range (visited validationStats shard_order identity_order) = true →
  is_Some (calculate c q).
Proof.
  intros Hint Hfl. unfold ValidationSummary.calculateValidationRewardSummaries.
  destruct (init_consensus_total _ ∅ Hfl) as [m Hm].
  assert (is_Some (if negb (cl_initialized c) then init else Some c)) as [c' Hc].
  { destruct (negb _); [|by eexists]. unfold ValidationSummary.init. rewrite Hm. by eexists. }
  change (mret c) with (Some c). rewrite Hc. cbn. destruct (summaries_ok c' q Hint) as [s Hs].
  rewrite Hs. by eexists.
Qed.

(** The calculator gives a summary to every query: it does not panic when the
    flips with statistics are flips of their shard and a decimal converts to an
    integer. *)
Theorem summaries_total qs :
  (∀ d : Decimal, Decimal_ToInt d ≠ None) →
  forallb flips_in_range (visited validationStats shard_order identity_order) = true →
  ∃ ss, calculate_all newCalculator qs = Some ss ∧ length ss = length qs.
Proof.
  intros Hint Hfl. generalize newCalculator as c.
  induction qs as [|q qs IH]; intros c; [by exists []|].
  destruct (calculate_ok c q Hint Hfl) as [r Hr]. destruct (IH r.2) as (ss & Hss & Hlen).
  exists (r.1 :: ss). cbn [ValidationSummary.calculate_all]. rewrite Hr. cbn. rewrite Hss. cbn.
  by rewrite Hlen.
Qed.
End properties.

(** ** An evaluated epoch: one address with three rewards *)

Definition sample_rewards_stats : RewardsStats :=
  emptyRewardsStats
    <| Rewards := [mkRewardStats (mkAddress 1) 1 2 Validation;
                   mkRewardStats (mkAddress 1) 3 4 Invitations;
                   mkRewardStats (mkAddress 1) 1 1 ZeroWalletFund] |>
    <| ValidationShare := Some 5%Z |> <| FlipsShare := Some 10%Z |>.
Definition sample_ints : gmap ptr Z := {[1%positive := 7%Z; 2%positive := 1%Z; 3%positive := 20%Z; 4%positive := 4%Z]}.
Definition sample_query : Query :=
  mkQuery (mkAddress 1) 1 4 [] CandidateState Suspended 3 None false ∅.

Lemma missed_flips_amount_witness :
  (0 < 1 < 256)%Z ∧
  vrs_Missed (calculateFlipsRewardSummary None (Some 10%Z) 1
      [mkIdentityFlip [1%Z] 0; mkIdentityFlip [2%Z] 0] {["1"; "11"]}%string ∅ false false true true)
  = Some (10 * (1 - (rewarded_count [mkIdentityFlip [1%Z] 0; mkIdentityFlip [2%Z] 0] {["1"; "11"]}%string
                     + rewarded_count [mkIdentityFlip [1%Z] 0; mkIdentityFlip [2%Z] 0] ∅)
      + if rewarded_count [mkIdentityFlip [1%Z] 0; mkIdentityFlip [2%Z] 0] {["1"; "11"]}%string
           + rewarded_count [mkIdentityFlip [1%Z] 0; mkIdentityFlip [2%Z] 0] ∅ <=? 1
        then 0 else 256))%Z.
Proof.
  split; [lia|].
  apply (missed_flips_amount None 10 1 [mkIdentityFlip [1%Z] 0; mkIdentityFlip [2%Z] 0]
           {["1"; "11"]}%string ∅ false false true true); [lia|cbn; lia|done].
Defined.

Lemma earned_amounts_add_up_witness :
  match calculateValidationRewardSummaries sample_rewards_stats sample_ints None true true
          map_to_list map_to_list newCalculator sample_query with
  | Some (s, _) => total_earned s = 32%Z
  | None => False
  end.
Proof.
  destruct (calculateValidationRewardSummaries _ _ _ _ _ _ _ _ _) as [[s c]|] eqn:Hs;
    [|by vm_compute in Hs].
  rewrite (earned_amounts_add_up sample_rewards_stats sample_ints None true true map_to_list
             map_to_list sample_query s c); [reflexivity| |exact Hs].
  apply (bool_decide_unpack _). by vm_compute.
Defined.

Lemma missed_amounts_have_reasons_witness :
  match init sample_rewards_stats sample_ints None map_to_list map_to_list
          ≫= λ c, summaries sample_rewards_stats true true c sample_query with
  | Some s =>
      Forall (reason_ok (penalized sample_rewards_stats sample_query))
        [vss_Validation s; vss_Candidate s; vss_Staking s; vss_Flips s; vss_ExtraFlips s;
         vss_Reports s] ∧
      (NewbieOrBetter Suspended = true → penalized sample_rewards_stats sample_query = false →
       vrs_Missed (vss_Validation s) = None ∧ vrs_Missed (vss_Candidate s) = None ∧
       vrs_Missed (vss_Staking s) = None)
  | None => False
  end.
Proof.
  destruct (init _ _ _ _ _) as [c|] eqn:Hc; [|by vm_compute in Hc]. cbn [mbind option_bind].
  destruct (summaries _ _ _ _ _) as [s|] eqn:Hs; [|by vm_compute in Hc; simplify_eq; vm_compute in Hs].
  exact (missed_amounts_have_reasons sample_rewards_stats true true c sample_query s Hs).
Defined.

Lemma summaries_total_witness :
  ∃ ss, calculate_all sample_rewards_stats sample_ints None true true map_to_list map_to_list
          newCalculator [sample_query; sample_query] = Some ss ∧
        length ss = length [sample_query; sample_query].
Proof.
  apply (summaries_total sample_rewards_stats sample_ints None true true map_to_list map_to_list
           [sample_query; sample_query]); [done|reflexivity].
Defined.
