(* ===== verification/Balances.v ===== *)
(** * Balances and totals

    indexer/balance.go, indexer/check_balances.go, indexer/penalty.go,
    indexer/state.go, indexer/miners_history.go and indexer/oracle_voting.go: the
    balances a block changes, the running totals of the state of the indexer, the
    check of the stored balances against those of the node, the penalties, and the
    oracle votings in progress. *)

From S2P Require Import Prelude Node Coins.

(** ** Data *)

(** Go: db/types.go Balance *)
Record Balance `{NodeApi} := mkBalance {
  bl_Address : string; bl_TxHash : string; bl_Balance : Decimal; bl_Stake : Decimal
}.

(** Go: indexer/balance.go balanceDiff *)
Record balanceDiff := mkBalanceDiff { bd_balance : Z; bd_stake : Z }.

(** Go: db/types.go Penalty *)
Record PenaltyRecord `{NodeApi} := mkPenaltyRecord {
  pr_Address : string; pr_Penalty : option Decimal; pr_Seconds : Z; pr_InheritedFrom : string
}.

(** Go: db/types.go MinersHistoryItem *)
Record MinersHistoryItem := mkMinersHistoryItem { mh_OnlineValidators : Z; mh_OnlineMiners : Z }.

(** Go: indexer/state.go actualOracleVotingHolder *)
Record actualOracleVotingHolder := mkVotingHolder { contracts : gset Address }.

(** Go: indexer/state.go indexerState *)
Record indexerState := mkIndexerState {
  is_lastIndexedHeight : Z;
  is_totalBalance : option Z;
  is_totalStake : option Z;
  is_actualOracleVotingHolder : actualOracleVotingHolder
}.

(** ** The oracle votings in progress *)

(** Go: indexer/state.go newActualOracleVotingHolder *)
Definition newActualOracleVotingHolder (l : list Address) : actualOracleVotingHolder :=
  mkVotingHolder (list_to_set l).

(** Go: indexer/state.go actualOracleVotingHolder.add *)
Definition vh_add (h : actualOracleVotingHolder) (l : list Address) : actualOracleVotingHolder :=
  h <| contracts ::= λ s, foldl (λ s c, {[c]} ∪ s) s l |>.

(** Go: indexer/state.go actualOracleVotingHolder.remove *)
Definition vh_remove (h : actualOracleVotingHolder) (l : list Address) : actualOracleVotingHolder :=
  h <| contracts ::= λ s, foldl (λ s c, s ∖ {[c]}) s l |>.

Lemma vh_add_spec h l a : a ∈ contracts (vh_add h l) ↔ a ∈ l ∨ a ∈ contracts h.
Proof.
  unfold vh_add. cbn. generalize (contracts h) as s. induction l as [|c l IH]; intros s; cbn.
  - rewrite elem_of_nil. tauto.
  - rewrite IH. set_solver.
Qed.

Lemma vh_remove_spec h l a : a ∈ contracts (vh_remove h l) ↔ (a ∉ l) ∧ a ∈ contracts h.
Proof.
  unfold vh_remove. cbn. generalize (contracts h) as s. induction l as [|c l IH]; intros s; cbn.
  - rewrite elem_of_nil. tauto.
  - rewrite IH. set_solver.
Qed.

Section balances.
Context `{NodeApi}.

(** Go: indexer/oracle_voting.go detectOracleVotingsToProlong

    [CanBeProlonged] runs the virtual machine. *)
Definition detectOracleVotingsToProlong (CanBeProlonged : Address → AppState → bool)
    (order : list Address) (appState : AppState) : list Address :=
  filter (λ c, CanBeProlonged c appState = true) order.

(** Go: indexer/miners_history.go detectMinersHistoryItem *)
Definition detectMinersHistoryItem (prevState newState : AppState) : option MinersHistoryItem :=
  let onlineValidators := OnlineSize newState in
  let onlineMiners := ValidatorsSize newState in
  if ((OnlineSize prevState =? onlineValidators) && (ValidatorsSize prevState =? onlineMiners))%Z
  then None
  else Some (mkMinersHistoryItem (u64 onlineValidators) (u64 onlineMiners)).

(** Go: indexer/penalty.go convertChargedPenalties

    With the orders in which the two maps are ranged over. *)
Definition convertChargedPenalties (penalties : list (Address * option Z))
    (seconds : list (Address * Penalty)) : list PenaltyRecord :=
  ((λ p, mkPenaltyRecord _ (address_Hex p.1) (Some (ConvertToFloat p.2)) 0 EmptyString)
     <$> penalties)
  ++ ((λ p, mkPenaltyRecord _ (address_Hex p.1) None (pn_Seconds p.2)
              (match pn_InheritedFrom p.2 with
               | Some from => address_Hex from
               | None => EmptyString
               end)) <$> seconds).

(** ** The balances of a block *)

(** The addresses whose balances are written: those the collector saw, and every
    account at the first block. *)
Definition update_addrs (isFirstBlock : bool) (balanceUpdateAddrs : gset Address)
    (prev : AppState) : gset Address :=
  if isFirstBlock then list_to_set (IterateAccounts prev) ∪ balanceUpdateAddrs
  else balanceUpdateAddrs.

(** Go: indexer/balance.go determineBalanceUpdates

    [order] is the slice the set gives; a nil set is the empty one. *)
Definition determineBalanceUpdates (isFirstBlock : bool) (balanceUpdateAddrs : gset Address)
    (order : gset Address → list Address) (prev new : AppState) : list Balance * balanceDiff :=
  foldl (λ '(res, diff) addr,
    (res ++ [mkBalance _ (address_Hex addr) EmptyString (ConvertToFloat (Some (GetBalance new addr)))
               (ConvertToFloat (Some (GetStakeBalance new addr)))],
     mkBalanceDiff (bd_balance diff + GetBalance new addr - GetBalance prev addr)
                   (bd_stake diff + GetStakeBalance new addr - GetStakeBalance prev addr)))
    ([], mkBalanceDiff 0 0)
    (order (update_addrs isFirstBlock balanceUpdateAddrs prev)).

(** [initializeStateIfNeeded]: the sums over the accounts of a state. *)
Definition total_balance (w : AppState) : Z := sumZ (GetBalance w) (IterateAccounts w).
Definition total_stake (w : AppState) : Z := sumZ (GetStakeBalance w) (IterateAccounts w).

Lemma determineBalanceUpdates_spec first addrs order prev new :
  let l := order (update_addrs first addrs prev) in
  determineBalanceUpdates first addrs order prev new
  = ((λ a, mkBalance _ (address_Hex a) EmptyString (ConvertToFloat (Some (GetBalance new a)))
             (ConvertToFloat (Some (GetStakeBalance new a)))) <$> l,
     mkBalanceDiff (sumZ (λ a, GetBalance new a - GetBalance prev a)%Z l)
                   (sumZ (λ a, GetStakeBalance new a - GetStakeBalance prev a)%Z l)).
Proof.
  cbn zeta. unfold determineBalanceUpdates. generalize (order (update_addrs first addrs prev)) as l.
  intros l. induction l as [|a l IH] using rev_ind; [done|].
  rewrite foldl_app, IH. cbn. rewrite fmap_app, !sumZ_snoc. cbn. f_equal. f_equal; lia.
Qed.

(** A sum over accounts does not see an address whose balance is zero. *)
Lemma sum_over_superset (f : Address → Z) (l k : list Address) :
  NoDup l → NoDup k → l ⊆ k → (∀ a, a ∈ k → a ∉ l → f a = 0%Z) → sumZ f l = sumZ f k.
Proof.
  revert k. induction l as [|a l IH]; intros k Hl Hk Hsub Hz.
  - cbn. rewrite <- (sumZ_zero k). apply sumZ_ext. intros a Ha. symmetry.
    apply Hz; [done|apply not_elem_of_nil].
  - apply list.NoDup_cons in Hl as [Ha Hl].
    assert (a ∈ k) as Hak by (apply Hsub; left).
    apply list_elem_of_split in Hak as (k1 & k2 & ->).
    assert (k1 ++ a :: k2 ≡ₚ a :: (k1 ++ k2)) as Hp by by rewrite Permutation_middle.
    rewrite (sumZ_perm f _ _ Hp). rewrite Hp in Hk. apply list.NoDup_cons in Hk as [Hak Hk].
    cbn [sumZ]. rewrite (IH (k1 ++ k2)); [done|done|done| |].
    + intros b Hb. assert (b ∈ k1 ++ a :: k2) as Hb' by (apply Hsub; by right).
      rewrite Hp in Hb'. apply elem_of_cons in Hb' as [->|Hb']; [done|exact Hb'].
    + intros b Hb Hnb. apply Hz; [rewrite Hp; by right|]. intros [->|Hin]%elem_of_cons; done.
Qed.

(** All the balances and stakes of a state are held by the addresses of a set, whether or
    not the state lists them as accounts. *)
Definition held_by (A : gset Address) (w : AppState) : Prop :=
  ∀ a, a ∉ A → GetBalance w a = 0%Z ∧ GetStakeBalance w a = 0%Z.
Definition held_balance (A : gset Address) (w : AppState) : Z := sumZ (GetBalance w) (elements A).
Definition held_stake (A : gset Address) (w : AppState) : Z := sumZ (GetStakeBalance w) (elements A).

(** The sums over the accounts are those of the state when the accounts hold everything. *)
Lemma totals_of_holders A w :
  held_by A w → NoDup (IterateAccounts w) → held_by (list_to_set (IterateAccounts w)) w →
  total_balance w = held_balance A w ∧ total_stake w = held_stake A w.
Proof.
  intros HA Hnd Hacc. set (B := A ∪ list_to_set (IterateAccounts w)).
  assert (∀ f : Address → Z, (∀ a, a ∉ A → f a = 0%Z) → (∀ a, a ∉ IterateAccounts w → f a = 0%Z) →
    sumZ f (IterateAccounts w) = sumZ f (elements A)) as Hsum.
  { intros f H1 H2. trans (sumZ f (elements B)).
    - apply sum_over_superset; [done|apply NoDup_elements| |by intros a _ Ha; apply H2].
      intros a Ha. apply elem_of_elements. set_solver.
    - symmetry. apply sum_over_superset; [apply NoDup_elements..| |].
      + intros a. rewrite !elem_of_elements. set_solver.
      + intros a _ Ha. apply H1. by rewrite <- elem_of_elements. }
  split; apply Hsum; intros a Ha; try (by apply HA); apply Hacc; by rewrite elem_of_list_to_set.
Qed.

(** The addresses a block changes are among those that are looked at. *)
Definition covers (addrs : gset Address) (prev new : AppState) : Prop :=
  ∀ a, a ∉ addrs → GetBalance new a = GetBalance prev a ∧
                   GetStakeBalance new a = GetStakeBalance prev a.

Lemma covers_update_addrs first addrs prev0 prev new :
  covers addrs prev new → covers (update_addrs first addrs prev0) prev new.
Proof.
  intros Hc a Ha. apply Hc. unfold update_addrs in Ha. destruct first; [set_solver|done].
Qed.

Lemma total_step (f : AppState → Address → Z) (addrs A : gset Address) l prev new :
  (∀ a, a ∉ A → f prev a = 0%Z) → (∀ a, a ∉ A → f new a = 0%Z) →
  (∀ a, a ∉ addrs → f new a = f prev a) → l ≡ₚ elements addrs →
  sumZ (f new) (elements A) = (sumZ (f prev) (elements A) + sumZ (λ a, (f new a - f prev a)%Z) l)%Z.
Proof.
  intros Hf1 Hf2 Hf Hl. rewrite (sumZ_perm _ _ _ Hl). set (B := A ∪ addrs).
  assert (∀ (g : Address → Z) (X : gset Address), X ⊆ B → (∀ a, a ∉ X → g a = 0%Z) →
    sumZ g (elements X) = sumZ g (elements B)) as Hover.
  { intros g X HX Hg. apply sum_over_superset; [apply NoDup_elements..| |].
    - intros a. rewrite !elem_of_elements. set_solver.
    - intros a _ Ha. apply Hg. by rewrite <- elem_of_elements. }
  rewrite (Hover (f new) A), (Hover (f prev) A), (Hover _ addrs); [|set_solver|intros a Ha; rewrite Hf by done; lia|set_solver|done|set_solver|done].
  rewrite <- sumZ_add. apply sumZ_ext. intros a _. lia.
Qed.

Lemma totals_step first addrs order A prev new :
  held_by A prev → held_by A new → (∀ s, order s ≡ₚ elements s) →
  covers (update_addrs first addrs prev) prev new →
  let diff := (determineBalanceUpdates first addrs order prev new).2 in
  held_balance A new = (held_balance A prev + bd_balance diff)%Z ∧
  held_stake A new = (held_stake A prev + bd_stake diff)%Z.
Proof.
  intros Hz1 Hz2 Hord Hsame. rewrite determineBalanceUpdates_spec. cbn. unfold held_balance, held_stake.
  split.
  - apply (total_step GetBalance (update_addrs first addrs prev)); try done;
      intros a Ha; [by apply Hz1|by apply Hz2|by apply Hsame].
  - apply (total_step GetStakeBalance (update_addrs first addrs prev)); try done;
      intros a Ha; [by apply Hz1|by apply Hz2|by apply Hsame].
Qed.

(** [C40]  Adding the difference of a block to the total of the state before it gives
    the total of the state after it, for the balances and for the stakes, when the
    collector saw every address whose balance or stake the block changes, in whatever
    order the set is ranged over.  The total of a state is taken over any finite set of
    addresses that holds everything in both states, whether or not the node lists them as
    accounts.  Exactly one row is written for each of the addresses seen, and at the first
    block for each account as well, with the balance and the stake of the state after it. *)
Theorem totals_follow_the_state first addrs order A (prev new : AppState) :
  held_by A prev → held_by A new → (∀ s, order s ≡ₚ elements s) → covers addrs prev new →
  let '(res, diff) := determineBalanceUpdates first addrs order prev new in
  held_balance A new = (held_balance A prev + bd_balance diff)%Z ∧
  held_stake A new = (held_stake A prev + bd_stake diff)%Z ∧
  res ≡ₚ (λ a, mkBalance _ (address_Hex a) EmptyString (ConvertToFloat (Some (GetBalance new a)))
                 (ConvertToFloat (Some (GetStakeBalance new a))))
         <$> elements (if first : bool then list_to_set (IterateAccounts prev) ∪ addrs else addrs).
Proof.
  intros Hp Hn Hord Hsame.
  pose proof (totals_step first addrs order A prev new Hp Hn Hord (covers_update_addrs _ _ _ _ _ Hsame)) as Ht.
  rewrite determineBalanceUpdates_spec in *. cbn in *. destruct Ht as [Hb Hs].
  split; [done|]. split; [done|]. unfold update_addrs. by rewrite Hord.
Qed.

(** ** The check of the balances *)

(** The result of [check]: [None] is nil. *)
Inductive check_error :=
  | MissingIn2 (address : string)
  | Different (address : string)
  | MissingIn1 (address : string).

(** The first loop of [check], over the entries of the copy [b1] in the order they
    are visited; [b2] is the other copy. *)
Fixpoint check_first (l : list (string * Decimal)) (b2 : gmap string Decimal)
    : check_error + gmap string Decimal :=
  match l with
  | [] => inr b2
  | (address1, info1) :: l =>
      match b2 !! address1 with
      | None => if Decimal_IsZero info1 then check_first l (delete address1 b2)
                else inl (MissingIn2 address1)
      | Some info2 => if (Decimal_Cmp info1 info2 =? 0)%Z
                      then check_first l (delete address1 b2) else inl (Different address1)
      end
  end.

Fixpoint check_second (l : list (string * Decimal)) : option check_error :=
  match l with
  | [] => None
  | (address2, info2) :: l =>
      if negb (Decimal_IsZero info2) then Some (MissingIn1 address2) else check_second l
  end.

(** Go: indexer/check_balances.go checkBalances:70-98

    The closure [check]; [order] ranges over a map. *)
Definition check (order : gmap string Decimal → list (string * Decimal))
    (balances1 balances2 : gmap string Decimal) : option check_error :=
  match check_first (order balances1) balances2 with
  | inl e => Some e
  | inr b2 => check_second (order b2)
  end.

(** Go: indexer/check_balances.go checkBalances

    The accessor's answers, with [None] for an error; [true]: no panic. *)
Definition checkBalances (order : gmap string Decimal → list (string * Decimal))
    (gaps inconsistencies : option Z) (stateBalances : gmap string Decimal)
    (dbBalances latestUpdates : option (gmap string Decimal)) : bool :=
  match gaps, inconsistencies with
  | Some g, Some i =>
      if (0 <? g)%Z || (0 <? i)%Z then false else
      match dbBalances, latestUpdates with
      | Some d, Some u =>
          match check order stateBalances d, check order stateBalances u with
          | None, None => true
          | _, _ => false
          end
      | _, _ => false
      end
  | _, _ => false
  end.

(** The two maps agree: a missing balance is a zero one. *)
Definition agree (m1 m2 : gmap string Decimal) : Prop := ∀ a,
  match m1 !! a, m2 !! a with
  | Some x, Some y => Decimal_Cmp x y = 0%Z
  | Some x, None | None, Some x => Decimal_IsZero x = true
  | None, None => True
  end.

Lemma check_second_none l :
  check_second l = None ↔ ∀ a x, (a, x) ∈ l → Decimal_IsZero x = true.
Proof.
  induction l as [|[a x] l IH]; cbn.
  { split; [|done]. intros _ a x Hin. by apply elem_of_nil in Hin. }
  destruct (Decimal_IsZero x) eqn:Hx; cbn.
  - rewrite IH. split.
    + intros Hl b y [[= -> ->]|Hin]%elem_of_cons; [done|by eapply Hl].
    + intros Hl b y Hin. apply (Hl b y). by right.
  - split; [done|]. intros Hl. specialize (Hl a x). rewrite Hl in Hx by left. done.
Qed.

Lemma check_first_ok l b2 :
  NoDup l.*1 →
  (∀ r, check_first l b2 = inr r → (∀ a, r !! a = if decide (a ∈ l.*1) then None else b2 !! a) ∧
     ∀ a x, (a, x) ∈ l → match b2 !! a with
       | Some y => Decimal_Cmp x y = 0%Z | None => Decimal_IsZero x = true end) ∧
  ((∀ a x, (a, x) ∈ l → match b2 !! a with
       | Some y => Decimal_Cmp x y = 0%Z | None => Decimal_IsZero x = true end) →
   ∃ r, check_first l b2 = inr r).
Proof.
  revert b2. induction l as [|[a x] l IH]; intros b2 Hnd; cbn.
  { split; [|by eexists]. intros r [= ->]. split; [done|]. intros a x Hin. by apply elem_of_nil in Hin. }
  apply list.NoDup_cons in Hnd as [Ha Hnd].
  assert (∀ b y, (b, y) ∈ l → delete a b2 !! b = b2 !! b) as Hdel.
  { intros b y Hb. apply lookup_delete_ne. intros <-. apply Ha.
    apply list_elem_of_fmap. by exists (a, y). }
  destruct (IH (delete a b2) Hnd) as [IH1 IH2].
  assert ((∀ r, check_first l (delete a b2) = inr r →
      match b2 !! a with Some y => Decimal_Cmp x y = 0%Z | None => Decimal_IsZero x = true end →
      (∀ c, r !! c = if decide (c ∈ a :: l.*1) then None else b2 !! c) ∧
      ∀ c y, (c, y) ∈ (a, x) :: l → match b2 !! c with
        | Some z => Decimal_Cmp y z = 0%Z | None => Decimal_IsZero y = true end)) as Hstep.
  { intros r Hr Hax. destruct (IH1 r Hr) as [Hr1 Hr2]. split.
    - intros c. rewrite Hr1. destruct (decide (c = a)) as [->|Hne].
      + rewrite lookup_delete_eq, (decide_True (P := a ∈ a :: _)) by left. by destruct (decide _).
      + rewrite lookup_delete_ne by done. apply decide_ext. rewrite elem_of_cons. tauto.
    - intros c y [[= -> ->]|Hin]%elem_of_cons; [exact Hax|].
      specialize (Hr2 c y Hin). by rewrite (Hdel c y Hin) in Hr2. }
  assert ((∀ c y, (c, y) ∈ (a, x) :: l → match b2 !! c with
        | Some z => Decimal_Cmp y z = 0%Z | None => Decimal_IsZero y = true end) →
      ∃ r, check_first l (delete a b2) = inr r) as Hback.
  { intros Hl. apply IH2. intros c y Hin. rewrite (Hdel c y Hin). apply Hl. by right. }
  destruct (b2 !! a) as [y|] eqn:Hb.
  - destruct (Z.eqb_spec (Decimal_Cmp x y) 0) as [Hc|Hc].
    + split; [|exact Hback]. intros r Hr. by apply Hstep.
    + split; [done|]. intros Hl. specialize (Hl a x). rewrite Hb in Hl. destruct Hc. apply Hl. left.
  - destruct (Decimal_IsZero x) eqn:Hx.
    + split; [|exact Hback]. intros r Hr. by apply Hstep.
    + split; [done|]. intros Hl. specialize (Hl a x). rewrite Hb, Hx in Hl.
      assert (false = true) by (apply Hl; left). done.
Qed.

(** The check of two sets of balances reports nothing exactly when they agree,
    a balance that one of them lacks counting as zero, whatever the order in which
    the maps are ranged over. *)
Theorem check_decides_agreement order m1 m2 :
  (∀ m, ranges m (order m)) →
  check order m1 m2 = None ↔ agree m1 m2.
Proof.
  intros Hord. unfold check.
  destruct (check_first_ok (order m1) m2 (ranges_NoDup m1 _ (Hord m1))) as [H1 H2].
  assert (∀ a, a ∈ (order m1).*1 ↔ is_Some (m1 !! a)) as Hdom.
  { intros a. rewrite list_elem_of_fmap. split.
    - intros ([b x] & -> & Hin). apply (ranges_elem m1 _ _ _ (Hord m1)) in Hin. by exists x.
    - intros [x Hx]. exists (a, x). split; [done|]. by apply (ranges_elem m1 _ _ _ (Hord m1)). }
  split.
  - destruct (check_first (order m1) m2) as [e|r] eqn:Hr; [done|].
    destruct (H1 r eq_refl) as [Hr1 Hr2]. rewrite check_second_none. intros Hz a.
    destruct (m1 !! a) as [x|] eqn:Hx.
    + apply (Hr2 a x). by apply (ranges_elem m1 _ _ _ (Hord m1)).
    + destruct (m2 !! a) as [y|] eqn:Hy; [|done]. apply (Hz a y).
      apply (ranges_elem r _ _ _ (Hord r)). rewrite Hr1, decide_False; [done|].
      rewrite Hdom, Hx. by intros [? ?].
  - intros Hag. destruct H2 as [r Hr].
    { intros a x Hin%(ranges_elem m1 _ _ _ (Hord m1)). specialize (Hag a).
      rewrite Hin in Hag. destruct (m2 !! a); done. }
    rewrite Hr. destruct (H1 r Hr) as [Hr1 _]. apply check_second_none.
    intros a x Hin%(ranges_elem r _ _ _ (Hord r)). rewrite Hr1 in Hin.
    destruct (decide _) as [|Hn]; [done|]. specialize (Hag a). rewrite Hin in Hag.
    destruct (m1 !! a) eqn:Hm; [|done]. destruct Hn. apply Hdom. by rewrite Hm.
Qed.
End balances.

(** ** Evaluated inputs *)

Definition sample_before : AppState :=
  sample_state <| GetBalance := λ a, if decide (a = mkAddress 1) then 10%Z else 0%Z |>
               <| IterateAccounts := [mkAddress 1] |>.
Definition sample_after : AppState :=
  sample_state <| GetBalance := λ a, if decide (a = mkAddress 1) then 4%Z
                                     else if decide (a = mkAddress 2) then 5%Z else 0%Z |>
               <| IterateAccounts := [mkAddress 2; mkAddress 1] |>.

Lemma totals_follow_the_state_witness :
  held_balance {[mkAddress 1; mkAddress 2]} sample_after = (held_balance {[mkAddress 1; mkAddress 2]} sample_before + -1)%Z ∧
  let '(res, diff) := determineBalanceUpdates false {[mkAddress 1; mkAddress 2]} elements
                        sample_before sample_after in
  held_balance {[mkAddress 1; mkAddress 2]} sample_after = (held_balance {[mkAddress 1; mkAddress 2]} sample_before + bd_balance diff)%Z ∧
  held_stake {[mkAddress 1; mkAddress 2]} sample_after = (held_stake {[mkAddress 1; mkAddress 2]} sample_before + bd_stake diff)%Z ∧
  res ≡ₚ (λ a, mkBalance _ (address_Hex a) EmptyString (ConvertToFloat (Some (GetBalance sample_after a)))
                 (ConvertToFloat (Some (GetStakeBalance sample_after a))))
         <$> elements ({[mkAddress 1; mkAddress 2]} : gset Address).
Proof.
  split; [by vm_compute|].
  apply (totals_follow_the_state false {[mkAddress 1; mkAddress 2]} elements {[mkAddress 1; mkAddress 2]} sample_before sample_after).
  - intros a Ha. split; [|done]. cbn. rewrite decide_False; [done|]. set_solver.
  - intros a Ha. split; [|done]. cbn. rewrite !decide_False; [done|..]; set_solver.
  - done.
  - intros a Ha. split; [|done]. cbn. rewrite !decide_False; [done|..]; set_solver.
Defined.

Lemma check_decides_agreement_witness :
  check map_to_list {["a" := 1%Z; "b" := 0%Z]}%string {["a" := 1%Z]}%string = None ↔
  agree {["a" := 1%Z; "b" := 0%Z]}%string {["a" := 1%Z]}%string.
Proof.
  apply (check_decides_agreement map_to_list). intros m. apply ranges_canonical.
Defined.
