(* ===== verification/EpochTypes.v ===== *)
(** * The records of an epoch

    The structures of db/types.go that the conversion of the last block of a validation
    fills, and those of the delegations and of the upgrades. *)

From S2P Require Import Prelude Node Rewards ValidationSummary.

(** Go: db/types.go DelegationSwitch *)
Record DelegationSwitch := mkDelegationSwitch {
  ds_Delegator : Address; ds_Delegatee : option Address; ds_BirthEpoch : option Z
}.

(** Go: db/types.go PoolSize *)
Record PoolSizeRecord := mkPoolSize {
  ps_Address : Address; ps_Size : Z; ps_TotalDelegated : Z
}.

(** Go: db/types.go PoolSizeChange *)
Record PoolSizeChange := mkPoolSizeChange {
  psc_Address : Address; psc_Old : PoolSizeRecord; psc_New : PoolSizeRecord
}.

(** Go: db/types.go Answer *)
Record Answer `{NodeApi} := mkAnswer {
  an_Address : string; an_Answer : Z; an_Point : Float32; an_Grade : Z;
  an_Index : Z; an_Considered : bool
}.

(** Go: db/types.go FlipStats *)
Record FlipStatsRecord `{NodeApi} := mkFlipStatsRecord {
  fsr_Author : string; fsr_Cid : string;
  fsr_ShortAnswers : list Answer; fsr_LongAnswers : list Answer;
  fsr_Status : Z; fsr_Answer : Z; fsr_Grade : Z; fsr_GradeScore : Decimal
}.

(** Go: db/types.go Birthday *)
Record Birthday := mkBirthday { bd_Address : string; bd_BirthEpoch : Z }.

(** Go: db/types.go MemPoolFlipKey *)
Record MemPoolFlipKey := mkMemPoolFlipKey { mk_Address : string; mk_Key : string }.

(** Go: db/types.go FlipStatusCount *)
Record FlipStatusCount := mkFlipStatusCount { fsc_Status : Z; fsc_Count : Z }.

(** Go: db/types.go EpochIdentity *)
Record EpochIdentity `{NodeApi} := mkEpochIdentity {
  ei_Address : string;
  ei_State : Z;
  ei_ShortPoint : Float32;
  ei_ShortFlips : Z;
  ei_TotalShortPoint : Float32;
  ei_TotalShortFlips : Z;
  ei_LongPoint : Float32;
  ei_LongFlips : Z;
  ei_Approved : bool;
  ei_Missed : bool;
  ei_RequiredFlips : Z;
  ei_AvailableFlips : Z;
  ei_MadeFlips : Z;
  ei_NextEpochInvites : Z;
  ei_BirthEpoch : Z;
  ei_ShortFlipCidsToSolve : list string;
  ei_LongFlipCidsToSolve : list string;
  ei_DelegateeAddress : string;
  ei_ShardId : Z;
  ei_NewShardId : Z;
  ei_WrongGradeReason : Z
}.

(** Go: db/types.go SavedInviteRewards *)
Record SavedInviteRewards := mkSavedInviteRewards {
  sir_Address : string; sir_Type : Z; sir_Count : Z
}.

(** Go: db/types.go TotalRewards *)
Record TotalRewardsRecord `{NodeApi} := mkTotalRewardsRecord {
  tr_Total : Decimal; tr_Validation : Decimal; tr_Staking : Decimal; tr_Candidate : Decimal;
  tr_Flips : Decimal; tr_FlipsExtra : Decimal; tr_Reports : Decimal; tr_Invitations : Decimal;
  tr_FoundationPayouts : Decimal; tr_ZeroWalletFund : Decimal;
  tr_ValidationShare : Decimal; tr_StakingShare : Decimal; tr_CandidateShare : Decimal;
  tr_FlipsShare : Decimal; tr_FlipsExtraShare : Decimal; tr_ReportsShare : Decimal;
  tr_InvitationsShare : Decimal
}.

(** Go: db/types.go Reward *)
Record RewardRecord `{NodeApi} := mkRewardRecord {
  rr_Address : string; rr_Balance : Decimal; rr_Stake : Decimal; rr_Type : Z
}.

(** Go: db/types.go BadAuthor *)
Record BadAuthor := mkBadAuthor { ba_Address : string; ba_Reason : Z }.

(** Go: db/types.go MiningReward *)
Record MiningRewardRecord `{NodeApi} := mkMiningRewardRecord {
  mrr_Address : string; mrr_Balance : Decimal; mrr_Stake : Decimal;
  mrr_Proposer : bool; mrr_StakeWeight : BigFloat
}.

(** Go: db/types.go EpochRewards *)
Record EpochRewardsRecord `{NodeApi} := mkEpochRewardsRecord {
  er_BadAuthors : list BadAuthor;
  er_Total : TotalRewardsRecord;
  er_ValidationRewards : list RewardRecord;
  er_FundRewards : list RewardRecord;
  er_AgesByAddress : gmap string Z;
  er_StakedAmountsByAddress : gmap string Z;
  er_FailedStakedAmountsByAddress : gmap string Z;
  er_RewardedFlipCids : list string;
  er_RewardedExtraFlipCids : list string;
  er_RewardedInvitations : list RewardedInvite;
  er_RewardedInvitees : list RewardedInvitee;
  er_SavedInviteRewards : list SavedInviteRewards;
  er_ReportedFlipRewards : list ReportedFlipReward
}.

(** Go: db/types.go DelegationEpochReward *)
Record DelegationEpochReward := mkDelegationEpochReward { der_Balance : Z; der_Type : Z }.

(** Go: db/types.go DelegatorEpochReward *)
Record DelegatorEpochReward := mkDelegatorEpochReward {
  dor_Address : Address; dor_TotalRewards : list DelegationEpochReward
}.

(** Go: db/types.go DelegateeEpochRewards *)
Record DelegateeEpochRewardsRecord := mkDelegateeRecord {
  dee_Address : Address;
  dee_TotalRewards : list DelegationEpochReward;
  dee_DelegatorRewards : list DelegatorEpochReward;
  dee_PenalizedDelegators : Z
}.

(** Go: db/types.go RewardBound *)
Record RewardBound := mkRewardBound { rb_Amount : Z; rb_Address : Address }.

(** Go: db/types.go RewardBounds *)
Record RewardBounds := mkRewardBounds { rbs_Type : Z; rbs_Min : RewardBound; rbs_Max : RewardBound }.

(** Go: db/types.go EpochResult *)
Record EpochResult `{NodeApi} := mkEpochResult {
  ep_Identities : list EpochIdentity;
  ep_FlipStats : list FlipStatsRecord;
  ep_Birthdays : list Birthday;
  ep_MemPoolFlipKeys : list MemPoolFlipKey;
  ep_FailedValidation : bool;
  ep_EpochRewards : option EpochRewardsRecord;
  ep_MinScoreForInvite : Float32;
  ep_RewardsBounds : list RewardBounds;
  ep_FlipStatuses : list FlipStatusCount;
  ep_ReportedFlips : Z;
  ep_DelegateesEpochRewards : list DelegateeEpochRewardsRecord;
  ep_ValidationRewardSummaries : list ValidationRewardSummaries;
  ep_PoolSizeChanges : list PoolSizeChange
}.

(** Go: db/types.go UpgradeVotes *)
Record UpgradeVotes := mkUpgradeVotes { uv_Upgrade : Z; uv_Votes : Z; uv_Timestamp : Z }.

(** Go: db/types.go UpgradeHistoryItem *)
Record UpgradeHistoryItem := mkUpgradeHistoryItem { uh_BlockHeight : Z; uh_Votes : Z }.

(** Go: db/types.go UpgradeVotingShortHistoryInfo *)
Record UpgradeVotingShortHistoryInfo := mkShortHistoryInfo {
  sh_HistoryItems : Z; sh_LastStep : Z; sh_LastHeight : Z
}.

(** Go: db/types.go Upgrade *)
Record Upgrade := mkUpgrade {
  up_Upgrade : Z; up_StartActivationDate : Z; up_EndActivationDate : Z
}.
