(* ===== verification/Transactions.v ===== *)
(** * The transactions of a block

    indexer/indexer.go, [convertTransactions] and what it calls, and the context and
    collector of the conversion, indexer/context.go: the records of the flips, the
    online statuses, the addresses with the changes of their states, and the
    identities that are killed, which the delegations of the block are detected from
    (file Delegation). *)

From S2P Require Import Prelude Node ContractTypes ContractTx.

(** ** Data *)

(** Go: indexer/context.go killedReason:10-16 *)
Inductive killedReason :=
  | killedReasonInactiveIdentity
  | killedReasonTx
  | killedReasonValidationFailure.

(** Go: indexer/context.go killedInfo *)
Record killedInfo := mkKilledInfo { ki_reason : killedReason; ki_tx : option Tx }.

(** Go: db/types.go Flip

    [TxId] is filled by the database. *)
Record Flip := mkFlip { fl_TxHash : string; fl_Cid : string; fl_Pair : Z }.

(** Go: db/types.go DeletedFlip *)
Record DeletedFlip := mkDeletedFlip { df_TxHash : string; df_Cid : string }.

(** Go: db/types.go FlipKey *)
Record FlipKey := mkFlipKey { fk_TxHash : string; fk_Key : string }.

(** Go: db/types.go FlipWords *)
Record FlipWords := mkFlipWords {
  fw_Cid : string; fw_TxHash : string; fw_Word1 : Z; fw_Word2 : Z
}.

(** Go: db/types.go AddressStateChange *)
Record AddressStateChange := mkAddressStateChange {
  asc_PrevState : Z; asc_NewState : Z; asc_TxHash : string
}.

(** Go: db/types.go Address *)
Record AddressRecord := mkAddressRecord {
  ad_Address : string; ad_IsTemporary : bool; ad_StateChanges : list AddressStateChange
}.

(** Go: db/types.go KillInviteeTx *)
Record KillInviteeRecord := mkKillInviteeRecord { kt_TxHash : string; kt_InviteTxHash : string }.

(** Go: db/types.go Transaction

    [Data] holds the client type of short answers, if any. *)
Record Transaction `{NodeApi} := mkTransaction {
  t_Hash : string; t_Type : TxType; t_From : string; t_To : string;
  t_Amount : Decimal; t_Tips : Decimal; t_MaxFee : Decimal; t_Fee : Decimal;
  t_Size : Z; t_Raw : string; t_Nonce : Z; t_UsedGas : Z; t_Data : option Z
}.

(** Go: indexer/indexer.go flipTx *)
Record flipTx := mkFlipTx { ft_txHash : Hash; ft_cid : bytes }.

(** Go: indexer/context.go conversionContext *)
Record conversionContext := mkConversionContext {
  cx_blockHeight : Z; cx_prevState : AppState; cx_newState : AppState
}.

(** Go: indexer/context.go conversionCollector *)
Record Cc := mkCc {
  cc_submittedFlips : list Flip;
  cc_deletedFlips : list DeletedFlip;
  cc_flipTxs : list flipTx;
  cc_flipKeys : list FlipKey;
  cc_flipsWords : list FlipWords;
  cc_addresses : gmap string AddressRecord;
  cc_killInviteeTxs : list KillInviteeRecord;
  cc_becomeOnlineTxs : list string;
  cc_becomeOfflineTxs : list string;
  cc_killedAddrs : gmap Address killedInfo;
  cc_switchDelegationTxs : list Tx
}.

(** [collector := &conversionCollector{..}], with the inactive identities the
    collector of the statistics saw being killed. *)
Definition newCc (killed : gset Address) : Cc :=
  mkCc [] [] [] [] [] ∅ [] [] []
    (gset_to_gmap (mkKilledInfo killedReasonInactiveIdentity None) killed) [].

(** The attachments of idena-go, and what it does with them. *)
Record LongAnswerAttachment := mkLongAnswerAttachment { la_Key : bytes; la_Proof : bytes }.

Class TxApi := {
  (** the payload of a flip: its cid and its pair *)
  ParseFlipSubmitAttachment : Tx → option (bytes * Z);
  ParseDeleteFlipAttachment : Tx → option bytes;
  ParseOnlineStatusAttachment : Tx → option bool;
  ParseShortAnswerAttachment : Tx → option Z;
  ParseLongAnswerAttachment : Tx → option LongAnswerAttachment;
  (** [None] is an error *)
  tx_ToBytes : Tx → option bytes;
  (** [vrf.HashFromProof], 32 bytes *)
  HashFromProof : bytes → bytes;
  (** [Ceremony.GetWordDictionaryRange()] and [ceremony.GetWords] *)
  GetWordDictionaryRange : Z * Z;
  GetWords : Z → Z → Z → Z → Z → option (Z * Z)
}.

(** ** Operations *)

Section operations.
Context `{NodeApi, TxApi}.

(** [hex.EncodeToString] of the standard library *)
Definition hex_digit (z : Z) : Ascii.ascii :=
  Ascii.ascii_of_nat (Z.to_nat (if z <? 10 then 48 + z else 87 + z)%Z).
Fixpoint EncodeToString (b : bytes) : string :=
  match b with
  | [] => EmptyString
  | x :: b => String (hex_digit (x / 16)) (String (hex_digit (x `mod` 16)) (EncodeToString b))
  end.

(** [binary.LittleEndian.Uint64] of the standard library *)
Definition LittleEndian_Uint64 (b : bytes) : Z :=
  foldr (λ x acc, x + 256 * acc)%Z 0%Z (take 8 b).

(** Go: indexer/indexer.go convertTxType *)
Definition convertTxType (txType : TxType) : TxType := txType.

(** Go: indexer/indexer.go convertIdentityState *)
Definition convertIdentityState (state : IdentityState) : Z := IdentityState_code state.

(** Go: indexer/indexer.go convertCid *)
Definition convertCid (c : Cid) : string := cid_String c.

(** Go: indexer/indexer.go detectSubmittedFlip *)
Definition detectSubmittedFlip (tx : Tx) : option (Flip * flipTx) :=
  if negb (bool_decide (tx_Type tx = SubmitFlipTx)) then None else
  '(c, pairId) ← ParseFlipSubmitAttachment tx;
  flipCid ← cid_Parse c;
  Some (mkFlip (hash_Hex (tx_Hash tx)) (convertCid flipCid) pairId, mkFlipTx (tx_Hash tx) c).

(** Go: indexer/indexer.go detectDeletedFlip *)
Definition detectDeletedFlip (tx : Tx) : option DeletedFlip :=
  if negb (bool_decide (tx_Type tx = DeleteFlipTx)) then None else
  c ← ParseDeleteFlipAttachment tx;
  flipCid ← cid_Parse c;
  Some (mkDeletedFlip (hash_Hex (tx_Hash tx)) (convertCid flipCid)).

(** Go: indexer/indexer.go detectKillInviteeTx

    [tx.To] and the inviter are dereferenced. *)
Definition detectKillInviteeTx (tx : Tx) (prevState : AppState)
    : outcome (option KillInviteeRecord) :=
  if negb (bool_decide (tx_Type tx = KillInviteeTx)) then Done None else
  match tx_To tx with
  | Some to =>
      match id_InviterTxHash (GetIdentity prevState to) with
      | Some h => Done (Some (mkKillInviteeRecord (hash_Hex (tx_Hash tx)) (hash_Hex h)))
      | None => Panic
      end
  | None => Panic
  end.

(** Go: indexer/indexer.go detectOnlineStatusTx

    The hash of a transaction that goes online, and of one that goes offline. *)
Definition detectOnlineStatusTx (tx : Tx) : option string * option string :=
  if negb (bool_decide (tx_Type tx = OnlineStatusTx)) then (None, None) else
  match ParseOnlineStatusAttachment tx with
  | None => (None, None)
  | Some online =>
      let h := hash_Hex (tx_Hash tx) in
      if online then (Some h, None) else (None, Some h)
  end.

(** Go: indexer/indexer.go getFlipWords *)
Definition getFlipWords (addr : Address) (attachment : LongAnswerAttachment)
    (firstIndex dictionarySize pairId : Z) (appState : AppState) : option (Z * Z) :=
  let identity := GetIdentity appState addr in
  let hash := HashFromProof (la_Proof attachment) in
  let rnd := LittleEndian_Uint64 hash in
  GetWords rnd firstIndex dictionarySize (id_TotalWordPairsCount identity) pairId.

(** Go: indexer/indexer.go handleLongAnswers *)
Definition handleLongAnswers (tx : Tx) (ctx : conversionContext) : M Cc unit :=
  if negb (bool_decide (tx_Type tx = SubmitLongAnswersTx)) then mret tt else
  match ParseLongAnswerAttachment tx with
  | None => mret tt
  | Some attachment =>
      let sender := tx_Sender tx in
      (if (0 <? length (la_Key attachment))%nat then
         modify_st (λ st, st <| cc_flipKeys ::= λ l,
           l ++ [mkFlipKey (hash_Hex (tx_Hash tx)) (EncodeToString (la_Key attachment))] |>)
       else mret tt);;
      if (0 <? length (la_Proof attachment))%nat then
        for_each (id_Flips (GetIdentity (cx_prevState ctx) sender)) (λ f,
          let '(firstIndex, dictionarySize) := GetWordDictionaryRange in
          match getFlipWords sender attachment firstIndex dictionarySize (if_Pair f)
                  (cx_prevState ctx) with
          | None => mret tt
          | Some (word1, word2) =>
              modify_st (λ st, st <| cc_flipsWords ::= λ l,
                l ++ [mkFlipWords (cid_text (if_Cid f)) (hash_Hex (tx_Hash tx))
                        (u16 word1) (u16 word2)] |>)
          end)
      else mret tt
  end.

(** The closure [getIdentityStateChange] of [convertTransaction]. *)
Definition getIdentityStateChange (stats : TxStats) (tx : Tx) (address : Address)
    : option IdentityStateChange :=
  txChanges ← ts_IdentityStateChanges stats !! tx_Hash tx;
  txChanges !! address.

(** [if _, present := collector.addresses[..]; !present { .. }] *)
Definition add_address (address : string) : M Cc unit :=
  modify_st (λ st, st <| cc_addresses ::= λ m,
    match m !! address with
    | Some _ => m
    | None => <[address := mkAddressRecord address false []]> m
    end |>).

(** What the change of the state of a participant does. *)
Definition record_change (address : Address) (tx : Tx) (change : IdentityStateChange)
    : M Cc unit :=
  modify_st (λ st, st <| cc_addresses ::= alter (λ r, r <| ad_StateChanges ::= λ l,
    l ++ [mkAddressStateChange (convertIdentityState (isc_PrevState change))
            (convertIdentityState (isc_NewState change)) (hash_Hex (tx_Hash tx))] |>)
    (address_Hex address) |>);;
  if decide (isc_NewState change = Killed)
  then modify_st (λ st, st <| cc_killedAddrs ::=
         insert address (mkKilledInfo killedReasonTx (Some tx)) |>)
  else modify_st (λ st, st <| cc_killedAddrs ::= delete address |>).

Definition lift_outcome {S A} (o : outcome A) : M S A := λ st,
  match o with Done a => Done (a, st) | Panic => Panic end.

(** The records of the flips and of the statuses, at the head of
    [convertTransaction]. *)
Definition collect_records (tx : Tx) (ctx : conversionContext) : M Cc unit :=
  match detectSubmittedFlip tx with
  | Some (f, h) => modify_st (λ st, st <| cc_submittedFlips ::= λ l, l ++ [f] |>
                                       <| cc_flipTxs ::= λ l, l ++ [h] |>)
  | None => mret tt
  end;;
  match detectDeletedFlip tx with
  | Some f => modify_st (λ st, st <| cc_deletedFlips ::= λ l, l ++ [f] |>)
  | None => mret tt
  end;;
  killInviteeTx ← lift_outcome (detectKillInviteeTx tx (cx_prevState ctx));
  match killInviteeTx with
  | Some k => modify_st (λ st, st <| cc_killInviteeTxs ::= λ l, l ++ [k] |>)
  | None => mret tt
  end;;
  match detectOnlineStatusTx tx with
  | (Some h, _) => modify_st (λ st, st <| cc_becomeOnlineTxs ::= λ l, l ++ [h] |>)
  | (None, Some h) => modify_st (λ st, st <| cc_becomeOfflineTxs ::= λ l, l ++ [h] |>)
  | (None, None) => mret tt
  end;;
  (if bool_decide (tx_Type tx = DelegateTx) || bool_decide (tx_Type tx = UndelegateTx)
   then modify_st (λ st, st <| cc_switchDelegationTxs ::= λ l, l ++ [tx] |>)
   else mret tt);;
  handleLongAnswers tx ctx.

(** The sender of a transaction, and the change of its state. *)
Definition collect_sender (stats : TxStats) (tx : Tx) : M Cc unit :=
  let sender := tx_Sender tx in
  let from := address_Hex sender in
  add_address from;;
  match getIdentityStateChange stats tx sender with
  | Some change =>
      (if bool_decide (tx_Type tx = ActivationTx) && bool_decide (isc_NewState change = Killed)
       then modify_st (λ st, st <| cc_addresses ::= alter (λ r, r <| ad_IsTemporary := true |>) from |>)
       else mret tt);;
      record_change sender tx change
  | None => mret tt
  end.

(** The recipient, and the change of its state when it is not the sender. *)
Definition collect_recipient (stats : TxStats) (tx : Tx) : M Cc unit :=
  match tx_To tx with
  | None => mret tt
  | Some to =>
      add_address (address_Hex to);;
      if decide (to = tx_Sender tx) then mret tt else
      match getIdentityStateChange stats tx to with
      | Some change => record_change to tx change
      | None => mret tt
      end
  end.

(** Go: indexer/indexer.go convertTransaction *)
Definition convertTransaction (stats : TxStats) (tx : Tx) (ctx : conversionContext)
    : M Cc Transaction :=
  collect_records tx ctx;;
  collect_sender stats tx;;
  collect_recipient stats tx;;
  mret (mkTransaction _ (hash_Hex (tx_Hash tx)) (convertTxType (tx_Type tx))
          (address_Hex (tx_Sender tx))
          (match tx_To tx with Some to => address_Hex to | None => EmptyString end)
          (ConvertToFloat (tx_Amount tx)) (ConvertToFloat (tx_Tips tx))
          (ConvertToFloat (tx_MaxFee tx))
          (ConvertToFloat (default None (ts_FeesByTxHash stats !! tx_Hash tx)))
          (tx_Size tx) (EncodeToString (default [] (tx_ToBytes tx))) (tx_AccountNonce tx)
          (default 0%Z (ts_UsedGasByTxHash stats !! tx_Hash tx))
          (if bool_decide (tx_Type tx = SubmitShortAnswersTx)
           then ParseShortAnswerAttachment tx else None)).

(** Go: indexer/indexer.go convertTransactions *)
Definition convertTransactions (stats : TxStats) (txs : list Tx) (ctx : conversionContext)
    : M Cc (list Transaction) :=
  mapM (λ tx, convertTransaction stats tx ctx) txs.

(** Go: indexer/context.go getAddresses

    [order] is the order in which the map is ranged over. *)
Definition getAddresses (order : gmap string AddressRecord → list (string * AddressRecord))
    (st : Cc) : list AddressRecord := (order (cc_addresses st)).*2.
End operations.

(** ** What the transactions of a block do to the addresses *)

Section properties.
Context `{NodeLaws, TxApi}.
Context (stats : TxStats) (ctx : conversionContext).
Implicit Types (st : Cc) (tx : Tx) (txs : list Tx) (a : Address).

(** The sender of a transaction and its other participant. *)
Definition involved tx : list Address :=
  tx_Sender tx :: option_list (to ← tx_To tx; if decide (to = tx_Sender tx) then None else Some to).

(** The changes of the state of [a], with their transactions, in order. *)
Definition changes_of a txs : list (Tx * IdentityStateChange) :=
  omap (λ tx, if bool_decide (a ∈ involved tx)
              then (tx,.) <$> getIdentityStateChange stats tx a else None) txs.

Definition is_involved a txs : bool := existsb (λ tx, bool_decide (a ∈ involved tx)) txs.

Definition change_record (e : Tx * IdentityStateChange) : AddressStateChange :=
  mkAddressStateChange (convertIdentityState (isc_PrevState e.2))
    (convertIdentityState (isc_NewState e.2)) (hash_Hex (tx_Hash e.1)).

(** An activation that kills its sender. *)
Definition is_temporary a (e : Tx * IdentityStateChange) : bool :=
  bool_decide (tx_Sender e.1 = a) && bool_decide (tx_Type e.1 = ActivationTx)
  && bool_decide (isc_NewState e.2 = Killed).

(** The record of [a] after [txs]. *)
Definition address_record a txs : option AddressRecord :=
  if is_involved a txs
  then Some (mkAddressRecord (address_Hex a) (existsb (is_temporary a) (changes_of a txs))
               (change_record <$> changes_of a txs))
  else None.

(** Who killed [a], when [txs] change its state last to that. *)
Definition killed_by a txs (before : option killedInfo) : option killedInfo :=
  match list.last (changes_of a txs) with
  | None => before
  | Some (tx, c) => if decide (isc_NewState c = Killed)
                    then Some (mkKilledInfo killedReasonTx (Some tx)) else None
  end.

(** The addresses and the killed identities after [txs], from an empty collector. *)
Definition collected (killed : gmap Address killedInfo) txs st : Prop :=
  (∀ a, cc_addresses st !! address_Hex a = address_record a txs) ∧
  (∀ s, is_Some (cc_addresses st !! s) → ∃ a, s = address_Hex a) ∧
  (∀ a, cc_killedAddrs st !! a = killed_by a txs (killed !! a)).

Lemma changes_of_snoc a txs tx :
  changes_of a (txs ++ [tx])
  = changes_of a txs ++ option_list (if bool_decide (a ∈ involved tx)
                                     then (tx,.) <$> getIdentityStateChange stats tx a else None).
Proof.
  unfold changes_of. rewrite omap_app. cbn.
  by destruct (bool_decide _), (getIdentityStateChange stats tx a).
Qed.

Lemma is_involved_snoc a txs tx :
  is_involved a (txs ++ [tx]) = is_involved a txs || bool_decide (a ∈ involved tx).
Proof. unfold is_involved. rewrite existsb_app. cbn. by rewrite orb_false_r. Qed.

(** What one participant of a transaction does to the collector. *)
Definition participate tx st a : Cc :=
  let m := cc_addresses st in
  let r := default (mkAddressRecord (address_Hex a) false []) (m !! address_Hex a) in
  match getIdentityStateChange stats tx a with
  | None => st <| cc_addresses := <[address_Hex a := r]> m |>
  | Some c =>
      st <| cc_addresses := <[address_Hex a :=
              mkAddressRecord (ad_Address r) (ad_IsTemporary r || is_temporary a (tx, c))
                (ad_StateChanges r ++ [change_record (tx, c)])]> m |>
         <| cc_killedAddrs := if decide (isc_NewState c = Killed)
              then <[a := mkKilledInfo killedReasonTx (Some tx)]> (cc_killedAddrs st)
              else delete a (cc_killedAddrs st) |>
  end.

(** The part of the collector the participants leave alone. *)
Definition records st := (cc_submittedFlips st, cc_deletedFlips st, cc_flipTxs st,
  cc_killInviteeTxs st, (cc_becomeOnlineTxs st, cc_becomeOfflineTxs st),
  cc_switchDelegationTxs st, (cc_flipKeys st, cc_flipsWords st)).

Lemma participate_records tx st a : records (participate tx st a) = records st.
Proof. unfold participate. by destruct (getIdentityStateChange stats tx a). Qed.

Lemma add_default (m : gmap string AddressRecord) k d :
  match m !! k with Some _ => m | None => <[k:=d]> m end = <[k:=default d (m !! k)]> m.
Proof. destruct (m !! k) as [r|] eqn:Hk; cbn; [|done]. by rewrite insert_id. Qed.

Lemma alter_insert_default f (m : gmap string AddressRecord) k r :
  alter f k (<[k:=r]> m) = <[k:=f r]> m.
Proof. apply alter_insert_eq. Qed.

(** The map of the addresses replaced, and the rest as it was. *)
Lemma add_address_done st a :
  add_address (address_Hex a) st
  = Done (tt, st <| cc_addresses ::= λ m,
      <[address_Hex a := default (mkAddressRecord (address_Hex a) false []) (m !! address_Hex a)]> m |>).
Proof.
  unfold add_address, modify_st. do 2 f_equal. destruct st. cbn. by rewrite add_default.
Qed.

Lemma collect_sender_done tx st :
  collect_sender stats tx st = Done (tt, participate tx st (tx_Sender tx)).
Proof.
  unfold collect_sender. erewrite bind_done by apply add_address_done. unfold participate, is_temporary. cbn [fst snd].
  destruct (getIdentityStateChange stats tx (tx_Sender tx)) as [c|]; [|done].
  rewrite (bool_decide_true (tx_Sender tx = tx_Sender tx)) by done.
  unfold record_change. destruct (decide (isc_NewState c = Killed)) as [Hk|Hk];
    [rewrite (bool_decide_true (isc_NewState c = Killed)) by done
    |rewrite (bool_decide_false (isc_NewState c = Killed)) by done];
    destruct (bool_decide (tx_Type tx = ActivationTx)), st;
    unfold mbind, M_bind, modify_st; cbn;
    rewrite !alter_insert_default; cbn; by rewrite ?orb_true_r, ?orb_false_r.
Qed.

Lemma recipient_done tx st a :
  a ≠ tx_Sender tx →
  (add_address (address_Hex a);;
   match getIdentityStateChange stats tx a with
   | Some change => record_change a tx change
   | None => mret tt
   end) st = Done (tt, participate tx st a).
Proof.
  intros Hne. erewrite bind_done by apply add_address_done. unfold participate, is_temporary.
  cbn [fst snd]. rewrite (bool_decide_false (tx_Sender tx = a)) by done.
  destruct (getIdentityStateChange stats tx a) as [c|]; [|done]. unfold record_change.
  destruct (decide (isc_NewState c = Killed)), st; unfold mbind, M_bind, modify_st; cbn;
    rewrite !alter_insert_default; cbn; by rewrite ?orb_false_r.
Qed.

(** A second [add_address] of a participant does nothing. *)
Lemma add_address_again tx st a :
  add_address (address_Hex a) (participate tx st a) = Done (tt, participate tx st a).
Proof.
  rewrite add_address_done. do 2 f_equal. unfold participate.
  destruct (getIdentityStateChange stats tx a); destruct st; cbn; by rewrite insert_id by
    (rewrite lookup_insert_eq; done).
Qed.

Lemma collect_participants_done tx st :
  (collect_sender stats tx;; collect_recipient stats tx) st
  = Done (tt, foldl (participate tx) st (involved tx)).
Proof.
  erewrite bind_done by apply collect_sender_done. unfold collect_recipient, involved. cbn [foldl].
  destruct (tx_To tx) as [to|]; [|done]. cbn [mbind option_bind].
  destruct (decide (to = tx_Sender tx)) as [->|Hne]; cbn [option_list foldl].
  - by erewrite bind_done by apply add_address_again.
  - by apply recipient_done.
Qed.

(** ** The state of the collector after a transaction *)

Lemma participate_addresses tx st a b :
  cc_addresses (participate tx st a) !! address_Hex b
  = if decide (a = b)
    then let r := default (mkAddressRecord (address_Hex a) false []) (cc_addresses st !! address_Hex a) in
         Some (match getIdentityStateChange stats tx a with
               | None => r
               | Some c => mkAddressRecord (ad_Address r) (ad_IsTemporary r || is_temporary a (tx, c))
                             (ad_StateChanges r ++ [change_record (tx, c)])
               end)
    else cc_addresses st !! address_Hex b.
Proof.
  unfold participate. destruct (getIdentityStateChange stats tx a), (decide (a = b)) as [->|Hne]; cbn;
    rewrite ?lookup_insert_eq, ?lookup_insert_ne; done || by intros ?%(inj address_Hex).
Qed.

Lemma participate_killed tx st a b :
  cc_killedAddrs (participate tx st a) !! b
  = match getIdentityStateChange stats tx a with
    | Some c => if decide (a = b)
                then if decide (isc_NewState c = Killed)
                     then Some (mkKilledInfo killedReasonTx (Some tx)) else None
                else cc_killedAddrs st !! b
    | None => cc_killedAddrs st !! b
    end.
Proof.
  unfold participate. destruct (getIdentityStateChange stats tx a) as [c|]; [|done]. cbn.
  destruct (decide (a = b)) as [->|Hne], (decide (isc_NewState c = Killed));
    by rewrite ?lookup_insert_eq, ?lookup_insert_ne, ?lookup_delete_eq, ?lookup_delete_ne by done.
Qed.

Lemma involved_NoDup tx : NoDup (involved tx).
Proof.
  unfold involved. destruct (tx_To tx) as [to|]; cbn; [|apply list.NoDup_singleton].
  destruct (decide _); cbn; [apply list.NoDup_singleton|].
  apply list.NoDup_cons. split; [set_solver|apply list.NoDup_singleton].
Qed.

(** What one transaction adds to the record of [b]. *)
Definition add_record tx b (r : option AddressRecord) : option AddressRecord :=
  if bool_decide (b ∈ involved tx)
  then let r := default (mkAddressRecord (address_Hex b) false []) r in
       Some (match getIdentityStateChange stats tx b with
             | None => r
             | Some c => mkAddressRecord (ad_Address r) (ad_IsTemporary r || is_temporary b (tx, c))
                           (ad_StateChanges r ++ [change_record (tx, c)])
             end)
  else r.

Definition add_killed tx b (k : option killedInfo) : option killedInfo :=
  match (if bool_decide (b ∈ involved tx) then getIdentityStateChange stats tx b else None) with
  | Some c => if decide (isc_NewState c = Killed)
              then Some (mkKilledInfo killedReasonTx (Some tx)) else None
  | None => k
  end.

Lemma participants_fold tx l st b :
  NoDup l →
  cc_addresses (foldl (participate tx) st l) !! address_Hex b
    = (if bool_decide (b ∈ l) then cc_addresses (participate tx st b) !! address_Hex b
       else cc_addresses st !! address_Hex b) ∧
  cc_killedAddrs (foldl (participate tx) st l) !! b
    = (if bool_decide (b ∈ l) then cc_killedAddrs (participate tx st b) !! b
       else cc_killedAddrs st !! b) ∧
  records (foldl (participate tx) st l) = records st.
Proof.
  revert st. induction l as [|a l IH]; intros st Hnd; [by rewrite bool_decide_false by set_solver|].
  apply list.NoDup_cons in Hnd as [Ha Hnd]. cbn [foldl].
  destruct (IH (participate tx st a) Hnd) as (-> & -> & ->). rewrite participate_records.
  destruct (decide (b = a)) as [->|Hne].
  - rewrite (bool_decide_false (a ∈ l)) by done. by rewrite bool_decide_true by left.
  - rewrite !participate_addresses, !participate_killed.
    destruct (decide (a = b)); [congruence|].
    replace (bool_decide (b ∈ a :: l)) with (bool_decide (b ∈ l))
      by (apply bool_decide_ext; set_solver).
    split_and!; [done| |done].
    by destruct (bool_decide (b ∈ l)), (getIdentityStateChange stats tx b),
      (getIdentityStateChange stats tx a).
Qed.

Lemma participants_dom tx l st s :
  is_Some (cc_addresses (foldl (participate tx) st l) !! s) →
  is_Some (cc_addresses st !! s) ∨ ∃ a, a ∈ l ∧ s = address_Hex a.
Proof.
  revert st. induction l as [|a l IH]; intros st Hs; [by left|]. cbn in Hs.
  apply IH in Hs as [Hs|(b & Hb & ->)]; [|right; exists b; by split; [right|]].
  destruct (decide (s = address_Hex a)) as [->|Hne]; [right; exists a; by split; [left|]|left].
  unfold participate in Hs. destruct (getIdentityStateChange stats tx a); cbn in Hs;
    by rewrite lookup_insert_ne in Hs by done.
Qed.

Lemma existsb_snoc {A} (f : A → bool) l x : existsb f (l ++ [x]) = existsb f l || f x.
Proof. rewrite existsb_app. cbn. by rewrite orb_false_r. Qed.

Lemma collected_step killed txs tx st :
  collected killed txs st → collected killed (txs ++ [tx]) (foldl (participate tx) st (involved tx)).
Proof.
  intros (Ha & Hdom & Hk). pose proof (λ b, participants_fold tx (involved tx) st b (involved_NoDup tx)) as Hf.
  split; [|split].
  - intros a. destruct (Hf a) as (-> & _ & _). rewrite participate_addresses, decide_True, Ha by done.
    unfold address_record. rewrite is_involved_snoc, changes_of_snoc.
    destruct (bool_decide (a ∈ involved tx)) eqn:Hin; [|by rewrite orb_false_r, app_nil_r].
    rewrite orb_true_r. cbn zeta.
    assert (is_involved a txs = false → changes_of a txs = []) as Hnil.
    { unfold is_involved, changes_of. clear. induction txs as [|t txs IH]; cbn; [done|].
      intros [-> ->%IH]%orb_false_iff. done. }
    destruct (is_involved a txs); [|rewrite (Hnil eq_refl)]; cbn [default from_option id];
      destruct (getIdentityStateChange stats tx a) as [c|]; cbn [option_list fmap option_fmap option_map];
      by rewrite ?existsb_snoc, ?fmap_app, ?app_nil_r.
  - intros s [?|(a & _ & ->)]%participants_dom; [by apply Hdom|by eexists].
  - intros a. destruct (Hf a) as (_ & -> & _). rewrite participate_killed, Hk.
    unfold killed_by. rewrite changes_of_snoc.
    destruct (bool_decide (a ∈ involved tx)); [|by rewrite app_nil_r].
    destruct (getIdentityStateChange stats tx a); [|by rewrite app_nil_r].
    cbn [option_list fmap option_fmap option_map]. by rewrite last_snoc, decide_True by done.
Qed.

(** ** The records of the flips and of the statuses *)

(** The cases of the transactions with which [convertTransaction] panics. *)
Definition invitee_ok tx : bool :=
  match detectKillInviteeTx tx (cx_prevState ctx) with Done _ => true | Panic => false end.

Definition kill_invitee_of tx : option KillInviteeRecord :=
  match detectKillInviteeTx tx (cx_prevState ctx) with Done k => k | Panic => None end.

Definition keys_of tx : list FlipKey :=
  match (if bool_decide (tx_Type tx = SubmitLongAnswersTx)
         then ParseLongAnswerAttachment tx else None) with
  | Some a => if (0 <? length (la_Key a))%nat
              then [mkFlipKey (hash_Hex (tx_Hash tx)) (EncodeToString (la_Key a))] else []
  | None => []
  end.

(** The words of the flips the sender submitted, by the proof of its long answers. *)
Definition words_of tx : list FlipWords :=
  match (if bool_decide (tx_Type tx = SubmitLongAnswersTx)
         then ParseLongAnswerAttachment tx else None) with
  | Some a =>
      if (0 <? length (la_Proof a))%nat
      then omap (λ f, (λ w, mkFlipWords (cid_text (if_Cid f)) (hash_Hex (tx_Hash tx))
                              (u16 w.1) (u16 w.2))
             <$> getFlipWords (tx_Sender tx) a GetWordDictionaryRange.1 GetWordDictionaryRange.2
                   (if_Pair f) (cx_prevState ctx))
             (id_Flips (GetIdentity (cx_prevState ctx) (tx_Sender tx)))
      else []
  | None => []
  end.

(** The records of [txs]. *)
Definition records_of txs :=
  (fst <$> omap detectSubmittedFlip txs, omap detectDeletedFlip txs,
   snd <$> omap detectSubmittedFlip txs, omap kill_invitee_of txs,
   (omap (fst ∘ detectOnlineStatusTx) txs, omap (snd ∘ detectOnlineStatusTx) txs),
   filter (λ tx, tx_Type tx = DelegateTx ∨ tx_Type tx = UndelegateTx) txs,
   (txs ≫= keys_of, txs ≫= words_of)).

Lemma words_loop (body : IdentityFlip → M Cc unit) (h : IdentityFlip → option FlipWords) l st :
  (∀ f st, body f st = Done (tt, st <| cc_flipsWords ::= λ ws, ws ++ option_list (h f) |>)) →
  for_each l body st = Done (tt, st <| cc_flipsWords ::= λ ws, ws ++ omap h l |>).
Proof.
  intros Hb. revert st. induction l as [|f l IH]; intros st.
  - unfold for_each, mret, M_ret. destruct st. cbn. by rewrite app_nil_r.
  - cbn [for_each]. erewrite bind_done by apply Hb. rewrite IH. destruct st. cbn.
    rewrite <- app_assoc. by destruct (h f).
Qed.

Lemma handleLongAnswers_done tx st :
  handleLongAnswers tx ctx st
  = Done (tt, st <| cc_flipKeys ::= λ l, l ++ keys_of tx |>
                 <| cc_flipsWords ::= λ l, l ++ words_of tx |>).
Proof.
  assert (st = st <| cc_flipKeys ::= λ l, l ++ [] |> <| cc_flipsWords ::= λ l, l ++ [] |>) as Hst
    by (destruct st; cbn; by rewrite !app_nil_r).
  unfold handleLongAnswers, keys_of, words_of.
  destruct (bool_decide (tx_Type tx = SubmitLongAnswersTx)); cbn [negb]; [|by rewrite <- Hst].
  destruct (ParseLongAnswerAttachment tx) as [a|]; [|by rewrite <- Hst]. clear Hst.
  destruct (0 <? length (la_Key a))%nat.
  all: erewrite bind_done by reflexivity; destruct (0 <? length (la_Proof a))%nat.
  2, 4: unfold mret, M_ret; destruct st; cbn; by rewrite ?app_nil_r.
  all: etrans; [apply words_loop|destruct st; cbn; by rewrite ?app_nil_r].
  all: intros f st'; destruct GetWordDictionaryRange as [first size]; cbn [fst snd];
    destruct (getFlipWords _ _ _ _ _ _) as [[w1 w2]|]; [done|];
    unfold mret, M_ret; destruct st'; cbn; by rewrite app_nil_r.
Qed.

Definition is_switch tx : bool :=
  bool_decide (tx_Type tx = DelegateTx) || bool_decide (tx_Type tx = UndelegateTx).

(** The records of one transaction. *)
Definition add_records tx st : Cc :=
  st <| cc_submittedFlips ::= λ l, l ++ option_list (fst <$> detectSubmittedFlip tx) |>
     <| cc_flipTxs ::= λ l, l ++ option_list (snd <$> detectSubmittedFlip tx) |>
     <| cc_deletedFlips ::= λ l, l ++ option_list (detectDeletedFlip tx) |>
     <| cc_killInviteeTxs ::= λ l, l ++ option_list (kill_invitee_of tx) |>
     <| cc_becomeOnlineTxs ::= λ l, l ++ option_list (detectOnlineStatusTx tx).1 |>
     <| cc_becomeOfflineTxs ::= λ l, l ++ option_list (detectOnlineStatusTx tx).2 |>
     <| cc_switchDelegationTxs ::= λ l, l ++ if is_switch tx then [tx] else [] |>
     <| cc_flipKeys ::= λ l, l ++ keys_of tx |>
     <| cc_flipsWords ::= λ l, l ++ words_of tx |>.

Lemma online_exclusive tx :
  (detectOnlineStatusTx tx).1 = None ∨ (detectOnlineStatusTx tx).2 = None.
Proof.
  unfold detectOnlineStatusTx. destruct (negb _); [by left|].
  destruct (ParseOnlineStatusAttachment tx) as [[]|]; auto.
Qed.

Ltac nothing_added := unfold mret, M_ret; match goal with st : Cc |- _ => destruct st end; cbn;
  by rewrite ?app_nil_r.

Lemma collect_records_done tx st :
  invitee_ok tx = true → collect_records tx ctx st = Done (tt, add_records tx st).
Proof.
  unfold invitee_ok, collect_records, add_records, kill_invitee_of. intros Hok.
  destruct (detectKillInviteeTx tx (cx_prevState ctx)) as [k|]; [|done].
  erewrite bind_done by (instantiate (1 := st
      <| cc_submittedFlips ::= λ l, l ++ option_list (fst <$> detectSubmittedFlip tx) |>
      <| cc_flipTxs ::= λ l, l ++ option_list (snd <$> detectSubmittedFlip tx) |>);
    destruct (detectSubmittedFlip tx) as [[]|]; [done|nothing_added]).
  set (st1 := modify_field cc_flipTxs _ _).
  erewrite bind_done by (instantiate (1 := st1
      <| cc_deletedFlips ::= λ l, l ++ option_list (detectDeletedFlip tx) |>);
    destruct (detectDeletedFlip tx); [done|clearbody st1; clear st; nothing_added]).
  set (st2 := modify_field cc_deletedFlips _ _). erewrite bind_done by reflexivity.
  erewrite bind_done by (instantiate (1 := st2
      <| cc_killInviteeTxs ::= λ l, l ++ option_list k |>);
    destruct k; [done|clearbody st2; clear st st1; nothing_added]).
  set (st3 := modify_field cc_killInviteeTxs _ _).
  erewrite bind_done by (instantiate (1 := st3
      <| cc_becomeOnlineTxs ::= λ l, l ++ option_list (detectOnlineStatusTx tx).1 |>
      <| cc_becomeOfflineTxs ::= λ l, l ++ option_list (detectOnlineStatusTx tx).2 |>);
    destruct (online_exclusive tx) as [Hx|Hx];
    destruct (detectOnlineStatusTx tx) as [[] []]; cbn in Hx; try done;
    clearbody st3; clear st st1 st2; nothing_added).
  set (st4 := modify_field cc_becomeOfflineTxs _ _). fold (is_switch tx).
  erewrite bind_done by (instantiate (1 := st4
      <| cc_switchDelegationTxs ::= λ l, l ++ if is_switch tx then [tx] else [] |>);
    destruct (is_switch tx); [done|clearbody st4; clear st st1 st2 st3; nothing_added]).
  apply handleLongAnswers_done.
Qed.

Lemma records_of_snoc txs tx st :
  records st = records_of txs → records (add_records tx st) = records_of (txs ++ [tx]).
Proof.
  unfold records, records_of. rewrite !omap_app, !fmap_app, !bind_app, list.filter_app.
  destruct st. cbn [modify_field add_records cc_submittedFlips cc_deletedFlips cc_flipTxs
    cc_killInviteeTxs cc_becomeOnlineTxs cc_becomeOfflineTxs cc_switchDelegationTxs cc_flipKeys
    cc_flipsWords].
  intros [= -> -> -> -> -> -> -> -> ->]. rewrite filter_cons, filter_nil.
  assert ((if is_switch tx then [tx] else [])
    = if decide (tx_Type tx = DelegateTx ∨ tx_Type tx = UndelegateTx) then [tx] else []) as ->.
  { unfold is_switch. destruct (decide _) as [[Hd|Hd]|Hd];
      [by rewrite bool_decide_true|by rewrite (bool_decide_true (_ = UndelegateTx)), orb_true_r by done|].
    by rewrite !bool_decide_false by tauto. }
  cbn. rewrite !app_nil_r. by destruct (detectSubmittedFlip tx).
Qed.

(** The row of a transaction. *)
Record converted tx (t : Transaction) : Prop := {
  cv_Hash : t_Hash t = hash_Hex (tx_Hash tx);
  cv_Type : t_Type t = tx_Type tx;
  cv_From : t_From t = address_Hex (tx_Sender tx);
  cv_To : t_To t = default EmptyString (address_Hex <$> tx_To tx);
  cv_Fee : t_Fee t = ConvertToFloat (default None (ts_FeesByTxHash stats !! tx_Hash tx))
}.

Lemma wp_convertTransactions killed txs :
  forallb invitee_ok txs = true →
  wp (convertTransactions stats txs ctx) (λ ts st,
    (collected (cc_killedAddrs (newCc killed)) txs st ∧ records st = records_of txs) ∧
    Forall2 converted txs ts) (newCc killed).
Proof.
  intros Hok. unfold convertTransactions.
  apply (wp_mapM (λ done st, collected (cc_killedAddrs (newCc killed)) done st ∧
    records st = records_of done)).
  - intros pre tx st Htx [Hc Hr]. unfold convertTransaction, wp.
    rewrite forallb_forall in Hok. apply list_elem_of_In, Hok in Htx.
    erewrite bind_done by by apply collect_records_done.
    rewrite (bind_assoc _ (λ _, collect_recipient stats tx)).
    erewrite bind_done by apply collect_participants_done.
    destruct (participants_fold tx (involved tx) (add_records tx st) (mkAddress 0) (involved_NoDup tx))
      as (_ & _ & Hrec).
    split; [split; [by apply collected_step|by rewrite Hrec; apply records_of_snoc]|].
    split; try done. by destruct (tx_To tx).
  - split; [|done]. split; [|split].
    + intros a. cbn. apply lookup_empty.
    + intros s [r Hs]. cbn in Hs. by rewrite lookup_empty in Hs.
    + done.
Qed.

(** [C34]  The addresses and the killed identities of a block: an address has a row
    exactly when it sends or receives a transaction of the block; its row lists the
    changes of its state, in the order of the transactions, and says it is temporary
    exactly when an activation it sent killed it; and an identity is killed by the
    transaction that changed its state last, when that was to [Killed], no longer
    killed when it was to another state, and otherwise killed exactly when it was among
    the inactive ones. *)
Theorem block_addresses killed txs :
  forallb invitee_ok txs = true →
  wp (convertTransactions stats txs ctx) (λ _ st,
    (∀ a, cc_addresses st !! address_Hex a = address_record a txs) ∧
    (∀ s, is_Some (cc_addresses st !! s) → ∃ a, s = address_Hex a) ∧
    (∀ a, cc_killedAddrs st !! a = killed_by a txs
       (if decide (a ∈ killed) then Some (mkKilledInfo killedReasonInactiveIdentity None) else None)))
    (newCc killed).
Proof.
  intros Hok. eapply wp_mono; [by apply wp_convertTransactions|].
  intros ts st [[(Ha & Hs & Hk) _] _]. split_and!; [done..|]. intros a. rewrite Hk. f_equal.
  cbn. rewrite lookup_gset_to_gmap. by destruct (decide (a ∈ killed)) as [Hin|Hin]; simplify_option_eq.
Qed.

(** Every transaction of a block gives one row, in order, with its hash, its
    type, its parties and its fee; and the flips submitted and deleted, the flip keys
    and words, the invitees killed, the miners that go online and offline and the
    transactions that switch a delegation are those of the transactions, in order. *)
Theorem block_records killed txs :
  forallb invitee_ok txs = true →
  wp (convertTransactions stats txs ctx) (λ ts st,
    Forall2 converted txs ts ∧ records st = records_of txs) (newCc killed).
Proof.
  intros Hok. eapply wp_mono; [by apply (wp_convertTransactions killed)|].
  by intros ts st [[_ Hr] Hts].
Qed.
End properties.

(** ** A concrete block *)

#[local] Instance sample_attachments : TxApi := {|
  ParseFlipSubmitAttachment tx := Some (tx_Payload tx, 3%Z);
  ParseDeleteFlipAttachment tx := Some (tx_Payload tx);
  ParseOnlineStatusAttachment tx := Some true;
  ParseShortAnswerAttachment tx := Some 1%Z;
  ParseLongAnswerAttachment tx := Some (mkLongAnswerAttachment (tx_Payload tx) (tx_Payload tx));
  tx_ToBytes tx := Some (tx_Payload tx);
  HashFromProof b := b;
  GetWordDictionaryRange := (0%Z, 100%Z);
  GetWords rnd first size pairs pair := Some ((first + rnd)%Z, (first + pair)%Z)
|}.

(** The address 1 activates itself and is killed; the address 2 then submits a flip and
    writes to 1, which becomes a candidate. *)
Definition sample_activation : Tx :=
  sample_tx <| tx_Type := ActivationTx |> <| tx_To := Some (mkAddress 2) |>.
Definition sample_submission : Tx :=
  sample_tx <| tx_Type := SubmitFlipTx |> <| tx_Hash := mkHash 2 |>
            <| tx_Sender := mkAddress 2 |> <| tx_To := Some (mkAddress 1) |>
            <| tx_Payload := [1; 2]%Z |>.

Definition sample_changes : TxStats :=
  emptyTxStats <| ts_IdentityStateChanges := {[
    mkHash 1 := {[ mkAddress 1 := mkIdentityStateChange Invite Killed;
                   mkAddress 2 := mkIdentityStateChange Undefined CandidateState ]};
    mkHash 2 := {[ mkAddress 1 := mkIdentityStateChange Killed CandidateState ]} ]} |>.

Definition sample_context : conversionContext := mkConversionContext 5 sample_state sample_state.

Lemma block_addresses_witness :
  wp (convertTransactions sample_changes [sample_activation; sample_submission] sample_context)
    (λ _ st,
      (∀ a, cc_addresses st !! address_Hex a
            = address_record sample_changes a [sample_activation; sample_submission]) ∧
      (∀ s, is_Some (cc_addresses st !! s) → ∃ a, s = address_Hex a) ∧
      (∀ a, cc_killedAddrs st !! a
            = killed_by sample_changes a [sample_activation; sample_submission]
                (if decide (a ∈ ({[mkAddress 1; mkAddress 9]} : gset Address))
                 then Some (mkKilledInfo killedReasonInactiveIdentity None) else None)))
    (newCc {[mkAddress 1; mkAddress 9]}).
Proof.
  apply (block_addresses sample_changes sample_context {[mkAddress 1; mkAddress 9]}
           [sample_activation; sample_submission]).
  vm_compute. reflexivity.
Defined.

Lemma block_records_witness :
  wp (convertTransactions sample_changes [sample_activation; sample_submission] sample_context)
    (λ ts st, Forall2 (converted sample_changes) [sample_activation; sample_submission] ts ∧
       records st = records_of sample_context [sample_activation; sample_submission]) (newCc ∅).
Proof.
  apply (block_records sample_changes sample_context ∅ [sample_activation; sample_submission]).
  vm_compute. reflexivity.
Defined.

Example sample_block_addresses :
  match convertTransactions sample_changes [sample_activation; sample_submission] sample_context
          (newCc {[mkAddress 1; mkAddress 9]}) with
  | Done (_, st) =>
      (ad_IsTemporary <$> cc_addresses st !! address_Hex (mkAddress 1),
       ki_reason <$> cc_killedAddrs st !! mkAddress 1, ki_reason <$> cc_killedAddrs st !! mkAddress 9)
  | Panic => (None, None, None)
  end = (Some true, None, Some killedReasonInactiveIdentity).
Proof. vm_compute. reflexivity. Qed.
