(* ===== verification/Delegation.v ===== *)
(** * Delegations and pools

    indexer/delegation.go: the delegations that a block starts and ends, and the
    sizes of the pools it changes.  The table of the delegations is what the switches
    are applied to, so the theorems relate it to the delegatees in the states of the
    node before and after the block. *)

From S2P Require Import Prelude Node ContractTypes Transactions EpochTypes.

(** The constants [UndelegationReason*] of db/types.go. *)
Definition UndelegationReasonTermination : Z := 2.
Definition UndelegationReasonValidationFailure : Z := 3.
Definition UndelegationReasonTransitionRemove : Z := 4.
Definition UndelegationReasonInactiveIdentity : Z := 5.
Definition UndelegationReasonApplyingFailure : Z := 6.

Abbreviation Switches := (list DelegationSwitch * list DelegationHistoryUpdate)%type.

Section operations.
Context `{NodeApi}.

(** A [db.DelegationHistoryUpdate] with only the delegator. *)
Definition history_of (delegator : Address) : DelegationHistoryUpdate :=
  mkDelegationHistoryUpdate delegator None None None None None.

(** Go: indexer/delegation.go undelegationReason

    [None] is the panic of a transaction that is nil. *)
Definition undelegationReason (info : killedInfo) : option (option Z * option Hash) :=
  match ki_reason info with
  | killedReasonInactiveIdentity => Some (Some UndelegationReasonInactiveIdentity, None)
  | killedReasonTx =>
      tx ← ki_tx info; Some (Some UndelegationReasonTermination, Some (tx_Hash tx))
  | killedReasonValidationFailure => Some (Some UndelegationReasonValidationFailure, None)
  end.

(** Go: indexer/delegation.go buildDelegationHistoryUpdate *)
Definition buildDelegationHistoryUpdate (s : DelegationSwitch) (height : Z)
    : DelegationHistoryUpdate :=
  let u := history_of (ds_Delegator s) in
  match ds_Delegatee s with
  | Some _ => u <| dhu_DelegationBlockHeight := Some height |>
  | None => u <| dhu_UndelegationBlockHeight := Some height |>
  end.

(** [if v := newState.State.GetIdentity(delegator).Birthday; v > 0 { birthEpoch = &v }] *)
Definition birth_epoch (newState : AppState) (delegator : Address) : option Z :=
  let v := id_Birthday (GetIdentity newState delegator) in
  if (0 <? v)%Z then Some v else None.

(** Go: indexer/delegation.go detectDelegationSwitch

    The delegatees are compared as pointers. *)
Definition detectDelegationSwitch (delegator : Address) (prevState newState : AppState)
    : option DelegationSwitch :=
  match Delegatee prevState delegator, Delegatee newState delegator with
  | None, None => None
  | None, Some newDelegatee =>
      Some (mkDelegationSwitch delegator (Some (ap_val newDelegatee)) (birth_epoch newState delegator))
  | Some _, None => Some (mkDelegationSwitch delegator None None)
  | Some prevDelegatee, Some newDelegatee =>
      if decide (ap_loc prevDelegatee = ap_loc newDelegatee) then None
      else Some (mkDelegationSwitch delegator (Some (ap_val newDelegatee))
                   (birth_epoch newState delegator))
  end.

(** [DelegationHistoryUpdate] of a delegation that could not be applied. *)
Definition failure_update (delegator : Address) (height : Z) : DelegationHistoryUpdate :=
  (history_of delegator) <| dhu_DelegationBlockHeight := Some height |>
                       <| dhu_UndelegationBlockHeight := Some height |>
                       <| dhu_UndelegationReason := Some UndelegationReasonApplyingFailure |>.

(** The loop over the killed identities. *)
Fixpoint killed_switches (prevState : AppState) (height : Z) (l : list (Address * killedInfo))
    (acc : Switches) : option Switches :=
  match l with
  | [] => Some acc
  | (killedAddr, info) :: l =>
      match Delegatee prevState killedAddr with
      | Some _ =>
          r ← undelegationReason info;
          killed_switches prevState height l
            (acc.1 ++ [mkDelegationSwitch killedAddr None None],
             acc.2 ++ [(history_of killedAddr) <| dhu_UndelegationBlockHeight := Some height |>
                         <| dhu_UndelegationReason := r.1 |> <| dhu_UndelegationTx := r.2 |>])
      | None => killed_switches prevState height l acc
      end
  end.

(** The body of the two other loops: [failed] says whether a delegator without a switch
    is a failure. *)
Definition switch_one (prevState newState : AppState) (height : Z) (failed : bool)
    (delegator : Address) (acc : Switches) : Switches :=
  match detectDelegationSwitch delegator prevState newState with
  | Some s => (acc.1 ++ [s], acc.2 ++ [buildDelegationHistoryUpdate s height])
  | None => (acc.1, if failed then acc.2 ++ [failure_update delegator height] else acc.2)
  end.

(** Go: indexer/delegation.go detectDelegationSwitches

    [killed_order] is the order in which the killed identities are ranged over. *)
Definition detectDelegationSwitches (block : Block) (prevState newState : AppState)
    (killedAddrs : gmap Address killedInfo)
    (killed_order : gmap Address killedInfo → list (Address * killedInfo))
    (switchDelegationTxs : list Tx) : option Switches :=
  if negb (HasFlag block IdentityUpdate) then Some ([], []) else
  let height := b_Height block in
  match killed_switches prevState height (killed_order killedAddrs) ([], []) with
  | None => None
  | Some acc =>
  let '(acc, handledAddrs) :=
    foldl (λ (r : Switches * gset Address) delegator, let '(acc, handledAddrs) := r in
      match killedAddrs !! delegator with
      | Some _ => (acc, handledAddrs)
      | None => (switch_one prevState newState height true delegator acc,
                 {[delegator]} ∪ handledAddrs)
      end) (acc, ∅ : gset Address) (Delegations prevState) in
  Some (foldl (λ acc tx,
    let delegator := tx_Sender tx in
    match killedAddrs !! delegator with
    | Some _ => acc
    | None =>
        if decide (delegator ∈ handledAddrs) then acc
        else switch_one prevState newState height (bool_decide (tx_Type tx = DelegateTx))
               delegator acc
    end) acc switchDelegationTxs)
  end.

(** [poolSizeByAddress[addr] = newState.ValidatorsCache.PoolSize(addr)], unless it is there *)
Definition add_pool (newState : AppState) (pool : Address) (m : gmap Address Z) : gmap Address Z :=
  match m !! pool with
  | Some _ => m
  | None => <[pool := PoolSize newState pool]> m
  end.

(** The closures [handleDelegator] and [handlePool] of [detectPoolSizeUpdates]. *)
Definition handleDelegator (prevState newState : AppState) (addr : Address)
    (m : gmap Address Z) : gmap Address Z :=
  let m := match Delegatee prevState addr with
           | Some d => add_pool newState (ap_val d) m
           | None => m
           end in
  match Delegatee newState addr with
  | Some d => add_pool newState (ap_val d) m
  | None => m
  end.

Definition handlePool (prevState newState : AppState) (addr : Address)
    (m : gmap Address Z) : gmap Address Z :=
  if IsPool prevState addr || IsPool newState addr then add_pool newState addr m else m.

(** The map [poolSizeByAddress] after the three loops of [detectPoolSizeUpdates]. *)
Definition pool_map (delegationSwitches : list DelegationSwitch)
    (addresses : list AddressRecord) (epochIdentities : list EpochIdentity)
    (prevState newState : AppState) : gmap Address Z :=
  let m := foldl (λ m s, handleDelegator prevState newState (ds_Delegator s) m)
             ∅ delegationSwitches in
  let m := foldl (λ m a,
             match ad_StateChanges a with
             | [] => m
             | _ => let addr := HexToAddress (ad_Address a) in
                    handleDelegator prevState newState addr
                      (handlePool prevState newState addr m)
             end) m addresses in
  foldl (λ m i,
    let addr := HexToAddress (ei_Address i) in
    handleDelegator prevState newState addr (handlePool prevState newState addr m))
    m epochIdentities.

(** Go: indexer/delegation.go detectPoolSizeUpdates

    [order] is the order in which the map is ranged over; the code returns early when
    there is nothing to range over. *)
Definition detectPoolSizeUpdates (delegationSwitches : list DelegationSwitch)
    (addresses : list AddressRecord) (epochIdentities : list EpochIdentity)
    (prevState newState : AppState) (order : gmap Address Z → list (Address * Z))
    : list PoolSizeRecord :=
  (λ '(poolAddress, size), mkPoolSize poolAddress size 0)
  <$> order (pool_map delegationSwitches addresses epochIdentities prevState newState).
End operations.

(** ** The table of the delegations *)

Section table.
Context `{NodeApi}.
Context (prevState newState : AppState) (killedAddrs : gmap Address killedInfo).
Implicit Types (a : Address) (D : gmap Address Address) (s : DelegationSwitch) (acc : Switches).

(** What a switch does to the table, from a delegator to its pool. *)
Definition apply_switch D s : gmap Address Address :=
  match ds_Delegatee s with
  | Some d => <[ds_Delegator s := d]> D
  | None => delete (ds_Delegator s) D
  end.

Definition delegatee_of (w : AppState) a : option Address := ap_val <$> Delegatee w a.

(** The delegatee a switch of [a] should leave. *)
Definition target a : option Address :=
  match killedAddrs !! a with Some _ => None | None => delegatee_of newState a end.

(** Two pointers to one place point to one address. *)
Definition pointers_coherent : Prop := ∀ a p q,
  Delegatee prevState a = Some p → Delegatee newState a = Some q →
  ap_loc p = ap_loc q → ap_val p = ap_val q.

Lemma apply_switches_lookup l D a :
  Forall (λ s, ds_Delegatee s = target (ds_Delegator s)) l →
  foldl apply_switch D l !! a
  = if bool_decide (a ∈ ds_Delegator <$> l) then target a else D !! a.
Proof.
  intros Hl. revert D. induction Hl as [|s l Hs Hl IH]; intros D; [done|]. cbn [foldl].
  rewrite IH. destruct (decide (a ∈ ds_Delegator <$> l)) as [Hin|Hin].
  { rewrite !bool_decide_true; [done|cbn; by right|done]. }
  rewrite (bool_decide_false _ Hin). unfold apply_switch. cbn [fmap list_fmap].
  destruct (decide (a = ds_Delegator s)) as [->|Hne].
  - rewrite bool_decide_true by left. rewrite Hs.
    destruct (target (ds_Delegator s)); by rewrite ?lookup_insert_eq, ?lookup_delete_eq.
  - rewrite bool_decide_false by set_solver.
    destruct (ds_Delegatee s); by rewrite ?lookup_insert_ne, ?lookup_delete_ne by done.
Qed.

(** The switches of the three loops. *)
Definition killed_switch (e : Address * killedInfo) : option DelegationSwitch :=
  _ ← Delegatee prevState e.1; Some (mkDelegationSwitch e.1 None None).
Definition alive_switch a : option DelegationSwitch :=
  match killedAddrs !! a with
  | Some _ => None
  | None => detectDelegationSwitch a prevState newState
  end.
Definition handled : gset Address :=
  list_to_set (filter (λ a, killedAddrs !! a = None) (Delegations prevState)).
Definition tx_switch (tx : Tx) : option DelegationSwitch :=
  if decide (tx_Sender tx ∈ handled) then None else alive_switch (tx_Sender tx).

Lemma killed_switches_spec height l acc :
  (∀ a i, (a, i) ∈ l → ki_reason i = killedReasonTx → is_Some (ki_tx i)) →
  ∃ hist, killed_switches prevState height l acc = Some (acc.1 ++ omap killed_switch l, hist).
Proof.
  revert acc. induction l as [|[a i] l IH]; intros acc Hl; cbn [killed_switches].
  { cbn. rewrite app_nil_r. destruct acc. by eexists. }
  rewrite omap_cons_list. unfold killed_switch at 1. cbn [fst].
  destruct (Delegatee prevState a) as [d|]; cbn [mbind option_bind option_list app]; [|apply IH; intros; eapply Hl; [by right|done]].
  assert (is_Some (undelegationReason i)) as [r ->].
  { unfold undelegationReason. specialize (Hl a i ltac:(left)).
    destruct (ki_reason i); [by eexists| |by eexists].
    destruct (Hl eq_refl) as [tx ->]. by eexists. }
  cbn [mbind option_bind]. destruct (IH (acc.1 ++ [mkDelegationSwitch a None None],
    acc.2 ++ [(history_of a) <| dhu_UndelegationBlockHeight := Some height |>
                <| dhu_UndelegationReason := r.1 |> <| dhu_UndelegationTx := r.2 |>])) as [hist Hr];
    [intros; eapply Hl; [by right|done]|].
  exists hist. rewrite Hr. cbn. by rewrite <- app_assoc.
Qed.

Lemma switch_one_fst height failed a acc :
  (switch_one prevState newState height failed a acc).1
  = acc.1 ++ option_list (detectDelegationSwitch a prevState newState).
Proof.
  unfold switch_one. destruct (detectDelegationSwitch a prevState newState); cbn; [done|].
  by rewrite app_nil_r.
Qed.

Lemma delegations_loop height l acc (hd : gset Address) :
  let r := foldl (λ (r : Switches * gset Address) delegator, let '(acc, handledAddrs) := r in
      match killedAddrs !! delegator with
      | Some _ => (acc, handledAddrs)
      | None => (switch_one prevState newState height true delegator acc,
                 {[delegator]} ∪ handledAddrs)
      end) (acc, hd) l in
  r.1.1 = acc.1 ++ omap alive_switch l ∧
  r.2 = list_to_set (filter (λ a, killedAddrs !! a = None) l) ∪ hd.
Proof.
  revert acc hd. induction l as [|a l IH]; intros acc hd; cbn [foldl]; cbn zeta in *.
  { split; [by rewrite app_nil_r|cbn; set_solver]. }
  rewrite omap_cons_list, filter_cons. unfold alive_switch at 1.
  destruct (killedAddrs !! a) eqn:Hk.
  - rewrite decide_False by done. apply IH.
  - rewrite decide_True by done. destruct (IH (switch_one prevState newState height true a acc)
      ({[a]} ∪ hd)) as [-> ->]. rewrite switch_one_fst, <- app_assoc. split; [done|cbn; set_solver].
Qed.

Lemma txs_loop height l acc :
  (foldl (λ acc tx,
    match killedAddrs !! tx_Sender tx with
    | Some _ => acc
    | None =>
        if decide (tx_Sender tx ∈ handled) then acc
        else switch_one prevState newState height (bool_decide (tx_Type tx = DelegateTx))
               (tx_Sender tx) acc
    end) acc l).1 = acc.1 ++ omap tx_switch l.
Proof.
  revert acc. induction l as [|tx l IH]; intros acc; cbn [foldl]; [by rewrite app_nil_r|].
  rewrite IH, omap_cons_list. unfold tx_switch at 2, alive_switch.
  destruct (killedAddrs !! tx_Sender tx), (decide (tx_Sender tx ∈ handled)); try done.
  by rewrite switch_one_fst, <- app_assoc.
Qed.

(** The three loops together. *)
Lemma detectDelegationSwitches_spec block order txs :
  HasFlag block IdentityUpdate = true → ranges killedAddrs (order killedAddrs) →
  (∀ a i, killedAddrs !! a = Some i → ki_reason i = killedReasonTx → is_Some (ki_tx i)) →
  ∃ hist, detectDelegationSwitches block prevState newState killedAddrs order txs
  = Some (omap killed_switch (order killedAddrs) ++ omap alive_switch (Delegations prevState)
          ++ omap tx_switch txs, hist).
Proof.
  intros Hf Hord Hwf. unfold detectDelegationSwitches. rewrite Hf. cbn [negb].
  destruct (killed_switches_spec (b_Height block) (order killedAddrs) ([], [])) as [hist ->].
  { intros a i Hin. apply (Hwf a i). by apply (ranges_elem _ _ _ _ Hord). }
  pose proof (delegations_loop (b_Height block) (Delegations prevState)
    (omap killed_switch (order killedAddrs), hist) ∅) as Hloop. cbn zeta in Hloop.
  cbn [app fst]. destruct (foldl _ _ (Delegations prevState)) as [acc hd]. cbn [fst snd] in Hloop.
  destruct Hloop as [Hacc ->]. rewrite union_empty_r_L. fold handled.
  pose proof (txs_loop (b_Height block) txs acc) as Htx.
  destruct (foldl _ acc txs) as [res hist']. cbn in Htx. exists hist'. f_equal. f_equal.
  rewrite Htx, Hacc. cbn. by rewrite app_assoc.
Qed.

Lemma detect_target a s :
  detectDelegationSwitch a prevState newState = Some s →
  ds_Delegator s = a ∧ ds_Delegatee s = delegatee_of newState a.
Proof.
  unfold detectDelegationSwitch, delegatee_of.
  destruct (Delegatee prevState a), (Delegatee newState a); repeat case_decide; intros; by simplify_eq/=.
Qed.

Lemma detect_none a :
  pointers_coherent → detectDelegationSwitch a prevState newState = None →
  delegatee_of prevState a = delegatee_of newState a.
Proof.
  unfold detectDelegationSwitch, delegatee_of. intros Hp.
  destruct (Delegatee prevState a) eqn:H1, (Delegatee newState a) eqn:H2; try done.
  case_decide; [|done]. intros _. cbn. f_equal. by eapply (Hp a).
Qed.

Lemma alive_target a s :
  alive_switch a = Some s → ds_Delegator s = a ∧ ds_Delegatee s = target a.
Proof. unfold alive_switch, target. destruct (killedAddrs !! a); [done|]. apply detect_target. Qed.

(** The addresses whose delegations a block looks at. *)
Definition looked_at (txs : list Tx) a : Prop :=
  is_Some (killedAddrs !! a) ∨ a ∈ Delegations prevState ∨ a ∈ tx_Sender <$> txs.

Lemma delegator_of_omap {A} (f : A → option DelegationSwitch) (l : list A) x s :
  x ∈ l → f x = Some s → ds_Delegator s ∈ ds_Delegator <$> omap f l.
Proof. intros Hx Hs. apply list_elem_of_fmap_2, list_elem_of_omap. by exists x. Qed.

(** Pointwise: what is known of [a] before the block tells where it is after it. *)
Lemma delegation_switches_follow block order txs :
  HasFlag block IdentityUpdate = true → ranges killedAddrs (order killedAddrs) →
  (∀ a i, killedAddrs !! a = Some i → ki_reason i = killedReasonTx → is_Some (ki_tx i)) →
  pointers_coherent →
  (∀ a, is_Some (killedAddrs !! a) → Delegatee newState a = None) →
  ∃ switches updates,
    detectDelegationSwitches block prevState newState killedAddrs order txs = Some (switches, updates) ∧
    ∀ D a, (¬ looked_at txs a → delegatee_of newState a = delegatee_of prevState a) →
      D !! a = delegatee_of prevState a →
      foldl apply_switch D switches !! a = delegatee_of newState a.
Proof.
  intros Hf Hord Hwf Hptr Hkill.
  destruct (detectDelegationSwitches_spec block order txs Hf Hord Hwf) as [hist Hr].
  eexists _, hist. split; [exact Hr|]. intros D a Hrest HD.
  assert (target a = delegatee_of newState a) as Htarget.
  { unfold target. destruct (killedAddrs !! a) eqn:Hk; [|done].
    unfold delegatee_of. by rewrite Hkill by eauto. }
  rewrite apply_switches_lookup.
  2: { rewrite !Forall_app. split_and!; apply list.Forall_forall; intros s Hs;
    apply list_elem_of_omap in Hs as (e & He & Hs).
    - destruct e as [k i]. apply (ranges_elem _ _ _ _ Hord) in He. unfold killed_switch in Hs.
      destruct (Delegatee prevState (k, i).1); cbn in Hs; simplify_eq. cbn. unfold target.
      by rewrite He.
    - by apply alive_target in Hs as [-> ?].
    - unfold tx_switch in Hs. case_decide; [done|]. by apply alive_target in Hs as [-> ?]. }
  case_bool_decide as Hin; [done|]. rewrite HD. clear Htarget.
  rewrite !fmap_app, !elem_of_app in Hin.
  apply Decidable.not_or in Hin as [Hn1 [Hn2 Hn3]%Decidable.not_or].
  destruct (decide (is_Some (killedAddrs !! a))) as [[i Hk]|Hk].
  { destruct (Delegatee prevState a) as [d|] eqn:Hd;
      [|unfold delegatee_of; by rewrite Hd, Hkill by eauto].
    destruct Hn1. apply (delegator_of_omap _ _ (a, i) (mkDelegationSwitch a None None));
      [by apply (ranges_elem _ _ _ _ Hord)|unfold killed_switch; cbn; by rewrite Hd]. }
  apply eq_None_not_Some in Hk.
  assert (a ∈ Delegations prevState → delegatee_of prevState a = delegatee_of newState a) as Hdel.
  { intros Hin. apply detect_none; [done|].
    destruct (detectDelegationSwitch a prevState newState) as [s|] eqn:Hs; [|done].
    destruct Hn2. pose proof (detect_target _ _ Hs) as [Ha _]. rewrite <- Ha at 1.
    apply (delegator_of_omap _ _ a); [done|]. unfold alive_switch. by rewrite Hk. }
  destruct (decide (a ∈ Delegations prevState)); [auto|].
  destruct (decide (a ∈ tx_Sender <$> txs)) as [(tx & -> & Htx)%list_elem_of_fmap|];
    [|symmetry; apply Hrest; intros [[]|[]]; congruence].
  apply detect_none; [done|].
  destruct (detectDelegationSwitch (tx_Sender tx) prevState newState) as [s|] eqn:Hs; [|done].
  destruct Hn3. pose proof (detect_target _ _ Hs) as [Ha _]. rewrite <- Ha at 1.
  apply (delegator_of_omap _ _ tx); [done|]. unfold tx_switch, alive_switch. rewrite Hk.
  rewrite decide_False; [done|]. unfold handled. rewrite elem_of_list_to_set, list_elem_of_filter.
  by intros [].
Qed.

(** Applied to the table of the delegations, the switches of a block make it the
    delegatees of the node's new state, when the table held those of the state before,
    in whatever order the killed identities are ranged over; provided that a killed
    identity has no delegatee in the new state, and that a delegatee changes only for
    the identities the block looks at: those it kills, those with a pending delegation,
    and those that send a transaction to switch. *)
Theorem delegation_table_follows block order txs D :
  HasFlag block IdentityUpdate = true → ranges killedAddrs (order killedAddrs) →
  (∀ a i, killedAddrs !! a = Some i → ki_reason i = killedReasonTx → is_Some (ki_tx i)) →
  pointers_coherent →
  (∀ a, is_Some (killedAddrs !! a) → Delegatee newState a = None) →
  (∀ a, ¬ looked_at txs a → delegatee_of newState a = delegatee_of prevState a) →
  (∀ a, D !! a = delegatee_of prevState a) →
  ∃ switches updates,
    detectDelegationSwitches block prevState newState killedAddrs order txs = Some (switches, updates) ∧
    ∀ a, foldl apply_switch D switches !! a = delegatee_of newState a.
Proof.
  intros Hf Hord Hwf Hptr Hkill Hrest HD.
  destruct (delegation_switches_follow block order txs Hf Hord Hwf Hptr Hkill) as (sw & up & E & Hsw).
  exists sw, up. split; [done|]. intros a. apply Hsw; [apply Hrest|apply HD].
Qed.
End table.

(** ** The sizes of the pools *)

Section pools.
Context `{NodeApi}.
Context (prevState newState : AppState).
Implicit Types (a p q : Address) (m : gmap Address Z).

(** The pools a delegator leaves and joins, and an address that is a pool. *)
Definition pools_of a : list Address :=
  option_list (delegatee_of prevState a) ++ option_list (delegatee_of newState a).
Definition pool_itself a : list Address :=
  if IsPool prevState a || IsPool newState a then [a] else [].

(** The pools of a block: those of the delegators that switch, and those of the
    addresses whose state changes and of the identities of an epoch, and these
    themselves. *)
Definition pools_touched (switches : list DelegationSwitch) (addresses : list AddressRecord)
    (identities : list EpochIdentity) : list Address :=
  (switches ≫= λ s, pools_of (ds_Delegator s))
  ++ (addresses ≫= λ r, match ad_StateChanges r with
                        | [] => []
                        | _ => let a := HexToAddress (ad_Address r) in pool_itself a ++ pools_of a
                        end)
  ++ (identities ≫= λ i, let a := HexToAddress (ei_Address i) in pool_itself a ++ pools_of a).

Abbreviation add_pools := (foldl (λ m p, add_pool newState p m)).

Lemma add_pools_lookup l m q :
  (∀ p z, m !! p = Some z → z = PoolSize newState p) →
  add_pools m l !! q
  = if bool_decide (q ∈ l) then Some (PoolSize newState q) else m !! q.
Proof.
  revert m. induction l as [|p l IH]; intros m Hm; [done|]. cbn [foldl].
  assert (add_pool newState p m = <[p := PoolSize newState p]> m) as ->.
  { unfold add_pool. destruct (m !! p) as [z|] eqn:Hp; [|done].
    rewrite insert_id; [done|]. by rewrite Hp, (Hm p z). }
  rewrite IH.
  2: { intros p' z. destruct (decide (p = p')) as [->|Hne];
       [rewrite lookup_insert_eq; congruence|rewrite lookup_insert_ne by done; apply Hm]. }
  destruct (decide (q = p)) as [->|Hne].
  - rewrite lookup_insert_eq, (bool_decide_true (p ∈ p :: l)) by left. by destruct (bool_decide _).
  - rewrite lookup_insert_ne by done. by rewrite (bool_decide_ext (q ∈ l) (q ∈ p :: l)) by set_solver.
Qed.

Lemma handleDelegator_pools a m : handleDelegator prevState newState a m = add_pools m (pools_of a).
Proof.
  unfold handleDelegator, pools_of, delegatee_of.
  by destruct (Delegatee prevState a), (Delegatee newState a).
Qed.

Lemma handlePool_pools a m : handlePool prevState newState a m = add_pools m (pool_itself a).
Proof. unfold handlePool, pool_itself. by destruct (_ || _). Qed.

Lemma pool_map_pools switches addresses identities :
  pool_map switches addresses identities prevState newState
  = add_pools ∅ (pools_touched switches addresses identities).
Proof.
  unfold pool_map, pools_touched. rewrite !foldl_app, <- !foldl_bind.
  assert (∀ a m, handleDelegator prevState newState a (handlePool prevState newState a m)
    = add_pools m (pool_itself a ++ pools_of a)) as Hboth
    by (intros; by rewrite handlePool_pools, handleDelegator_pools, foldl_app).
  rewrite (foldl_ext_eq _ (λ m s, add_pools m (pools_of (ds_Delegator s))) switches)
    by (intros; apply handleDelegator_pools).
  rewrite (foldl_ext_eq _ (λ m r, add_pools m match ad_StateChanges r with [] => [] | _ =>
    pool_itself (HexToAddress (ad_Address r)) ++ pools_of (HexToAddress (ad_Address r)) end) addresses)
    by (intros m r; destruct (ad_StateChanges r); [done|apply Hboth]).
  apply foldl_ext_eq. intros; apply Hboth.
Qed.

(** The sizes a block refreshes are those of the pools it touches: the pools of
    the delegators that switch, and for each address whose state changes and each
    identity of an epoch, its pools and itself when it is one; each of them once, with
    its size in the new state, in whatever order the map is ranged over. *)
Theorem pool_sizes_refreshed switches addresses identities order :
  (∀ m, ranges m (order m)) →
  let res := detectPoolSizeUpdates switches addresses identities prevState newState order in
  NoDup (ps_Address <$> res) ∧
  ∀ r, r ∈ res ↔ ps_Address r ∈ pools_touched switches addresses identities ∧
                 r = mkPoolSize (ps_Address r) (PoolSize newState (ps_Address r)) 0.
Proof.
  intros Hord. cbn zeta. unfold detectPoolSizeUpdates. rewrite pool_map_pools.
  set (m := add_pools ∅ _). specialize (Hord m).
  assert (∀ p z, (p, z) ∈ order m ↔
    p ∈ pools_touched switches addresses identities ∧ z = PoolSize newState p) as Hin.
  { intros p z. rewrite (ranges_elem m) by done. unfold m. rewrite add_pools_lookup by
      (intros ? ?; by rewrite lookup_empty). rewrite lookup_empty.
    case_bool_decide; naive_solver. }
  split.
  - rewrite <- list_fmap_compose. rewrite (list_fmap_ext _ fst) by by intros ? [].
    by eapply ranges_NoDup.
  - intros r. rewrite list_elem_of_fmap. split.
    + intros ([p z] & -> & [Hp ->]%Hin). done.
    + intros [Hp Hr]. exists (ps_Address r, PoolSize newState (ps_Address r)). by rewrite Hin.
Qed.
End pools.

(** ** A concrete block *)

(** The delegatees of the addresses 1, 2 and 3; [loc] tells the pointers of two states
    apart. *)
Definition sample_delegations (loc : positive) (d1 d2 d3 : option Address) : AppState :=
  sample_state
    <| GetIdentity := λ a, sample_identity <| id_Delegatee := mkAddressPtr loc <$>
         (if decide (a = mkAddress 1) then d1 else if decide (a = mkAddress 2) then d2
          else if decide (a = mkAddress 3) then d3 else None) |> |>
    <| Delegations := [mkAddress 2] |>
    <| PoolSize := λ a, address_word a |>.

(** The address 1 stays in the pool 10, 2 joins it, and 3 leaves it by being killed. *)
Definition sample_old : AppState :=
  sample_delegations 1 (Some (mkAddress 10)) None (Some (mkAddress 10)).
Definition sample_new : AppState :=
  sample_delegations 2 (Some (mkAddress 10)) (Some (mkAddress 10)) None.
Definition sample_update : Block := (sample_block 5 5 4) <| b_Flags := [IdentityUpdate] |>.
Definition sample_killed : gmap Address killedInfo :=
  {[ mkAddress 3 := mkKilledInfo killedReasonInactiveIdentity None ]}.
Definition sample_table : gmap Address Address :=
  {[ mkAddress 1 := mkAddress 10; mkAddress 3 := mkAddress 10 ]}.

Lemma sample_delegatee loc d1 d2 d3 a :
  delegatee_of (sample_delegations loc d1 d2 d3) a
  = if decide (a = mkAddress 1) then d1 else if decide (a = mkAddress 2) then d2
    else if decide (a = mkAddress 3) then d3 else None.
Proof.
  unfold delegatee_of, Delegatee, sample_delegations. cbn [modify_field GetIdentity id_Delegatee].
  by destruct (if decide (a = mkAddress 1) then d1 else _).
Qed.

Lemma delegation_table_follows_witness :
  ∃ switches updates,
    detectDelegationSwitches sample_update sample_old sample_new sample_killed map_to_list []
      = Some (switches, updates) ∧
    ∀ a, foldl apply_switch sample_table switches !! a = delegatee_of sample_new a.
Proof.
  apply delegation_table_follows.
  - reflexivity.
  - apply ranges_canonical.
  - unfold sample_killed. intros a i [<- <-]%lookup_singleton_Some. discriminate.
  - intros a p q Hp Hq. unfold Delegatee in Hp, Hq. cbn in Hp, Hq.
    repeat case_decide; simplify_eq/=; done.
  - unfold sample_killed. intros a [i [<- <-]%lookup_singleton_Some]. reflexivity.
  - intros a Hl. unfold sample_new, sample_old. rewrite !sample_delegatee.
    case_decide; [done|]. case_decide as H2.
    { destruct Hl. right. left. rewrite H2. by left. }
    case_decide as H3; [|done]. destruct Hl. left. rewrite H3. vm_compute. by eexists.
  - intros a. unfold sample_old. rewrite sample_delegatee. unfold sample_table.
    repeat case_decide; subst; try reflexivity.
    all: by rewrite lookup_insert_ne, lookup_singleton_ne by congruence.
Defined.

(** A delegation that stays in its pool is switched to it again: the delegatees are
    compared as pointers, which two states never share. *)
Example unchanged_delegation_is_switched :
  delegatee_of sample_old (mkAddress 1) = delegatee_of sample_new (mkAddress 1) ∧
  detectDelegationSwitch (mkAddress 1) sample_old sample_new
  = Some (mkDelegationSwitch (mkAddress 1) (Some (mkAddress 10)) None).
Proof. vm_compute. done. Qed.

Lemma pool_sizes_refreshed_witness :
  let res := detectPoolSizeUpdates [mkDelegationSwitch (mkAddress 2) (Some (mkAddress 10)) None]
    [mkAddressRecord (address_Hex (mkAddress 3)) false [mkAddressStateChange 3 5 EmptyString]] []
    sample_old sample_new map_to_list in
  NoDup (ps_Address <$> res) ∧
  ∀ r, r ∈ res ↔ ps_Address r ∈ pools_touched sample_old sample_new
      [mkDelegationSwitch (mkAddress 2) (Some (mkAddress 10)) None]
      [mkAddressRecord (address_Hex (mkAddress 3)) false [mkAddressStateChange 3 5 EmptyString]] [] ∧
    r = mkPoolSize (ps_Address r) (PoolSize sample_new (ps_Address r)) 0.
Proof. apply pool_sizes_refreshed. intros m. apply ranges_canonical. Defined.
