(* ===== verification/EpochRewards.v ===== *)
(** * The rewards of an epoch

    indexer/rewards.go and indexer/delegatee_epoch_rewards.go, with the wrapper of the
    rewards of the pools in indexer/context.go: the rows of the rewards the collector
    recorded (file Rewards), and the smallest and the largest total reward of each age. *)

From S2P Require Import Prelude Node Rewards Coins ValidationSummary EpochTypes.

(** ** The bounds of the rewards *)

(** Go: indexer/rewards.go rewardsBounds *)
Record rewardsBounds := mkRewardsBounds { rewardBoundsByType : gmap Z RewardBounds }.

(** Go: indexer/rewards.go determineRewardBoundType *)
Definition determineRewardBoundType (age : Z) : Z := if (age <=? 5)%Z then u8 age else 6%Z.

(** Go: indexer/rewards.go addIfBound *)
Definition addIfBound (rb : rewardsBounds) (address : Address) (age : Z) (amount : option Z)
    : rewardsBounds :=
  if nil_or_zero amount then rb else
  let amount := or_zero amount in
  let boundType := determineRewardBoundType age in
  match rewardBoundsByType rb !! boundType with
  | None =>
      rb <| rewardBoundsByType ::= insert boundType
        (mkRewardBounds boundType (mkRewardBound amount address) (mkRewardBound amount address)) |>
  | Some b =>
      let b := if (amount <? rb_Amount (rbs_Min b))%Z
               then b <| rbs_Min := mkRewardBound amount address |> else b in
      let b := if (rb_Amount (rbs_Max b) <? amount)%Z
               then b <| rbs_Max := mkRewardBound amount address |> else b in
      rb <| rewardBoundsByType ::= insert boundType b |>
  end.

(** Go: indexer/rewards.go getResult

    [order] is the order in which the map is ranged over. *)
Definition getResult (order : gmap Z RewardBounds → list (Z * RewardBounds))
    (rb : rewardsBounds) : list RewardBounds := (order (rewardBoundsByType rb)).*2.

(** The calls of [detectEpochResult]: an address, its age, and its total reward. *)
Definition bounds_of (l : list (Address * Z * Z)) : rewardsBounds :=
  foldl (λ rb e, addIfBound rb e.1.1 e.1.2 (Some e.2)) (mkRewardsBounds ∅) l.

(** The rewards of one age that count. *)
Definition rewards_of_type (t : Z) (l : list (Address * Z * Z)) : list (Address * Z * Z) :=
  filter (λ e, e.2 ≠ 0%Z ∧ determineRewardBoundType e.1.2 = t) l.

(** The bounds [b] of the rewards [l]. *)
Definition bounds_ok (t : Z) (l : list (Address * Z * Z)) (b : option RewardBounds) : Prop :=
  match b with
  | None => rewards_of_type t l = []
  | Some b =>
      rbs_Type b = t ∧
      (∃ age, (rb_Address (rbs_Min b), age, rb_Amount (rbs_Min b)) ∈ rewards_of_type t l) ∧
      (∃ age, (rb_Address (rbs_Max b), age, rb_Amount (rbs_Max b)) ∈ rewards_of_type t l) ∧
      Forall (λ e, rb_Amount (rbs_Min b) ≤ e.2 ≤ rb_Amount (rbs_Max b))%Z (rewards_of_type t l)
  end.

Lemma bounds_step t l b b' e :
  determineRewardBoundType e.1.2 = t → e.2 ≠ 0%Z →
  bounds_ok t l b →
  b' = match b with
       | None => mkRewardBounds t (mkRewardBound e.2 e.1.1) (mkRewardBound e.2 e.1.1)
       | Some b =>
           let b := if (e.2 <? rb_Amount (rbs_Min b))%Z
                    then b <| rbs_Min := mkRewardBound e.2 e.1.1 |> else b in
           if (rb_Amount (rbs_Max b) <? e.2)%Z
           then b <| rbs_Max := mkRewardBound e.2 e.1.1 |> else b
       end →
  bounds_ok t (l ++ [e]) (Some b').
Proof.
  intros Ht Hz Hb ->. destruct e as [[a age] z]. cbn [fst snd] in *. unfold bounds_ok, rewards_of_type in *.
  rewrite list.filter_app, filter_cons, filter_nil, decide_True by done.
  set (k := filter _ l) in *. clearbody k. destruct b as [[t' [mn mna] [mx mxa]]|]; cbn in *.
  2: { subst k. cbn. split_and!; [done|exists age; by left|exists age; by left|].
       apply list.Forall_singleton. cbn. lia. }
  destruct Hb as (-> & [age1 H1] & [age2 H2] & Hall).
  assert (Forall (λ e, Z.min z mn ≤ e.2 ≤ Z.max z mx)%Z (k ++ [(a, age, z)])) as Hall'.
  { apply Forall_app. split; [|apply list.Forall_singleton; cbn; lia].
    eapply list.Forall_impl; [exact Hall|]. intros [? ?]; cbn. lia. }
  assert (∀ x, x ∈ k → x ∈ k ++ [(a, age, z)]) as Hl by (intros; apply elem_of_app; by left).
  assert ((a, age, z) ∈ k ++ [(a, age, z)]) as Hn by (apply elem_of_app; right; by left).
  destruct (Z.ltb_spec z mn); cbn; destruct (Z.ltb_spec mx z); cbn;
    (split_and!; [done|eauto..|]);
    (eapply list.Forall_impl; [exact Hall'|]; intros [? ?]; cbn; lia).
Qed.

(** The bounds of the total rewards of an epoch: an age has a row exactly when an
    identity of that age has a reward that is not zero; its minimum and its maximum are
    rewards of identities of that age, with their addresses, and every reward of that
    age lies between them; and each age has one row, in whatever order the map is
    ranged over. *)
Theorem reward_bounds_are_extremes order l :
  (∀ m, ranges m (order m)) →
  (∀ t, bounds_ok t l (rewardBoundsByType (bounds_of l) !! t)) ∧
  NoDup (rbs_Type <$> getResult order (bounds_of l)) ∧
  (∀ b, b ∈ getResult order (bounds_of l) ↔
        rewardBoundsByType (bounds_of l) !! rbs_Type b = Some b).
Proof.
  intros Hord.
  assert (∀ t, bounds_ok t l (rewardBoundsByType (bounds_of l) !! t)) as Hok.
  { induction l as [|e l IH] using rev_ind; [done|]. intros t. unfold bounds_of.
    rewrite foldl_app. cbn [foldl]. fold (bounds_of l). specialize (IH t).
    unfold addIfBound, nil_or_zero. destruct (Z.eqb_spec e.2 0) as [Hz|Hz].
    { unfold bounds_ok, rewards_of_type in *. rewrite list.filter_app, filter_cons, filter_nil.
      rewrite decide_False by tauto. by rewrite app_nil_r. }
    destruct (decide (determineRewardBoundType e.1.2 = t)) as [Ht|Ht].
    - rewrite Ht. destruct (rewardBoundsByType (bounds_of l) !! t) as [b|] eqn:Hb; cbn;
        rewrite lookup_insert_eq; by eapply bounds_step.
    - assert (rewards_of_type t (l ++ [e]) = rewards_of_type t l) as Hsame.
      { unfold rewards_of_type. rewrite list.filter_app, filter_cons, filter_nil.
        rewrite decide_False by tauto. by rewrite app_nil_r. }
      unfold bounds_ok. rewrite Hsame.
      destruct (rewardBoundsByType (bounds_of l) !! determineRewardBoundType e.1.2); cbn;
        by rewrite lookup_insert_ne. }
  split; [exact Hok|].
  assert (∀ t b, (t, b) ∈ order (rewardBoundsByType (bounds_of l)) → rbs_Type b = t) as Htype.
  { intros t b Hin. apply (ranges_elem _ _ _ _ (Hord _)) in Hin. specialize (Hok t).
    rewrite Hin in Hok. by destruct Hok. }
  unfold getResult. split.
  - rewrite <- list_fmap_compose.
    rewrite (Forall_fmap_ext_1 _ fst); [by eapply ranges_NoDup|].
    apply list.Forall_forall. intros [t b] Hin. by apply Htype.
  - intros b. rewrite list_elem_of_fmap. split.
    + intros ([t b'] & -> & Hin). cbn. rewrite (Htype t b' Hin).
      by apply (ranges_elem _ _ _ _ (Hord _)).
    + intros Hb. exists (rbs_Type b, b). split; [done|]. by apply (ranges_elem _ _ _ _ (Hord _)).
Qed.

(** ** The rows of the rewards *)

Section operations.
Context `{NodeApi}.
(** The integers the rewards of the collector point to. *)
Context (ints : gmap ptr Z).

(** Go: indexer/rewards.go convertBadAuthors

    The orders in which the shards and the authors of a shard are ranged over. *)
Definition convertBadAuthors
    (shard_order : gmap Z ValidationResults → list (Z * ValidationResults))
    (author_order : gmap Address Z → list (Address * Z))
    (validationResults : gmap Z ValidationResults) : list BadAuthor :=
  shard_order validationResults ≫= λ s,
    (λ '(address, reason), mkBadAuthor (address_Hex address) reason)
    <$> author_order (vr_BadAuthors s.2).

(** Go: indexer/rewards.go convertTotalRewards *)
Definition convertTotalRewards (s : RewardsStats) : TotalRewardsRecord :=
  {| tr_Total := ConvertToFloat (Total s);
     tr_Validation := ConvertToFloat (ValidationTotal s);
     tr_Staking := ConvertToFloat (StakingTotal s);
     tr_Candidate := ConvertToFloat (CandidateTotal s);
     tr_Flips := ConvertToFloat (FlipsTotal s);
     tr_FlipsExtra := ConvertToFloat (FlipsExtra s);
     tr_Reports := ConvertToFloat (Reports s);
     tr_Invitations := ConvertToFloat (InvitationsTotal s);
     tr_FoundationPayouts := ConvertToFloat (FoundationPayoutsTotal s);
     tr_ZeroWalletFund := ConvertToFloat (ZeroWalletFundTotal s);
     tr_ValidationShare := ConvertToFloat (ValidationShare s);
     tr_StakingShare := ConvertToFloat (StakingShare s);
     tr_CandidateShare := ConvertToFloat (CandidateShare s);
     tr_FlipsShare := ConvertToFloat (FlipsShare s);
     tr_FlipsExtraShare := ConvertToFloat (FlipsExtraShare s);
     tr_ReportsShare := ConvertToFloat (ReportsShare s);
     tr_InvitationsShare := ConvertToFloat (InvitationsShare s) |}.

(** Go: indexer/rewards.go convertReward *)
Definition convertReward (reward : RewardStats) : RewardRecord :=
  mkRewardRecord _ (address_Hex (rs_Address reward)) (ConvertToFloat (ints !! rs_Balance reward))
    (ConvertToFloat (ints !! rs_Stake reward)) (RewardType_byte (rs_Type reward)).

(** Go: indexer/rewards.go convertRewards

    The rewards of the validation, those of the funds, and the addresses of the
    former. *)
Definition convertRewards (rewards : list RewardStats)
    : list RewardRecord * list RewardRecord * gset Address :=
  foldl (λ '(validationRewards, fundRewards, validationRewardsAddresses) reward,
    let convertedReward := convertReward reward in
    match rs_Type reward with
    | FoundationPayouts | ZeroWalletFund =>
        (validationRewards, fundRewards ++ [convertedReward], validationRewardsAddresses)
    | _ => (validationRewards ++ [convertedReward], fundRewards,
            {[rs_Address reward]} ∪ validationRewardsAddresses)
    end) ([], [], ∅) rewards.

(** Go: indexer/rewards.go convertSavedInviteRewards *)
Definition convertSavedInviteRewards
    (addr_order : gmap Address (gmap RewardType Z) → list (Address * gmap RewardType Z))
    (type_order : gmap RewardType Z → list (RewardType * Z))
    (counts : gmap Address (gmap RewardType Z)) : list SavedInviteRewards :=
  addr_order counts ≫= λ a,
    (λ '(rewardType, count), mkSavedInviteRewards (address_Hex a.1) (RewardType_byte rewardType) count)
    <$> type_order a.2.

(** Go: indexer/rewards.go convertMiningRewards *)
Definition convertMiningRewards (rewards : list MiningReward) : list MiningRewardRecord :=
  (λ r, mkMiningRewardRecord _ (address_Hex (mr_Address r)) (ConvertToFloat (Some (mr_Balance r)))
          (ConvertToFloat (Some (mr_Stake r))) (mr_Proposer r) (mr_StakeWeight r)) <$> rewards.

(** ** The rewards of the pools *)

(** Go: indexer/context.go delegateeEpochRewardsWrapper *)
Record delegateeEpochRewardsWrapper := mkWrapper {
  w_rewards : list DelegateeEpochRewardsRecord;
  w_indexesByDelegatee : gmap Address nat
}.

(** Go: indexer/context.go newDelegateeEpochRewardsWrapper *)
Definition newDelegateeEpochRewardsWrapper : delegateeEpochRewardsWrapper := mkWrapper [] ∅.

(** Go: indexer/context.go append *)
Definition w_append (w : delegateeEpochRewardsWrapper) (item : DelegateeEpochRewardsRecord)
    : delegateeEpochRewardsWrapper :=
  mkWrapper (w_rewards w ++ [item])
    (<[dee_Address item := length (w_rewards w)]> (w_indexesByDelegatee w)).

(** Go: indexer/context.go incPenalizedDelegators *)
Definition incPenalizedDelegators (w : delegateeEpochRewardsWrapper) (delegatee : Address)
    : delegateeEpochRewardsWrapper :=
  match w_indexesByDelegatee w !! delegatee with
  | Some i => w <| w_rewards ::= alter (λ r, r <| dee_PenalizedDelegators ::= λ n, u32 (n + 1) |>) i |>
  | None => w_append w (mkDelegateeRecord delegatee [] [] 1)
  end.

(** The rewards of one pool or of one delegator, by their type. *)
Definition convert_epoch_rewards (order : gmap RewardType EpochReward → list (RewardType * EpochReward))
    (m : gmap RewardType EpochReward) : list DelegationEpochReward :=
  (λ '(rewardType, r), mkDelegationEpochReward (er_Balance r) (RewardType_byte rewardType)) <$> order m.

(** Go: indexer/delegatee_epoch_rewards.go convertDelegateesEpochRewards

    The orders in which the pools, the delegators of a pool, and the types are ranged
    over. *)
Definition convertDelegateesEpochRewards
    (pool_order : gmap Address DelegateeEpochRewards → list (Address * DelegateeEpochRewards))
    (delegator_order : gmap Address DelegatorEpochRewards → list (Address * DelegatorEpochRewards))
    (type_order : gmap RewardType EpochReward → list (RewardType * EpochReward))
    (m : gmap Address DelegateeEpochRewards) : delegateeEpochRewardsWrapper :=
  foldl (λ res '(delegatee, incoming),
    w_append res (mkDelegateeRecord delegatee (convert_epoch_rewards type_order (TotalRewards incoming))
      ((λ '(delegator, r), mkDelegatorEpochReward delegator
          (convert_epoch_rewards type_order (EpochRewards r)))
        <$> delegator_order (DelegatorsEpochRewards incoming)) 0))
    newDelegateeEpochRewardsWrapper (pool_order m).

(** The orders in which the maps of the rewards are ranged over. *)
Record RewardOrders := mkRewardOrders {
  ro_shards : gmap Z ValidationResults → list (Z * ValidationResults);
  ro_authors : gmap Address Z → list (Address * Z);
  ro_saved : gmap Address (gmap RewardType Z) → list (Address * gmap RewardType Z);
  ro_saved_types : gmap RewardType Z → list (RewardType * Z);
  ro_pools : gmap Address DelegateeEpochRewards → list (Address * DelegateeEpochRewards);
  ro_delegators : gmap Address DelegatorEpochRewards → list (Address * DelegatorEpochRewards);
  ro_types : gmap RewardType EpochReward → list (RewardType * EpochReward)
}.

(** Go: indexer/rewards.go detectEpochRewards *)
Definition detectEpochRewards (o : RewardOrders) (rewardsStats : option RewardsStats) (block : Block)
    : option EpochRewardsRecord * gset Address * delegateeEpochRewardsWrapper :=
  if negb (HasFlag block ValidationFinished)
  then (None, ∅, newDelegateeEpochRewardsWrapper) else
  match rewardsStats with
  | None => (None, ∅, newDelegateeEpochRewardsWrapper)
  | Some s =>
      let '(validationRewards, fundRewards, validationRewardsAddresses) := convertRewards (Rewards s) in
      (Some {|
         er_BadAuthors := convertBadAuthors (ro_shards o) (ro_authors o) (ValidationResultsByShard s);
         er_Total := convertTotalRewards s;
         er_ValidationRewards := validationRewards;
         er_FundRewards := fundRewards;
         er_AgesByAddress := AgesByAddress s;
         er_StakedAmountsByAddress := StakedAmountsByAddress s;
         er_FailedStakedAmountsByAddress := FailedStakedAmountsByAddress s;
         er_RewardedFlipCids := RewardedFlipCids s;
         er_RewardedExtraFlipCids := RewardedExtraFlipCids s;
         er_RewardedInvitations := RewardedInvites s;
         er_RewardedInvitees := RewardedInvitees s;
         er_SavedInviteRewards := convertSavedInviteRewards (ro_saved o) (ro_saved_types o)
                                    (SavedInviteRewardsCountByAddrAndType s);
         er_ReportedFlipRewards := ReportedFlipRewards s |},
       validationRewardsAddresses,
       convertDelegateesEpochRewards (ro_pools o) (ro_delegators o) (ro_types o)
         (DelegateesEpochRewards s))
  end.
End operations.

(** ** What the conversions do *)

Section properties.
Context `{NodeApi}.
Context (ints : gmap ptr Z).
Implicit Types (w : delegateeEpochRewardsWrapper) (p : Address).

Definition is_fund (r : RewardStats) : bool :=
  match rs_Type r with FoundationPayouts | ZeroWalletFund => true | _ => false end.

(** The rewards of an epoch are split, in order and with none left out, into the
    payments of the funds and the rewards of the validation, and the addresses kept are
    those of the latter. *)
Theorem rewards_split rewards :
  convertRewards ints rewards
  = (convertReward ints <$> filter (λ r, is_fund r = false) rewards,
     convertReward ints <$> filter (λ r, is_fund r = true) rewards,
     list_to_set (rs_Address <$> filter (λ r, is_fund r = false) rewards)).
Proof.
  induction rewards as [|r l IH] using rev_ind; [done|].
  unfold convertRewards. rewrite foldl_app. cbn [foldl]. fold (convertRewards ints l). rewrite IH.
  rewrite !list.filter_app, !filter_cons, !filter_nil, !fmap_app, list_to_set_app_L.
  unfold is_fund. destruct (rs_Type r); cbn; rewrite ?app_nil_r, ?union_empty_r_L; try done;
    f_equal; set_solver.
Qed.

(** The rows of the pools and their index agree; the row of a pool. *)
Definition wrapper_wf w : Prop := il_wf dee_Address (w_rewards w) (w_indexesByDelegatee w).
Definition row w p : option DelegateeEpochRewardsRecord :=
  il_row (w_rewards w) (w_indexesByDelegatee w) p.

(** The row of a pool after one more of its delegators is penalized. *)
Definition penalize p (r : option DelegateeEpochRewardsRecord) : DelegateeEpochRewardsRecord :=
  match r with
  | Some r => r <| dee_PenalizedDelegators ::= λ n, u32 (n + 1) |>
  | None => mkDelegateeRecord p [] [] 1
  end.

Lemma penalized_row w d p :
  wrapper_wf w →
  wrapper_wf (incPenalizedDelegators w d) ∧
  row (incPenalizedDelegators w d) p = if decide (d = p) then Some (penalize p (row w p)) else row w p.
Proof.
  intros Hw. unfold incPenalizedDelegators.
  destruct (w_indexesByDelegatee w !! d) as [i|] eqn:Hi; (split; [|unfold row]).
  - by apply il_alter_wf.
  - cbn. rewrite (il_alter_row dee_Address _ _ _ d) by done. case_decide; [subst|done].
    apply Hw in Hi as Hr. destruct Hr as (r & Hr & _). unfold il_row. rewrite Hi. cbn. by rewrite Hr.
  - by apply il_append_wf.
  - unfold w_append. cbn. rewrite (il_append_row dee_Address _ _ (mkDelegateeRecord d [] [] 1)) by done.
    cbn. case_decide; [subst|done]. unfold il_row. by rewrite Hi.
Qed.

Section pools.
Context (delegator_order : gmap Address DelegatorEpochRewards → list (Address * DelegatorEpochRewards)).
Context (type_order : gmap RewardType EpochReward → list (RewardType * EpochReward)).

(** The row of a pool with the rewards [incoming], no delegator being penalized. *)
Definition pool_row p (incoming : DelegateeEpochRewards) : DelegateeEpochRewardsRecord :=
  mkDelegateeRecord p (convert_epoch_rewards type_order (TotalRewards incoming))
    ((λ '(delegator, r), mkDelegatorEpochReward delegator
        (convert_epoch_rewards type_order (EpochRewards r)))
      <$> delegator_order (DelegatorsEpochRewards incoming)) 0.

Lemma appended_rows l :
  NoDup l.*1 →
  let w := foldl (λ res e, w_append res (pool_row e.1 e.2)) newDelegateeEpochRewardsWrapper l in
  wrapper_wf w ∧ ∀ p r, row w p = Some r ↔ ∃ inc, (p, inc) ∈ l ∧ r = pool_row p inc.
Proof.
  induction l as [|[q inc] l IH] using rev_ind; intros Hnd; cbn zeta.
  { split; [apply il_empty|].
    - intros p r. unfold row, il_row. cbn. rewrite lookup_empty. cbn. split; [done|].
      intros (inc & Hin & _). by apply not_elem_of_nil in Hin. }
  rewrite fmap_app in Hnd. apply list.NoDup_app in Hnd as (Hnd & Hnew & _).
  rewrite foldl_app. cbn [foldl fst snd]. destruct (IH Hnd) as [Hw Hrows]. clear IH.
  set (w := foldl _ _ l) in *.
  assert (w_indexesByDelegatee w !! dee_Address (pool_row q inc) = None) as Hq.
  { apply (il_row_None dee_Address (w_rewards w)); [done|]. cbn. fold (row w q). destruct (row w q) as [r|] eqn:Hr; [|done].
    apply Hrows in Hr as (inc' & Hin & _). destruct (Hnew q); [|by left].
    apply list_elem_of_fmap. by exists (q, inc'). }
  split; [by apply il_append_wf|]. intros p r. unfold row, w_append. cbn.
  rewrite (il_append_row dee_Address _ _ (pool_row q inc)) by done. fold (row w p). cbn.
  destruct (decide (q = p)) as [->|Hne].
  - split; [intros [= <-]; exists inc; split; [apply elem_of_app; right; by left|done]|].
    intros (inc' & [Hin|Hin]%elem_of_app & ->).
    + destruct (Hnew p); [apply list_elem_of_fmap; by exists (p, inc')|by left].
    + apply list_elem_of_singleton in Hin. by simplify_eq.
  - rewrite Hrows. split; intros (inc' & Hin & ->); exists inc'; (split; [|done]).
    + apply elem_of_app. by left.
    + apply elem_of_app in Hin as [Hin|Hin]; [done|]. apply list_elem_of_singleton in Hin. by simplify_eq.
Qed.

(** How often [p] occurs in [ds]. *)
Definition occurrences p (ds : list Address) : Z :=
  sumZ (λ d, if decide (d = p) then 1 else 0)%Z ds.

(** The row of a pool at the end: its rewards, and its penalized delegators counted as
    a 32-bit number. *)
Definition expected_row (m : gmap Address DelegateeEpochRewards) (ds : list Address) p
    : option DelegateeEpochRewardsRecord :=
  match m !! p with
  | Some inc => Some ((pool_row p inc) <| dee_PenalizedDelegators := u32 (occurrences p ds) |>)
  | None => if decide (p ∈ ds)
            then Some (mkDelegateeRecord p [] [] (u32 (occurrences p ds))) else None
  end.

Lemma occurrences_snoc p ds d :
  occurrences p (ds ++ [d]) = (occurrences p ds + if decide (d = p) then 1 else 0)%Z.
Proof. unfold occurrences. by rewrite sumZ_snoc. Qed.

Lemma occurrences_none p ds : p ∉ ds → occurrences p ds = 0%Z.
Proof.
  intros Hp. unfold occurrences. rewrite (sumZ_ext _ (λ _, 0%Z)); [apply sumZ_zero|].
  intros d Hd. rewrite decide_False; [done|]. by intros ->.
Qed.

Lemma u32_succ z : u32 (u32 z + 1) = u32 (z + 1).
Proof. unfold uwrap. by rewrite Zplus_mod_idemp_l. Qed.

(** The rows of the pools of an epoch: each pool that received rewards or has a
    penalized delegator has exactly one, in whatever orders the maps are ranged over;
    it lists the rewards of the pool and of its delegators and counts its penalized
    delegators, modulo 2^32. *)
Theorem pool_rows pool_order (m : gmap Address DelegateeEpochRewards) (ds : list Address) :
  ranges m (pool_order m) →
  let w := foldl incPenalizedDelegators
             (convertDelegateesEpochRewards pool_order delegator_order type_order m) ds in
  NoDup (dee_Address <$> w_rewards w) ∧
  ∀ r, r ∈ w_rewards w ↔ expected_row m ds (dee_Address r) = Some r.
Proof.
  intros Hord.
  enough (wrapper_wf (foldl incPenalizedDelegators (convertDelegateesEpochRewards pool_order
    delegator_order type_order m) ds) ∧ ∀ p, row (foldl incPenalizedDelegators
      (convertDelegateesEpochRewards pool_order delegator_order type_order m) ds) p
      = expected_row m ds p) as [Hw Hrow].
  { cbn zeta. destruct (il_rows _ _ _ Hw) as [Hnd Hr]. split; [done|]. intros r.
    by rewrite Hr, <- Hrow. }
  induction ds as [|d ds [Hw IH]] using rev_ind.
  - cbn [foldl]. unfold convertDelegateesEpochRewards.
    rewrite (foldl_ext_eq _ (λ res e, w_append res (pool_row e.1 e.2))) by by intros ? [].
    destruct (appended_rows (pool_order m)) as [Hw Hr]; [by eapply ranges_NoDup|].
    split; [done|]. intros p. unfold expected_row. rewrite (decide_False (P := p ∈ [])) by set_solver.
    destruct (m !! p) as [inc|] eqn:Hp.
    + apply Hr. exists inc. split; [by apply (ranges_elem _ _ _ _ Hord)|done].
    + apply eq_None_not_Some. intros [r (inc & Hin & _)%Hr].
      apply (ranges_elem _ _ _ _ Hord) in Hin. congruence.
  - rewrite foldl_app. cbn [foldl]. split; [by apply penalized_row; [exact (mkAddress 0)|]|].
    intros p. destruct (penalized_row _ d p Hw) as [_ ->]. rewrite IH.
    unfold expected_row. rewrite occurrences_snoc. destruct (decide (d = p)) as [->|Hne].
    + destruct (m !! p) as [inc|]; cbn; [by rewrite u32_succ|].
      rewrite (decide_True (P := p ∈ ds ++ [p])) by (apply elem_of_app; right; by left).
      destruct (decide (p ∈ ds)); cbn; [by rewrite u32_succ|].
      by rewrite occurrences_none by done.
    + rewrite Z.add_0_r. destruct (m !! p) as [inc|]; [done|].
      destruct (decide (p ∈ ds)), (decide (p ∈ ds ++ [d])); set_solver.
Qed.
End pools.
End properties.

(** ** Concrete rewards *)

Definition sample_totals : list (Address * Z * Z) :=
  [(mkAddress 1, 2, 30); (mkAddress 2, 9, 7); (mkAddress 3, 2, 10); (mkAddress 4, 3, 0)]%Z.

Lemma reward_bounds_are_extremes_witness :
  (∀ t, bounds_ok t sample_totals (rewardBoundsByType (bounds_of sample_totals) !! t)) ∧
  NoDup (rbs_Type <$> getResult map_to_list (bounds_of sample_totals)) ∧
  (∀ b, b ∈ getResult map_to_list (bounds_of sample_totals) ↔
        rewardBoundsByType (bounds_of sample_totals) !! rbs_Type b = Some b).
Proof. apply (reward_bounds_are_extremes map_to_list). intros m. apply ranges_canonical. Defined.

Definition sample_pools : gmap Address DelegateeEpochRewards :=
  {[ mkAddress 10 := mkDelegateeEpochRewards {[ Staking := mkEpochReward 5 0 ]}
       {[ mkAddress 1 := mkDelegatorEpochRewards {[ Staking := mkEpochReward 5 0 ]} ]} ]}.

Lemma pool_rows_witness :
  let w := foldl incPenalizedDelegators
             (convertDelegateesEpochRewards map_to_list map_to_list map_to_list sample_pools)
             [mkAddress 10; mkAddress 11; mkAddress 10] in
  NoDup (dee_Address <$> w_rewards w) ∧
  ∀ r, r ∈ w_rewards w ↔
    expected_row map_to_list map_to_list sample_pools [mkAddress 10; mkAddress 11; mkAddress 10]
      (dee_Address r) = Some r.
Proof. apply pool_rows. apply ranges_canonical. Defined.

Example sample_penalized :
  dee_PenalizedDelegators <$> w_rewards (foldl incPenalizedDelegators
    (convertDelegateesEpochRewards map_to_list map_to_list map_to_list sample_pools)
    [mkAddress 10; mkAddress 11; mkAddress 10]) = [2; 1]%Z.
Proof. vm_compute. reflexivity. Qed.
