(* ===== verification/EpochResult.v ===== *)
(** * The result of a validation

    indexer/indexer.go, [detectEpochResult]: when a block finishes a validation, one pass
    over the statistics of the flips and one over the identities of the state before
    the block give the rows of the epoch.  The second pass fills many records at once;
    it is the loop of [handle_identity] over the state [Er], which holds the variables
    the closures of the code share. *)

From S2P Require Import Prelude Node Rewards ValidationSummary Transactions EpochTypes.
From S2P Require Import EpochRewards.

(** What the conversion asks the node. *)
Class EpochApi `{NodeApi} := {
  GetRequiredFlips : AppState → Address → Z;
  GetMadeFlips : AppState → Address → Z;
  GetInvites : AppState → Address → Z;
  GetScores : AppState → Address → bytes;
  GetShortFlipPoints : AppState → Address → Float32;
  GetQualifiedFlipsCount : AppState → Address → Z;
  GodAddress : AppState → Address;
  (** [common.CalculateIdentityScores], [EncodeScore], [LastScoresCount] *)
  CalculateIdentityScores : bytes → Float32 → Z → Float32 * Z;
  EncodeScore : Float32 → Z → Z;
  LastScoresCount : nat;
  (** the zero of [float32] *)
  Float32_zero : Float32;
  (** [crypto.FromECDSA(KeysPool().GetPublicFlipKey(addr).ExportECDSA())] *)
  GetPublicFlipKey : Address → option bytes
}.

(** The variables of [detectEpochResult] that its loops change.

    [er_poolSizeChangeByAddress] maps an address to the position of its change, and
    [er_flipsStatsByCid] a cid to the position of its flip: the code maps them to the
    pointers the slices hold. *)
Record Er `{NodeApi} := mkEr {
  er_birthdays : list Birthday;
  er_identities : list EpochIdentity;
  er_summaries : list ValidationRewardSummaries;
  er_vrsCalculator : Calculator;
  er_poolSizeChanges : list PoolSizeChange;
  er_poolSizeChangeByAddress : gmap Address nat;
  er_memPoolFlipKeys : list MemPoolFlipKey;
  er_rewardsBounds : rewardsBounds;
  er_validationRewardsAddresses : gset Address;
  er_delegateesEpochRewards : delegateeEpochRewardsWrapper;
  er_flipsStats : list FlipStatsRecord;
  er_flipsStatsByCid : gmap string nat;
  er_flipStatusesMap : gmap Z Z;
  er_reportedFlips : Z;
  er_reportedFlipsByAddress : gmap Address (gset string);
  er_killedAddrs : gmap Address killedInfo
}.

(** What the result is computed from: the block, the states of the node before and after
    it, the statistics of the collector, the switches of the consensus, the keys of the
    database that is being migrated ([None]: there is none, or they cannot be read), and
    the orders in which the maps are ranged over. *)
Record EpochEnv `{NodeApi} := mkEpochEnv {
  ee_block : Block;
  ee_prevState : AppState;
  ee_newState : AppState;
  ee_rewards : Rw;
  ee_MinScoreForInvite : option Float32;
  ee_EnableUpgrade10 : bool;
  ee_EnableUpgrade11 : bool;
  ee_secondaryKeys : Z → option (list MemPoolFlipKey);
  ee_reward_orders : RewardOrders;
  ee_shard_order : gmap Z ValidationShardStats → list (Z * ValidationShardStats);
  ee_flip_order : gmap Z FlipStats → list (Z * FlipStats);
  ee_identity_order : gmap Address IdentityStats → list (Address * IdentityStats);
  ee_address_order : gset Address → list Address;
  ee_status_order : gmap Z Z → list (Z * Z);
  ee_bounds_order : gmap Z RewardBounds → list (Z * RewardBounds)
}.

Section operations.
Context `{EpochApi}.
Implicit Types e : EpochEnv.

(** Go: indexer/indexer.go convertFlipStatus *)
Definition convertFlipStatus (status : Z) : Z := u8 status.

(** Go: indexer/indexer.go convertAnswer *)
Definition convertAnswer (answer : Z) : Z := u8 answer.

(** Go: indexer/indexer.go convertStatsAnswer *)
Definition convertStatsAnswer (a : FlipAnswerStats) : Answer :=
  mkAnswer _ (address_Hex (fas_Respondent a)) (convertAnswer (fas_Answer a)) (fas_Point a)
    (u8 (fas_Grade a)) (u16 (fas_Index a)) (fas_Considered a).

(** Go: indexer/indexer.go convertStatsAnswers

    The map [reportedFlipsByAddress] is [None] when it is nil. *)
Definition convertStatsAnswers (answers : list FlipAnswerStats)
    (reported : option (gmap Address (gset string))) (flipCid : string)
    : list Answer * option (gmap Address (gset string)) :=
  foldl (λ '(res, reported) a,
    (res ++ [convertStatsAnswer a],
     match reported with
     | Some m => if decide (fas_Grade a = GradeReported)
                 then Some (<[fas_Respondent a := {[flipCid]} ∪ default ∅ (m !! fas_Respondent a)]> m)
                 else Some m
     | None => None
     end)) ([], reported) answers.

(** Go: indexer/indexer.go detectEpochResult:985-1009

    The body of the loop over the flips of a shard; a cid out of range panics. *)
Definition handle_flip (shard : ValidationShardStats) (flipIdx : Z) (flipStats : FlipStats)
    : M Er unit :=
  flipCidBytes ← lift_outcome (match at_index (vss_FlipCids shard) flipIdx with
                               | Some b => Done b | None => Panic end);
  match cid_Parse flipCidBytes with
  | None => mret tt
  | Some flipCid =>
      (if decide (fs_Grade flipStats = GradeReported)
       then modify_st (λ st, st <| er_reportedFlips ::= λ n, u32 (n + 1) |>) else mret tt);;
      let flipCidStr := convertCid flipCid in
      reported ← gets er_reportedFlipsByAddress;
      let short := (convertStatsAnswers (fs_ShortAnswers flipStats) None flipCidStr).1 in
      let long := convertStatsAnswers (fs_LongAnswers flipStats) (Some reported) flipCidStr in
      let r := mkFlipStatsRecord _ EmptyString flipCidStr short long.1
                 (convertFlipStatus (fs_Status flipStats)) (convertAnswer (fs_Answer flipStats))
                 (u8 (fs_Grade flipStats)) (fs_GradeScore flipStats) in
      modify_st (λ st,
        st <| er_reportedFlipsByAddress := default ∅ long.2 |>
           <| er_flipsStatsByCid ::= insert flipCidStr (length (er_flipsStats st)) |>
           <| er_flipsStats ::= λ l, l ++ [r] |>
           <| er_flipStatusesMap ::= λ m,
                <[fsr_Status r := u64 (default 0%Z (m !! fsr_Status r) + 1)]> m |>)
  end.

(** The loop over the shards. *)
Definition handle_flips e (shards : gmap Z ValidationShardStats) : M Er unit :=
  for_each (ee_shard_order e shards) (λ s,
    for_each (ee_flip_order e (vss_FlipsPerIdx s.2)) (λ f, handle_flip s.2 f.1 f.2)).

(** Go: indexer/indexer.go detectEpochResult:1011-1021

    The closure [isPenalized]. *)
Definition isPenalized e (addr : Address) (shardId : Z) : bool :=
  match rw_stats (ee_rewards e) with
  | None => false
  | Some s =>
      match ValidationResultsByShard s !! shardId with
      | Some vr => bool_decide (is_Some (vr_BadAuthors vr !! addr))
      | None => false
      end
  end.

(** Go: indexer/indexer.go detectEpochResult:1023-1043

    The closure [incPoolSize]. *)
Definition incPoolSize e (delegatee : Address) (prev : bool) : M Er unit :=
  m ← gets er_poolSizeChangeByAddress;
  (match (m : gmap Address nat) !! delegatee with
   | Some _ => mret tt
   | None =>
       modify_st (λ st,
         st <| er_poolSizeChangeByAddress ::= insert delegatee (length (er_poolSizeChanges st)) |>
            <| er_poolSizeChanges ::= λ l, l ++ [mkPoolSizeChange delegatee
                 (mkPoolSize zeroAddress (u64 (PoolSize (ee_prevState e) delegatee)) 0)
                 (mkPoolSize zeroAddress (u64 (PoolSize (ee_newState e) delegatee)) 0)] |>)
   end);;
  modify_st (λ st, st <| er_poolSizeChanges ::=
    alter (λ c, if prev
                then c <| psc_Old ::= λ s, s <| ps_TotalDelegated ::= λ n, u64 (n + 1) |> |>
                else c <| psc_New ::= λ s, s <| ps_TotalDelegated ::= λ n, u64 (n + 1) |> |>)
      (default 0%nat (er_poolSizeChangeByAddress st !! delegatee)) |>).

(** Go: indexer/indexer.go convertCids *)
Definition convertCids (idxs : list Z) (cids : list bytes) : outcome (list string) :=
  foldr (λ idx rest,
    if (Z.of_nat (length cids) <=? idx)%Z then rest else
    match at_index cids idx, rest with
    | Some b, Done l => match cid_Parse b with
                        | Some c => Done (convertCid c :: l)
                        | None => Done l
                        end
    | _, _ => Panic
    end) (Done []) idxs.

(** Go: indexer/indexer.go calculateNewTotalScore *)
Definition calculateNewTotalScore (scores : bytes) (shortPoints : Float32) (shortFlipsCount : Z)
    (totalShortPoints : Float32) (totalShortFlipsCount : Z) : Float32 * Z :=
  let newScores := scores ++ [EncodeScore shortPoints shortFlipsCount] in
  let newScores :=
    if (LastScoresCount <? length newScores)%nat
    then drop (length newScores - LastScoresCount) newScores else newScores in
  CalculateIdentityScores newScores totalShortPoints totalShortFlipsCount.

(** Go: indexer/indexer.go detectBirthday *)
Definition detectBirthday (address : Address) (prevBirthday newBirthday : Z) : option Birthday :=
  if decide (prevBirthday = newBirthday) then None
  else Some (mkBirthday (address_Hex address) newBirthday).

(** Go: indexer/indexer.go detectMemPoolFlipKey *)
Definition detectMemPoolFlipKey (addr : Address) (identity : Identity) : option MemPoolFlipKey :=
  match id_Flips identity with
  | [] => None
  | _ => key ← GetPublicFlipKey addr; Some (mkMemPoolFlipKey (address_Hex addr) (EncodeToString key))
  end.

(** Go: indexer/indexer.go getMemPoolFlipKeysToMigrate *)
Definition getMemPoolFlipKeysToMigrate e (epoch : Z) : option (list MemPoolFlipKey) :=
  ee_secondaryKeys e epoch.

(** The fields of an identity that come from the statistics of the validation. *)
Record IdentityScores := mkIdentityScores {
  sc_ShortPoint : Float32; sc_ShortFlips : Z; sc_TotalShort : Float32 * Z;
  sc_LongPoint : Float32; sc_LongFlips : Z; sc_Approved : bool; sc_Missed : bool;
  sc_ShortFlipCidsToSolve : list string; sc_LongFlipCidsToSolve : list string
}.

(** Go: indexer/indexer.go detectEpochResult:1083-1110

    The scores of an identity, with the statistics of its shard and without. *)
Definition identity_scores e (addr : Address) (prev : Identity)
    (shard : option ValidationShardStats) : outcome IdentityScores :=
  let prevState := ee_prevState e in
  let newState := ee_newState e in
  let newIdentityState := GetIdentityState newState addr in
  match (shard ≫= λ s, (s,.) <$> vss_IdentitiesPerAddr s !! addr) with
  | Some (shard, i) =>
      let total :=
        if NewbieOrBetter newIdentityState || bool_decide (newIdentityState = Suspended)
           || bool_decide (newIdentityState = Zombie)
        then CalculateIdentityScores (GetScores newState addr) (GetShortFlipPoints newState addr)
               (GetQualifiedFlipsCount newState addr)
        else if is_Missed i
        then CalculateIdentityScores (id_Scores prev) (GetShortFlipPoints prevState addr)
               (GetQualifiedFlipsCount prevState addr)
        else calculateNewTotalScore (id_Scores prev) (is_ShortPoint i) (is_ShortFlips i)
               (GetShortFlipPoints prevState addr) (GetQualifiedFlipsCount prevState addr) in
      match convertCids (is_ShortFlipsToSolve i) (vss_FlipCids shard),
            convertCids (is_LongFlipsToSolve i) (vss_FlipCids shard) with
      | Done short, Done long =>
          Done (mkIdentityScores (is_ShortPoint i) (is_ShortFlips i) total (is_LongPoint i)
                  (is_LongFlips i) (is_Approved i) (is_Missed i) short long)
      | _, _ => Panic
      end
  | None =>
      Done (mkIdentityScores Float32_zero 0
              (CalculateIdentityScores (id_Scores prev) (GetShortFlipPoints prevState addr)
                 (GetQualifiedFlipsCount prevState addr)) Float32_zero 0 false true [] [])
  end.

(** Go: indexer/indexer.go detectEpochResult:1112-1116

    [convertedIdentity.BirthEpoch] *)
Definition birth_epoch_of e (prev : Identity) : Z :=
  if bool_decide (id_State prev = Invite) || bool_decide (id_State prev = CandidateState)
  then Epoch (ee_prevState e) else id_Birthday prev.

(** The row of an identity. *)
Definition convert_identity e (addr : Address) (prev : Identity)
    (shard : option ValidationShardStats) (sc : IdentityScores) : EpochIdentity :=
  {| ei_Address := address_Hex addr;
     ei_State := convertIdentityState (GetIdentityState (ee_newState e) addr);
     ei_ShortPoint := sc_ShortPoint sc;
     ei_ShortFlips := sc_ShortFlips sc;
     ei_TotalShortPoint := (sc_TotalShort sc).1;
     ei_TotalShortFlips := (sc_TotalShort sc).2;
     ei_LongPoint := sc_LongPoint sc;
     ei_LongFlips := sc_LongFlips sc;
     ei_Approved := sc_Approved sc;
     ei_Missed := sc_Missed sc;
     ei_RequiredFlips := GetRequiredFlips (ee_prevState e) addr;
     ei_AvailableFlips := id_MaximumAvailableFlips prev;
     ei_MadeFlips := GetMadeFlips (ee_prevState e) addr;
     ei_NextEpochInvites := GetInvites (ee_newState e) addr;
     ei_BirthEpoch := birth_epoch_of e prev;
     ei_ShortFlipCidsToSolve := sc_ShortFlipCidsToSolve sc;
     ei_LongFlipCidsToSolve := sc_LongFlipCidsToSolve sc;
     ei_DelegateeAddress := match id_Delegatee prev with
                            | Some d => address_Hex (ap_val d) | None => EmptyString end;
     ei_ShardId := id_ShiftedShardId prev;
     ei_NewShardId := GetShardId (ee_newState e) addr;
     ei_WrongGradeReason := default 0%Z (shard ≫= λ s, vss_WrongGradeReasons s !! addr) |}.

(** Go: indexer/indexer.go detectEpochResult:1058-1070

    The pools an identity delegates to, before and after the block. *)
Definition handle_pools e (addr : Address) (prev : Identity) : M Er unit :=
  match id_Delegatee prev with
  | Some d =>
      (if isPenalized e addr (id_ShiftedShardId prev)
       then modify_st (λ st, st <| er_delegateesEpochRewards ::=
              λ w, incPenalizedDelegators w (ap_val d) |>)
       else mret tt);;
      incPoolSize e (ap_val d) true
  | None => mret tt
  end;;
  match Delegatee (ee_newState e) addr with
  | Some d => incPoolSize e (ap_val d) false
  | None => mret tt
  end.

(** Go: indexer/indexer.go detectEpochResult:1133-1142

    [v.Author = convertedAddress], for each flip of the identity that has statistics *)
Definition handle_authors (addr : Address) (prev : Identity) : M Er unit :=
  for_each (id_Flips prev) (λ f,
    match cid_Parse (if_Cid f) with
    | None => mret tt
    | Some c =>
        modify_st (λ st,
          match er_flipsStatsByCid st !! convertCid c with
          | Some i => st <| er_flipsStats ::=
                        alter (λ r, r <| fsr_Author := address_Hex addr |>) i |>
          | None => st
          end)
    end).

Definition is_dead (s : IdentityState) : bool :=
  bool_decide (s = Undefined) || bool_decide (s = Killed).

(** Go: indexer/indexer.go detectEpochResult:1158-1178

    The rewards an identity earned and missed. *)
Definition handle_summary e (addr : Address) (prev : Identity)
    (shard : option ValidationShardStats) : M Er unit :=
  match rw_stats (ee_rewards e) with
  | None => mret tt
  | Some rewardsStats =>
      let newState := GetIdentityState (ee_newState e) addr in
      let age :=
        if is_dead (id_State prev) || bool_decide (id_State prev = Invite)
           || bool_decide (id_State prev = CandidateState)
        then 1%Z else u16 (Epoch (ee_newState e) - u16 (birth_epoch_of e prev)) in
      c ← gets er_vrsCalculator;
      reported ← gets er_reportedFlipsByAddress;
      let ignoredGrades :=
        bool_decide (is_Some (shard ≫= λ s, vss_WrongGradeReasons s !! addr)) in
      r ← lift_outcome (match calculateValidationRewardSummaries rewardsStats
              (rw_ints (ee_rewards e)) (rw_validation (ee_rewards e))
              (ee_EnableUpgrade10 e) (ee_EnableUpgrade11 e) (ee_shard_order e)
              (ee_identity_order e) c
              (mkQuery addr (id_ShiftedShardId prev) age (id_Flips prev) (id_State prev) newState
                 (id_MaximumAvailableFlips prev) (id_Stake prev) ignoredGrades
                 (default ∅ ((reported : gmap Address (gset string)) !! addr))) with
            | Some r => Done r | None => Panic end);
      modify_st (λ st, st <| er_summaries ::= λ l, l ++ [r.1] |> <| er_vrsCalculator := r.2 |>)
  end.

(** Go: indexer/indexer.go detectEpochResult:1045-1179

    The body of the loop over the identities. *)
Definition handle_identity e (shards : gmap Z ValidationShardStats)
    (addr : Address) (prev : Identity) : M Er unit :=
  let shard := shards !! id_ShiftedShardId prev in
  let newIdentityState := GetIdentityState (ee_newState e) addr in
  handle_pools e addr prev;;
  sc ← lift_outcome (identity_scores e addr prev shard);
  modify_st (λ st,
    st <| er_identities ::= λ l, l ++ [convert_identity e addr prev shard sc] |>
       <| er_validationRewardsAddresses ::= λ s, s ∖ {[addr]} |>
       <| er_birthdays ::= λ l, l ++ option_list (detectBirthday addr (id_Birthday prev)
            (id_Birthday (GetIdentity (ee_newState e) addr))) |>
       <| er_memPoolFlipKeys ::= λ l,
            match getMemPoolFlipKeysToMigrate e (Epoch (ee_prevState e)) with
            | None => l ++ option_list (detectMemPoolFlipKey addr prev)
            | Some _ => l
            end |>);;
  handle_authors addr prev;;
  modify_st (λ st,
    st <| er_rewardsBounds ::= λ rb,
            match rw_stats (ee_rewards e) with
            | Some s =>
                if decide (addr = GodAddress (ee_prevState e)) then rb else
                match TotalRewardsByAddr s !! addr with
                | Some reward => addIfBound rb addr
                    (u64 (Epoch (ee_newState e) - birth_epoch_of e prev)) (Some reward)
                | None => rb
                end
            | None => rb
            end |>
       <| er_killedAddrs ::= λ m,
            if negb (is_dead (id_State prev)) && is_dead newIdentityState
            then <[addr := mkKilledInfo killedReasonValidationFailure None]> m else m |>);;
  handle_summary e addr prev shard.

(** Go: indexer/indexer.go detectEpochResult:950-984

    The variables before the loops. *)
Definition initial_Er e (killedAddrs : gmap Address killedInfo)
    (validationRewardsAddresses : gset Address) (w : delegateeEpochRewardsWrapper) : Er :=
  {| er_birthdays := []; er_identities := []; er_summaries := [];
     er_vrsCalculator := newCalculator; er_poolSizeChanges := [];
     er_poolSizeChangeByAddress := ∅;
     er_memPoolFlipKeys := default [] (getMemPoolFlipKeysToMigrate e (Epoch (ee_prevState e)));
     er_rewardsBounds := mkRewardsBounds ∅;
     er_validationRewardsAddresses := validationRewardsAddresses;
     er_delegateesEpochRewards := w;
     er_flipsStats := []; er_flipsStatsByCid := ∅; er_flipStatusesMap := ∅;
     er_reportedFlips := 0; er_reportedFlipsByAddress := ∅; er_killedAddrs := killedAddrs |}.

(** The row of a rewarded address that is not an identity. *)
Definition rewarded_identity (addr : Address) : EpochIdentity :=
  {| ei_Address := address_Hex addr; ei_State := convertIdentityState Undefined;
     ei_ShortPoint := Float32_zero; ei_ShortFlips := 0; ei_TotalShortPoint := Float32_zero;
     ei_TotalShortFlips := 0; ei_LongPoint := Float32_zero; ei_LongFlips := 0;
     ei_Approved := false; ei_Missed := true; ei_RequiredFlips := 0; ei_AvailableFlips := 0;
     ei_MadeFlips := 0; ei_NextEpochInvites := 0; ei_BirthEpoch := 0;
     ei_ShortFlipCidsToSolve := []; ei_LongFlipCidsToSolve := [];
     ei_DelegateeAddress := EmptyString; ei_ShardId := 0; ei_NewShardId := 0;
     ei_WrongGradeReason := 0 |}.

(** Go: indexer/indexer.go detectEpochResult:1181-1218

    The rows of an epoch, from the variables after the loops. *)
Definition epoch_result e (v : ValidationStats) (epochRewards : option EpochRewardsRecord)
    (st : Er) : EpochResult :=
  {| ep_Identities := er_identities st
       ++ (rewarded_identity <$> ee_address_order e (er_validationRewardsAddresses st));
     ep_FlipStats := er_flipsStats st;
     ep_Birthdays := er_birthdays st;
     ep_MemPoolFlipKeys := er_memPoolFlipKeys st;
     ep_FailedValidation := vs_Failed v;
     ep_EpochRewards := epochRewards;
     ep_MinScoreForInvite := default Float32_zero (ee_MinScoreForInvite e);
     ep_RewardsBounds := getResult (ee_bounds_order e) (er_rewardsBounds st);
     ep_FlipStatuses := (λ '(status, count), mkFlipStatusCount status count)
                        <$> ee_status_order e (er_flipStatusesMap st);
     ep_ReportedFlips := er_reportedFlips st;
     ep_DelegateesEpochRewards := w_rewards (er_delegateesEpochRewards st);
     ep_ValidationRewardSummaries := er_summaries st;
     ep_PoolSizeChanges := er_poolSizeChanges st |}.

(** The loops of [detectEpochResult], from the variables before them. *)
Definition epoch_loops e (shards : gmap Z ValidationShardStats) : M Er unit :=
  handle_flips e shards;;
  for_each (IterateOverIdentities (ee_prevState e)) (λ i, handle_identity e shards i.1 i.2).

(** Go: indexer/indexer.go detectEpochResult

    The result, and the identities that are killed.  The statistics of the validation
    are dereferenced. *)
Definition detectEpochResult e (killedAddrs : gmap Address killedInfo)
    : outcome (option EpochResult * gmap Address killedInfo) :=
  if negb (HasFlag (ee_block e) ValidationFinished) then Done (None, killedAddrs) else
  match rw_validation (ee_rewards e) with
  | None => Panic
  | Some v =>
      let '(epochRewards, validationRewardsAddresses, w) :=
        detectEpochRewards (rw_ints (ee_rewards e)) (ee_reward_orders e)
          (rw_stats (ee_rewards e)) (ee_block e) in
      match epoch_loops e (default ∅ (vs_Shards v))
              (initial_Er e killedAddrs validationRewardsAddresses w) with
      | Done (_, st) => Done (Some (epoch_result e v epochRewards st), er_killedAddrs st)
      | Panic => Panic
      end
  end.
End operations.

(** ** The sizes of the pools *)

Section pools.
Context `{EpochApi}.
Context (e : EpochEnv).
Implicit Types (d a : Address) (x : Address * bool) (i : Address * Identity) (st : Er).

(** The slice of the changes and the map of their positions. *)
Abbreviation pools := (prod (list PoolSizeChange) (gmap Address nat)).

Definition inc_count (prev : bool) (c : PoolSizeChange) : PoolSizeChange :=
  if prev
  then c <| psc_Old ::= λ s, s <| ps_TotalDelegated ::= λ n, u64 (n + 1) |> |>
  else c <| psc_New ::= λ s, s <| ps_TotalDelegated ::= λ n, u64 (n + 1) |> |>.

(** The change of the pool [d], with the counts of its delegators. *)
Definition pool_change d (before after : Z) : PoolSizeChange :=
  mkPoolSizeChange d
    (mkPoolSize zeroAddress (u64 (PoolSize (ee_prevState e) d)) (u64 before))
    (mkPoolSize zeroAddress (u64 (PoolSize (ee_newState e) d)) (u64 after)).

Definition inc_pool (p : pools) x : pools :=
  let p := match p.2 !! x.1 with
           | Some _ => p
           | None => (p.1 ++ [pool_change x.1 0 0], <[x.1 := length p.1]> p.2)
           end in
  (alter (inc_count x.2) (default 0%nat (p.2 !! x.1)) p.1, p.2).

Definition set_pools (p : pools) st : Er :=
  st <| er_poolSizeChanges := p.1 |> <| er_poolSizeChangeByAddress := p.2 |>.
Definition pools_of st : pools := (er_poolSizeChanges st, er_poolSizeChangeByAddress st).

Lemma incPoolSize_eq d prev st :
  incPoolSize e d prev st = Done (tt, set_pools (inc_pool (pools_of st) (d, prev)) st).
Proof.
  unfold incPoolSize, inc_pool, pools_of, set_pools. unfold mbind, M_bind, gets, modify_st. cbn.
  destruct st as [????? m ??????????]. cbn. by destruct (m !! d) eqn:E; cbn; rewrite ?E; destruct prev.
Qed.

Lemma set_pools_pools p st : pools_of (set_pools p st) = p.
Proof. by destruct p. Qed.

Lemma set_pools_set p q st : set_pools p (set_pools q st) = set_pools p st.
Proof. done. Qed.

(** The increments an identity asks for. *)
Definition pool_ops i : list (Address * bool) :=
  option_list ((λ p, (ap_val p, true)) <$> id_Delegatee i.2)
  ++ option_list ((λ p, (ap_val p, false)) <$> Delegatee (ee_newState e) i.1).

Lemma handle_pools_eq a prev st : ∃ w,
  handle_pools e a prev st
  = Done (tt, (set_pools (foldl inc_pool (pools_of st) (pool_ops (a, prev))) st)
                <| er_delegateesEpochRewards := w |>).
Proof.
  unfold handle_pools, pool_ops. cbn [fst snd]. destruct (id_Delegatee prev) as [p|].
  - set (st1 := if isPenalized e a (id_ShiftedShardId prev)
                then st <| er_delegateesEpochRewards ::= λ w, incPenalizedDelegators w (ap_val p) |>
                else st).
    exists (er_delegateesEpochRewards st1).
    assert (Done (tt, st1) = (if isPenalized e a (id_ShiftedShardId prev)
      then modify_st (λ st, st <| er_delegateesEpochRewards ::=
              λ w, incPenalizedDelegators w (ap_val p) |>)
       else mret tt) st) as E1 by (subst st1; by destruct (isPenalized _ _ _)).
    rewrite <- bind_assoc. erewrite bind_done by (symmetry; exact E1).
    erewrite bind_done by apply incPoolSize_eq.
    destruct (Delegatee (ee_newState e) a) as [q|]; cbn [fmap option_fmap option_map option_list app foldl].
    + rewrite incPoolSize_eq, set_pools_pools. subst st1. by destruct (isPenalized _ _ _).
    + subst st1. by destruct (isPenalized _ _ _).
  - exists (er_delegateesEpochRewards st). erewrite bind_done by done.
    destruct (Delegatee (ee_newState e) a) as [q|]; cbn [fmap option_fmap option_map option_list app foldl].
    + rewrite incPoolSize_eq. by destruct st.
    + by destruct st.
Qed.

(** The increments of one kind a list of them has for [d]. *)
Definition incs d (prev : bool) (ops : list (Address * bool)) : Z :=
  Z.of_nat (length (filter (λ x, x = (d, prev)) ops)).

Lemma incs_snoc d prev ops x :
  incs d prev (ops ++ [x]) = (incs d prev ops + if bool_decide (x = (d, prev)) then 1 else 0)%Z.
Proof.
  unfold incs. rewrite list.filter_app, length_app, filter_cons, filter_nil.
  destruct (decide (x = (d, prev))); [rewrite bool_decide_true by done|rewrite bool_decide_false by done]; cbn; lia.
Qed.

Lemma incs_absent d prev ops : d ∉ ops.*1 → incs d prev ops = 0%Z.
Proof.
  intros Hn. unfold incs. destruct (filter (λ x, x = (d, prev)) ops) as [|x k] eqn:E; [done|].
  exfalso. assert (x ∈ filter (λ x, x = (d, prev)) ops) as [-> Hx]%list_elem_of_filter by (rewrite E; left).
  apply Hn, list_elem_of_fmap. by exists (d, prev).
Qed.

Definition row_of ops d : PoolSizeChange := pool_change d (incs d true ops) (incs d false ops).

Lemma inc_count_row ops d prev : inc_count prev (row_of ops d) = row_of (ops ++ [(d, prev)]) d.
Proof.
  unfold row_of, pool_change. rewrite !incs_snoc.
  unfold inc_count, modify_field.
  destruct prev; cbn [psc_Address psc_Old psc_New ps_Address ps_Size ps_TotalDelegated];
    [rewrite (bool_decide_true ((d, true) = (d, true))), (bool_decide_false ((d, true) = (d, false))) by congruence
    |rewrite (bool_decide_true ((d, false) = (d, false))), (bool_decide_false ((d, false) = (d, true))) by congruence];
    rewrite Z.add_0_r; unfold uwrap; by rewrite Zplus_mod_idemp_l.
Qed.

Lemma row_of_other ops d x : d ≠ x.1 → row_of (ops ++ [x]) d = row_of ops d.
Proof.
  intros Hne. unfold row_of. rewrite !incs_snoc.
  rewrite !bool_decide_false by (intros ->; done). by rewrite !Z.add_0_r.
Qed.

Lemma inc_pools_spec ops :
  let p := foldl inc_pool ([], ∅) ops in
  il_wf psc_Address p.1 p.2 ∧
  ∀ d, il_row p.1 p.2 d = if decide (d ∈ ops.*1) then Some (row_of ops d) else None.
Proof.
  induction ops as [|x ops [Hw Hr]] using rev_ind; cbn zeta in *.
  { split; [apply il_empty|]. intros d. rewrite decide_False by (cbn; apply not_elem_of_nil).
    unfold il_row. cbn. by rewrite lookup_empty. }
  rewrite foldl_snoc. set (p := foldl inc_pool ([], ∅) ops) in *. destruct x as [d0 prev].
  set (q := match p.2 !! d0 with Some _ => p
            | None => (p.1 ++ [pool_change d0 0 0], <[d0 := length p.1]> p.2) end).
  assert (il_wf psc_Address q.1 q.2 ∧ is_Some (q.2 !! d0) ∧
          ∀ d, il_row q.1 q.2 d = if decide (d ∈ (ops ++ [(d0, prev)]).*1) then Some (row_of ops d) else None)
    as (Hwq & [j Hj] & Hrq).
  { subst q. destruct (p.2 !! d0) as [j|] eqn:Hj.
    - split_and!; [done|by eexists|]. intros d. rewrite Hr, fmap_app.
      assert (d0 ∈ ops.*1).
      { destruct (decide (d0 ∈ ops.*1)) as [Hin|Hn]; [done|]. specialize (Hr d0).
        rewrite decide_False in Hr by done. by rewrite (il_row_None psc_Address p.1 p.2 d0 Hw Hr) in Hj. }
      destruct (decide (d ∈ ops.*1)); [rewrite decide_True by set_solver|rewrite decide_False by set_solver]; done.
    - cbn [fst snd]. assert (d0 ∉ ops.*1) as Hn.
      { intros Hin. specialize (Hr d0). rewrite decide_True in Hr by done.
        unfold il_row in Hr. by rewrite Hj in Hr. }
      split_and!; [by apply il_append_wf|rewrite lookup_insert_eq; by eexists|].
      intros d. rewrite (il_append_row psc_Address) by done. cbn [psc_Address pool_change].
      rewrite Hr, fmap_app. destruct (decide (d0 = d)) as [<-|Hne].
      + rewrite decide_True by set_solver. unfold row_of. by rewrite !incs_absent.
      + destruct (decide (d ∈ ops.*1)); [rewrite decide_True by set_solver|rewrite decide_False by set_solver]; done. }
  assert (inc_pool p (d0, prev) = (alter (inc_count prev) j q.1, q.2)) as ->.
  { unfold inc_pool. cbn [fst snd]. fold q. by rewrite Hj. }
  cbn [fst snd]. split; [apply il_alter_wf; [intros c; by destruct c, prev|done]|].
  intros d. rewrite (il_alter_row psc_Address q.1 q.2 j d0 d _ Hwq Hj). rewrite Hrq.
  destruct (decide (d0 = d)) as [<-|Hne].
  - rewrite !decide_True by (rewrite ?fmap_app; apply elem_of_app; right; left). cbn [fmap option_fmap option_map]. by rewrite inc_count_row.
  - rewrite row_of_other by (cbn; congruence). done.
Qed.

(** The identities that delegate to [d] before and after the block. *)
Definition delegators_before d (l : list (Address * Identity)) : Z :=
  Z.of_nat (length (filter (λ i, ap_val <$> id_Delegatee i.2 = Some d) l)).
Definition delegators_after d (l : list (Address * Identity)) : Z :=
  Z.of_nat (length (filter (λ i, ap_val <$> Delegatee (ee_newState e) i.1 = Some d) l)).

Lemma incs_ops d l :
  incs d true (l ≫= pool_ops) = delegators_before d l ∧
  incs d false (l ≫= pool_ops) = delegators_after d l.
Proof.
  unfold incs, delegators_before, delegators_after.
  induction l as [|i l [IH1 IH2]]; [done|].
  cbn [mbind list_bind]. rewrite !list.filter_app, !length_app, !filter_cons.
  rewrite !Nat2Z.inj_add. cbn [mbind] in IH1, IH2. rewrite IH1, IH2. unfold pool_ops.
  destruct (id_Delegatee i.2) as [p|], (Delegatee (ee_newState e) i.1) as [q|];
    cbn [fmap option_fmap option_map option_list app]; rewrite ?filter_cons, ?filter_nil;
    repeat case_decide; simplify_eq; first [congruence | cbn [length]; split; lia].
Qed.

Lemma ops_delegatee d l :
  d ∈ (l ≫= pool_ops).*1 ↔ (0 < delegators_before d l)%Z ∨ (0 < delegators_after d l)%Z.
Proof.
  destruct (incs_ops d l) as [<- <-]. unfold incs.
  generalize (l ≫= pool_ops) as ops. intros ops. rewrite list_elem_of_fmap. split.
  - intros ([d' b] & -> & Hin). cbn [fst].
    assert (0 < length (filter (λ x, x = (d', b)) ops)).
    { destruct (filter (λ x, x = (d', b)) ops) eqn:E; [|cbn; lia]. exfalso.
      apply (not_elem_of_nil (d', b)). rewrite <- E. by apply list_elem_of_filter. }
    destruct b; [left|right]; lia.
  - intros Hc. assert (∃ b, 0 < length (filter (λ x, x = (d, b)) ops)) as [b Hb].
    { destruct Hc; [exists true|exists false]; lia. }
    destruct (filter (λ x, x = (d, b)) ops) as [|x k] eqn:E; [cbn in Hb; lia|].
    assert (x ∈ filter (λ x, x = (d, b)) ops) as [-> Hx]%list_elem_of_filter by (rewrite E; left).
    by exists (d, b).
Qed.
End pools.

(** ** The rows of the flips *)

Section flips.
Context `{EpochApi}.
Context (e : EpochEnv).
Implicit Types (st : Er) (r : FlipStatsRecord) (rows : list FlipStatsRecord) (c : string).

(** A flip with the statistics of its shard and its index. *)
Abbreviation indexed_flip := (prod ValidationShardStats (prod Z FlipStats)).
Implicit Types x : indexed_flip.

(** The row of a flip, when its cid can be parsed. *)
Definition flip_record x : option FlipStatsRecord :=
  b ← at_index (vss_FlipCids x.1) x.2.1;
  flipCid ← cid_Parse b;
  Some (mkFlipStatsRecord _ EmptyString (convertCid flipCid)
          (convertStatsAnswer <$> fs_ShortAnswers x.2.2)
          (convertStatsAnswer <$> fs_LongAnswers x.2.2)
          (convertFlipStatus (fs_Status x.2.2)) (convertAnswer (fs_Answer x.2.2))
          (u8 (fs_Grade x.2.2)) (fs_GradeScore x.2.2)).

Definition is_reported x : bool :=
  bool_decide (is_Some (flip_record x)) && bool_decide (fs_Grade x.2.2 = GradeReported).

Lemma convertStatsAnswers_rows answers reported c :
  (convertStatsAnswers answers reported c).1 = convertStatsAnswer <$> answers.
Proof.
  unfold convertStatsAnswers. match goal with |- context [foldl ?f _ _] => set (F := f) end.
  enough (∀ res reported, (foldl F (res, reported) answers).1 = res ++ (convertStatsAnswer <$> answers))
    as -> by done.
  clear reported. induction answers as [|a l IH]; intros res reported; cbn [foldl fmap list_fmap];
    [by rewrite app_nil_r|].
  destruct (F (res, reported) a) as [res' reported'] eqn:E.
  assert (res' = res ++ [convertStatsAnswer a]) as -> by (subst F; cbn in E; congruence).
  by rewrite IH, <- app_assoc.
Qed.

(** The position a cid has in the map: that of the last row with it. *)
Definition last_of rows c (i : nat) : Prop :=
  (∃ r, rows !! i = Some r ∧ fsr_Cid r = c) ∧
  ∀ j r, i < j → rows !! j = Some r → fsr_Cid r ≠ c.

Lemma last_of_snoc rows r c i :
  last_of (rows ++ [r]) c i ↔ if decide (fsr_Cid r = c) then i = length rows else last_of rows c i.
Proof.
  unfold last_of. destruct (decide (fsr_Cid r = c)) as [Hc|Hc].
  - split.
    + intros [(r1 & H1 & Hc1) Hl]. apply lookup_app_Some in H1 as [H1|[Hle H1]].
      * exfalso. apply lookup_lt_Some in H1. by apply (Hl (length rows) r H1); [apply list_lookup_middle|].
      * apply list_lookup_singleton_Some in H1 as [? _]. lia.
    + intros ->. split; [exists r; split; [by apply list_lookup_middle|done]|].
      intros j r' Hj Hr. apply lookup_lt_Some in Hr. rewrite length_app in Hr. cbn in Hr. lia.
  - split; intros [(r1 & H1 & Hc1) Hl].
    + apply lookup_app_Some in H1 as [H1|[Hle H1]].
      * split; [by exists r1|]. intros j r' Hj Hr. apply (Hl j); [done|].
        by rewrite lookup_app_l by (by eapply lookup_lt_Some).
      * apply list_lookup_singleton_Some in H1 as [_ ->]. done.
    + split; [exists r1; by rewrite lookup_app_l by (by eapply lookup_lt_Some)|].
      intros j r' Hj Hr. apply lookup_app_Some in Hr as [Hr|[Hle Hr]]; [by apply (Hl j)|].
      apply list_lookup_singleton_Some in Hr as [_ <-]. done.
Qed.

(** The rows with a status. *)
Definition with_status rows (s : Z) : Z := Z.of_nat (length (filter (λ r, fsr_Status r = s) rows)).

Definition statuses_of rows (m : gmap Z Z) : Prop :=
  ∀ s, m !! s = if (0 <? with_status rows s)%Z then Some (u64 (with_status rows s)) else None.

Lemma with_status_snoc rows r s :
  with_status (rows ++ [r]) s = (with_status rows s + if decide (fsr_Status r = s) then 1 else 0)%Z.
Proof.
  unfold with_status. rewrite list.filter_app, length_app, filter_cons, filter_nil.
  destruct (decide (fsr_Status r = s)); cbn; lia.
Qed.

Lemma with_status_nonneg rows s : (0 ≤ with_status rows s)%Z.
Proof. unfold with_status. lia. Qed.

Lemma statuses_of_snoc rows r m :
  statuses_of rows m →
  statuses_of (rows ++ [r]) (<[fsr_Status r := u64 (default 0%Z (m !! fsr_Status r) + 1)]> m).
Proof.
  intros Hm s. rewrite with_status_snoc. specialize (with_status_nonneg rows s) as Hn.
  destruct (decide (fsr_Status r = s)) as [<-|Hne].
  - rewrite lookup_insert_eq, Hm. destruct (Z.ltb_spec 0 (with_status rows (fsr_Status r) + 1)); [|lia].
    f_equal. destruct (Z.ltb_spec 0 (with_status rows (fsr_Status r))); cbn [from_option id].
    + unfold uwrap. by rewrite Zplus_mod_idemp_l.
    + replace (with_status rows (fsr_Status r)) with 0%Z by lia. done.
  - rewrite lookup_insert_ne by done. rewrite Z.add_0_r. apply Hm.
Qed.

(** What the loop over the flips does not change. *)
Definition identity_part st :=
  (er_identities st, er_validationRewardsAddresses st, er_killedAddrs st, pools_of st).

(** The state after the flips of [pre], from one whose identities are [part]. *)
Record flips_done part (pre : list indexed_flip) st : Prop := {
  fd_rows : er_flipsStats st = omap flip_record pre;
  fd_index : ∀ c i, er_flipsStatsByCid st !! c = Some i ↔ last_of (er_flipsStats st) c i;
  fd_statuses : statuses_of (er_flipsStats st) (er_flipStatusesMap st);
  fd_reported : er_reportedFlips st = u32 (Z.of_nat (length (filter is_reported pre)));
  fd_part : identity_part st = part
}.

Definition flip_in_range x : Prop := (0 ≤ x.2.1 < Z.of_nat (length (vss_FlipCids x.1)))%Z.

Lemma at_index_is_Some {A} (l : list A) i :
  (0 ≤ i < Z.of_nat (length l))%Z → is_Some (at_index l i).
Proof.
  intros Hi. unfold at_index. destruct (i <? 0)%Z eqn:E; [apply Z.ltb_lt in E; lia|].
  apply lookup_lt_is_Some_2. lia.
Qed.

Lemma handle_flip_done part pre x st :
  flip_in_range x → flips_done part pre st →
  wp (handle_flip x.1 x.2.1 x.2.2) (λ _ st', flips_done part (pre ++ [x]) st') st.
Proof.
  intros Hx [Hr Hi Hs Hn Hp]. unfold handle_flip.
  destruct (at_index_is_Some _ _ Hx) as [b Hb]. rewrite Hb. apply wp_bind.
  unfold lift_outcome, wp at 1. destruct (cid_Parse b) as [c|] eqn:Hc.
  2:{ assert (flip_record x = None) as E.
      { unfold flip_record. rewrite Hb. cbn [mbind option_bind]. by rewrite Hc. }
      apply wp_ret. split; [by rewrite omap_app, Hr, omap_cons_list, E; cbn; rewrite app_nil_r|done|done| |done].
      rewrite Hn, list.filter_app, filter_cons, filter_nil, decide_False; [by rewrite app_nil_r|].
      unfold is_reported. rewrite E, bool_decide_false by apply is_Some_None. by intros []. }
  set (row := mkFlipStatsRecord _ EmptyString (convertCid c)
          (convertStatsAnswer <$> fs_ShortAnswers x.2.2) (convertStatsAnswer <$> fs_LongAnswers x.2.2)
          (convertFlipStatus (fs_Status x.2.2)) (convertAnswer (fs_Answer x.2.2))
          (u8 (fs_Grade x.2.2)) (fs_GradeScore x.2.2)).
  assert (flip_record x = Some row) as E.
  { unfold flip_record. rewrite Hb. cbn [mbind option_bind]. by rewrite Hc. }
  apply wp_bind. apply (wp_mono _ (λ _ st1, st1 = st <| er_reportedFlips := u32 (Z.of_nat
    (length (filter is_reported (pre ++ [x])))) |>)).
  { assert (is_reported x = bool_decide (fs_Grade x.2.2 = GradeReported)) as Er.
    { unfold is_reported. rewrite E. by rewrite (bool_decide_true (is_Some (Some row))) by by eexists. }
    rewrite list.filter_app, filter_cons, filter_nil, length_app, Er.
    destruct (decide (fs_Grade x.2.2 = GradeReported)) as [Hg|Hg].
    - apply wp_modify. rewrite decide_True by (by apply bool_decide_pack). destruct st. cbn in *. subst.
      unfold modify_field. cbn. f_equal. unfold uwrap. rewrite Zplus_mod_idemp_l. f_equal. lia.
    - apply wp_ret. rewrite decide_False by (by rewrite bool_decide_spec). cbn [length]. rewrite Nat.add_0_r, <- Hn.
      by destruct st. }
  intros [] st1 ->. cbn zeta. wp_steps. rewrite !convertStatsAnswers_rows. fold row. split.
  - cbn. by rewrite omap_app, <- Hr, omap_cons_list, E.
  - intros c' i. cbn [er_flipsStats er_flipsStatsByCid modify_field]. rewrite last_of_snoc.
    cbn [fsr_Cid row]. rewrite lookup_insert. destruct (decide (convertCid c = c')); [|apply Hi].
    split; [by intros [= <-]|by intros ->].
  - by apply statuses_of_snoc.
  - done.
  - done.
Qed.
End flips.

(** ** The two loops *)

Section loops.
Context `{EpochApi}.
Context (e : EpochEnv) (v : ValidationStats).
Implicit Types (st : Er) (r : FlipStatsRecord) (i : Address * Identity) (c : string).

Abbreviation shards := (default ∅ (vs_Shards v)).

(** The statistics of a shard are about its flips. *)
Definition shard_ok (s : ValidationShardStats) : Prop :=
  map_Forall (λ f _, 0 ≤ f < Z.of_nat (length (vss_FlipCids s)))%Z (vss_FlipsPerIdx s) ∧
  map_Forall (λ _ ist, Forall (Z.le 0) (is_ShortFlipsToSolve ist) ∧ Forall (Z.le 0) (is_LongFlipsToSolve ist))
    (vss_IdentitiesPerAddr s).

(** A block that finishes a validation whose statistics are there. *)
Record validation_ok : Prop := {
  vo_finished : HasFlag (ee_block e) ValidationFinished = true;
  vo_stats : rw_validation (ee_rewards e) = Some v;
  vo_shards : map_Forall (λ _, shard_ok) shards;
  vo_decimal : ∀ d : Decimal, Decimal_ToInt d ≠ None;
  vo_shard_order : ∀ m, ranges m (ee_shard_order e m);
  vo_flip_order : ∀ m, ranges m (ee_flip_order e m);
  vo_identity_order : ∀ m, ranges m (ee_identity_order e m);
  vo_address_order : ∀ s, ee_address_order e s ≡ₚ elements s;
  vo_status_order : ∀ m, ranges m (ee_status_order e m)
}.
Context (Hok : validation_ok).

(** The flips with statistics, in the order they are visited. *)
Definition visited_flips : list (ValidationShardStats * (Z * FlipStats)) :=
  ee_shard_order e shards ≫= λ s, (λ f, (s.2, f)) <$> ee_flip_order e (vss_FlipsPerIdx s.2).

Lemma visited_flips_in_range : Forall flip_in_range visited_flips.
Proof.
  apply list.Forall_forall. intros x Hx. unfold visited_flips in Hx.
  apply list_elem_of_bind in Hx as ([k s] & Hx & Hs). cbn [snd] in Hx.
  apply list_elem_of_fmap in Hx as ([f fs] & -> & Hf).
  apply (ranges_elem _ _ _ _ (vo_shard_order Hok _)) in Hs.
  apply (ranges_elem _ _ _ _ (vo_flip_order Hok _)) in Hf.
  destruct (vo_shards Hok k s Hs) as [Hr _]. exact (Hr f fs Hf).
Qed.

Lemma handle_flips_done part st :
  flips_done part [] st →
  wp (handle_flips e shards) (λ _ st', flips_done part visited_flips st') st.
Proof.
  intros Hst. unfold handle_flips, wp.
  rewrite (for_each_pairs (λ s, ee_flip_order e (vss_FlipsPerIdx s.2)) (λ s f, handle_flip s.2 f.1 f.2)).
  assert (visited_flips = (λ p, (p.1.2, p.2)) <$>
    (ee_shard_order e shards ≫= λ s, (s,.) <$> ee_flip_order e (vss_FlipsPerIdx s.2))) as Ev.
  { unfold visited_flips. induction (ee_shard_order e shards) as [|s l IH]; [done|].
    by rewrite !bind_cons, fmap_app, <- list_fmap_compose, IH. }
  specialize visited_flips_in_range as Hr. rewrite Ev in *.
  refine (wp_for_each_prefix (λ pre st, flips_done part ((λ p, (p.1.2, p.2)) <$> pre) st) _ _ st _ Hst).
  intros pre [s f] st1 Hin Hd. rewrite fmap_app. apply (handle_flip_done part _ (s.2, f)); [|done].
  apply (proj1 (list.Forall_forall _ _) Hr). apply list_elem_of_fmap. by exists (s, f).
Qed.

(** The cids of the flips of an identity. *)
Definition flip_cids (l : list IdentityFlip) : list string :=
  omap (λ f, convertCid <$> cid_Parse (if_Cid f)) l.

Definition set_author (a : Address) (hit : bool) r : FlipStatsRecord :=
  if hit then r <| fsr_Author := address_Hex a |> else r.

(** Whether a position is that of one of the cids. *)
Definition hits (m : gmap string nat) (cids : list string) (j : nat) : bool :=
  existsb (λ c, bool_decide (m !! c = Some j)) cids.

Lemma handle_authors_eq a prev st : ∃ rows,
  handle_authors a prev st = Done (tt, st <| er_flipsStats := rows |>) ∧
  ∀ j, rows !! j = set_author a (hits (er_flipsStatsByCid st) (flip_cids (id_Flips prev)) j)
                   <$> er_flipsStats st !! j.
Proof.
  unfold handle_authors. generalize (id_Flips prev) as l. intros l. revert st.
  induction l as [|f l IH]; intros st.
  { exists (er_flipsStats st). split; [by destruct st|]. intros j. cbn. by destruct (_ !! j). }
  cbn [for_each]. unfold flip_cids. rewrite omap_cons_list. unfold hits.
  destruct (cid_Parse (if_Cid f)) as [c|]; [|erewrite bind_done by done; apply IH].
  cbn [fmap option_fmap option_map option_list app existsb].
  destruct (er_flipsStatsByCid st !! convertCid c) as [k|] eqn:Hk.
  - erewrite bind_done by (unfold modify_st; rewrite Hk; reflexivity).
    match goal with |- ∃ _, for_each _ _ ?s = _ ∧ _ => destruct (IH s) as (rows & -> & Hrows) end.
    exists rows. split; [done|]. intros j. rewrite Hrows. cbn [er_flipsStatsByCid er_flipsStats modify_field].
    rewrite list_lookup_alter. fold (flip_cids l). unfold hits.
    destruct (decide (k = j)) as [->|Hne].
    + rewrite bool_decide_true by done. destruct (_ !! j); cbn; [|done]. f_equal.
      by destruct (existsb _ _).
    + rewrite bool_decide_false by congruence. by destruct (_ !! j).
  - erewrite bind_done by (unfold modify_st; rewrite Hk; reflexivity).
    destruct (IH st) as (rows & -> & Hrows). exists rows. split; [done|].
    intros j. rewrite Hrows. rewrite bool_decide_false by congruence. done.
Qed.

Lemma convertCids_ok (idxs : list Z) (cids : list bytes) :
  Forall (Z.le 0) idxs → ∃ l, convertCids idxs cids = Done l.
Proof.
  induction 1 as [|x l Hx _ [k Hk]]; [by exists []|]. unfold convertCids in *. cbn [foldr].
  destruct (Z.leb_spec (Z.of_nat (length cids)) x); [by exists k|].
  destruct (at_index_is_Some cids x ltac:(lia)) as [b ->]. rewrite Hk.
  destruct (cid_Parse b); by eexists.
Qed.

Lemma identity_scores_ok a prev :
  ∃ sc, identity_scores e a prev (shards !! id_ShiftedShardId prev) = Done sc.
Proof.
  unfold identity_scores. destruct (shards !! id_ShiftedShardId prev) as [s|] eqn:Hs; cbn; [|by eexists].
  destruct (vss_IdentitiesPerAddr s !! a) as [ist|] eqn:Hi; cbn; [|by eexists].
  destruct (vo_shards Hok _ _ Hs) as [_ Hf]. destruct (Hf a ist Hi) as [H1 H2].
  destruct (convertCids_ok _ (vss_FlipCids s) H1) as [? ->].
  destruct (convertCids_ok _ (vss_FlipCids s) H2) as [? ->]. by eexists.
Qed.

Lemma visited_in_range :
  forallb flips_in_range
    (visited (rw_validation (ee_rewards e)) (ee_shard_order e) (ee_identity_order e)) = true.
Proof.
  rewrite (vo_stats Hok). apply forallb_forall. intros x Hx%list_elem_of_In. unfold visited in Hx.
  apply list_elem_of_bind in Hx as ([k s] & Hx & Hs). cbn [snd] in Hx.
  apply list_elem_of_fmap in Hx as ([a ist] & -> & Hi).
  apply (ranges_elem _ _ _ _ (vo_shard_order Hok _)) in Hs.
  destruct (vo_shards Hok k s Hs) as [Hf _].
  unfold flips_in_range. apply forallb_forall. intros f _. cbn [fst snd].
  destruct (vss_FlipsPerIdx s !! f) as [fs|] eqn:Hl; cbn; [|done].
  specialize (Hf f fs Hl) as Hr. cbn in Hr.
  destruct (Z.leb_spec 0 f); [|lia]. destruct (Z.ltb_spec f (Z.of_nat (length (vss_FlipCids s)))); [done|lia].
Qed.

Lemma handle_summary_eq a prev shard st : ∃ ss cal,
  handle_summary e a prev shard st = Done (tt, st <| er_summaries := ss |> <| er_vrsCalculator := cal |>).
Proof.
  unfold handle_summary. destruct (rw_stats (ee_rewards e)) as [s|].
  2:{ exists (er_summaries st), (er_vrsCalculator st). by destruct st. }
  cbn zeta. erewrite bind_done by done. erewrite bind_done by done.
  match goal with |- context [calculateValidationRewardSummaries ?a1 ?a2 ?a3 ?a4 ?a5 ?a6 ?a7 ?a8 ?a9] =>
    destruct (calculate_ok a1 a2 a3 a4 a5 a6 a7 a8 a9 (vo_decimal Hok) visited_in_range) as [[s1 c1] ->] end.
  exists (er_summaries st ++ [s1]), c1. done.
Qed.

(** The row of an identity. *)
Definition identity_row (i : Address * Identity) (row : EpochIdentity) : Prop :=
  ∃ sc, identity_scores e i.1 i.2 (shards !! id_ShiftedShardId i.2) = Done sc ∧
        row = convert_identity e i.1 i.2 (shards !! id_ShiftedShardId i.2) sc.

(** It was alive before the block and is dead after it. *)
Definition killed_by_validation (i : Address * Identity) : bool :=
  negb (is_dead (id_State i.2)) && is_dead (GetIdentityState (ee_newState e) i.1).

Definition add_killed (m : gmap Address killedInfo) (i : Address * Identity) : gmap Address killedInfo :=
  if killed_by_validation i then <[i.1 := mkKilledInfo killedReasonValidationFailure None]> m else m.

Definition author_step (m : gmap string nat) (j : nat) r i : FlipStatsRecord :=
  set_author i.1 (hits m (flip_cids (id_Flips i.2)) j) r.

(** The state after the identities of [pre], from [st0]. *)
Record identities_done st0 (pre : list (Address * Identity)) st : Prop := {
  id_rows : ∃ rows, er_identities st = er_identities st0 ++ rows ∧ Forall2 identity_row pre rows;
  id_addresses : er_validationRewardsAddresses st
                 = er_validationRewardsAddresses st0 ∖ list_to_set pre.*1;
  id_killed : er_killedAddrs st = foldl add_killed (er_killedAddrs st0) pre;
  id_pools : pools_of st = foldl (inc_pool e) (pools_of st0) (pre ≫= pool_ops e);
  id_index : er_flipsStatsByCid st = er_flipsStatsByCid st0;
  id_flips : ∀ j, er_flipsStats st !! j
             = (λ r, foldl (author_step (er_flipsStatsByCid st0) j) r pre) <$> er_flipsStats st0 !! j;
  id_statuses : er_flipStatusesMap st = er_flipStatusesMap st0;
  id_reported : er_reportedFlips st = er_reportedFlips st0
}.

Lemma handle_identity_done st0 pre i st :
  identities_done st0 pre st →
  wp (handle_identity e shards i.1 i.2) (λ _ st', identities_done st0 (pre ++ [i]) st') st.
Proof.
  destruct i as [a prev]. intros [(rows & Hrows & Hf2) Ha Hk Hp Hx Hf Hs Hr]. unfold wp.
  destruct (handle_pools_eq e a prev st) as [w Hpools].
  destruct (identity_scores_ok a prev) as [sc Hsc].
  unfold handle_identity. cbn [fst snd]. erewrite bind_done by exact Hpools.
  erewrite bind_done by (unfold lift_outcome; rewrite Hsc; reflexivity).
  erewrite bind_done by reflexivity.
  match goal with |- context [(handle_authors a prev ≫= _) ?s] =>
    destruct (handle_authors_eq a prev s) as (frows & Hauth & Hfrows) end.
  erewrite bind_done by exact Hauth. erewrite bind_done by reflexivity.
  match goal with |- context [handle_summary e a prev ?sh ?s] =>
    destruct (handle_summary_eq a prev sh s) as (ss & cal & ->) end.
  split.
  - exists (rows ++ [convert_identity e a prev (shards !! id_ShiftedShardId prev) sc]).
    split; [cbn; by rewrite Hrows, <- app_assoc|].
    apply Forall2_app; [done|]. constructor; [by exists sc|constructor].
  - cbn. rewrite Ha, fmap_app, list_to_set_app_L. cbn. set_solver.
  - rewrite foldl_snoc, <- Hk. cbn. unfold add_killed, killed_by_validation. cbn [fst snd].
    by destruct (negb _ && _).
  - rewrite bind_app, foldl_app, <- Hp. cbn [mbind list_bind]. rewrite app_nil_r.
    change (pools_of (set_pools (foldl (inc_pool e) (pools_of st) (pool_ops e (a, prev))) st)
      = foldl (inc_pool e) (pools_of st) (pool_ops e (a, prev))). apply set_pools_pools.
  - exact Hx.
  - intros j. specialize (Hfrows j). cbn in Hfrows |- *. rewrite Hfrows, Hf, Hx, <- option_fmap_compose.
    destruct (er_flipsStats st0 !! j); [|done]. cbn [fmap option_fmap option_map compose].
    by rewrite foldl_snoc.
  - exact Hs.
  - exact Hr.
Qed.
End loops.

(** ** The result *)

Section result.
Context `{EpochApi}.
Implicit Types (e : EpochEnv) (v : ValidationStats) (a d : Address) (i : Address * Identity).

(** The addresses of the rewards the collector has, but for those of the funds; they need
    not be identities. *)
Definition rewarded_addresses e : gset Address :=
  match rw_stats (ee_rewards e) with
  | None => ∅
  | Some s => list_to_set (rs_Address <$> filter (λ r, is_fund r = false) (Rewards s))
  end.

Lemma detected_addresses e :
  HasFlag (ee_block e) ValidationFinished = true →
  (detectEpochRewards (rw_ints (ee_rewards e)) (ee_reward_orders e) (rw_stats (ee_rewards e)) (ee_block e)).1.2
  = rewarded_addresses e.
Proof.
  intros Hf. unfold detectEpochRewards, rewarded_addresses. rewrite Hf. cbn [negb].
  destruct (rw_stats (ee_rewards e)) as [s|]; [|done]. by rewrite rewards_split.
Qed.

Definition identities_of e : list (Address * Identity) := IterateOverIdentities (ee_prevState e).

(** The loops end, and this is what they leave. *)
Lemma detectEpochResult_done e v killed :
  validation_ok e v → ∃ epochRewards st1 st,
  detectEpochResult e killed
  = Done (Some (epoch_result e v epochRewards st), er_killedAddrs st) ∧
  flips_done ([], rewarded_addresses e, killed, ([], ∅)) (visited_flips e v) st1 ∧
  identities_done e v st1 (identities_of e) st.
Proof.
  intros Hok. unfold detectEpochResult. rewrite (vo_finished _ _ Hok), (vo_stats _ _ Hok).
  cbn [negb]. rewrite <- (detected_addresses e) by apply Hok.
  destruct (detectEpochRewards (rw_ints (ee_rewards e)) (ee_reward_orders e)
     (rw_stats (ee_rewards e)) (ee_block e)) as [[epochRewards addrs] w]. cbn [fst snd].
  assert (flips_done ([], addrs, killed, ([], ∅)) [] (initial_Er e killed addrs w)) as Hinit.
  { split; [done| |by intros s|done|done]. intros c j. cbn. rewrite lookup_empty. split; [done|].
    intros [(r & Hr & _) _]. by rewrite lookup_nil in Hr. }
  apply (handle_flips_done e v Hok) in Hinit. apply wp_done in Hinit as ([] & st1 & Hf & Hd1).
  assert (wp (for_each (identities_of e) (λ i, handle_identity e (default ∅ (vs_Shards v)) i.1 i.2))
    (λ _ st, identities_done e v st1 (identities_of e) st) st1) as Hi.
  { refine (wp_for_each_prefix (λ pre st, identities_done e v st1 pre st) _ _ st1 _ _).
    - intros pre i st Hin. by apply handle_identity_done.
    - split; try done.
      + exists []. by rewrite app_nil_r.
      + cbn. by rewrite difference_empty_L.
      + intros j. by destruct (_ !! j). }
  apply wp_done in Hi as ([] & st & Hi & Hd2). exists epochRewards, st1, st. split_and!; [|done|done].
  unfold epoch_loops. erewrite bind_done by exact Hf. unfold identities_of in Hi. by rewrite Hi.
Qed.

Lemma identity_row_address e v i row :
  identity_row e v i row →
  (ei_Address row, ei_State row)
  = (address_Hex i.1, convertIdentityState (GetIdentityState (ee_newState e) i.1)).
Proof. by intros (sc & _ & ->). Qed.

(** [C35]  When a validation finishes, every identity of the state before the block and
    every address that the collector has a reward for, but for those paid by the funds,
    have exactly one row in the identities of the epoch; the state in the row is the one
    after the block, [Undefined] for an address that was not an identity.  The state before
    the block lists each identity once.  The statistics of the validation are there, the
    flips they name by position are in the list of their shard and the flips to solve have
    positions that are not negative (the code panics otherwise), the decimals of the library
    have integer parts, and maps and sets are ranged over once, in any order. *)
Theorem epoch_identities e v killed :
  validation_ok e v → NoDup (identities_of e).*1 →
  ∃ r killed', detectEpochResult e killed = Done (Some r, killed') ∧
  (λ row, (ei_Address row, ei_State row)) <$> ep_Identities r ≡ₚ
  ((λ a, (address_Hex a, convertIdentityState
            (if decide (a ∈ (identities_of e).*1) then GetIdentityState (ee_newState e) a
             else Undefined)))
   <$> elements (list_to_set (identities_of e).*1 ∪ rewarded_addresses e : gset Address)).
Proof.
  intros Hok Hnd. destruct (detectEpochResult_done e v killed Hok)
    as (er & st1 & st & -> & Hf & Hi). eexists _, _. split; [reflexivity|].
  destruct (id_rows _ _ _ _ _ Hi) as (rows & Hrows & Hf2).
  pose proof (fd_part _ _ _ Hf) as Hp. injection Hp as Hids Hadr _ _.
  cbn [ep_Identities epoch_result]. rewrite Hrows, Hids, (id_addresses _ _ _ _ _ Hi), Hadr. cbn [app].
  set (ids := (identities_of e).*1) in *. set (R := rewarded_addresses e).
  assert (elements (list_to_set ids ∪ R : gset Address) ≡ₚ ids ++ elements (R ∖ list_to_set ids)) as ->.
  { replace (list_to_set ids ∪ R : gset Address) with (list_to_set ids ∪ R ∖ list_to_set ids : gset Address)
      by (apply set_eq; intros x; rewrite !elem_of_union, elem_of_difference;
          destruct (decide (x ∈ (list_to_set ids : gset Address))); tauto).
    rewrite elements_disj_union by set_solver. by rewrite elements_list_to_set. }
  rewrite !fmap_app. apply Permutation_app.
  - apply reflexive_eq. subst ids. clear -Hf2. revert Hf2. generalize (identities_of e) as l.
    intros l Hf2. enough (∀ ids : list Address, l.*1 ⊆ ids →
      (λ row, (ei_Address row, ei_State row)) <$> rows
      = (λ a, (address_Hex a, convertIdentityState
            (if decide (a ∈ ids) then GetIdentityState (ee_newState e) a else Undefined))) <$> l.*1)
      as E by by apply E.
    intros ids. induction Hf2 as [|i row l rows Hrow Hf2 IH]; [done|]. intros Hsub.
    cbn [fmap list_fmap]. rewrite (identity_row_address _ _ _ _ Hrow), decide_True by set_solver.
    f_equal. apply IH. set_solver.
  - rewrite (vo_address_order _ _ Hok), <- list_fmap_compose. apply reflexive_eq.
    apply list_fmap_ext. intros j a Ha%list_elem_of_lookup_2. apply elem_of_elements in Ha.
    cbn. by rewrite decide_False by set_solver.
Qed.

(** The addresses a validation kills are those of the identities that were alive
    before the block and are not after it; the reasons that were known of the others stay. *)
Theorem killed_by_failed_validation e v killed :
  validation_ok e v →
  ∃ r killed', detectEpochResult e killed = Done (Some r, killed') ∧
  ∀ a, killed' !! a =
    if decide (Exists (λ i, i.1 = a ∧ killed_by_validation e i = true) (identities_of e))
    then Some (mkKilledInfo killedReasonValidationFailure None) else killed !! a.
Proof.
  intros Hok. destruct (detectEpochResult_done e v killed Hok)
    as (er & st1 & st & -> & Hf & Hi). eexists _, _. split; [reflexivity|].
  pose proof (fd_part _ _ _ Hf) as Hp. injection Hp as _ _ Hk _.
  intros a. rewrite (id_killed _ _ _ _ _ Hi), Hk. clear. induction (identities_of e) as [|i l IH] using rev_ind.
  { by rewrite decide_False by (by intros ?%Exists_nil). }
  rewrite foldl_snoc. unfold add_killed at 1. destruct (killed_by_validation e i) eqn:Hi.
  - destruct (decide (i.1 = a)) as [<-|Hne].
    + rewrite lookup_insert_eq, decide_True; [done|]. apply Exists_app. right. by left.
    + rewrite lookup_insert_ne, IH by done.
      apply decide_ext. rewrite Exists_app, Exists_cons, Exists_nil.
      split; [tauto|]. intros [?|[[? ?]|[]]]; [done|congruence].
  - rewrite IH. apply decide_ext. rewrite Exists_app, Exists_cons, Exists_nil.
    split; [tauto|]. intros [?|[[? ?]|[]]]; [done|congruence].
Qed.

(** A change of a pool is recorded exactly for the pools some identity delegates to
    before or after the block, once, with its sizes in the two states and the numbers of
    the identities that delegate to it in each. *)
Theorem pool_size_changes e v killed :
  validation_ok e v →
  ∃ r killed', detectEpochResult e killed = Done (Some r, killed') ∧
  NoDup (psc_Address <$> ep_PoolSizeChanges r) ∧
  ∀ d c, c ∈ ep_PoolSizeChanges r ∧ psc_Address c = d ↔
    (0 < delegators_before d (identities_of e) ∨ 0 < delegators_after e d (identities_of e))%Z ∧
    c = pool_change e d (delegators_before d (identities_of e)) (delegators_after e d (identities_of e)).
Proof.
  intros Hok. destruct (detectEpochResult_done e v killed Hok)
    as (er & st1 & st & -> & Hf & Hi). eexists _, _. split; [reflexivity|].
  pose proof (fd_part _ _ _ Hf) as Hp. unfold identity_part in Hp. injection Hp as _ _ _ Hpools.
  pose proof (id_pools _ _ _ _ _ Hi) as Hpo. unfold pools_of in Hpo at 2. rewrite Hpools in Hpo.
  replace (er_poolSizeChangeByAddress st1) with (∅ : gmap Address nat) in Hpo by congruence.
  destruct (inc_pools_spec e (identities_of e ≫= pool_ops e)) as [Hw Hr]. rewrite <- Hpo in Hw, Hr.
  cbn [ep_PoolSizeChanges epoch_result]. destruct (il_rows psc_Address _ _ Hw) as [Hnd Hin].
  split; [exact Hnd|]. intros d c. cbn [pools_of fst snd] in Hin, Hr.
  destruct (incs_ops e d (identities_of e)) as [Hb Ha]. rewrite <- (ops_delegatee e d (identities_of e)).
  rewrite (Hin c). specialize (Hr d). unfold row_of in Hr. rewrite Hb, Ha in Hr. split.
  - intros [Hc <-]. rewrite Hr in Hc. case_decide; [|done]. split; [done|congruence].
  - intros [Hd ->]. rewrite decide_True in Hr by done. by split.
Qed.

(** The flips of the epoch are those with statistics whose cids can be parsed, each
    once and in the order they are visited, up to their authors; the statuses are
    counted over them, and so are the reported flips. *)
Theorem flips_counted e v killed :
  validation_ok e v →
  ∃ r killed', detectEpochResult e killed = Done (Some r, killed') ∧
  let rows := omap flip_record (visited_flips e v) in
  (λ f, f <| fsr_Author := EmptyString |>) <$> ep_FlipStats r = rows ∧
  ep_ReportedFlips r = u32 (Z.of_nat (length (filter is_reported (visited_flips e v)))) ∧
  NoDup (fsc_Status <$> ep_FlipStatuses r) ∧
  ∀ c, c ∈ ep_FlipStatuses r ↔
       (0 < with_status rows (fsc_Status c))%Z ∧ fsc_Count c = u64 (with_status rows (fsc_Status c)).
Proof.
  intros Hok. destruct (detectEpochResult_done e v killed Hok)
    as (er & st1 & st & -> & Hf & Hi). eexists _, _. split; [reflexivity|].
  cbn zeta. cbn [ep_FlipStats ep_ReportedFlips ep_FlipStatuses epoch_result].
  rewrite (id_reported _ _ _ _ _ Hi), (fd_reported _ _ _ Hf), (id_statuses _ _ _ _ _ Hi).
  pose proof (fd_statuses _ _ _ Hf) as Hs. pose proof (fd_rows _ _ _ Hf) as Hrows.
  pose proof (vo_status_order _ _ Hok (er_flipStatusesMap st1)) as Ho. rewrite Hrows in Hs.
  set (rows := omap flip_record (visited_flips e v)) in *. split_and!; [|done| |].
  - apply list_eq. intros j. rewrite list_lookup_fmap, (id_flips _ _ _ _ _ Hi), Hrows.
    destruct (rows !! j) as [r|] eqn:Hj; [|done]. cbn [fmap option_fmap option_map]. f_equal.
    transitivity (r <| fsr_Author := EmptyString |>).
    + generalize (identities_of e) as l. intros l. induction l as [|i l IH] using rev_ind; [done|].
      rewrite foldl_snoc. unfold author_step at 1, set_author. by case_match.
    + apply list_elem_of_lookup_2 in Hj. subst rows. apply list_elem_of_omap in Hj as (x & _ & Hx).
      unfold flip_record in Hx. destruct (at_index _ _); cbn in Hx; [|done].
      destruct (cid_Parse _); cbn in Hx; [|done]. by simplify_eq.
  - rewrite <- list_fmap_compose. eapply eq_ind; [exact (ranges_NoDup _ _ Ho)|].
    apply list_fmap_ext. by intros ? [] ?.
  - intros [s n]. cbn [fsc_Status fsc_Count]. rewrite list_elem_of_fmap. split.
    + intros ([s' n'] & [= -> ->] & Hin). apply (ranges_elem _ _ _ _ Ho) in Hin. rewrite Hs in Hin.
      destruct (Z.ltb_spec 0 (with_status rows s')); [|done]. split; [done|congruence].
    + intros [Hpos ->]. exists (s, u64 (with_status rows s)). split; [done|].
      apply (ranges_elem _ _ _ _ Ho). rewrite Hs. destruct (Z.ltb_spec 0 (with_status rows s)); [done|lia].
Qed.

(** The last identity that has a flip. *)
Definition author_of c (l : list (Address * Identity)) : string :=
  foldl (λ acc i, if decide (c ∈ flip_cids (id_Flips i.2)) then address_Hex i.1 else acc) EmptyString l.

(** The author of a flip of the epoch is the last identity of the state before the
    block that has it among its flips, and nobody when there is none; of the rows with
    one cid this holds of the last one. *)
Theorem flip_authors e v killed :
  validation_ok e v →
  ∃ r killed', detectEpochResult e killed = Done (Some r, killed') ∧
  ∀ j f, ep_FlipStats r !! j = Some f →
    (∀ k f', j < k → ep_FlipStats r !! k = Some f' → fsr_Cid f' ≠ fsr_Cid f) →
    fsr_Author f = author_of (fsr_Cid f) (identities_of e).
Proof.
  intros Hok. destruct (detectEpochResult_done e v killed Hok)
    as (er & st1 & st & -> & Hf & Hi). eexists _, _. split; [reflexivity|].
  cbn [ep_FlipStats epoch_result]. intros j f Hj Hlast.
  pose proof (id_flips _ _ _ _ _ Hi) as Hfl. pose proof (fd_index _ _ _ Hf) as Hix.
  assert (∀ k m l r, fsr_Cid (foldl (author_step m k) r l) = fsr_Cid r) as Hcid.
  { intros k m l. induction l as [|i l IH]; intros r; [done|]. cbn [foldl]. rewrite IH.
    unfold author_step, set_author. by case_match. }
  rewrite Hfl in Hj. destruct (er_flipsStats st1 !! j) as [r0|] eqn:Hr0; [|done].
  cbn in Hj. injection Hj as <-. rewrite Hcid in *.
  assert (er_flipsStatsByCid st1 !! fsr_Cid r0 = Some j) as Hpos.
  { apply Hix. split; [by exists r0|]. intros k r' Hk Hr' Heq.
    eapply (Hlast k); [done|rewrite Hfl, Hr'; reflexivity|]. by rewrite Hcid. }
  assert (fsr_Author r0 = EmptyString) as Ha.
  { rewrite (fd_rows _ _ _ Hf) in Hr0. apply list_elem_of_lookup_2, list_elem_of_omap in Hr0 as (x & _ & Hx).
    unfold flip_record in Hx. destruct (at_index _ _); cbn in Hx; [|done].
    destruct (cid_Parse _); cbn in Hx; [|done]. by simplify_eq. }
  assert (∀ cids, hits (er_flipsStatsByCid st1) cids j = bool_decide (fsr_Cid r0 ∈ cids)) as Hh.
  { intros cids. apply eq_bool_prop_intro. rewrite bool_decide_spec. unfold hits. split.
    - intros Hx%Is_true_true. apply existsb_exists in Hx as (c & Hc%list_elem_of_In & Hb).
      apply bool_decide_eq_true in Hb. apply Hix in Hb as [(r1 & Hr1 & <-) _]. congruence.
    - intros Hc. apply Is_true_true, existsb_exists. exists (fsr_Cid r0).
      split; [by apply list_elem_of_In|by apply bool_decide_eq_true]. }
  unfold author_of. rewrite <- Ha. clear Hfl Hlast. revert r0 Hr0 Hpos Ha Hh.
  enough (∀ r1 r0, (∀ cids, hits (er_flipsStatsByCid st1) cids j = bool_decide (fsr_Cid r0 ∈ cids)) →
    fsr_Author (foldl (author_step (er_flipsStatsByCid st1) j) r1 (identities_of e))
    = foldl (λ acc i, if decide (fsr_Cid r0 ∈ flip_cids (id_Flips i.2)) then address_Hex i.1 else acc)
        (fsr_Author r1) (identities_of e)) as E by (intros; by apply E).
  intros r1 r0 Hh. generalize (identities_of e) as l. intros l. revert r1.
  induction l as [|i l IH]; intros r1; [done|]. cbn [foldl]. rewrite IH. f_equal.
  unfold author_step, set_author. rewrite Hh. case_bool_decide; case_decide; done.
Qed.
End result.

(** ** An evaluated epoch

    Two identities: the first is killed and leaves its pool, the second stays; a third
    address is rewarded.  The shard has a reported flip of the first identity. *)

#[export] Instance SampleEpochApi : EpochApi := {|
  GetRequiredFlips _ _ := 3%Z; GetMadeFlips _ _ := 1%Z; GetInvites _ _ := 0%Z;
  GetScores _ _ := []; GetShortFlipPoints _ _ := 0%Z; GetQualifiedFlipsCount _ _ := 0%Z;
  GodAddress _ := mkAddress 7;
  CalculateIdentityScores scores p n := ((sumZ id scores + p)%Z, (Z.of_nat (length scores) + n)%Z);
  EncodeScore p n := (p + n)%Z; LastScoresCount := 2; Float32_zero := 0%Z;
  GetPublicFlipKey _ := None
|}.

Definition sample_author : Identity :=
  sample_identity <| id_State := Human |> <| id_Flips := [mkIdentityFlip [5%Z] 0] |>
    <| id_Delegatee := Some (mkAddressPtr 1 (mkAddress 9)) |>.
Definition sample_newbie : Identity := sample_identity <| id_State := Newbie |>.

Definition sample_prev : AppState :=
  sample_state <| IterateOverIdentities := [(mkAddress 1, sample_author); (mkAddress 2, sample_newbie)] |>.
Definition sample_new : AppState :=
  sample_state <| GetIdentity := λ a,
    if decide (a = mkAddress 1) then sample_identity <| id_State := Killed |>
    else if decide (a = mkAddress 2) then sample_newbie else sample_identity |>.

Definition sample_shard : ValidationShardStats :=
  mkValidationShardStats _ [[5%Z]]
    {[0%Z := mkFlipStats _ [] [mkFlipAnswerStats _ (mkAddress 2) 1 0%Z 1 0 true] 2 1 1 0%Z]}
    {[mkAddress 2 := mkIdentityStats _ 1%Z 1 1%Z 1 [0%Z] [0%Z] true false]} ∅.
Definition sample_validation : ValidationStats :=
  mkValidationStats _ (Some {[1%Z := sample_shard]}) false.

Definition sample_env : EpochEnv :=
  {| ee_block := (sample_block 10 10 9) <| b_Flags := [ValidationFinished] |>;
     ee_prevState := sample_prev; ee_newState := sample_new;
     ee_rewards := mkRw _ ∅ (Some (emptyRewardsStats
       <| Rewards := [mkRewardStats (mkAddress 3) 1 1 Validation] |>)) ∅ (Some sample_validation) true;
     ee_MinScoreForInvite := None; ee_EnableUpgrade10 := true; ee_EnableUpgrade11 := true;
     ee_secondaryKeys _ := None;
     ee_reward_orders := mkRewardOrders map_to_list map_to_list map_to_list map_to_list map_to_list
       map_to_list map_to_list;
     ee_shard_order := map_to_list; ee_flip_order := map_to_list; ee_identity_order := map_to_list;
     ee_address_order := elements; ee_status_order := map_to_list; ee_bounds_order := map_to_list |}.

Lemma sample_validation_ok : validation_ok sample_env sample_validation.
Proof.
  split; try done; try (intros; apply ranges_canonical).
  apply map_Forall_singleton. split; cbn.
  - apply map_Forall_singleton. cbn. lia.
  - apply map_Forall_singleton. split; repeat constructor; lia.
Qed.

Lemma epoch_identities_witness :
  ∃ r killed', detectEpochResult sample_env ∅ = Done (Some r, killed') ∧
  (λ row, (ei_Address row, ei_State row)) <$> ep_Identities r ≡ₚ
  ((λ a, (address_Hex a, convertIdentityState
            (if decide (a ∈ (identities_of sample_env).*1) then GetIdentityState (ee_newState sample_env) a
             else Undefined)))
   <$> elements (list_to_set (identities_of sample_env).*1 ∪ rewarded_addresses sample_env : gset Address)).
Proof.
  apply (epoch_identities sample_env sample_validation ∅ sample_validation_ok).
  apply (bool_decide_unpack _). by vm_compute.
Defined.

Lemma killed_by_failed_validation_witness :
  ∃ r killed', detectEpochResult sample_env ∅ = Done (Some r, killed') ∧
  ∀ a, killed' !! a =
    if decide (Exists (λ i, i.1 = a ∧ killed_by_validation sample_env i = true) (identities_of sample_env))
    then Some (mkKilledInfo killedReasonValidationFailure None)
    else (∅ : gmap Address killedInfo) !! a.
Proof. apply (killed_by_failed_validation sample_env sample_validation ∅ sample_validation_ok). Defined.

Lemma pool_size_changes_witness :
  ∃ r killed', detectEpochResult sample_env ∅ = Done (Some r, killed') ∧
  NoDup (psc_Address <$> ep_PoolSizeChanges r) ∧
  ∀ d c, c ∈ ep_PoolSizeChanges r ∧ psc_Address c = d ↔
    (0 < delegators_before d (identities_of sample_env)
     ∨ 0 < delegators_after sample_env d (identities_of sample_env))%Z ∧
    c = pool_change sample_env d (delegators_before d (identities_of sample_env))
          (delegators_after sample_env d (identities_of sample_env)).
Proof. apply (pool_size_changes sample_env sample_validation ∅ sample_validation_ok). Defined.

Lemma flips_counted_witness :
  ∃ r killed', detectEpochResult sample_env ∅ = Done (Some r, killed') ∧
  let rows := omap flip_record (visited_flips sample_env sample_validation) in
  (λ f, f <| fsr_Author := EmptyString |>) <$> ep_FlipStats r = rows ∧
  ep_ReportedFlips r
  = u32 (Z.of_nat (length (filter is_reported (visited_flips sample_env sample_validation)))) ∧
  NoDup (fsc_Status <$> ep_FlipStatuses r) ∧
  ∀ c, c ∈ ep_FlipStatuses r ↔
       (0 < with_status rows (fsc_Status c))%Z ∧ fsc_Count c = u64 (with_status rows (fsc_Status c)).
Proof. apply (flips_counted sample_env sample_validation ∅ sample_validation_ok). Defined.

Lemma flip_authors_witness :
  ∃ r killed', detectEpochResult sample_env ∅ = Done (Some r, killed') ∧
  ∀ j f, ep_FlipStats r !! j = Some f →
    (∀ k f', j < k → ep_FlipStats r !! k = Some f' → fsr_Cid f' ≠ fsr_Cid f) →
    fsr_Author f = author_of (fsr_Cid f) (identities_of sample_env).
Proof. apply (flip_authors sample_env sample_validation ∅ sample_validation_ok). Defined.

(** The rows of the sample: the pool 9 loses its delegator, the flip is the author's. *)
Example sample_epoch :
  match detectEpochResult sample_env ∅ with
  | Done (Some r, killed') =>
      ei_State <$> ep_Identities r = [5; 7; 0]%Z ∧
      (λ c, (psc_Address c, ps_TotalDelegated (psc_Old c), ps_TotalDelegated (psc_New c)))
        <$> ep_PoolSizeChanges r = [(mkAddress 9, 1, 0)]%Z ∧
      fsr_Author <$> ep_FlipStats r = ["0x1"]%string ∧ ep_ReportedFlips r = 1%Z ∧
      elements (dom killed') = [mkAddress 1]
  | _ => False
  end.
Proof. by vm_compute. Qed.
