(* ===== verification/Upgrades.v ===== *)
(** * The votes for the upgrades of the consensus

    core/holder/upgrade/voting.go counts the votes the node holds;
    indexer/upgrade_voting.go selects those of the votings that are active, with every
    block, and keeps a short history of each voting in the database: a sample of the
    items of its full history.  The positions of the sample are computed with [float32]
    and [float64] numbers, which are rationals here, every operation rounded to the
    precision of its type, to the nearest and ties to even, as the language does. *)

From Stdlib Require Import QArith Qround Lqa.
From S2P Require Import Prelude Node EpochTypes.

(** ** Numbers with a binary point *)

(** The closest number with [p] binary digits to the fraction [a / b]. *)
Definition div_ne (a b : Z) : Z :=
  (let q := a / b in
   let r := a mod b in
   if 2 * r <? b then q else if b <? 2 * r then q + 1 else if Z.even q then q else q + 1)%Z.

(** [a / b] times [2 ^ s], as a fraction. *)
Definition scaled (a b s : Z) : Z * Z := (a * 2 ^ Z.max s 0, b * 2 ^ Z.max (- s) 0)%Z.

(** The power of two that gives [a / b] exactly [p] digits before the point. *)
Definition scale_of (p a b : Z) : Z :=
  (let s := p - 1 - (Z.log2 a - Z.log2 b) in
   if fst (scaled a b s) <? 2 ^ (p - 1) * snd (scaled a b s) then s + 1 else s)%Z.

Definition round_to (p : Z) (q : Q) : Q :=
  let a := Qnum q in
  let b := Zpos (Qden q) in
  if (a <=? 0)%Z then inject_Z 0 else
  let s := scale_of p a b in
  let ab := scaled a b s in
  Qmake (div_ne ab.1 ab.2 * 2 ^ Z.max (- s) 0) (Z.to_pos (2 ^ Z.max s 0)).

(** [float32(n)], [float32(n) / float32(k)], [float64(n)], [x * y], [math.Round], for
    numbers that are not negative and in the range of the type. *)
Definition float32_of (n : Z) : Q := round_to 24 (inject_Z n).
Definition float32_div (x y : Q) : Q := round_to 24 (x / y).
Definition float64_of (n : Z) : Q := round_to 53 (inject_Z n).
Definition float64_mul (x y : Q) : Q := round_to 53 (x * y).
Definition math_Round (x : Q) : Z := Qfloor (x + (1 # 2)).

(** ** Operations *)

(** Go: core/holder/upgrade/voting.go Votes *)
Record Votes := mkVotes { vt_Upgrade : Z; vt_Votes : Z }.

(** [config.ConsensusConf] of idena-go, reduced to what is read *)
Record ConsensusConf := mkConsensusConf { StartActivationDate : Z; EndActivationDate : Z }.

Section operations.

(** Go: core/holder/upgrade/voting.go update

    [votes]: the upgrades that are voted for, a vote each, and [order] the order in
    which the map of the counters is ranged over. *)
Definition update (votes : list Z) (order : gmap Z Z → list (Z * Z)) : list Votes :=
  match votes with
  | [] => []
  | _ => (λ uv, mkVotes uv.1 uv.2)
         <$> order (foldl (λ m u, <[u := u64 (default 0%Z (m !! u) + 1)]> m) ∅ votes)
  end.

(** Go: indexer/upgrade_voting.go detectActiveUpgradeVotings

    The configurations in the order they are ranged over. *)
Definition detectActiveUpgradeVotings (consensusVersionConfigs : list (Z * ConsensusConf))
    (timestamp : Z) : gset Z :=
  foldl (λ res c,
    if ((timestamp <? StartActivationDate c.2) || (EndActivationDate c.2 <? timestamp))%Z
    then res else {[c.1]} ∪ res) ∅ consensusVersionConfigs.

(** Go: indexer/upgrade_voting.go detectUpgradeVotes

    [versions]: [config.ConsensusVersions]; [ConsensusVerson] is the conversion to the
    type of its keys. *)
Definition detectUpgradeVotes (upgradesVotes : list Votes) (currentConsensusVersion : Z)
    (versions : list (Z * ConsensusConf)) (ConsensusVerson : Z → Z) (now : Z) : list UpgradeVotes :=
  let activeVotings := detectActiveUpgradeVotings versions now in
  if decide (activeVotings = ∅) then [] else
  foldl (λ res v,
    if (vt_Upgrade v <=? u32 currentConsensusVersion)%Z then res else
    if decide (ConsensusVerson (vt_Upgrade v) ∈ activeVotings)
    then res ++ [mkUpgradeVotes (vt_Upgrade v) (vt_Votes v) now] else res) [] upgradesVotes.

(** Go: indexer/upgrade_voting.go refreshUpgradeVotingHistorySummaries

    A block's votes are queued, or dropped when the queue is full. *)
Definition refreshUpgradeVotingHistorySummaries (capacity : nat)
    (upgradesVotes : list UpgradeVotes) (height : Z) (queue : list (list UpgradeVotes * Z))
    : list (list UpgradeVotes * Z) :=
  if (length queue <? capacity)%nat then queue ++ [(upgradesVotes, height)] else queue.

(** [step], from the lengths of the history and of the summary. *)
Definition history_step (n itemCount : Z) : Q :=
  if (1 <? itemCount)%Z then float32_div (float32_of (n - 1)) (float32_of (itemCount - 1))
  else inject_Z 0.

(** [int(math.Round(float64(i) * float64(step)))] *)
Definition history_index (n itemCount i : Z) : Z :=
  math_Round (float64_mul (float64_of i) (history_step n itemCount)).

(** The loop over the positions of the summary; an index out of range panics. *)
Definition history_summary (upgradeVotes : list UpgradeHistoryItem) (itemCount : nat)
    : outcome (list UpgradeHistoryItem * Z) :=
  let n := Z.of_nat (length upgradeVotes) in
  foldl (λ acc i,
    match acc with
    | Panic => Panic
    | Done (summary, lastStep) =>
        let idx := history_index n (Z.of_nat itemCount) (Z.of_nat i) in
        if (idx <? 0)%Z then Panic else
        match upgradeVotes !! Z.to_nat idx with
        | None => Panic
        | Some item =>
            Done (summary ++ [item],
                  if (Z.of_nat i =? Z.of_nat itemCount - 2)%Z then u32 idx
                  else if (Z.of_nat i =? Z.of_nat itemCount - 1)%Z then u32 (u32 idx - lastStep)
                  else lastStep)
        end
    end) (Done ([], 0%Z)) (seq 0 itemCount).

(** Go: indexer/upgrade_voting.go refreshUpgradeVotingHistorySummary

    The short history that is saved, with its last step, if any; [None] for what the
    database answers is an error.  [itemCount] and [minShift] are not negative. *)
Definition refreshUpgradeVotingHistorySummary (info : option UpgradeVotingShortHistoryInfo)
    (history : option (list UpgradeHistoryItem)) (itemCount : nat) (minShift height : Z)
    : outcome (option (list UpgradeHistoryItem * Z)) :=
  match info with
  | None => Done None
  | Some info =>
      let shift := u64 (height - sh_LastHeight info) in
      if ((sh_HistoryItems info <=? Z.of_nat itemCount) || (shift <? minShift)
          || (shift <? sh_LastStep info))%Z
      then Done None else
      match history with
      | None => Done None
      | Some upgradeVotes =>
          if (length upgradeVotes =? 0)%nat || (length upgradeVotes <=? itemCount)%nat
          then Done None else
          match history_summary upgradeVotes itemCount with
          | Done r => Done (Some r)
          | Panic => Panic
          end
      end
  end.

(** Go: indexer/upgrade_voting.go updateUpgradesInfo

    What is saved of the configurations, in the order they are ranged over. *)
Definition updateUpgradesInfo (versions : list (Z * ConsensusConf)) : list Upgrade :=
  (λ c, mkUpgrade (u32 c.1) (StartActivationDate c.2) (EndActivationDate c.2)) <$> versions.
End operations.

(** ** The votes *)

(** The number of votes for [u]. *)
Definition votes_for (votes : list Z) (u : Z) : Z := Z.of_nat (length (filter (eq u) votes)).

Lemma votes_for_snoc votes x u :
  votes_for (votes ++ [x]) u = (votes_for votes u + if decide (u = x) then 1 else 0)%Z.
Proof.
  unfold votes_for. rewrite list.filter_app, length_app, filter_cons, filter_nil.
  destruct (decide (u = x)); cbn; lia.
Qed.

Lemma votes_for_nonneg votes u : (0 ≤ votes_for votes u)%Z.
Proof. unfold votes_for. lia. Qed.

(** The map of the counters. *)
Lemma vote_counters votes u :
  foldl (λ m u, <[u := u64 (default 0%Z (m !! u) + 1)]> m) (∅ : gmap Z Z) votes !! u
  = if (0 <? votes_for votes u)%Z then Some (u64 (votes_for votes u)) else None.
Proof.
  induction votes as [|x l IH] using rev_ind; [exact (lookup_empty u)|].
  rewrite foldl_snoc, votes_for_snoc. specialize (votes_for_nonneg l u) as Hn.
  destruct (decide (u = x)) as [<-|Hne].
  - rewrite lookup_insert_eq, IH. destruct (Z.ltb_spec 0 (votes_for l u + 1)); [|lia]. f_equal.
    destruct (Z.ltb_spec 0 (votes_for l u)); cbn [from_option id].
    + unfold uwrap. by rewrite Zplus_mod_idemp_l.
    + by replace (votes_for l u) with 0%Z by lia.
  - rewrite lookup_insert_ne, IH by done. by rewrite Z.add_0_r.
Qed.

(** The holder keeps one counter for every upgrade that is voted for and no other,
    and it counts the votes for it. *)
Theorem votes_are_counted votes order :
  (∀ m, ranges m (order m)) →
  NoDup (vt_Upgrade <$> update votes order) ∧
  ∀ c, c ∈ update votes order ↔ vt_Upgrade c ∈ votes ∧ vt_Votes c = u64 (votes_for votes (vt_Upgrade c)).
Proof.
  intros Ho. assert (update votes order = (λ uv, mkVotes uv.1 uv.2) <$>
    order (foldl (λ m u, <[u := u64 (default 0%Z (m !! u) + 1)]> m) (∅ : gmap Z Z) votes)) as ->.
  { destruct votes as [|x l]; [|done]. cbn. specialize (Ho ∅). unfold ranges in Ho.
    rewrite map_to_list_empty in Ho. by apply Permutation_nil_r in Ho as ->. }
  specialize (Ho (foldl (λ m u, <[u := u64 (default 0%Z (m !! u) + 1)]> m) (∅ : gmap Z Z) votes)).
  set (m := foldl _ _ _) in *. split.
  - rewrite <- list_fmap_compose. eapply eq_ind; [exact (ranges_NoDup _ _ Ho)|].
    apply list_fmap_ext. by intros ? [] ?.
  - intros [u n]. cbn [vt_Upgrade vt_Votes]. rewrite list_elem_of_fmap.
    assert (u ∈ votes ↔ (0 < votes_for votes u)%Z) as Hin.
    { unfold votes_for. split.
      - intros Hu. destruct (filter (eq u) votes) eqn:E; [|cbn; lia]. exfalso.
        apply (not_elem_of_nil u). rewrite <- E. by apply list_elem_of_filter.
      - intros Hl. destruct (filter (eq u) votes) as [|y k] eqn:E; [cbn in Hl; lia|].
        assert (y ∈ filter (eq u) votes) as [-> Hy]%list_elem_of_filter by (rewrite E; left). done. }
    rewrite Hin. split.
    + intros ([u' n'] & [= -> ->] & Hm). apply (ranges_elem _ _ _ _ Ho) in Hm. subst m.
      rewrite vote_counters in Hm. destruct (Z.ltb_spec 0 (votes_for votes u')); [|done].
      split; [done|congruence].
    + intros [Hpos ->]. exists (u, u64 (votes_for votes u)). split; [done|].
      apply (ranges_elem _ _ _ _ Ho). subst m. rewrite vote_counters.
      destruct (Z.ltb_spec 0 (votes_for votes u)); [done|lia].
Qed.

Definition active (c : ConsensusConf) (now : Z) : bool :=
  ((StartActivationDate c <=? now) && (now <=? EndActivationDate c))%Z.

Lemma active_votings_elem versions now u :
  u ∈ detectActiveUpgradeVotings versions now ↔ ∃ c, (u, c) ∈ versions ∧ active c now = true.
Proof.
  unfold detectActiveUpgradeVotings. induction versions as [|[w c] l IH] using rev_ind.
  { cbn. split; [set_solver|]. intros (c & Hc & _). by apply not_elem_of_nil in Hc. }
  rewrite foldl_snoc. cbn [fst snd].
  assert (((now <? StartActivationDate c) || (EndActivationDate c <? now))%Z = negb (active c now)) as ->.
  { unfold active. by rewrite !Z.leb_antisym, negb_andb, !negb_involutive. }
  destruct (active c now) eqn:Ha; cbn [negb].
  - rewrite elem_of_union, elem_of_singleton, IH. split.
    + intros [->|(c' & Hc & ?)]; [exists c; split; [apply elem_of_app; right; left|done]|].
      exists c'. split; [apply elem_of_app; by left|done].
    + intros (c' & [Hc|Hc]%elem_of_app & ?); [right; by exists c'|].
      apply list_elem_of_singleton in Hc. left. congruence.
  - rewrite IH. split; intros (c' & Hc & Ha'); exists c'; (split; [|done]).
    + apply elem_of_app. by left.
    + apply elem_of_app in Hc as [Hc|Hc%list_elem_of_singleton]; [done|congruence].
Qed.

Definition votes_of (now : Z) (v : Votes) : UpgradeVotes := mkUpgradeVotes (vt_Upgrade v) (vt_Votes v) now.

(** The votes saved with a block are those for the upgrades after the current
    version whose voting is active, in the order of the holder, with the time. *)
Theorem active_votes_are_saved votes current versions conv now :
  detectUpgradeVotes votes current versions conv now
  = votes_of now <$> filter (λ v, (u32 current < vt_Upgrade v)%Z ∧
      Exists (λ c, c.1 = conv (vt_Upgrade v) ∧ active c.2 now = true) versions) votes.
Proof.
  unfold detectUpgradeVotes. set (A := detectActiveUpgradeVotings versions now).
  assert (∀ u, u ∈ A ↔ Exists (λ c, c.1 = u ∧ active c.2 now = true) versions) as HA.
  { intros u. subst A. rewrite active_votings_elem, list.Exists_exists. split.
    - intros (c & Hc & ?). by exists (u, c).
    - intros ([u' c] & Hc & [= ->] & ?). by exists c. }
  destruct (decide (A = ∅)) as [HE|_].
  - symmetry. induction votes as [|v l IH]; [done|].
    rewrite filter_cons, decide_False; [done|]. rewrite <- HA, HE. set_solver.
  - induction votes as [|v l IH] using rev_ind; [done|].
    rewrite foldl_snoc, IH, list.filter_app, fmap_app, filter_cons, filter_nil.
    destruct (Z.leb_spec (vt_Upgrade v) (u32 current)).
    + rewrite decide_False by lia. by rewrite app_nil_r.
    + destruct (decide (conv (vt_Upgrade v) ∈ A)) as [Hin|Hin]; rewrite HA in Hin.
      * by rewrite decide_True.
      * rewrite decide_False by tauto. by rewrite app_nil_r.
Qed.

(** ** Rounding *)

Open Scope Q_scope.

Lemma div_ne_error a b : (0 < b → 2 * Z.abs (div_ne a b * b - a) ≤ b)%Z.
Proof.
  intros Hb. unfold div_ne. pose proof (Z.div_mod a b ltac:(lia)) as Hd.
  pose proof (Z.mod_pos_bound a b Hb) as Hm. set (q := (a / b)%Z) in *. set (r := (a mod b)%Z) in *.
  destruct (Z.ltb_spec (2 * r) b); [nia|]. destruct (Z.ltb_spec b (2 * r)); [nia|].
  destruct (Z.even q); nia.
Qed.

Lemma scale_parts s : (Z.max s 0 - Z.max (- s) 0 = s)%Z.
Proof. lia. Qed.

(** With its scale, a fraction has at least [p] digits before the point. *)
Lemma scale_of_spec p a b : (0 < p → 0 < a → 0 < b →
  let ab := scaled a b (scale_of p a b) in 2 ^ (p - 1) * ab.2 ≤ ab.1 ∧ 0 < ab.2)%Z.
Proof.
  intros Hp Ha Hb. cbn zeta.
  assert (∀ s, 0 < snd (scaled a b s))%Z as Hpos.
  { intros s. cbn. apply Z.mul_pos_pos; [lia|]. apply Z.pow_pos_nonneg; lia. }
  split; [|apply Hpos]. unfold scale_of. set (s := (p - 1 - (Z.log2 a - Z.log2 b))%Z).
  destruct (Z.ltb_spec (fst (scaled a b s)) (2 ^ (p - 1) * snd (scaled a b s))); [|done].
  cbn [scaled fst snd]. destruct (Z.log2_spec a Ha) as [La _]. destruct (Z.log2_spec b Hb) as [_ Lb].
  rewrite <- Z.add_1_r in Lb. pose proof (Z.log2_nonneg a). pose proof (Z.log2_nonneg b).
  set (sp := Z.max (s + 1) 0). set (sn := Z.max (- (s + 1)) 0).
  assert (2 ^ (p - 1) * (2 ^ (Z.log2 b + 1) * 2 ^ sn) = 2 ^ Z.log2 a * 2 ^ sp)%Z as E.
  { subst sp sn. rewrite <- !Z.pow_add_r by lia. f_equal. lia. }
  pose proof (Z.pow_pos_nonneg 2 sp ltac:(lia) ltac:(lia)).
  pose proof (Z.pow_pos_nonneg 2 sn ltac:(lia) ltac:(lia)).
  pose proof (Z.pow_pos_nonneg 2 (p - 1) ltac:(lia) ltac:(lia)).
  transitivity (2 ^ (p - 1) * (2 ^ (Z.log2 b + 1) * 2 ^ sn))%Z; [|rewrite E].
  - apply Z.mul_le_mono_nonneg_l; [lia|]. apply Z.mul_le_mono_nonneg_r; lia.
  - apply Z.mul_le_mono_nonneg_r; lia.
Qed.

(** A number and its rounding differ by at most a part in [2 ^ p]. *)
Lemma round_to_error p q : (0 < p)%Z → 0 <= q →
  q - q * (1 # Z.to_pos (2 ^ p)) <= round_to p q ∧ round_to p q <= q + q * (1 # Z.to_pos (2 ^ p)).
Proof.
  intros Hp Hq. destruct q as [a b]. unfold round_to. cbn [Qnum Qden].
  unfold Qle in Hq. cbn in Hq. destruct (Z.leb_spec a 0) as [Hle|Ha].
  { assert (a = 0%Z) as -> by lia. unfold Qle. cbn. split; lia. }
  destruct (scale_of_spec p a (Zpos b) Hp Ha ltac:(lia)) as [Hs Hpos].
  set (s := scale_of p a (Z.pos b)) in *. set (A := (scaled a (Z.pos b) s).1) in *.
  set (B := (scaled a (Z.pos b) s).2) in *. pose proof (div_ne_error A B Hpos) as He.
  set (m := div_ne A B) in *.
  assert (A = a * 2 ^ Z.max s 0)%Z as EA by done. assert (B = Z.pos b * 2 ^ Z.max (- s) 0)%Z as EB by done.
  pose proof (Z.pow_pos_nonneg 2 (Z.max s 0) ltac:(lia) ltac:(lia)) as P1.
  pose proof (Z.pow_pos_nonneg 2 (Z.max (- s) 0) ltac:(lia) ltac:(lia)) as P2.
  pose proof (Z.pow_pos_nonneg 2 (p - 1) ltac:(lia) ltac:(lia)) as P3.
  pose proof (Z.pow_pos_nonneg 2 p ltac:(lia) ltac:(lia)) as P4.
  assert (2 ^ p = 2 * 2 ^ (p - 1))%Z as EP by (rewrite <- Z.pow_succ_r by lia; f_equal; lia).
  (* m B is within B / 2 of A, and B 2 ^ p is at most 2 A *)
  assert (Z.abs (m * B - A) * 2 ^ p ≤ A)%Z as Hrel by nia.
  clearbody m. clear He Hs.
  unfold Qle, Qminus, Qplus, Qmult, Qopp. cbn [Qnum Qden].
  rewrite !Pos2Z.inj_mul, !Z2Pos.id by lia.
  set (x := (2 ^ Z.max s 0)%Z) in *. set (y := (2 ^ Z.max (- s) 0)%Z) in *. set (z := (2 ^ p)%Z) in *.
  assert (Z.abs (m * y * Z.pos b - a * x) * z ≤ a * x)%Z as Hr by (rewrite EA, EB in Hrel; nia).
  clear Hrel EA EB EP. clearbody x y z.
  assert ((m * y * Z.pos b - a * x) * z ≤ a * x ∧ (a * x - m * y * Z.pos b) * z ≤ a * x)%Z as [H1 H2] by nia.
  apply (Z.mul_le_mono_nonneg_r _ _ (Z.pos b)) in H1; [|lia].
  apply (Z.mul_le_mono_nonneg_r _ _ (Z.pos b)) in H2; [|lia].
  split; lia.
Qed.

(** An integer of at most [p] digits is not rounded. *)
Lemma round_to_int p n : (0 < p)%Z → (0 ≤ n < 2 ^ p)%Z → round_to p (inject_Z n) == inject_Z n.
Proof.
  intros Hp [Hn Hlt]. unfold round_to. cbn [Qnum Qden inject_Z].
  destruct (Z.leb_spec n 0); [by replace n with 0%Z by lia|].
  assert (Z.log2 n < p)%Z as Hl by (apply Z.log2_lt_pow2; lia). pose proof (Z.log2_nonneg n) as H0.
  destruct (Z.log2_spec n ltac:(lia)) as [La _].
  assert (scale_of p n 1 = p - 1 - Z.log2 n)%Z as Es.
  { unfold scale_of. change (Z.log2 1) with 0%Z. rewrite Z.sub_0_r.
    destruct (Z.ltb_spec (fst (scaled n 1 (p - 1 - Z.log2 n)))
      (2 ^ (p - 1) * snd (scaled n 1 (p - 1 - Z.log2 n)))) as [Hc|]; [|done].
    exfalso. cbn [scaled fst snd] in Hc. rewrite Z.max_l, Z.max_r in Hc by lia.
    rewrite Z.mul_1_l, Z.mul_1_r in Hc.
    assert (2 ^ (p - 1) = 2 ^ Z.log2 n * 2 ^ (p - 1 - Z.log2 n))%Z as E
      by (rewrite <- Z.pow_add_r by lia; f_equal; lia).
    pose proof (Z.pow_pos_nonneg 2 (p - 1 - Z.log2 n) ltac:(lia) ltac:(lia)). nia. }
  rewrite Es. cbn [scaled fst snd]. rewrite Z.max_l, Z.max_r by lia.
  pose proof (Z.pow_pos_nonneg 2 (p - 1 - Z.log2 n) ltac:(lia) ltac:(lia)).
  assert (∀ a, div_ne a (1 * 2 ^ 0) = a) as Ed.
  { intros a. unfold div_ne. change (1 * 2 ^ 0)%Z with 1%Z. by rewrite Z.div_1_r, Z.mod_1_r. }
  rewrite Ed. unfold Qeq. cbn [Qnum Qden]. rewrite Z2Pos.id by lia. rewrite Z.pow_0_r. cbn [Qnum Qden inject_Z]. lia.
Qed.

(** ** The sample of a history *)

Section history.
Context (n k : Z) (Hk : (1 < k < n)%Z) (Hn : (n ≤ 2 ^ 21)%Z).

(** The exact position of the item [i] of the summary. *)
Definition exact_position (i : Z) : Q := inject_Z i * (inject_Z (n - 1) / inject_Z (k - 1)).

Lemma ratio_bounds : 1 < inject_Z (n - 1) / inject_Z (k - 1) ∧
  inject_Z (k - 1) * (inject_Z (n - 1) / inject_Z (k - 1)) == inject_Z (n - 1).
Proof.
  assert (0 < inject_Z (k - 1)) as Hpos by (unfold Qlt; cbn; lia).
  split; [|by apply Qmult_div_r; intros E; rewrite E in Hpos].
  apply Qlt_shift_div_l; [done|]. rewrite Qmult_1_l. rewrite <- Zlt_Qlt. lia.
Qed.

Lemma position_close i : (0 ≤ i ≤ k - 1)%Z →
  exact_position i - (1 # 4) <= float64_mul (float64_of i) (history_step n k) ∧
  float64_mul (float64_of i) (history_step n k) <= exact_position i + (1 # 4).
Proof.
  intros Hi. destruct ratio_bounds as [Hr Hrk]. unfold exact_position, history_step.
  set (r := inject_Z (n - 1) / inject_Z (k - 1)) in *.
  destruct (Z.ltb_spec 1 k); [|lia].
  assert (float32_of (n - 1) / float32_of (k - 1) == r) as Eq.
  { unfold float32_of. rewrite !round_to_int by lia. done. }
  set (q := float32_of (n - 1) / float32_of (k - 1)) in *. unfold float32_div. fold q.
  destruct (round_to_error 24 q) as [Hs1 Hs2]; [lia|rewrite Eq; lra|].
  change (Z.to_pos (2 ^ 24)) with 16777216%positive in *.
  set (step := round_to 24 q) in *. clearbody step. rewrite Eq in Hs1, Hs2. clear Eq. unfold float64_mul.
  assert (float64_of i == inject_Z i) as Ei by (unfold float64_of; apply round_to_int; lia).
  assert (0 <= inject_Z i) as H0 by (unfold Qle; cbn; lia).
  assert (inject_Z i <= inject_Z (k - 1)) as H1 by (rewrite <- Zle_Qle; lia).
  assert (inject_Z (n - 1) <= 2097152) as H2.
  { change 2097152 with (inject_Z 2097152). rewrite <- Zle_Qle. change (2 ^ 21)%Z with 2097152%Z in Hn. lia. }
  set (x := inject_Z i) in *. set (t := x * r).
  assert (t <= inject_Z (n - 1)) as Ht by (rewrite <- Hrk; subst t; apply Qmult_le_compat_r; lra).
  assert (0 <= t) as Ht0 by (subst t; apply Qmult_le_0_compat; lra).
  assert (t - t * (1 # 16777216) <= x * step) as Hw1.
  { assert (t - t * (1 # 16777216) == x * (r - r * (1 # 16777216))) as -> by (subst t; ring).
    rewrite !(Qmult_comm x). by apply Qmult_le_compat_r. }
  assert (x * step <= t + t * (1 # 16777216)) as Hw2.
  { assert (t + t * (1 # 16777216) == x * (r + r * (1 # 16777216))) as -> by (subst t; ring).
    rewrite !(Qmult_comm x). by apply Qmult_le_compat_r. }
  assert (float64_of i * step == x * step) as Ew by (by rewrite Ei).
  destruct (round_to_error 53 (float64_of i * step)) as [Hv1 Hv2]; [lia|rewrite Ew; lra|].
  change (Z.to_pos (2 ^ 53)) with 9007199254740992%positive in *.
  set (v := round_to 53 _) in *. clearbody v. rewrite Ew in Hv1, Hv2.
  set (w := x * step) in *. clearbody w t. lra.
Qed.

Lemma index_close i : (0 ≤ i ≤ k - 1)%Z →
  exact_position i - (3 # 4) < inject_Z (history_index n k i) ∧
  inject_Z (history_index n k i) <= exact_position i + (3 # 4).
Proof.
  intros Hi. destruct (position_close i Hi) as [H1 H2]. unfold history_index, math_Round.
  set (x := float64_mul _ _) in *. pose proof (Qfloor_le (x + (1 # 2))).
  pose proof (Qlt_floor (x + (1 # 2))) as Hl. rewrite inject_Z_plus in Hl. change (inject_Z 1) with 1 in Hl.
  split; lra.
Qed.

Lemma exact_position_0 : exact_position 0 == 0.
Proof. unfold exact_position. change (inject_Z 0) with 0. ring. Qed.
Lemma exact_position_last : exact_position (k - 1) == inject_Z (n - 1).
Proof. apply ratio_bounds. Qed.

Lemma exact_position_bounds i : (0 ≤ i ≤ k - 1)%Z → 0 <= exact_position i ∧ exact_position i <= inject_Z (n - 1).
Proof.
  intros Hi. destruct ratio_bounds as [Hr Hrk]. unfold exact_position. set (r := _ / _) in *.
  assert (0 <= inject_Z i) by (unfold Qle; cbn; lia). split.
  - apply Qmult_le_0_compat; lra.
  - rewrite <- Hrk. apply Qmult_le_compat_r; [|lra]. rewrite <- Zle_Qle. lia.
Qed.

(** The positions are in the history, from its first item to its last, in order. *)
Lemma index_range i : (0 ≤ i ≤ k - 1)%Z → (0 ≤ history_index n k i ≤ n - 1)%Z.
Proof.
  intros Hi. destruct (index_close i Hi), (exact_position_bounds i Hi). split.
  - apply Z.lt_pred_le. rewrite Zlt_Qlt. change (inject_Z (Z.pred 0)) with (-1). lra.
  - apply Z.lt_succ_r. rewrite Zlt_Qlt. unfold Z.succ. rewrite inject_Z_plus. change (inject_Z 1) with 1. lra.
Qed.

Lemma index_first : history_index n k 0 = 0%Z.
Proof.
  pose proof (index_range 0 ltac:(lia)). destruct (index_close 0 ltac:(lia)) as [_ Hc].
  rewrite exact_position_0 in Hc. assert (history_index n k 0 < 1)%Z; [|lia].
  rewrite Zlt_Qlt. change (inject_Z 1) with 1. lra.
Qed.

Lemma index_last : history_index n k (k - 1) = (n - 1)%Z.
Proof.
  pose proof (index_range (k - 1) ltac:(lia)). destruct (index_close (k - 1) ltac:(lia)) as [Hc _].
  rewrite exact_position_last in Hc. assert (n - 1 < history_index n k (k - 1) + 1)%Z; [|lia].
  rewrite Zlt_Qlt, !inject_Z_plus. change (inject_Z 1) with 1. lra.
Qed.

Lemma index_step i : (0 ≤ i)%Z → (i + 1 ≤ k - 1)%Z → (history_index n k i ≤ history_index n k (i + 1))%Z.
Proof.
  intros H0 H1. destruct (index_close i ltac:(lia)) as [_ Ha]. destruct (index_close (i + 1) ltac:(lia)) as [Hb _].
  destruct ratio_bounds as [Hr _]. unfold exact_position in *. rewrite inject_Z_plus in Hb.
  set (r := _ / _) in *. set (x := inject_Z i) in *. change (inject_Z 1) with 1 in Hb.
  assert ((x + 1) * r == x * r + r) as E by ring. rewrite E in Hb. set (t := x * r) in *. clearbody t r.
  apply Z.lt_succ_r. unfold Z.succ. rewrite Zlt_Qlt, inject_Z_plus. change (inject_Z 1) with 1. lra.
Qed.
End history.

Close Scope Q_scope.

(** The loop, when every position is in the history. *)
Lemma history_summary_spec (votes : list UpgradeHistoryItem) k :
  let n := Z.of_nat (length votes) in
  (1 < Z.of_nat k < n)%Z → (n ≤ 2 ^ 21)%Z →
  ∃ summary, history_summary votes k
    = Done (summary, (n - 1 - history_index n (Z.of_nat k) (Z.of_nat k - 2))%Z) ∧
  length summary = k ∧
  ∀ i, i < k → summary !! i = votes !! Z.to_nat (history_index n (Z.of_nat k) (Z.of_nat i)).
Proof.
  intros n Hk Hn. unfold history_summary. fold n.
  assert (Hwrap : ∀ z, (0 ≤ z ≤ n - 1)%Z → u32 z = z).
  { intros z Hz. apply uwrap_small. change (2 ^ 21)%Z with 2097152%Z in Hn.
    change (2 ^ 32)%Z with 4294967296%Z. lia. }
  match goal with |- context [foldl ?f _ _] => set (step := f) end.
  assert (∀ j, j ≤ k → ∃ summary, foldl step (Done ([], 0%Z)) (seq 0 j)
    = Done (summary,
        if decide (j = k) then (n - 1 - history_index n (Z.of_nat k) (Z.of_nat k - 2))%Z
        else if decide (j = k - 1) then history_index n (Z.of_nat k) (Z.of_nat k - 2) else 0%Z) ∧
    length summary = j ∧
    ∀ i, i < j → summary !! i = votes !! Z.to_nat (history_index n (Z.of_nat k) (Z.of_nat i))) as Hloop.
  { induction j as [|j IH]; intros Hj.
    { exists []. cbn. split; [|split; [done|lia]]. rewrite !decide_False by lia. done. }
    destruct (IH ltac:(lia)) as (s & Hs & Hlen & Hel). rewrite seq_S, foldl_snoc, Hs. cbn [Nat.add].
    pose proof (index_range n (Z.of_nat k) Hk Hn (Z.of_nat j) ltac:(lia)) as Hr.
    destruct (votes !! Z.to_nat (history_index n (Z.of_nat k) (Z.of_nat j))) as [item|] eqn:Hi.
    2:{ apply lookup_ge_None in Hi. lia. }
    exists (s ++ [item]). split; [|split].
    - subst step. cbn beta iota zeta. destruct (Z.ltb_spec (history_index n (Z.of_nat k) (Z.of_nat j)) 0); [lia|].
      rewrite Hi. do 2 f_equal. destruct (Z.eqb_spec (Z.of_nat j) (Z.of_nat k - 2)) as [E|E].
      + rewrite decide_False, decide_True by lia. rewrite E. apply Hwrap. rewrite <- E. lia.
      + destruct (Z.eqb_spec (Z.of_nat j) (Z.of_nat k - 1)) as [E'|E'].
        * rewrite (decide_True (P := S j = k)) by lia. rewrite decide_False, decide_True by lia.
          pose proof (index_range n (Z.of_nat k) Hk Hn (Z.of_nat k - 2) ltac:(lia)) as Hr2.
          rewrite E', index_last, (Hwrap (n - 1)%Z) by lia. apply Hwrap. lia.
        * rewrite !decide_False by lia. done.
    - rewrite length_app. cbn. lia.
    - intros i Hlt. destruct (decide (i = j)) as [->|Hne].
      + rewrite lookup_app_r, Hlen, Nat.sub_diag by lia. by rewrite Hi.
      + rewrite lookup_app_l by lia. apply Hel. lia. }
  destruct (Hloop k ltac:(lia)) as (s & Hs & Hlen & Hel). exists s. split; [|done].
  rewrite Hs. by rewrite decide_True.
Qed.

(** Whether the short history of an upgrade is due. *)
Definition refresh_due (info : UpgradeVotingShortHistoryInfo) (itemCount : nat) (minShift height : Z) : bool :=
  let shift := u64 (height - sh_LastHeight info) in
  ((Z.of_nat itemCount <? sh_HistoryItems info) && (minShift <=? shift) && (sh_LastStep info <=? shift))%Z.

(** A short history that is due is a sample of the history of the votes: it has the
    number of items it should, no position is out of range although the positions are
    computed with rounded numbers, they begin at the first item, end at the last and
    never go back, and the last step is the distance of the last two; a short history
    that is not due is not saved. *)
Theorem short_history_samples info history itemCount minShift height :
  (1 < itemCount < length history)%nat → (Z.of_nat (length history) ≤ 2 ^ 21)%Z →
  if refresh_due info itemCount minShift height then
    ∃ summary (pos : nat → nat),
      refreshUpgradeVotingHistorySummary (Some info) (Some history) itemCount minShift height
      = Done (Some (summary, Z.of_nat (pos (itemCount - 1)%nat) - Z.of_nat (pos (itemCount - 2)%nat))%Z) ∧
      length summary = itemCount ∧ (∀ i, i < itemCount → summary !! i = history !! pos i) ∧
      pos 0 = 0 ∧ pos (itemCount - 1) = length history - 1 ∧
      (∀ i, i + 1 < itemCount → pos i ≤ pos (i + 1))
  else refreshUpgradeVotingHistorySummary (Some info) (Some history) itemCount minShift height = Done None.
Proof.
  intros Hk Hn. unfold refreshUpgradeVotingHistorySummary, refresh_due.
  set (shift := u64 (height - sh_LastHeight info)).
  assert (((sh_HistoryItems info <=? Z.of_nat itemCount) || (shift <? minShift) || (shift <? sh_LastStep info))%Z
    = negb ((Z.of_nat itemCount <? sh_HistoryItems info) && (minShift <=? shift) && (sh_LastStep info <=? shift))%Z) as ->.
  { rewrite !negb_andb, <- Z.leb_antisym, <- !Z.ltb_antisym. done. }
  destruct ((Z.of_nat itemCount <? sh_HistoryItems info) && (minShift <=? shift) && (sh_LastStep info <=? shift))%Z;
    [|done]. cbn [negb].
  assert (((length history =? 0) || (length history <=? itemCount))%nat = false) as ->.
  { apply orb_false_iff. split; [apply Nat.eqb_neq; lia|apply Nat.leb_gt; lia]. }
  set (n := Z.of_nat (length history)). set (k := Z.of_nat itemCount).
  assert (1 < k < n)%Z as Hkn by lia.
  destruct (history_summary_spec history itemCount Hkn Hn) as (summary & -> & Hlen & Hel).
  fold n k in Hel |- *.
  assert (∀ i, (0 ≤ i ≤ k - 1)%Z → (0 ≤ history_index n k i ≤ n - 1)%Z) as Hr
    by (intros; by apply index_range).
  exists summary, (λ i, Z.to_nat (history_index n k (Z.of_nat i))).
  assert (Z.of_nat (itemCount - 1) = k - 1)%Z as Ek1 by lia.
  assert (Z.of_nat (itemCount - 2) = k - 2)%Z as Ek2 by lia.
  split_and!; [|done|exact Hel| | |].
  - rewrite Ek1, Ek2, index_last by done. rewrite !Z2Nat.id; [done| |lia]. apply Hr. lia.
  - by rewrite index_first.
  - rewrite Ek1, index_last by done. lia.
  - intros i Hi. apply Z2Nat.inj_le; [apply Hr; lia|apply Hr; lia|].
    rewrite Nat2Z.inj_add. apply index_step; [done|done|lia|lia].
Qed.

(** ** Evaluated votes *)

Definition sample_versions : list (Z * ConsensusConf) := [(9, mkConsensusConf 10 20); (10, mkConsensusConf 30 40)]%Z.

Example sample_votes :
  detectUpgradeVotes [mkVotes 8 5; mkVotes 9 2; mkVotes 10 1]%Z 8 sample_versions id 15
  = [mkUpgradeVotes 9 2 15].
Proof. reflexivity. Qed.

Lemma votes_are_counted_witness :
  NoDup (vt_Upgrade <$> update [9; 10; 9]%Z map_to_list) ∧
  ∀ c, c ∈ update [9; 10; 9]%Z map_to_list ↔
    vt_Upgrade c ∈ [9; 10; 9]%Z ∧ vt_Votes c = u64 (votes_for [9; 10; 9]%Z (vt_Upgrade c)).
Proof. apply (votes_are_counted [9; 10; 9]%Z map_to_list). intros m. apply ranges_canonical. Defined.

Definition sample_history : list UpgradeHistoryItem :=
  (λ i, mkUpgradeHistoryItem (Z.of_nat i) (Z.of_nat (2 * i))) <$> seq 0 11.

(** Four of eleven items: the positions 0, 3, 7 and 10. *)
Example sample_summary :
  refreshUpgradeVotingHistorySummary (Some (mkShortHistoryInfo 11 2 100)) (Some sample_history) 4 5 200
  = Done (Some ([mkUpgradeHistoryItem 0 0; mkUpgradeHistoryItem 3 6; mkUpgradeHistoryItem 7 14;
                 mkUpgradeHistoryItem 10 20], 3%Z)).
Proof. vm_compute. reflexivity. Qed.

Lemma short_history_samples_witness :
  ∃ summary (pos : nat → nat),
      refreshUpgradeVotingHistorySummary (Some (mkShortHistoryInfo 11 2 100)) (Some sample_history) 4 5 200
      = Done (Some (summary, Z.of_nat (pos (4 - 1)%nat) - Z.of_nat (pos (4 - 2)%nat))%Z) ∧
      length summary = 4 ∧ (∀ i, i < 4 → summary !! i = sample_history !! pos i) ∧
      pos 0 = 0 ∧ pos (4 - 1) = length sample_history - 1 ∧
      (∀ i, i + 1 < 4 → pos i ≤ pos (i + 1)).
Proof.
  apply (short_history_samples (mkShortHistoryInfo 11 2 100) sample_history 4 5 200).
  - vm_compute. lia.
  - vm_compute. by intros [=].
Defined.
