(* ===== verification/BlockData.v ===== *)
(** * The data of a block

    indexer/indexer.go, [convertIncomingData]: what is saved of a block is computed from
    the block, from the states of the node before and after it and from the statistics
    the collector gathered while the node applied it.  The parts are those of the files
    Transactions, EpochResult, Delegation, Upgrades and Balances; this file has the
    block itself, [convertBlock], with its proposer (indexer/proposer.go), the addresses
    of the first block, and the composition of the parts.  The running totals and the
    state of the indexer are in the file IndexLoop. *)

From S2P Require Import Prelude Node ContractTypes Coins Rewards BalanceUpdates ContractTx.
From S2P Require Import ValidationSummary Balances EpochTypes Transactions Delegation.
From S2P Require Import EpochRewards EpochResult Upgrades.

(** ** Data *)

(** The statistics of the collector, [stats.Stats]: those of the transactions, contracts
    and tokens, those of the coins, those of the rewards with the statistics of the
    validation, and the rest. *)
Record BlockStats `{NodeApi} := mkBlockStats {
  bs_tx : TxStats;
  bs_coins : Coins;
  bs_rewards : Rw;
  (** the one slice of the updates, each with the contract it is of, if any *)
  bs_BalanceUpdates : list (BalanceUpdate * option Address);
  bs_BalanceUpdateAddrs : gset Address;
  bs_ChargedPenaltiesByAddr : gmap Address (option Z);
  bs_MinScoreForInvite : option Float32
}.

Section stats.
Context `{NodeApi}.
Definition bs_MintedCoins (s : BlockStats) : option Z := co_MintedCoins (bs_coins s).
Definition bs_BurntCoins (s : BlockStats) : option Z := co_BurntCoins (bs_coins s).
Definition bs_NewActualOracleVotingContracts (s : BlockStats) : list Address :=
  ts_NewActualOracleVotingContracts (bs_tx s).
Definition bs_NewNotActualOracleVotingContracts (s : BlockStats) : list Address :=
  ts_NewNotActualOracleVotingContracts (bs_tx s).

(** [&Stats{}] *)
Definition emptyStats : BlockStats :=
  mkBlockStats _ emptyTxStats emptyCoins (mkRw _ ∅ None ∅ None false) [] ∅ ∅ None.
End stats.

(** Go: db/types.go Block

    [ValidationFinished] is not set by the conversion. *)
Record BlockRecord `{NodeApi} := mkBlockRecord {
  bk_Height : Z; bk_Hash : string; bk_Transactions : list Transaction; bk_Time : Z;
  bk_Proposer : string; bk_Flags : list string; bk_IsEmpty : bool;
  bk_BodySize : Z; bk_FullSize : Z; bk_VrfProposerThreshold : Float64;
  bk_OriginalValidatorsCount : Z; bk_PoolValidatorsCount : Z;
  bk_ProposerVrfScore : Float64; bk_FeeRate : Decimal;
  bk_Upgrade : option Z; bk_OfflineAddress : option string; bk_GasUsed : Z
}.

(** Go: db/types.go Coins *)
Record CoinsRecord `{NodeApi} := mkCoinsRecord {
  cr_Minted : Decimal; cr_Burnt : Decimal; cr_TotalBalance : Decimal; cr_TotalStake : Decimal
}.

(** [types.ProofProposal], with the key recovered from its signature ([None]: an error) *)
Record ProofProposal := mkProofProposal {
  pp_Round : Z; pp_PubKey : option bytes; pp_Proof : bytes
}.

(** What the conversion of a block asks the node, the clock and the database that is
    being migrated, and the orders in which the maps are ranged over. *)
Class BlockApi `{NodeApi} := {
  genesisHash : Hash;
  State_Root : AppState → Hash;
  NextValidationTime : AppState → Z;
  DiscriminationStakeThreshold : AppState → option Z;
  VrfProposerThreshold : AppState → Float64;
  FeePerGas : AppState → option Z;
  (** [NodeCtx().ProposerByRound], when it answers: the hash of the proof and the key of
      the proposer *)
  proposerByRound : Z → option (Hash * bytes);
  (** [NodeCtx().PendingProofs], ranged over; [None] is not a [*types.ProofProposal] *)
  pendingProofs : list (option ProofProposal);
  PubKeyBytesToAddress : bytes → Address;
  (** [vrf.HashFromProof], and [common.HashToFloat] *)
  vrf_HashFromProof : bytes → option Hash;
  HashToFloat : Hash → Z → Float64;
  (** what the database that is being migrated answers; [None] is an error *)
  secondary_ProposerVrfScore : Z → option Float64;
  secondary_MemPoolFlipKeys : Z → option (list MemPoolFlipKey);
  (** [upgradeVotingHistoryCtx.holder.Get()], [Config().Consensus] and its versions,
      [time.Now()] *)
  upgrade_votes : list Votes;
  consensus_Version : Z;
  consensus_Upgrade10 : bool;
  consensus_Upgrade11 : bool;
  ConsensusVersions : list (Z * ConsensusConf);
  ConsensusVerson : Z → Z;
  time_now : Z;
  (** [indexer.disableDelegationHistory] *)
  disableDelegationHistory : bool;
  (** [CanBeProlonged], which runs the virtual machine *)
  CanBeProlonged : Address → AppState → bool;
  (** the orders in which maps and sets are ranged over *)
  flag_order : list BlockFlag;
  update_order : gset Address → list Address;
  voting_order : gset Address → list Address;
  state_order : gmap Address AddressStateChange → list (Address * AddressStateChange);
  address_order : gmap string AddressRecord → list (string * AddressRecord);
  killed_order : gmap Address killedInfo → list (Address * killedInfo);
  pool_order : gmap Address Z → list (Address * Z);
  penalty_order : gmap Address (option Z) → list (Address * option Z);
  penalty_seconds_order : gmap Address Penalty → list (Address * Penalty);
  reward_orders : RewardOrders;
  shard_order : gmap Z ValidationShardStats → list (Z * ValidationShardStats);
  flip_order : gmap Z FlipStats → list (Z * FlipStats);
  identity_order : gmap Address IdentityStats → list (Address * IdentityStats);
  rewarded_order : gset Address → list Address;
  status_order : gmap Z Z → list (Z * Z);
  bounds_order : gmap Z RewardBounds → list (Z * RewardBounds)
}.

(** Go: db/types.go Data

    [d_Block] is the block the data was made from; what is saved of it is
    [d_BlockRecord].  The fields that are copied from the statistics of the collector
    and from the collector of the conversion are those of [d_stats] and of
    [d_collector]. *)
Record Data `{NodeApi} := mkData {
  d_Epoch : Z;
  d_PrevStateRoot : string;
  d_ValidationTime : Z;
  d_DiscriminationStakeThreshold : option Z;
  d_Block : Block;
  d_BlockRecord : BlockRecord;
  d_stats : BlockStats;
  d_collector : Cc;
  d_Addresses : list AddressRecord;
  d_ChangedBalances : list Balance;
  d_Coins : CoinsRecord;
  d_Penalties : list PenaltyRecord;
  d_MiningRewards : list MiningRewardRecord;
  d_EpochResult : option EpochResult;
  d_DelegationSwitches : list DelegationSwitch;
  d_DelegationHistoryUpdates : list DelegationHistoryUpdate;
  d_UpgradesVotes : list UpgradeVotes;
  d_PoolSizes : list PoolSizeRecord;
  d_MinersHistoryItem : option MinersHistoryItem;
  d_OracleVotingContractsToProlong : list Address;
  d_ClearOldEpochCommittees : bool
}.

(** ** Operations *)

Section operations.
Context `{EpochApi, !TxApi, !BlockApi}.

(** Go: indexer/proposer.go getProposer *)
Definition getProposer (block : Block) : string :=
  if b_IsEmpty block then EmptyString else address_Hex (b_Coinbase block).

(** Go: indexer/proposer.go getProposerScoreByRound *)
Definition getProposerScoreByRound (round : Z) (address : Address) : option Hash :=
  match proposerByRound round with
  | None => None
  | Some (hash, proposerPubKey) =>
      if decide (PubKeyBytesToAddress proposerPubKey = address) then Some hash else None
  end.

(** Go: indexer/proposer.go searchProofsByHashVrfScore *)
Fixpoint searchProofsByHashVrfScore (round : Z) (address : Address)
    (proofsByHash : list (option ProofProposal)) : option Hash :=
  match proofsByHash with
  | [] => None
  | proof :: rest =>
      let next := searchProofsByHashVrfScore round address rest in
      match proof with
      | None => next
      | Some proofProposal =>
          if negb (pp_Round proofProposal =? round)%Z then next else
          match pp_PubKey proofProposal with
          | None => next
          | Some pubKey =>
              if decide (PubKeyBytesToAddress pubKey = address)
              then match vrf_HashFromProof (pp_Proof proofProposal) with
                   | None => next
                   | Some h => Some h
                   end
              else next
          end
      end
  end.

(** Go: indexer/proposer.go getProposerVrfScore

    [migrating]: whether there is a database that is being migrated. *)
Definition getProposerVrfScore (migrating : bool) (block : Block) (validatorsCache : AppState)
    : Float64 * bool :=
  match b_Upgrade block with
  | None => (Float64_of_int 0, false)
  | Some _ =>
      if migrating then
        match secondary_ProposerVrfScore (b_Height block) with
        | None => (Float64_of_int 0, false)
        | Some score => (score, true)
        end
      else
        let coinbase := b_Coinbase block in
        let hash := match getProposerScoreByRound (b_Height block) coinbase with
                    | Some h => Some h
                    | None => searchProofsByHashVrfScore (b_Height block) coinbase pendingProofs
                    end in
        match hash with
        | None => (Float64_of_int 0, false)
        | Some h => (HashToFloat h (swrap 64 (PoolSize validatorsCache coinbase)), true)
        end
  end.

(** Go: indexer/indexer.go blockFlags:44-55 *)
Definition blockFlags (flag : BlockFlag) : string :=
  match flag with
  | IdentityUpdate => "IdentityUpdate"
  | FlipLotteryStarted => "FlipLotteryStarted"
  | ShortSessionStarted => "ShortSessionStarted"
  | LongSessionStarted => "LongSessionStarted"
  | AfterLongSessionStarted => "AfterLongSessionStarted"
  | ValidationFinished => "ValidationFinished"
  | Snapshot => "Snapshot"
  | OfflinePropose => "OfflinePropose"
  | OfflineCommit => "OfflineCommit"
  | NewGenesis => "NewGenesis"
  end%string.

(** Go: indexer/indexer.go convertFlags *)
Definition convertFlags (block : Block) : list string :=
  foldl (λ flags flag, if HasFlag block flag then flags ++ [blockFlags flag] else flags)
    [] flag_order.

(** Go: indexer/indexer.go convertBlock

    The transactions are converted with the collector of the conversion. *)
Definition convertBlock (migrating : bool) (stats : BlockStats) (incomingBlock : Block)
    (ctx : conversionContext) : M Cc BlockRecord :=
  txs ← (if (0 <? length (b_Transactions incomingBlock))%nat
         then convertTransactions (bs_tx stats) (b_Transactions incomingBlock) ctx
         else mret []);
  mret {|
    bk_Height := b_Height incomingBlock;
    bk_Hash := hash_Hex (b_Hash incomingBlock);
    bk_Transactions := txs;
    bk_Time := b_Time incomingBlock;
    bk_Proposer := getProposer incomingBlock;
    bk_Flags := convertFlags incomingBlock;
    bk_IsEmpty := b_IsEmpty incomingBlock;
    bk_BodySize := b_BodySize incomingBlock;
    bk_FullSize := b_FullSize incomingBlock;
    bk_VrfProposerThreshold := VrfProposerThreshold (cx_prevState ctx);
    bk_OriginalValidatorsCount := Z.of_nat (size (co_OriginalFinalCommittee (bs_coins stats)));
    bk_PoolValidatorsCount := Z.of_nat (size (co_PoolFinalCommittee (bs_coins stats)));
    bk_ProposerVrfScore := (getProposerVrfScore migrating incomingBlock (cx_prevState ctx)).1;
    bk_FeeRate := ConvertToFloat (FeePerGas (cx_prevState ctx));
    bk_Upgrade := b_Upgrade incomingBlock;
    bk_OfflineAddress := address_Hex <$> b_OfflineAddr incomingBlock;
    bk_GasUsed := ts_BlockGasUsed (bs_tx stats) |}.

(** A change of the first block: from no identity to [state], by no transaction. *)
Definition first_change (state : IdentityState) : AddressStateChange :=
  mkAddressStateChange (convertIdentityState Undefined) (convertIdentityState state) EmptyString.

(** Go: indexer/indexer.go detectFirstAddresses *)
Definition detectFirstAddresses (first : bool) (newState : AppState) : list AddressRecord :=
  if negb first then [] else
  let stateChangeByAddr :=
    foldl (λ m i, <[i.1 := first_change (id_State i.2)]> m)
      (∅ : gmap Address AddressStateChange) (IterateOverIdentities newState) in
  let '(addresses, stateChangeByAddr, withZeroWallet) :=
    foldl (λ '(addresses, m, zero) addr,
      (addresses ++ [mkAddressRecord (address_Hex addr) false (option_list (m !! addr))],
       delete addr m, zero || bool_decide (addr = zeroAddress)))
      ([], stateChangeByAddr, false) (IterateAccounts newState) in
  let addresses := addresses ++ ((λ '(addr, stateChange),
    mkAddressRecord (address_Hex addr) false [stateChange]) <$> state_order stateChangeByAddr) in
  if withZeroWallet then addresses
  else addresses ++ [mkAddressRecord (address_Hex zeroAddress) false [first_change Undefined]].

(** Go: indexer/indexer.go convertIncomingData:439-446

    The addresses of the first block join those of the transactions. *)
Definition add_first_addresses (firstAddresses : list AddressRecord)
    (addresses : gmap string AddressRecord) : gmap string AddressRecord :=
  foldl (λ m addr,
    match m !! ad_Address addr with
    | Some curAddr => <[ad_Address addr := curAddr <| ad_StateChanges ::= λ l, l ++ ad_StateChanges addr |>]> m
    | None => <[ad_Address addr := addr]> m
    end) addresses firstAddresses.

(** Go: indexer/indexer.go convertIncomingData:455-470

    The switches and the history of the delegations that were removed as transitive. *)
Definition add_removed_delegations (height : Z) (removed : list RemovedTransitiveDelegation)
    (acc : Switches) : Switches :=
  foldl (λ acc r,
    (acc.1 ++ [mkDelegationSwitch (rtd_Delegator r) None None],
     acc.2 ++ [(history_of (rtd_Delegator r)) <| dhu_UndelegationBlockHeight := Some height |>
                 <| dhu_UndelegationReason := Some UndelegationReasonTransitionRemove |>])) acc removed.

(** What the result of an epoch is computed from. *)
Definition epoch_env (migrating : bool) (stats : BlockStats) (block : Block)
    (prevState newState : AppState) : EpochEnv :=
  {| ee_block := block; ee_prevState := prevState; ee_newState := newState;
     ee_rewards := bs_rewards stats;
     ee_MinScoreForInvite := bs_MinScoreForInvite stats;
     ee_EnableUpgrade10 := consensus_Upgrade10; ee_EnableUpgrade11 := consensus_Upgrade11;
     ee_secondaryKeys := λ epoch, if migrating then secondary_MemPoolFlipKeys epoch else None;
     ee_reward_orders := reward_orders; ee_shard_order := shard_order;
     ee_flip_order := flip_order; ee_identity_order := identity_order;
     ee_address_order := rewarded_order; ee_status_order := status_order;
     ee_bounds_order := bounds_order |}.

(** What [convertIncomingData] takes from the state of the indexer: whether a database is
    being migrated, whether the block is the first, the oracle votings in progress, and
    the balances and coins the file IndexLoop computes. *)
Record IndexerPart := mkIndexerPart {
  ip_migrating : bool;
  ip_isFirstBlock : bool;
  ip_actualOracleVotings : gset Address;
  ip_ChangedBalances : list Balance;
  ip_Coins : CoinsRecord
}.

(** Go: indexer/indexer.go convertIncomingData:408-556

    The data of a block, from the states before and after it. *)
Definition convert_data (stats : BlockStats) (incomingBlock : Block) (prevState newState : AppState)
    (ip : IndexerPart) : outcome Data :=
  let ctx := mkConversionContext (b_Height incomingBlock) prevState newState in
  let collector := newCc (dom (co_KilledInactiveIdentities (bs_coins stats))) in
  match convertBlock (ip_migrating ip) stats incomingBlock ctx collector with
  | Panic => Panic
  | Done (block, collector) =>
  match detectEpochResult (epoch_env (ip_migrating ip) stats incomingBlock prevState newState)
          (cc_killedAddrs collector) with
  | Panic => Panic
  | Done (epochResult, killedAddrs) =>
  let collector := collector <| cc_killedAddrs := killedAddrs |>
    <| cc_addresses ::= add_first_addresses (detectFirstAddresses (ip_isFirstBlock ip) newState) |> in
  match detectDelegationSwitches incomingBlock prevState newState (cc_killedAddrs collector)
          killed_order (cc_switchDelegationTxs collector) with
  | None => Panic
  | Some switches =>
  let '(delegationSwitches, delegationHistoryUpdates) :=
    add_removed_delegations (b_Height incomingBlock) (ts_RemovedTransitiveDelegations (bs_tx stats)) switches in
  let addresses := getAddresses address_order collector in
  Done {|
    d_Epoch := Epoch prevState;
    d_PrevStateRoot := hash_Hex (State_Root prevState);
    d_ValidationTime := NextValidationTime newState;
    d_DiscriminationStakeThreshold := DiscriminationStakeThreshold newState;
    d_Block := incomingBlock;
    d_BlockRecord := block;
    d_stats := stats;
    d_collector := collector;
    d_Addresses := addresses;
    d_ChangedBalances := ip_ChangedBalances ip;
    d_Coins := ip_Coins ip;
    d_Penalties := convertChargedPenalties (penalty_order (bs_ChargedPenaltiesByAddr stats))
                     (penalty_seconds_order (co_ChargedPenaltySecondsByAddr (bs_coins stats)));
    d_MiningRewards := convertMiningRewards (co_MiningRewards (bs_coins stats));
    d_EpochResult := epochResult;
    d_DelegationSwitches := delegationSwitches;
    d_DelegationHistoryUpdates :=
      if disableDelegationHistory then []
      else ts_DelegationHistoryUpdates (bs_tx stats) ++ delegationHistoryUpdates;
    d_UpgradesVotes := detectUpgradeVotes upgrade_votes consensus_Version ConsensusVersions
                         ConsensusVerson time_now;
    d_PoolSizes := detectPoolSizeUpdates delegationSwitches addresses
                     (match epochResult with Some r => ep_Identities r | None => [] end)
                     prevState newState pool_order;
    d_MinersHistoryItem := detectMinersHistoryItem prevState newState;
    d_OracleVotingContractsToProlong :=
      detectOracleVotingsToProlong CanBeProlonged (voting_order (ip_actualOracleVotings ip)) newState;
    d_ClearOldEpochCommittees := (b_Height incomingBlock =? u64 (EpochBlock prevState + 1))%Z |}
  end end end.
End operations.

(** ** The conversion of a block *)

Section conversion.
Context `{EpochApi, !NodeLaws, !TxApi, !BlockApi}.
Context (stats : BlockStats) (block : Block) (prevState newState : AppState).
Implicit Types (a : Address) (ip : IndexerPart).

Abbreviation ctx := (mkConversionContext (b_Height block) prevState newState).
Abbreviation txs := (b_Transactions block).

(** What the conversion needs not to panic: the transactions that kill an invitee name
    an invitee with an inviter, and a validation that finishes left its statistics. *)
Record conversion_ok : Prop := {
  cv_txs : forallb (invitee_ok ctx) txs = true;
  cv_validation : HasFlag block ValidationFinished = true →
    ∃ v, ∀ migrating, validation_ok (epoch_env migrating stats block prevState newState) v;
  cv_killed_order : ∀ m, ranges m (killed_order m)
}.

(** The inactive identities the node killed with the block. *)
Definition inactive : gset Address := dom (co_KilledInactiveIdentities (bs_coins stats)).

(** The identities that are killed, and why: a failed validation comes before the last
    change by a transaction, and that before the inactivity. *)
Definition block_killed a : option killedInfo :=
  if HasFlag block ValidationFinished &&
     existsb (λ i, bool_decide (i.1 = a) && killed_by_validation
       (epoch_env false stats block prevState newState) i) (IterateOverIdentities prevState)
  then Some (mkKilledInfo killedReasonValidationFailure None)
  else killed_by (bs_tx stats) a txs
         (if decide (a ∈ inactive) then Some (mkKilledInfo killedReasonInactiveIdentity None) else None).

Definition is_switch (tx : Tx) : Prop := tx_Type tx = DelegateTx ∨ tx_Type tx = UndelegateTx.
#[export] Instance is_switch_dec tx : Decision (is_switch tx).
Proof. unfold is_switch. apply _. Defined.

Lemma convertBlock_done migrating (killed : gset Address) : forallb (invitee_ok ctx) txs = true →
  ∃ r st, convertBlock migrating stats block ctx (newCc killed) = Done (r, st) ∧
  bk_Height r = b_Height block ∧
  cc_switchDelegationTxs st = filter is_switch txs ∧
  cc_flipTxs st = snd <$> omap detectSubmittedFlip txs ∧
  ∀ a, cc_killedAddrs st !! a = killed_by (bs_tx stats) a txs
    (if decide (a ∈ killed) then Some (mkKilledInfo killedReasonInactiveIdentity None) else None).
Proof.
  intros Hok. unfold convertBlock.
  assert (∃ ts st, (if (0 <? length txs)%nat then convertTransactions (bs_tx stats) txs ctx
                    else mret []) (newCc killed) = Done (ts, st) ∧
    cc_switchDelegationTxs st = filter is_switch txs ∧
    cc_flipTxs st = snd <$> omap detectSubmittedFlip txs ∧
    ∀ a, cc_killedAddrs st !! a = killed_by (bs_tx stats) a txs
      (if decide (a ∈ killed) then Some (mkKilledInfo killedReasonInactiveIdentity None) else None))
    as (ts & st & E & Hsw & Hft & Hk).
  { assert (∀ a, cc_killedAddrs (newCc killed) !! a
      = if decide (a ∈ killed) then Some (mkKilledInfo killedReasonInactiveIdentity None) else None) as Hn.
    { intros a. cbn. rewrite lookup_gset_to_gmap.
      by destruct (decide (a ∈ killed)) as [Hin|Hin]; simplify_option_eq. }
    destruct (Nat.ltb_spec 0 (length txs)) as [Hl|Hl].
    - destruct (wp_done _ _ _ (wp_convertTransactions (bs_tx stats) ctx killed txs Hok))
        as (ts & st & E & [(_ & _ & Hk) Hr] & _).
      exists ts, st. split; [done|]. unfold records, records_of in Hr. injection Hr as _ _ Hft _ _ _ Hsw _ _.
      split_and!; [exact Hsw|exact Hft|]. intros a. by rewrite Hk, Hn.
    - destruct txs; [|cbn in Hl; lia]. exists [], (newCc killed). split_and!; [done..|exact Hn]. }
  eexists _, st. split; [by erewrite bind_done by exact E|done].
Qed.

(** The epoch's part: the killed identities. *)
Lemma detectEpochResult_killed migrating killed :
  conversion_ok → ∃ r K,
  detectEpochResult (epoch_env migrating stats block prevState newState) killed = Done (r, K) ∧
  ∀ a, K !! a =
    if HasFlag block ValidationFinished &&
       existsb (λ i, bool_decide (i.1 = a) && killed_by_validation
         (epoch_env false stats block prevState newState) i) (IterateOverIdentities prevState)
    then Some (mkKilledInfo killedReasonValidationFailure None) else killed !! a.
Proof.
  intros Hok. destruct (HasFlag block ValidationFinished) eqn:Hf.
  2:{ exists None, killed. split; [|done]. unfold detectEpochResult. cbn [ee_block epoch_env]. by rewrite Hf. }
  destruct (cv_validation Hok Hf) as [v Hv].
  destruct (detectEpochResult_done _ v killed (Hv migrating)) as (er & st1 & st & -> & Hd & Hi).
  eexists _, _. split; [reflexivity|]. intros a. rewrite (id_killed _ _ _ _ _ Hi).
  pose proof (fd_part _ _ _ Hd) as Hp. injection Hp as _ _ -> _. unfold identities_of. cbn [ee_prevState epoch_env andb].
  clear. induction (IterateOverIdentities prevState) as [|i l IH] using rev_ind; [done|].
  rewrite foldl_snoc, existsb_app. cbn [existsb]. rewrite orb_false_r. unfold add_killed at 1.
  change (killed_by_validation (epoch_env migrating stats block prevState newState) i)
    with (killed_by_validation (epoch_env false stats block prevState newState) i).
  destruct (killed_by_validation (epoch_env false stats block prevState newState) i) eqn:Hi.
  - destruct (decide (i.1 = a)) as [<-|Hne].
    + by rewrite lookup_insert_eq, bool_decide_true, orb_true_r.
    + by rewrite lookup_insert_ne, bool_decide_false, orb_false_r.
  - by rewrite andb_false_r, orb_false_r.
Qed.

Lemma block_killed_tx (K : gmap Address killedInfo) :
  (∀ a, K !! a = block_killed a) →
  ∀ a i, K !! a = Some i → ki_reason i = killedReasonTx → is_Some (ki_tx i).
Proof.
  intros HK a i. rewrite HK. unfold block_killed, killed_by. destruct (_ && _); [by intros [= <-]|].
  destruct (list.last _) as [[tx c]|]; [destruct (decide _); [intros [= <-]; by eexists|done]|].
  destruct (decide (a ∈ inactive)); [by intros [= <-]|done].
Qed.

(** The conversion ends, and what the rest of the development reads of its result. *)
Lemma convert_data_done ip : conversion_ok → ∃ d K sw hist,
  convert_data stats block prevState newState ip = Done d ∧
  d_Block d = block ∧ bk_Height (d_BlockRecord d) = b_Height block ∧ d_Epoch d = Epoch prevState ∧
  cc_flipTxs (d_collector d) = snd <$> omap detectSubmittedFlip txs ∧
  d_OracleVotingContractsToProlong d
  = detectOracleVotingsToProlong CanBeProlonged (voting_order (ip_actualOracleVotings ip)) newState ∧
  (∀ a, K !! a = block_killed a) ∧
  detectDelegationSwitches block prevState newState K killed_order (filter is_switch txs) = Some (sw, hist) ∧
  d_DelegationSwitches d
  = (add_removed_delegations (b_Height block) (ts_RemovedTransitiveDelegations (bs_tx stats)) (sw, hist)).1.
Proof.
  intros Hok. unfold convert_data.
  destruct (convertBlock_done (ip_migrating ip) inactive (cv_txs Hok)) as (r & st & E & Hh & Hsw & Hft & Hk).
  unfold inactive in E. rewrite E.
  destruct (detectEpochResult_killed (ip_migrating ip) (cc_killedAddrs st) Hok) as (er & K & -> & HK).
  assert (∀ a, K !! a = block_killed a) as HKb.
  { intros a. rewrite HK. unfold block_killed. by rewrite Hk. }
  cbn [cc_killedAddrs cc_switchDelegationTxs modify_field]. rewrite Hsw.
  assert (∃ sw hist, detectDelegationSwitches block prevState newState K killed_order (filter is_switch txs)
    = Some (sw, hist)) as (sw & hist & Es).
  { destruct (HasFlag block IdentityUpdate) eqn:Hf.
    - destruct (detectDelegationSwitches_spec prevState newState K block killed_order (filter is_switch txs) Hf
        (cv_killed_order Hok K) (block_killed_tx K HKb)) as [hist ->]. by eexists _, _.
    - unfold detectDelegationSwitches. rewrite Hf. by eexists _, _. }
  rewrite Es. destruct (add_removed_delegations _ _ _) as [sw' hist'] eqn:Er.
  eexists _, K, sw, hist. split; [reflexivity|]. cbn. rewrite Er. split_and!; done.
Qed.

(** [C4]  The composition of the conversions, for a block with the flag [IdentityUpdate] (for
    another one no switch is looked for): applied to the table of the delegations, the
    switches saved with the block make it the delegatees of the node's state after the
    block, when it held those of the state before.  The block is one whose conversion goes
    through: every transaction that kills an invitee names one with an inviter, a validation
    that finishes has left its statistics, and the map of the killed identities is ranged
    over once.  In the two states a pointer to a delegatee that is the same points to the
    same address.  The identities the block kills - for inactivity, by a transaction or by
    a validation - and those whose transitive delegations are removed have no delegatee
    afterwards, and the delegatee of any other changes only if its switch was pending or it
    sent a transaction to switch in the block. *)
Theorem block_delegations_follow ip (D : gmap Address Address) :
  conversion_ok → HasFlag block IdentityUpdate = true → pointers_coherent prevState newState →
  (∀ a, is_Some (block_killed a) → Delegatee newState a = None) →
  (∀ a, a ∈ rtd_Delegator <$> ts_RemovedTransitiveDelegations (bs_tx stats) → Delegatee newState a = None) →
  (∀ a, delegatee_of newState a ≠ delegatee_of prevState a →
     is_Some (block_killed a) ∨ a ∈ rtd_Delegator <$> ts_RemovedTransitiveDelegations (bs_tx stats) ∨
     a ∈ Delegations prevState ∨ ∃ tx, tx ∈ txs ∧ is_switch tx ∧ tx_Sender tx = a) →
  (∀ a, D !! a = delegatee_of prevState a) →
  ∃ d, convert_data stats block prevState newState ip = Done d ∧
  ∀ a, foldl apply_switch D (d_DelegationSwitches d) !! a = delegatee_of newState a.
Proof.
  intros Hok Hf Hptr Hkill Hrem Hrest HD.
  destruct (convert_data_done ip Hok) as (d & K & sw & hist & E & _ & _ & _ & _ & _ & HK & Es & Hsw).
  exists d. split; [done|]. intros a. rewrite Hsw.
  set (removed := ts_RemovedTransitiveDelegations (bs_tx stats)) in *.
  assert (∀ l acc, (add_removed_delegations (b_Height block) l acc).1
    = acc.1 ++ ((λ r, mkDelegationSwitch (rtd_Delegator r) None None) <$> l)) as Hadd.
  { induction l as [|r l IH]; intros acc; [by rewrite app_nil_r|].
    unfold add_removed_delegations in *. cbn [foldl fmap list_fmap]. rewrite IH. cbn [fst]. by rewrite <- app_assoc. }
  rewrite Hadd, foldl_app. cbn [fst].
  destruct (delegation_switches_follow prevState newState K block killed_order (filter is_switch txs) Hf
    (cv_killed_order Hok K) (block_killed_tx K HK)) as (sw' & hist' & Es' & Hfollow).
  { done. }
  { intros b Hb. apply Hkill. by rewrite <- HK. }
  rewrite Es in Es'. injection Es' as <- <-.
  assert (∀ l (m : gmap Address Address),
    foldl apply_switch m ((λ r, mkDelegationSwitch (rtd_Delegator r) None None) <$> l) !! a
    = if bool_decide (a ∈ rtd_Delegator <$> l) then None else m !! a) as Hdel.
  { intros l. induction l as [|r l IH]; intros m; [done|]. cbn [fmap list_fmap foldl]. rewrite IH.
    unfold apply_switch. cbn [ds_Delegatee ds_Delegator]. destruct (decide (a = rtd_Delegator r)) as [->|Hne].
    - rewrite lookup_delete_eq, (bool_decide_true (_ ∈ _ :: _)) by left. by case_match.
    - rewrite lookup_delete_ne by done.
      rewrite (bool_decide_ext (a ∈ rtd_Delegator r :: (rtd_Delegator <$> l)) (a ∈ rtd_Delegator <$> l));
        [done|set_solver]. }
  rewrite Hdel. case_bool_decide as Hin.
  - unfold delegatee_of. by rewrite Hrem.
  - apply Hfollow; [|apply HD]. intros Hnl. destruct (decide (delegatee_of newState a = delegatee_of prevState a))
      as [|Hne]; [done|]. exfalso. apply Hnl. unfold looked_at. rewrite HK.
    destruct (Hrest a Hne) as [?|[?|[?|(tx & Htx & Hs & <-)]]]; [by left|done|by right; left|].
    right; right. apply list_elem_of_fmap. exists tx. split; [done|]. by apply list_elem_of_filter.
Qed.
End conversion.

(** ** The addresses of the first block *)

Section first_block.
Context `{EpochApi, !TxApi, !BlockApi}.
Context (newState : AppState).
Implicit Types (a : Address) (m : gmap Address AddressStateChange).

Abbreviation identities := (IterateOverIdentities newState).
Abbreviation accounts := (IterateAccounts newState).

(** The changes of state the record of an address starts with. *)
Definition first_changes a : list AddressStateChange :=
  match (list_to_map identities : gmap Address Identity) !! a with
  | Some identity => [first_change (id_State identity)]
  | None => if decide (a = zeroAddress ∧ a ∉ accounts) then [first_change Undefined] else []
  end.

Lemma first_states_lookup a : NoDup identities.*1 →
  foldl (λ m i, <[i.1 := first_change (id_State i.2)]> m) (∅ : gmap Address AddressStateChange) identities !! a
  = (λ i, first_change (id_State i)) <$> (list_to_map identities : gmap Address Identity) !! a.
Proof.
  induction identities as [|i l IH] using rev_ind; intros Hnd; [reflexivity|].
  rewrite fmap_app in Hnd. apply list.NoDup_app in Hnd as (Hnd & Hdis & _).
  rewrite foldl_snoc, list_to_map_app. destruct i as [b i]. cbn [list_to_map foldr fmap list_fmap fst snd].
  specialize (IH Hnd). destruct (decide (b = a)) as [->|Hne].
  - rewrite lookup_insert_eq, lookup_union_r, lookup_insert_eq; [done|].
    apply not_elem_of_list_to_map_1. intros Hin. apply (Hdis a Hin). left.
  - rewrite lookup_insert_ne, IH by done. f_equal.
    destruct ((list_to_map l : gmap Address Identity) !! a) eqn:E.
    + symmetry. by apply lookup_union_Some_l.
    + rewrite lookup_union_r by done. by rewrite lookup_insert_ne, lookup_empty by done.
Qed.

(** The loop over the accounts. *)
Lemma accounts_loop m0 (l : list Address) : NoDup l →
  let r := foldl (λ '(addresses, m, zero) addr,
      (addresses ++ [mkAddressRecord (address_Hex addr) false (option_list (m !! addr))],
       delete addr m, zero || bool_decide (addr = zeroAddress))) ([], m0, false) l in
  r.1.1 = (λ a, mkAddressRecord (address_Hex a) false (option_list (m0 !! a))) <$> l ∧
  (∀ a, r.1.2 !! a = if decide (a ∈ l) then None else m0 !! a) ∧
  r.2 = bool_decide (zeroAddress ∈ l).
Proof.
  induction l as [|b l IH] using rev_ind; intros Hnd; cbn zeta in *.
  { split_and!; [done|intros a; by rewrite decide_False by apply not_elem_of_nil|].
    symmetry. apply bool_decide_eq_false. apply not_elem_of_nil. }
  apply list.NoDup_app in Hnd as (Hnd & Hdis & _). destruct (IH Hnd) as (HA1 & HA2 & HA3).
  rewrite foldl_snoc. destruct (foldl _ _ l) as [[addresses m] zero]. cbn [fst snd] in *. subst addresses zero.
  split_and!.
  - rewrite fmap_app. cbn [fmap list_fmap]. rewrite HA2, decide_False; [done|].
    intros Hin. apply (Hdis b Hin). left.
  - intros a. destruct (decide (b = a)) as [->|Hne].
    + rewrite lookup_delete_eq, decide_True; [done|]. apply elem_of_app. right. left.
    + rewrite lookup_delete_ne, HA2 by done. apply decide_ext. set_solver.
  - destruct (decide (zeroAddress ∈ l)) as [Hin|Hin].
    + rewrite (bool_decide_true (zeroAddress ∈ l)), (bool_decide_true (zeroAddress ∈ l ++ [b])) by set_solver. done.
    + rewrite (bool_decide_false (zeroAddress ∈ l)) by done. apply bool_decide_ext. set_solver.
Qed.

(** With the first block, every account, every identity and the zero address have
    exactly one record, whose state changes are the one that made it an identity, none
    for an account that is not one, and one to no identity for the zero address when the
    node has no account for it. *)
Theorem first_addresses :
  NoDup accounts → NoDup identities.*1 → zeroAddress ∉ identities.*1 →
  (∀ m, ranges m (state_order m)) →
  (λ r, (ad_Address r, ad_StateChanges r)) <$> detectFirstAddresses true newState ≡ₚ
  (λ a, (address_Hex a, first_changes a))
  <$> elements (list_to_set accounts ∪ list_to_set identities.*1 ∪ {[zeroAddress]} : gset Address).
Proof.
  intros Hacc Hids Hzero Hord. unfold detectFirstAddresses. cbn [negb].
  set (m0 := foldl _ ∅ identities).
  assert (∀ a, m0 !! a = (λ i, first_change (id_State i)) <$> (list_to_map identities : gmap Address Identity) !! a)
    as Hm0 by (intros; by apply first_states_lookup).
  destruct (accounts_loop m0 accounts Hacc) as (HA1 & HA2 & HA3).
  destruct (foldl _ _ accounts) as [[addresses m] zero]. cbn [fst snd] in HA1, HA2, HA3. subst addresses zero.
  specialize (Hord m). unfold ranges in Hord.
  assert (∀ a, a ∈ dom m ↔ a ∈ identities.*1 ∧ a ∉ accounts) as Hdom.
  { intros a. rewrite elem_of_dom, HA2, Hm0. destruct (decide (a ∈ accounts)) as [Hin|Hin].
    - split; [by intros [? ?]|tauto].
    - rewrite fmap_is_Some, <- elem_of_dom, dom_list_to_map_L, elem_of_list_to_set. tauto. }
  assert (elements (list_to_set accounts ∪ list_to_set identities.*1 ∪ {[zeroAddress]} : gset Address)
    ≡ₚ accounts ++ elements (dom m) ++ (if bool_decide (zeroAddress ∈ accounts) then [] else [zeroAddress])) as ->.
  { apply NoDup_Permutation; [apply NoDup_elements| |].
    - apply list.NoDup_app. split_and!; [done| |apply list.NoDup_app; split_and!; [apply NoDup_elements| |]].
      + intros a Ha [Hin|Hin]%elem_of_app; [by apply elem_of_elements, Hdom in Hin as []|].
        case_bool_decide; [by apply not_elem_of_nil in Hin|]. apply list_elem_of_singleton in Hin. by subst.
      + intros a [Hin _]%elem_of_elements%Hdom Hz. case_bool_decide; [by apply not_elem_of_nil in Hz|].
        apply list_elem_of_singleton in Hz. by subst.
      + case_bool_decide; [apply base.NoDup_nil_2|apply list.NoDup_singleton].
    - intros a. rewrite elem_of_elements, !elem_of_union, !elem_of_list_to_set, elem_of_singleton,
        !elem_of_app, elem_of_elements, Hdom.
      case_bool_decide; rewrite ?list_elem_of_singleton; destruct (decide (a ∈ accounts)); set_solver. }
  assert (∀ a, m0 !! a = None → a ≠ zeroAddress ∨ a ∈ accounts → first_changes a = []) as Hnone.
  { intros a Hn Hz. unfold first_changes. rewrite Hm0, fmap_None in Hn. rewrite Hn.
    by rewrite decide_False by tauto. }
  assert (∀ a c, m0 !! a = Some c → first_changes a = [c]) as Hsome.
  { intros a c Hs. unfold first_changes. rewrite Hm0, fmap_Some in Hs. destruct Hs as (i & -> & ->). done. }
  assert ((λ r, (ad_Address r, ad_StateChanges r)) <$>
    ((λ a, mkAddressRecord (address_Hex a) false (option_list (m0 !! a))) <$> accounts)
    = (λ a, (address_Hex a, first_changes a)) <$> accounts) as E1.
  { rewrite <- list_fmap_compose. apply list_fmap_ext. intros j a Ha%list_elem_of_lookup_2. cbn. f_equal.
    destruct (m0 !! a) eqn:Hm; cbn; symmetry; [by apply Hsome|apply Hnone; auto]. }
  assert ((λ r, (ad_Address r, ad_StateChanges r)) <$>
    ((λ '(addr, stateChange), mkAddressRecord (address_Hex addr) false [stateChange]) <$> state_order m)
    ≡ₚ (λ a, (address_Hex a, first_changes a)) <$> elements (dom m)) as E2.
  { rewrite Hord.
    assert (elements (dom m) ≡ₚ (map_to_list m).*1) as ->.
    { apply NoDup_Permutation; [apply NoDup_elements|apply NoDup_fst_map_to_list|].
      intros a. rewrite elem_of_elements, elem_of_dom, list_elem_of_fmap. split.
      - intros [c Hc]. exists (a, c). split; [done|]. by apply elem_of_map_to_list.
      - intros ([b c] & -> & Hc%elem_of_map_to_list). by eexists. }
    rewrite <- !list_fmap_compose. apply reflexive_eq, list_fmap_ext.
    intros j [a c] Ha%list_elem_of_lookup_2%elem_of_map_to_list. cbn. f_equal. symmetry. apply Hsome.
    rewrite HA2 in Ha. by case_decide. }
  rewrite !fmap_app, <- E1, <- E2. destruct (decide (zeroAddress ∈ accounts)) as [Hz|Hz].
  - rewrite !bool_decide_true by done. by rewrite fmap_app, app_nil_r.
  - rewrite !bool_decide_false by done. rewrite !fmap_app, <- app_assoc. do 2 f_equiv.
    cbn [fmap list_fmap ad_Address ad_StateChanges]. unfold first_changes.
    rewrite not_elem_of_list_to_map_1 by done. by rewrite decide_True.
Qed.
End first_block.

(** ** An evaluated block *)

#[local] Existing Instance sample_attachments.

#[export] Instance SampleBlockApi : BlockApi := {|
  genesisHash := mkHash 5; State_Root _ := mkHash 1; NextValidationTime _ := 0%Z;
  DiscriminationStakeThreshold _ := None; VrfProposerThreshold _ := 0%Z; FeePerGas _ := None;
  proposerByRound _ := None; pendingProofs := []; PubKeyBytesToAddress _ := mkAddress 0;
  vrf_HashFromProof _ := None; HashToFloat _ z := z;
  secondary_ProposerVrfScore _ := None; secondary_MemPoolFlipKeys _ := None;
  upgrade_votes := []; consensus_Version := 8%Z; consensus_Upgrade10 := true; consensus_Upgrade11 := true;
  ConsensusVersions := []; ConsensusVerson z := z; time_now := 0%Z; disableDelegationHistory := false;
  CanBeProlonged _ _ := false;
  flag_order := [IdentityUpdate; FlipLotteryStarted; ShortSessionStarted; LongSessionStarted;
                 AfterLongSessionStarted; ValidationFinished; Snapshot; OfflinePropose;
                 OfflineCommit; NewGenesis];
  update_order := elements; voting_order := elements; state_order := map_to_list;
  address_order := map_to_list; killed_order := map_to_list; pool_order := map_to_list;
  penalty_order := map_to_list; penalty_seconds_order := map_to_list;
  reward_orders := mkRewardOrders map_to_list map_to_list map_to_list map_to_list map_to_list
    map_to_list map_to_list;
  shard_order := map_to_list; flip_order := map_to_list; identity_order := map_to_list;
  rewarded_order := elements; status_order := map_to_list; bounds_order := map_to_list
|}.

(** The identity 1 delegates to the pool 9 with the block. *)
Definition sample_delegation_block : Block := (sample_block 7 7 6) <| b_Flags := [IdentityUpdate] |>.
Definition sample_undelegated : AppState := sample_state <| Delegations := [mkAddress 1] |>.
Definition sample_delegated : AppState :=
  sample_state <| GetIdentity := λ a,
    if decide (a = mkAddress 1)
    then sample_identity <| id_Delegatee := Some (mkAddressPtr 1 (mkAddress 9)) |> else sample_identity |>.
Definition sample_part : IndexerPart := mkIndexerPart false false ∅ [] (mkCoinsRecord _ 0%Z 0%Z 0%Z 0%Z).

Lemma block_delegations_follow_witness :
  ∃ d, convert_data emptyStats sample_delegation_block sample_undelegated sample_delegated sample_part = Done d ∧
  ∀ a, foldl apply_switch ∅ (d_DelegationSwitches d) !! a = delegatee_of sample_delegated a.
Proof.
  apply (block_delegations_follow emptyStats sample_delegation_block sample_undelegated sample_delegated
           sample_part ∅).
  - split; [done|by intros [=]|intros m; apply ranges_canonical].
  - reflexivity.
  - intros a p q Hp Hq Hl. cbn in Hp. discriminate.
  - intros a [i Hi]. by vm_compute in Hi.
  - intros a Ha. by apply not_elem_of_nil in Ha.
  - intros a Hne. right; right; left.
    destruct (decide (a = mkAddress 1)) as [->|Hn]; [left|].
    destruct Hne. unfold delegatee_of, Delegatee. cbn. by rewrite decide_False.
  - done.
Defined.

Example sample_switches :
  match convert_data emptyStats sample_delegation_block sample_undelegated sample_delegated sample_part with
  | Done d => (λ s, (ds_Delegator s, ds_Delegatee s)) <$> d_DelegationSwitches d = [(mkAddress 1, Some (mkAddress 9))] ∧
              bk_Flags (d_BlockRecord d) = ["IdentityUpdate"]%string
  | Panic => False
  end.
Proof. by vm_compute. Qed.

Definition sample_first : AppState :=
  sample_state <| IterateOverIdentities := [(mkAddress 1, sample_identity <| id_State := Verified |>)] |>
               <| IterateAccounts := [mkAddress 1; mkAddress 2] |>.

Lemma first_addresses_witness :
  (λ r, (ad_Address r, ad_StateChanges r)) <$> detectFirstAddresses true sample_first ≡ₚ
  (λ a, (address_Hex a, first_changes sample_first a))
  <$> elements (list_to_set (IterateAccounts sample_first)
                ∪ list_to_set (IterateOverIdentities sample_first).*1 ∪ {[zeroAddress]} : gset Address).
Proof.
  apply (first_addresses sample_first).
  - apply (bool_decide_unpack _). by vm_compute.
  - apply (bool_decide_unpack _). by vm_compute.
  - apply (bool_decide_unpack _). by vm_compute.
  - intros m. apply ranges_canonical.
Defined.
