(* ===== verification/DbEncoding.v ===== *)
(** * The encoding of the data for the database

    db/postgres_types.go: what is saved of a block is passed to the procedures of the
    database as arrays of composite values, which [fmt.Sprintf] prints field by field, and
    as JSON documents, whose structures are built here and encoded by [encoding/json].

    A composite is a list of typed values, [list value]; [Sprintf] prints them with the
    verb %v, and [read_composite] is what the database does with the text: it splits it
    at the commas and reads each part as the type of its column, which for an integer has
    a width.  The theorem on it says that nothing is lost on the way, and which rows the
    database refuses. *)

From Stdlib Require Import Ascii Decimal DecimalString DecimalZ.
From S2P Require Import Prelude Node ContractTypes Coins Rewards BalanceUpdates ContractTx.
From S2P Require Import Tokens ValidationSummary Balances EpochTypes Transactions EpochRewards.

(** ** Printing *)

(** How decimals and floating-point numbers are printed with %v, and [big.Float.Float64]. *)
Class DbText `{NodeApi} := {
  Decimal_String : Decimal → string;
  Float64_String : Float64 → string;
  Float32_String : Float32 → string;
  BigFloat_Float64 : BigFloat → Float64
}.

(** An argument of [fmt.Sprintf]. *)
Inductive value `{NodeApi} :=
  | VString (s : string)
  | VInt (z : Z)
  | VBool (b : bool)
  | VDecimal (d : Decimal)
  | VFloat64 (x : Float64)
  | VFloat32 (x : Float32).

Section printing.
Context `{DbText}.

Definition text (v : value) : string :=
  match v with
  | VString s => s
  | VInt z => FormatInt z
  | VBool b => if b then "true" else "false"
  | VDecimal d => Decimal_String d
  | VFloat64 x => Float64_String x
  | VFloat32 x => Float32_String x
  end%string.

(** [fmt.Sprintf("(%v,..,%v)", args...)] *)
Definition Sprintf (args : list value) : string :=
  String "("%char (String.append (Join "," (text <$> args)) ")").

(** ** Values of the rows *)

(** Go: db/postgres_types.go negativeIfNil *)
Definition negativeIfNil (v : option Z) : value :=
  match v with None => VDecimal (Decimal_of_int (-1)) | Some _ => VDecimal (ConvertToFloat v) end.

(** Go: db/postgres_types.go negativeIfNilByte *)
Definition negativeIfNilByte (v : option Z) : Z := match v with None => -1 | Some b => b end.

(** Go: db/postgres_types.go negativeIfNilUint64 *)
Definition negativeIfNilUint64 (v : option Z) : Z := match v with None => -1 | Some n => swrap 64 n end.

(** [conversion.ConvertHash(h)] and [conversion.ConvertAddress(a)], as arguments *)
Abbreviation VHash h := (VString (hash_Hex h)).
Abbreviation VAddress a := (VString (address_Hex a)).
(** [blockchain.ConvertToFloat(v)] and [hex.EncodeToString(b)] *)
Abbreviation VFloat v := (VDecimal (ConvertToFloat v)).
Abbreviation VHex b := (VString (EncodeToString b)).
(** an address or a hash that may be nil, printed as the empty string *)
Definition VAddressOrEmpty (a : option Address) : value :=
  VString (match a with Some a => address_Hex a | None => EmptyString end).
Definition VHashOrEmpty (h : option Hash) : value :=
  VString (match h with Some h => hash_Hex h | None => EmptyString end).

(** Go: db/postgres_types.go MiningReward.Value *)
Definition MiningReward_Value (v : MiningRewardRecord) : list value :=
  [VString (mrr_Address v); VDecimal (mrr_Balance v); VDecimal (mrr_Stake v);
   VBool (mrr_Proposer v); VFloat64 (BigFloat_Float64 (mrr_StakeWeight v))].

(** Go: db/postgres_types.go Balance.Value *)
Definition Balance_Value (v : Balance) : list value :=
  [VString (bl_Address v); VDecimal (bl_Balance v); VDecimal (bl_Stake v)].

(** Go: db/postgres_types.go BalanceUpdate.Value

    With the address of the contract, for the updates of contracts. *)
Definition BalanceUpdate_Value (v : BalanceUpdate) (contractAddress : option Address) : list value :=
  [VAddress (u_Address v); VFloat (Some (u_BalanceOld v)); VFloat (Some (u_StakeOld v));
   VFloat (u_PenaltyOld v); VInt (u_PenaltySecondsOld v);
   VFloat (Some (u_BalanceNew v)); VFloat (Some (u_StakeNew v)); VFloat (u_PenaltyNew v);
   VInt (u_PenaltySecondsNew v); VFloat (u_PenaltyPayment v);
   VHashOrEmpty (u_TxHash v); VInt (reason_code (u_Reason v)); VAddressOrEmpty contractAddress].

(** Go: db/postgres_types.go Birthday.Value *)
Definition Birthday_Value (v : Birthday) : list value :=
  [VString (bd_Address v); VInt (bd_BirthEpoch v)].

(** Go: db/postgres_types.go MemPoolFlipKey.Value

    [None]: a nil pointer, which is NULL. *)
Definition MemPoolFlipKey_Value (v : option MemPoolFlipKey) : option (list value) :=
  v ← v; Some [VString (mk_Address v); VString (mk_Key v)].

(** Go: db/postgres_types.go ActivationTxTransfer.Value *)
Definition ActivationTxTransfer_Value (v : TxTransfer) : list value :=
  [VString (tt_TxHash v); VDecimal (tt_Amount v)].

(** Go: db/postgres_types.go KillTxTransfer.Value *)
Definition KillTxTransfer_Value (v : TxTransfer) : list value :=
  [VString (tt_TxHash v); VDecimal (tt_Amount v)].

(** Go: db/postgres_types.go KillInviteeTxTransfer.Value *)
Definition KillInviteeTxTransfer_Value (v : TxTransfer) : list value :=
  [VString (tt_TxHash v); VDecimal (tt_Amount v)].

(** Go: db/postgres_types.go ActivationTx.Value *)
Definition ActivationTx_Value (v : ActivationTxRecord) : list value :=
  [VString (atx_TxHash v); VString (atx_InviteTxHash v); VInt (u32 (atx_ShardId v))].

(** Go: db/postgres_types.go KillInviteeTx.Value *)
Definition KillInviteeTx_Value (v : KillInviteeRecord) : list value :=
  [VString (kt_TxHash v); VString (kt_InviteTxHash v)].

(** Go: db/postgres_types.go DeletedFlip.Value *)
Definition DeletedFlip_Value (v : DeletedFlip) : list value :=
  [VString (df_TxHash v); VString (df_Cid v)].

(** Go: db/postgres_types.go BadAuthor.Value *)
Definition BadAuthor_Value (v : BadAuthor) : list value :=
  [VString (ba_Address v); VInt (ba_Reason v)].

(** Go: db/postgres_types.go TotalRewards.Value *)
Definition TotalRewards_Value (v : option TotalRewardsRecord) : option (list value) :=
  v ← v;
  Some [VDecimal (tr_Total v); VDecimal (tr_Validation v); VDecimal (tr_Staking v);
        VDecimal (tr_Candidate v); VDecimal (tr_Flips v); VDecimal (tr_FlipsExtra v);
        VDecimal (tr_Invitations v); VDecimal (tr_FoundationPayouts v);
        VDecimal (tr_ZeroWalletFund v); VDecimal (tr_ValidationShare v);
        VDecimal (tr_StakingShare v); VDecimal (tr_CandidateShare v);
        VDecimal (tr_FlipsShare v); VDecimal (tr_FlipsExtraShare v);
        VDecimal (tr_InvitationsShare v); VDecimal (tr_Reports v); VDecimal (tr_ReportsShare v)].

(** Go: db/postgres_types.go Reward.Value *)
Definition Reward_Value (v : RewardRecord) : list value :=
  [VString (rr_Address v); VDecimal (rr_Balance v); VDecimal (rr_Stake v); VInt (rr_Type v)].

(** Go: db/postgres_types.go RewardedInvite.Value *)
Definition RewardedInvite_Value (v : RewardedInvite) : list value :=
  [VString (ri_TxHash v); VInt (ri_Type v); VInt (ri_EpochHeight v)].

(** Go: db/postgres_types.go RewardedInvitee.Value *)
Definition RewardedInvitee_Value (v : RewardedInvitee) : list value :=
  [VString (rie_TxHash v); VInt (rie_EpochHeight v)].

(** Go: db/postgres_types.go SavedInviteRewards.Value *)
Definition SavedInviteRewards_Value (v : SavedInviteRewards) : list value :=
  [VString (sir_Address v); VInt (sir_Type v); VInt (sir_Count v)].

(** Go: db/postgres_types.go ReportedFlipReward.Value *)
Definition ReportedFlipReward_Value (v : ReportedFlipReward) : list value :=
  [VString (rfr_Address v); VString (rfr_Cid v); VDecimal (rfr_Balance v); VDecimal (rfr_Stake v)].

(** Go: db/postgres_types.go FlipWords.Value *)
Definition FlipWords_Value (v : FlipWords) : list value :=
  [VString (fw_Cid v); VInt (fw_Word1 v); VInt (fw_Word2 v); VString (fw_TxHash v)].

(** Go: db/types.go FailedFlipContent *)
Record FailedFlipContent := mkFailedFlipContent {
  ffc_Cid : string; ffc_AttemptsLimitReached : bool; ffc_NextAttemptTimestamp : option Z
}.

(** Go: db/postgres_types.go FailedFlipContent.Value *)
Definition FailedFlipContent_Value (v : FailedFlipContent) : list value :=
  [VString (ffc_Cid v); VBool (ffc_AttemptsLimitReached v);
   VInt (match ffc_NextAttemptTimestamp v with Some t => swrap 64 t | None => 0 end)].

(** ** The rows of the contracts *)

(** Go: db/postgres_types.go OracleVotingContract.Value *)
Definition OracleVotingContract_Value (v : OracleVotingContract) : list value :=
  [VHash (ovc_TxHash v); VAddress (ovc_ContractAddress v); VFloat (ovc_Stake v);
   VInt (ovc_StartTime v); VInt (ovc_VotingDuration v); negativeIfNil (ovc_VotingMinPayment v);
   VHex (ovc_Fact v); VInt (ovc_State v); VInt (ovc_PublicVotingDuration v);
   VInt (ovc_WinnerThreshold v); VInt (ovc_Quorum v); VInt (ovc_CommitteeSize v);
   VInt (ovc_OwnerFee v); negativeIfNil (ovc_OwnerDeposit v); negativeIfNil (ovc_OracleRewardFund v);
   VAddressOrEmpty (ovc_RefundRecipient v); VHex (ovc_Hash v); VInt (ovc_NetworkSize v)].

(** Go: db/postgres_types.go OracleVotingContractCallVoteProof.Value *)
Definition OracleVotingContractCallVoteProof_Value (v : OracleVotingContractCallVoteProof) : list value :=
  [VHash (ovp_TxHash v); VHex (ovp_VoteHash v); VInt (negativeIfNilUint64 (ovp_NewSecretVotesCount v));
   VBool (ovp_DiscriminatedNewbie v); VBool (ovp_DiscriminatedDelegation v);
   VBool (ovp_DiscriminatedStake v)].

(** Go: db/postgres_types.go OracleVotingContractCallVote.Value

    [Delegatee.IsEmpty()]: the zero address. *)
Definition OracleVotingContractCallVote_Value (v : OracleVotingContractCallVote) : list value :=
  let delegatee := match ovv_Delegatee v with
                   | Some d => if decide (d = zeroAddress) then EmptyString else address_Hex d
                   | None => EmptyString
                   end in
  [VHash (ovv_TxHash v); VInt (ovv_Vote v); VHex (ovv_Salt v);
   VInt (negativeIfNilUint64 (ovv_OptionVotes v)); VInt (ovv_OptionAllVotes v);
   VInt (negativeIfNilUint64 (ovv_SecretVotesCount v)); VString delegatee;
   VInt (negativeIfNilByte (ovv_PrevPoolVote v)); VInt (negativeIfNilUint64 (ovv_PrevOptionVotes v));
   VBool (ovv_DiscriminatedNewbie v); VBool (ovv_DiscriminatedDelegation v);
   VBool (ovv_DiscriminatedStake v)].

(** Go: db/postgres_types.go OracleVotingContractCallFinish.Value *)
Definition OracleVotingContractCallFinish_Value (v : OracleVotingContractCallFinish) : list value :=
  [VHash (ovf_TxHash v); VInt (ovf_State v); VInt (negativeIfNilByte (ovf_Result v));
   VFloat (ovf_Fund v); VFloat (ovf_OracleReward v); VFloat (ovf_OwnerReward v)].

(** Go: db/postgres_types.go OracleVotingContractCallAddStake.Value *)
Definition OracleVotingContractCallAddStake_Value (v : OracleVotingContractCallAddStake) : list value :=
  [VHash (ova_TxHash v)].

(** Go: db/postgres_types.go OracleVotingContractTermination.Value *)
Definition OracleVotingContractTermination_Value (v : OracleVotingContractTermination) : list value :=
  [VHash (ovt_TxHash v); negativeIfNil (ovt_Fund v); negativeIfNil (ovt_OracleReward v);
   negativeIfNil (ovt_OwnerReward v)].

(** Go: db/postgres_types.go OracleLockContract.Value *)
Definition OracleLockContract_Value (v : OracleLockContract) : list value :=
  [VHash (olc_TxHash v); VAddress (olc_ContractAddress v); VFloat (olc_Stake v);
   VAddress (olc_OracleVotingAddress v); VInt (olc_ExpectedValue v);
   VAddress (olc_SuccessAddress v); VAddress (olc_FailAddress v)].

(** Go: db/postgres_types.go OracleLockContractCallPush.Value *)
Definition OracleLockContractCallPush_Value (v : OracleLockContractCallPush) : list value :=
  [VHash (olp_TxHash v); VBool (olp_Success v); VInt (olp_OracleVotingResult v); VFloat (olp_Transfer v)].

(** Go: db/postgres_types.go OracleLockContractCallCheckOracleVoting.Value *)
Definition OracleLockContractCallCheckOracleVoting_Value (v : OracleLockContractCallCheckOracleVoting)
    : list value := [VHash (olk_TxHash v); VInt (negativeIfNilByte (olk_OracleVotingResult v))].

(** Go: db/postgres_types.go OracleLockContractTermination.Value *)
Definition OracleLockContractTermination_Value (v : OracleLockContractTermination) : list value :=
  [VHash (olt_TxHash v); VAddress (olt_Dest v)].

(** Go: db/postgres_types.go RefundableOracleLockContract.Value *)
Definition RefundableOracleLockContract_Value (v : RefundableOracleLockContract) : list value :=
  [VHash (rlc_TxHash v); VAddress (rlc_ContractAddress v); VFloat (rlc_Stake v);
   VAddress (rlc_OracleVotingAddress v); VInt (rlc_ExpectedValue v);
   VAddressOrEmpty (rlc_SuccessAddress v); VAddressOrEmpty (rlc_FailAddress v);
   VInt (rlc_RefundDelay v); VInt (rlc_DepositDeadline v); VInt (rlc_OracleVotingFeeOld v);
   VInt (rlc_OracleVotingFee v)].

(** Go: db/postgres_types.go RefundableOracleLockContractCallDeposit.Value *)
Definition RefundableOracleLockContractCallDeposit_Value (v : RefundableOracleLockContractCallDeposit)
    : list value := [VHash (rld_TxHash v); VFloat (rld_OwnSum v); VFloat (rld_Sum v); VFloat (rld_Fee v)].

(** Go: db/postgres_types.go RefundableOracleLockContractCallPush.Value *)
Definition RefundableOracleLockContractCallPush_Value (v : RefundableOracleLockContractCallPush)
    : list value :=
  [VHash (rlp_TxHash v); VInt (rlp_State v); VBool (rlp_OracleVotingExists v);
   VInt (negativeIfNilByte (rlp_OracleVotingResult v)); VFloat (rlp_Transfer v); VInt (rlp_RefundBlock v)].

(** Go: db/postgres_types.go RefundableOracleLockContractCallRefund.Value *)
Definition RefundableOracleLockContractCallRefund_Value (v : RefundableOracleLockContractCallRefund)
    : list value := [VHash (rlr_TxHash v); VFloat (rlr_Balance v); VFloat64 (rlr_Coef v)].

(** Go: db/postgres_types.go RefundableOracleLockContractTermination.Value *)
Definition RefundableOracleLockContractTermination_Value (v : RefundableOracleLockContractTermination)
    : list value := [VHash (rlt_TxHash v); VAddress (rlt_Dest v)].

(** Go: db/postgres_types.go TimeLockContract.Value *)
Definition TimeLockContract_Value (v : TimeLockContract) : list value :=
  [VHash (tlc_TxHash v); VAddress (tlc_ContractAddress v); VFloat (tlc_Stake v); VInt (tlc_Timestamp v)].

(** Go: db/postgres_types.go TimeLockContractCallTransfer.Value *)
Definition TimeLockContractCallTransfer_Value (v : TimeLockContractCallTransfer) : list value :=
  [VHash (tlx_TxHash v); VAddress (tlx_Dest v); VFloat (tlx_Amount v)].

(** Go: db/postgres_types.go TimeLockContractTermination.Value *)
Definition TimeLockContractTermination_Value (v : TimeLockContractTermination) : list value :=
  [VHash (tlt_TxHash v); VAddress (tlt_Dest v)].

(** Go: db/postgres_types.go MultisigContract.Value *)
Definition MultisigContract_Value (v : MultisigContract) : list value :=
  [VHash (msc_TxHash v); VAddress (msc_ContractAddress v); VFloat (msc_Stake v);
   VInt (msc_MinVotes v); VInt (msc_MaxVotes v); VInt (msc_State v)].

(** Go: db/postgres_types.go MultisigContractCallAdd.Value *)
Definition MultisigContractCallAdd_Value (v : MultisigContractCallAdd) : list value :=
  [VHash (msa_TxHash v); VAddress (msa_Address v); VInt (negativeIfNilByte (msa_NewState v))].

(** Go: db/postgres_types.go MultisigContractCallSend.Value *)
Definition MultisigContractCallSend_Value (v : MultisigContractCallSend) : list value :=
  [VHash (mss_TxHash v); VAddress (mss_Dest v); VFloat (mss_Amount v)].

(** Go: db/postgres_types.go MultisigContractCallPush.Value *)
Definition MultisigContractCallPush_Value (v : MultisigContractCallPush) : list value :=
  [VHash (msp_TxHash v); VAddress (msp_Dest v); VFloat (msp_Amount v);
   VInt (msp_VoteAddressCnt v); VInt (msp_VoteAmountCnt v)].

(** Go: db/postgres_types.go MultisigContractTermination.Value *)
Definition MultisigContractTermination_Value (v : MultisigContractTermination) : list value :=
  [VHash (mst_TxHash v); VAddress (mst_Dest v)].
End printing.

(** ** Documents *)

Section documents.
Context `{DbText}.

(** Go: db/postgres_types.go oracleVotingContractCallStart *)
Record oracleVotingContractCallStart := mkCallStartDocument {
  js_TxHash : string; js_State : Z; js_StartHeight : Z; js_Epoch : Z;
  js_VotingMinPayment : option string; js_VrfSeed : bytes; js_Committee : list string;
  js_CommitteeSize : Z
}.

(** Go: db/postgres_types.go OracleVotingContractCallStart.Value *)
Definition OracleVotingContractCallStart_Value (v : OracleVotingContractCallStart)
    : oracleVotingContractCallStart :=
  mkCallStartDocument (hash_Hex (ovs_TxHash v)) (ovs_State v) (ovs_StartHeight v) (ovs_Epoch v)
    (match ovs_VotingMinPayment v with
     | Some p => Some (Decimal_String (ConvertToFloat (Some p)))
     | None => None
     end)
    (ovs_VrfSeed v) (address_Hex <$> ovs_Committee v) (ovs_CommitteeSize v).

(** Go: db/postgres_types.go oracleVotingContractCallProlongation *)
Record oracleVotingContractCallProlongation := mkProlongationDocument {
  jp_TxHash : string; jp_Epoch : Z; jp_StartHeight : option Z; jp_VrfSeed : bytes;
  jp_EpochWithoutGrowth : option Z; jp_ProlongVoteCount : option Z;
  jp_Committee : list string; jp_CommitteeSize : Z
}.

(** Go: db/postgres_types.go OracleVotingContractCallProlongation.Value *)
Definition OracleVotingContractCallProlongation_Value (v : OracleVotingContractCallProlongation)
    : oracleVotingContractCallProlongation :=
  mkProlongationDocument (hash_Hex (ovl_TxHash v)) (ovl_Epoch v) (ovl_StartBlock v) (ovl_VrfSeed v)
    (ovl_EpochWithoutGrowth v) (ovl_ProlongVoteCount v) (address_Hex <$> ovl_Committee v)
    (ovl_CommitteeSize v).

(** Go: db/postgres_types.go contractTxBalanceUpdate *)
Record contractTxBalanceUpdate := mkContractTxBalanceUpdateDocument {
  jb_Address : string; jb_BalanceOld : option Decimal; jb_BalanceNew : option Decimal;
  jb_ContractAddress : string
}.

(** Go: db/postgres_types.go contractTxBalanceUpdates *)
Record contractTxBalanceUpdates := mkContractTxBalanceUpdatesDocument {
  ju_TxHash : string; ju_ContractAddress : string; ju_ContractCallMethod : option Z;
  ju_Updates : list contractTxBalanceUpdate
}.

(** Go: db/postgres_types.go ContractTxBalanceUpdates.Value *)
Definition ContractTxBalanceUpdates_Value (v : ContractTxBalanceUpdates) : contractTxBalanceUpdates :=
  let amount b := match b with Some _ => Some (ConvertToFloat b) | None => None end in
  mkContractTxBalanceUpdatesDocument (hash_Hex (cbs_TxHash v)) (address_Hex (cbs_ContractAddress v))
    (cbs_ContractCallMethod v)
    ((λ u, mkContractTxBalanceUpdateDocument (address_Hex (cbu_Address u))
             (amount (cbu_BalanceOld u)) (amount (cbu_BalanceNew u))
             (match cbu_ContractAddress u with Some a => address_Hex a | None => EmptyString end))
     <$> cbs_Updates v).

(** Go: db/types.go FlipContent *)
Record FlipContent := mkFlipContent {
  fc_Cid : string; fc_Pics : list bytes; fc_Orders : list (list Z); fc_Icon : bytes
}.

(** Go: db/postgres_types.go flipContent

    The pictures have no [omitempty]: [None] is the nil slice, encoded as null. *)
Record flipContent := mkFlipContentDocument {
  jf_Cid : string; jf_Pics : option (list bytes); jf_Orders : list (list Z); jf_Icon : bytes
}.

(** An assignment to an element of the slice [Orders[i][j]]: out of range, it panics. *)
Definition set_order (orders : list (list Z)) (i j : nat) (order : Z) : option (list (list Z)) :=
  match orders !! i with
  | Some row => if decide (j < length row) then Some (<[i := <[j := order]> row]> orders) else None
  | None => None
  end.

(** The inner loop, over the orders of an answer. *)
Definition add_orders (i n : nat) : list Z → nat → list (list Z) → option (list (list Z)) :=
  fix go answerOrders j orders :=
    match answerOrders with
    | [] => Some orders
    | order :: rest =>
        let orders := if (j =? 0)%nat then orders ++ [replicate n 0%Z] else orders in
        orders ← set_order orders i j order;
        go rest (S j) orders
    end.

(** The outer loop. *)
Fixpoint convert_orders (answers : list (list Z)) (i : nat) (orders : list (list Z))
    : option (list (list Z)) :=
  match answers with
  | [] => Some orders
  | answerOrders :: rest =>
      orders ← add_orders i (length answerOrders) answerOrders 0 orders;
      convert_orders rest (S i) orders
  end.

(** A slice that starts as nil and to which the elements of [l] are appended. *)
Definition appended {A} (l : list A) : option (list A) :=
  foldl (λ s x, Some (default [] s ++ [x])) None l.

Lemma appended_all {A} (l : list A) : appended l = match l with [] => None | _ => Some l end.
Proof.
  induction l as [|x l IH] using rev_ind; [done|]. unfold appended in *. rewrite foldl_app, IH. by destruct l.
Qed.

(** Go: db/postgres_types.go FlipContent.Value

    [None] is a panic. *)
Definition FlipContent_Value (v : FlipContent) : option flipContent :=
  orders ← convert_orders (fc_Orders v) 0 [];
  Some (mkFlipContentDocument (fc_Cid v) (appended (fc_Pics v)) orders (fc_Icon v)).

(** ** Arrays of rows *)

(** Go: db/postgres_types.go postgresAddrBurntCoins *)
Record postgresAddrBurntCoins := mkAddrBurntCoins { pb_BurntCoins : BurntCoins; pb_address : string }.

(** Go: db/postgres_types.go postgresAddrBurntCoins.Value

    [getTxId] finds the id of a transaction; [None] is an error. *)
Definition postgresAddrBurntCoins_Value (getTxId : string → option Z) (v : postgresAddrBurntCoins)
    : option (list value) :=
  txId ← (if (0 <? String.length (bc_TxHash (pb_BurntCoins v)))%nat
          then getTxId (bc_TxHash (pb_BurntCoins v)) else Some 0%Z);
  Some [VString (pb_address v); VDecimal (bc_Amount (pb_BurntCoins v));
        VInt (BurntCoinsReason_byte (bc_Reason (pb_BurntCoins v))); VInt txId].

(** Go: db/postgres_types.go getPostgresBurntCoins

    The map in the order it is ranged over; the first coins of an address carry it. *)
Definition getPostgresBurntCoins (v : list (Address * list BurntCoins)) : list postgresAddrBurntCoins :=
  v ≫= λ '(addr, coins),
    imap (λ i c, mkAddrBurntCoins c (if (i =? 0)%nat then address_Hex addr else EmptyString)) coins.

(** Go: db/postgres_types.go postgresAddress *)
Record postgresAddress := mkPostgresAddress { pa_address : string; pa_isTemporary : bool }.

(** Go: db/postgres_types.go postgresAddress.Value *)
Definition postgresAddress_Value (v : postgresAddress) : list value :=
  [VString (pa_address v); VBool (pa_isTemporary v)].

(** Go: db/postgres_types.go postgresAddressStateChange *)
Record postgresAddressStateChange := mkPostgresStateChange {
  pc_address : string; pc_newState : Z; pc_txHash : string
}.

(** Go: db/postgres_types.go postgresAddressStateChange.Value *)
Definition postgresAddressStateChange_Value (v : postgresAddressStateChange) : list value :=
  [VString (pc_address v); VInt (pc_newState v); VString (pc_txHash v)].

(** Go: db/postgres_types.go getPostgresAddressesAndAddressStateChangesArrays *)
Definition getPostgresAddressesAndAddressStateChangesArrays (addresses : list AddressRecord)
    : list postgresAddress * list postgresAddressStateChange :=
  foldl (λ '(convertedAddresses, convertedAddressStateChanges) address,
    (convertedAddresses ++ [mkPostgresAddress (ad_Address address) (ad_IsTemporary address)],
     convertedAddressStateChanges
     ++ ((λ c, mkPostgresStateChange (ad_Address address) (asc_NewState c) (asc_TxHash c))
         <$> ad_StateChanges address))) ([], []) addresses.

(** Go: db/postgres_types.go postgresAnswer *)
Record postgresAnswer := mkPostgresAnswer {
  pn_flipCid : string; pn_address : string; pn_isShort : bool; pn_answer : Z; pn_point : Float32;
  pn_grade : Z; pn_index : Z; pn_considered : bool
}.

(** Go: db/postgres_types.go postgresAnswer.Value *)
Definition postgresAnswer_Value (v : postgresAnswer) : list value :=
  [VString (pn_flipCid v); VString (pn_address v); VBool (pn_isShort v); VInt (pn_answer v);
   VFloat32 (pn_point v); VInt (pn_grade v); VInt (pn_index v); VBool (pn_considered v)].

(** Go: db/postgres_types.go postgresFlipsState *)
Record postgresFlipsState := mkPostgresFlipsState {
  ps_flipCid : string; ps_answer : Z; ps_status : Z; ps_grade : Z; ps_gradeScore : Float32
}.

(** Go: db/postgres_types.go postgresFlipsState.Value *)
Definition postgresFlipsState_Value (v : postgresFlipsState) : list value :=
  [VString (ps_flipCid v); VInt (ps_answer v); VInt (ps_status v); VInt (ps_grade v);
   VFloat32 (ps_gradeScore v)].

(** [counts[address]++], an int *)
Definition incr (address : string) (m : gmap string Z) : gmap string Z :=
  <[address := swrap 64 (default 0%Z (m !! address) + 1)]> m.

(** The variables of [getFlipStatsArrays]. *)
Record FlipArrays := mkFlipArrays {
  fa_answers : list postgresAnswer; fa_states : list postgresFlipsState;
  fa_shortAnswerCountsByAddr : gmap string Z; fa_longAnswerCountsByAddr : gmap string Z;
  fa_wrongWordsFlipsCountsByAddr : gmap string Z
}.

(** Go: db/postgres_types.go getFlipStatsArrays:731-743

    The closure [convertAndAddAnswer]. *)
Definition convertAndAddAnswer (isShort : bool) (flipCid : string) (answer : Answer) (r : FlipArrays)
    : FlipArrays :=
  r <| fa_answers ::= λ l, l ++ [mkPostgresAnswer flipCid (an_Address answer) isShort (an_Answer answer)
         (an_Point answer) (an_Grade answer) (an_Index answer) (an_Considered answer)] |>.

(** Go: db/postgres_types.go getFlipStatsArrays *)
Definition getFlipStatsArrays (stats : list FlipStatsRecord) : FlipArrays :=
  foldl (λ r s,
    let r := foldl (λ r answer,
               (convertAndAddAnswer true (fsr_Cid s) answer r)
                 <| fa_shortAnswerCountsByAddr ::= incr (an_Address answer) |>) r (fsr_ShortAnswers s) in
    let r := foldl (λ r answer,
               (convertAndAddAnswer false (fsr_Cid s) answer r)
                 <| fa_longAnswerCountsByAddr ::= incr (an_Address answer) |>) r (fsr_LongAnswers s) in
    let r := r <| fa_states ::= λ l, l ++ [mkPostgresFlipsState (fsr_Cid s) (fsr_Answer s) (fsr_Status s)
                   (fsr_Grade s) (Float32_of_Float64 (Decimal_Float64 (fsr_GradeScore s)))] |> in
    if (fsr_Grade s =? 1)%Z then r <| fa_wrongWordsFlipsCountsByAddr ::= incr (fsr_Author s) |> else r)
    (mkFlipArrays [] [] ∅ ∅ ∅) stats.

(** Go: db/postgres_types.go postgresEpochIdentity *)
Record postgresEpochIdentity := mkPostgresEpochIdentity {
  pe_address : string; pe_state : Z; pe_shortPoint : Float32; pe_shortFlips : Z;
  pe_totalShortPoint : Float32; pe_totalShortFlips : Z; pe_longPoint : Float32; pe_longFlips : Z;
  pe_approved : bool; pe_missed : bool; pe_requiredFlips : Z; pe_availableFlips : Z;
  pe_madeFlips : Z; pe_nextEpochInvites : Z; pe_birthEpoch : Z; pe_shortAnswers : Z;
  pe_longAnswers : Z; pe_wrongWordsFlips : Z; pe_delegateeAddress : string; pe_shardId : Z;
  pe_newShardId : Z; pe_wrongGradeReason : Z
}.

(** Go: db/postgres_types.go postgresEpochIdentity.Value *)
Definition postgresEpochIdentity_Value (v : postgresEpochIdentity) : list value :=
  [VString (pe_address v); VInt (pe_state v); VFloat32 (pe_shortPoint v); VInt (pe_shortFlips v);
   VFloat32 (pe_totalShortPoint v); VInt (pe_totalShortFlips v); VFloat32 (pe_longPoint v);
   VInt (pe_longFlips v); VBool (pe_approved v); VBool (pe_missed v); VInt (pe_requiredFlips v);
   VInt (pe_availableFlips v); VInt (pe_madeFlips v); VInt (pe_nextEpochInvites v);
   VInt (pe_birthEpoch v); VInt (pe_shortAnswers v); VInt (pe_longAnswers v);
   VInt (pe_wrongWordsFlips v); VString (pe_delegateeAddress v); VInt (pe_shardId v);
   VInt (pe_newShardId v); VInt (pe_wrongGradeReason v)].

(** Go: db/postgres_types.go postgresFlipToSolve *)
Record postgresFlipToSolve := mkPostgresFlipToSolve {
  pf_address : string; pf_cid : string; pf_isShort : bool; pf_index : Z
}.

(** Go: db/postgres_types.go postgresFlipToSolve.Value *)
Definition postgresFlipToSolve_Value (v : postgresFlipToSolve) : list value :=
  [VString (pf_address v); VString (pf_cid v); VBool (pf_isShort v); VInt (pf_index v)].

(** The flips an identity had to solve. *)
Definition flips_to_solve (isShort : bool) (address : string) (cids : list string) : list postgresFlipToSolve :=
  imap (λ i flipCid, mkPostgresFlipToSolve address flipCid isShort (u16 (Z.of_nat i))) cids.

(** Go: db/postgres_types.go getEpochIdentitiesArrays

    The counts are those of [getFlipStatsArrays], whose maps are not nil. *)
Definition getEpochIdentitiesArrays (identities : list EpochIdentity)
    (shortAnswerCountsByAddr longAnswerCountsByAdds wrongWordsFlipsCountsByAddr : gmap string Z)
    : list postgresEpochIdentity * list postgresFlipToSolve :=
  foldl (λ '(convertedIdentities, convertedFlipsToSolve) identity,
    let address := ei_Address identity in
    (convertedIdentities ++ [{|
       pe_address := address; pe_state := ei_State identity; pe_shortPoint := ei_ShortPoint identity;
       pe_shortFlips := ei_ShortFlips identity; pe_totalShortPoint := ei_TotalShortPoint identity;
       pe_totalShortFlips := ei_TotalShortFlips identity; pe_longPoint := ei_LongPoint identity;
       pe_longFlips := ei_LongFlips identity; pe_approved := ei_Approved identity;
       pe_missed := ei_Missed identity; pe_requiredFlips := ei_RequiredFlips identity;
       pe_availableFlips := ei_AvailableFlips identity; pe_madeFlips := ei_MadeFlips identity;
       pe_nextEpochInvites := ei_NextEpochInvites identity; pe_birthEpoch := ei_BirthEpoch identity;
       pe_shortAnswers := u32 (default 0%Z (shortAnswerCountsByAddr !! address));
       pe_longAnswers := u32 (default 0%Z (longAnswerCountsByAdds !! address));
       pe_wrongWordsFlips := u8 (default 0%Z (wrongWordsFlipsCountsByAddr !! address));
       pe_delegateeAddress := ei_DelegateeAddress identity; pe_shardId := u32 (ei_ShardId identity);
       pe_newShardId := u32 (ei_NewShardId identity);
       pe_wrongGradeReason := u32 (ei_WrongGradeReason identity) |}],
     convertedFlipsToSolve ++ flips_to_solve true address (ei_ShortFlipCidsToSolve identity)
                           ++ flips_to_solve false address (ei_LongFlipCidsToSolve identity)))
    ([], []) identities.

(** Go: db/postgres_types.go postgresRewardAge *)
Record postgresRewardAge := mkPostgresRewardAge { pg_address : string; pg_age : Z }.

(** Go: db/postgres_types.go postgresRewardAge.Value *)
Definition postgresRewardAge_Value (v : postgresRewardAge) : list value :=
  [VString (pg_address v); VInt (pg_age v)].

(** Go: db/postgres_types.go postgresRewardStakedAmount *)
Record postgresRewardStakedAmount := mkPostgresRewardStakedAmount { pd_address : string; pd_amount : Decimal }.

(** Go: db/postgres_types.go postgresRewardStakedAmount.Value *)
Definition postgresRewardStakedAmount_Value (v : postgresRewardStakedAmount) : list value :=
  [VString (pd_address v); VDecimal (pd_amount v)].

(** Go: db/postgres_types.go getRewardAgesArray *)
Definition getRewardAgesArray (agesByAddress : list (string * Z)) : list postgresRewardAge :=
  (λ p, mkPostgresRewardAge p.1 p.2) <$> agesByAddress.

(** Go: db/postgres_types.go getRewardStakedAmountsArray *)
Definition getRewardStakedAmountsArray (stakedAmountsByAddress : list (string * option Z))
    : list postgresRewardStakedAmount :=
  (λ p, mkPostgresRewardStakedAmount p.1 (ConvertToFloat p.2)) <$> stakedAmountsByAddress.
End documents.

(** ** The documents of a block *)

Section block_documents.
Context `{DbText}.

(** [omitempty]: a list that is not made is not encoded, which is what an empty one is
    here. *)

(** Go: db/postgres_types.go delegationSwitch *)
Record delegationSwitch := mkDelegationSwitchDocument {
  jd_Delegator : string; jd_Delegatee : option string; jd_BirthEpoch : option Z
}.

(** Go: db/postgres_types.go upgradeVotes *)
Record upgradeVotes := mkUpgradeVotesDocument { jv_Upgrade : Z; jv_Votes : Z; jv_Timestamp : Z }.

(** Go: db/postgres_types.go removedTransitiveDelegation *)
Record removedTransitiveDelegation := mkRemovedDocument { jr_Delegator : string; jr_Delegatee : string }.

(** Go: db/postgres_types.go poolSize *)
Record poolSize := mkPoolSizeDocument { jz_Address : string; jz_Size : Z; jz_TotalDelegated : Z }.

(** Go: db/postgres_types.go txEvent *)
Record txEvent := mkTxEventDocument { je_EventName : string; je_Data : list bytes }.

(** Go: db/postgres_types.go txReceipt *)
Record txReceipt := mkTxReceiptDocument {
  jt_ContractAddress : string; jt_Success : bool; jt_GasUsed : Z; jt_GasCost : Decimal;
  jt_From : string; jt_TxHash : string; jt_Error : string; jt_Events : list txEvent;
  jt_Method : string; jt_ActionResult : bytes
}.

(** Go: db/postgres_types.go contract *)
Record contract := mkContractDocument {
  jc_ContractAddress : string; jc_TxHash : string; jc_Code : bytes
}.

(** Go: db/postgres_types.go data *)
Record data := mkDocument {
  jdt_Txs : list Transaction;
  jdt_DelegationSwitches : list delegationSwitch;
  jdt_UpgradesVotes : list upgradeVotes;
  jdt_PoolSizes : list poolSize;
  jdt_MinersHistoryItem : option MinersHistoryItem;
  jdt_RemovedTransitiveDelegations : list removedTransitiveDelegation;
  jdt_CandidateCountDiff : Z;
  jdt_OracleVotingContractsToProlong : list string;
  jdt_TxReceipts : list txReceipt;
  jdt_Contracts : list contract;
  jdt_Tokens : list (Address * Token);
  jdt_TokenBalanceUpdates : list TokenBalance;
  jdt_DelegationHistoryUpdates : list DelegationHistoryUpdate
}.

(** Go: db/postgres_types.go convertTxEvent *)
Definition convertTxEvent (event : TxEvent) : txEvent :=
  mkTxEventDocument (ev_EventName event) (ev_Data event).

(** Go: db/postgres_types.go convertTxEvents *)
Definition convertTxEvents (events : list TxEvent) : list txEvent := convertTxEvent <$> events.

(** Go: db/postgres_types.go convertTxReceipt *)
Definition convertTxReceipt (v : TxReceipt) : txReceipt :=
  mkTxReceiptDocument (address_Hex (rc_ContractAddress v)) (rc_Success v) (rc_GasUsed v)
    (ConvertToFloat (rc_GasCost v)) (address_Hex (rc_From v)) (hash_Hex (rc_TxHash v))
    (default EmptyString (rc_Error v)) (convertTxEvents (rc_Events v)) (rc_Method v)
    (rc_ActionResult v).

(** Go: db/postgres_types.go convertContract *)
Definition convertContract (v : Contract) : contract :=
  mkContractDocument (address_Hex (wc_ContractAddress v)) (hash_Hex (wc_TxHash v)) (wc_Code v).

(** Go: db/postgres_types.go getData *)
Definition getData (txs : list Transaction) (delegationSwitches : list DelegationSwitch)
    (upgradesVotes : list UpgradeVotes) (poolSizes : list PoolSizeRecord)
    (minersHistoryItem : option MinersHistoryItem)
    (removedTransitiveDelegations : list RemovedTransitiveDelegation) (epochSummaryUpdate : Z)
    (oracleVotingContractsToProlong : list Address) (txReceipts : list TxReceipt)
    (contracts : list Contract) (tokens : list (Address * Token))
    (tokenBalanceUpdates : list TokenBalance)
    (delegationHistoryUpdates : list DelegationHistoryUpdate) : data := {|
  jdt_Txs := txs;
  jdt_DelegationSwitches :=
    (λ s, mkDelegationSwitchDocument (address_Hex (ds_Delegator s))
            (match ds_Delegatee s with Some d => Some (address_Hex d) | None => None end)
            (ds_BirthEpoch s)) <$> delegationSwitches;
  jdt_UpgradesVotes :=
    (λ v, mkUpgradeVotesDocument (uv_Upgrade v) (uv_Votes v) (uv_Timestamp v)) <$> upgradesVotes;
  jdt_PoolSizes :=
    (λ p, mkPoolSizeDocument (address_Hex (ps_Address p)) (ps_Size p) 0) <$> poolSizes;
  jdt_MinersHistoryItem := minersHistoryItem;
  jdt_RemovedTransitiveDelegations :=
    (λ i, mkRemovedDocument (address_Hex (rtd_Delegator i)) (address_Hex (rtd_Delegatee i)))
      <$> removedTransitiveDelegations;
  jdt_CandidateCountDiff := epochSummaryUpdate;
  jdt_OracleVotingContractsToProlong := address_Hex <$> oracleVotingContractsToProlong;
  jdt_TxReceipts := convertTxReceipt <$> txReceipts;
  jdt_Contracts := convertContract <$> contracts;
  jdt_Tokens := tokens;
  jdt_TokenBalanceUpdates := tokenBalanceUpdates;
  jdt_DelegationHistoryUpdates := delegationHistoryUpdates
|}.

(** ** The documents of an epoch *)

(** Go: db/postgres_types.go delegationEpochReward *)
Record delegationEpochReward := mkDelegationEpochRewardDocument {
  jw_Total : Decimal;
  jw_Validation : option Decimal; jw_Flips : option Decimal; jw_Invitations : option Decimal;
  jw_Invitations2 : option Decimal; jw_Invitations3 : option Decimal;
  jw_SavedInvites : option Decimal; jw_SavedInvitesWin : option Decimal;
  jw_Reports : option Decimal; jw_Candidate : option Decimal; jw_Staking : option Decimal;
  jw_ExtraFlips : option Decimal; jw_Invitee1 : option Decimal; jw_Invitee2 : option Decimal;
  jw_Invitee3 : option Decimal
}.

(** [delegationEpochReward{}], with the zero [decimal.Decimal] *)
Definition noDelegationEpochReward : delegationEpochReward :=
  mkDelegationEpochRewardDocument (Decimal_of_int 0) None None None None None None None None None
    None None None None None.

(** Go: db/postgres_types.go convertDelegationEpochRewards:1210-1240

    One turn of the loop: the field of the type of the reward is set. *)
Definition set_reward (res : delegationEpochReward) (item : DelegationEpochReward)
    : delegationEpochReward :=
  let balance := Some (ConvertToFloat (Some (der_Balance item))) in
  match der_Type item with
  | 0 => res <| jw_Validation := balance |>
  | 1 => res <| jw_Flips := balance |>
  | 2 => res <| jw_Invitations := balance |>
  | 5 => res <| jw_Invitations2 := balance |>
  | 6 => res <| jw_Invitations3 := balance |>
  | 7 => res <| jw_SavedInvites := balance |>
  | 8 => res <| jw_SavedInvitesWin := balance |>
  | 9 => res <| jw_Reports := balance |>
  | 11 => res <| jw_Candidate := balance |>
  | 10 => res <| jw_Staking := balance |>
  | 12 => res <| jw_ExtraFlips := balance |>
  | 13 => res <| jw_Invitee1 := balance |>
  | 14 => res <| jw_Invitee2 := balance |>
  | 15 => res <| jw_Invitee3 := balance |>
  | _ => res
  end%Z.

(** Go: db/postgres_types.go convertDelegationEpochRewards *)
Definition convertDelegationEpochRewards (items : list DelegationEpochReward) : delegationEpochReward :=
  match items with
  | [] => noDelegationEpochReward
  | _ =>
      let '(res, total) := foldl (λ '(res, total) item,
                             (set_reward res item, (total + der_Balance item)%Z))
                             (noDelegationEpochReward, 0%Z) items in
      res <| jw_Total := ConvertToFloat (Some total) |>
  end.

(** Go: db/postgres_types.go delegatorEpochReward *)
Record delegatorEpochReward := mkDelegatorDocument {
  jo_Address : string; jo_TotalReward : delegationEpochReward
}.

(** Go: db/postgres_types.go delegateeEpochRewards *)
Record delegateeEpochRewards := mkDelegateeDocument {
  jp_Address : string; jp_TotalReward : delegationEpochReward;
  jp_DelegatorRewards : list delegatorEpochReward; jp_PenalizedDelegators : Z
}.

(** Go: db/postgres_types.go rewardBounds *)
Record rewardBounds := mkRewardBoundsDocument {
  jn_BoundType : Z; jn_MinAmount : Decimal; jn_MinAddress : string;
  jn_MaxAmount : Decimal; jn_MaxAddress : string
}.

(** Go: db/postgres_types.go validationRewardSummary *)
Record validationRewardSummary := mkSummaryDocument {
  jy_Earned : Decimal; jy_Missed : Decimal; jy_MissedReason : option Z
}.

(** Go: db/postgres_types.go validationRewardSummaries *)
Record validationRewardSummaries := mkSummariesDocument {
  jm_Address : string; jm_PrevStake : Decimal;
  jm_Validation : validationRewardSummary; jm_Candidate : validationRewardSummary;
  jm_Staking : validationRewardSummary; jm_Flips : validationRewardSummary;
  jm_ExtraFlips : validationRewardSummary; jm_Invitations : validationRewardSummary;
  jm_Reports : validationRewardSummary; jm_Invitee : validationRewardSummary
}.

(** Go: db/postgres_types.go epochResultData *)
Record epochResultData := mkEpochResultDocument {
  jx_FlipStatuses : list FlipStatusCount; jx_RewardsBounds : list rewardBounds;
  jx_ReportedFlips : Z; jx_DelegateesEpochRewards : list delegateeEpochRewards;
  jx_ValidationRewardsSummaries : list validationRewardSummaries;
  jx_PoolSizeChanges : list PoolSizeChange
}.

(** Go: db/postgres_types.go convertValidationRewardSummary *)
Definition convertValidationRewardSummary (v : ValidationRewardSummary) : validationRewardSummary :=
  mkSummaryDocument (ConvertToFloat (vrs_Earned v)) (ConvertToFloat (vrs_Missed v)) (vrs_MissedReason v).

(** Go: db/postgres_types.go getEpochResultData *)
Definition getEpochResultData (epochResult : EpochResult) : epochResultData := {|
  jx_FlipStatuses := ep_FlipStatuses epochResult;
  jx_RewardsBounds :=
    (λ b, mkRewardBoundsDocument (rbs_Type b)
            (ConvertToFloat (Some (rb_Amount (rbs_Min b)))) (address_Hex (rb_Address (rbs_Min b)))
            (ConvertToFloat (Some (rb_Amount (rbs_Max b)))) (address_Hex (rb_Address (rbs_Max b))))
      <$> ep_RewardsBounds epochResult;
  jx_ReportedFlips := ep_ReportedFlips epochResult;
  jx_DelegateesEpochRewards :=
    (λ i, mkDelegateeDocument (address_Hex (dee_Address i))
            (convertDelegationEpochRewards (dee_TotalRewards i))
            ((λ d, mkDelegatorDocument (address_Hex (dor_Address d))
                     (convertDelegationEpochRewards (dor_TotalRewards d))) <$> dee_DelegatorRewards i)
            (dee_PenalizedDelegators i)) <$> ep_DelegateesEpochRewards epochResult;
  jx_ValidationRewardsSummaries :=
    (λ i, {| jm_Address := vss_Address i; jm_PrevStake := ConvertToFloat (vss_PrevStake i);
             jm_Validation := convertValidationRewardSummary (vss_Validation i);
             jm_Candidate := convertValidationRewardSummary (vss_Candidate i);
             jm_Staking := convertValidationRewardSummary (vss_Staking i);
             jm_Flips := convertValidationRewardSummary (vss_Flips i);
             jm_ExtraFlips := convertValidationRewardSummary (vss_ExtraFlips i);
             jm_Invitations := convertValidationRewardSummary (vss_Invitations i);
             jm_Reports := convertValidationRewardSummary (vss_Reports i);
             jm_Invitee := convertValidationRewardSummary (vss_Invitee i) |})
      <$> ep_ValidationRewardSummaries epochResult;
  jx_PoolSizeChanges := ep_PoolSizeChanges epochResult
|}.

(** ** Restored data *)

(** Go: db/postgres_types.go delegation *)
Record delegation := mkDelegationDocument {
  jg_Delegator : string; jg_Delegatee : string; jg_BirthEpoch : option Z
}.

(** Go: db/types.go Delegation *)
Record Delegation := mkDelegation {
  dl_Delegator : Address; dl_Delegatee : Address; dl_BirthEpoch : option Z
}.

(** Go: db/types.go RestoredData *)
Record RestoredData := mkRestoredData {
  rd_BlockHeight : Z; rd_Balances : list Balance; rd_Birthdays : list Birthday;
  rd_PoolSizes : list PoolSizeRecord; rd_Delegations : list Delegation
}.

(** Go: db/postgres_types.go restoredData *)
Record restoredData := mkRestoredDocument {
  jrd_PoolSizes : list poolSize; jrd_Delegations : list delegation
}.

(** Go: db/postgres_types.go getRestoredData *)
Definition getRestoredData (data : option RestoredData) : option restoredData :=
  match data with
  | None => None
  | Some data => Some (mkRestoredDocument
      ((λ p, mkPoolSizeDocument (address_Hex (ps_Address p)) (ps_Size p) (ps_TotalDelegated p))
         <$> rd_PoolSizes data)
      ((λ d, mkDelegationDocument (address_Hex (dl_Delegator d)) (address_Hex (dl_Delegatee d))
               (dl_BirthEpoch d)) <$> rd_Delegations data))
  end.
End block_documents.

(** ** Reading a composite

    The literal of a composite in the database: its fields between parentheses, with a
    comma between two of them.  Quotes, backslashes and parentheses have a meaning of
    their own, so that a field is read as it was printed only without them. *)

Definition quote : ascii := ascii_of_nat 34.
Definition special (c : ascii) : bool :=
  existsb (Ascii.eqb c) [","; "("; ")"; "\"; quote]%char.

(** Text with no character that is special in a literal. *)
Fixpoint plain (s : string) : bool :=
  match s with
  | EmptyString => true
  | String c s => negb (special c) && plain s
  end.

(** The fields up to the closing parenthesis, which ends the literal. *)
Fixpoint fields (s : string) : option (list string) :=
  match s with
  | EmptyString => None
  | String c s =>
      if Ascii.eqb c ")" then (if String.eqb s EmptyString then Some [EmptyString] else None)
      else if Ascii.eqb c "," then l ← fields s; Some (EmptyString :: l)
      else if special c then None
      else match fields s with Some (x :: l) => Some (String c x :: l) | _ => None end
  end.

Lemma special_comma c : special c = false → Ascii.eqb c "," = false ∧ Ascii.eqb c ")" = false.
Proof.
  unfold special. cbn [existsb]. intros Hs.
  repeat (apply orb_false_iff in Hs as [? Hs]). by split.
Qed.

Lemma fields_plain s t l :
  plain s = true → fields t = Some (EmptyString :: l) → fields (String.append s t) = Some (s :: l).
Proof.
  intros Hs Ht. induction s as [|c s IH]; [done|]. cbn [plain] in Hs.
  apply andb_true_iff in Hs as [Hc Hs]. apply negb_true_iff in Hc.
  destruct (special_comma c Hc) as [Hcomma Hclose].
  change (fields (String c (String.append s t)) = Some (String c s :: l)).
  cbn [fields]. by rewrite Hclose, Hcomma, Hc, (IH Hs).
Qed.

Lemma fields_join l :
  l ≠ [] → Forall (λ s, plain s = true) l → fields (String.append (Join "," l) ")") = Some l.
Proof.
  induction l as [|s [|s' l] IH]; intros Hne Hl; [done| |].
  - apply list.Forall_cons in Hl as [Hs _]. by apply fields_plain.
  - apply list.Forall_cons in Hl as [Hs Hl].
    change (Join "," (s :: s' :: l)) with (String.append s (String ","%char (Join "," (s' :: l)))).
    rewrite append_assoc. apply fields_plain; [done|].
    change (String.append (String ","%char ?a) ?b) with (String ","%char (String.append a b)).
    cbn [fields]. rewrite IH by done. done.
Qed.

(** The columns of a type of the database: an integer has the number of its bits, and
    an amount is a numeric(30, 18). *)
Inductive column := CText | CInt (bits : Z) | CBool | CNumeric | CAmount | CDouble | CReal.
Abbreviation CSmallint := (CInt 16).
Abbreviation CInteger := (CInt 32).
Abbreviation CBigint := (CInt 64).

(** An integer of so many bits, with its sign. *)
Definition int_fits (bits z : Z) : bool := ((- 2 ^ (bits - 1) <=? z) && (z <? 2 ^ (bits - 1)))%Z.

(** How the database reads numbers; [None] is an error. *)
Class DbReading `{NodeApi} := {
  Decimal_of_text : string → option Decimal;
  Float64_of_text : string → option Float64;
  Float32_of_text : string → option Float32;
  (** the conversion to numeric(30, 18) *)
  numeric_30_18 : Decimal → option Decimal
}.

(** An amount of coins, in units of which a coin has 10^18, that has at most 12 digits
    before the point as coins. *)
Definition amount_fits (x : option Z) : bool := (Z.abs (or_zero x) <? 10 ^ 30)%Z.

(** The texts of numbers, addresses and hashes have no special character, and the text
    of a number is read as that number.  Decimals and floating-point numbers are taken
    up to numerical equality.  An amount of coins has at most 18 digits after the point,
    so that a numeric(30, 18) keeps it unless it has too many digits before it. *)
Class DbTextLaws `{DbText, !DbReading} : Prop := {
  read_Decimal d : Decimal_of_text (Decimal_String d) = Some d;
  read_Float64 x : Float64_of_text (Float64_String x) = Some x;
  read_Float32 x : Float32_of_text (Float32_String x) = Some x;
  numeric_amount x : numeric_30_18 (ConvertToFloat x) = if amount_fits x then Some (ConvertToFloat x) else None;
  plain_Decimal d : plain (Decimal_String d) = true;
  plain_Float64 x : plain (Float64_String x) = true;
  plain_Float32 x : plain (Float32_String x) = true;
  plain_address a : plain (address_Hex a) = true;
  plain_hash h : plain (hash_Hex h) = true;
  address_Hex_text a : address_Hex a ≠ EmptyString
}.

Section reading.
Context `{DbText, !DbReading}.

(** A field, read as the type of its column: a number that the column cannot hold is an
    error.  The empty text, which the database takes for NULL, is kept as such. *)
Definition read_value (c : column) (s : string) : option value :=
  match c with
  | CText => Some (VString s)
  | CInt bits => i ← NilEmpty.int_of_string s;
                 if int_fits bits (Z.of_int i) then Some (VInt (Z.of_int i)) else None
  | CBool => if String.eqb s "true" then Some (VBool true)
             else if String.eqb s "false" then Some (VBool false) else None
  | CNumeric => d ← Decimal_of_text s; Some (VDecimal d)
  | CAmount => d ← Decimal_of_text s; d ← numeric_30_18 d; Some (VDecimal d)
  | CDouble => x ← Float64_of_text s; Some (VFloat64 x)
  | CReal => x ← Float32_of_text s; Some (VFloat32 x)
  end.

Fixpoint read_values (cs : list column) (l : list string) : option (list value) :=
  match cs, l with
  | [], [] => Some []
  | c :: cs, s :: l => v ← read_value c s; vs ← read_values cs l; Some (v :: vs)
  | _, _ => None
  end.

Definition read_composite (cs : list column) (s : string) : option (list value) :=
  match s with
  | String c s => if Ascii.eqb c "(" then l ← fields s; read_values cs l else None
  | EmptyString => None
  end.

(** What a column keeps of a value of its kind. *)
Definition kept (c : column) (v : value) : option value :=
  match c, v with
  | CText, VString _ | CBool, VBool _ | CNumeric, VDecimal _ | CDouble, VFloat64 _ | CReal, VFloat32 _ => Some v
  | CInt bits, VInt z => if int_fits bits z then Some v else None
  | CAmount, VDecimal d => VDecimal <$> numeric_30_18 d
  | _, _ => None
  end.
Definition of_kind (c : column) (v : value) : Prop :=
  match c, v with
  | CText, VString _ | CInt _, VInt _ | CBool, VBool _ | CNumeric, VDecimal _ | CAmount, VDecimal _
  | CDouble, VFloat64 _ | CReal, VFloat32 _ => True
  | _, _ => False
  end.
Fixpoint kept_values (cs : list column) (vs : list value) : option (list value) :=
  match cs, vs with
  | c :: cs, v :: vs => v ← kept c v; vs ← kept_values cs vs; Some (v :: vs)
  | _, _ => Some []
  end.

Context {Laws : DbTextLaws}.

Lemma read_text c v : of_kind c v → read_value c (text v) = kept c v.
Proof.
  destruct c, v as [s|z|[]|d|x|x]; try done; intros _; cbn [text read_value kept].
  - unfold FormatInt. rewrite NilEmpty.isi. cbn. by rewrite DecimalZ.of_to.
  - by rewrite read_Decimal.
  - rewrite read_Decimal. cbn. by destruct (numeric_30_18 d).
  - by rewrite read_Float64.
  - by rewrite read_Float32.
Qed.

Lemma plain_uint d : plain (NilEmpty.string_of_uint d) = true.
Proof. induction d; cbn; done. Qed.

(** Only a string can have special characters. *)
Definition plain_value (v : value) : bool := match v with VString s => plain s | _ => true end.

Lemma plain_text v : plain_value v = true → plain (text v) = true.
Proof.
  destruct v as [s|z|[]|d|x|x]; cbn; try done; intros _.
  - unfold FormatInt. destruct (Z.to_int z); cbn; apply plain_uint.
  - apply plain_Decimal.
  - apply plain_Float64.
  - apply plain_Float32.
Qed.

Lemma read_values_text cs args : Forall2 of_kind cs args → read_values cs (text <$> args) = kept_values cs args.
Proof.
  induction 1 as [|c v cs args Hv _ IH]; [done|]. cbn [fmap list_fmap read_values kept_values].
  by rewrite read_text, IH.
Qed.

(** A row without special characters is read as what its columns keep of it. *)
Lemma composite_read cs args :
  args ≠ [] → Forall2 of_kind cs args → forallb plain_value args = true →
  read_composite cs (Sprintf args) = kept_values cs args.
Proof.
  intros Hne Hk Hp. cbn [read_composite Sprintf Ascii.eqb Bool.eqb].
  rewrite fields_join.
  - cbn. by apply read_values_text.
  - by destruct args.
  - clear Hne Hk. induction args as [|v args IH]; [constructor|]. cbn in Hp.
    apply andb_true_iff in Hp as [Hv Hp]. constructor; [by apply plain_text|by apply IH].
Qed.
End reading.

(** ** The rows of the contracts and of the balances *)

Create HintDb db_rows.

Section rows.
Context `{DbText, !DbReading, !DbTextLaws}.

(** A row of one of the tables of the contracts, or of the updates of the balances. *)
Inductive Row :=
  | RBalanceUpdate (v : BalanceUpdate) (contractAddress : option Address)
  | ROracleVoting (v : OracleVotingContract)
  | RVoteProof (v : OracleVotingContractCallVoteProof)
  | RVote (v : OracleVotingContractCallVote)
  | RFinish (v : OracleVotingContractCallFinish)
  | RAddStake (v : OracleVotingContractCallAddStake)
  | ROracleVotingTermination (v : OracleVotingContractTermination)
  | ROracleLock (v : OracleLockContract)
  | ROracleLockPush (v : OracleLockContractCallPush)
  | ROracleLockCheck (v : OracleLockContractCallCheckOracleVoting)
  | ROracleLockTermination (v : OracleLockContractTermination)
  | RRefundable (v : RefundableOracleLockContract)
  | RDeposit (v : RefundableOracleLockContractCallDeposit)
  | RRefundablePush (v : RefundableOracleLockContractCallPush)
  | RRefund (v : RefundableOracleLockContractCallRefund)
  | RRefundableTermination (v : RefundableOracleLockContractTermination)
  | RTimeLock (v : TimeLockContract)
  | RTransfer (v : TimeLockContractCallTransfer)
  | RTimeLockTermination (v : TimeLockContractTermination)
  | RMultisig (v : MultisigContract)
  | RAdd (v : MultisigContractCallAdd)
  | RSend (v : MultisigContractCallSend)
  | RPush (v : MultisigContractCallPush)
  | RMultisigTermination (v : MultisigContractTermination).

Definition row_value (r : Row) : list value :=
  match r with
  | RBalanceUpdate v c => BalanceUpdate_Value v c
  | ROracleVoting v => OracleVotingContract_Value v
  | RVoteProof v => OracleVotingContractCallVoteProof_Value v
  | RVote v => OracleVotingContractCallVote_Value v
  | RFinish v => OracleVotingContractCallFinish_Value v
  | RAddStake v => OracleVotingContractCallAddStake_Value v
  | ROracleVotingTermination v => OracleVotingContractTermination_Value v
  | ROracleLock v => OracleLockContract_Value v
  | ROracleLockPush v => OracleLockContractCallPush_Value v
  | ROracleLockCheck v => OracleLockContractCallCheckOracleVoting_Value v
  | ROracleLockTermination v => OracleLockContractTermination_Value v
  | RRefundable v => RefundableOracleLockContract_Value v
  | RDeposit v => RefundableOracleLockContractCallDeposit_Value v
  | RRefundablePush v => RefundableOracleLockContractCallPush_Value v
  | RRefund v => RefundableOracleLockContractCallRefund_Value v
  | RRefundableTermination v => RefundableOracleLockContractTermination_Value v
  | RTimeLock v => TimeLockContract_Value v
  | RTransfer v => TimeLockContractCallTransfer_Value v
  | RTimeLockTermination v => TimeLockContractTermination_Value v
  | RMultisig v => MultisigContract_Value v
  | RAdd v => MultisigContractCallAdd_Value v
  | RSend v => MultisigContractCallSend_Value v
  | RPush v => MultisigContractCallPush_Value v
  | RMultisigTermination v => MultisigContractTermination_Value v
  end.

(** SQL: resources/scripts/indexer/init.sql tp_balance_update:2139-2545

    The columns of the composite type of a row: they depend on its constructor only. *)
Definition row_columns (r : Row) : list column :=
  match r with
  | RBalanceUpdate _ _ => [CText; CAmount; CAmount; CAmount; CSmallint; CAmount; CAmount; CAmount;
                           CSmallint; CAmount; CText; CSmallint; CText]
  | ROracleVoting _ => [CText; CText; CNumeric; CBigint; CBigint; CNumeric; CText; CSmallint; CBigint;
                        CSmallint; CSmallint; CBigint; CSmallint; CNumeric; CNumeric; CText; CText; CBigint]
  | RVoteProof _ => [CText; CText; CBigint; CBool; CBool; CBool]
  | RVote _ => [CText; CSmallint; CText; CBigint; CBigint; CBigint; CText; CSmallint; CBigint;
                CBool; CBool; CBool]
  | RFinish _ => [CText; CSmallint; CSmallint; CNumeric; CNumeric; CNumeric]
  | RAddStake _ => [CText]
  | ROracleVotingTermination _ => [CText; CNumeric; CNumeric; CNumeric]
  | ROracleLock _ => [CText; CText; CNumeric; CText; CSmallint; CText; CText]
  | ROracleLockPush _ => [CText; CBool; CSmallint; CNumeric]
  | ROracleLockCheck _ => [CText; CSmallint]
  | RRefundable _ => [CText; CText; CNumeric; CText; CSmallint; CText; CText; CBigint; CBigint;
                      CSmallint; CInteger]
  | RDeposit _ => [CText; CNumeric; CNumeric; CNumeric]
  | RRefundablePush _ => [CText; CSmallint; CBool; CSmallint; CNumeric; CBigint]
  | RRefund _ => [CText; CNumeric; CDouble]
  | RTimeLock _ => [CText; CText; CNumeric; CBigint]
  | RTransfer _ | RSend _ => [CText; CText; CNumeric]
  | RMultisig _ => [CText; CText; CNumeric; CSmallint; CSmallint; CSmallint]
  | RAdd _ => [CText; CText; CSmallint]
  | RPush _ => [CText; CText; CNumeric; CSmallint; CSmallint]
  | ROracleLockTermination _ | RRefundableTermination _ | RTimeLockTermination _
  | RMultisigTermination _ => [CText; CText]
  end.

(** The integers of a row, each in its column. *)
Definition row_ints (r : Row) : list (Z * Z) :=
  zip (row_columns r) (row_value r) ≫= λ '(c, v), match c, v with CInt bits, VInt z => [(bits, z)] | _, _ => [] end.

(** The amounts of a row in columns of type numeric(30, 18). *)
Definition row_amounts (r : Row) : list (option Z) :=
  match r with
  | RBalanceUpdate v _ =>
      [Some (u_BalanceOld v); Some (u_StakeOld v); u_PenaltyOld v; Some (u_BalanceNew v);
       Some (u_StakeNew v); u_PenaltyNew v; u_PenaltyPayment v]
  | _ => []
  end.

(** Every integer of the row is one of its column, and so is every amount. *)
Definition row_fits (r : Row) : bool :=
  forallb (uncurry int_fits) (row_ints r) && forallb amount_fits (row_amounts r).

Lemma plain_hex_digit z : (0 ≤ z < 16)%Z → special (hex_digit z) = false.
Proof.
  intros Hz. assert (∃ n, n < 16 ∧ z = Z.of_nat n) as (n & Hn & ->) by (exists (Z.to_nat z); lia).
  do 16 (destruct n as [|n]; [done|]). lia.
Qed.

Lemma plain_bytes (b : bytes) : Forall (λ x, 0 ≤ x < 256)%Z b → plain (EncodeToString b) = true.
Proof.
  induction 1 as [|x b Hx _ IH]; [done|]. cbn [EncodeToString plain].
  rewrite !plain_hex_digit, IH by (pose proof (Z.mod_pos_bound x 16); first
    [lia | split; [apply Z.div_pos; lia | apply Z.div_lt_upper_bound; lia]]).
  done.
Qed.

(** The slices of bytes of a row: a byte has eight bits. *)
Definition row_bytes (r : Row) : list Z :=
  match r with
  | ROracleVoting v => ovc_Fact v ++ ovc_Hash v
  | RVoteProof v => ovp_VoteHash v
  | RVote v => ovv_Salt v
  | _ => []
  end.

Lemma plain_address_or_empty a : plain_value (VAddressOrEmpty a) = true.
Proof. destruct a; [apply plain_address|done]. Qed.
Lemma plain_hash_or_empty h : plain_value (VHashOrEmpty h) = true.
Proof. destruct h; [apply plain_hash|done]. Qed.
Lemma plain_negative v : plain_value (negativeIfNil v) = true.
Proof. by destruct v. Qed.
Lemma negative_decimal v :
  negativeIfNil v = VDecimal (match v with None => Decimal_of_int (-1) | Some _ => ConvertToFloat v end).
Proof. by destruct v. Qed.

(** What the rows are made of. *)
#[local] Hint Unfold
  BalanceUpdate_Value MultisigContractCallAdd_Value MultisigContractCallPush_Value
  MultisigContractCallSend_Value MultisigContractTermination_Value MultisigContract_Value
  OracleLockContractCallCheckOracleVoting_Value OracleLockContractCallPush_Value
  OracleLockContractTermination_Value OracleLockContract_Value
  OracleVotingContractCallAddStake_Value OracleVotingContractCallFinish_Value
  OracleVotingContractCallVoteProof_Value OracleVotingContractCallVote_Value
  OracleVotingContractTermination_Value OracleVotingContract_Value
  RefundableOracleLockContractCallDeposit_Value RefundableOracleLockContractCallPush_Value
  RefundableOracleLockContractCallRefund_Value RefundableOracleLockContractTermination_Value
  RefundableOracleLockContract_Value TimeLockContractCallTransfer_Value
  TimeLockContractTermination_Value TimeLockContract_Value : db_rows.

Lemma row_kinds r : Forall2 of_kind (row_columns r) (row_value r).
Proof.
  destruct r; cbn [row_columns row_value]; autounfold with db_rows; rewrite ?negative_decimal;
    repeat (apply list.Forall2_cons; split; [exact I|]); by apply list.Forall2_nil.
Qed.

Lemma row_plain r : Forall (λ x, 0 ≤ x < 256)%Z (row_bytes r) → forallb plain_value (row_value r) = true.
Proof.
  intros Hb. destruct r; cbn [row_value row_bytes] in *; try apply list.Forall_app in Hb as [? ?];
    autounfold with db_rows; cbn [forallb plain_value];
    rewrite ?plain_hash, ?plain_address, ?plain_address_or_empty, ?plain_hash_or_empty,
      ?plain_bytes, ?plain_negative by done; try done.
  destruct (ovv_Delegatee v); [case_decide; [done|]; by rewrite plain_address|done].
Qed.

(** A row is kept as it is when it fits, and refused otherwise. *)
Lemma row_kept r :
  kept_values (row_columns r) (row_value r) = if row_fits r then Some (row_value r) else None.
Proof.
  unfold row_fits, row_ints.
  destruct r; cbn [row_columns row_value row_amounts]; autounfold with db_rows; unfold VAddressOrEmpty, VHashOrEmpty; rewrite ?negative_decimal;
    cbn [zip zip_with mbind list_bind app forallb uncurry kept_values kept];
    rewrite ?numeric_amount;
    cbn [app forallb uncurry mbind option_bind fmap option_fmap option_map];
    repeat (match goal with
            | |- context [int_fits ?w ?z] => destruct (int_fits w z)
            | |- context [amount_fits ?x] => destruct (amount_fits x)
            end; cbn [andb mbind option_bind fmap option_fmap option_map]; rewrite ?andb_false_r; try done); done.
Qed.

Lemma row_read r :
  Forall (λ x, 0 ≤ x < 256)%Z (row_bytes r) →
  read_composite (row_columns r) (Sprintf (row_value r)) = if row_fits r then Some (row_value r) else None.
Proof.
  intros Hb. rewrite composite_read; [apply row_kept|by destruct r|apply row_kinds|by apply row_plain].
Qed.

(** [C36]  The rows of the contracts and of the updates of the balances, when each byte of
    their slices is one of eight bits, are read by the database exactly when they fit the
    columns of their types in init.sql: every integer in its smallint, integer or bigint, and
    every amount of an update of a balance below 10^12 coins.  Then the database finds in the
    text that is sent to it every field of the row, with its value and in its column, and any
    other row of the same columns that is sent as the same text has the same values.  A row
    that does not fit is an error of the database.  A decimal is taken to be read as its
    value, and the empty text is kept as such. *)
Theorem rows_are_read (r : Row) :
  Forall (λ x, 0 ≤ x < 256)%Z (row_bytes r) →
  read_composite (row_columns r) (Sprintf (row_value r)) = (if row_fits r then Some (row_value r) else None) ∧
  ∀ r', Forall (λ x, 0 ≤ x < 256)%Z (row_bytes r') → row_columns r' = row_columns r → row_fits r = true →
    Sprintf (row_value r') = Sprintf (row_value r) → row_value r' = row_value r.
Proof.
  intros Hb. split; [by apply row_read|]. intros r' Hb' Hcols Hfits Htext.
  pose proof (row_read r' Hb') as Hr'. rewrite Hcols, Htext, row_read, Hfits in Hr' by done.
  destruct (row_fits r'); [by injection Hr'|done].
Qed.

Lemma row_refused r bits z : (bits, z) ∈ row_ints r → int_fits bits z = false → row_fits r = false.
Proof.
  intros Hin Hz. unfold row_fits. apply andb_false_iff. left. apply not_true_iff_false.
  rewrite List.forallb_forall. intros Hall. specialize (Hall (bits, z)). cbn in Hall.
  rewrite Hz in Hall. by apply diff_false_true, Hall, list_elem_of_In.
Qed.

(** A penalty of more seconds than a [smallint] holds is refused, though it is a uint16. *)
Lemma long_penalty_refused v c :
  (2 ^ 15 ≤ u_PenaltySecondsNew v)%Z →
  read_composite (row_columns (RBalanceUpdate v c)) (Sprintf (row_value (RBalanceUpdate v c))) = None.
Proof.
  intros Hn. rewrite row_read by constructor. rewrite (row_refused _ 16 (u_PenaltySecondsNew v)); [done|..].
  - right. by left.
  - unfold int_fits. apply andb_false_iff. right. by apply Z.ltb_ge.
Qed.

(** A time lock that its author set beyond a [bigint] is refused, though it is a uint64. *)
Lemma far_time_lock_refused v :
  (2 ^ 63 ≤ tlc_Timestamp v)%Z →
  read_composite (row_columns (RTimeLock v)) (Sprintf (row_value (RTimeLock v))) = None.
Proof.
  intros Ht. rewrite row_read by constructor. rewrite (row_refused _ 64 (tlc_Timestamp v)); [done|..].
  - by left.
  - unfold int_fits. apply andb_false_iff. right. by apply Z.ltb_ge.
Qed.
End rows.

#[export] Instance SampleDbText : DbText := {|
  Decimal_String := FormatInt; Float64_String := FormatInt; Float32_String := FormatInt;
  BigFloat_Float64 z := z
|}.

Definition sample_number (s : string) : option Z :=
  i ← NilEmpty.int_of_string s; Some (Z.of_int i).

#[export] Instance SampleDbReading : DbReading := {|
  Decimal_of_text := sample_number; Float64_of_text := sample_number; Float32_of_text := sample_number;
  numeric_30_18 z := if (Z.abs z <? 10 ^ 30)%Z then Some z else None
|}.

Lemma sample_number_FormatInt z : sample_number (FormatInt z) = Some z.
Proof. unfold sample_number, FormatInt. rewrite NilEmpty.isi. cbn. by rewrite DecimalZ.of_to. Qed.

Lemma plain_FormatInt z : plain (FormatInt z) = true.
Proof. unfold FormatInt. destruct (Z.to_int z); cbn; apply plain_uint. Qed.

Lemma plain_sample_hex z : plain (sample_hex z) = true.
Proof.
  assert (∀ n, plain (sample_digits n) = true) as Hd by (intros n; by induction n).
  destruct z; [done|..]; unfold sample_hex; cbn; apply Hd.
Qed.

#[export] Instance SampleDbTextLaws : DbTextLaws.
Proof.
  split; intros; try apply sample_number_FormatInt; try apply plain_FormatInt;
    try apply plain_sample_hex; [done|].
  destruct a as [[]]; done.
Qed.

(** A vote is read; a time lock beyond its column is not. *)
Lemma rows_are_read_witness :
  let r := RVote (mkOracleVotingContractCallVote (mkHash 1) 1 [171; 205]%Z (Some 3%Z) 4 None
                    (Some (mkAddress 2)) true false false None (Some 5%Z)) in
  let far := RTimeLock (mkTimeLockContract (mkHash 1) (mkAddress 2) (Some 7%Z) (2 ^ 63)) in
  Forall (λ x, 0 ≤ x < 256)%Z (row_bytes r) ∧
  Sprintf (row_value r) = "(0x1,1,abcd,3,4,-1,0x11,-1,5,true,false,false)"%string ∧
  read_composite (row_columns r) (Sprintf (row_value r)) = Some (row_value r) ∧
  read_composite (row_columns far) (Sprintf (row_value far)) = None.
Proof.
  intros r far. assert (Hb : Forall (λ x, 0 ≤ x < 256)%Z (row_bytes r)) by (repeat constructor; lia).
  destruct (rows_are_read r Hb) as [Hr _]. destruct (rows_are_read far (Forall_nil_2 _)) as [Hf _].
  split_and!; [exact Hb|reflexivity|exact Hr|exact Hf].
Defined.

(** ** The coins burnt by an address *)

Section burnt.
Context `{DbText, !DbReading, !DbTextLaws}.

(** What [save_burnt_coins] does with the rows: one without an address is of the
    address of the row before it. *)
Fixpoint regroup (rows : list postgresAddrBurntCoins) (address : string) : list (string * BurntCoins) :=
  match rows with
  | [] => []
  | row :: rows =>
      let address := if String.eqb (pb_address row) EmptyString then address else pb_address row in
      (address, pb_BurntCoins row) :: regroup rows address
  end.

Lemma regroup_group coins address rows :
  regroup (((λ c, mkAddrBurntCoins c EmptyString) <$> coins) ++ rows) address
  = ((address,.) <$> coins) ++ regroup rows address.
Proof. induction coins as [|c l IH]; [done|]. cbn. by rewrite IH. Qed.

Lemma imap_tail (addr : Address) coins n :
  imap (λ i c, mkAddrBurntCoins c (if (S n + i =? 0)%nat then address_Hex addr else EmptyString)) coins
  = (λ c, mkAddrBurntCoins c EmptyString) <$> coins.
Proof.
  revert n. induction coins as [|c l IH]; intros n; [done|]. cbn. f_equal.
  rewrite <- (IH (S n)). apply imap_ext. intros i x _. cbn. by replace (n + S i) with (S (n + i)) by lia.
Qed.

(** The coins burnt in a block, saved with the address on the first row of each
    address only, are attributed by the database to the addresses that burnt them: every
    row of the map, in whatever order it is ranged over, and no other. *)
Theorem burnt_coins_regroup (v : list (Address * list BurntCoins)) before :
  regroup (getPostgresBurntCoins v) before
  = v ≫= λ '(addr, coins), (address_Hex addr,.) <$> coins.
Proof.
  revert before. induction v as [|[addr [|c coins]] v IH]; intros before; [done|apply IH|].
  unfold getPostgresBurntCoins in *. cbn [mbind list_bind imap Nat.eqb].
  rewrite <- app_comm_cons. cbn [regroup pb_address pb_BurntCoins].
  destruct (String.eqb_spec (address_Hex addr) EmptyString) as [He|_]; [by destruct (address_Hex_text addr)|].
  cbn [fmap list_fmap]. f_equal.
  pose proof (imap_tail addr coins 0) as Ht. cbn [Nat.add] in Ht.
  change (imap _ coins) with
    (imap (λ i c, mkAddrBurntCoins c (if (S i =? 0)%nat then address_Hex addr else EmptyString)) coins).
  rewrite Ht, regroup_group, IH. done.
Qed.
End burnt.

Lemma burnt_coins_regroup_witness :
  let v := [(mkAddress 1, [mkBurntCoins _ 5%Z PenaltyBurntCoins EmptyString;
                           mkBurntCoins _ 7%Z FeeBurntCoins "0x1"%string]); (mkAddress 2, [])] in
  regroup (getPostgresBurntCoins v) "before" = v ≫= λ '(addr, coins), (address_Hex addr,.) <$> coins.
Proof. apply burnt_coins_regroup. Defined.

(** ** The answers of a validation *)

Section answers.
Context `{DbText}.
Implicit Types (stats : list FlipStatsRecord) (a : string).

(** How often [a] occurs in [l]. *)
Definition times a (l : list string) : Z := Z.of_nat (length (filter (λ b, b = a) l)).

(** A counter that holds [n] as an int: it wraps around. *)
Definition holds (m : gmap string Z) a (n : Z) : Prop :=
  ∃ k, default 0%Z (m !! a) = (n + k * 2 ^ 64)%Z.

Lemma swrap_multiple z : ∃ k, swrap 64 z = (z + k * 2 ^ 64)%Z.
Proof.
  unfold swrap. pose proof (Z.div_mod z (2 ^ 64)) as Hz. destruct (2 ^ (64 - 1) <=? _)%Z.
  - exists (- (z / 2 ^ 64) - 1)%Z. lia.
  - exists (- (z / 2 ^ 64))%Z. lia.
Qed.

Lemma holds_narrow w m a n : (0 ≤ w ≤ 64)%Z → holds m a n → uwrap w (default 0%Z (m !! a)) = uwrap w n.
Proof.
  intros Hw [k ->]. unfold uwrap.
  replace 64%Z with (64 - w + w)%Z by lia. rewrite Z.pow_add_r, Z.mul_assoc by lia.
  apply Z.mod_add. pose proof (Z.pow_pos_nonneg 2 w). lia.
Qed.

Lemma times_holds l a : holds (foldl (λ m b, incr b m) ∅ l) a (times a l).
Proof.
  induction l as [|b l [k IH]] using rev_ind; [by exists 0%Z|].
  rewrite foldl_app. cbn [foldl]. unfold times, holds, incr in *.
  rewrite list.filter_app, length_app, filter_cons, filter_nil. case_decide as Hb.
  - subst b. rewrite lookup_insert_eq. cbn [from_option id].
    rewrite IH. destruct (swrap_multiple (Z.of_nat (length (filter (λ b, b = a) l)) + k * 2 ^ 64 + 1)) as [k' ->].
    exists (k + k')%Z. cbn [length]. lia.
  - rewrite lookup_insert_ne by done. exists k. cbn [length]. by rewrite Nat.add_0_r.
Qed.

(** The row of an answer, and of a flip. *)
Definition answer_row (isShort : bool) (flipCid : string) (answer : Answer) : postgresAnswer :=
  mkPostgresAnswer flipCid (an_Address answer) isShort (an_Answer answer)
    (an_Point answer) (an_Grade answer) (an_Index answer) (an_Considered answer).
Definition state_row (s : FlipStatsRecord) : postgresFlipsState :=
  mkPostgresFlipsState (fsr_Cid s) (fsr_Answer s) (fsr_Status s) (fsr_Grade s)
    (Float32_of_Float64 (Decimal_Float64 (fsr_GradeScore s))).
Definition answer_rows (s : FlipStatsRecord) : list postgresAnswer :=
  (answer_row true (fsr_Cid s) <$> fsr_ShortAnswers s)
  ++ (answer_row false (fsr_Cid s) <$> fsr_LongAnswers s).

(** The addresses of the answers and the authors of the reported flips. *)
Definition short_addresses s : list string := an_Address <$> fsr_ShortAnswers s.
Definition long_addresses s : list string := an_Address <$> fsr_LongAnswers s.
Definition reported_author (s : FlipStatsRecord) : list string :=
  if (fsr_Grade s =? 1)%Z then [fsr_Author s] else [].

Abbreviation tally := (foldl (λ m b, incr b m)).

Lemma short_answers_added cid l r :
  foldl (λ r answer, (convertAndAddAnswer true cid answer r)
           <| fa_shortAnswerCountsByAddr ::= incr (an_Address answer) |>) r l
  = r <| fa_answers ::= λ k, k ++ (answer_row true cid <$> l) |>
      <| fa_shortAnswerCountsByAddr ::= λ m, tally m (an_Address <$> l) |>.
Proof.
  revert r. induction l as [|x l IH]; intros r; [destruct r; cbn; by rewrite app_nil_r|].
  cbn [foldl]. rewrite IH. destruct r. cbn. by rewrite <- app_assoc.
Qed.

Lemma long_answers_added cid l r :
  foldl (λ r answer, (convertAndAddAnswer false cid answer r)
           <| fa_longAnswerCountsByAddr ::= incr (an_Address answer) |>) r l
  = r <| fa_answers ::= λ k, k ++ (answer_row false cid <$> l) |>
      <| fa_longAnswerCountsByAddr ::= λ m, tally m (an_Address <$> l) |>.
Proof.
  revert r. induction l as [|x l IH]; intros r; [destruct r; cbn; by rewrite app_nil_r|].
  cbn [foldl]. rewrite IH. destruct r. cbn. by rewrite <- app_assoc.
Qed.

Lemma flip_stats_arrays stats :
  getFlipStatsArrays stats
  = mkFlipArrays (stats ≫= answer_rows) (state_row <$> stats) (tally ∅ (stats ≫= short_addresses))
      (tally ∅ (stats ≫= long_addresses)) (tally ∅ (stats ≫= reported_author)).
Proof.
  induction stats as [|s l IH] using rev_ind; [done|].
  unfold getFlipStatsArrays in *. rewrite foldl_app, IH. cbn [foldl]. cbn zeta.
  rewrite short_answers_added, long_answers_added.
  rewrite !bind_app, fmap_app, !foldl_app. cbn [mbind list_bind]. rewrite !app_nil_r.
  unfold reported_author, answer_rows. destruct (fsr_Grade s =? 1)%Z; cbn; by rewrite <- app_assoc.
Qed.

Lemma answer_rows_of a isShort s :
  length (filter (λ r, pn_isShort r = isShort ∧ pn_address r = a) (answer_rows s))
  = length (filter (λ b, b = a) (if isShort then short_addresses s else long_addresses s)).
Proof.
  unfold answer_rows, short_addresses, long_addresses. rewrite list.filter_app, length_app.
  assert (∀ b l, length (filter (λ r, pn_isShort r = isShort ∧ pn_address r = a) (answer_row b (fsr_Cid s) <$> l))
    = if bool_decide (b = isShort) then length (filter (λ b, b = a) (an_Address <$> l)) else 0) as Hl.
  { intros b l. induction l as [|x l IH]; [by case_bool_decide|].
    cbn [fmap list_fmap]. rewrite !filter_cons. cbn.
    destruct (decide (b = isShort)) as [->|Hb].
    - rewrite bool_decide_true in IH |- * by done.
      destruct (decide (an_Address x = a)) as [Ha|Ha].
      + rewrite (decide_True (P := isShort = isShort ∧ an_Address x = a)) by done. cbn. by rewrite IH.
      + rewrite (decide_False (P := isShort = isShort ∧ an_Address x = a)) by naive_solver. done.
    - rewrite bool_decide_false in IH |- * by done.
      rewrite (decide_False (P := b = isShort ∧ an_Address x = a)) by naive_solver. done. }
  rewrite !Hl. destruct isShort.
  - rewrite (bool_decide_true (true = true)), (bool_decide_false (false = true)) by done. lia.
  - rewrite (bool_decide_false (true = false)), (bool_decide_true (false = false)) by done. lia.
Qed.

Lemma answer_rows_count a isShort stats :
  Z.of_nat (length (filter (λ r, pn_isShort r = isShort ∧ pn_address r = a) (stats ≫= answer_rows)))
  = times a (stats ≫= if isShort then short_addresses else long_addresses).
Proof.
  unfold times. f_equal. induction stats as [|s l IH]; [by destruct isShort|].
  cbn [mbind list_bind]. rewrite !list.filter_app, !length_app, IH, answer_rows_of.
  by destruct isShort.
Qed.

Lemma reported_count a stats :
  times a (stats ≫= reported_author)
  = Z.of_nat (length (filter (λ s, fsr_Author s = a ∧ fsr_Grade s = 1%Z) stats)).
Proof.
  unfold times. f_equal. induction stats as [|s l IH]; [done|].
  cbn [mbind list_bind]. rewrite list.filter_app, length_app, IH, filter_cons.
  unfold reported_author. destruct (Z.eqb_spec (fsr_Grade s) 1) as [Hg|Hg].
  - rewrite filter_cons, filter_nil. destruct (decide (fsr_Author s = a)) as [Ha|Ha].
    + rewrite decide_True by done. done.
    + rewrite decide_False by naive_solver. done.
  - rewrite decide_False by naive_solver. done.
Qed.

Lemma epoch_identities_arrays identities short long wrong :
  let r := getEpochIdentitiesArrays identities short long wrong in
  pe_address <$> r.1 = ei_Address <$> identities ∧
  (∀ row, row ∈ r.1 →
    pe_shortAnswers row = u32 (default 0%Z (short !! pe_address row)) ∧
    pe_longAnswers row = u32 (default 0%Z (long !! pe_address row)) ∧
    pe_wrongWordsFlips row = u8 (default 0%Z (wrong !! pe_address row))) ∧
  r.2 = identities ≫= λ i, flips_to_solve true (ei_Address i) (ei_ShortFlipCidsToSolve i)
                           ++ flips_to_solve false (ei_Address i) (ei_LongFlipCidsToSolve i).
Proof.
  induction identities as [|i l (IHa & IHr & IHf)] using rev_ind; cbn zeta.
  { split; [done|]. split; [|done]. intros row Hrow. by apply not_elem_of_nil in Hrow. }
  unfold getEpochIdentitiesArrays in *. rewrite foldl_app. cbn [foldl]. destruct (foldl _ _ l) as [ids fl].
  cbn [fst snd] in *. split; [by rewrite !fmap_app, IHa|]. split.
  - intros row [Hrow|Hrow]%elem_of_app; [by apply IHr|]. apply list_elem_of_singleton in Hrow as ->. done.
  - rewrite bind_app, IHf. cbn [mbind list_bind]. by rewrite app_nil_r.
Qed.

(** The arrays of a validation agree.  Each identity has one row, in order, whose
    numbers of short and of long answers are those of the answers that are saved with
    them, as 32-bit numbers, and whose number of flips with wrong words is that of its
    reported flips, as a byte; the flips to solve are numbered from 0 in each session. *)
Theorem answers_are_counted stats (identities : list EpochIdentity) :
  let arrays := getFlipStatsArrays stats in
  let '(rows, flips) := getEpochIdentitiesArrays identities (fa_shortAnswerCountsByAddr arrays)
    (fa_longAnswerCountsByAddr arrays) (fa_wrongWordsFlipsCountsByAddr arrays) in
  let saved isShort a := filter (λ r, pn_isShort r = isShort ∧ pn_address r = a) (fa_answers arrays) in
  pe_address <$> rows = ei_Address <$> identities ∧
  (∀ row, row ∈ rows →
     pe_shortAnswers row = u32 (Z.of_nat (length (saved true (pe_address row)))) ∧
     pe_longAnswers row = u32 (Z.of_nat (length (saved false (pe_address row)))) ∧
     pe_wrongWordsFlips row
     = u8 (Z.of_nat (length (filter (λ s, fsr_Author s = pe_address row ∧ fsr_Grade s = 1%Z) stats)))) ∧
  flips = identities ≫= λ i, flips_to_solve true (ei_Address i) (ei_ShortFlipCidsToSolve i)
                             ++ flips_to_solve false (ei_Address i) (ei_LongFlipCidsToSolve i).
Proof.
  cbn zeta. rewrite flip_stats_arrays. cbn [fa_answers fa_shortAnswerCountsByAddr
    fa_longAnswerCountsByAddr fa_wrongWordsFlipsCountsByAddr].
  pose proof (epoch_identities_arrays identities (tally ∅ (stats ≫= short_addresses))
    (tally ∅ (stats ≫= long_addresses)) (tally ∅ (stats ≫= reported_author))) as H'.
  destruct (getEpochIdentitiesArrays _ _ _ _) as [rows fl]. cbn [fst snd] in H'.
  destruct H' as (Ha & Hr & Hf). split; [done|]. split; [|done]. intros row Hrow.
  destruct (Hr row Hrow) as (-> & -> & ->).
  rewrite (answer_rows_count _ true), (answer_rows_count _ false), <- reported_count.
  repeat split; apply holds_narrow; (lia || apply times_holds).
Qed.
End answers.

(** ** The rewards of the pools *)

Section rewards.
Context `{DbText}.
Implicit Types (m : gmap RewardType EpochReward) (l : list (RewardType * EpochReward)).

(** The field of the document that shows the rewards of a type. *)
Definition reward_field (t : RewardType) : option (delegationEpochReward → option Decimal) :=
  match t with
  | Validation => Some jw_Validation
  | Flips => Some jw_Flips
  | Invitations => Some jw_Invitations
  | FoundationPayouts | ZeroWalletFund => None
  | Invitations2 => Some jw_Invitations2
  | Invitations3 => Some jw_Invitations3
  | SavedInvite => Some jw_SavedInvites
  | SavedInviteWin => Some jw_SavedInvitesWin
  | ReportedFlips => Some jw_Reports
  | Staking => Some jw_Staking
  | Candidate => Some jw_Candidate
  | ExtraFlips => Some jw_ExtraFlips
  | Invitee1 => Some jw_Invitee1
  | Invitee2 => Some jw_Invitee2
  | Invitee3 => Some jw_Invitee3
  end.

Definition amount_of (r : EpochReward) : Decimal := ConvertToFloat (Some (er_Balance r)).
Definition item_of (e : RewardType * EpochReward) : DelegationEpochReward :=
  mkDelegationEpochReward (er_Balance e.2) (RewardType_byte e.1).

Lemma set_reward_field t f doc e :
  reward_field t = Some f →
  f (set_reward doc (item_of e)) = if decide (e.1 = t) then Some (amount_of e.2) else f doc.
Proof.
  destruct e as [t' r]. intros Hf. destruct t; cbn in Hf; simplify_eq/=; destruct t'; reflexivity.
Qed.

Lemma set_rewards_field t f l doc :
  reward_field t = Some f → f doc = None → NoDup l.*1 →
  (∀ r, (t, r) ∈ l → f (foldl set_reward doc (item_of <$> l)) = Some (amount_of r)) ∧
  (t ∉ l.*1 → f (foldl set_reward doc (item_of <$> l)) = None).
Proof.
  intros Hf Hd. induction l as [|[t' r'] l IH] using rev_ind; intros Hnd.
  { split; [|done]. intros r Hr. by apply not_elem_of_nil in Hr. }
  rewrite fmap_app in Hnd. apply list.NoDup_app in Hnd as (Hnd & Hnew & _).
  destruct (IH Hnd) as [IH1 IH2]. rewrite fmap_app, foldl_app. cbn [foldl fmap list_fmap].
  rewrite (set_reward_field t) by done. cbn [fst snd]. split.
  - intros r [Hr|Hr]%elem_of_app.
    + rewrite decide_False; [by apply IH1|]. intros ->. destruct (Hnew t); [|by left].
      apply list_elem_of_fmap. by exists (t, r).
    + apply list_elem_of_singleton in Hr. simplify_eq. by rewrite decide_True.
  - rewrite fmap_app. intros Hn. rewrite decide_False; [apply IH2|]; set_solver.
Qed.

Lemma convert_rewards_total (items : list DelegationEpochReward) doc n :
  foldl (λ '(res, total) item, (set_reward res item, (total + der_Balance item)%Z)) (doc, n) items
  = (foldl set_reward doc items, (n + sumZ der_Balance items)%Z).
Proof.
  revert doc n. induction items as [|i l IH]; intros doc n; [cbn; by rewrite Z.add_0_r|].
  cbn [foldl]. rewrite IH, sumZ_cons. f_equal. lia.
Qed.

Lemma set_reward_total doc i : jw_Total (set_reward doc i) = jw_Total doc.
Proof. unfold set_reward. by repeat case_match. Qed.

(** The document of the rewards of a pool, or of one of its delegators, shows under
    each type the rewards of that type, and nothing under a type without rewards; its
    total is the sum of all of them, in whatever order the map is ranged over. *)
Theorem epoch_rewards_document (order : gmap RewardType EpochReward → list (RewardType * EpochReward)) m :
  ranges m (order m) → m ≠ ∅ →
  let doc := convertDelegationEpochRewards (convert_epoch_rewards order m) in
  jw_Total doc = ConvertToFloat (Some (sum_map (λ _ r, er_Balance r) m)) ∧
  ∀ t f, reward_field t = Some f → f doc = amount_of <$> m !! t.
Proof.
  intros Hord Hne. cbn zeta.
  assert (convert_epoch_rewards order m = item_of <$> order m) as ->.
  { unfold convert_epoch_rewards. apply list_fmap_ext. by intros _ [t r] _. }
  assert (∀ items, items ≠ [] → convertDelegationEpochRewards items
    = (foldl set_reward noDelegationEpochReward items) <| jw_Total := ConvertToFloat (Some (sumZ der_Balance items)) |>) as Hdoc.
  { intros [|i items] Hi; [done|]. unfold convertDelegationEpochRewards. by rewrite convert_rewards_total. }
  rewrite Hdoc.
  - split.
    + cbn. rewrite sumZ_map, <- (ranges_sum m (order m)) by done. done.
    + intros t f Hf.
      assert (∀ d x, f (d <| jw_Total := x |>) = f d) as -> by (by destruct t; cbn in Hf; simplify_eq/=).
      destruct (set_rewards_field t f (order m) noDelegationEpochReward) as [Hin Hout]; [done| |by apply (ranges_NoDup m)|].
      { by destruct t; cbn in Hf; simplify_eq/=. }
      destruct (m !! t) as [r|] eqn:Hr.
      * apply Hin. by apply (ranges_elem m).
      * apply Hout. intros [[t' r] [-> Hr']]%list_elem_of_fmap. apply (ranges_elem m) in Hr'; [|done]. cbn in Hr. congruence.
  - intros Hnil. apply Hne. apply fmap_nil_inv in Hnil.
    apply map_empty. intros t. destruct (m !! t) as [r|] eqn:Hr; [|done].
    apply (ranges_elem m (order m)) in Hr; [|done]. rewrite Hnil in Hr. by apply not_elem_of_nil in Hr.
Qed.
End rewards.

Lemma epoch_rewards_document_witness :
  let m : gmap RewardType EpochReward :=
    {[ Validation := mkEpochReward 5 1; FoundationPayouts := mkEpochReward 7 0 ]} in
  let doc := convertDelegationEpochRewards (convert_epoch_rewards map_to_list m) in
  (ranges m (map_to_list m) ∧ m ≠ ∅) ∧
  jw_Total doc = ConvertToFloat (Some (sum_map (λ _ r, er_Balance r) m)) ∧
  ∀ t f, reward_field t = Some f → f doc = amount_of <$> m !! t.
Proof.
  intros m. assert (m ≠ ∅) as Hm by (intros Hm; apply (f_equal (lookup Validation)) in Hm; discriminate).
  split; [split; [apply ranges_canonical|done]|].
  apply (epoch_rewards_document map_to_list); [apply ranges_canonical|done].
Defined.
