(* ===== verification/FlipLoader.v ===== *)
(** * The contents of the flips

    core/flip/flip_content_loader.go loads the flips whose content is not in the
    database: it fetches and decrypts the data of each flip, parses it, and saves either
    the content or the failed attempt.  db/postgres_types.go makes the document that is
    saved ([FlipContent_Value] of the file DbEncoding).

    The data of a flip comes from its author.  A type assertion that does not hold
    panics, and the loader runs in a goroutine that does not recover: [None] is a
    panic. *)

From Stdlib Require Import QArith Qround.
From S2P Require Import Prelude Node Transactions Upgrades DbEncoding.

(** ** Data *)

(** What the RLP decoder makes of the data in a value of type [interface{}]. *)
Inductive rlp_item := RBytes (b : bytes) | RList (l : list rlp_item).

(** Go: db/types.go FlipToLoadContent *)
Record FlipToLoadContent := mkFlipToLoad { flc_Cid : string; flc_Key : string; flc_Attempts : Z }.

(** The node, the clock and the libraries; [inr] is an error. *)
Class FlipNode := {
  PrivateKey : Type;
  ToECDSA : bytes → PrivateKey + string;
  Decrypt : PrivateKey → bytes → bytes + string;
  (** [cid.Decode], whose error is ignored, and [Bytes] *)
  cid_Decode_Bytes : string → bytes;
  (** the public part of the flip [GetRawFlip] finds *)
  GetRawFlip : bytes → bytes + string;
  rlp_DecodeBytes : bytes → list rlp_item + string;
  (** [image.Decode], with [Bounds().Max], and [Scale] with [jpeg.Encode] *)
  Image : Type;
  image_Decode : bytes → (Image * Z * Z) + string;
  jpeg_scaled : Image → Z → Z → bytes + string;
  (** [int(x)] for a [float32] that is not a number *)
  int_of_NaN : Z;
  (** [time.Now().Add(d).UTC().Unix()], [d] in seconds *)
  Unix_after : Z → Z
}.

(** The fields of the loader that the operations read. *)
Record ContentLoader := mkContentLoader { attemptsLimit : Z; retryInterval : Z }.

(** [db.FlipContent{}] *)
Definition emptyFlipContent : FlipContent := mkFlipContent EmptyString [] [] [].

(** ** Operations *)

Section operations.
Context `{FlipNode}.

(** [hex.DecodeString] of the standard library; [None] is an error *)
Definition hex_value (c : Ascii.ascii) : option Z :=
  let n := Z.of_nat (Ascii.nat_of_ascii c) in
  if ((48 <=? n) && (n <=? 57))%Z then Some (n - 48)%Z
  else if ((97 <=? n) && (n <=? 102))%Z then Some (n - 87)%Z
  else if ((65 <=? n) && (n <=? 70))%Z then Some (n - 55)%Z
  else None.
Fixpoint hex_DecodeString (s : string) : option bytes :=
  match s with
  | EmptyString => Some []
  | String a (String b s) =>
      x ← hex_value a; y ← hex_value b; l ← hex_DecodeString s; Some ((16 * x + y)%Z :: l)
  | _ => None
  end.

(** Go: core/flip/flip_content_loader.go convertKey *)
Definition convertKey (keyHex : string) : PrivateKey + string :=
  match hex_DecodeString keyHex with
  | None => inr "invalid hex"%string
  | Some keyBytes => ToECDSA keyBytes
  end.

(** Go: core/flip/flip_content_loader.go getFlipData

    The key is not nil. *)
Definition getFlipData (cid : bytes) (encryptionKey : PrivateKey) : bytes + string :=
  match GetRawFlip cid with
  | inr err => inr err
  | inl publicPart => Decrypt encryptionKey publicPart
  end.

(** [int(float32(b) / float32(a) * 64)] *)
Definition scaled_side (a b : Z) : Z :=
  if (a =? 0)%Z then int_of_NaN
  else Qfloor (round_to 24 (float32_div (float32_of b) (float32_of a) * inject_Z 64)).

(** Go: core/flip/flip_content_loader.go compressPic *)
Definition compressPic (src : bytes) : bytes + string :=
  match image_Decode src with
  | inr err => inr err
  | inl (srcImage, X, Y) =>
      let '(x, y) := (if (Y <? X)%Z then (64, scaled_side X Y) else (scaled_side Y X, 64))%Z in
      match jpeg_scaled srcImage x y with
      | inr err => inr err
      | inl [] => inr "empty converted pic"%string
      | inl res => inl res
      end
  end.

(** The type assertions [b.([]byte)] and [b.([]interface{})]. *)
Definition as_bytes (i : rlp_item) : option bytes := match i with RBytes b => Some b | _ => None end.
Definition as_list (i : rlp_item) : option (list rlp_item) := match i with RList l => Some l | _ => None end.

(** An order of an answer: the first byte of its item, or 0. *)
Definition as_order (i : rlp_item) : option Z :=
  b ← as_bytes i; Some (match b with order :: _ => order | [] => 0%Z end).
Definition as_orders (i : rlp_item) : option (list Z) := l ← as_list i; mapM as_order l.

(** Go: core/flip/flip_content_loader.go parseFlip *)
Definition parseFlip (flipCidStr : string) (data : bytes) : option (FlipContent + string) :=
  match rlp_DecodeBytes data with
  | inr err => Some (inr err)
  | inl [] => Some (inl emptyFlipContent)
  | inl (arr0 :: rest) =>
      l ← as_list arr0;
      pics ← mapM as_bytes l;
      allOrders ← (match rest with
                   | [] => Some []
                   | arr1 :: _ => l ← as_list arr1; mapM as_orders l
                   end);
      let icon := match pics with
                  | [] => []
                  | pic :: _ => match compressPic pic with inl icon => icon | inr _ => [] end
                  end in
      Some (inl (mkFlipContent flipCidStr pics allOrders icon))
  end.

(** Go: core/flip/flip_content_loader.go getFlipContent *)
Definition getFlipContent (flip : FlipToLoadContent) : option (FlipContent + string) :=
  match convertKey (flc_Key flip) with
  | inr err => Some (inr err)
  | inl encryptionKey =>
      match getFlipData (cid_Decode_Bytes (flc_Cid flip)) encryptionKey with
      | inr err => Some (inr err)
      | inl flipData => parseFlip (flc_Cid flip) flipData
      end
  end.

(** Go: core/flip/flip_content_loader.go handleFlips *)
Fixpoint handleFlips (l : ContentLoader) (flips : list FlipToLoadContent)
    (failedFlips : list FailedFlipContent) (flipsContent : list FlipContent)
    : option (list FailedFlipContent * list FlipContent) :=
  match flips with
  | [] => Some (failedFlips, flipsContent)
  | f :: flips =>
      r ← getFlipContent f;
      match r with
      | inr _ =>
          let attemptsLimitReached := (swrap 64 (flc_Attempts f + 1) =? attemptsLimit l)%Z in
          handleFlips l flips
            (failedFlips ++ [mkFailedFlipContent (flc_Cid f) attemptsLimitReached
               (if attemptsLimitReached then None else Some (Unix_after (retryInterval l)))])
            flipsContent
      | inl flipContent => handleFlips l flips failedFlips (flipsContent ++ [flipContent])
      end
  end.
End operations.

(** ** What is loaded *)

Section properties.
Context `{FlipNode}.
Implicit Types (l : ContentLoader) (flips : list FlipToLoadContent) (f : FlipToLoadContent).

(** The row of a failed attempt. *)
Definition failed_row l f : FailedFlipContent :=
  let limit := (swrap 64 (flc_Attempts f + 1) =? attemptsLimit l)%Z in
  mkFailedFlipContent (flc_Cid f) limit (if limit then None else Some (Unix_after (retryInterval l))).

(** The failed attempts and the contents among the results. *)
Definition failures l flips (rs : list (FlipContent + string)) : list FailedFlipContent :=
  zip flips rs ≫= λ '(f, r), match r with inr _ => [failed_row l f] | inl _ => [] end.
Definition contents (rs : list (FlipContent + string)) : list FlipContent :=
  rs ≫= λ r, match r with inl c => [c] | inr _ => [] end.

Lemma handle_flips_acc l flips failed loaded :
  handleFlips l flips failed loaded
  = rs ← mapM getFlipContent flips; Some (failed ++ failures l flips rs, loaded ++ contents rs).
Proof.
  revert failed loaded. induction flips as [|f flips IH]; intros failed loaded; [cbn; by rewrite !app_nil_r|].
  cbn [handleFlips mapM]. destruct (getFlipContent f) as [[c|err]|]; cbn [mbind option_bind]; [..|done];
    rewrite IH; destruct (mapM getFlipContent flips) as [rs|]; cbn [mbind option_bind mret option_ret]; try done;
    by rewrite <- app_assoc.
Qed.

(** A batch of flips: each flip gives either its content or a failed attempt, which
    is its last when the limit is reached and says otherwise when to try again; both
    lists keep the order of the batch.  The batch panics when a flip of it does. *)
Theorem batch_is_handled l flips :
  handleFlips l flips [] []
  = match mapM getFlipContent flips with
    | None => None
    | Some rs => Some (failures l flips rs, contents rs)
    end.
Proof. rewrite handle_flips_acc. by destruct (mapM getFlipContent flips). Qed.

(** The data of a flip, when it can be fetched and decrypted. *)
Definition decrypted f (data : bytes) : Prop :=
  ∃ k, convertKey (flc_Key f) = inl k ∧ getFlipData (cid_Decode_Bytes (flc_Cid f)) k = inl data.

Lemma flip_content f data : decrypted f data → getFlipContent f = parseFlip (flc_Cid f) data.
Proof. intros (k & Hk & Hd). unfold getFlipContent. by rewrite Hk, Hd. Qed.

(** One flip stops the loader: when the data an author encrypted decodes to a list
    whose first item is not itself a list, no flip of the batch is saved, the panic
    ends the program. *)
Theorem malformed_flip_panics l flips f data b rest :
  f ∈ flips → decrypted f data → rlp_DecodeBytes data = inl (RBytes b :: rest) →
  handleFlips l flips [] [] = None.
Proof.
  intros Hf Hd Hrlp. rewrite handle_flips_acc.
  assert (mapM getFlipContent flips = None) as ->; [|done].
  induction flips as [|g flips IH]; [by apply not_elem_of_nil in Hf|].
  cbn [mapM]. apply elem_of_cons in Hf as [<-|Hf].
  - rewrite (flip_content f data Hd). unfold parseFlip. by rewrite Hrlp.
  - destruct (getFlipContent g); [|done]. cbn [mbind option_bind]. by rewrite IH.
Qed.

(** ** The document of a flip *)

(** How an author encodes the pictures and the orders: a zero has no bytes. *)
Definition order_item (o : Z) : rlp_item := RBytes (if (o =? 0)%Z then [] else [o]).
Definition flip_items (pics : list bytes) (orders : list (list Z)) : list rlp_item :=
  [RList (RBytes <$> pics); RList ((λ row, RList (order_item <$> row)) <$> orders)].

Lemma mapM_fmap_id {A B} (g : A → B) (h : B → option A) (l : list A) :
  (∀ x, h (g x) = Some x) → mapM h (g <$> l) = Some l.
Proof.
  intros Hgh. induction l as [|x l IH]; [done|]. cbn [fmap list_fmap mapM].
  rewrite Hgh. cbn [mbind option_bind]. by rewrite IH.
Qed.

Lemma as_order_item o : as_order (order_item o) = Some o.
Proof. unfold as_order, order_item. cbn. by destruct (Z.eqb_spec o 0) as [->|]. Qed.

Lemma parse_encoded cid data pics orders :
  rlp_DecodeBytes data = inl (flip_items pics orders) →
  ∃ icon, parseFlip cid data = Some (inl (mkFlipContent cid pics orders icon)).
Proof.
  intros Hd. unfold parseFlip. rewrite Hd. cbn [flip_items as_list mbind option_bind].
  rewrite (mapM_fmap_id RBytes as_bytes) by done. cbn [mbind option_bind].
  rewrite mapM_fmap_id.
  - cbn [mbind option_bind]. by eexists.
  - intros row. cbn. apply mapM_fmap_id, as_order_item.
Qed.

(** The rows of orders up to the first that is empty, and those from it on. *)
Fixpoint first_rows (orders : list (list Z)) : list (list Z) :=
  match orders with
  | [] => []
  | [] :: _ => []
  | row :: orders => row :: first_rows orders
  end.
Fixpoint other_rows (orders : list (list Z)) : list (list Z) :=
  match orders with
  | [] :: _ => orders
  | _ :: orders => other_rows orders
  | [] => []
  end.

Lemma first_other orders : first_rows orders ++ other_rows orders = orders.
Proof. induction orders as [|[|o row] orders IH]; [done..|]. cbn. by rewrite IH. Qed.

(** The orders of an answer, from its [j]-th on, are written into the last row. *)
Lemma add_orders_rest n rest j pre done_ :
  length done_ = j → (j + length rest = n)%nat → (0 < j)%nat →
  add_orders (length pre) n rest j (pre ++ [done_ ++ replicate (n - j) 0%Z])
  = Some (pre ++ [done_ ++ rest]).
Proof.
  revert j done_. induction rest as [|o rest IH]; intros j done_ Hj Hn Hpos.
  { cbn in Hn |- *. by replace (n - j)%nat with 0%nat by lia. }
  cbn [length] in Hn. cbn [add_orders]. destruct (Nat.eqb_spec j 0); [lia|].
  unfold set_order. rewrite list_lookup_middle by done.
  rewrite length_app, length_replicate, decide_True by lia. cbn [mbind option_bind].
  rewrite insert_app_r_alt, Nat.sub_diag by lia. cbn [insert list_insert].
  rewrite insert_app_r_alt, Hj, Nat.sub_diag by lia.
  replace (n - j)%nat with (S (n - S j)) by lia. cbn [replicate insert list_insert].
  replace (done_ ++ o :: replicate (n - S j) 0%Z) with ((done_ ++ [o]) ++ replicate (n - S j) 0%Z)
    by by rewrite <- app_assoc.
  rewrite IH.
  - by rewrite <- app_assoc.
  - rewrite length_app. cbn. lia.
  - lia.
  - lia.
Qed.

Lemma add_orders_row row pre :
  row ≠ [] → add_orders (length pre) (length row) row 0 pre = Some (pre ++ [row]).
Proof.
  destruct row as [|o rest]; [done|]. intros _. cbn [add_orders length Nat.eqb].
  unfold set_order. rewrite list_lookup_middle by done.
  rewrite length_replicate, decide_True by lia. cbn [mbind option_bind].
  rewrite insert_app_r_alt, Nat.sub_diag by lia. cbn [insert list_insert replicate].
  pose proof (add_orders_rest (S (length rest)) rest 1 pre [o]) as Hr. cbn in Hr.
  rewrite Nat.sub_0_r in Hr. by apply Hr; lia.
Qed.

(** Once a row was left out, the next one that is not empty is out of range. *)
Lemma convert_orders_short orders i pre :
  (length pre < i)%nat →
  convert_orders orders i pre = if forallb (λ row, bool_decide (row = [])) orders then Some pre else None.
Proof.
  revert i. induction orders as [|row orders IH]; intros i Hi; [done|]. cbn [convert_orders forallb].
  destruct row as [|o row]; [apply IH; lia|]. cbn [add_orders length Nat.eqb].
  unfold set_order. by rewrite lookup_ge_None_2 by (rewrite length_app; cbn; lia).
Qed.

Lemma convert_orders_rows orders pre :
  convert_orders orders (length pre) pre
  = if forallb (λ row, bool_decide (row = [])) (other_rows orders)
    then Some (pre ++ first_rows orders) else None.
Proof.
  revert pre. induction orders as [|row orders IH]; intros pre; [cbn; by rewrite app_nil_r|].
  destruct row as [|o row].
  - cbn [convert_orders add_orders mbind option_bind first_rows other_rows forallb]. rewrite app_nil_r.
    apply convert_orders_short. lia.
  - cbn [convert_orders]. rewrite add_orders_row by done. cbn [mbind option_bind first_rows other_rows].
    specialize (IH (pre ++ [o :: row])). rewrite length_app, Nat.add_1_r in IH. rewrite IH.
    by rewrite <- app_assoc.
Qed.

(** The document of a flip holds its orders: all of them when none of its answers
    is without orders.  An answer without orders is left out, and one with orders after
    it makes the conversion panic. *)
Theorem flip_document_orders (v : FlipContent) :
  FlipContent_Value v
  = if forallb (λ row, bool_decide (row = [])) (other_rows (fc_Orders v))
    then Some (mkFlipContentDocument (fc_Cid v) (appended (fc_Pics v)) (first_rows (fc_Orders v)) (fc_Icon v))
    else None.
Proof.
  unfold FlipContent_Value. pose proof (convert_orders_rows (fc_Orders v) []) as Hc. cbn in Hc.
  rewrite Hc. by destruct (forallb _ _).
Qed.

Lemma first_rows_all orders : Forall (λ row, row ≠ []) orders → first_rows orders = orders ∧ other_rows orders = [].
Proof. induction 1 as [|[|o row] orders Hr _ [IH1 IH2]]; [done..|]. cbn. by rewrite IH1, IH2. Qed.

(** [C38]  From the author to the database: the pictures and the orders an author encoded
    and encrypted are those of the document that is saved for the flip, provided that
    none of the answers is without orders.  The pictures are null in the document when there
    are none. *)
Theorem flip_reaches_the_database l f data pics orders :
  decrypted f data → rlp_DecodeBytes data = inl (flip_items pics orders) →
  Forall (λ row, row ≠ []) orders →
  ∃ content, handleFlips l [f] [] [] = Some ([], [content]) ∧
  ∃ icon, FlipContent_Value content = Some (mkFlipContentDocument (flc_Cid f) (appended pics) orders icon).
Proof.
  intros Hdec Hrlp Hne. destruct (parse_encoded (flc_Cid f) data pics orders Hrlp) as [icon Hp].
  exists (mkFlipContent (flc_Cid f) pics orders icon). cbn [handleFlips].
  rewrite (flip_content f data Hdec), Hp. split; [done|]. exists icon.
  unfold FlipContent_Value. pose proof (convert_orders_rows orders []) as Hc. cbn [app length] in Hc.
  destruct (first_rows_all orders Hne) as [E1 E2]. rewrite E1, E2 in Hc. cbn in Hc |- *. by rewrite Hc.
Qed.
End properties.

(** A flip whose data is an empty list has the content of no flip: no cid, no pictures. *)
Lemma empty_flip_loses_its_cid `{FlipNode} l f data :
  decrypted f data → rlp_DecodeBytes data = inl [] →
  handleFlips l [f] [] [] = Some ([], [emptyFlipContent]).
Proof. intros Hd Hr. cbn. rewrite (flip_content f data Hd). unfold parseFlip. by rewrite Hr. Qed.

(** ** A concrete node *)

#[local] Instance sample_flip_node : FlipNode := {|
  PrivateKey := unit;
  ToECDSA _ := inl tt;
  Decrypt _ b := inl b;
  cid_Decode_Bytes s := if decide (s = "bad"%string) then [1%Z] else [2%Z];
  GetRawFlip b := inl b;
  rlp_DecodeBytes b :=
    if decide (b = [1%Z]) then inl [RBytes [7%Z]]
    else inl (flip_items [[1; 2]; [3]]%Z [[0; 1]; [1; 0]]%Z);
  Image := unit;
  image_Decode _ := inl (tt, 30%Z, 60%Z);
  jpeg_scaled _ x y := inl [x; y];
  int_of_NaN := 0;
  Unix_after d := d
|}.

Lemma sample_decrypted cid n : decrypted (mkFlipToLoad cid "ab" n) (cid_Decode_Bytes cid).
Proof. by exists tt. Qed.

Lemma malformed_flip_panics_witness :
  let flips := [mkFlipToLoad "good" "ab" 0; mkFlipToLoad "bad" "ab" 0] in
  handleFlips (mkContentLoader 3 60) [mkFlipToLoad "good" "ab" 0] [] []
  = Some ([], [mkFlipContent "good" [[1; 2]; [3]]%Z [[0; 1]; [1; 0]]%Z [32; 64]%Z]) ∧
  handleFlips (mkContentLoader 3 60) flips [] [] = None.
Proof.
  split; [vm_compute; reflexivity|].
  apply (malformed_flip_panics _ _ (mkFlipToLoad "bad" "ab" 0) [1%Z] [7%Z] []).
  - right. by left.
  - apply (sample_decrypted "bad").
  - reflexivity.
Defined.

Lemma flip_reaches_the_database_witness :
  let f := mkFlipToLoad "good" "ab" 0 in
  ∃ content, handleFlips (mkContentLoader 3 60) [f] [] [] = Some ([], [content]) ∧
  ∃ icon, FlipContent_Value content
          = Some (mkFlipContentDocument "good" (Some [[1; 2]; [3]]%Z) [[0; 1]; [1; 0]]%Z icon).
Proof.
  apply (flip_reaches_the_database (mkContentLoader 3 60) (mkFlipToLoad "good" "ab" 0) [2%Z]
           [[1; 2]; [3]]%Z [[0; 1]; [1; 0]]%Z).
  - apply (sample_decrypted "good").
  - reflexivity.
  - repeat constructor; discriminate.
Defined.
