(* ===== verification/FlipQueue.v ===== *)
(** * The queue of the flips

    The loop of core/flip/flip_content_loader.go over the tables of the database: flips
    that are due are taken from a queue in batches, and what the node gives for them is
    saved.  The statements of resources/scripts/indexer/ are modelled with the columns
    they decide by: the queue, the transactions of the flips and the contents. *)

From stdpp Require Import sorting.
From S2P Require Import Prelude DbEncoding FlipLoader.

(** ** The tables *)

(** A row of [flips_queue]. *)
Record queue_row := mkRow { qr_cid : string; qr_key : string; qr_attempts : Z; qr_next : Z }.

#[export] Instance queue_row_eq : EqDecision queue_row.
Proof. solve_decision. Defined.

(** The queue, the transactions of the flips by their cid in lower case, and the contents
    by the transaction. *)
Record tables := mkTables { queue : list queue_row; flips : gmap string Z; contents : gmap Z flipContent }.

Definition is_cid (cid : string) (r : queue_row) : Prop := ToLower (qr_cid r) = ToLower cid.
#[export] Instance is_cid_dec cid r : Decision (is_cid cid r).
Proof. unfold is_cid. apply _. Defined.

Definition by_next (r r' : queue_row) : Prop := (qr_next r ≤ qr_next r')%Z.
#[export] Instance by_next_dec r r' : Decision (by_next r r').
Proof. unfold by_next. apply _. Defined.
Definition due (now : Z) (r : queue_row) : Prop := (qr_next r < now)%Z.
#[export] Instance due_dec now r : Decision (due now r).
Proof. unfold due. apply _. Defined.

(** SQL: resources/scripts/indexer/selectFlipsToLoadContent.sql select:1-5

    [None] is an error, as the limit is negative. *)
Definition select_flips (now limit : Z) (q : list queue_row) : option (list queue_row) :=
  if (limit <? 0)%Z then None
  else Some (take (Z.to_nat limit) (merge_sort by_next (filter (due now) q))).

(** A row as [db.GetFlipsToLoadContent] reads it. *)
Definition to_load (r : queue_row) : FlipToLoadContent := mkFlipToLoad (qr_cid r) (qr_key r) (qr_attempts r).

(** The attempts and the indexes of pictures and orders are a [smallint]. *)
Definition smallint_max : Z := 2 ^ 15 - 1.

(** SQL: resources/scripts/indexer/init/procedures/saveFlipsContent.sql save_flips_content:19-22

    [None] is an error. *)
Definition update_row (fail : FailedFlipContent) (r : queue_row) : option queue_row :=
  if decide (is_cid (ffc_Cid fail) r) then
    if (smallint_max <? qr_attempts r + 1)%Z then None
    else Some (mkRow (qr_cid r) (qr_key r) (qr_attempts r + 1)
                 (match ffc_NextAttemptTimestamp fail with Some t => swrap 64 t | None => 0 end))
  else Some r.

(** SQL: resources/scripts/indexer/init/procedures/saveFlipsContent.sql save_flips_content:15-23 *)
Definition save_fail (q : list queue_row) (fail : FailedFlipContent) : option (list queue_row) :=
  if ffc_AttemptsLimitReached fail then Some (filter (λ r, ¬ is_cid (ffc_Cid fail) r) q)
  else mapM (update_row fail) q.

(** The rows of a list numbered from 0: the index of each is a [smallint]. *)
Definition indexed {A} (l : list A) : bool := (Z.of_nat (length l) <=? smallint_max + 1)%Z.

(** SQL: resources/scripts/indexer/init/procedures/saveFlipsContent.sql save_flips_content:38-58

    Whether the rows of the pictures and of the orders can be inserted.  Pictures that are
    null are not SQL's NULL, and null has no length, which is an error; the orders are left
    out of the document when there are none.  The rows of the icon have no such limit. *)
Definition storable (doc : flipContent) : bool :=
  match jf_Pics doc with
  | None => false
  | Some pics =>
      indexed pics && indexed (jf_Orders doc)
      && forallb (λ row, indexed row && forallb (int_fits 16) row) (jf_Orders doc)
  end.

(** SQL: resources/scripts/indexer/init/procedures/saveFlipsContent.sql save_flips_content:29-62

    The content of a flip that is not known has no transaction, which a row of the
    contents must have, and a flip has one content.  The document stands for the rows of
    its pictures, orders and icon; the mark of an encrypted flip in the summaries, which
    the loop does not read, is left out. *)
Definition save_content (t : tables) (doc : flipContent) : option tables :=
  let cid := ToLower (jf_Cid doc) in
  let q := filter (λ r, ¬ is_cid (jf_Cid doc) r) (queue t) in
  match flips t !! cid with
  | None => None
  | Some tx =>
      match contents t !! tx with
      | Some _ => None
      | None => if storable doc then Some (mkTables q (flips t) (<[tx := doc]> (contents t))) else None
      end
  end.

(** A fold that ends with the first error. *)
Fixpoint all_steps {A B} (f : A → B → option A) (l : list B) (a : A) : option A :=
  match l with [] => Some a | b :: l => a ← f a b; all_steps f l a end.

(** SQL: resources/scripts/indexer/init/procedures/saveFlipsContent.sql save_flips_content:12-65 *)
Definition save_flips_content (fails : list FailedFlipContent) (docs : list flipContent) (t : tables) : option tables :=
  q ← all_steps save_fail fails (queue t);
  all_steps save_content docs (mkTables q (flips t) (contents t)).

(** ** The loop *)

(** A turn of the loop: the node, the time, and whether the database answers. *)
Record turn := mkTurn { tn_node : FlipNode; tn_now : Z; tn_select : bool; tn_save : bool }.

Section loop.
Context (l : ContentLoader) (batchSize : Z).

(** Go: core/flip/flip_content_loader.go loop:65-86

    The tables after the turn; [None] is a panic. *)
Definition loop_turn (n : turn) (t : tables) : option tables :=
  match (if tn_select n then select_flips (tn_now n) batchSize (queue t) else None) with
  | None => Some t
  | Some [] => Some t
  | Some rows =>
      '(failedFlips, flipsContent) ← handleFlips (H := tn_node n) l (to_load <$> rows) [] [];
      documents ← mapM FlipContent_Value flipsContent;
      Some (if tn_save n then default t (save_flips_content failedFlips documents t) else t)
  end.

(** Go: core/flip/flip_content_loader.go loop *)
Fixpoint loop (turns : list turn) (t : tables) : option tables :=
  match turns with [] => Some t | n :: turns => t ← loop_turn n t; loop turns t end.
End loop.

(** ** What a batch does to the tables *)

Abbreviation row_cid := (λ r, ToLower (qr_cid r)).

(** What the failed attempts make of a row. *)
Definition row_fail (fails : list FailedFlipContent) (r : queue_row) : option queue_row :=
  match list_find (λ f, is_cid (ffc_Cid f) r) fails with
  | None => Some r
  | Some (_, f) => if ffc_AttemptsLimitReached f then None else update_row f r
  end.

Lemma mapM_omap {A B} (f : A → option B) (q : list A) :
  Forall (λ a, is_Some (f a)) q → mapM f q = Some (omap f q).
Proof.
  induction 1 as [|a q [b Hb] _ IH]; [done|]. cbn. rewrite Hb. cbn. by rewrite IH.
Qed.
Lemma omap_omap {A B C} (f : A → option B) (g : B → option C) (q : list A) :
  omap g (omap f q) = omap (λ a, f a ≫= g) q.
Proof. induction q as [|a q IH]; [done|]. cbn. destruct (f a) as [b|]; cbn; by rewrite IH. Qed.
Lemma omap_ext_in {A B} (f g : A → option B) (q : list A) : (∀ a, a ∈ q → f a = g a) → omap f q = omap g q.
Proof.
  induction q as [|a q IH]; intros Hfg; [done|]. cbn. rewrite Hfg by apply list_elem_of_here.
  rewrite IH; [done|]. intros b Hb. apply Hfg. by apply list_elem_of_further.
Qed.
Lemma omap_some {A} (f : A → option A) (q : list A) : (∀ a, a ∈ q → f a = Some a) → omap f q = q.
Proof.
  induction q as [|a q IH]; intros Hf; [done|]. cbn. rewrite Hf by apply list_elem_of_here.
  f_equal. apply IH. intros b Hb. apply Hf. by apply list_elem_of_further.
Qed.
Lemma filter_omap {A} (P : A → Prop) `{∀ a, Decision (P a)} (q : list A) :
  filter P q = omap (λ a, if decide (P a) then Some a else None) q.
Proof. induction q as [|a q IH]; [done|]. rewrite filter_cons. cbn. destruct (decide (P a)); by rewrite IH. Qed.

Lemma update_row_cid f r r' : update_row f r = Some r' → row_cid r' = row_cid r ∧ qr_key r' = qr_key r.
Proof.
  unfold update_row. destruct (decide _) as [Hc|]; [|by intros [= <-]]. destruct (_ <? _)%Z; [done|]. by intros [= <-].
Qed.

Lemma save_fail_omap fail q :
  (∀ r, r ∈ q → is_cid (ffc_Cid fail) r → (qr_attempts r + 1 ≤ smallint_max)%Z) →
  save_fail q fail = Some (omap (row_fail [fail]) q).
Proof.
  intros Hmax. unfold save_fail. destruct (ffc_AttemptsLimitReached fail) eqn:Hl.
  - f_equal. rewrite filter_omap. apply omap_ext_in. intros r _. unfold row_fail. cbn.
    destruct (decide (is_cid (ffc_Cid fail) r)) as [Hc|Hc]; cbn; [rewrite Hl; by rewrite decide_False by tauto|].
    by rewrite decide_True.
  - rewrite mapM_omap.
    + f_equal. apply omap_ext_in. intros r _. unfold row_fail. cbn.
      destruct (decide (is_cid (ffc_Cid fail) r)) as [Hc|Hc]; cbn; [by rewrite Hl|]. unfold update_row. by rewrite decide_False.
    + apply list.Forall_forall. intros r Hr. unfold update_row. destruct (decide _) as [Hc|]; [|by eexists].
      rewrite (proj2 (Z.ltb_ge _ _)) by by apply Hmax. by eexists.
Qed.

Lemma row_fail_none fails r : (∀ f, f ∈ fails → ¬ is_cid (ffc_Cid f) r) → row_fail fails r = Some r.
Proof.
  intros Hno. unfold row_fail. destruct (list_find _ fails) as [[i f]|] eqn:Hf; [|done].
  apply list_find_Some in Hf as (Hi & Hc & _). destruct (Hno f); [by eapply list_elem_of_lookup_2|done].
Qed.

Lemma row_fail_head f fails r :
  is_cid (ffc_Cid f) r → row_fail (f :: fails) r = if ffc_AttemptsLimitReached f then None else update_row f r.
Proof. intros Hc. unfold row_fail. cbn. by rewrite decide_True. Qed.

(** The failed attempts are of different flips: each changes the row of its own. *)
Lemma save_fails fails q :
  NoDup ((λ f, ToLower (ffc_Cid f)) <$> fails) →
  (∀ r f, r ∈ q → f ∈ fails → is_cid (ffc_Cid f) r → (qr_attempts r + 1 ≤ smallint_max)%Z) →
  all_steps save_fail fails q = Some (omap (row_fail fails) q).
Proof.
  revert q. induction fails as [|f fails IH]; intros q Hnd Hmax; cbn [all_steps].
  - f_equal. by rewrite omap_some.
  - cbn [fmap list_fmap] in Hnd. apply list.NoDup_cons in Hnd as [Hf Hnd].
    assert (Hother : ∀ r r', row_fail [f] r = Some r' → is_cid (ffc_Cid f) r → row_cid r' = ToLower (ffc_Cid f)).
    { intros r r' Hr Hc. unfold row_fail in Hr. cbn in Hr. rewrite decide_True in Hr by done. cbn in Hr.
      destruct (ffc_AttemptsLimitReached f); [done|]. by rewrite (proj1 (update_row_cid _ _ _ Hr)). }
    assert (Hno : ∀ r r', row_fail [f] r = Some r' → is_cid (ffc_Cid f) r → ∀ g, g ∈ fails → ¬ is_cid (ffc_Cid g) r').
    { intros r r' Hr Hc g Hg Hcg. apply Hf. unfold is_cid in Hcg. rewrite (Hother r r' Hr Hc) in Hcg. rewrite Hcg.
      by apply (list_elem_of_fmap_2 (λ f, ToLower (ffc_Cid f))). }
    assert (Hsame : ∀ r r', row_fail [f] r = Some r' → ¬ is_cid (ffc_Cid f) r → r' = r).
    { intros r r' Hr Hc. rewrite row_fail_none in Hr; [by injection Hr|]. by intros g ->%list_elem_of_singleton. }
    rewrite save_fail_omap by (intros r Hr Hc; apply (Hmax r f Hr); [apply list_elem_of_here|done]).
    cbn [mbind option_bind]. rewrite IH; [|done|].
    + f_equal. rewrite omap_omap. apply omap_ext_in. intros r Hr. destruct (decide (is_cid (ffc_Cid f) r)) as [Hc|Hc].
      * destruct (row_fail [f] r) as [r'|] eqn:Hr'; cbn [mbind option_bind].
        -- rewrite (row_fail_none fails r') by by apply (Hno r). rewrite <- Hr'. by rewrite !row_fail_head.
        -- rewrite <- Hr'. by rewrite !row_fail_head.
      * rewrite (row_fail_none [f]) by by intros g ->%list_elem_of_singleton. cbn [mbind option_bind].
        unfold row_fail. cbn. rewrite decide_False by done. by destruct (list_find _ fails) as [[i g]|].
    + intros r g (r0 & Hr0 & Hr)%list_elem_of_omap Hg Hcg. destruct (decide (is_cid (ffc_Cid f) r0)) as [Hc|Hc].
      * by destruct (Hno r0 r Hr Hc g Hg).
      * rewrite (Hsame r0 r Hr Hc) in *. apply (Hmax r0 g Hr0); [by apply list_elem_of_further|done].
Qed.

(** The contents are of different flips, which are known and have none, and can be stored. *)
Definition flips_inj (t : tables) : Prop := ∀ a b tx, flips t !! a = Some tx → flips t !! b = Some tx → a = b.
Definition without_content (t : tables) (cid : string) : Prop :=
  ∃ tx, flips t !! ToLower cid = Some tx ∧ contents t !! tx = None.

Lemma save_contents docs t :
  flips_inj t → NoDup ((λ d, ToLower (jf_Cid d)) <$> docs) → (∀ d, d ∈ docs → without_content t (jf_Cid d)) →
  (∀ d, d ∈ docs → storable d = true) →
  ∃ cs, all_steps save_content docs t = Some (mkTables (filter (λ r, Forall (λ d, ¬ is_cid (jf_Cid d) r) docs) (queue t)) (flips t) cs) ∧
    (∀ d tx, d ∈ docs → flips t !! ToLower (jf_Cid d) = Some tx → cs !! tx = Some d) ∧
    (∀ tx, (∀ d, d ∈ docs → flips t !! ToLower (jf_Cid d) ≠ Some tx) → cs !! tx = contents t !! tx).
Proof.
  revert t. induction docs as [|d docs IH]; intros [q fl cs] Hinj Hnd Hall Hst; cbn [all_steps queue flips contents] in *.
  - exists cs. split_and!; [|by intros d tx ?%elem_of_nil|done]. do 2 f_equal.
    rewrite filter_omap, omap_some; [done|]. intros r _. by rewrite decide_True by apply Forall_nil.
  - cbn [fmap list_fmap] in Hnd. apply list.NoDup_cons in Hnd as [Hd Hnd].
    destruct (Hall d) as (tx & Htx & Hcs); [apply list_elem_of_here|]. cbn in Htx, Hcs.
    assert (save_content (mkTables q fl cs) d = Some (mkTables (filter (λ r, ¬ is_cid (jf_Cid d) r) q) fl (<[tx := d]> cs))) as ->.
    { unfold save_content. cbn [queue flips contents]. by rewrite Htx, Hcs, (Hst d (list_elem_of_here _ _)). }
    cbn [mbind option_bind].
    assert (Hne : ∀ d', d' ∈ docs → fl !! ToLower (jf_Cid d') ≠ Some tx).
    { intros d' Hd' Heq. apply Hd. rewrite (Hinj (ToLower (jf_Cid d)) (ToLower (jf_Cid d')) tx Htx Heq).
      by apply (list_elem_of_fmap_2 (λ d, ToLower (jf_Cid d))). }
    destruct (IH (mkTables (filter (λ r, ¬ is_cid (jf_Cid d) r) q) fl (<[tx := d]> cs))) as (cs' & Hcs' & Hin & Hout); [done|done| |intros d' Hd'; by apply Hst, list_elem_of_further|].
    { intros d' Hd'. destruct (Hall d') as (tx' & Htx' & Hcs'); [by apply list_elem_of_further|]. exists tx'. split; [done|].
      cbn in *. rewrite lookup_insert_ne; [done|]. intros ->. by destruct (Hne d' Hd'). }
    cbn [queue flips contents] in *. exists cs'. split_and!.
    + rewrite Hcs'. do 2 f_equal. rewrite !filter_omap, omap_omap. apply omap_ext_in. intros r _.
      destruct (decide (is_cid (jf_Cid d) r)) as [Hc|Hc].
      * rewrite !decide_False; [done|intros [? _]%list.Forall_cons; tauto|tauto].
      * rewrite (decide_True _ _ Hc). cbn. destruct (decide (Forall _ docs)) as [Hf|Hf].
        -- by rewrite decide_True by (apply Forall_cons; done).
        -- rewrite decide_False; [done|]. by intros [_ ?]%list.Forall_cons.
    + intros d' tx' [->|Hd']%elem_of_cons Htx'; [|by apply Hin]. assert (tx' = tx) as -> by congruence.
      rewrite Hout by done. apply lookup_insert_eq.
    + intros tx' Hno. rewrite Hout by (intros d' Hd'; apply Hno; by apply list_elem_of_further).
      apply lookup_insert_ne. intros ->. by apply (Hno d); [apply list_elem_of_here|].
Qed.

(** ** What a turn does *)

Lemma NoDup_omap_in {A B C} (f : A → option B) (g : A → C) (h : B → C) (q : list A) :
  (∀ a b, a ∈ q → f a = Some b → h b = g a) → NoDup (g <$> q) → NoDup (h <$> omap f q).
Proof.
  induction q as [|a q IH]; [done|]. cbn. intros Hf [Ha Hq]%list.NoDup_cons.
  assert (Hfq : ∀ a b, a ∈ q → f a = Some b → h b = g a) by (intros a' b Ha'; by apply Hf, list_elem_of_further).
  destruct (f a) as [b|] eqn:Hb; [|by apply IH]. cbn. apply list.NoDup_cons. split; [|by apply IH].
  rewrite (Hf a b) by (done || apply list_elem_of_here).
  intros (b' & Heq & (a' & Ha' & Hb')%list_elem_of_omap)%list_elem_of_fmap.
  apply Ha. rewrite Heq, (Hfq a' b' Ha' Hb'). by apply list_elem_of_fmap_2.
Qed.
Lemma same_cid q r r' : NoDup (row_cid <$> q) → r ∈ q → r' ∈ q → row_cid r = row_cid r' → r = r'.
Proof.
  intros Hnd [i Hi]%list_elem_of_lookup [k Hk]%list_elem_of_lookup Heq.
  assert (i = k) as ->; [|congruence]. rewrite list.NoDup_alt in Hnd.
  apply (Hnd i k (row_cid r)); rewrite list_lookup_fmap; [by rewrite Hi|rewrite Hk; cbn; by rewrite Heq].
Qed.

Lemma select_rows now limit q rows :
  select_flips now limit q = Some rows →
  (∀ r, r ∈ rows → r ∈ q ∧ due now r) ∧ (NoDup (row_cid <$> q) → NoDup (row_cid <$> rows)) ∧
  ((0 < limit)%Z → Exists (due now) q → rows ≠ []).
Proof.
  unfold select_flips. destruct (limit <? 0)%Z; [done|]. intros [= <-].
  set (sorted := merge_sort by_next (filter (due now) q)).
  assert (Hperm : sorted ≡ₚ filter (due now) q) by apply merge_sort_Permutation. split_and!.
  - intros r Hr%list.elem_of_take. destruct Hr as (i & Hr & _). apply list_elem_of_lookup_2 in Hr.
    rewrite Hperm, list_elem_of_filter in Hr. tauto.
  - intros Hnd. apply (list.sublist_NoDup _ (row_cid <$> sorted)); [|apply list.fmap_sublist, list.sublist_take].
    rewrite Hperm. by apply (list.sublist_NoDup _ (row_cid <$> q)); [|apply list.fmap_sublist, list.sublist_filter].
  - intros Hlim (r & Hr & Hdue)%list.Exists_exists Hnil.
    assert (Hin : r ∈ sorted) by (rewrite Hperm, list_elem_of_filter; done).
    destruct sorted as [|s sorted]; [by apply elem_of_nil in Hin|]. by replace (Z.to_nat limit) with (S (Z.to_nat (limit - 1))) in Hnil by lia.
Qed.

Section settle.
Context (l : ContentLoader) (batchSize : Z).
Hypothesis Hlimit : (1 ≤ attemptsLimit l ≤ smallint_max)%Z.
Implicit Types (n : turn) (r : queue_row) (t : tables).

(** What the node gives for a flip, which does not depend on the attempts. *)
Definition tried n r : option (FlipContent + string) := getFlipContent (H := tn_node n) (to_load r).
Definition fails n r : Prop := match tried n r with Some (inr _) => True | _ => False end.
#[export] Instance fails_dec n r : Decision (fails n r).
Proof. unfold fails. destruct (tried n r) as [[|]|]; apply _. Defined.
Definition loads n r (doc : flipContent) : Prop := ∃ c, tried n r = Some (inl c) ∧ FlipContent_Value c = Some doc.

(** The flip is not malformed: it gives an error or a content of its own, with orders that
    can be converted, with pictures, and with no more of both than can be stored. *)
Definition answers n r : Prop :=
  match tried n r with
  | None => False
  | Some (inr _) => True
  | Some (inl c) => fc_Cid c = qr_cid r ∧ ∃ doc, FlipContent_Value c = Some doc ∧ storable doc = true
  end.

(** The rows are of different flips that are known and without a content, and not all of
    their attempts are used. *)
Record queue_ok t : Prop := {
  qk_distinct : NoDup (row_cid <$> queue t);
  qk_flips : flips_inj t;
  qk_rows r : r ∈ queue t → (0 ≤ qr_attempts r < attemptsLimit l)%Z ∧ without_content t (qr_cid r)
}.

Definition fail_of n r : option FailedFlipContent :=
  match tried n r with Some (inr _) => Some (failed_row (H := tn_node n) l (to_load r)) | _ => None end.
Definition doc_of n r : option flipContent :=
  match tried n r with Some (inl c) => FlipContent_Value c | _ => None end.

Lemma doc_cid c doc : FlipContent_Value c = Some doc → jf_Cid doc = fc_Cid c.
Proof. unfold FlipContent_Value. destruct (convert_orders _ _ _); [|done]. by intros [= <-]. Qed.
Lemma doc_of_cid n r doc : answers n r → doc_of n r = Some doc → jf_Cid doc = qr_cid r.
Proof.
  unfold answers, doc_of. destruct (tried n r) as [[c|]|]; [|done..]. intros [Hc _] Hd. by rewrite (doc_cid c doc Hd).
Qed.
Lemma doc_of_storable n r doc : answers n r → doc_of n r = Some doc → storable doc = true.
Proof.
  unfold answers, doc_of. destruct (tried n r) as [[c|]|]; [|done..]. intros (_ & d & Hd & Hst) Hdoc. congruence.
Qed.
Lemma fail_of_cid n r f : fail_of n r = Some f → ffc_Cid f = qr_cid r.
Proof. unfold fail_of. destruct (tried n r) as [[|]|]; [done| |done]. by intros [= <-]. Qed.

Lemma handle_rows n rows failed loaded :
  (∀ r, r ∈ rows → answers n r) →
  handleFlips (H := tn_node n) l (to_load <$> rows) failed loaded
  = Some (failed ++ omap (fail_of n) rows,
          loaded ++ omap (λ r, match tried n r with Some (inl c) => Some c | _ => None end) rows).
Proof.
  revert failed loaded. induction rows as [|r rows IH]; intros failed loaded Ha; [cbn; by rewrite !app_nil_r|].
  assert (Har : answers n r) by (apply Ha, list_elem_of_here).
  assert (Harows : ∀ r, r ∈ rows → answers n r) by (intros r' Hr'; by apply Ha, list_elem_of_further).
  change (to_load <$> r :: rows) with (to_load r :: (to_load <$> rows)). cbn [handleFlips].
  fold (tried n r). unfold answers in Har. destruct (tried n r) as [[c|e]|] eqn:Ht; [| |done]; cbn [mbind option_bind].
  - assert (fail_of n r = None) as Hf by (unfold fail_of; by rewrite Ht). rewrite IH by done.
    cbn [omap list_omap]. rewrite Hf, Ht. by rewrite <- app_assoc.
  - assert (fail_of n r = Some (failed_row (H := tn_node n) l (to_load r))) as Hf by (unfold fail_of; by rewrite Ht).
    rewrite IH by done. cbn [omap list_omap]. rewrite Hf, Ht. by rewrite <- app_assoc.
Qed.

Lemma rows_documents n rows :
  (∀ r, r ∈ rows → answers n r) →
  mapM FlipContent_Value (omap (λ r, match tried n r with Some (inl c) => Some c | _ => None end) rows)
  = Some (omap (doc_of n) rows).
Proof.
  induction rows as [|r rows IH]; intros Ha; [done|].
  assert (Har : answers n r) by (apply Ha, list_elem_of_here).
  cbn [omap list_omap]. unfold answers in Har. unfold doc_of at 1.
  destruct (tried n r) as [[c|e]|]; [|apply IH; intros r' Hr'; by apply Ha, list_elem_of_further|done].
  destruct Har as (_ & doc & Hdoc & _). cbn [mapM]. rewrite Hdoc. cbn [mbind option_bind]. rewrite IH; [done|].
  intros r' Hr'; by apply Ha, list_elem_of_further.
Qed.

(** The row of a flip after a batch that is saved. *)
Definition after n (rows : list queue_row) r : option queue_row :=
  if decide (r ∈ rows) then
    if decide (fails n r ∧ qr_attempts r + 1 ≠ attemptsLimit l)%Z
    then Some (mkRow (qr_cid r) (qr_key r) (qr_attempts r + 1) (swrap 64 (Unix_after (FlipNode := tn_node n) (retryInterval l))))
    else None
  else Some r.

Lemma after_cid n rows r r' : after n rows r = Some r' → row_cid r' = row_cid r.
Proof. unfold after. repeat destruct (decide _); try done; by intros [= <-]. Qed.

(** A failed attempt changes the row of its flip only. *)
Lemma row_fail_of n rows r :
  NoDup (row_cid <$> rows) → (∀ r', r' ∈ rows → row_cid r' = row_cid r → r' = r) →
  (r ∈ rows → 0 ≤ qr_attempts r < attemptsLimit l)%Z →
  row_fail (omap (fail_of n) rows) r
  = if decide (r ∈ rows ∧ fails n r) then after n rows r else Some r.
Proof.
  intros Hnd Hsame Hatt. destruct (decide (r ∈ rows ∧ fails n r)) as [[Hr Hf]|Hno].
  - assert (Hthis : fail_of n r = Some (failed_row (H := tn_node n) l (to_load r))).
    { unfold fails in Hf. unfold fail_of. by destruct (tried n r) as [[|]|]. }
    destruct (list_find (λ f, is_cid (ffc_Cid f) r) (omap (fail_of n) rows)) as [[i f]|] eqn:Hfind.
    2:{ apply list_find_None in Hfind. rewrite list.Forall_forall in Hfind.
        destruct (Hfind (failed_row (H := tn_node n) l (to_load r))); [|done]. apply list_elem_of_omap. eauto. }
    unfold row_fail. rewrite Hfind. apply list_find_Some in Hfind as (Hi & Hc & _).
    apply list_elem_of_lookup_2, list_elem_of_omap in Hi as (r0 & Hr0 & Hf0).
    unfold is_cid in Hc. rewrite (fail_of_cid n r0 f Hf0) in Hc. assert (r0 = r) as -> by by apply Hsame.
    rewrite Hthis in Hf0. injection Hf0 as <-. specialize (Hatt Hr).
    unfold failed_row, after. rewrite (decide_True _ _ Hr). cbn [flc_Attempts to_load ffc_AttemptsLimitReached].
    unfold smallint_max in Hlimit. rewrite swrap_small by (cbn; lia).
    destruct (Z.eqb_spec (qr_attempts r + 1) (attemptsLimit l)) as [Heq|Hne].
    + by rewrite decide_False by tauto.
    + rewrite decide_True by done. unfold update_row. cbn. rewrite decide_True by done.
      by rewrite (proj2 (Z.ltb_ge _ _)) by (unfold smallint_max; lia).
  - apply row_fail_none. intros f (r0 & Hr0 & Hf0)%list_elem_of_omap Hc. apply Hno.
    unfold is_cid in Hc. rewrite (fail_of_cid n r0 f Hf0) in Hc. assert (r0 = r) as -> by by apply Hsame.
    split; [done|]. unfold fail_of in Hf0. unfold fails. by destruct (tried n r) as [[|]|].
Qed.

Lemma saved_batch n t rows :
  queue_ok t → (∀ r, r ∈ rows → r ∈ queue t) → NoDup (row_cid <$> rows) → (∀ r, r ∈ rows → answers n r) →
  ∃ cs, save_flips_content (omap (fail_of n) rows) (omap (doc_of n) rows) t
        = Some (mkTables (omap (after n rows) (queue t)) (flips t) cs) ∧
    (∀ r doc tx, r ∈ rows → doc_of n r = Some doc → flips t !! ToLower (qr_cid r) = Some tx → cs !! tx = Some doc) ∧
    (∀ tx, (∀ r, r ∈ rows → flips t !! ToLower (qr_cid r) = Some tx → fails n r) → cs !! tx = contents t !! tx).
Proof.
  intros [Hnd Hinj Hrows] Hin Hndr Ha. unfold save_flips_content.
  assert (Hsame : ∀ r r', r ∈ queue t → r' ∈ rows → row_cid r' = row_cid r → r' = r).
  { intros r r' Hr Hr' Heq. apply (same_cid (queue t)); [done|by apply Hin|done|done]. }
  rewrite save_fails; cycle 1.
  { apply (NoDup_omap_in (fail_of n) row_cid); [|done]. intros r f _ Hf. by rewrite (fail_of_cid n r f Hf). }
  { intros r f Hr _ _. destruct (Hrows r Hr) as [? _]. lia. }
  cbn [mbind option_bind].
  destruct (save_contents (omap (doc_of n) rows) (mkTables (omap (row_fail (omap (fail_of n) rows)) (queue t)) (flips t) (contents t)))
    as (cs & -> & Hdoc & Hout).
  - exact Hinj.
  - apply (NoDup_omap_in (doc_of n) row_cid); [|done]. intros r d Hr Hd. by rewrite (doc_of_cid n r d (Ha r Hr) Hd).
  - intros d (r & Hr & Hd)%list_elem_of_omap. rewrite (doc_of_cid n r d (Ha r Hr) Hd). by apply (Hrows r), Hin.
  - intros d (r & Hr & Hd)%list_elem_of_omap. by apply (doc_of_storable n r d (Ha r Hr)).
  - cbn [queue flips contents] in *. exists cs.
    assert (Hdocs : ∀ r r', r ∈ queue t → row_cid r' = row_cid r →
      Forall (λ d, ¬ is_cid (jf_Cid d) r') (omap (doc_of n) rows) ↔ (r ∈ rows → fails n r)).
    { intros r r' Hr Heq. rewrite list.Forall_forall. split.
      - intros Hall Hr'. specialize (Ha r Hr'). unfold answers in Ha. unfold fails.
        destruct (tried n r) as [[c|]|] eqn:Ht; [|done..]. destruct Ha as (Hc & doc & Hd & _).
        destruct (Hall doc); [apply list_elem_of_omap; exists r; split; [done|by unfold doc_of; rewrite Ht]|].
        unfold is_cid. by rewrite Heq, (doc_cid c doc Hd), Hc.
      - intros Hf d (r0 & Hr0 & Hd)%list_elem_of_omap Hc. unfold is_cid in Hc. rewrite (doc_of_cid n r0 d (Ha r0 Hr0) Hd), Heq in Hc.
        assert (r0 = r) as -> by by apply Hsame. specialize (Hf Hr0). unfold fails in Hf. unfold doc_of in Hd.
        by destruct (tried n r) as [[|]|]. }
    split_and!.
    + do 2 f_equal. rewrite filter_omap, omap_omap. apply omap_ext_in. intros r Hr.
      rewrite (row_fail_of n rows r); [|done|intros r'; by apply Hsame|intros _; by apply Hrows].
      destruct (decide (r ∈ rows ∧ fails n r)) as [[Hr' Hf]|Hno].
      * destruct (after n rows r) as [r'|] eqn:Hafter; [|done]. cbn [mbind option_bind].
        rewrite decide_True; [done|]. apply (Hdocs r r'); [done|by apply (after_cid n rows)|done].
      * cbn [mbind option_bind]. unfold after. destruct (decide (r ∈ rows)) as [Hr'|Hr'].
        -- rewrite (decide_False _ _ (P := fails n r ∧ _)) by tauto. rewrite decide_False; [done|].
           intros Hall%(Hdocs r r); tauto.
        -- rewrite decide_True; [done|]. by apply (Hdocs r r).
    + intros r doc tx Hr Hd Htx. apply Hdoc; [apply list_elem_of_omap; eauto|]. by rewrite (doc_of_cid n r doc (Ha r Hr) Hd).
    + intros tx Hf. apply Hout. intros d (r & Hr & Hd)%list_elem_of_omap. rewrite (doc_of_cid n r d (Ha r Hr) Hd).
      intros Htx. specialize (Hf r Hr Htx). unfold fails in Hf. unfold doc_of in Hd. by destruct (tried n r) as [[|]|].
Qed.

(** The batch of a turn that is saved. *)
Definition batch_saved n (rows : list queue_row) t t' : Prop :=
  (∀ r, r ∈ rows → r ∈ queue t ∧ due (tn_now n) r) ∧
  queue t' = omap (after n rows) (queue t) ∧ flips t' = flips t ∧
  (∀ r doc tx, r ∈ rows → doc_of n r = Some doc → flips t !! ToLower (qr_cid r) = Some tx → contents t' !! tx = Some doc) ∧
  (∀ tx, (∀ r, r ∈ rows → flips t !! ToLower (qr_cid r) = Some tx → fails n r) → contents t' !! tx = contents t !! tx).

Definition served n : Prop := tn_select n = true ∧ tn_save n = true ∧ (0 < batchSize)%Z.

Lemma turn_cases n t :
  queue_ok t → (∀ r, r ∈ queue t → answers n r) →
  ∃ t', loop_turn l batchSize n t = Some t' ∧
    ((t' = t ∧ ¬ (served n ∧ Exists (due (tn_now n)) (queue t))) ∨ ∃ rows, rows ≠ [] ∧ batch_saved n rows t t').
Proof.
  intros Hok Ha. unfold loop_turn, served.
  destruct (tn_select n) eqn:Hsel; [|exists t; split; [done|]; left; split; [done|]; by intros [[? _] _]].
  destruct (select_flips (tn_now n) batchSize (queue t)) as [rows|] eqn:Hselect.
  2:{ exists t. split; [done|]. left. split; [done|]. intros [(_ & _ & Hb) _]. unfold select_flips in Hselect.
      by rewrite (proj2 (Z.ltb_ge _ _)) in Hselect by lia. }
  destruct (select_rows _ _ _ _ Hselect) as (Hin & Hnd & Hdue).
  destruct rows as [|r0 rows0]; [exists t; split; [done|]; left; split; [done|]; intros [(_ & _ & Hb) Hex]; by apply Hdue|].
  set (rows := r0 :: rows0) in *.
  assert (Har : ∀ r, r ∈ rows → answers n r) by (intros r Hr; by apply Ha, Hin).
  rewrite handle_rows by done. cbn [mbind option_bind app]. rewrite rows_documents by done. cbn [mbind option_bind].
  destruct (saved_batch n t rows Hok) as (cs & -> & Hdoc & Hout); [intros r Hr; by apply Hin|by apply Hnd, qk_distinct|done|].
  destruct (tn_save n) eqn:Hsave; [|exists t; split; [done|]; left; split; [done|]; by intros [(_ & ? & _) _]].
  eexists. split; [reflexivity|]. right. exists rows. split; [done|]. split_and!; [exact Hin|done..].
Qed.

Lemma without_content_after n rows t t' r :
  queue_ok t → batch_saved n rows t t' → r ∈ queue t → (r ∈ rows → fails n r) → without_content t' (qr_cid r).
Proof.
  intros [Hnd Hinj Hrows] (Hin & Hq & Hfl & _ & Hout) Hr Hf.
  destruct (Hrows r Hr) as [_ (tx & Htx & Hnone)]. exists tx. rewrite Hfl. split; [done|]. rewrite Hout; [done|].
  intros r0 Hr0 Htx0. assert (r0 = r) as ->; [|by apply Hf].
  apply (same_cid (queue t)); [done|by apply Hin|done|by apply (Hinj _ _ tx)].
Qed.

Lemma after_spec n rows r r' :
  after n rows r = Some r' →
  (r' = r ∧ r ∉ rows) ∨
  (r ∈ rows ∧ fails n r ∧ qr_attempts r + 1 ≠ attemptsLimit l ∧ qr_cid r' = qr_cid r ∧ qr_key r' = qr_key r ∧
   qr_attempts r' = qr_attempts r + 1)%Z.
Proof.
  unfold after. destruct (decide (r ∈ rows)); [|by intros [= <-]; left]. destruct (decide _) as [[? ?]|]; [|done].
  intros [= <-]. by right.
Qed.

Lemma saved_ok n rows t t' : queue_ok t → batch_saved n rows t t' → queue_ok t'.
Proof.
  intros Hok Hb. pose proof Hok as [Hnd Hinj Hrows]. pose proof Hb as (Hin & Hq & Hfl & Hdoc & Hout). split.
  - rewrite Hq. apply (NoDup_omap_in (after n rows) row_cid); [|done]. intros r r' _. apply after_cid.
  - unfold flips_inj. by rewrite Hfl.
  - rewrite Hq. intros r' (r & Hr & Hafter)%list_elem_of_omap. destruct (Hrows r Hr) as [Hatt _].
    destruct (after_spec n rows r r' Hafter) as [[-> Hno]|(Hr' & Hf & Hne & Hcid & _ & Hatt')].
    + split; [done|]. by apply (without_content_after n rows t t').
    + split; [lia|]. rewrite Hcid. by apply (without_content_after n rows t t').
Qed.

(** The attempts that are left. *)
Definition left_of r : nat := Z.to_nat (attemptsLimit l - qr_attempts r).
Definition remaining t : nat := sum_list (left_of <$> queue t).

Lemma sum_omap {A} (w : A → nat) (g : A → option A) (q : list A) :
  (∀ a b, a ∈ q → g a = Some b → w b ≤ w a)%nat →
  (sum_list (w <$> omap g q) ≤ sum_list (w <$> q))%nat ∧
  (∀ a, a ∈ q → (match g a with Some b => w b | None => 0 end < w a)%nat → (sum_list (w <$> omap g q) < sum_list (w <$> q))%nat).
Proof.
  induction q as [|a q IH]; intros Hg; [split; [done|]; by intros a ?%elem_of_nil|].
  destruct IH as [IH1 IH2]; [intros a' b Ha'; by apply Hg, list_elem_of_further|].
  assert (Hthis : ∀ b, g a = Some b → (w b ≤ w a)%nat) by (intros b; apply Hg, list_elem_of_here).
  cbn [omap list_omap]. split.
  - destruct (g a) as [b|]; [specialize (Hthis b eq_refl)|]; cbn; lia.
  - intros a' [->|Ha']%elem_of_cons Hlt.
    + destruct (g a) as [b|]; cbn; lia.
    + specialize (IH2 a' Ha' Hlt). destruct (g a) as [b|]; [specialize (Hthis b eq_refl)|]; cbn; lia.
Qed.

Lemma saved_lowers n rows t t' : queue_ok t → rows ≠ [] → batch_saved n rows t t' → (remaining t' < remaining t)%nat.
Proof.
  intros [Hnd Hinj Hrows] Hne (Hin & Hq & _). unfold remaining. rewrite Hq.
  destruct rows as [|r rows]; [done|]. pose proof (Hin r (list_elem_of_here _ _)) as [Hr _].
  apply (sum_omap left_of (after n (r :: rows))) with r; [|done|].
  - intros a b Ha Hab. destruct (Hrows a Ha) as [Hatt _]. unfold left_of.
    destruct (after_spec _ _ _ _ Hab) as [[-> _]|(_ & _ & _ & _ & _ & ->)]; lia.
  - destruct (Hrows r Hr) as [Hatt _]. destruct (after n (r :: rows) r) as [b|] eqn:Hab; unfold left_of; [|lia].
    destruct (after_spec _ _ _ _ Hab) as [[_ Hno]|(_ & _ & _ & _ & _ & ->)]; [|lia]. destruct Hno. apply list_elem_of_here.
Qed.

(** A flip that is not in the queue keeps what it has. *)
Definition queued t (cid : string) : Prop := ∃ r, r ∈ queue t ∧ row_cid r = cid.

Definition same_flip r r' : Prop := qr_cid r' = qr_cid r ∧ qr_key r' = qr_key r.

Lemma same_tried n r r' : same_flip r r' → tried n r' = tried n r.
Proof. intros [Hc Hk]. unfold tried, getFlipContent. cbn. by rewrite Hc, Hk. Qed.
Lemma same_answers n r r' : same_flip r r' → answers n r → answers n r'.
Proof. intros Hs. unfold answers. rewrite (same_tried n r r' Hs). destruct Hs as [-> _]. done. Qed.

Lemma after_same n rows r r' : after n rows r = Some r' → same_flip r r'.
Proof. intros [[-> _]|(_ & _ & _ & Hc & Hk & _)]%after_spec; done. Qed.

Lemma saved_gone n rows t t' cid tx :
  queue_ok t → batch_saved n rows t t' → flips t !! cid = Some tx → ¬ queued t cid →
  ¬ queued t' cid ∧ contents t' !! tx = contents t !! tx.
Proof.
  intros [Hnd Hinj Hrows] (Hin & Hq & _ & _ & Hout) Htx Hno. split.
  - intros (r' & Hr' & Hc). rewrite Hq in Hr'. apply list_elem_of_omap in Hr' as (r & Hr & Hafter).
    apply Hno. exists r. split; [done|]. by rewrite <- (after_cid n rows r r').
  - apply Hout. intros r Hr Htx'. destruct Hno. exists r. split; [by apply Hin|]. by apply (Hinj _ _ tx).
Qed.

(** The turns at which no batch was saved though the loop ran. *)
Definition busy n t : Prop := served n ∧ Exists (due (tn_now n)) (queue t).
#[export] Instance busy_dec n t : Decision (busy n t).
Proof. unfold busy, served. apply _. Defined.
Fixpoint busy_turns (turns : list turn) t : nat :=
  match turns with
  | [] => 0
  | n :: turns =>
      (if decide (busy n t) then 1 else 0)
      + match loop_turn l batchSize n t with Some t => busy_turns turns t | None => 0 end
  end.

Lemma turn_ok n t :
  queue_ok t → (∀ r, r ∈ queue t → answers n r) →
  ∃ t', loop_turn l batchSize n t = Some t' ∧ queue_ok t' ∧ flips t' = flips t ∧
    ((if decide (busy n t) then 1 else 0) + remaining t' ≤ remaining t)%nat ∧
    (t' = t ∨ ∃ rows, batch_saved n rows t t') ∧
    (∀ r', r' ∈ queue t' → ∃ r, r ∈ queue t ∧ same_flip r r') ∧
    (∀ cid tx, flips t !! cid = Some tx → ¬ queued t cid → ¬ queued t' cid ∧ contents t' !! tx = contents t !! tx).
Proof.
  intros Hok Ha. destruct (turn_cases n t Hok Ha) as (t' & Hturn & [[-> Hidle]|(rows & Hne & Hb)]); exists t' || exists t.
  - split_and!; [done..| | |intros r' Hr'; by exists r'|done]; [|by left]. by rewrite decide_False.
  - pose proof (saved_lowers n rows t t' Hok Hne Hb) as Hlow. split_and!; try done.
    + by apply (saved_ok n rows t).
    + by destruct Hb as (_ & _ & ? & _).
    + destruct (decide _); lia.
    + right. by exists rows.
    + destruct Hb as (_ & Hq & _). rewrite Hq. intros r' (r & Hr & Hafter)%list_elem_of_omap.
      exists r. split; [done|]. by apply (after_same n rows).
    + intros cid tx. by apply (saved_gone n rows).
Qed.

Definition all_answer (turns : list turn) t : Prop := ∀ n r, n ∈ turns → r ∈ queue t → answers n r.

Lemma all_answer_next n turns t t' :
  all_answer (n :: turns) t → (∀ r', r' ∈ queue t' → ∃ r, r ∈ queue t ∧ same_flip r r') → all_answer turns t'.
Proof.
  intros Ha Hback m r' Hm Hr'. destruct (Hback r' Hr') as (r & Hr & Hs). apply (same_answers m r r' Hs), Ha; [|done].
  by apply list_elem_of_further.
Qed.

Lemma loop_ok turns t :
  queue_ok t → all_answer turns t →
  ∃ t', loop l batchSize turns t = Some t' ∧ queue_ok t' ∧ flips t' = flips t ∧
    (busy_turns turns t + remaining t' ≤ remaining t)%nat ∧
    (∀ cid tx, flips t !! cid = Some tx → ¬ queued t cid → ¬ queued t' cid ∧ contents t' !! tx = contents t !! tx).
Proof.
  revert t. induction turns as [|n turns IH]; intros t Hok Ha; [exists t; split_and!; (done || cbn; lia)|].
  destruct (turn_ok n t Hok) as (t1 & Hturn & Hok1 & Hfl & Hlow & _ & Hback & Hgone).
  { intros r Hr. apply Ha; [apply list_elem_of_here|done]. }
  destruct (IH t1 Hok1 (all_answer_next n turns t t1 Ha Hback)) as (t' & Hloop & Hok' & Hfl' & Hlow' & Hgone').
  exists t'. cbn [loop busy_turns]. rewrite Hturn. cbn [mbind option_bind]. split_and!; [done|done|congruence|lia|].
  intros cid tx Htx Hno. destruct (Hgone cid tx Htx Hno) as [Hno1 Hc1]. rewrite <- Hc1. apply Hgone'; [by rewrite Hfl|done].
Qed.

(** The attempts for a flip that fail. *)
Definition failed_turns (turns : list turn) r : nat := length (filter (λ n, fails n r) turns).

Lemma failed_turns_same turns r r' : same_flip r r' → failed_turns turns r' = failed_turns turns r.
Proof.
  intros Hs. unfold failed_turns. f_equal. apply list_filter_iff. intros n. unfold fails. by rewrite (same_tried n r r' Hs).
Qed.
Lemma failed_turns_cons n turns r :
  failed_turns (n :: turns) r = ((if decide (fails n r) then 1 else 0) + failed_turns turns r)%nat.
Proof. unfold failed_turns. rewrite filter_cons. by destruct (decide (fails n r)). Qed.

(** What becomes of the flip of a row. *)
Definition waiting (turns : list turn) r t : Prop :=
  without_content t (qr_cid r) ∧
  ∃ r', r' ∈ queue t ∧ same_flip r r' ∧ (qr_attempts r' ≤ qr_attempts r + Z.of_nat (failed_turns turns r))%Z.
Definition loaded (turns : list turn) r t : Prop :=
  ¬ queued t (row_cid r) ∧
  ∃ n doc tx, n ∈ turns ∧ loads n r doc ∧ flips t !! row_cid r = Some tx ∧ contents t !! tx = Some doc.
Definition given_up (turns : list turn) r t : Prop :=
  ¬ queued t (row_cid r) ∧ without_content t (qr_cid r) ∧ (attemptsLimit l ≤ qr_attempts r + Z.of_nat (failed_turns turns r))%Z.

Lemma fate_same turns n turns' r r' t :
  same_flip r r' → turns' = n :: turns →
  (qr_attempts r' ≤ qr_attempts r + (if decide (fails n r) then 1 else 0))%Z →
  waiting turns r' t ∨ loaded turns r' t ∨ given_up turns r' t →
  waiting turns' r t ∨ loaded turns' r t ∨ given_up turns' r t.
Proof.
  intros Hs -> Hatt Hfate. pose proof Hs as [Hc Hk]. unfold waiting, loaded, given_up, loads in *.
  rewrite Hc, (failed_turns_same turns r r' Hs) in Hfate. rewrite failed_turns_cons.
  destruct Hfate as [(Hno & r'' & Hin & [Hc' Hk'] & Hle)|[(Hno & m & doc & tx & Hm & Hl & Hrest)|(Hno & Hwo & Hle)]].
  - left. split; [done|]. exists r''. split_and!; [done|split; congruence|destruct (decide _); lia].
  - right. left. split; [done|]. exists m, doc, tx. rewrite (same_tried m r r' Hs) in Hl.
    split; [by apply list_elem_of_further|done].
  - right. right. split_and!; [done..|destruct (decide _); lia].
Qed.

(** A flip whose row leaves the queue at a turn. *)
Lemma taken_out n rows t t' r turns :
  queue_ok t → (∀ r, r ∈ queue t → answers n r) → batch_saved n rows t t' → r ∈ queue t → after n rows r = None →
  loaded (n :: turns) r t' ∨ given_up (n :: turns) r t'.
Proof.
  intros Hok Ha Hb Hr Hafter. pose proof Hok as [Hnd Hinj Hrows]. pose proof Hb as (Hin & Hq & Hfl & Hdoc & _).
  destruct (Hrows r Hr) as [_ (tx & Htx & _)].
  assert (Hno : ¬ queued t' (row_cid r)).
  { intros (r1 & Hr1 & Hc1). rewrite Hq in Hr1. apply list_elem_of_omap in Hr1 as (r0 & Hr0 & Hafter0).
    rewrite (after_cid n rows r0 r1 Hafter0) in Hc1. rewrite (same_cid (queue t) r0 r) in Hafter0 by done. congruence. }
  unfold after in Hafter. destruct (decide (r ∈ rows)) as [Hin_r|]; [|done].
  destruct (decide (fails n r ∧ _)) as [|Hlast]; [done|]. destruct (decide (fails n r)) as [Hf|Hf].
  - right. split_and!; [done|by apply (without_content_after n rows t t')|].
    rewrite failed_turns_cons, decide_True by done.
    assert (qr_attempts r + 1 = attemptsLimit l)%Z by (destruct (decide (qr_attempts r + 1 = attemptsLimit l)%Z); tauto). lia.
  - left. split; [done|]. specialize (Ha r Hr). unfold answers in Ha. unfold fails in Hf.
    destruct (tried n r) as [[c|]|] eqn:Ht; [|tauto..]. destruct Ha as (_ & doc & Hd & _).
    exists n, doc, tx. rewrite Hfl. split_and!; [apply list_elem_of_here|by exists c|done|].
    apply (Hdoc r); [done| |done]. unfold doc_of. by rewrite Ht.
Qed.

Lemma fates turns t t' r :
  queue_ok t → all_answer turns t → loop l batchSize turns t = Some t' → r ∈ queue t →
  waiting turns r t' ∨ loaded turns r t' ∨ given_up turns r t'.
Proof.
  revert t r. induction turns as [|n turns IH]; intros t r Hok Ha Hloop Hr.
  { injection Hloop as <-. left. split; [by apply (qk_rows t Hok)|]. exists r. split_and!; [done|done|cbn; lia]. }
  assert (Han : ∀ r, r ∈ queue t → answers n r) by (intros r' Hr'; by apply Ha; [apply list_elem_of_here|]).
  destruct (turn_ok n t Hok Han) as (t1 & Hturn & Hok1 & Hfl & _ & Hcase & Hback & Hgone).
  pose proof (all_answer_next n turns t t1 Ha Hback) as Ha1.
  cbn [loop] in Hloop. rewrite Hturn in Hloop. cbn [mbind option_bind] in Hloop.
  destruct Hcase as [->|(rows & Hb)].
  { apply (fate_same turns n (n :: turns) r r); [done|done|destruct (decide _); lia|by apply (IH t)]. }
  destruct (after n rows r) as [r'|] eqn:Hafter.
  - apply (fate_same turns n (n :: turns) r r'); [by apply (after_same n rows)|done| |].
    + destruct (after_spec n rows r r' Hafter) as [[-> _]|(_ & Hf & _ & _ & _ & ->)]; [destruct (decide _); lia|by rewrite decide_True].
    + apply (IH t1); [done..|]. destruct Hb as (_ & -> & _). apply list_elem_of_omap. by exists r.
  - destruct (loop_ok turns t1 Hok1 Ha1) as (t2 & Hloop2 & _ & Hfl2 & _ & Hstay).
    assert (t2 = t') as -> by congruence.
    destruct (taken_out n rows t t1 r turns Hok Han Hb Hr Hafter) as [(Hno & m & doc & tx & Hm & Hl & Htx & Hdoc)|(Hno & (tx & Htx & Hnone) & Hle)].
    + right. left. destruct (Hstay _ tx Htx Hno) as [Hno' Hc']. split; [done|]. exists m, doc, tx. rewrite Hfl2, Hc'. done.
    + right. right. destruct (Hstay _ tx Htx Hno) as [Hno' Hc']. split_and!; [done| |done].
      exists tx. rewrite Hfl2, Hc'. done.
Qed.
End settle.

(** ** The loop settles the flips *)

(** [C37]  The loop over a queue of different flips that are known, that have no content and
    whose attempts are below a limit between 1 and 2^15-1, when the node gives for each flip
    an error or a content of its own that the procedure can store, which has at least one
    picture and no index beyond a smallint: it runs through all its turns without a panic,
    whatever the database answers, and keeps the tables in order.  The flip of each row then
    either waits in the queue without a content, with no more attempts than failed; or it has
    left the queue with the content that the node gave at some turn, still what it was; or it
    was given up, without a content and not before all its attempts had failed.  Each turn at
    which the database answers and a flip is due settles a flip or takes an attempt, so that
    after as many of them as there are attempts left the queue is empty. *)
Theorem flips_are_settled (l : ContentLoader) batchSize turns t :
  (1 ≤ attemptsLimit l ≤ smallint_max)%Z → queue_ok l t → all_answer turns t →
  ∃ t', loop l batchSize turns t = Some t' ∧ queue_ok l t' ∧ flips t' = flips t ∧
    (∀ r, r ∈ queue t → waiting turns r t' ∨ loaded turns r t' ∨ given_up l turns r t') ∧
    (busy_turns l batchSize turns t + remaining l t' ≤ remaining l t)%nat ∧
    ((remaining l t ≤ busy_turns l batchSize turns t)%nat → queue t' = []).
Proof.
  intros Hlim Hok Ha. destruct (loop_ok l batchSize Hlim turns t Hok Ha) as (t' & Hloop & Hok' & Hfl & Hlow & _).
  exists t'. split_and!; [done..| |done|].
  - intros r Hr. by apply (fates l batchSize Hlim turns t).
  - intros Hall. destruct (queue t') as [|r q] eqn:Hq; [done|].
    destruct (qk_rows l t' Hok' r) as [Hatt _]; [rewrite Hq; apply list_elem_of_here|].
    unfold remaining in Hlow at 1. rewrite Hq in Hlow. cbn in Hlow. unfold left_of in Hlow at 1. lia.
Qed.

(** ** A flip that stops the loop *)

Lemma refused_content docs t doc :
  doc ∈ docs → storable doc = false → all_steps save_content docs t = None.
Proof.
  intros Hd Hno. revert t. induction docs as [|d docs IH]; intros t; [by apply elem_of_nil in Hd|]. cbn [all_steps].
  apply elem_of_cons in Hd as [->|Hd].
  - unfold save_content. rewrite Hno. by destruct (flips t !! _) as [tx|]; [destruct (contents t !! tx)|].
  - destruct (save_content t d) as [t1|]; [|done]. by apply IH.
Qed.

(** The row that is the first to be tried is in every batch. *)
Lemma first_in_batch now limit q rows r :
  select_flips now limit q = Some rows → (0 < limit)%Z → r ∈ q → due now r →
  (∀ r', r' ∈ q → r' ≠ r → (qr_next r < qr_next r')%Z) → r ∈ rows.
Proof.
  unfold select_flips. destruct (limit <? 0)%Z; [done|]. intros [= <-] Hlim Hr Hdue Hfirst.
  set (sorted := merge_sort by_next (filter (due now) q)).
  assert (Hperm : sorted ≡ₚ filter (due now) q) by apply merge_sort_Permutation.
  assert (Hin : r ∈ sorted) by (rewrite Hperm, list_elem_of_filter; done).
  assert (Htotal : ∀ a b, by_next a b ∨ by_next b a) by (intros a b; unfold by_next; lia).
  assert (Hsorted : Sorted by_next sorted) by (by apply Sorted_merge_sort).
  apply Sorted_StronglySorted in Hsorted; [|unfold by_next; intros a b c; lia].
  replace (Z.to_nat limit) with (S (Z.to_nat (limit - 1))) by lia.
  destruct sorted as [|s sorted]; [by apply elem_of_nil in Hin|]. cbn [take].
  apply elem_of_cons in Hin as [->|Hin]; [apply list_elem_of_here|].
  apply Sorted.StronglySorted_inv in Hsorted as [_ Hs]. rewrite list.Forall_forall in Hs. specialize (Hs r Hin).
  destruct (decide (s = r)) as [->|Hne]; [apply list_elem_of_here|]. exfalso.
  assert (s ∈ q) as Hsq by (assert (s ∈ filter (due now) q) as Hsf by (rewrite <- Hperm; apply list_elem_of_here); by apply list_elem_of_filter in Hsf as [_ ?]).
  specialize (Hfirst s Hsq Hne). unfold by_next in Hs. lia.
Qed.

(** A flip with a content that cannot be stored stops the loop: when it is the first to be
    tried it is in every batch, and no batch is saved, of whatever other flips, as the
    procedure fails for it. *)
Theorem refused_flip_blocks_the_queue (l : ContentLoader) batchSize turns t r :
  r ∈ queue t → (∀ r', r' ∈ queue t → r' ≠ r → (qr_next r < qr_next r')%Z) →
  (∀ n, n ∈ turns → due (tn_now n) r ∧
     ∃ c, tried n r = Some (inl c) ∧ ∀ doc, FlipContent_Value c = Some doc → storable doc = false) →
  (0 < batchSize)%Z → loop l batchSize turns t = Some t ∨ loop l batchSize turns t = None.
Proof.
  intros Hr Hfirst Hall Hb. induction turns as [|n turns IH]; [by left|].
  assert (loop_turn l batchSize n t = Some t ∨ loop_turn l batchSize n t = None) as [Hturn|Hturn].
  2:{ cbn [loop]. rewrite Hturn. apply IH. intros m Hm. by apply Hall, list_elem_of_further. }
  2:{ right. cbn [loop]. by rewrite Hturn. }
  destruct (Hall n (list_elem_of_here _ _)) as (Hdue & c & Htried & Href). unfold loop_turn.
  destruct (tn_select n); [|by left]. destruct (select_flips _ _ _) as [rows|] eqn:Hsel; [|by left].
  pose proof (first_in_batch _ _ _ _ r Hsel Hb Hr Hdue Hfirst) as Hin. destruct rows as [|r0 rows0]; [by left|].
  rewrite handle_flips_acc. destruct (mapM getFlipContent _) as [rs|] eqn:Hrs; [|by right]. cbn [mbind option_bind app].
  destruct (mapM FlipContent_Value (FlipLoader.contents rs)) as [documents|] eqn:Hdocs; [|by right]. cbn [mbind option_bind].
  left. destruct (tn_save n); [|done]. f_equal.
  assert (save_flips_content (failures (H := tn_node n) l (to_load <$> r0 :: rows0) rs) documents t = None) as ->; [|done].
  unfold save_flips_content. destruct (all_steps save_fail _ _) as [q|]; [|done]. cbn [mbind option_bind].
  apply mapM_Some_1 in Hrs. apply mapM_Some_1 in Hdocs.
  assert (c ∈ FlipLoader.contents rs) as Hc.
  { apply list_elem_of_lookup in Hin as [i Hi]. destruct (Forall2_lookup_l _ _ _ i (to_load r) Hrs) as (res & Hres & Hget).
    { by rewrite list_lookup_fmap, Hi. }
    unfold FlipLoader.contents. apply list_elem_of_bind. exists res. unfold tried in Htried. rewrite Htried in Hget.
    injection Hget as <-. split; [apply list_elem_of_here|by eapply list_elem_of_lookup_2]. }
  apply list_elem_of_lookup in Hc as [i Hi]. destruct (Forall2_lookup_l _ _ _ i _ Hdocs Hi) as (d & Hd & Hval).
  apply (refused_content _ _ d); [by eapply list_elem_of_lookup_2|by apply Href].
Qed.

(** A flip without pictures is one: an empty list, or a list of no pictures with any orders. *)
Lemma no_pictures_refused c doc : fc_Pics c = [] → FlipContent_Value c = Some doc → storable doc = false.
Proof.
  unfold FlipContent_Value. intros ->. destruct (convert_orders _ _ _); [|done]. by intros [= <-].
Qed.
(** So is one with more pictures than a [smallint] counts, which may be empty. *)
Lemma many_pictures_refused c doc :
  (smallint_max + 1 < Z.of_nat (length (fc_Pics c)))%Z → FlipContent_Value c = Some doc → storable doc = false.
Proof.
  unfold FlipContent_Value. intros Hn. destruct (convert_orders _ _ _); [|done]. intros [= <-]. unfold storable. cbn.
  rewrite appended_all. destruct (fc_Pics c) as [|p pics]; [done|]. unfold indexed at 1. by rewrite (proj2 (Z.leb_gt _ _)).
Qed.

(** A limit that was passed, when it is lowered in the settings, is not reached any more: the
    flip is tried again and again. *)
Lemma passed_limit_is_not_reached `{FlipNode} (l : ContentLoader) f :
  (attemptsLimit l ≤ flc_Attempts f)%Z → (0 ≤ flc_Attempts f ≤ smallint_max)%Z →
  ffc_AttemptsLimitReached (failed_row l f) = false.
Proof.
  unfold smallint_max, failed_row. intros Hp Hmax. cbn [ffc_AttemptsLimitReached].
  rewrite swrap_small by (cbn; lia). apply Z.eqb_neq. lia.
Qed.

(** ** Witnesses *)

(** A node that has one of two flips: pictures with orders. *)
Definition sample_node (now : Z) : FlipNode := {|
  PrivateKey := unit;
  ToECDSA _ := inl tt;
  Decrypt _ b := inl b;
  cid_Decode_Bytes s := if decide (s = "bad"%string) then [1%Z] else if decide (s = "empty"%string) then [2%Z] else [3%Z];
  GetRawFlip b := if decide (b = [1%Z]) then inr "not found"%string else inl b;
  rlp_DecodeBytes b := inl (if decide (b = [2%Z]) then [] else flip_items [[1; 2]; [3]]%Z [[0; 1]; [1; 0]]%Z);
  Image := unit;
  image_Decode _ := inr "unknown format"%string;
  jpeg_scaled _ _ _ := inl [];
  int_of_NaN := 0;
  Unix_after d := (now + d)%Z
|}.
Definition sample_turn (now : Z) : turn := mkTurn (sample_node now) now true true.
Definition sample_doc cid : flipContent := mkFlipContentDocument cid (Some [[1; 2]; [3]]%Z) [[0; 1]; [1; 0]]%Z [].
Definition sample_tables : tables :=
  mkTables [mkRow "Good" "ab" 0 5; mkRow "bad" "ab" 0 5] (<["good"%string := 1%Z]> (<["bad"%string := 2%Z]> ∅)) ∅.

Lemma sample_inj : flips_inj sample_tables.
Proof.
  intros a b tx. cbn [flips sample_tables].
  intros [[<- <-]|[_ [[<- <-]|[_ ?]]%lookup_insert_Some]]%lookup_insert_Some [[<- ?]|[_ [[<- ?]|[_ ?]]%lookup_insert_Some]]%lookup_insert_Some;
    done || congruence || (by rewrite lookup_empty in * ).
Qed.

(** One flip is loaded, the other is given up after two attempts; a turn without the
    database and one with nothing due change nothing. *)
Lemma flips_are_settled_witness :
  let l := mkContentLoader 2 60 in
  let turns := [mkTurn (sample_node 10) 10 false true; sample_turn 20; sample_turn 30; sample_turn 100] in
  loop l 5 turns sample_tables = Some (mkTables [] (flips sample_tables) {[1%Z := sample_doc "Good"]}) ∧
  ∃ t', loop l 5 turns sample_tables = Some t' ∧
    (∀ r, r ∈ queue sample_tables → waiting turns r t' ∨ loaded turns r t' ∨ given_up l turns r t').
Proof.
  cbv zeta. split; [vm_compute; reflexivity|].
  destruct (flips_are_settled (mkContentLoader 2 60) 5
    [mkTurn (sample_node 10) 10 false true; sample_turn 20; sample_turn 30; sample_turn 100] sample_tables) as (t' & Hloop & _ & _ & Hfates & _).
  - split; vm_compute; discriminate.
  - split; [|exact sample_inj|].
    + apply (bool_decide_unpack _). vm_compute. exact I.
    + intros r [->|[->|[]%elem_of_nil]%elem_of_cons]%elem_of_cons; (split; [cbn; lia|]); [exists 1%Z|exists 2%Z]; by split; vm_compute.
  - intros n r Hn [->|[->|[]%elem_of_nil]%elem_of_cons]%elem_of_cons;
      repeat (apply elem_of_cons in Hn as [->|Hn]; [vm_compute; eauto|]); by apply elem_of_nil in Hn.
  - exists t'. split; [exact Hloop|exact Hfates].
Defined.

(** A flip without a content keeps the content of another from being saved. *)
Lemma refused_flip_blocks_the_queue_witness :
  let l := mkContentLoader 2 60 in
  let t := mkTables [mkRow "good" "ab" 0 5; mkRow "empty" "ab" 0 4] (<["good"%string := 1%Z]> (<["empty"%string := 2%Z]> ∅)) ∅ in
  let turns := [sample_turn 20; sample_turn 1000] in
  loop l 5 turns t = Some t ∧ (loop l 5 turns t = Some t ∨ loop l 5 turns t = None).
Proof.
  cbv zeta. split; [vm_compute; reflexivity|].
  apply (refused_flip_blocks_the_queue _ _ _ _ (mkRow "empty" "ab" 0 4)).
  - right. by left.
  - intros r' [->|[->|[]%elem_of_nil]%elem_of_cons]%elem_of_cons Hne; [cbn; lia|done].
  - intros n Hn. repeat (apply elem_of_cons in Hn as [->|Hn];
      [split; [reflexivity|]; exists emptyFlipContent; split; [vm_compute; reflexivity|]; intros doc; by apply no_pictures_refused|]).
    by apply elem_of_nil in Hn.
  - lia.
Defined.
