(* ===== verification/Save.v ===== *)
(** * Saving in the database

    db/postgres.go: [Save] writes the data of a block in one transaction of the
    database: the epoch, the block, its addresses and transactions, for which the
    database answers the ids it gave them, then what refers to those ids and the rest.
    Any error rolls the transaction back.  db/postgres_restore.go saves restored data in
    the same way, and db/postgres_flip.go the contents of flips.

    A statement is the name of a query with its arguments, a query text from the files of
    the repository; what the database does with it is a parameter of the model, [exec]
    and [query]. *)

From Stdlib Require Import Ascii Decimal DecimalString DecimalZ.
From S2P Require Import Prelude Node ContractTypes Coins Rewards BalanceUpdates Tokens.
From S2P Require Import ContractTx ValidationSummary Balances EpochTypes Transactions.
From S2P Require Import Delegation EpochRewards EpochResult Upgrades BlockData DbEncoding.

(** ** The database *)

(** A document encoded as JSON. *)
Inductive document `{NodeApi} :=
  | DData (d : data)
  | DEpochResult (d : epochResultData)
  | DCallStart (d : oracleVotingContractCallStart)
  | DProlongation (d : oracleVotingContractCallProlongation)
  | DBalanceUpdates (d : contractTxBalanceUpdates)
  | DRestored (d : restoredData)
  | DFlipContent (d : flipContent).

(** An argument of a statement: a value, NULL, an array of texts ([pq.Array]), a document
    or an array of documents. *)
Inductive arg `{NodeApi} :=
  | AValue (v : value)
  | ANull
  | ATexts (l : list string)
  | ADocument (d : document)
  | ADocuments (l : list document).

Definition stmt `{NodeApi} : Type := string * list arg.

(** [sql.DB] and [sql.Tx]: a transaction works on the state of the database it began
    with, and [Rollback] forgets what it did.  [inr] and [Some] are errors; [tx_QueryRow]
    answers the texts of an array. *)
Class Database `{NodeApi} := {
  DbState : Type;
  db_Begin : DbState → option string;
  tx_Exec : DbState → stmt → DbState + string;
  tx_QueryRow : DbState → stmt → DbState * list string + string;
  tx_Commit : DbState → option string;
  (** [getResultError], which adds the details of an error of the driver *)
  getResultError : string → string;
  (** the orders in which maps are ranged over *)
  burnt_order : gmap Address (list BurntCoins) → list (Address * list BurntCoins);
  ages_order : gmap string Z → list (string * Z);
  staked_order : gmap string Z → list (string * Z);
  (** the comparison of a [float64] with 0 *)
  Float64_IsZero : Float64 → bool
}.

(** Go: db/postgres.go postgresAccessor:21-29

    The settings [Save] reads. *)
Record postgresAccessor := mkPostgresAccessor {
  changesHistoryBlocksCount : Z; miningRewards : bool
}.

(** ** The ids of the transactions *)

(** [strings.Trim(s, "()")] *)
Definition is_paren (c : ascii) : bool := Ascii.eqb c "(" || Ascii.eqb c ")".
Fixpoint trim_left (s : string) : string :=
  match s with
  | String c s' => if is_paren c then trim_left s' else s
  | EmptyString => EmptyString
  end.
Fixpoint trim_right (s : string) : string :=
  match s with
  | EmptyString => EmptyString
  | String c s =>
      match trim_right s with
      | EmptyString => if is_paren c then EmptyString else String c EmptyString
      | t => String c t
      end
  end.

(** [strconv.ParseInt(s, 0, 64)]: a sign, a prefix that gives the base, and digits, with
    underscores between two of them or after the prefix; [None] is an error. *)
Definition digit_value (c : ascii) : option Z :=
  let n := Z.of_nat (nat_of_ascii c) in
  if ((48 <=? n) && (n <=? 57))%Z then Some (n - 48)%Z
  else if ((97 <=? n) && (n <=? 122))%Z then Some (n - 87)%Z
  else if ((65 <=? n) && (n <=? 90))%Z then Some (n - 55)%Z
  else None.

(** The digits: [after] is whether an underscore or the end may follow. *)
Fixpoint digits (base : Z) (after : bool) (s : string) (acc : Z) : option Z :=
  match s with
  | EmptyString => if after then Some acc else None
  | String c s =>
      if Ascii.eqb c "_" then if after then digits base false s acc else None
      else d ← digit_value c;
           if (d <? base)%Z then digits base true s (acc * base + d)%Z else None
  end.

Definition parse_unsigned (s : string) : option Z :=
  match s with
  | EmptyString => None
  | String c0 rest =>
      if Ascii.eqb c0 "0" then
        match rest with
        | EmptyString => Some 0%Z
        | String c1 rest' =>
            let prefixed base :=
              match rest' with EmptyString => None | _ => digits base true rest' 0 end in
            if Ascii.eqb c1 "b" || Ascii.eqb c1 "B" then prefixed 2%Z
            else if Ascii.eqb c1 "o" || Ascii.eqb c1 "O" then prefixed 8%Z
            else if Ascii.eqb c1 "x" || Ascii.eqb c1 "X" then prefixed 16%Z
            else digits 8 true rest 0
        end
      else digits 10 false s 0
  end.

Definition ParseInt (s : string) : option Z :=
  let '(negative, s) := match s with
    | String c s' => if Ascii.eqb c "-" then (true, s') else if Ascii.eqb c "+" then (false, s')
                     else (false, s)
    | EmptyString => (false, s)
    end in
  n ← parse_unsigned s;
  if negative then if (n <=? 2 ^ 63)%Z then Some (- n)%Z else None
  else if (n <? 2 ^ 63)%Z then Some n else None.

(** Go: db/postgres_types.go txHashId.Scan

    The hash and the id; [None] is an error. *)
Definition txHashId_Scan (value : string) : option (string * Z) :=
  match Split "," (trim_right (trim_left value)) with
  | [hash; id] => id ← ParseInt id; Some (hash, id)
  | _ => None
  end.

(** ** Operations *)

Section operations.
Context `{DbText, !Database}.

Definition ZText (z : Z) : arg := AValue (VInt z).
Definition AString (s : string) : arg := AValue (VString s).
Definition ADecimal (d : Decimal) : arg := AValue (VDecimal d).
Definition AOption {A} (f : A → arg) (o : option A) : arg := match o with Some x => f x | None => ANull end.
(** [pq.Array] of values that are composites *)
Definition AComposites {A} (Value : A → list value) (l : list A) : arg := ATexts (Sprintf ∘ Value <$> l).

(** A statement that may fail. *)
Definition step : Type := DbState → DbState + string.
Definition Exec (query : string) (args : list arg) : step := λ s, tx_Exec s (query, args).
Definition no_step : step := inl.
Definition failed (err : string) : step := λ _, inr err.
Definition then_ (f g : step) : step := λ s, match f s with inl s => g s | inr err => inr err end.

(** [for _, x := range l { if err := f(x); err != nil { return err } }] *)
Fixpoint each {A} (l : list A) (f : A → step) : step :=
  match l with
  | [] => no_step
  | x :: l => then_ (f x) (each l f)
  end.

(** Go: db/postgres_context.go context *)
Record context := mkContext {
  c_epoch : Z; c_blockHeight : Z; c_txIdsPerHash : gmap string Z
}.

(** Go: db/postgres_context.go txId *)
Definition txId (ctx : context) (hash : string) : option Z := c_txIdsPerHash ctx !! hash.

Section accessor.
Context (a : postgresAccessor).

(** Go: db/postgres.go saveEpoch *)
Definition saveEpoch (ctx : context) (epoch validationTime : Z) (root : string)
    (discriminationStakeThreshold : option Z) : step :=
  Exec "insertEpoch.sql" [ZText epoch; ZText (swrap 64 validationTime); AString root;
    AOption (λ t, ADecimal (ConvertToFloat (Some t))) discriminationStakeThreshold].

(** Go: db/postgres.go saveBlock *)
Definition saveBlock (ctx : context) (block : BlockRecord) : step :=
  Exec "insertBlock.sql" [
    ZText (bk_Height block); AString (bk_Hash block); ZText (c_epoch ctx); ZText (bk_Time block);
    AValue (VBool (bk_IsEmpty block)); ZText (bk_OriginalValidatorsCount block);
    ZText (bk_PoolValidatorsCount block); ZText (bk_BodySize block);
    AValue (VFloat64 (bk_VrfProposerThreshold block)); ZText (bk_FullSize block);
    ADecimal (bk_FeeRate block); AOption ZText (bk_Upgrade block);
    AOption AString (bk_OfflineAddress block); ATexts (bk_Flags block); ZText (bk_GasUsed block)].

(** Go: db/postgres.go saveProposer *)
Definition saveProposer (ctx : context) (proposer : string) : step :=
  if (String.length proposer =? 0)%nat then no_step
  else Exec "insertBlockProposer.sql" [ZText (c_blockHeight ctx); AString proposer].

(** Go: db/postgres.go saveProposerVrfScore *)
Definition saveProposerVrfScore (ctx : context) (vrfScore : Float64) : step :=
  if Float64_IsZero vrfScore then no_step
  else Exec "insertBlockProposerVrfScore.sql" [ZText (c_blockHeight ctx); AValue (VFloat64 vrfScore)].

(** Go: db/postgres.go saveCoins *)
Definition saveCoins (ctx : context) (coins : CoinsRecord) : step :=
  Exec "insertCoins.sql" [ZText (c_blockHeight ctx); ADecimal (cr_Burnt coins); ADecimal (cr_Minted coins);
    ADecimal (cr_TotalBalance coins); ADecimal (cr_TotalStake coins)].

(** Go: db/postgres.go saveBalances *)
Definition saveBalances (blockHeight : Z) (balances : list Balance)
    (balanceUpdates : list (BalanceUpdate * option Address)) (committeeRewardShare : option Z) : step :=
  Exec "saveBalances.sql" [ZText blockHeight; AComposites Balance_Value balances;
    AComposites (λ u, BalanceUpdate_Value u.1 u.2) balanceUpdates;
    ZText (changesHistoryBlocksCount a); ADecimal (ConvertToFloat committeeRewardShare)].

(** Go: db/postgres.go saveBirthdays *)
Definition saveBirthdays (birthdays : list Birthday) : step :=
  if (length birthdays =? 0)%nat then no_step
  else Exec "saveBirthdays.sql" [AComposites Birthday_Value birthdays].

(** The document of a block: the arguments [saveAddressesAndTransactions] passes to
    [getData]. *)
Definition block_document (d : Data) : data :=
  let ts := bs_tx (d_stats d) in
  getData (bk_Transactions (d_BlockRecord d)) (d_DelegationSwitches d) (d_UpgradesVotes d)
    (d_PoolSizes d) (d_MinersHistoryItem d) (ts_RemovedTransitiveDelegations ts)
    (ts_CandidateCountDiff ts) (d_OracleVotingContractsToProlong d) (ts_TxReceipts ts)
    (ts_Contracts ts) (ts_Tokens ts) (ts_TokenBalanceUpdates ts) (d_DelegationHistoryUpdates d).

(** The arguments of the statement of [saveAddressesAndTransactions]. *)
Definition addresses_and_transactions (ctx : context) (d : Data) : list arg :=
  let ts := bs_tx (d_stats d) in
  let coins := bs_coins (d_stats d) in
  let c := d_collector d in
  let '(addressesArray, addressStateChangesArray) :=
    getPostgresAddressesAndAddressStateChangesArrays (d_Addresses d) in
  [ZText (c_blockHeight ctx); ZText (changesHistoryBlocksCount a);
   AComposites postgresAddress_Value addressesArray;
   AComposites ActivationTxTransfer_Value (co_ActivationTxTransfers coins);
   AComposites KillTxTransfer_Value (co_KillTxTransfers coins);
   AComposites KillInviteeTxTransfer_Value (co_KillInviteeTxTransfers coins);
   AComposites postgresAddressStateChange_Value addressStateChangesArray;
   AComposites DeletedFlip_Value (cc_deletedFlips c);
   AComposites ActivationTx_Value (ts_ActivationTxs ts);
   AComposites KillInviteeTx_Value (cc_killInviteeTxs c);
   ATexts (cc_becomeOnlineTxs c); ATexts (cc_becomeOfflineTxs c);
   AComposites OracleVotingContract_Value (ts_OracleVotingContracts ts);
   ADocuments (DCallStart ∘ OracleVotingContractCallStart_Value <$> ts_OracleVotingContractCallStarts ts);
   AComposites OracleVotingContractCallVoteProof_Value (ts_OracleVotingContractCallVoteProofs ts);
   AComposites OracleVotingContractCallVote_Value (ts_OracleVotingContractCallVotes ts);
   AComposites OracleVotingContractCallFinish_Value (ts_OracleVotingContractCallFinishes ts);
   ADocuments (DProlongation ∘ OracleVotingContractCallProlongation_Value
                 <$> ts_OracleVotingContractCallProlongations ts);
   AComposites OracleVotingContractCallAddStake_Value (ts_OracleVotingContractCallAddStakes ts);
   AComposites OracleVotingContractTermination_Value (ts_OracleVotingContractTerminations ts);
   AValue (VBool (d_ClearOldEpochCommittees d));
   AComposites OracleLockContract_Value (ts_OracleLockContracts ts);
   AComposites OracleLockContractCallCheckOracleVoting_Value (ts_OracleLockContractCallCheckOracleVotings ts);
   AComposites OracleLockContractCallPush_Value (ts_OracleLockContractCallPushes ts);
   AComposites OracleLockContractTermination_Value (ts_OracleLockContractTerminations ts);
   AComposites RefundableOracleLockContract_Value (ts_RefundableOracleLockContracts ts);
   AComposites RefundableOracleLockContractCallDeposit_Value (ts_RefundableOracleLockContractCallDeposits ts);
   AComposites RefundableOracleLockContractCallPush_Value (ts_RefundableOracleLockContractCallPushes ts);
   AComposites RefundableOracleLockContractCallRefund_Value (ts_RefundableOracleLockContractCallRefunds ts);
   AComposites RefundableOracleLockContractTermination_Value (ts_RefundableOracleLockContractTerminations ts);
   AComposites TimeLockContract_Value (ts_TimeLockContracts ts);
   AComposites TimeLockContractCallTransfer_Value (ts_TimeLockContractCallTransfers ts);
   AComposites TimeLockContractTermination_Value (ts_TimeLockContractTerminations ts);
   AComposites MultisigContract_Value (ts_MultisigContracts ts);
   AComposites MultisigContractCallAdd_Value (ts_MultisigContractCallAdds ts);
   AComposites MultisigContractCallSend_Value (ts_MultisigContractCallSends ts);
   AComposites MultisigContractCallPush_Value (ts_MultisigContractCallPushes ts);
   AComposites MultisigContractTermination_Value (ts_MultisigContractTerminations ts);
   ADocuments (DBalanceUpdates ∘ ContractTxBalanceUpdates_Value <$> ts_ContractTxsBalanceUpdates ts);
   ADocument (DData (block_document d))].

(** Go: db/postgres.go saveAddressesAndTransactions

    The ids of the transactions by their hashes, the last one of a hash. *)
Definition saveAddressesAndTransactions (ctx : context) (d : Data) (s : DbState)
    : (DbState * gmap string Z) + string :=
  match tx_QueryRow s ("insertAddressesAndTransactions.sql"%string, addresses_and_transactions ctx d) with
  | inr err => inr err
  | inl (s, answer) =>
      match mapM txHashId_Scan answer with
      | None => inr "wrong txHashId"%string
      | Some txHashIds => inl (s, foldl (λ m e, <[e.1 := e.2]> m) ∅ txHashIds)
      end
  end.

(** Go: db/postgres.go saveSubmittedFlip *)
Definition saveSubmittedFlip (ctx : context) (txId : Z) (flip : Flip) : step :=
  Exec "insertSubmittedFlip.sql" [AString (fl_Cid flip); ZText txId; ZText (fl_Pair flip)].

(** Go: db/postgres.go saveSubmittedFlips *)
Definition saveSubmittedFlips (ctx : context) (flips : list Flip) : step :=
  each flips (λ flip,
    match txId ctx (fl_TxHash flip) with
    | None => failed "Id for tx not found"
    | Some txId => saveSubmittedFlip ctx txId flip
    end).

(** Go: db/postgres.go saveFlipKey *)
Definition saveFlipKey (ctx : context) (txId : Z) (key : FlipKey) : step :=
  Exec "insertFlipKey.sql" [ZText txId; AString (fk_Key key)].

(** Go: db/postgres.go saveFlipKeys *)
Definition saveFlipKeys (ctx : context) (keys : list FlipKey) : step :=
  each keys (λ key,
    match txId ctx (fk_TxHash key) with
    | None => failed "Id for tx not found"
    | Some txId => saveFlipKey ctx txId key
    end).

(** Go: db/postgres.go saveFlipsWords *)
Definition saveFlipsWords (words : list FlipWords) : step :=
  if (length words =? 0)%nat then no_step
  else Exec "saveFlipsWords.sql" [AComposites FlipWords_Value words].

(** Go: db/postgres.go savePenalty

    The penalty is not nil. *)
Definition savePenalty (ctx : context) (penalty : PenaltyRecord) : step :=
  Exec "insertPenalty.sql" [AString (pr_Address penalty);
    ADecimal (default (Decimal_of_int 0) (pr_Penalty penalty)); ZText (pr_Seconds penalty);
    AString (pr_InheritedFrom penalty); ZText (c_blockHeight ctx)].

(** Go: db/postgres.go savePenalties *)
Definition savePenalties (ctx : context) (penalties : list PenaltyRecord) : step :=
  each penalties (savePenalty ctx).

(** Go: db/postgres.go saveMiningRewards *)
Definition saveMiningRewards (ctx : context) (rewards : list MiningRewardRecord) : step :=
  if (length rewards =? 0)%nat then no_step
  else Exec "insertMiningRewards.sql" [ZText (c_blockHeight ctx); AComposites MiningReward_Value rewards].

(** Go: db/postgres.go saveBurntCoins

    An id that is not found is found out when the driver asks for the values. *)
Definition saveBurntCoins (ctx : context) (burntCoinsByAddr : gmap Address (list BurntCoins)) : step :=
  if decide (burntCoinsByAddr = ∅) then no_step else
  match mapM (postgresAddrBurntCoins_Value (txId ctx))
          (getPostgresBurntCoins (burnt_order burntCoinsByAddr)) with
  | None => failed "Id for tx not found"
  | Some rows => Exec "insertBurntCoins.sql" [ZText (c_blockHeight ctx); ATexts (Sprintf <$> rows)]
  end.

(** The composite of the total rewards. *)
Definition ATotalRewards (t : TotalRewardsRecord) : arg :=
  match TotalRewards_Value (Some t) with Some l => AString (Sprintf l) | None => ANull end.

(** The arguments of [saveEpochResult]. *)
Definition epoch_result_args (epoch height : Z) (r : EpochResult) : list arg :=
  let arrays := getFlipStatsArrays (ep_FlipStats r) in
  let '(identities, flipsToSolve) := getEpochIdentitiesArrays (ep_Identities r)
    (fa_shortAnswerCountsByAddr arrays) (fa_longAnswerCountsByAddr arrays)
    (fa_wrongWordsFlipsCountsByAddr arrays) in
  let stats (x : arg) := if (0 <? length (ep_FlipStats r))%nat then x else ANull in
  let ids (x : arg) := if (0 <? length (ep_Identities r))%nat then x else ANull in
  let reward (f : EpochRewardsRecord → arg) := AOption f (ep_EpochRewards r) in
  [ZText epoch; ZText height; AComposites Birthday_Value (ep_Birthdays r);
   ids (AComposites postgresEpochIdentity_Value identities);
   ids (AComposites postgresFlipToSolve_Value flipsToSolve);
   ATexts (Sprintf <$> omap MemPoolFlipKey_Value (Some <$> ep_MemPoolFlipKeys r));
   stats (AComposites postgresAnswer_Value (fa_answers arrays));
   stats (AComposites postgresFlipsState_Value (fa_states arrays));
   reward (λ e, AComposites BadAuthor_Value (er_BadAuthors e));
   reward (λ e, ATotalRewards (er_Total e));
   reward (λ e, AComposites Reward_Value (er_ValidationRewards e));
   reward (λ e, AComposites postgresRewardAge_Value (getRewardAgesArray (ages_order (er_AgesByAddress e))));
   reward (λ e, AComposites postgresRewardStakedAmount_Value
     (getRewardStakedAmountsArray (prod_map id Some <$> staked_order (er_StakedAmountsByAddress e))));
   reward (λ e, AComposites postgresRewardStakedAmount_Value
     (getRewardStakedAmountsArray (prod_map id Some <$> staked_order (er_FailedStakedAmountsByAddress e))));
   reward (λ e, AComposites Reward_Value (er_FundRewards e));
   reward (λ e, ATexts (er_RewardedFlipCids e));
   reward (λ e, ATexts (er_RewardedExtraFlipCids e));
   reward (λ e, AComposites RewardedInvite_Value (er_RewardedInvitations e));
   reward (λ e, AComposites SavedInviteRewards_Value (er_SavedInviteRewards e));
   reward (λ e, AComposites ReportedFlipReward_Value (er_ReportedFlipRewards e));
   AValue (VBool (ep_FailedValidation r)); AValue (VFloat32 (ep_MinScoreForInvite r));
   reward (λ e, AComposites RewardedInvitee_Value (er_RewardedInvitees e));
   ADocument (DEpochResult (getEpochResultData r))].

(** Go: db/postgres.go saveEpochResult *)
Definition saveEpochResult (epoch height : Z) (epochResult : option EpochResult) : step :=
  match epochResult with
  | None => no_step
  | Some r => Exec "saveEpochResult.sql" (epoch_result_args epoch height r)
  end.

(** Go: db/postgres.go Save:155-221

    What [Save] does when the ids are known. *)
Definition save_rest (ctx : context) (d : Data) : step :=
  let block := d_BlockRecord d in
  let coins := bs_coins (d_stats d) in
  then_ (saveProposer ctx (bk_Proposer block))
  (then_ (saveProposerVrfScore ctx (bk_ProposerVrfScore block))
  (then_ (saveCoins ctx (d_Coins d))
  (then_ (saveBalances (c_blockHeight ctx) (d_ChangedBalances d) (bs_BalanceUpdates (d_stats d))
            (co_CommitteeRewardShare coins))
  (then_ (saveSubmittedFlips ctx (cc_submittedFlips (d_collector d)))
  (then_ (saveFlipKeys ctx (cc_flipKeys (d_collector d)))
  (then_ (saveFlipsWords (cc_flipsWords (d_collector d)))
  (then_ (savePenalties ctx (d_Penalties d))
  (then_ (if miningRewards a then saveMiningRewards ctx (d_MiningRewards d) else no_step)
  (then_ (saveBurntCoins ctx (co_BurntCoinsByAddr coins))
         (saveEpochResult (c_epoch ctx) (c_blockHeight ctx) (d_EpochResult d))))))))))).

(** [newContext(a, tx, data.Epoch, data.Block.Height)] *)
Definition newContext (d : Data) : context :=
  mkContext (d_Epoch d) (bk_Height (d_BlockRecord d)) ∅.

(** What [Save] does in the transaction. *)
Definition save_data (d : Data) (s : DbState) : DbState + string :=
  let ctx := newContext d in
  match then_ (saveEpoch ctx (d_Epoch d) (d_ValidationTime d) (d_PrevStateRoot d)
                 (d_DiscriminationStakeThreshold d)) (saveBlock ctx (d_BlockRecord d)) s with
  | inr err => inr err
  | inl s =>
      match saveAddressesAndTransactions ctx d s with
      | inr err => inr err
      | inl (s, txIdsPerHash) => save_rest (ctx <| c_txIdsPerHash := txIdsPerHash |>) d s
      end
  end.

(** A transaction of the database: its work is committed, or rolled back. *)
Definition in_transaction (work : step) (s : DbState) : DbState * option string :=
  match db_Begin s with
  | Some err => (s, Some (getResultError err))
  | None =>
      match work s with
      | inr err => (s, Some (getResultError err))
      | inl s' => match tx_Commit s' with Some err => (s, Some err) | None => (s', None) end
      end
  end.

(** Go: db/postgres.go Save *)
Definition Save (d : Data) : DbState → DbState * option string := in_transaction (save_data d).

(** Go: db/postgres_restore.go saveRestoredData *)
Definition saveRestoredData (d : RestoredData) : step :=
  Exec "saveRestoredData.sql" [AOption (ADocument ∘ DRestored) (getRestoredData (Some d))].

(** Go: db/postgres_restore.go SaveRestoredData

    Its errors are not given the details of the driver. *)
Definition SaveRestoredData (d : RestoredData) (s : DbState) : DbState * option string :=
  match db_Begin s with
  | Some err => (s, Some err)
  | None =>
      match then_ (saveBalances (rd_BlockHeight d) (rd_Balances d) [] None)
              (then_ (saveBirthdays (rd_Birthdays d)) (saveRestoredData d)) s with
      | inr err => (s, Some err)
      | inl s' => match tx_Commit s' with Some err => (s, Some err) | None => (s', None) end
      end
  end.
End accessor.

(** Go: db/postgres_flip.go SaveFlipsContent

    The statement, outside of a transaction; [None] is the panic of a conversion. *)
Definition SaveFlipsContent (failedFlips : list FailedFlipContent) (flipsContent : list FlipContent)
    : option (option stmt) :=
  if (length failedFlips =? 0)%nat && (length flipsContent =? 0)%nat then Some None else
  documents ← mapM FlipContent_Value flipsContent;
  Some (Some ("saveFlipsContent.sql"%string,
    [AComposites FailedFlipContent_Value failedFlips; ADocuments (DFlipContent <$> documents)])).
End operations.

(** ** The ids are read *)

Section ids.
Context `{DbText}.

Lemma nzhead_head l x : nzhead l ≠ D0 x.
Proof. induction l; cbn; done. Qed.

Lemma to_uint_head p x : Pos.to_uint p ≠ D0 x.
Proof.
  intros Hd. pose proof (DecimalPos.Unsigned.to_of (Pos.to_uint p)) as Hu.
  rewrite DecimalPos.Unsigned.of_to in Hu. change (N.to_uint (Npos p)) with (Pos.to_uint p) in Hu.
  pose proof (DecimalPos.Unsigned.to_uint_nonzero p) as Hz. rewrite Hu in Hd, Hz. unfold unorm in *.
  destruct (nzhead (Pos.to_uint p)) eqn:E; try done. by apply nzhead_head in E.
Qed.

Ltac digit_lia :=
  match goal with |- context [Z.of_nat (nat_of_ascii ?c)] =>
    let v := eval vm_compute in (Z.of_nat (nat_of_ascii c)) in
    change (Z.of_nat (nat_of_ascii c)) with v; lia
  end.

Lemma digits_uint d acc :
  digits 10 true (NilEmpty.string_of_uint d) (Zpos acc) = Some (Zpos (Pos.of_uint_acc d acc)).
Proof.
  assert (∀ k d acc acc', (Zpos acc * 10 + k = Zpos acc')%Z →
    digits 10 true (NilEmpty.string_of_uint d) (Zpos acc') = Some (Zpos (Pos.of_uint_acc d acc')) →
    digits 10 true (NilEmpty.string_of_uint d) (Zpos acc * 10 + k) = Some (Zpos (Pos.of_uint_acc d acc')))
    as Hstep by (by intros k d' n n' ->).
  revert acc. induction d; intros acc; [done|..]; cbn [NilEmpty.string_of_uint Pos.of_uint_acc];
    (eapply Hstep; [|by apply IHd]); [digit_lia..].
Qed.

Lemma parse_positive p : parse_unsigned (NilEmpty.string_of_uint (Pos.to_uint p)) = Some (Zpos p).
Proof.
  pose proof (DecimalPos.Unsigned.of_to p) as Hp.
  pose proof (to_uint_head p) as Hh. pose proof (DecimalPos.Unsigned.to_uint_nonnil p) as Hn.
  destruct (Pos.to_uint p) as [|d|d|d|d|d|d|d|d|d|d]; [done|by destruct (Hh d)|..];
    cbn in Hp; injection Hp as <-; exact (digits_uint d _).
Qed.

(** An id, as it is printed, is read back. *)
Lemma ParseInt_FormatInt z : (0 ≤ z < 2 ^ 63)%Z → ParseInt (FormatInt z) = Some z.
Proof.
  intros Hz. destruct z as [|p|p]; [done| |lia]. unfold ParseInt, FormatInt.
  change (Z.to_int (Zpos p)) with (Decimal.Pos (Pos.to_uint p)). cbn [NilEmpty.string_of_int].
  pose proof (parse_positive p) as Hp.
  assert (∀ x, NilEmpty.string_of_uint (Pos.to_uint p) ≠ String "-" x ∧
               NilEmpty.string_of_uint (Pos.to_uint p) ≠ String "+" x) as Hs.
  { intros x. by destruct (Pos.to_uint p). }
  destruct (NilEmpty.string_of_uint (Pos.to_uint p)) as [|c s]; [done|].
  destruct (Ascii.eqb_spec c "-") as [->|_]; [by destruct (Hs s)|].
  destruct (Ascii.eqb_spec c "+") as [->|_]; [by destruct (Hs s)|].
  rewrite Hp. cbn [mbind option_bind]. by destruct (Z.ltb_spec (Zpos p) (2 ^ 63)); [|lia].
Qed.

Lemma split_plain s t :
  plain s = true → Split "," (String.append s (String "," t)) = s :: Split "," t.
Proof.
  intros Hs. induction s as [|c s IH]; [done|]. cbn [plain] in Hs.
  apply andb_true_iff in Hs as [Hc Hs]. apply negb_true_iff in Hc. apply special_comma in Hc as [Hc _].
  change (Split "," (String c (String.append s (String "," t))) = String c s :: Split "," t).
  cbn [Split]. by rewrite Hc, (IH Hs).
Qed.

Lemma split_last s : plain s = true → Split "," s = [s].
Proof.
  intros Hs. induction s as [|c s IH]; [done|]. cbn [plain] in Hs.
  apply andb_true_iff in Hs as [Hc Hs]. apply negb_true_iff in Hc. apply special_comma in Hc as [Hc _].
  cbn [Split]. by rewrite Hc, (IH Hs).
Qed.

Lemma special_paren c : special c = false → is_paren c = false.
Proof.
  unfold special, is_paren. cbn [existsb]. intros Hs.
  repeat (apply orb_false_iff in Hs as [? Hs]). by apply orb_false_iff.
Qed.

Lemma trim_right_close s t :
  t ≠ EmptyString → plain t = true → trim_right (String.append s (String.append t ")")) = String.append s t.
Proof.
  intros Hne Ht.
  assert (trim_right (String.append t ")") = t) as Hr.
  { clear s. induction t as [|c t IH]; [done|]. cbn [plain] in Ht.
    apply andb_true_iff in Ht as [Hc Ht]. apply negb_true_iff in Hc. apply special_paren in Hc.
    change (trim_right (String c (String.append t ")")) = String c t). cbn [trim_right].
    destruct t as [|c' t]; [cbn; by rewrite Hc|]. by rewrite IH. }
  induction s as [|c s IH]; [done|].
  change (trim_right (String c (String.append s (String.append t ")"))) = String c (String.append s t)).
  cbn [trim_right]. rewrite IH. destruct (String.append s t) as [|c' u] eqn:E; [|done].
  destruct s; [by cbn in E|done].
Qed.

Lemma FormatInt_nonempty z : FormatInt z ≠ EmptyString.
Proof.
  unfold FormatInt. destruct z as [|p|p]; [done|..];
    cbn; [|done]. pose proof (DecimalPos.Unsigned.to_uint_nonnil p). by destruct (Pos.to_uint p).
Qed.

(** The composite of a hash and an id is read back. *)
Lemma txHashId_read hash id :
  plain hash = true → (0 ≤ id < 2 ^ 63)%Z →
  txHashId_Scan (Sprintf [VString hash; VInt id]) = Some (hash, id).
Proof.
  intros Hh Hid. unfold txHashId_Scan, Sprintf. cbn [fmap list_fmap text Join].
  change (trim_left (String "(" ?x)) with (trim_left x).
  assert (plain (FormatInt id) = true) as Hp.
  { unfold FormatInt. destruct (Z.to_int id); cbn; apply plain_uint. }
  rewrite append_assoc. change (String.append (String "," ?x) ?y) with (String "," (String.append x y)).
  assert (∀ t, trim_left (String.append hash (String "," t)) = String.append hash (String "," t)) as ->.
  { intros t. destruct hash as [|c h]; [done|]. cbn [plain] in Hh.
    apply andb_true_iff in Hh as [Hc _]. apply negb_true_iff in Hc. apply special_paren in Hc.
    change (trim_left (String c (String.append h (String "," t))) = String c (String.append h (String "," t))).
    cbn [trim_left]. by rewrite Hc. }
  change (String "," (String.append (FormatInt id) ")")) with (String.append "," (String.append (FormatInt id) ")")).
  rewrite <- append_assoc, trim_right_close by (done || apply FormatInt_nonempty).
  rewrite append_assoc. change (String.append "," (FormatInt id)) with (String "," (FormatInt id)).
  rewrite split_plain, split_last by done. by rewrite ParseInt_FormatInt.
Qed.
End ids.

(** ** A transaction *)

Section transaction.
Context `{DbText, !Database}.
Context (a : postgresAccessor).
Implicit Types (d : Data) (s : DbState) (qs : list stmt) (ctx : context).

(** The statements, in order. *)
Definition run qs : step := each qs (λ q s, tx_Exec s q).

(** A step that runs these statements, or fails when there are none to run. *)
Definition follows (f : step) (plan : option (list stmt)) : Prop :=
  ∀ s s', f s = inl s' ↔ ∃ qs, plan = Some qs ∧ run qs s = inl s'.

Lemma run_app qs qs' s : run (qs ++ qs') s = then_ (run qs) (run qs') s.
Proof.
  revert s. induction qs as [|q qs IH]; intros s; [done|]. cbn. unfold run, then_ in *.
  cbn [each]. destruct (tx_Exec s q); [apply IH|done].
Qed.

Lemma follows_no_step : follows no_step (Some []).
Proof. intros s s'. cbn. naive_solver. Qed.

Lemma follows_Exec query args : follows (Exec query args) (Some [(query, args)]).
Proof.
  intros s s'. unfold Exec. split.
  - intros Hs. exists [(query, args)]. split; [done|]. cbn. unfold then_. by rewrite Hs.
  - intros (qs & [= <-] & Hr). cbn in Hr. unfold then_ in Hr. by destruct (tx_Exec s (query, args)).
Qed.

Lemma follows_failed err : follows (failed err) None.
Proof. intros s s'. naive_solver. Qed.

Lemma follows_then f g plan plan' :
  follows f plan → follows g plan' →
  follows (then_ f g) (qs ← plan; qs' ← plan'; Some (qs ++ qs')).
Proof.
  intros Hf Hg s s'. unfold then_. split.
  - destruct (f s) as [s1|] eqn:E; [|done]. intros Hs.
    apply Hf in E as (qs & -> & E). apply Hg in Hs as (qs' & -> & Hs).
    exists (qs ++ qs'). split; [done|]. rewrite run_app. unfold then_. by rewrite E.
  - intros (qs'' & Hp & Hr). destruct plan as [qs|]; [|done]. destruct plan' as [qs'|]; [|done].
    cbn in Hp. injection Hp as <-. rewrite run_app in Hr. unfold then_ in Hr.
    destruct (run qs s) as [s1|] eqn:E; [|done].
    assert (f s = inl s1) as -> by (apply Hf; by eexists). apply Hg. by eexists.
Qed.

Lemma follows_each {A} (l : list A) (f : A → step) (g : A → option stmt) :
  (∀ x, follows (f x) (q ← g x; Some [q])) → follows (each l f) (mapM g l).
Proof.
  intros Hfg. induction l as [|x l IH]; [apply follows_no_step|].
  pose proof (follows_then _ _ _ _ (Hfg x) IH) as Ht.
  cbn [each mapM]. intros s s'. rewrite (Ht s s'). destruct (g x); [|done]. by destruct (mapM g l).
Qed.

(** The statements that need an id, and what each part of the data is saved with. *)
Definition flip_stmt ctx (flip : Flip) : option stmt :=
  id ← txId ctx (fl_TxHash flip);
  Some ("insertSubmittedFlip.sql"%string, [AString (fl_Cid flip); ZText id; ZText (fl_Pair flip)]).
Definition key_stmt ctx (key : FlipKey) : option stmt :=
  id ← txId ctx (fk_TxHash key); Some ("insertFlipKey.sql"%string, [ZText id; AString (fk_Key key)]).
Definition burnt_stmts ctx (burnt : gmap Address (list BurntCoins)) : option (list stmt) :=
  if decide (burnt = ∅) then Some [] else
  rows ← mapM (postgresAddrBurntCoins_Value (txId ctx)) (getPostgresBurntCoins (burnt_order burnt));
  Some [("insertBurntCoins.sql"%string, [ZText (c_blockHeight ctx); ATexts (Sprintf <$> rows)])].
(** a statement for a part that may be absent *)
Definition stmt_if (b : bool) (q : stmt) : list stmt := if b then [q] else [].

Definition stmts_before d : list stmt :=
  let block := d_BlockRecord d in
  [("insertEpoch.sql"%string, [ZText (d_Epoch d); ZText (swrap 64 (d_ValidationTime d));
      AString (d_PrevStateRoot d);
      AOption (λ t, ADecimal (ConvertToFloat (Some t))) (d_DiscriminationStakeThreshold d)]);
   ("insertBlock.sql"%string, [
      ZText (bk_Height block); AString (bk_Hash block); ZText (d_Epoch d); ZText (bk_Time block);
      AValue (VBool (bk_IsEmpty block)); ZText (bk_OriginalValidatorsCount block);
      ZText (bk_PoolValidatorsCount block); ZText (bk_BodySize block);
      AValue (VFloat64 (bk_VrfProposerThreshold block)); ZText (bk_FullSize block);
      ADecimal (bk_FeeRate block); AOption ZText (bk_Upgrade block);
      AOption AString (bk_OfflineAddress block); ATexts (bk_Flags block); ZText (bk_GasUsed block)])].

(** The statements after the ids are known; [None] when one of them is missing. *)
Definition stmts_after ctx d : option (list stmt) :=
  let block := d_BlockRecord d in
  let coins := bs_coins (d_stats d) in
  let height := ZText (c_blockHeight ctx) in
  flips ← mapM (flip_stmt ctx) (cc_submittedFlips (d_collector d));
  keys ← mapM (key_stmt ctx) (cc_flipKeys (d_collector d));
  burnt ← burnt_stmts ctx (co_BurntCoinsByAddr coins);
  Some (stmt_if (negb (String.length (bk_Proposer block) =? 0)%nat)
          ("insertBlockProposer.sql"%string, [height; AString (bk_Proposer block)])
     ++ stmt_if (negb (Float64_IsZero (bk_ProposerVrfScore block)))
          ("insertBlockProposerVrfScore.sql"%string, [height; AValue (VFloat64 (bk_ProposerVrfScore block))])
     ++ [("insertCoins.sql"%string, [height; ADecimal (cr_Burnt (d_Coins d)); ADecimal (cr_Minted (d_Coins d));
            ADecimal (cr_TotalBalance (d_Coins d)); ADecimal (cr_TotalStake (d_Coins d))]);
         ("saveBalances.sql"%string, [height; AComposites Balance_Value (d_ChangedBalances d);
            AComposites (λ u, BalanceUpdate_Value u.1 u.2) (bs_BalanceUpdates (d_stats d));
            ZText (changesHistoryBlocksCount a); ADecimal (ConvertToFloat (co_CommitteeRewardShare coins))])]
     ++ flips ++ keys
     ++ stmt_if (negb (length (cc_flipsWords (d_collector d)) =? 0)%nat)
          ("saveFlipsWords.sql"%string, [AComposites FlipWords_Value (cc_flipsWords (d_collector d))])
     ++ ((λ p, ("insertPenalty.sql"%string, [AString (pr_Address p);
            ADecimal (default (Decimal_of_int 0) (pr_Penalty p)); ZText (pr_Seconds p);
            AString (pr_InheritedFrom p); height])) <$> d_Penalties d)
     ++ stmt_if (miningRewards a && negb (length (d_MiningRewards d) =? 0)%nat)
          ("insertMiningRewards.sql"%string, [height; AComposites MiningReward_Value (d_MiningRewards d)])
     ++ burnt
     ++ match d_EpochResult d with
        | Some r => [("saveEpochResult.sql"%string, epoch_result_args (c_epoch ctx) (c_blockHeight ctx) r)]
        | None => []
        end).

Lemma follows_if (b : bool) query args :
  follows (if b then no_step else Exec query args) (Some (stmt_if (negb b) (query, args))).
Proof. destruct b; [apply follows_no_step|apply follows_Exec]. Qed.

Lemma mapM_pure {A B} (g : A → B) (l : list A) : mapM (λ x, Some (g x)) l = Some (g <$> l).
Proof. induction l as [|x l IH]; [done|]. cbn. by rewrite IH. Qed.

Lemma follows_flips ctx flips : follows (saveSubmittedFlips ctx flips) (mapM (flip_stmt ctx) flips).
Proof.
  apply follows_each. intros x. unfold flip_stmt.
  destruct (txId ctx (fl_TxHash x)); [apply follows_Exec|apply follows_failed].
Qed.

Lemma follows_keys ctx keys : follows (saveFlipKeys ctx keys) (mapM (key_stmt ctx) keys).
Proof.
  apply follows_each. intros x. unfold key_stmt.
  destruct (txId ctx (fk_TxHash x)); [apply follows_Exec|apply follows_failed].
Qed.

Lemma follows_burnt ctx burnt : follows (saveBurntCoins ctx burnt) (burnt_stmts ctx burnt).
Proof.
  unfold saveBurntCoins, burnt_stmts. case_decide; [apply follows_no_step|].
  destruct (mapM _ _); [apply follows_Exec|apply follows_failed].
Qed.

Lemma follows_rest ctx d : follows (save_rest a ctx d) (stmts_after ctx d).
Proof.
  intros s s'. etransitivity.
  - apply follows_then; [apply follows_if|].
    apply follows_then; [apply follows_if|].
    apply follows_then; [apply follows_Exec|].
    apply follows_then; [apply follows_Exec|].
    apply follows_then; [apply follows_flips|].
    apply follows_then; [apply follows_keys|].
    apply follows_then; [apply follows_if|].
    apply follows_then; [apply (follows_each _ _ (λ p, Some ("insertPenalty.sql"%string,
      [AString (pr_Address p); ADecimal (default (Decimal_of_int 0) (pr_Penalty p)); ZText (pr_Seconds p);
       AString (pr_InheritedFrom p); ZText (c_blockHeight ctx)]))); intros p; apply follows_Exec|].
    apply follows_then; [|apply follows_then; [apply follows_burnt|]].
    + instantiate (1 := Some (stmt_if (miningRewards a && negb (length (d_MiningRewards d) =? 0)%nat)
        ("insertMiningRewards.sql"%string,
         [ZText (c_blockHeight ctx); AComposites MiningReward_Value (d_MiningRewards d)]))).
      destruct (miningRewards a); [apply follows_if|apply follows_no_step].
    + instantiate (1 := Some match d_EpochResult d with
        | Some r => [("saveEpochResult.sql"%string, epoch_result_args (c_epoch ctx) (c_blockHeight ctx) r)]
        | None => [] end).
      unfold saveEpochResult. destruct (d_EpochResult d); [apply follows_Exec|apply follows_no_step].
  - rewrite mapM_pure. unfold stmts_after. cbn [mbind option_bind].
    destruct (mapM (flip_stmt ctx) _) as [flips|]; cbn [mbind option_bind]; [|naive_solver].
    destruct (mapM (key_stmt ctx) _) as [keys|]; cbn [mbind option_bind]; [|naive_solver].
    destruct (burnt_stmts ctx _) as [burnt|]; cbn [mbind option_bind]; [|naive_solver].
    done.
Qed.

(** The data of a block is saved by these statements. *)
Lemma save_data_steps d s s' :
  save_data a d s = inl s' ↔
  ∃ s1 s2 ids qs, run (stmts_before d) s = inl s1 ∧
    saveAddressesAndTransactions a (newContext d) d s1 = inl (s2, ids) ∧
    stmts_after ((newContext d) <| c_txIdsPerHash := ids |>) d = Some qs ∧ run qs s2 = inl s'.
Proof.
  assert (follows (then_ (saveEpoch (newContext d) (d_Epoch d) (d_ValidationTime d) (d_PrevStateRoot d)
    (d_DiscriminationStakeThreshold d)) (saveBlock (newContext d) (d_BlockRecord d))) (Some (stmts_before d))) as Hb.
  { exact (follows_then _ _ _ _ (follows_Exec _ _) (follows_Exec _ _)). }
  unfold save_data. split.
  - destruct (then_ _ _ s) as [s1|] eqn:E1; [|done].
    destruct (saveAddressesAndTransactions _ _ _ _) as [[s2 ids]|] eqn:E2; [|done].
    intros (qs & Hq & Hr)%follows_rest. apply Hb in E1 as (qs' & [= <-] & E1). by exists s1, s2, ids, qs.
  - intros (s1 & s2 & ids & qs & E1 & E2 & Hq & Hr).
    assert (then_ (saveEpoch (newContext d) (d_Epoch d) (d_ValidationTime d) (d_PrevStateRoot d)
      (d_DiscriminationStakeThreshold d)) (saveBlock (newContext d) (d_BlockRecord d)) s = inl s1) as ->
      by (apply Hb; by eexists).
    rewrite E2. apply follows_rest. by eexists.
Qed.

(** [C5]  Saving a block is one transaction.  It succeeds exactly when the database
    begins and commits it and accepts, in this order, the statements of the epoch and of
    the block, that of the addresses and transactions, whose answer gives the ids, and
    those of the rest, with the ids of the transactions of every flip, flip key and
    burnt coin; it then leaves the database as these statements do.  Otherwise the
    database is left as it was. *)
Theorem save_is_a_transaction d s :
  (∀ s', Save a d s = (s', None) ↔
     db_Begin s = None ∧ tx_Commit s' = None ∧
     ∃ s1 s2 ids qs, run (stmts_before d) s = inl s1 ∧
       saveAddressesAndTransactions a (newContext d) d s1 = inl (s2, ids) ∧
       stmts_after ((newContext d) <| c_txIdsPerHash := ids |>) d = Some qs ∧ run qs s2 = inl s') ∧
  ((Save a d s).2 ≠ None → (Save a d s).1 = s).
Proof.
  split.
  - intros s'. rewrite <- save_data_steps. unfold Save, in_transaction.
    destruct (db_Begin s); [naive_solver|]. destruct (save_data a d s) as [s1|]; [|naive_solver].
    destruct (tx_Commit s1) eqn:E; naive_solver.
  - unfold Save, in_transaction. destruct (db_Begin s); [done|].
    destruct (save_data a d s) as [s1|]; [|done]. by destruct (tx_Commit s1).
Qed.
End transaction.

(** ** The data of a block is saved *)

Section saved.
Context `{EpochApi, !NodeLaws, !TxApi, !BlockApi, !DbText, !DbReading, !DbTextLaws, !Database}.
Context (a : postgresAccessor).
Context (stats : BlockStats) (block : Block) (prevState newState : AppState).
Implicit Types (ip : IndexerPart) (d : Data) (s : DbState) (tx : Tx).

Abbreviation ctx := (mkConversionContext (b_Height block) prevState newState).
Abbreviation txs := (b_Transactions block).

Lemma convertBlock_records migrating killed r st :
  forallb (invitee_ok ctx) txs = true →
  convertBlock migrating stats block ctx (newCc killed) = Done (r, st) →
  Forall2 (converted (bs_tx stats)) txs (bk_Transactions r) ∧ records st = records_of ctx txs.
Proof.
  intros Hok. unfold convertBlock.
  assert (∃ ts st', (if (0 <? length txs)%nat then convertTransactions (bs_tx stats) txs ctx
                     else mret []) (newCc killed) = Done (ts, st') ∧
    Forall2 (converted (bs_tx stats)) txs ts ∧ records st' = records_of ctx txs) as (ts & st' & E & Hts & Hr).
  { destruct (Nat.ltb_spec 0 (length txs)) as [Hl|Hl].
    - destruct (wp_done _ _ _ (wp_convertTransactions (bs_tx stats) ctx killed txs Hok))
        as (ts & st' & E & [_ Hr] & Hts). by exists ts, st'.
    - destruct txs; [|cbn in Hl; lia]. exists [], (newCc killed). done. }
  erewrite bind_done by exact E. intros [= <- <-]. done.
Qed.

(** The flips and the flip keys that are saved, and the transactions with them. *)
Lemma convert_data_records ip d :
  conversion_ok stats block prevState newState →
  convert_data stats block prevState newState ip = Done d →
  Forall2 (converted (bs_tx stats)) txs (bk_Transactions (d_BlockRecord d)) ∧
  cc_submittedFlips (d_collector d) = fst <$> omap detectSubmittedFlip txs ∧
  cc_flipKeys (d_collector d) = txs ≫= keys_of ∧ d_stats d = stats.
Proof.
  intros Hok. unfold convert_data.
  destruct (convertBlock _ _ _ _ _) as [[r st]|] eqn:E; [|done].
  apply convertBlock_records in E as [Hts Hr]; [|apply (cv_txs _ _ _ _ Hok)].
  destruct (detectEpochResult _ _) as [[er K]|]; [|done].
  destruct (detectDelegationSwitches _ _ _ _ _ _) as [switches|]; [|done].
  destruct (add_removed_delegations _ _ _) as [sw hist]. intros [= <-]. cbn.
  unfold records, records_of in Hr. injection Hr as Hf _ _ _ _ _ _ Hk _. done.
Qed.

(** The hash of a flip or of a flip key is that of a transaction of the block. *)
Lemma flip_hash flip :
  flip ∈ fst <$> omap detectSubmittedFlip txs → ∃ tx, tx ∈ txs ∧ fl_TxHash flip = hash_Hex (tx_Hash tx).
Proof.
  intros ([f ft] & -> & (tx & Htx & Hd)%list_elem_of_omap)%list_elem_of_fmap. exists tx. split; [done|].
  unfold detectSubmittedFlip in Hd. destruct (negb _); [done|].
  destruct (ParseFlipSubmitAttachment tx) as [[c p]|]; [|done]. cbn in Hd.
  destruct (cid_Parse c); [|done]. by simplify_eq/=.
Qed.

Lemma key_hash key : key ∈ txs ≫= keys_of → ∃ tx, tx ∈ txs ∧ fk_TxHash key = hash_Hex (tx_Hash tx).
Proof.
  intros (tx & Hk & Htx)%list_elem_of_bind. exists tx. split; [done|].
  unfold keys_of in Hk. repeat case_match; try by apply not_elem_of_nil in Hk.
  all: apply list_elem_of_singleton in Hk as ->; done.
Qed.
(** A database that accepts the data: no statement fails, and the statement of the
    addresses and transactions answers one row for each transaction, with its hash and
    its id. *)
Record accepts d : Prop := {
  ac_begin s : db_Begin s = None;
  ac_exec s q : ∃ s', tx_Exec s q = inl s';
  ac_commit s : tx_Commit s = None;
  ac_ids s : ∃ s' id, (∀ t, 0 ≤ id t < 2 ^ 63)%Z ∧
    tx_QueryRow s ("insertAddressesAndTransactions.sql"%string, addresses_and_transactions a (newContext d) d)
    = inl (s', (λ t, Sprintf [VString (t_Hash t); VInt (id t)]) <$> bk_Transactions (d_BlockRecord d))
}.

Lemma run_accepts d qs s : accepts d → ∃ s', run qs s = inl s'.
Proof.
  intros Ha. revert s. induction qs as [|q qs IH]; intros s; [by exists s|].
  unfold run, then_. cbn [each]. unfold then_. destruct (ac_exec d Ha s q) as [s1 ->]. apply IH.
Qed.

Lemma ids_known (pairs : list (string * Z)) (m : gmap string Z) k :
  k ∈ pairs.*1 ∨ is_Some (m !! k) → is_Some (foldl (λ m e, <[e.1 := e.2]> m) m pairs !! k).
Proof.
  revert m. induction pairs as [|[k' v] pairs IH]; intros m Hk.
  - destruct Hk as [Hk|Hk]; [by apply not_elem_of_nil in Hk|done].
  - cbn [foldl fst snd]. apply IH. destruct (decide (k' = k)) as [->|Hne].
    + right. rewrite lookup_insert_eq. by eexists.
    + rewrite lookup_insert_ne by done. cbn in Hk. rewrite elem_of_cons in Hk. destruct Hk as [[->|Hk]|Hk]; [done|by left|by right].
Qed.

(** The ids are found. *)
Lemma ids_answered d s :
  accepts d → Forall2 (converted (bs_tx stats)) txs (bk_Transactions (d_BlockRecord d)) →
  ∃ s' ids, saveAddressesAndTransactions a (newContext d) d s = inl (s', ids) ∧
  ∀ tx, tx ∈ txs → is_Some (ids !! hash_Hex (tx_Hash tx)).
Proof.
  intros Ha Hts. destruct (ac_ids d Ha s) as (s' & id & Hid & Hq).
  unfold saveAddressesAndTransactions. rewrite Hq.
  set (ts := bk_Transactions _) in *.
  assert (mapM txHashId_Scan ((λ t, Sprintf [VString (t_Hash t); VInt (id t)]) <$> ts)
    = Some ((λ t, (t_Hash t, id t)) <$> ts)) as ->.
  { clear Hq. induction Hts as [|tx t l l' Hc _ IH]; [done|].
    cbn [fmap list_fmap mapM]. rewrite txHashId_read; [|by rewrite (cv_Hash _ _ _ Hc), plain_hash|done].
    cbn [mbind option_bind]. by rewrite IH. }
  eexists _, _. split; [done|]. intros tx Htx. apply ids_known. left.
  apply list_elem_of_lookup in Htx as [i Hi]. destruct (Forall2_lookup_l _ _ _ _ _ Hts Hi) as (t & Ht & Hc).
  rewrite <- (cv_Hash _ _ _ Hc), <- list_fmap_compose. apply (list_elem_of_fmap_2 (fst ∘ (λ t, (t_Hash t, id t)))).
  by apply list_elem_of_lookup_2 in Ht.
Qed.

(** The burnt coins are what the collector records, when the calls it is given name only
    transactions of the block. *)
Definition burnt_calls : Type := list (Address * option Z * BurntCoinsReason * option Tx).
Definition collect_burnt (calls : burnt_calls) (c : Coins) : Coins :=
  foldl (λ c '(addr, amount, reason, tx), addBurntCoins addr amount reason tx c) c calls.
Definition burnt_by_calls : Prop :=
  ∃ calls : burnt_calls, (∀ tx, Some tx ∈ calls.*2 → tx ∈ txs) ∧
    co_BurntCoinsByAddr (bs_coins stats) = co_BurntCoinsByAddr (collect_burnt calls emptyCoins).

(** So they are of transactions of the block, or of none. *)
Definition of_txs (m : gmap Address (list BurntCoins)) : Prop :=
  ∀ addr coins c, m !! addr = Some coins → c ∈ coins →
    bc_TxHash c = EmptyString ∨ ∃ tx, tx ∈ txs ∧ bc_TxHash c = hash_Hex (tx_Hash tx).

Lemma collected_of_txs (calls : burnt_calls) c :
  (∀ tx, Some tx ∈ calls.*2 → tx ∈ txs) → of_txs (co_BurntCoinsByAddr c) →
  of_txs (co_BurntCoinsByAddr (collect_burnt calls c)).
Proof.
  revert c. induction calls as [|[[[addr amount] reason] tx] calls IH]; intros c Hcalls Hc; [done|].
  cbn [collect_burnt foldl]. apply IH; [intros t Ht; apply Hcalls; by right|].
  unfold addBurntCoins. destruct (nil_or_zero amount); [done|].
  intros addr' coins b. cbn. intros [[<- <-]|[_ Hm]]%lookup_insert_Some; [|by apply (Hc addr')].
  intros [Hb| ->%list_elem_of_singleton]%elem_of_app.
  - destruct (co_BurntCoinsByAddr c !! addr) as [old|] eqn:Hold; [by apply (Hc addr old)|by apply elem_of_nil in Hb].
  - destruct tx as [tx|]; [right|by left]. exists tx. split; [apply Hcalls; by left|done].
Qed.

Lemma burnt_calls_of_txs : burnt_by_calls → of_txs (co_BurntCoinsByAddr (bs_coins stats)).
Proof.
  intros (calls & Hcalls & ->). apply collected_of_txs; [done|]. intros addr coins c Hm. cbn in Hm. by rewrite lookup_empty in Hm.
Qed.

Lemma burnt_rows_known c0 :
  (∀ m, ranges m (burnt_order m)) → of_txs (co_BurntCoinsByAddr (bs_coins stats)) →
  (∀ tx, tx ∈ txs → is_Some (c_txIdsPerHash c0 !! hash_Hex (tx_Hash tx))) →
  is_Some (burnt_stmts c0 (co_BurntCoinsByAddr (bs_coins stats))).
Proof.
  intros Hord Hburnt Hids. unfold burnt_stmts. case_decide; [by eexists|].
  assert (is_Some (mapM (postgresAddrBurntCoins_Value (txId c0))
    (getPostgresBurntCoins (burnt_order (co_BurntCoinsByAddr (bs_coins stats)))))) as [rows ->]; [|by eexists].
  apply mapM_is_Some_2, list.Forall_forall. intros row Hrow.
  unfold getPostgresBurntCoins in Hrow. apply list_elem_of_bind in Hrow as ([addr coins] & Hrow & Hin).
  apply elem_of_lookup_imap in Hrow as (i & c & -> & Hc). apply list_elem_of_lookup_2 in Hc.
  apply (ranges_elem _ _ _ _ (Hord _)) in Hin.
  cbn [compose]. unfold compose, postgresAddrBurntCoins_Value. cbn [pb_BurntCoins].
  destruct (Hburnt addr coins c Hin Hc) as [->|(tx & Htx & ->)]; [by eexists|].
  destruct (0 <? String.length _)%nat; [|by eexists]. unfold txId. destruct (Hids tx Htx) as [id ->]. by eexists.
Qed.

(** [C3]  A converted block is saved: when the conversion goes through, and the calls that
    burn coins gave the collector only transactions of the block, the data it makes refers
    to no transaction without an id.  So when the database accepts the statements and
    answers an id for each transaction of the block, [Save] succeeds and leaves the
    database as these statements do, each once and in this order: those of the epoch and
    of the block, that of the addresses and transactions, and those of all the rest, with
    the ids for the flips, the flip keys and the burnt coins. *)
Theorem converted_block_is_saved ip :
  conversion_ok stats block prevState newState → (∀ m, ranges m (burnt_order m)) → burnt_by_calls →
  ∃ d, convert_data stats block prevState newState ip = Done d ∧ d_Block d = block ∧
  (accepts d → ∀ s, ∃ s1 s2 ids qs s', Save a d s = (s', None) ∧
    run (stmts_before d) s = inl s1 ∧
    saveAddressesAndTransactions a (newContext d) d s1 = inl (s2, ids) ∧
    (∀ tx, tx ∈ txs → is_Some (ids !! hash_Hex (tx_Hash tx))) ∧
    stmts_after a ((newContext d) <| c_txIdsPerHash := ids |>) d = Some qs ∧ run qs s2 = inl s').
Proof.
  intros Hok Hord Hburnt.
  destruct (convert_data_done stats block prevState newState ip Hok) as (d & K & sw & hist & Ed & Hblk & _).
  exists d. split_and!; [done..|]. intros Ha s.
  destruct (convert_data_records ip d Hok Ed) as (Hts & Hf & Hk & Hs).
  destruct (run_accepts d (stmts_before d) s Ha) as [s1 E1].
  destruct (ids_answered d s1 Ha Hts) as (s2 & ids & E2 & Hids).
  set (c0 := (newContext d) <| c_txIdsPerHash := ids |>).
  assert (is_Some (stmts_after a c0 d)) as [qs Hqs].
  { unfold stmts_after. rewrite Hf, Hk, Hs.
    assert (is_Some (mapM (flip_stmt c0) (fst <$> omap detectSubmittedFlip txs))) as [flips ->].
    { apply mapM_is_Some_2, list.Forall_forall. intros x (tx & Htx & E)%flip_hash.
      unfold compose, flip_stmt, txId. rewrite E. cbn. destruct (Hids tx Htx) as [id ->]. by eexists. }
    assert (is_Some (mapM (key_stmt c0) (txs ≫= keys_of))) as [keys ->].
    { apply mapM_is_Some_2, list.Forall_forall. intros x (tx & Htx & E)%key_hash.
      unfold compose, key_stmt, txId. rewrite E. cbn. destruct (Hids tx Htx) as [id ->]. by eexists. }
    destruct (burnt_rows_known c0 Hord (burnt_calls_of_txs Hburnt) Hids) as [burnt ->]. by eexists. }
  destruct (run_accepts d qs s2 Ha) as [s' E'].
  exists s1, s2, ids, qs, s'. split_and!; [|done..]. unfold Save, in_transaction. rewrite (ac_begin d Ha).
  assert (save_data a d s = inl s') as -> by (apply save_data_steps; by eexists _, _, _, _).
  by rewrite (ac_commit d Ha).
Qed.
End saved.

(** ** A concrete database *)

(** It keeps the statements, and gives a transaction an id made from its hash. *)
Definition sample_id (hash : string) : Z := Z.of_nat (String.length hash) mod 2 ^ 32.

#[export] Instance SampleDatabase : Database := {|
  DbState := list stmt;
  db_Begin _ := None;
  tx_Exec s q := inl (s ++ [q]);
  tx_QueryRow s q :=
    inl (s ++ [q], match list.last q.2 with
                   | Some (ADocument (DData doc)) =>
                       (λ t, Sprintf [VString (t_Hash t); VInt (sample_id (t_Hash t))]) <$> jdt_Txs doc
                   | _ => []
                   end);
  tx_Commit _ := None;
  getResultError e := e;
  burnt_order := map_to_list; ages_order := map_to_list; staked_order := map_to_list;
  Float64_IsZero z := (z =? 0)%Z
|}.

#[local] Existing Instance sample_attachments.

Definition sample_accessor : postgresAccessor := mkPostgresAccessor 100 true.

(** A block with a flip, submitted by one of its two transactions. *)
Definition sample_flip_block : Block :=
  (sample_block 7 7 6) <| b_Transactions := [sample_activation; sample_submission] |>.

(** The conversion of the witness; coins are burnt with its second transaction, and by a
    penalty. *)
Definition sample_burnt_calls : burnt_calls :=
  [(mkAddress 2, Some 5%Z, FeeBurntCoins, Some sample_submission); (mkAddress 3, Some 1%Z, PenaltyBurntCoins, None)].
Definition sample_burnt_stats : BlockStats :=
  emptyStats <| bs_coins := collect_burnt sample_burnt_calls emptyCoins |>.

Lemma converted_block_is_saved_witness :
  ∃ d, convert_data sample_burnt_stats sample_flip_block sample_state sample_state sample_part = Done d ∧
  ∃ s', Save sample_accessor d [] = (s', None).
Proof.
  destruct (converted_block_is_saved sample_accessor sample_burnt_stats sample_flip_block sample_state
    sample_state sample_part) as (d & Ed & _ & Hd).
  - split; [done|by intros [=]|intros m; apply ranges_canonical].
  - intros m. apply ranges_canonical.
  - exists sample_burnt_calls. split; [|done]. intros tx Htx. cbn in Htx.
    apply elem_of_cons in Htx as [[= ->]|Htx]; [right; by left|]. by apply list_elem_of_singleton in Htx.
  - exists d. split; [done|]. edestruct Hd as (s1 & s2 & ids & qs & s' & Hs & _); [|by exists s'].
    split; intros; cbn; try done.
    + by eexists.
    + unfold addresses_and_transactions.
      destruct (getPostgresAddressesAndAddressStateChangesArrays _).
      eexists _, (λ t, sample_id (t_Hash t)). split; [|reflexivity].
      intros t. unfold sample_id. pose proof (Z.mod_pos_bound (Z.of_nat (String.length (t_Hash t))) (2 ^ 32)). lia.
Defined.

(** The statements of the block, in order. *)
Example sample_statements :
  match convert_data sample_burnt_stats sample_flip_block sample_state sample_state sample_part with
  | Done d => (Save sample_accessor d []).1.*1
  | Panic => []
  end = ["insertEpoch.sql"; "insertBlock.sql"; "insertAddressesAndTransactions.sql"; "insertBlockProposer.sql";
         "insertCoins.sql"; "saveBalances.sql"; "insertSubmittedFlip.sql"; "insertBurntCoins.sql"]%string.
Proof. vm_compute. reflexivity. Qed.
