(* ===== verification/TxPool.v ===== *)
(** * The pools of pending transactions

    core/holder/transaction/mempool_txs.go keeps the transactions that are not in a block
    yet, by hash and by address, for the API.  Its writers hold a mutex for the whole of
    an operation, so that operations are steps one after the other. *)

From S2P Require Import Prelude Node.

(** ** Data *)

(** Go: core/holder/transaction/mempool_txs.go txsByHashWrapper *)
Record txsByHashWrapper := mkTxsByHash { w_txsByHash : gmap Hash Tx }.

(** Go: core/holder/transaction/mempool_txs.go txsByAddressWrapper

    The wrapper of an address is reached through this map only. *)
Record txsByAddressWrapper := mkTxsByAddress { w_txsByAddress : gmap Address txsByHashWrapper }.

(** Go: core/holder/transaction/mempool_txs.go memPool *)
Record memPool := mkMemPool { txsByHash : txsByHashWrapper; txsByAddress : txsByAddressWrapper }.

(** Go: core/types/types.go TransactionDetail:53-71

    The fields that the pool sets. *)
Record TransactionDetail `{NodeApi} := mkTransactionDetail {
  td_Epoch : Z; td_Hash : string; td_Type : string; td_From : string; td_To : string;
  td_Amount : Decimal; td_Tips : Decimal; td_MaxFee : Decimal; td_Size : Z; td_Nonce : Z
}.

(** Go: core/types/types.go TransactionSummary:34-51

    The fields that the pool sets. *)
Record TransactionSummary `{NodeApi} := mkTransactionSummary {
  ts_Hash : string; ts_Type : string; ts_From : string; ts_To : string;
  ts_Amount : Decimal; ts_Tips : Decimal; ts_MaxFee : Decimal; ts_Size : Z; ts_Nonce : Z
}.

(** ** Operations *)

Section operations.

(** Go: core/holder/transaction/mempool_txs.go newTxsByHashWrapper *)
Definition newTxsByHashWrapper : txsByHashWrapper := mkTxsByHash ∅.

(** Go: core/holder/transaction/mempool_txs.go txsByHashWrapper.len *)
Definition wrapper_len (w : txsByHashWrapper) : nat := size (w_txsByHash w).

(** Go: core/holder/transaction/mempool_txs.go isEmpty *)
Definition isEmpty (w : txsByHashWrapper) : bool := (wrapper_len w =? 0)%nat.

(** Go: core/holder/transaction/mempool_txs.go txsByHashWrapper.add *)
Definition wrapper_add (tx : Tx) (w : txsByHashWrapper) : txsByHashWrapper :=
  w <| w_txsByHash ::= insert (tx_Hash tx) tx |>.

(** Go: core/holder/transaction/mempool_txs.go txsByHashWrapper.contains *)
Definition contains (hash : Hash) (w : txsByHashWrapper) : bool :=
  bool_decide (is_Some (w_txsByHash w !! hash)).

(** Go: core/holder/transaction/mempool_txs.go txsByHashWrapper.remove *)
Definition wrapper_remove (hash : Hash) (w : txsByHashWrapper) : txsByHashWrapper :=
  w <| w_txsByHash ::= delete hash |>.

(** Go: core/holder/transaction/mempool_txs.go txsByHashWrapper.get *)
Definition wrapper_get (hash : Hash) (w : txsByHashWrapper) : option Tx := w_txsByHash w !! hash.

(** Go: core/holder/transaction/mempool_txs.go all

    [order] is the order in which the map is ranged over; the loop stops when the slice
    is full. *)
Definition all (order : gmap Hash Tx → list (Hash * Tx)) (count : Z) (w : txsByHashWrapper) : list Tx :=
  if (count <=? 0)%Z then [] else
  let size := Z.to_nat (Z.min (u64 count) (Z.of_nat (wrapper_len w))) in
  if (size =? 0)%nat then [] else take size (snd <$> order (w_txsByHash w)).

(** Go: core/holder/transaction/mempool_txs.go addAddressTx *)
Definition addAddressTx (address : Address) (tx : Tx) (w : txsByAddressWrapper) : txsByAddressWrapper :=
  w <| w_txsByAddress ::= λ m,
    <[address := wrapper_add tx (default newTxsByHashWrapper (m !! address))]> m |>.

(** Go: core/holder/transaction/mempool_txs.go txsByAddressWrapper.add *)
Definition address_add (tx : Tx) (w : txsByAddressWrapper) : txsByAddressWrapper :=
  let w := addAddressTx (tx_Sender tx) tx w in
  match tx_To tx with Some to => addAddressTx to tx w | None => w end.

(** Go: core/holder/transaction/mempool_txs.go removeByAddressAndHash *)
Definition removeByAddressAndHash (address : Address) (hash : Hash) (w : txsByAddressWrapper)
    : txsByAddressWrapper :=
  match w_txsByAddress w !! address with
  | None => w
  | Some txs =>
      let txs := wrapper_remove hash txs in
      w <| w_txsByAddress ::= if isEmpty txs then delete address else insert address txs |>
  end.

(** Go: core/holder/transaction/mempool_txs.go txsByAddressWrapper.remove *)
Definition address_remove (tx : Tx) (w : txsByAddressWrapper) : txsByAddressWrapper :=
  let w := removeByAddressAndHash (tx_Sender tx) (tx_Hash tx) w in
  match tx_To tx with Some to => removeByAddressAndHash to (tx_Hash tx) w | None => w end.

(** Go: core/holder/transaction/mempool_txs.go txsByAddressWrapper.get *)
Definition address_get (order : gmap Hash Tx → list (Hash * Tx)) (address : Address) (count : Z)
    (w : txsByAddressWrapper) : list Tx :=
  match w_txsByAddress w !! address with None => [] | Some txs => all order count txs end.

(** Go: core/holder/transaction/mempool_txs.go addTx *)
Definition addTx (tx : Tx) (pool : memPool) : memPool :=
  pool <| txsByHash ::= wrapper_add tx |> <| txsByAddress ::= address_add tx |>.

(** Go: core/holder/transaction/mempool_txs.go removeTx *)
Definition removeTx (tx : Tx) (pool : memPool) : memPool :=
  if negb (contains (tx_Hash tx) (txsByHash pool)) then pool else
  pool <| txsByHash ::= wrapper_remove (tx_Hash tx) |> <| txsByAddress ::= address_remove tx |>.

(** Go: core/holder/transaction/mempool_txs.go AddTransaction *)
Definition AddTransaction (tx : Tx) (pool : memPool) : memPool := addTx tx pool.

(** Go: core/holder/transaction/mempool_txs.go RemoveTransaction *)
Definition RemoveTransaction (tx : Tx) (pool : memPool) : memPool := removeTx tx pool.

(** Go: core/holder/transaction/mempool_txs.go NewMemPool *)
Definition NewMemPool : memPool := mkMemPool newTxsByHashWrapper (mkTxsByAddress ∅).

Context `{NodeApi}.

(** Go: core/conversion/common.go ConvertTxType

    With the names of the types; a type without a name is the empty string. *)
Definition ConvertTxType (txType : TxType) : string :=
  match txType with
  | SendTx => "SendTx"
  | ActivationTx => "ActivationTx"
  | InviteTx => "InviteTx"
  | KillTx => "KillTx"
  | SubmitFlipTx => "SubmitFlipTx"
  | SubmitAnswersHashTx => "SubmitAnswersHashTx"
  | SubmitShortAnswersTx => "SubmitShortAnswersTx"
  | SubmitLongAnswersTx => "SubmitLongAnswersTx"
  | EvidenceTx => "EvidenceTx"
  | OnlineStatusTx => "OnlineStatusTx"
  | KillInviteeTx => "KillInviteeTx"
  | ChangeGodAddressTx => "ChangeGodAddressTx"
  | BurnTx => "BurnTx"
  | ChangeProfileTx => "ChangeProfileTx"
  | DeleteFlipTx => "DeleteFlipTx"
  | DeployContractTx => "DeployContract"
  | CallContractTx => "CallContract"
  | TerminateContractTx => "TerminateContract"
  | DelegateTx => "DelegateTx"
  | UndelegateTx => "UndelegateTx"
  | KillDelegatorTx => "KillDelegatorTx"
  | StoreToIpfsTx => "StoreToIpfsTx"
  | OtherTx _ => ""
  end%string.

(** Go: core/holder/transaction/mempool_txs.go toTransactionDetail *)
Definition toTransactionDetail (tx : Tx) : TransactionDetail :=
  mkTransactionDetail _ (tx_Epoch tx) (hash_Hex (tx_Hash tx)) (ConvertTxType (tx_Type tx))
    (address_Hex (tx_Sender tx)) (match tx_To tx with Some to => address_Hex to | None => EmptyString end)
    (ConvertToFloat (tx_Amount tx)) (ConvertToFloat (tx_Tips tx)) (ConvertToFloat (tx_MaxFee tx))
    (u32 (tx_Size tx)) (tx_AccountNonce tx).

(** Go: core/holder/transaction/mempool_txs.go toTransactionSummary *)
Definition toTransactionSummary (tx : Tx) : TransactionSummary :=
  mkTransactionSummary _ (hash_Hex (tx_Hash tx)) (ConvertTxType (tx_Type tx))
    (address_Hex (tx_Sender tx)) (match tx_To tx with Some to => address_Hex to | None => EmptyString end)
    (ConvertToFloat (tx_Amount tx)) (ConvertToFloat (tx_Tips tx)) (ConvertToFloat (tx_MaxFee tx))
    (u32 (tx_Size tx)) (tx_AccountNonce tx).

(** Go: core/holder/transaction/mempool_txs.go toTransactionSummaries *)
Definition toTransactionSummaries (txs : list Tx) : list TransactionSummary := toTransactionSummary <$> txs.

(** Go: core/holder/transaction/mempool_txs.go GetTransaction *)
Definition GetTransaction (pool : memPool) (hash : string) : option TransactionDetail :=
  toTransactionDetail <$> wrapper_get (HexToHash hash) (txsByHash pool).

(** Go: core/holder/transaction/mempool_txs.go GetTransactionRaw *)
Definition GetTransactionRaw (pool : memPool) (hash : string) : option bytes :=
  tx_Payload <$> wrapper_get (HexToHash hash) (txsByHash pool).

(** Go: core/holder/transaction/mempool_txs.go GetAddressTransactions *)
Definition GetAddressTransactions (order : gmap Hash Tx → list (Hash * Tx)) (pool : memPool)
    (address : string) (count : Z) : list TransactionSummary :=
  toTransactionSummaries (address_get order (HexToAddress address) count (txsByAddress pool)).

(** Go: core/holder/transaction/mempool_txs.go GetTransactions *)
Definition GetTransactions (order : gmap Hash Tx → list (Hash * Tx)) (pool : memPool) (count : Z)
    : list TransactionSummary :=
  toTransactionSummaries (all order count (txsByHash pool)).

(** Go: core/holder/transaction/mempool_txs.go GetTransactionsCount *)
Definition GetTransactionsCount (pool : memPool) : Z := Z.of_nat (wrapper_len (txsByHash pool)).
End operations.

(** ** What the pool answers *)

Section properties.
Context `{NodeLaws}.
Implicit Types (tx : Tx) (pool : memPool) (live : gmap Hash Tx) (a : Address).

Inductive PoolCall := CAdd (tx : Tx) | CRemove (tx : Tx).

Definition call_tx (c : PoolCall) : Tx := match c with CAdd tx | CRemove tx => tx end.
Definition pool_call pool (c : PoolCall) : memPool :=
  match c with CAdd tx => AddTransaction tx pool | CRemove tx => RemoveTransaction tx pool end.

(** The specification: the transactions that were added and not removed since. *)
Definition live_call live (c : PoolCall) : gmap Hash Tx :=
  match c with CAdd tx => <[tx_Hash tx := tx]> live | CRemove tx => delete (tx_Hash tx) live end.

(** The transactions of an address. *)
Definition involves a (e : Hash * Tx) : Prop := tx_Sender e.2 = a ∨ tx_To e.2 = Some a.
#[export] Instance involves_dec a e : Decision (involves a e).
Proof. unfold involves. apply _. Defined.
Definition of_address a live : gmap Hash Tx := filter (involves a) live.

(** The entry of an address: none when it has no transaction. *)
Definition entry (m : gmap Hash Tx) : option txsByHashWrapper :=
  if decide (m = ∅) then None else Some (mkTxsByHash m).

Record pool_inv pool live : Prop := {
  pi_hash : w_txsByHash (txsByHash pool) = live;
  pi_address a : w_txsByAddress (txsByAddress pool) !! a = entry (of_address a live)
}.

Lemma entry_default m : default newTxsByHashWrapper (entry m) = mkTxsByHash m.
Proof. unfold entry. case_decide as Hm; [by subst|done]. Qed.

Lemma entry_insert h tx m : entry (<[h := tx]> m) = Some (mkTxsByHash (<[h := tx]> m)).
Proof. unfold entry. by rewrite decide_False by apply insert_non_empty. Qed.

(** One address more or less. *)
Lemma addAddressTx_lookup b tx w (m : Address → gmap Hash Tx) :
  (∀ a, w_txsByAddress w !! a = entry (m a)) →
  ∀ a, w_txsByAddress (addAddressTx b tx w) !! a
       = entry (if decide (b = a) then <[tx_Hash tx := tx]> (m a) else m a).
Proof.
  intros Hw a. unfold addAddressTx. cbn. destruct (decide (b = a)) as [->|Hb].
  - by rewrite lookup_insert_eq, Hw, entry_default, entry_insert.
  - by rewrite lookup_insert_ne, Hw.
Qed.

Lemma removeByAddressAndHash_lookup b h w (m : Address → gmap Hash Tx) :
  (∀ a, w_txsByAddress w !! a = entry (m a)) →
  ∀ a, w_txsByAddress (removeByAddressAndHash b h w) !! a
       = entry (if decide (b = a) then delete h (m a) else m a).
Proof.
  intros Hw a. unfold removeByAddressAndHash. rewrite (Hw b). unfold entry at 1.
  destruct (decide (m b = ∅)) as [He|He].
  - rewrite Hw. destruct (decide (b = a)) as [->|Hb]; [|done]. by rewrite He, delete_empty.
  - cbn. unfold isEmpty, wrapper_len, entry. cbn.
    destruct (Nat.eqb_spec (size (delete h (m b))) 0) as [Hs|Hs].
    + apply map_size_empty_inv in Hs. destruct (decide (b = a)) as [->|Hb].
      * rewrite lookup_delete_eq. by rewrite decide_True.
      * by rewrite lookup_delete_ne, Hw.
    + destruct (decide (b = a)) as [->|Hb].
      * rewrite lookup_insert_eq, decide_False; [done|]. intros Hd. by rewrite Hd, map_size_empty in Hs.
      * by rewrite lookup_insert_ne, Hw.
Qed.

(** The transaction with a hash, if it is there, is the one that was given. *)
Definition coherent live tx : Prop := ∀ tx', live !! tx_Hash tx = Some tx' → tx' = tx.

Lemma of_address_insert a live tx :
  coherent live tx →
  of_address a (<[tx_Hash tx := tx]> live)
  = if decide (involves a (tx_Hash tx, tx)) then <[tx_Hash tx := tx]> (of_address a live) else of_address a live.
Proof.
  intros Hc. unfold of_address. rewrite map_filter_insert. case_decide as Hi; [done|].
  apply map_filter_delete_not. intros y Hy. by rewrite (Hc y Hy).
Qed.

Lemma of_address_delete a live tx :
  coherent live tx →
  of_address a (delete (tx_Hash tx) live)
  = if decide (involves a (tx_Hash tx, tx)) then delete (tx_Hash tx) (of_address a live) else of_address a live.
Proof.
  intros Hc. unfold of_address. case_decide as Hi; [apply map_filter_delete|].
  apply map_filter_delete_not. intros y Hy. by rewrite (Hc y Hy).
Qed.

Lemma involved_twice {A} a tx (f : A → A) x :
  (f (f x) = f x) →
  (match tx_To tx with
   | Some to => if decide (to = a) then f (if decide (tx_Sender tx = a) then f x else x)
                else (if decide (tx_Sender tx = a) then f x else x)
   | None => if decide (tx_Sender tx = a) then f x else x
   end) = if decide (involves a (tx_Hash tx, tx)) then f x else x.
Proof.
  intros Hf. destruct (decide (involves a (tx_Hash tx, tx))) as [Hi|Hi]; unfold involves in Hi; cbn in Hi;
    destruct (tx_To tx) as [to|]; repeat case_decide; naive_solver.
Qed.

Lemma pool_step pool live c :
  coherent live (call_tx c) → pool_inv pool live → pool_inv (pool_call pool c) (live_call live c).
Proof.
  intros Hc [Hh Ha]. destruct c as [tx|tx]; cbn [call_tx pool_call live_call] in *.
  - split; [cbn; by rewrite Hh|]. intros a. rewrite of_address_insert by done.
    rewrite <- (involved_twice a tx (insert (tx_Hash tx) tx)) by by rewrite insert_insert_eq.
    unfold AddTransaction, addTx, address_add. cbn.
    pose proof (addAddressTx_lookup (tx_Sender tx) tx _ _ Ha) as H1.
    destruct (tx_To tx) as [to|]; [|apply H1].
    by rewrite (addAddressTx_lookup to tx _ _ H1).
  - unfold RemoveTransaction, removeTx, contains. rewrite Hh.
    destruct (live !! tx_Hash tx) as [tx'|] eqn:Hl.
    + rewrite bool_decide_true by by eexists. cbn [negb].
      split; [cbn; by rewrite Hh|]. intros a. rewrite of_address_delete by done.
      rewrite <- (involved_twice a tx (delete (tx_Hash tx))) by by rewrite delete_delete_eq.
      unfold address_remove. cbn.
      pose proof (removeByAddressAndHash_lookup (tx_Sender tx) (tx_Hash tx) _ _ Ha) as H1.
      destruct (tx_To tx) as [to|]; [|apply H1].
      by rewrite (removeByAddressAndHash_lookup to (tx_Hash tx) _ _ H1).
    + rewrite bool_decide_false by (by intros [? ?]). cbn [negb]. by rewrite delete_id.
Qed.

(** The hash of a transaction determines it. *)
Definition hashes_determine (calls : list PoolCall) : Prop :=
  ∀ c c', c ∈ calls → c' ∈ calls → tx_Hash (call_tx c) = tx_Hash (call_tx c') → call_tx c = call_tx c'.

Lemma live_from_calls calls h tx :
  foldl live_call ∅ calls !! h = Some tx → tx_Hash tx = h ∧ ∃ c, c ∈ calls ∧ call_tx c = tx.
Proof.
  induction calls as [|c calls IH] using rev_ind; [done|]. rewrite foldl_snoc.
  assert (foldl live_call ∅ calls !! h = Some tx → tx_Hash tx = h ∧ ∃ c', c' ∈ calls ++ [c] ∧ call_tx c' = tx) as IH'.
  { intros Hl. destruct (IH Hl) as (? & c' & ? & ?). split; [done|]. exists c'. split; [|done]. apply elem_of_app. by left. }
  destruct c as [tx'|tx']; cbn [live_call].
  - intros [[<- <-]|[_ Hl]]%lookup_insert_Some; [|by apply IH'].
    split; [done|]. exists (CAdd tx'). split; [|done]. apply elem_of_app. right. by left.
  - intros [_ Hl]%lookup_delete_Some. by apply IH'.
Qed.

Lemma pool_follows calls :
  hashes_determine calls → pool_inv (foldl pool_call NewMemPool calls) (foldl live_call ∅ calls).
Proof.
  induction calls as [|c calls IH] using rev_ind; intros Hd.
  - split; [done|]. intros a. cbn. rewrite lookup_empty. unfold entry, of_address.
    by rewrite map_filter_empty, decide_True.
  - rewrite !foldl_snoc. apply pool_step.
    + intros tx' Hl. apply live_from_calls in Hl as (Hh & c' & Hin & <-).
      symmetry. apply (Hd c c'); [apply elem_of_app; right; by left|apply elem_of_app; by left|done].
    + apply IH. intros x y Hx Hy. apply Hd; apply elem_of_app; by left.
Qed.

(** What a query that is limited to [count] lists of [m]: transactions of [m], none
    twice, as many as there are up to the limit. *)
Definition lists (m : gmap Hash Tx) (count : Z) (r : list TransactionSummary) : Prop :=
  ∃ txs : list (Hash * Tx), r = toTransactionSummary ∘ snd <$> txs ∧
    txs ⊆+ map_to_list m ∧ Z.of_nat (length txs) = Z.min (Z.max count 0) (Z.of_nat (size m)).

Lemma all_lists order (m : gmap Hash Tx) count :
  (∀ m, ranges m (order m)) → (count < 2 ^ 63)%Z →
  lists m count (toTransactionSummaries (all order count (mkTxsByHash m))).
Proof.
  intros Hord Hc. unfold all, lists, toTransactionSummaries, wrapper_len. cbn.
  destruct (Z.leb_spec count 0) as [Hl|Hl].
  { exists []. split; [done|]. split; [apply submseteq_nil_l|]. cbn. lia. }
  rewrite uwrap_small by lia. set (n := Z.to_nat (Z.min count (Z.of_nat (size m)))).
  exists (take n (order m)). split_and!.
  - rewrite list_fmap_compose. destruct (Nat.eqb_spec n 0) as [->|_]; [done|]. by rewrite !fmap_take.
  - pose proof (Hord m) as Hm. unfold ranges in Hm. rewrite <- Hm.
    apply sublist_submseteq, sublist_take.
  - rewrite length_take, (Hord m), length_map_to_list. unfold n. lia.
Qed.

(** The pool follows the transactions that were added and not removed since: it
    answers for a hash exactly these, counts them, lists them and those of an address -
    as sender or as recipient - up to the limit of the query and none twice, and keeps
    nothing for an address without any; provided that a hash determines its
    transaction. *)
Theorem pool_answers calls order :
  hashes_determine calls → (∀ m, ranges m (order m)) →
  let pool := foldl pool_call NewMemPool calls in
  let live := foldl live_call ∅ calls in
  (∀ h, wrapper_get h (txsByHash pool) = live !! h) ∧
  GetTransactionsCount pool = Z.of_nat (size live) ∧
  (∀ count, count < 2 ^ 63 → lists live count (GetTransactions order pool count))%Z ∧
  (∀ a count, count < 2 ^ 63 →
     lists (of_address a live) count (GetAddressTransactions order pool (address_Hex a) count))%Z ∧
  (∀ a, w_txsByAddress (txsByAddress pool) !! a = None ↔ of_address a live = ∅).
Proof.
  intros Hd Hord. cbn zeta. destruct (pool_follows calls Hd) as [Hh Ha].
  set (pool := foldl pool_call _ _) in *. set (live := foldl live_call _ _) in *.
  unfold wrapper_get, GetTransactionsCount, wrapper_len, GetTransactions, GetAddressTransactions, address_get.
  split_and!.
  - intros h. by rewrite Hh.
  - by rewrite Hh.
  - intros count Hc. destruct (txsByHash pool) as [m]. cbn in Hh. subst m. by apply all_lists.
  - intros a count Hc. rewrite HexToAddress_Hex, Ha. unfold entry. case_decide as He; [|by apply all_lists].
    rewrite He. exists []. split; [done|]. split; [apply submseteq_nil_l|]. rewrite map_size_empty. cbn. lia.
  - intros a. rewrite Ha. unfold entry. by case_decide.
Qed.
End properties.

(** Two transactions come, one of them leaves. *)
Definition sample_sent : Tx :=
  sample_tx <| tx_Hash := mkHash 2 |> <| tx_Sender := mkAddress 2 |> <| tx_To := Some (mkAddress 1) |>.
Definition sample_calls : list PoolCall := [CAdd sample_tx; CAdd sample_sent; CRemove sample_tx].

Lemma pool_answers_witness :
  hashes_determine sample_calls ∧
  let pool := foldl pool_call NewMemPool sample_calls in
  let live := foldl live_call ∅ sample_calls in
  GetTransactionsCount pool = 1%Z ∧
  ts_From <$> GetAddressTransactions map_to_list pool (address_Hex (mkAddress 1)) 10 = [address_Hex (mkAddress 2)] ∧
  (∀ h, wrapper_get h (txsByHash pool) = live !! h) ∧
  GetTransactionsCount pool = Z.of_nat (size live) ∧
  (∀ count, count < 2 ^ 63 → lists live count (GetTransactions map_to_list pool count))%Z ∧
  (∀ a count, count < 2 ^ 63 →
     lists (of_address a live) count (GetAddressTransactions map_to_list pool (address_Hex a) count))%Z ∧
  (∀ a, w_txsByAddress (txsByAddress pool) !! a = None ↔ of_address a live = ∅).
Proof.
  assert (hashes_determine sample_calls) as Hd.
  { intros c c' Hc Hc'. unfold sample_calls in *. rewrite !elem_of_cons in Hc, Hc'.
    destruct Hc as [->|[->|[->|Hc]]], Hc' as [->|[->|[->|Hc']]]; cbn; intros [=]; try done;
      by first [apply not_elem_of_nil in Hc|apply not_elem_of_nil in Hc']. }
  split; [done|]. cbn zeta. split; [by vm_compute|]. split; [by vm_compute|].
  apply (pool_answers sample_calls map_to_list); [done|]. intros m. apply ranges_canonical.
Defined.
