(* ===== verification/ContractsPool.v ===== *)
(** * The pool of contract transactions

    core/mempool/contracts_pool.go runs the pending transactions of contracts on the state
    of the head, with a collector of its own, to list the oracle votings they would
    deploy and the transactions sent to each contract.  Pending transactions come
    through a channel and are processed by a goroutine; those that leave the pool of the
    node are removed at once. *)

From S2P Require Import Prelude Node ContractTypes Coins Rewards BalanceUpdates Tokens ContractTx.
From S2P Require Import Transactions.

(** ** Data *)

(** Go: core/mempool/contracts_pool.go addressContractTxs

    The [sync.Map] of a contract is reached through this map only. *)
Record addressContractTxs `{NodeApi} := mkAddressContractTxs {
  txsByAddressAndContract : gmap string (gmap string (gmap string Transaction));
  contractAddressesByTxHash : gmap string string
}.

(** Go: core/mempool/contracts_pool.go contractsImpl:46-62

    [txChan] is the content of the channel. *)
Record contractsImpl `{NodeApi} := mkContractsImpl {
  txChan : list Tx;
  oracleVotingDeploys : gmap Address (gmap Hash OracleVotingContract);
  addressContractTxs_ : addressContractTxs
}.

(** The state of the head ([None]: an error), and the virtual machine, which calls the
    collector. *)
Class PoolNode `{NodeApi} := {
  readonlyAppState : option AppState;
  vm_Run : Tx → AppState → M Ct TxReceipt;
  (** the orders in which the collector ranges over its maps *)
  pool_identity_order : gmap Address identityInfo → list (Address * identityInfo);
  pool_wasm_order : gmap Address bytes → list (Address * bytes)
}.

(** ** Operations *)

Section operations.
Context `{NodeApi, TokenContractHolder, !PoolNode}.

(** Go: core/mempool/contracts_pool.go newAddressContractTxs *)
Definition newAddressContractTxs : addressContractTxs := mkAddressContractTxs _ ∅ ∅.

(** Go: core/mempool/contracts_pool.go addressContractTxs.add *)
Definition txs_add (tx : Transaction) (contractAddress : string) (t : addressContractTxs)
    : addressContractTxs :=
  let txHashKey := ToLower (t_Hash tx) in
  let txAddressKey := ToLower (t_From tx) in
  let contractAddressKey := ToLower contractAddress in
  let txsByContract := default ∅ (txsByAddressAndContract t !! txAddressKey) in
  let txs := default ∅ (txsByContract !! contractAddressKey) in
  t <| contractAddressesByTxHash ::= insert txHashKey contractAddress |>
    <| txsByAddressAndContract ::=
         insert txAddressKey (<[contractAddressKey := <[t_Hash tx := tx]> txs]> txsByContract) |>.

(** Go: core/mempool/contracts_pool.go addressContractTxs.remove *)
Definition txs_remove (txHash sender : string) (t : addressContractTxs) : addressContractTxs :=
  let txHashKey := ToLower txHash in
  let txAddressKey := ToLower sender in
  match contractAddressesByTxHash t !! txHashKey with
  | None => t
  | Some contractAddress =>
      let contractAddressKey := ToLower contractAddress in
      let t := t <| contractAddressesByTxHash ::= delete txHashKey |> in
      match txsByAddressAndContract t !! txAddressKey with
      | None => t
      | Some txsByContract =>
          match txsByContract !! contractAddressKey with
          | None => t
          | Some txs =>
              let txs := delete txHashKey txs in
              let txsByContract := if decide (txs = ∅) then delete contractAddressKey txsByContract
                                   else <[contractAddressKey := txs]> txsByContract in
              t <| txsByAddressAndContract ::=
                     if decide (txsByContract = ∅) then delete txAddressKey
                     else insert txAddressKey txsByContract |>
          end
      end
  end.

(** Go: core/mempool/contracts_pool.go addressContractTxs.get

    [order] is the order in which the map of a contract is ranged over. *)
Definition txs_get (order : gmap string Transaction → list (string * Transaction))
    (address contractAddress : string) (t : addressContractTxs) : list Transaction :=
  match txsByAddressAndContract t !! ToLower address with
  | None => []
  | Some txsByContract =>
      match txsByContract !! ToLower contractAddress with
      | None => []
      | Some txs => snd <$> order txs
      end
  end.

(** Go: core/mempool/contracts_pool.go getOrCreateAuthorContracts *)
Definition getOrCreateAuthorContracts (address : Address) (c : contractsImpl) : gmap Hash OracleVotingContract :=
  default ∅ (oracleVotingDeploys c !! address).

(** Go: core/mempool/contracts_pool.go applyTxSentToContract *)
Definition applyTxSentToContract (tx : Tx) (contractAddress : Address) (c : contractsImpl) : contractsImpl :=
  c <| addressContractTxs_ ::= txs_add {|
         t_Hash := hash_Hex (tx_Hash tx); t_Type := tx_Type tx; t_From := address_Hex (tx_Sender tx);
         t_To := match tx_To tx with Some to => address_Hex to | None => EmptyString end;
         t_Amount := ConvertToFloat (tx_Amount tx); t_Tips := ConvertToFloat (tx_Tips tx);
         t_MaxFee := ConvertToFloat (tx_MaxFee tx); t_Fee := Decimal_of_int 0; t_Size := 0;
         t_Raw := EmptyString; t_Nonce := tx_AccountNonce tx; t_UsedGas := 0; t_Data := None |}
         (address_Hex contractAddress) |>.

(** Go: core/mempool/contracts_pool.go applyContractTx *)
Definition applyContractTx (tx : Tx) (txReceipt : TxReceipt) (c : contractsImpl) : contractsImpl :=
  if negb (rc_Success txReceipt) then c else applyTxSentToContract tx (rc_ContractAddress txReceipt) c.

(** Go: core/mempool/contracts_pool.go applyDeployTx

    What the collector holds after the receipt; the first oracle voting is kept. *)
Definition applyDeployTx (txHash : Hash) (txReceipt : TxReceipt) (collectedStats : TxStats)
    (c : contractsImpl) : contractsImpl :=
  match ts_OracleVotingContracts collectedStats with
  | [] => c
  | statsDeploy :: _ =>
      let author := rc_From txReceipt in
      c <| oracleVotingDeploys ::= insert author (<[txHash := statsDeploy]> (getOrCreateAuthorContracts author c)) |>
  end.

(** Go: core/mempool/contracts_pool.go processContractTx

    The collector of the pool begins anew ([EnableCollecting]) and is emptied after the
    transaction. *)
Definition processContractTx (tx : Tx) (c : contractsImpl) : outcome contractsImpl :=
  match readonlyAppState with
  | None => Done c
  | Some appState =>
      let run : M Ct TxReceipt :=
        BeginApplyingTx tx appState;;
        txReceipt ← vm_Run tx appState;
        AddTxReceipt pool_identity_order pool_wasm_order txReceipt appState;;
        mret txReceipt in
      match run emptyCt with
      | Panic => Panic
      | Done (txReceipt, st) =>
          let c := applyContractTx tx txReceipt (applyDeployTx (tx_Hash tx) txReceipt (ct_stats st) c) in
          match CompleteApplyingTx appState st with Panic => Panic | Done _ => Done c end
      end
  end.

(** Go: core/mempool/contracts_pool.go processTx *)
Definition processTx (tx : Tx) (c : contractsImpl) : outcome contractsImpl :=
  if isContractTx tx then processContractTx tx c else
  match tx_To tx with
  | None => Done c
  | Some to =>
      match readonlyAppState with
      | None => Done c
      | Some appState =>
          Done (if isContractAddress to appState then applyTxSentToContract tx to c else c)
      end
  end.

(** Go: core/mempool/contracts_pool.go NewContracts:36-36

    The capacity of the channel. *)
Definition txChan_size : Z := 10000.

(** Go: core/mempool/contracts_pool.go ProcessTx

    A transaction is refused when the channel is full. *)
Definition ProcessTx (tx : Tx) (c : contractsImpl) : contractsImpl * option string :=
  if (Z.of_nat (length (txChan c)) <? txChan_size)%Z then (c <| txChan ::= λ l, l ++ [tx] |>, None)
  else (c, Some "tx chan size limit reached"%string).

(** Go: core/mempool/contracts_pool.go startListening

    One turn of the loop, when the channel is not empty. *)
Definition listen (c : contractsImpl) : outcome contractsImpl :=
  match txChan c with
  | [] => Done c
  | tx :: rest => processTx tx (c <| txChan := rest |>)
  end.

(** Go: core/mempool/contracts_pool.go removeDeployTx *)
Definition removeDeployTx (tx : Tx) (c : contractsImpl) : contractsImpl :=
  if negb (bool_decide (tx_Type tx = DeployContractTx)) then c else
  let sender := tx_Sender tx in
  match oracleVotingDeploys c !! sender with
  | None => c
  | Some txs =>
      let txs := delete (tx_Hash tx) txs in
      c <| oracleVotingDeploys ::= if decide (txs = ∅) then delete sender else insert sender txs |>
  end.

(** Go: core/mempool/contracts_pool.go removeAddressContractTx *)
Definition removeAddressContractTx (tx : Tx) (c : contractsImpl) : contractsImpl :=
  if negb (isContractTx tx) && bool_decide (tx_To tx = None) then c else
  c <| addressContractTxs_ ::= txs_remove (hash_Hex (tx_Hash tx)) (address_Hex (tx_Sender tx)) |>.

(** Go: core/mempool/contracts_pool.go RemoveTx *)
Definition RemoveTx (tx : Tx) (c : contractsImpl) : contractsImpl :=
  removeAddressContractTx tx (removeDeployTx tx c).

(** Go: core/mempool/contracts_pool.go GetAddressContractTxs *)
Definition GetAddressContractTxs (order : gmap string Transaction → list (string * Transaction))
    (address contractAddress : string) (c : contractsImpl) : list Transaction :=
  txs_get order address contractAddress (addressContractTxs_ c).

(** Go: core/mempool/contracts_pool.go GetOracleVotingContractDeploys *)
Definition GetOracleVotingContractDeploys
    (order : gmap Hash OracleVotingContract → list (Hash * OracleVotingContract))
    (author : Address) (c : contractsImpl) : list OracleVotingContract :=
  match oracleVotingDeploys c !! author with None => [] | Some deploys => snd <$> order deploys end.

(** Go: core/mempool/contracts_pool.go NewContracts *)
Definition NewContracts : contractsImpl := mkContractsImpl _ [] ∅ newAddressContractTxs.
End operations.

(** ** The transactions of a contract *)

Section contract_txs.
Context `{NodeApi}.
Implicit Types (t : addressContractTxs) (h s c : string) (row : Transaction).

Inductive TxsCall :=
  | CallAdd (row : Transaction) (contractAddress : string)
  | CallRemove (txHash sender : string).

Definition txs_call t (k : TxsCall) : addressContractTxs :=
  match k with CallAdd row c => txs_add row c t | CallRemove h s => txs_remove h s t end.

(** The specification: the rows that were added and not removed since, with the sender
    and the contract, by hash. *)
Definition rows_call (live : gmap string (string * string * Transaction)) (k : TxsCall)
    : gmap string (string * string * Transaction) :=
  match k with
  | CallAdd row c => <[t_Hash row := (ToLower (t_From row), ToLower c, row)]> live
  | CallRemove h _ => delete h live
  end.

(** The calls agree on the sender and the contract of a transaction, and hashes are in
    lower case, as [Hash.Hex] writes them. *)
Definition coherent_calls (sender contract : string → string) (calls : list TxsCall) : Prop :=
  Forall (λ k, match k with
    | CallAdd row c => ToLower (t_Hash row) = t_Hash row ∧ ToLower (t_From row) = sender (t_Hash row) ∧
                       ToLower c = contract (t_Hash row)
    | CallRemove h s => ToLower h = h ∧ ToLower s = sender h
    end) calls.

Definition row_at t s c h : option Transaction :=
  m ← txsByAddressAndContract t !! s; txs ← m !! c; txs !! h.

Record txs_inv (sender contract : string → string) t (live : gmap string (string * string * Transaction)) : Prop := {
  ti_contract h : ToLower <$> contractAddressesByTxHash t !! h = (λ e, e.1.2) <$> live !! h;
  ti_rows s c h : row_at t s c h = e ← live !! h; if decide (e.1 = (s, c)) then Some e.2 else None;
  ti_place h e : live !! h = Some e → e.1 = (sender h, contract h);
  ti_contracts s m : txsByAddressAndContract t !! s = Some m → m ≠ ∅;
  ti_txs s m c txs : txsByAddressAndContract t !! s = Some m → m !! c = Some txs → txs ≠ ∅
}.

Lemma row_add row k t s c h :
  row_at (txs_add row k t) s c h
  = if decide (ToLower (t_From row) = s ∧ ToLower k = c ∧ t_Hash row = h) then Some row else row_at t s c h.
Proof.
  unfold row_at, txs_add. cbn. destruct (decide (ToLower (t_From row) = s)) as [<-|Hs].
  - rewrite lookup_insert_eq. cbn [mbind option_bind].
    destruct (decide (ToLower k = c)) as [<-|Hc].
    + rewrite lookup_insert_eq. cbn [mbind option_bind]. destruct (decide (t_Hash row = h)) as [<-|Hh].
      * by rewrite lookup_insert_eq, decide_True.
      * rewrite lookup_insert_ne, decide_False by naive_solver.
        destruct (txsByAddressAndContract t !! _) as [m|]; cbn [from_option id mbind option_bind]; [|done].
        by destruct (m !! _).
    + rewrite lookup_insert_ne, decide_False by naive_solver.
      destruct (txsByAddressAndContract t !! _) as [m|]; cbn [from_option id mbind option_bind]; [done|].
      by rewrite lookup_empty.
  - rewrite lookup_insert_ne, decide_False by naive_solver. done.
Qed.

(** A row that is there is removed, and no other. *)
Lemma row_remove h s k t s' c' h' :
  contractAddressesByTxHash t !! ToLower h = Some k →
  row_at (txs_remove h s t) s' c' h'
  = if decide (ToLower s = s' ∧ ToLower k = c' ∧ ToLower h = h') then None else row_at t s' c' h'.
Proof.
  intros Hk. unfold txs_remove, row_at. rewrite Hk.
  change (txsByAddressAndContract (t <| contractAddressesByTxHash ::= delete (ToLower h) |>))
    with (txsByAddressAndContract t).
  destruct (txsByAddressAndContract t !! ToLower s) as [m|] eqn:Hm.
  2:{ case_decide as Hd; [|done]. destruct Hd as (<- & _ & _). cbn. by rewrite Hm. }
  destruct (m !! ToLower k) as [txs|] eqn:Ht.
  2:{ case_decide as Hd; [|done]. destruct Hd as (<- & <- & _). cbn. rewrite Hm. cbn. by rewrite Ht. }
  cbn [txsByAddressAndContract modify_field].
  set (txs' := delete (ToLower h) txs). set (m' := if decide (txs' = ∅) then _ else _).
  assert (∀ c, (x ← m' !! c; x !! h') = if decide (ToLower k = c ∧ ToLower h = h') then None
                                        else (x ← m !! c; x !! h')) as Hm'.
  { intros c. unfold m'. destruct (decide (ToLower k = c)) as [<-|Hc].
    - rewrite Ht. cbn [mbind option_bind]. destruct (decide (txs' = ∅)) as [He|He].
      + rewrite lookup_delete_eq. cbn [mbind option_bind]. case_decide as Hd; [done|].
        apply (f_equal (lookup h')) in He. unfold txs' in He. rewrite lookup_empty in He.
        rewrite lookup_delete_ne in He by naive_solver. by rewrite He.
      + rewrite lookup_insert_eq. cbn [mbind option_bind]. unfold txs'.
        destruct (decide (ToLower h = h')) as [<-|Hh].
        * by rewrite lookup_delete_eq, decide_True.
        * by rewrite lookup_delete_ne, decide_False by naive_solver.
    - rewrite (decide_False (P := _ ∧ _)) by naive_solver.
      destruct (decide (txs' = ∅)); [by rewrite lookup_delete_ne|by rewrite lookup_insert_ne]. }
  destruct (decide (ToLower s = s')) as [<-|Hs].
  - rewrite Hm. cbn [mbind option_bind]. destruct (decide (m' = ∅)) as [He|He].
    + rewrite lookup_delete_eq. cbn [mbind option_bind]. specialize (Hm' c'). rewrite He, lookup_empty in Hm'.
      cbn [mbind option_bind] in Hm'. rewrite Hm'. repeat case_decide; naive_solver.
    + rewrite lookup_insert_eq. cbn [mbind option_bind]. rewrite Hm'. repeat case_decide; naive_solver.
  - rewrite (decide_False (P := _ ∧ _)) by naive_solver.
    destruct (decide (m' = ∅)); [by rewrite lookup_delete_ne|by rewrite lookup_insert_ne].
Qed.

(** No map is left empty. *)
Definition no_empty t : Prop :=
  (∀ s m, txsByAddressAndContract t !! s = Some m → m ≠ ∅) ∧
  (∀ s m c txs, txsByAddressAndContract t !! s = Some m → m !! c = Some txs → txs ≠ ∅).

Lemma no_empty_add row k t : no_empty t → no_empty (txs_add row k t).
Proof.
  intros [H1 H2]. unfold txs_add. split; cbn.
  - intros s m [[_ <-]|[_ Hm]]%lookup_insert_Some; [apply insert_non_empty|by apply (H1 s)].
  - intros s m c txs [[_ <-]|[_ Hm]]%lookup_insert_Some; [|by apply (H2 s m c)].
    intros [[_ <-]|[_ Hc]]%lookup_insert_Some; [apply insert_non_empty|].
    destruct (txsByAddressAndContract t !! _) as [m|] eqn:Hm; cbn in Hc; [by apply (H2 (ToLower (t_From row)) m c)|by rewrite lookup_empty in Hc].
Qed.

Lemma no_empty_remove h s t : no_empty t → no_empty (txs_remove h s t).
Proof.
  intros [H1 H2]. unfold txs_remove. destruct (contractAddressesByTxHash t !! _) as [k|]; [|done].
  change (txsByAddressAndContract (t <| contractAddressesByTxHash ::= delete (ToLower h) |>))
    with (txsByAddressAndContract t).
  destruct (txsByAddressAndContract t !! ToLower s) as [m|] eqn:Hm; [|done].
  destruct (m !! ToLower k) as [txs|] eqn:Ht; [|done].
  set (txs' := delete (ToLower h) txs). set (m' := if decide (txs' = ∅) then _ else _).
  assert (∀ c x, m' !! c = Some x → x ≠ ∅) as Hm'.
  { intros c x. unfold m'. destruct (decide (txs' = ∅)) as [He|He].
    - intros [_ Hc]%lookup_delete_Some. by apply (H2 (ToLower s) m c).
    - intros [[_ <-]|[_ Hc]]%lookup_insert_Some; [done|by apply (H2 (ToLower s) m c)]. }
  split; cbn; destruct (decide (m' = ∅)) as [He|He].
  - intros s' x [_ Hx]%lookup_delete_Some. by apply (H1 s').
  - intros s' x [[_ <-]|[_ Hx]]%lookup_insert_Some; [done|by apply (H1 s')].
  - intros s' x c y [_ Hx]%lookup_delete_Some. by apply (H2 s').
  - intros s' x c y [[_ <-]|[_ Hx]]%lookup_insert_Some; [by apply Hm'|by apply (H2 s')].
Qed.

Lemma txs_step sender contract t live k :
  coherent_calls sender contract [k] → txs_inv sender contract t live →
  txs_inv sender contract (txs_call t k) (rows_call live k).
Proof.
  intros Hc [Hk Hr Hp H1 H2]. unfold coherent_calls in Hc. rewrite list.Forall_singleton in Hc.
  destruct k as [row k|h s]; cbn [txs_call rows_call]; cbn beta iota in Hc.
  - destruct Hc as (Hh & Hs & Hk').
    destruct (no_empty_add row k t (conj H1 H2)) as [H1' H2']. split; [..|exact H1'|exact H2'].
    + intros h. unfold txs_add. cbn. rewrite Hh. destruct (decide (t_Hash row = h)) as [<-|Hne].
      * by rewrite !lookup_insert_eq.
      * by rewrite !lookup_insert_ne, Hk.
    + intros s c h. rewrite row_add. destruct (decide (t_Hash row = h)) as [<-|Hne].
      * rewrite lookup_insert_eq. cbn [mbind option_bind fst snd].
        destruct (decide ((ToLower (t_From row), ToLower k) = (s, c))) as [[= <- <-]|Hsc]; [by rewrite decide_True|].
        rewrite decide_False by naive_solver. rewrite Hr.
        destruct (live !! t_Hash row) as [e|] eqn:He; [|done]. cbn [mbind option_bind].
        rewrite (Hp _ _ He), <- Hs, <- Hk'. by rewrite decide_False.
      * rewrite lookup_insert_ne, decide_False by naive_solver. apply Hr.
    + intros h e [[<- <-]|[_ He]]%lookup_insert_Some; [cbn; by rewrite Hs, Hk'|by apply Hp].
  - destruct Hc as (Hh & Hs).
    destruct (no_empty_remove h s t (conj H1 H2)) as [H1' H2']. specialize (Hk h) as Hkh.
    destruct (contractAddressesByTxHash t !! h) as [k|] eqn:Ek.
    + destruct (live !! h) as [e|] eqn:He; [|done]. cbn in Hkh. injection Hkh as Hkh.
      specialize (Hp _ _ He) as Hpe. rewrite Hpe in Hkh. cbn in Hkh. split; [..|exact H1'|exact H2'].
      * intros h'. assert (contractAddressesByTxHash (txs_remove h s t) = delete h (contractAddressesByTxHash t)) as ->.
        { unfold txs_remove. rewrite Hh, Ek. cbn. by repeat case_match. }
        destruct (decide (h = h')) as [<-|Hne]; [by rewrite !lookup_delete_eq|by rewrite !lookup_delete_ne, Hk].
      * intros s' c h'. rewrite (row_remove h s k) by by rewrite Hh. rewrite Hh, Hs, Hkh.
        destruct (decide (h = h')) as [<-|Hne].
        -- rewrite lookup_delete_eq. cbn [mbind option_bind]. case_decide as Hd; [done|].
           rewrite Hr, He. cbn [mbind option_bind]. rewrite Hpe, decide_False by naive_solver. done.
        -- rewrite lookup_delete_ne, decide_False by naive_solver. apply Hr.
      * intros h' e' [_ He']%lookup_delete_Some. by apply Hp.
    + assert (txs_remove h s t = t) as -> by (unfold txs_remove; by rewrite Hh, Ek).
      destruct (live !! h) eqn:He; [done|]. by rewrite delete_id.
Qed.

Lemma txs_follow sender contract calls :
  coherent_calls sender contract calls →
  txs_inv sender contract (foldl txs_call newAddressContractTxs calls) (foldl rows_call ∅ calls).
Proof.
  induction calls as [|k calls IH] using rev_ind; intros Hc.
  - by split.
  - apply list.Forall_app in Hc as [Hc Hk]. rewrite !foldl_snoc. apply txs_step; [done|by apply IH].
Qed.

(** [C18]  The transactions listed for an address and a contract are those of the address
    that were sent to the contract and not removed since, each once; and nothing is kept
    when no transaction is left.  The hash of a transaction determines its sender and
    its contract. *)
Theorem contract_txs_follow sender contract calls order address contractAddress :
  coherent_calls sender contract calls → (∀ m, ranges m (order m)) →
  let t := foldl txs_call newAddressContractTxs calls in
  let live := foldl rows_call ∅ calls in
  (∃ l, txs_get order address contractAddress t = l.*2 ∧ NoDup l.*1 ∧
     ∀ h row, (h, row) ∈ l ↔ live !! h = Some (ToLower address, ToLower contractAddress, row)) ∧
  (live = ∅ → t = newAddressContractTxs).
Proof.
  intros Hc Hord. cbn zeta. destruct (txs_follow sender contract calls Hc) as [Hk Hr Hp H1 H2].
  set (t := foldl txs_call _ _) in *. set (live := foldl rows_call _ _) in *. split.
  - unfold txs_get.
    assert (∀ txs, txs = default ∅ (m ← txsByAddressAndContract t !! ToLower address; m !! ToLower contractAddress) →
      ∀ h row, (h, row) ∈ order txs ↔ live !! h = Some (ToLower address, ToLower contractAddress, row)) as Hin.
    { intros txs Htxs h row. rewrite (ranges_elem _ _ _ _ (Hord txs)).
      specialize (Hr (ToLower address) (ToLower contractAddress) h). unfold row_at in Hr.
      assert (txs !! h = e ← live !! h; if decide (e.1 = (ToLower address, ToLower contractAddress)) then Some e.2 else None) as ->.
      { rewrite <- Hr, Htxs. destruct (txsByAddressAndContract t !! _) as [m|]; cbn [mbind option_bind from_option id].
        - destruct (m !! _); cbn [mbind option_bind from_option id]; [done|apply lookup_empty].
        - apply lookup_empty. }
      destruct (live !! h) as [[[s c] r]|]; cbn [mbind option_bind fst snd]; [|done].
      case_decide; naive_solver. }
    exists (order (default ∅ (m ← txsByAddressAndContract t !! ToLower address; m !! ToLower contractAddress))).
    split_and!; [|by eapply ranges_NoDup|by apply Hin].
    destruct (txsByAddressAndContract t !! _) as [m|]; cbn [mbind option_bind].
    + destruct (m !! _); [done|]. cbn. specialize (Hord ∅). unfold ranges in Hord.
      rewrite map_to_list_empty in Hord. by apply Permutation_nil_r in Hord as ->.
    + cbn. specialize (Hord ∅). unfold ranges in Hord.
      rewrite map_to_list_empty in Hord. by apply Permutation_nil_r in Hord as ->.
  - intros He.
    assert (contractAddressesByTxHash t = ∅) as Hb.
    { apply map_empty. intros h. specialize (Hk h). rewrite He, lookup_empty in Hk.
      by destruct (contractAddressesByTxHash t !! h). }
    assert (txsByAddressAndContract t = ∅) as Ha.
    { apply map_empty. intros s. destruct (txsByAddressAndContract t !! s) as [m|] eqn:Hm; [exfalso|done].
      apply (H1 s m Hm), map_empty. intros c. destruct (m !! c) as [txs|] eqn:Ht; [exfalso|done].
      apply (H2 s m c txs Hm Ht), map_empty. intros h. specialize (Hr s c h). unfold row_at in Hr.
      rewrite Hm, He, lookup_empty in Hr. cbn [mbind option_bind] in Hr. rewrite Ht in Hr. done. }
    unfold newAddressContractTxs. rewrite <- Ha at 1. rewrite <- Hb. by destruct t.
Qed.
End contract_txs.

(** ** A transaction that leaves too early *)

Section early.
Context `{NodeLaws, TokenContractHolder, !PoolNode}.

(** A transaction sent to a contract that leaves the pool of the node while it still
    waits in the channel is not removed: it is listed after it is processed. *)
Theorem removed_too_early_stays tx to appState order (c : contractsImpl) :
  txChan c = [] → isContractTx tx = false → tx_To tx = Some to →
  readonlyAppState = Some appState → isContractAddress to appState = true →
  contractAddressesByTxHash (addressContractTxs_ c) !! ToLower (hash_Hex (tx_Hash tx)) = None →
  (∀ m, ranges m (order m)) →
  ∃ c' row, listen (RemoveTx tx (ProcessTx tx c).1) = Done c' ∧ txChan c' = [] ∧
    t_Hash row = hash_Hex (tx_Hash tx) ∧
    row ∈ GetAddressContractTxs order (address_Hex (tx_Sender tx)) (address_Hex to) c'.
Proof.
  intros Hch Hct Hto Hst Hca Hnew Hord.
  assert (bool_decide (tx_Type tx = DeployContractTx) = false) as Hdeploy.
  { unfold isContractTx in Hct. by apply orb_false_iff in Hct as [[? _]%orb_false_iff _]. }
  assert (RemoveTx tx (ProcessTx tx c).1 = c <| txChan := [tx] |>) as ->.
  { unfold ProcessTx. rewrite Hch.
    change (Z.of_nat (length (@nil Tx)) <? txChan_size)%Z with true. cbv iota. cbn [fst].
    unfold RemoveTx, removeDeployTx, removeAddressContractTx. rewrite Hdeploy, Hct. cbn [negb andb].
    rewrite bool_decide_false by by rewrite Hto. unfold txs_remove. cbn. rewrite Hnew, Hch. by destruct c. }
  unfold listen. cbn. unfold processTx. rewrite Hct, Hto, Hst, Hca.
  eexists _, _. split; [done|]. split; [done|]. split; [|].
  2:{ unfold GetAddressContractTxs, applyTxSentToContract, txs_get, txs_add. cbn.
      rewrite !lookup_insert_eq. apply list_elem_of_fmap. eexists (_, _). split; [reflexivity|].
      apply (ranges_elem _ _ _ _ (Hord _)). apply lookup_insert_eq. }
  done.
Qed.
End early.

(** ** Witnesses *)

Definition sample_row (hash from : string) : Transaction :=
  {| t_Hash := hash; t_Type := CallContractTx; t_From := from; t_To := "0xc"%string; t_Amount := 0%Z;
     t_Tips := 0%Z; t_MaxFee := 0%Z; t_Fee := 0%Z; t_Size := 0; t_Raw := EmptyString; t_Nonce := 0;
     t_UsedGas := 0; t_Data := None |}.

(** Two transactions to a contract, whose address is written in both cases; one leaves. *)
Definition sample_txs_calls : list TxsCall :=
  [CallAdd (sample_row "0x1" "0xA") "0xC"; CallAdd (sample_row "0x2" "0xa") "0xc"; CallRemove "0x1" "0xA"].

Lemma contract_txs_follow_witness :
  let t := foldl txs_call newAddressContractTxs sample_txs_calls in
  let live := foldl rows_call ∅ sample_txs_calls in
  txs_get map_to_list "0xA" "0xc" t = [sample_row "0x2" "0xa"] ∧
  (∃ l, txs_get map_to_list "0xA" "0xc" t = l.*2 ∧ NoDup l.*1 ∧
     ∀ h row, (h, row) ∈ l ↔ live !! h = Some (ToLower "0xA", ToLower "0xc", row)) ∧
  (live = ∅ → t = newAddressContractTxs).
Proof.
  cbn zeta. split; [by vm_compute|].
  apply (contract_txs_follow (λ _, "0xa"%string) (λ _, "0xc"%string) sample_txs_calls map_to_list).
  - repeat constructor.
  - intros m. apply ranges_canonical.
Defined.

(** An account with code, and a virtual machine that does nothing. *)
Definition sample_contract_state : AppState := sample_state <| GetCodeHash := λ _, Some (mkHash 9) |>.

#[export] Instance SamplePoolNode : PoolNode := {|
  readonlyAppState := Some sample_contract_state;
  vm_Run tx _ := mret {|
    rc_Success := true; rc_TxHash := tx_Hash tx; rc_From := tx_Sender tx; rc_ContractAddress := mkAddress 7;
    rc_Method := EmptyString; rc_Events := []; rc_GasUsed := 0; rc_GasCost := None; rc_Error := None;
    rc_ActionResult := [] |};
  pool_identity_order := map_to_list;
  pool_wasm_order := map_to_list
|}.

Definition sample_payment : Tx := sample_tx <| tx_To := Some (mkAddress 7) |>.

Lemma removed_too_early_stays_witness :
  ∃ c' row, @listen _ SampleHolder _ (RemoveTx sample_payment (ProcessTx sample_payment NewContracts).1) = Done c' ∧
    txChan c' = [] ∧ t_Hash row = hash_Hex (tx_Hash sample_payment) ∧
    row ∈ GetAddressContractTxs map_to_list (address_Hex (tx_Sender sample_payment)) (address_Hex (mkAddress 7)) c'.
Proof.
  apply (removed_too_early_stays sample_payment (mkAddress 7) sample_contract_state); try done.
  intros m. apply ranges_canonical.
Defined.
