(* ===== verification/Timestamps.v ===== *)
(** * The times of what comes to the pool of the node

    core/mempool/mempool.go notes when the packages of flip keys, the flip keys and the
    transactions with answers come to the pool of the node.  The handlers of the events
    send them to four channels; four goroutines turn them into timestamps and put them
    in a cache; another one saves the cache from time to time and puts back what the
    database refuses.  The goroutines share the cache, with a mutex for each list of it,
    and the saving has a mutex of its own, because [Destroy] saves as well.

    A state has the channels, the cache and the point every goroutine is at; an action is
    what a goroutine does between two points where another may come in.  The theorems are
    about every interleaving of the actions. *)

From stdpp Require Import functions.
From S2P Require Import Prelude Node.

(** ** Data *)

(** Go: db/types.go MemPoolActionTimestamp *)
Record MemPoolActionTimestamp := mkMemPoolActionTimestamp { mt_Address : string; mt_Epoch : Z; mt_Time : Z }.

(** Go: db/types.go MemPoolData *)
Record MemPoolData := mkMemPoolData {
  md_FlipPrivateKeysPackageTimestamps : list MemPoolActionTimestamp;
  md_FlipKeyTimestamps : list MemPoolActionTimestamp;
  md_AnswersHashTxTimestamps : list MemPoolActionTimestamp;
  md_ShortAnswersTxTimestamps : list MemPoolActionTimestamp
}.

(** Go: core/mempool/mempool.go indexerCache *)
Record indexerCache := mkIndexerCache {
  flipPrivateKeysPackageTimestamps : list MemPoolActionTimestamp;
  flipKeyTimestamps : list MemPoolActionTimestamp;
  answersHashTxTimestamps : list MemPoolActionTimestamp;
  shortAnswersTxTimestamps : list MemPoolActionTimestamp
}.

(** The keys of flips, and the recovery of who signed them ([None]: an error). *)
Class PoolKeys `{NodeApi} := {
  PrivateFlipKeysPackage : Type;
  pp_Epoch : PrivateFlipKeysPackage → Z;
  PublicFlipKey : Type;
  pk_Epoch : PublicFlipKey → Z;
  SenderFlipKeysPackage : PrivateFlipKeysPackage → option Address;
  SenderFlipKey : PublicFlipKey → option Address;
  types_Sender : Tx → option Address
}.

(** Go: core/mempool/mempool.go flipPrivateKeysPackageWrapper *)
Record flipPrivateKeysPackageWrapper `{PoolKeys} := mkPackageWrapper { pw_key : PrivateFlipKeysPackage; pw_time : Z }.
(** Go: core/mempool/mempool.go flipKeyWrapper *)
Record flipKeyWrapper `{PoolKeys} := mkKeyWrapper { kw_key : PublicFlipKey; kw_time : Z }.
(** Go: core/mempool/mempool.go txWrapper *)
Record txWrapper := mkTxWrapper { tw_tx : Tx; tw_time : Z }.

(** The four kinds of timestamps. *)
Inductive kind := FlipPackages | FlipKeys | AnswersHashTxs | ShortAnswersTxs.
#[export] Instance kind_eq_dec : EqDecision kind.
Proof. solve_decision. Defined.
Definition kinds : list kind := [FlipPackages; FlipKeys; AnswersHashTxs; ShortAnswersTxs].

(** The goroutines that save: the one of [saveDataLoop], and the one that calls
    [Destroy]; and where they are in [saveData]. *)
Inductive thread := SaveDataLoop | Destroyer.
#[export] Instance thread_eq_dec : EqDecision thread.
Proof. solve_decision. Defined.

Inductive saver :=
  | Outside
  | Taking (todo : list kind) (data : MemPoolData)
  | Saving (data : MemPoolData)
  | PuttingBack (todo : list kind) (data : MemPoolData).

(** Go: core/mempool/mempool.go Indexer

    With the timestamp each listening goroutine is about to add, the point of the savers,
    the holder of the mutex, and what the database has accepted. *)
Record Indexer `{PoolKeys} := mkIndexer {
  flipPrivateKeysPackageChan : list flipPrivateKeysPackageWrapper;
  flipKeyChan : list flipKeyWrapper;
  answerHashTxChan : list txWrapper;
  shortAnswersTxChan : list txWrapper;
  cache : indexerCache;
  listener : kind → option MemPoolActionTimestamp;
  pc : thread → saver;
  mutex : option thread;
  saved : list MemPoolData
}.

(** ** Operations *)

(** Go: core/mempool/mempool.go addFlipPrivateKeysPackageTimestamp *)
Definition addFlipPrivateKeysPackageTimestamp t (c : indexerCache) : indexerCache :=
  c <| flipPrivateKeysPackageTimestamps ::= λ l, l ++ [t] |>.
(** Go: core/mempool/mempool.go addFlipPrivateKeysPackageTimestamps *)
Definition addFlipPrivateKeysPackageTimestamps ts (c : indexerCache) : indexerCache :=
  c <| flipPrivateKeysPackageTimestamps ::= λ l, l ++ ts |>.
(** Go: core/mempool/mempool.go getFlipKeysPackageTimestampsToSave *)
Definition getFlipKeysPackageTimestampsToSave (c : indexerCache) : list MemPoolActionTimestamp * indexerCache :=
  (flipPrivateKeysPackageTimestamps c, c <| flipPrivateKeysPackageTimestamps := [] |>).

(** Go: core/mempool/mempool.go addFlipKeyTimestamp *)
Definition addFlipKeyTimestamp t (c : indexerCache) : indexerCache :=
  c <| flipKeyTimestamps ::= λ l, l ++ [t] |>.
(** Go: core/mempool/mempool.go addFlipKeyTimestamps *)
Definition addFlipKeyTimestamps ts (c : indexerCache) : indexerCache :=
  c <| flipKeyTimestamps ::= λ l, l ++ ts |>.
(** Go: core/mempool/mempool.go getFlipKeyTimestampsToSave *)
Definition getFlipKeyTimestampsToSave (c : indexerCache) : list MemPoolActionTimestamp * indexerCache :=
  (flipKeyTimestamps c, c <| flipKeyTimestamps := [] |>).

(** Go: core/mempool/mempool.go addAnswersHashTxTimestamp *)
Definition addAnswersHashTxTimestamp t (c : indexerCache) : indexerCache :=
  c <| answersHashTxTimestamps ::= λ l, l ++ [t] |>.
(** Go: core/mempool/mempool.go addAnswersHashTxTimestamps *)
Definition addAnswersHashTxTimestamps ts (c : indexerCache) : indexerCache :=
  c <| answersHashTxTimestamps ::= λ l, l ++ ts |>.
(** Go: core/mempool/mempool.go getAnswersHashTxTimestampsToSave *)
Definition getAnswersHashTxTimestampsToSave (c : indexerCache) : list MemPoolActionTimestamp * indexerCache :=
  (answersHashTxTimestamps c, c <| answersHashTxTimestamps := [] |>).

(** Go: core/mempool/mempool.go addShortAnswersTxTimestamp *)
Definition addShortAnswersTxTimestamp t (c : indexerCache) : indexerCache :=
  c <| shortAnswersTxTimestamps ::= λ l, l ++ [t] |>.
(** Go: core/mempool/mempool.go addShortAnswersTxTimestamps *)
Definition addShortAnswersTxTimestamps ts (c : indexerCache) : indexerCache :=
  c <| shortAnswersTxTimestamps ::= λ l, l ++ ts |>.
(** Go: core/mempool/mempool.go getShortAnswersTxTimestampsToSave *)
Definition getShortAnswersTxTimestampsToSave (c : indexerCache) : list MemPoolActionTimestamp * indexerCache :=
  (shortAnswersTxTimestamps c, c <| shortAnswersTxTimestamps := [] |>).

(** By kind. *)
Definition add_timestamp (k : kind) : MemPoolActionTimestamp → indexerCache → indexerCache :=
  match k with
  | FlipPackages => addFlipPrivateKeysPackageTimestamp
  | FlipKeys => addFlipKeyTimestamp
  | AnswersHashTxs => addAnswersHashTxTimestamp
  | ShortAnswersTxs => addShortAnswersTxTimestamp
  end.
Definition add_timestamps (k : kind) : list MemPoolActionTimestamp → indexerCache → indexerCache :=
  match k with
  | FlipPackages => addFlipPrivateKeysPackageTimestamps
  | FlipKeys => addFlipKeyTimestamps
  | AnswersHashTxs => addAnswersHashTxTimestamps
  | ShortAnswersTxs => addShortAnswersTxTimestamps
  end.
Definition timestamps_to_save (k : kind) : indexerCache → list MemPoolActionTimestamp * indexerCache :=
  match k with
  | FlipPackages => getFlipKeysPackageTimestampsToSave
  | FlipKeys => getFlipKeyTimestampsToSave
  | AnswersHashTxs => getAnswersHashTxTimestampsToSave
  | ShortAnswersTxs => getShortAnswersTxTimestampsToSave
  end.

(** The fields of [db.MemPoolData], and the field set. *)
Definition data_at (k : kind) : MemPoolData → list MemPoolActionTimestamp :=
  match k with
  | FlipPackages => md_FlipPrivateKeysPackageTimestamps
  | FlipKeys => md_FlipKeyTimestamps
  | AnswersHashTxs => md_AnswersHashTxTimestamps
  | ShortAnswersTxs => md_ShortAnswersTxTimestamps
  end.
Definition set_data (k : kind) (l : list MemPoolActionTimestamp) (d : MemPoolData) : MemPoolData :=
  match k with
  | FlipPackages => d <| md_FlipPrivateKeysPackageTimestamps := l |>
  | FlipKeys => d <| md_FlipKeyTimestamps := l |>
  | AnswersHashTxs => d <| md_AnswersHashTxTimestamps := l |>
  | ShortAnswersTxs => d <| md_ShortAnswersTxTimestamps := l |>
  end.
Definition no_data : MemPoolData := mkMemPoolData [] [] [] [].
Definition data_length (d : MemPoolData) : nat :=
  length (md_FlipPrivateKeysPackageTimestamps d) + length (md_FlipKeyTimestamps d)
  + length (md_AnswersHashTxTimestamps d) + length (md_ShortAnswersTxTimestamps d).

Section operations.
Context `{PoolKeys}.

(** Go: core/mempool/mempool.go queueSize:16-16 *)
Definition queueSize : Z := 20000.

(** Go: core/mempool/mempool.go NewIndexer *)
Definition NewIndexer : Indexer :=
  mkIndexer _ _ [] [] [] [] (mkIndexerCache [] [] [] []) (λ _, None) (λ _, Outside) None [].

(** A channel takes a message unless it is full ([None]: the sender waits). *)
Definition send {A} (a : A) (chan : list A) : option (list A) :=
  if (Z.of_nat (length chan) <? queueSize)%Z then Some (chan ++ [a]) else None.

(** Go: core/mempool/mempool.go subscribe:77-84 *)
Definition onFlipKeysPackage (key : PrivateFlipKeysPackage) (now : Z) (i : Indexer) : option Indexer :=
  match send (mkPackageWrapper _ _ key now) (flipPrivateKeysPackageChan i) with
  | Some l => Some (i <| flipPrivateKeysPackageChan := l |>)
  | None => None
  end.

(** Go: core/mempool/mempool.go subscribe:86-93 *)
Definition onFlipKey (key : PublicFlipKey) (now : Z) (i : Indexer) : option Indexer :=
  match send (mkKeyWrapper _ _ key now) (flipKeyChan i) with
  | Some l => Some (i <| flipKeyChan := l |>)
  | None => None
  end.

(** Go: core/mempool/mempool.go subscribe:95-112 *)
Definition onTx (tx : Tx) (now : Z) (i : Indexer) : option Indexer :=
  if bool_decide (tx_Type tx = SubmitAnswersHashTx) then
    match send (mkTxWrapper tx now) (answerHashTxChan i) with
    | Some l => Some (i <| answerHashTxChan := l |>)
    | None => None
    end
  else if bool_decide (tx_Type tx = SubmitShortAnswersTx) then
    match send (mkTxWrapper tx now) (shortAnswersTxChan i) with
    | Some l => Some (i <| shortAnswersTxChan := l |>)
    | None => None
    end
  else Some i.

(** The timestamps of what was received; [None] when who sent it cannot be told. *)
Definition package_timestamp (w : flipPrivateKeysPackageWrapper) : option MemPoolActionTimestamp :=
  match SenderFlipKeysPackage (pw_key w) with
  | None => None
  | Some sender => Some (mkMemPoolActionTimestamp (address_Hex sender) (pp_Epoch (pw_key w)) (pw_time w))
  end.
Definition key_timestamp (w : flipKeyWrapper) : option MemPoolActionTimestamp :=
  match SenderFlipKey (kw_key w) with
  | None => None
  | Some sender => Some (mkMemPoolActionTimestamp (address_Hex sender) (pk_Epoch (kw_key w)) (kw_time w))
  end.
Definition tx_timestamp (w : txWrapper) : option MemPoolActionTimestamp :=
  match types_Sender (tw_tx w) with
  | None => None
  | Some sender => Some (mkMemPoolActionTimestamp (address_Hex sender) (tx_Epoch (tw_tx w)) (tw_time w))
  end.

(** Go: core/mempool/mempool.go listenFlipPrivateKeysPackages

    Up to the call that adds the timestamp. *)
Definition listenFlipPrivateKeysPackages (i : Indexer) : option Indexer :=
  match flipPrivateKeysPackageChan i with
  | [] => None
  | w :: l => Some (i <| flipPrivateKeysPackageChan := l |> <| listener ::= <[FlipPackages := package_timestamp w]> |>)
  end.
(** Go: core/mempool/mempool.go listenFlipKeys *)
Definition listenFlipKeys (i : Indexer) : option Indexer :=
  match flipKeyChan i with
  | [] => None
  | w :: l => Some (i <| flipKeyChan := l |> <| listener ::= <[FlipKeys := key_timestamp w]> |>)
  end.
(** Go: core/mempool/mempool.go listenAnswersHashTxs *)
Definition listenAnswersHashTxs (i : Indexer) : option Indexer :=
  match answerHashTxChan i with
  | [] => None
  | w :: l => Some (i <| answerHashTxChan := l |> <| listener ::= <[AnswersHashTxs := tx_timestamp w]> |>)
  end.
(** Go: core/mempool/mempool.go listenShortAnswersTxs *)
Definition listenShortAnswersTxs (i : Indexer) : option Indexer :=
  match shortAnswersTxChan i with
  | [] => None
  | w :: l => Some (i <| shortAnswersTxChan := l |> <| listener ::= <[ShortAnswersTxs := tx_timestamp w]> |>)
  end.

(** One turn of the loop of the listening goroutine of a kind, in two actions: it receives
    when it has nothing to add, and adds what it received. *)
Definition listen (k : kind) (i : Indexer) : option Indexer :=
  match listener i k with
  | Some t => Some (i <| cache ::= add_timestamp k t |> <| listener ::= <[k := None]> |>)
  | None =>
      match k with
      | FlipPackages => listenFlipPrivateKeysPackages i
      | FlipKeys => listenFlipKeys i
      | AnswersHashTxs => listenAnswersHashTxs i
      | ShortAnswersTxs => listenShortAnswersTxs i
      end
  end.

Definition goto (t : thread) (p : saver) (i : Indexer) : Indexer := i <| pc ::= <[t := p]> |>.

(** Go: core/mempool/mempool.go saveData

    One action of the goroutine [t]: the mutex is taken, each list is taken from the
    cache with the mutex of that list, the data is saved unless it is empty ([ok]: the
    database accepts it) and put back list by list when it is refused; leaving releases
    the mutex. *)
Definition saveData (t : thread) (ok : bool) (i : Indexer) : option Indexer :=
  match pc i t with
  | Outside => match mutex i with None => Some (goto t (Taking kinds no_data) (i <| mutex := Some t |>)) | Some _ => None end
  | Taking (k :: todo) data =>
      let (result, c) := timestamps_to_save k (cache i) in
      Some (goto t (Taking todo (set_data k result data)) (i <| cache := c |>))
  | Taking [] data =>
      if (data_length data =? 0)%nat then Some (goto t Outside (i <| mutex := None |>))
      else Some (goto t (Saving data) i)
  | Saving data =>
      if ok then Some (goto t Outside (i <| saved ::= λ l, l ++ [data] |> <| mutex := None |>))
      else Some (goto t (PuttingBack kinds data) i)
  | PuttingBack (k :: todo) data =>
      Some (goto t (PuttingBack todo data) (i <| cache ::= add_timestamps k (data_at k data) |>))
  | PuttingBack [] data => Some (goto t Outside (i <| mutex := None |>))
  end.

(** ** Runs *)

Inductive action :=
  | NewFlipKeysPackage (key : PrivateFlipKeysPackage) (now : Z)
  | NewFlipKey (key : PublicFlipKey) (now : Z)
  | NewTx (tx : Tx) (now : Z)
  | Listen (k : kind)
  | SaveData (t : thread) (ok : bool).

(** [None]: the goroutine waits. *)
Definition perform (i : Indexer) (a : action) : option Indexer :=
  match a with
  | NewFlipKeysPackage key now => onFlipKeysPackage key now i
  | NewFlipKey key now => onFlipKey key now i
  | NewTx tx now => onTx tx now i
  | Listen k => listen k i
  | SaveData t ok => saveData t ok i
  end.

Fixpoint run (i : Indexer) (actions : list action) : option Indexer :=
  match actions with
  | [] => Some i
  | a :: rest => match perform i a with Some i' => run i' rest | None => None end
  end.
End operations.

(** ** Where the timestamps are *)

Section accounts.
Context `{PoolKeys}.
Implicit Types (k : kind) (t : thread) (i : Indexer) (d : MemPoolData) (c : indexerCache).

Definition cached k : indexerCache → list MemPoolActionTimestamp :=
  match k with
  | FlipPackages => flipPrivateKeysPackageTimestamps
  | FlipKeys => flipKeyTimestamps
  | AnswersHashTxs => answersHashTxTimestamps
  | ShortAnswersTxs => shortAnswersTxTimestamps
  end.

(** What is on its way through a saver, and through a channel. *)
Definition held k (p : saver) : list MemPoolActionTimestamp :=
  match p with
  | Outside => []
  | Taking _ d | Saving d => data_at k d
  | PuttingBack todo d => if decide (k ∈ todo) then data_at k d else []
  end.
Definition held_by k (pcs : thread → saver) : list MemPoolActionTimestamp :=
  held k (pcs SaveDataLoop) ++ held k (pcs Destroyer).
Definition waiting k i : list MemPoolActionTimestamp :=
  match k with
  | FlipPackages => omap package_timestamp (flipPrivateKeysPackageChan i)
  | FlipKeys => omap key_timestamp (flipKeyChan i)
  | AnswersHashTxs => omap tx_timestamp (answerHashTxChan i)
  | ShortAnswersTxs => omap tx_timestamp (shortAnswersTxChan i)
  end.

Definition all_saved k i : list MemPoolActionTimestamp := saved i ≫= data_at k.
Definition on_the_way k i : list MemPoolActionTimestamp :=
  held_by k (pc i) ++ cached k (cache i) ++ option_list (listener i k) ++ waiting k i.

(** What an action brings. *)
Definition published k (a : action) : list MemPoolActionTimestamp :=
  match a, k with
  | NewFlipKeysPackage key now, FlipPackages => option_list (package_timestamp (mkPackageWrapper _ _ key now))
  | NewFlipKey key now, FlipKeys => option_list (key_timestamp (mkKeyWrapper _ _ key now))
  | NewTx tx now, AnswersHashTxs =>
      if bool_decide (tx_Type tx = SubmitAnswersHashTx) then option_list (tx_timestamp (mkTxWrapper tx now)) else []
  | NewTx tx now, ShortAnswersTxs =>
      if bool_decide (tx_Type tx = SubmitShortAnswersTx) then option_list (tx_timestamp (mkTxWrapper tx now)) else []
  | _, _ => []
  end.

(** ** The invariant of the savers *)

Definition saver_ok (p : saver) : Prop :=
  match p with
  | Outside => True
  | Taking todo d => NoDup todo ∧ ∀ k, k ∈ todo → data_at k d = []
  | Saving d => data_length d ≠ 0
  | PuttingBack todo d => NoDup todo
  end.

Record indexer_ok i : Prop := {
  io_saver t : saver_ok (pc i t);
  io_mutex t : mutex i = Some t ↔ pc i t ≠ Outside;
  io_saved : Forall (λ d, data_length d ≠ 0) (saved i)
}.

Lemma cached_add k k' x c : cached k (add_timestamp k' x c) = cached k c ++ (if decide (k' = k) then [x] else []).
Proof. destruct k, k'; cbn; by rewrite ?app_nil_r. Qed.

Lemma cached_adds k k' l c : cached k (add_timestamps k' l c) = cached k c ++ (if decide (k' = k) then l else []).
Proof. destruct k, k'; cbn; by rewrite ?app_nil_r. Qed.

Lemma cached_take k k' c :
  (timestamps_to_save k' c).1 = cached k' c ∧
  cached k (timestamps_to_save k' c).2 = if decide (k' = k) then [] else cached k c.
Proof. by destruct k, k'. Qed.

Lemma data_at_set k k' l d : data_at k (set_data k' l d) = if decide (k' = k) then l else data_at k d.
Proof. by destruct k, k'. Qed.

Lemma data_length_0 d : data_length d = 0 ↔ ∀ k, data_at k d = [].
Proof.
  unfold data_length. split.
  - intros Hl k. apply nil_length_inv. destruct k; cbn; lia.
  - intros Hd. pose proof (Hd FlipPackages). pose proof (Hd FlipKeys). pose proof (Hd AnswersHashTxs).
    pose proof (Hd ShortAnswersTxs). cbn in *. destruct d; cbn in *. by subst.
Qed.

Definition other t : thread := match t with SaveDataLoop => Destroyer | Destroyer => SaveDataLoop end.

Lemma held_by_goto k t p (pcs : thread → saver) : held_by k (<[t:=p]> pcs) ≡ₚ held k p ++ held k (pcs (other t)).
Proof.
  unfold held_by. destruct t; rewrite fn_lookup_insert, fn_lookup_insert_ne by done; [done|apply Permutation_app_comm].
Qed.

Lemma held_by_split k t (pcs : thread → saver) : held_by k pcs ≡ₚ held k (pcs t) ++ held k (pcs (other t)).
Proof. unfold held_by. destruct t; [done|apply Permutation_app_comm]. Qed.

Lemma waiting_send {A} (f : A → option MemPoolActionTimestamp) a l l' :
  send a l = Some l' → omap f l' = omap f l ++ option_list (f a).
Proof.
  unfold send. destruct (_ <? _)%Z; [intros [= <-]|done]. rewrite omap_app. cbn. by destruct (f a).
Qed.

(** The actions keep count: what was there and what came is there after. *)
Definition accounted k i : list MemPoolActionTimestamp := all_saved k i ++ on_the_way k i.

Lemma send_accounts i a i' k :
  (match a with Listen _ | SaveData _ _ => False | _ => True end) →
  perform i a = Some i' → accounted k i' ≡ₚ accounted k i ++ published k a.
Proof.
  intros Ha Hp. assert (∃ l, waiting k i' = waiting k i ++ l ∧ published k a = l ∧ saved i' = saved i ∧
    pc i' = pc i ∧ cache i' = cache i ∧ listener i' = listener i) as (l & Hw & Hl & Hs & Hpc & Hc & Hli).
  { destruct a as [key now|key now|tx now|?|? ?]; [..|done|done]; cbn [perform] in Hp.
    - unfold onFlipKeysPackage in Hp. destruct (send _ _) eqn:He; [injection Hp as <-|done].
      destruct k; eexists; (split; [|done]); [by apply waiting_send|by rewrite app_nil_r..].
    - unfold onFlipKey in Hp. destruct (send _ _) eqn:He; [injection Hp as <-|done].
      destruct k; eexists; (split; [|done]); [..|by rewrite app_nil_r|by rewrite app_nil_r];
        [by rewrite app_nil_r|by apply waiting_send].
    - unfold onTx in Hp. unfold published.
      destruct (bool_decide (tx_Type tx = SubmitAnswersHashTx)) eqn:H1;
        [|destruct (bool_decide (tx_Type tx = SubmitShortAnswersTx)) eqn:H2];
        [destruct (send _ _) eqn:He; [|done]..|]; injection Hp as <-.
      + assert (bool_decide (tx_Type tx = SubmitShortAnswersTx) = false) as ->.
        { apply bool_decide_eq_true in H1. apply bool_decide_eq_false. by rewrite H1. }
        destruct k; eexists; (split; [|done]); try by rewrite app_nil_r. by apply waiting_send.
      + destruct k; eexists; (split; [|done]); try by rewrite app_nil_r. by apply waiting_send.
      + destruct k; exists []; by rewrite app_nil_r. }
  unfold accounted, all_saved, on_the_way. rewrite Hw, Hl, Hs, Hpc, Hc, Hli. solve_Permutation.
Qed.

(** Receiving moves a message from the channel to the listening goroutine. *)
Lemma receive_accounts i i' k k' :
  listener i k' = None → listen k' i = Some i' →
  waiting k i = (if decide (k' = k) then option_list (listener i' k) else []) ++ waiting k i' ∧
  (k' ≠ k → listener i' k = listener i k) ∧
  saved i' = saved i ∧ pc i' = pc i ∧ cache i' = cache i ∧ mutex i' = mutex i.
Proof.
  unfold listen. intros Hn. rewrite Hn.
  assert (∀ {A} (f : A → option MemPoolActionTimestamp) a l, omap f (a :: l) = option_list (f a) ++ omap f l) as Ho.
  { intros A f a l. cbn. by destruct (f a). }
  destruct k'; [unfold listenFlipPrivateKeysPackages|unfold listenFlipKeys|unfold listenAnswersHashTxs|unfold listenShortAnswersTxs];
    [destruct (flipPrivateKeysPackageChan i) eqn:Hc|destruct (flipKeyChan i) eqn:Hc
    |destruct (answerHashTxChan i) eqn:Hc|destruct (shortAnswersTxChan i) eqn:Hc]; try done; intros [= <-];
    destruct k; cbn [waiting]; rewrite ?Hc, ?Ho; by split_and!.
Qed.

Lemma step_accounts i a i' k :
  indexer_ok i → perform i a = Some i' → accounted k i' ≡ₚ accounted k i ++ published k a.
Proof.
  intros Hok Hp. destruct a as [?|?|?|k'|t ok]; [by apply send_accounts..| |]; cbn [perform] in Hp.
  - replace (published k (Listen k')) with (@nil MemPoolActionTimestamp) by by destruct k.
    destruct (listener i k') as [x|] eqn:Hx.
    + unfold listen in Hp. rewrite Hx in Hp. injection Hp as <-.
      unfold accounted, on_the_way. cbn [all_saved pc cache listener modify_field].
      rewrite cached_add. replace (waiting k _) with (waiting k i) by by destruct k.
      change (all_saved k _) with (all_saved k i).
      destruct (decide (k' = k)) as [->|Hk].
      * rewrite fn_lookup_insert, Hx. cbn [option_list]. solve_Permutation.
      * rewrite fn_lookup_insert_ne by done. solve_Permutation.
    + destruct (receive_accounts i i' k k' Hx Hp) as (Hw & Hl & Hs & Hpc & Hc & _).
      unfold accounted, on_the_way, all_saved. rewrite Hs, Hpc, Hc, Hw.
      destruct (decide (k' = k)) as [->|Hk]; [rewrite Hx; cbn [option_list]; solve_Permutation|].
      rewrite Hl by done. solve_Permutation.
  - destruct Hok as [Hsaver _ _]. specialize (Hsaver t).
    replace (published k (SaveData t ok)) with (@nil MemPoolActionTimestamp) by by destruct k.
    unfold saveData in Hp. unfold accounted, on_the_way.
    rewrite (held_by_split k t (pc i)). destruct (pc i t) as [|[|k' todo] d|d|[|k' todo] d] eqn:Hpc.
    + destruct (mutex i); [done|]. injection Hp as <-. cbn. rewrite held_by_goto. by destruct k; cbn; rewrite app_nil_r.
    + destruct (_ =? _)%nat eqn:Hz; injection Hp as <-; cbn; rewrite held_by_goto; [|by destruct k; cbn; rewrite app_nil_r].
      apply Nat.eqb_eq, data_length_0 with (k := k) in Hz. cbn. rewrite Hz. by destruct k; cbn; rewrite app_nil_r.
    + destruct (cached_take k k' (cache i)) as [H1 H2].
      destruct (timestamps_to_save k' (cache i)) as [l c]. cbn [fst snd] in H1, H2. injection Hp as <-. cbn.
      rewrite held_by_goto, H2. cbn [held]. rewrite data_at_set. destruct Hsaver as [_ Hd].
      destruct (decide (k' = k)) as [->|Hk]; [rewrite (Hd k), H1 by by left; cbn|];
        (replace (waiting k _) with (waiting k i) by by destruct k);
        change (all_saved k _) with (all_saved k i); solve_Permutation.
    + destruct ok; injection Hp as <-; cbn; rewrite held_by_goto;
        (replace (waiting k _) with (waiting k i) by by destruct k).
      * unfold all_saved. cbn. rewrite bind_app. cbn. solve_Permutation.
      * change (all_saved k _) with (all_saved k i). cbn [held]. rewrite decide_True by (destruct k; set_solver).
        solve_Permutation.
    + injection Hp as <-; cbn; rewrite held_by_goto. cbn. by destruct k; cbn; rewrite app_nil_r.
    + injection Hp as <-; cbn. rewrite held_by_goto, cached_adds. cbn [held].
      (replace (waiting k _) with (waiting k i) by by destruct k); change (all_saved k _) with (all_saved k i).
      apply list.NoDup_cons in Hsaver as [Hn _]. destruct (decide (k' = k)) as [->|Hk].
      * rewrite decide_False, decide_True by set_solver. solve_Permutation.
      * destruct (decide (k ∈ todo)); [rewrite decide_True by set_solver|rewrite decide_False by set_solver];
          solve_Permutation.
Qed.
End accounts.

(** ** Runs keep the invariant *)

Section runs.
Context `{PoolKeys}.
Implicit Types (k : kind) (t : thread) (i : Indexer).

Lemma unsaving_ok i i' :
  pc i' = pc i → mutex i' = mutex i → saved i' = saved i → indexer_ok i → indexer_ok i'.
Proof. intros Hp Hm Hs [H1 H2 H3]. split; by rewrite ?Hp, ?Hm, ?Hs. Qed.

Lemma listen_frame i i' k :
  listen k i = Some i' → pc i' = pc i ∧ mutex i' = mutex i ∧ saved i' = saved i.
Proof.
  intros Hl. destruct (listener i k) as [x|] eqn:Hx.
  - unfold listen in Hl. rewrite Hx in Hl. by injection Hl as <-.
  - by destruct (receive_accounts i i' k k Hx Hl) as (_ & _ & ? & ? & _ & ?).
Qed.

Lemma inside_ok t p i i' :
  indexer_ok i → pc i t ≠ Outside → p ≠ Outside → saver_ok p →
  pc i' = <[t:=p]> (pc i) → mutex i' = mutex i → saved i' = saved i → indexer_ok i'.
Proof.
  intros [H1 H2 H3] Hin Hp Hok Hpc Hm Hs. split; rewrite ?Hpc, ?Hm, ?Hs; [..|done]; intros t'.
  - destruct (decide (t = t')) as [<-|Ht]; [by rewrite fn_lookup_insert|by rewrite fn_lookup_insert_ne].
  - destruct (decide (t = t')) as [<-|Ht]; [rewrite fn_lookup_insert, H2|rewrite fn_lookup_insert_ne by done; apply H2].
    done.
Qed.

Lemma leave_ok t i i' :
  indexer_ok i → pc i t ≠ Outside → Forall (λ d, data_length d ≠ 0) (saved i') →
  pc i' = <[t:=Outside]> (pc i) → mutex i' = None → indexer_ok i'.
Proof.
  intros [H1 H2 H3] Hin Hs Hpc Hm. split; rewrite ?Hpc, ?Hm; [..|done]; intros t'.
  - destruct (decide (t = t')) as [<-|Ht]; [by rewrite fn_lookup_insert|by rewrite fn_lookup_insert_ne].
  - destruct (decide (t = t')) as [<-|Ht]; [by rewrite fn_lookup_insert|rewrite fn_lookup_insert_ne by done].
    apply H2 in Hin. pose proof (H2 t') as Ht'. rewrite Hin in Ht'. split; [done|]. intros Hn%Ht'. congruence.
Qed.

Lemma kinds_NoDup : NoDup kinds.
Proof. by apply (bool_decide_unpack _). Qed.

Lemma step_ok i a i' : indexer_ok i → perform i a = Some i' → indexer_ok i'.
Proof.
  intros Hok Hp. destruct a as [key now|key now|tx now|k|t ok]; cbn [perform] in Hp.
  - unfold onFlipKeysPackage in Hp. destruct (send _ _); [injection Hp as <-|done]. by apply (unsaving_ok i).
  - unfold onFlipKey in Hp. destruct (send _ _); [injection Hp as <-|done]. by apply (unsaving_ok i).
  - unfold onTx in Hp. repeat case_match; try done; injection Hp as <-; by apply (unsaving_ok i).
  - destruct (listen_frame _ _ _ Hp) as (? & ? & ?). by apply (unsaving_ok i).
  - unfold saveData in Hp. destruct (Hok) as [H1 H2 H3]. specialize (H1 t).
    destruct (pc i t) as [|[|k todo] d|d|[|k todo] d] eqn:Hpc.
    + destruct (mutex i) eqn:Hm; [done|]. injection Hp as <-. split; cbn; [..|done]; intros t'.
      * destruct (decide (t = t')) as [<-|Ht]; [rewrite fn_lookup_insert|rewrite fn_lookup_insert_ne by done; apply Hok].
        split; [apply kinds_NoDup|by intros []].
      * destruct (decide (t = t')) as [<-|Ht]; [by rewrite fn_lookup_insert|rewrite fn_lookup_insert_ne by done].
        specialize (H2 t'). rewrite ?Hm in H2. split; [congruence|by intros ?%H2].
    + destruct (_ =? _)%nat eqn:Hz; injection Hp as <-.
      * by apply (leave_ok t i); [done|by rewrite Hpc|..].
      * apply Nat.eqb_neq in Hz. by apply (inside_ok t (Saving d) i); [done|by rewrite Hpc|..].
    + destruct (timestamps_to_save k (cache i)) as [l c]. injection Hp as <-.
      apply (inside_ok t (Taking todo (set_data k l d)) i); [done|by rewrite Hpc|done|..|done|done|done].
      destruct H1 as [[Hn Hnd]%list.NoDup_cons Hd]. split; [done|]. intros k' Hk'.
      rewrite data_at_set, decide_False by naive_solver. apply Hd. by right.
    + destruct ok; injection Hp as <-.
      * apply (leave_ok t i); [done|by rewrite Hpc|..|done|done]. cbn. apply list.Forall_app. by rewrite list.Forall_singleton.
      * by apply (inside_ok t (PuttingBack kinds d) i); [done|by rewrite Hpc|done|apply kinds_NoDup|..].
    + injection Hp as <-. by apply (leave_ok t i); [done|by rewrite Hpc|..].
    + injection Hp as <-. apply (inside_ok t (PuttingBack todo d) i); [done|by rewrite Hpc|done|..|done|done|done].
      by apply list.NoDup_cons in H1 as [_ H1].
Qed.

Lemma NewIndexer_ok : indexer_ok NewIndexer.
Proof. by split. Qed.

Lemma run_accounts actions i i' :
  indexer_ok i → run i actions = Some i' →
  indexer_ok i' ∧ ∀ k, accounted k i' ≡ₚ accounted k i ++ (actions ≫= published k).
Proof.
  revert i. induction actions as [|a rest IH]; intros i Hok; cbn [run].
  - intros [= <-]. split; [done|]. intros k. cbn. by rewrite app_nil_r.
  - destruct (perform i a) as [i1|] eqn:Hp; [|done]. intros Hr.
    destruct (IH i1 (step_ok _ _ _ Hok Hp) Hr) as [Hok' Hacc]. split; [done|]. intros k.
    rewrite Hacc, (step_accounts i a i1 k Hok Hp). cbn. by rewrite (assoc_L (++)).
Qed.

(** [C15]  However the goroutines interleave and whatever the database refuses, every
    timestamp that came is saved once, or is still on its way, once: in the channel, with
    a goroutine or in the cache; nothing else is saved, no save is without data, and at
    most one goroutine saves. *)
Theorem timestamps_are_kept actions i :
  run NewIndexer actions = Some i →
  (∀ k, actions ≫= published k ≡ₚ all_saved k i ++ on_the_way k i) ∧
  Forall (λ d, data_length d ≠ 0) (saved i) ∧
  (pc i SaveDataLoop = Outside ∨ pc i Destroyer = Outside).
Proof.
  intros Hr. destruct (run_accounts _ _ _ NewIndexer_ok Hr) as [[_ Hm Hs] Hacc]. split_and!; [|done|].
  - intros k. fold (accounted k i). rewrite Hacc. by destruct k.
  - destruct (pc i SaveDataLoop) eqn:H1; [by left|..]; (destruct (pc i Destroyer) eqn:H2; [by right|..]); exfalso;
      pose proof (Hm SaveDataLoop) as Ha; pose proof (Hm Destroyer) as Hb; rewrite H1 in Ha; rewrite H2 in Hb;
      (destruct Ha as [_ Ha]; destruct Hb as [_ Hb]; rewrite Ha in Hb by done; by discriminate Hb).
Qed.

(** ** Everything gets saved *)

(** Nothing new comes and the database accepts. *)
Definition quiet (a : action) : Prop :=
  match a with Listen _ => True | SaveData _ ok => ok = true | _ => False end.
Definition reaches i i' : Prop := ∃ rest, Forall quiet rest ∧ run i rest = Some i'.

Lemma run_rest i i' l1 l2 : run i l1 = Some i' → run i (l1 ++ l2) = run i' l2.
Proof.
  revert i. induction l1 as [|a l1 IH]; intros i; cbn; [by intros [= ->]|].
  destruct (perform i a); [apply IH|done].
Qed.

#[local] Instance reaches_preorder : PreOrder reaches.
Proof.
  split.
  - intros i. by exists [].
  - intros i1 i2 i3 (l1 & Hq1 & H1) (l2 & Hq2 & H2). exists (l1 ++ l2).
    rewrite (run_rest _ _ _ _ H1). split; [by apply list.Forall_app|done].
Qed.

Lemma reaches_step i a i' : quiet a → perform i a = Some i' → reaches i i'.
Proof. intros Hq Hp. exists [a]. split; [by apply list.Forall_singleton|]. cbn. by rewrite Hp. Qed.

Lemma reaches_ok i i' : indexer_ok i → reaches i i' → indexer_ok i'.
Proof. intros Hok (l & _ & Hr). by apply (run_accounts _ _ _ Hok Hr). Qed.

(** A saver that puts back leaves; one with data saves it; one that takes does either. *)
Lemma put_back t todo d i :
  pc i t = PuttingBack todo d → ∃ i', reaches i i' ∧ mutex i' = None.
Proof.
  revert i. induction todo as [|k todo IH]; intros i Hpc.
  - eexists. split; [apply (reaches_step i (SaveData t true)); [done|]; cbn; unfold saveData; by rewrite Hpc|done].
  - destruct (IH (goto t (PuttingBack todo d) (i <| cache ::= add_timestamps k (data_at k d) |>))) as (i' & Hr & Hm);
      [apply fn_lookup_insert|].
    exists i'. split; [|done]. etrans; [|apply Hr].
    apply (reaches_step i (SaveData t true)); [done|]. cbn. unfold saveData. by rewrite Hpc.
Qed.

(** What a saver leaves of the cache when it still has to take [todo]. *)
Definition left_over (todo : list kind) i : Prop := ∀ k, k ∈ todo ∨ cached k (cache i) = [].

Lemma save_data t d i :
  pc i t = Saving d → ∃ i', reaches i i' ∧ mutex i' = None ∧ cache i' = cache i ∧
    ∀ k, listener i' k = listener i k ∧ waiting k i' = waiting k i.
Proof.
  intros Hpc. eexists. split; [apply (reaches_step i (SaveData t true)); [done|]; cbn; unfold saveData; by rewrite Hpc|].
  split_and!; [done..|]. intros k. by destruct k.
Qed.

Lemma take_all t todo d i :
  pc i t = Taking todo d → left_over todo i →
  ∃ i', reaches i i' ∧ mutex i' = None ∧ (∀ k, cached k (cache i') = []) ∧
    ∀ k, listener i' k = listener i k ∧ waiting k i' = waiting k i.
Proof.
  revert d i. induction todo as [|k todo IH]; intros d i Hpc Hleft.
  - assert (∀ k, cached k (cache i) = []) as Hc by (intros k; destruct (Hleft k) as [Hk|]; [by apply not_elem_of_nil in Hk|done]).
    destruct (data_length d =? 0)%nat eqn:Hz.
    + eexists. split; [apply (reaches_step i (SaveData t true)); [done|]; cbn; unfold saveData; by rewrite Hpc, Hz|].
      split_and!; [done|done|]. intros k. by destruct k.
    + destruct (save_data t d (goto t (Saving d) i)) as (i' & Hr & Hm & Hc' & Hw); [apply fn_lookup_insert|].
      exists i'. split_and!; [|done|by rewrite Hc'|intros k; destruct (Hw k) as [-> ->]; by destruct k].
      etrans; [|apply Hr]. apply (reaches_step i (SaveData t true)); [done|]. cbn. unfold saveData. by rewrite Hpc, Hz.
  - set (l := (timestamps_to_save k (cache i)).1). set (c := (timestamps_to_save k (cache i)).2).
    destruct (IH (set_data k l d) (goto t (Taking todo (set_data k l d)) (i <| cache := c |>))) as (i' & Hr & Hm & Hc & Hw).
    + apply fn_lookup_insert.
    + intros k'. cbn. destruct (cached_take k' k (cache i)) as [_ Hk]. fold c in Hk. rewrite Hk.
      destruct (decide (k = k')); [by right|]. destruct (Hleft k') as [Hk'|]; [|by right]. left. set_solver.
    + exists i'. split_and!; [|done|done|intros k'; destruct (Hw k') as [-> ->]; by destruct k'].
      etrans; [|apply Hr]. apply (reaches_step i (SaveData t true)); [done|]. cbn. unfold saveData. rewrite Hpc.
      unfold l, c. by destruct (timestamps_to_save k (cache i)).
Qed.

Lemma save_now i :
  mutex i = None → indexer_ok i →
  ∃ i', reaches i i' ∧ mutex i' = None ∧ (∀ k, cached k (cache i') = []) ∧
    ∀ k, listener i' k = listener i k ∧ waiting k i' = waiting k i.
Proof.
  intros Hm [_ Hin _].
  assert (pc i SaveDataLoop = Outside) as Hpc.
  { destruct (pc i SaveDataLoop) eqn:Hp; [done|..]; exfalso;
      (assert (mutex i = Some SaveDataLoop) by (apply Hin; by rewrite Hp)); congruence. }
  destruct (take_all SaveDataLoop kinds no_data (goto SaveDataLoop (Taking kinds no_data) (i <| mutex := Some SaveDataLoop |>)))
    as (i' & Hr & ? & ? & Hw).
  - apply fn_lookup_insert.
  - intros k. left. destruct k; set_solver.
  - exists i'. split_and!; [|done..|intros k; destruct (Hw k) as [-> ->]; by destruct k].
    etrans; [|apply Hr]. apply (reaches_step i (SaveData SaveDataLoop true)); [done|]. cbn. unfold saveData. by rewrite Hpc, Hm.
Qed.

Lemma leave i : indexer_ok i → ∃ i', reaches i i' ∧ mutex i' = None.
Proof.
  intros [_ Hin _]. destruct (mutex i) as [t|] eqn:Hm; [|by exists i].
  specialize (proj1 (Hin t) eq_refl) as Ht. destruct (pc i t) as [|todo d|d|todo d] eqn:Hpc; [done|..].
  - clear Ht Hin Hm. revert d i Hpc. induction todo as [|k todo IH]; intros d i Hpc.
    + destruct (data_length d =? 0)%nat eqn:Hz.
      * eexists. split; [apply (reaches_step i (SaveData t true)); [done|]; cbn; unfold saveData; by rewrite Hpc, Hz|done].
      * destruct (save_data t d (goto t (Saving d) i)) as (i' & Hr & ? & _); [apply fn_lookup_insert|].
        exists i'. split; [|done]. etrans; [|apply Hr].
        apply (reaches_step i (SaveData t true)); [done|]. cbn. unfold saveData. by rewrite Hpc, Hz.
    + set (x := timestamps_to_save k (cache i)).
      destruct (IH (set_data k x.1 d) (goto t (Taking todo (set_data k x.1 d)) (i <| cache := x.2 |>))) as (i' & Hr & Hm').
      * apply fn_lookup_insert.
      * exists i'. split; [|done]. etrans; [|apply Hr].
        apply (reaches_step i (SaveData t true)); [done|]. cbn. unfold saveData. rewrite Hpc.
        fold x. by destruct x.
  - destruct (save_data t d i Hpc) as (i' & ? & ? & _). by exists i'.
  - by apply (put_back t todo d).
Qed.

(** The listening goroutines empty the channels, one kind after the other. *)
Definition chan_length k i : nat :=
  match k with
  | FlipPackages => length (flipPrivateKeysPackageChan i)
  | FlipKeys => length (flipKeyChan i)
  | AnswersHashTxs => length (answerHashTxChan i)
  | ShortAnswersTxs => length (shortAnswersTxChan i)
  end.

Definition drained k i : Prop := chan_length k i = 0 ∧ listener i k = None.

Lemma listen_receives k i :
  listener i k = None → chan_length k i ≠ 0 →
  ∃ i', listen k i = Some i' ∧ S (chan_length k i') = chan_length k i ∧
    ∀ k', k ≠ k' → chan_length k' i' = chan_length k' i ∧ listener i' k' = listener i k'.
Proof.
  intros Hn. unfold listen. rewrite Hn.
  destruct k; cbn [chan_length];
    [unfold listenFlipPrivateKeysPackages; destruct (flipPrivateKeysPackageChan i)
    |unfold listenFlipKeys; destruct (flipKeyChan i)
    |unfold listenAnswersHashTxs; destruct (answerHashTxChan i)
    |unfold listenShortAnswersTxs; destruct (shortAnswersTxChan i)]; try done; intros _;
    eexists; (split; [done|split; [done|]]); intros k' Hk'; by destruct k'.
Qed.

Lemma listen_adds k i x :
  listener i k = Some x →
  ∃ i', listen k i = Some i' ∧ listener i' k = None ∧ chan_length k i' = chan_length k i ∧
    ∀ k', k ≠ k' → chan_length k' i' = chan_length k' i ∧ listener i' k' = listener i k'.
Proof.
  intros Hx. unfold listen. rewrite Hx. eexists. split; [done|]. split; [apply fn_lookup_insert|].
  split; [by destruct k|]. intros k' Hk'. split; [by destruct k'|]. by apply fn_lookup_insert_ne.
Qed.

Lemma drain k i :
  ∃ i', reaches i i' ∧ mutex i' = mutex i ∧ drained k i' ∧ ∀ k', k ≠ k' → drained k' i → drained k' i'.
Proof.
  assert (∀ i i', listen k i = Some i' →
    (∃ i2, reaches i' i2 ∧ mutex i2 = mutex i' ∧ drained k i2 ∧ ∀ k', k ≠ k' → drained k' i' → drained k' i2) →
    (∀ k', k ≠ k' → chan_length k' i' = chan_length k' i ∧ listener i' k' = listener i k') →
    ∃ i2, reaches i i2 ∧ mutex i2 = mutex i ∧ drained k i2 ∧ ∀ k', k ≠ k' → drained k' i → drained k' i2) as Hstep.
  { intros i1 i' Hl (i2 & Hr & Hm & Hd & Ho) Hk. exists i2. split_and!; [|by rewrite Hm; apply (listen_frame _ _ _ Hl)|done|].
    - etrans; [by apply (reaches_step i1 (Listen k))|done].
    - intros k' Hk' Hd'. apply Ho; [done|]. unfold drained. by destruct (Hk k' Hk') as [-> ->]. }
  remember (chan_length k i) as n eqn:Hn. revert i Hn. induction n as [|n IH]; intros i Hn.
  - destruct (listener i k) as [x|] eqn:Hx; [|by exists i].
    destruct (listen_adds k i x Hx) as (i1 & Hl & Hx1 & Hc1 & Hk). apply (Hstep i i1 Hl); [|done].
    exists i1. by rewrite <- Hn in Hc1.
  - assert (∀ i, S n = chan_length k i → listener i k = None →
      ∃ i', reaches i i' ∧ mutex i' = mutex i ∧ drained k i' ∧ ∀ k', k ≠ k' → drained k' i → drained k' i') as Hrec.
    { intros i1 Hn1 Hx. destruct (listen_receives k i1 Hx) as (i' & Hl & Hc & Hk); [lia|].
      apply (Hstep i1 i' Hl); [apply IH; lia|done]. }
    destruct (listener i k) as [x|] eqn:Hx; [|by apply Hrec].
    destruct (listen_adds k i x Hx) as (i1 & Hl & Hx1 & Hc1 & Hk). apply (Hstep i i1 Hl); [|done].
    apply Hrec; [by rewrite Hc1|done].
Qed.

Lemma drain_all i : ∃ i', reaches i i' ∧ mutex i' = mutex i ∧ ∀ k, drained k i'.
Proof.
  destruct (drain FlipPackages i) as (i1 & R1 & M1 & D1 & O1).
  destruct (drain FlipKeys i1) as (i2 & R2 & M2 & D2 & O2).
  destruct (drain AnswersHashTxs i2) as (i3 & R3 & M3 & D3 & O3).
  destruct (drain ShortAnswersTxs i3) as (i4 & R4 & M4 & D4 & O4).
  exists i4. split_and!; [by rewrite R1, R2, R3|by rewrite M4, M3, M2|]. intros k.
  destruct k; [apply O4, O3, O2|apply O4, O3|apply O4|]; done.
Qed.

Lemma drained_waiting k i : drained k i → waiting k i = [].
Proof. intros [Hc _]. destruct k; cbn in *; by rewrite (nil_length_inv _ Hc). Qed.

(** [C16]  Whatever happened, when nothing new comes and the database accepts what it is
    given, the goroutines can go on until every timestamp that came has been saved: no
    interleaving locks them out of it. *)
Theorem timestamps_get_saved actions i :
  run NewIndexer actions = Some i →
  ∃ rest i', Forall quiet rest ∧ run i rest = Some i' ∧
    ∀ k, all_saved k i' ≡ₚ actions ≫= published k.
Proof.
  intros Hrun. destruct (run_accounts _ _ _ NewIndexer_ok Hrun) as [Hok Hacc].
  destruct (leave i Hok) as (i1 & R1 & M1). destruct (drain_all i1) as (i2 & R2 & M2 & D2).
  assert (reaches i i2) as R12 by by rewrite R1.
  destruct (save_now i2) as (i3 & R3 & M3 & C3 & W3); [by rewrite M2|by apply (reaches_ok i)|].
  assert (reaches i i3) as (rest & Hq & Hr) by by rewrite R12.
  exists rest, i3. split_and!; [done..|]. intros k.
  destruct (run_accounts _ _ _ Hok Hr) as [[_ Hin _] Hacc3]. specialize (Hacc3 k).
  assert (rest ≫= published k = []) as Hno.
  { clear -Hq. induction Hq as [|a l Ha _ IH]; [done|]. cbn. rewrite IH. by destruct a, k. }
  rewrite Hno, app_nil_r, Hacc in Hacc3. unfold accounted, on_the_way, held_by in Hacc3.
  assert (∀ t, pc i3 t = Outside) as Hout.
  { intros t. destruct (pc i3 t) eqn:Ht; [done|..]; exfalso;
      (assert (mutex i3 = Some t) by (apply Hin; by rewrite Ht)); congruence. }
  destruct (W3 k) as [Hl Hw]. rewrite !Hout, C3, Hl, Hw, (proj2 (D2 k)), (drained_waiting _ _ (D2 k)) in Hacc3.
  cbn in Hacc3. rewrite app_nil_r in Hacc3. rewrite Hacc3. by destruct k.
Qed.
End runs.

(** ** Witnesses *)

#[export] Instance SamplePoolKeys : PoolKeys := {|
  PrivateFlipKeysPackage := Address * Z; pp_Epoch := snd;
  PublicFlipKey := Address * Z; pk_Epoch := snd;
  SenderFlipKeysPackage key := Some key.1;
  SenderFlipKey key := if bool_decide (key.2 = 0%Z) then None else Some key.1;
  types_Sender tx := Some (tx_Sender tx)
|}.

(** A package, a key that is not signed, a transaction with answers; the database refuses
    the first save, while another package comes. *)
Definition sample_actions : list action :=
  [NewFlipKeysPackage (mkAddress 1, 5%Z) 100; NewFlipKey (mkAddress 2, 0%Z) 101;
   NewTx (sample_tx <| tx_Type := SubmitShortAnswersTx |>) 102; Listen FlipKeys;
   Listen FlipPackages; Listen FlipPackages]
  ++ replicate 6 (SaveData Destroyer true)
  ++ [SaveData Destroyer false; NewFlipKeysPackage (mkAddress 3, 5%Z) 103; Listen FlipPackages; Listen FlipPackages]
  ++ replicate 5 (SaveData Destroyer true).

Definition sample_indexer : Indexer := default NewIndexer (run NewIndexer sample_actions).

Example sample_refused :
  run NewIndexer sample_actions = Some sample_indexer ∧ saved sample_indexer = [] ∧
  mt_Time <$> flipPrivateKeysPackageTimestamps (cache sample_indexer) = [103; 100]%Z ∧
  length (shortAnswersTxChan sample_indexer) = 1 ∧ pc sample_indexer Destroyer = Outside.
Proof. by vm_compute. Qed.

Lemma timestamps_are_kept_witness :
  run NewIndexer sample_actions = Some sample_indexer ∧
  (∀ k, sample_actions ≫= published k ≡ₚ all_saved k sample_indexer ++ on_the_way k sample_indexer) ∧
  Forall (λ d, data_length d ≠ 0) (saved sample_indexer) ∧
  (pc sample_indexer SaveDataLoop = Outside ∨ pc sample_indexer Destroyer = Outside).
Proof.
  assert (run NewIndexer sample_actions = Some sample_indexer) as Hr by by vm_compute.
  split; [done|]. by apply (timestamps_are_kept sample_actions).
Defined.

Lemma timestamps_get_saved_witness :
  run NewIndexer sample_actions = Some sample_indexer ∧
  ∃ rest i', Forall quiet rest ∧ run sample_indexer rest = Some i' ∧
    ∀ k, all_saved k i' ≡ₚ sample_actions ≫= published k.
Proof.
  assert (run NewIndexer sample_actions = Some sample_indexer) as Hr by by vm_compute.
  split; [done|]. by apply (timestamps_get_saved sample_actions).
Defined.
