(* ===== verification/DataService.v ===== *)
(** * The refreshing of derived data

    data/service.go calls procedures of the database that compute derived data, every
    hour, every day or every epoch, as a table of the database says, and not around a
    validation.  When each is due is kept in a second table, which db/postgres_data.go
    reads and writes; its statements are in the code, so the two tables are modelled, and
    what the procedures do is a parameter.  db/postgres_identifiers.go quotes the names
    that are put into the statements. *)

From Stdlib Require Import Ascii.
From S2P Require Import Prelude.

(** ** Data *)

(** Go: data/types.go Data

    Times are nanoseconds since the zero time of Go, in UTC. *)
Record Data := mkData {
  dt_Name : string;
  dt_RefreshProcedure : option string;
  dt_RefreshPeriod : option string;
  dt_RefreshDelay : option Z;
  dt_RefreshTime : option Z;
  dt_RefreshEpoch : option Z
}.

(** Go: data/types.go refreshPeriodEpoch:16-20 *)
Definition refreshPeriodEpoch : string := "e".
Definition refreshPeriodDay : string := "d".
Definition refreshPeriodHour : string := "h".

(** Go: data/service.go state *)
Record state := mkState { st_epoch : Z; st_epochHeight : Z; st_height : Z; st_epochPeriod : Z }.

(** Go: events/events.go CurrentEpochEvent *)
Record CurrentEpochEvent := mkCurrentEpochEvent { ce_Epoch : Z; ce_Height : Z; ce_EpochHeight : Z; ce_EpochPeriod : Z }.
(** Go: events/events.go NewEpochEvent *)
Record NewEpochEvent := mkNewEpochEvent { ne_Epoch : Z; ne_EpochHeight : Z }.
(** Go: events/events.go NewBlockEvent *)
Record NewBlockEvent := mkNewBlockEvent { nb_Height : Z; nb_EpochPeriod : Z }.

(** The rows of the two tables, as [createDataTables] defines them; a delay is in
    minutes, a time in seconds of the Unix epoch. *)
Record DataRow := mkDataRow {
  dr_name : string;
  dr_refresh_procedure : option string;
  dr_refresh_period : option string;
  dr_refresh_delay_minutes : option Z
}.
Record DataStateRow := mkDataStateRow {
  ds_refresh_time : option Z;
  ds_refresh_epoch : option Z;
  ds_last_refresh_time : option Z
}.

(** The driver of the database, the procedures with the data they work on ([None]: an
    error), and what the code reads of the node. *)
Class DataEnv := {
  pq_QuoteIdentifier : string → string;
  DbContent : Type;
  CallProcedure : string → DbContent → option DbContent;
  TimestampToTime : Z → Z;
  FlipLotteryPeriod : Z
}.

Record DataDb `{DataEnv} := mkDataDb {
  db_tables : bool;
  db_data : list DataRow;
  db_state : gmap string DataStateRow;
  db_content : DbContent
}.

(** ** Names in statements *)

Section identifiers.
Context `{DataEnv}.

Definition between (lo hi : nat) (c : ascii) : bool := (lo <=? nat_of_ascii c)%nat && (nat_of_ascii c <=? hi)%nat.
Definition letter (c : ascii) : bool := between 65 90 c || between 97 122 c || Ascii.eqb c "_".
Definition word (c : ascii) : bool := letter c || between 48 57 c || Ascii.eqb c "$".

(** Go: db/postgres_identifiers.go postgresIdentifierPattern:11-11

    The texts the regular expression matches. *)
Definition postgresIdentifierPattern (s : string) : bool :=
  match s with EmptyString => false | String c s => letter c && all_chars word s end.

(** Go: db/postgres_identifiers.go quoteQualifiedIdentifier *)
Definition quoteQualifiedIdentifier (value : string) : option string :=
  let parts := Split "." value in
  if forallb postgresIdentifierPattern parts
  then Some (Join "." ((λ part, pq_QuoteIdentifier (ToLower part)) <$> parts))
  else None.
End identifiers.

(** ** Times *)

Section times.
Local Open Scope Z_scope.

Definition Second : Z := 1000000000.
Definition Minute : Z := 60 * Second.
Definition Hour : Z := 60 * Minute.
(** The seconds from the zero time of Go to the Unix epoch. *)
Definition unix_seconds : Z := 62135596800.
(** [time.Time.Truncate] and [time.Time.Unix] *)
Definition Truncate (t d : Z) : Z := t - t `mod` d.
Definition Unix (t : Z) : Z := t / Second - unix_seconds.
End times.

(** ** The accessor *)

Section accessor.
Context `{DataEnv} (dataTable dataStateTable : string).

(** Go: db/postgres_data.go createDataTables

    [ok]: the database answers. *)
Definition createDataTables (ok : bool) (db : DataDb) : option DataDb :=
  match quoteQualifiedIdentifier dataTable, quoteQualifiedIdentifier dataStateTable with
  | Some _, Some _ => if ok then Some (db <| db_tables := true |>) else None
  | _, _ => None
  end.

(** Go: db/postgres_data.go GetDataList:37-71

    A row of the join, converted. *)
Definition scan_item (db : DataDb) (row : DataRow) : Data :=
  let vs := db_state db !! dr_name row in
  {| dt_Name := dr_name row;
     dt_RefreshProcedure := dr_refresh_procedure row;
     dt_RefreshPeriod := dr_refresh_period row;
     dt_RefreshDelay := (λ minutes, minutes * Minute)%Z <$> dr_refresh_delay_minutes row;
     dt_RefreshTime := TimestampToTime <$> (vs ≫= ds_refresh_time);
     dt_RefreshEpoch := u16 <$> (vs ≫= ds_refresh_epoch) |}.

(** Go: db/postgres_data.go GetDataList

    When the tables are not there they are created, and the answer is an empty list
    without an error, whether they can be queried again or not. *)
Definition GetDataList (ok : bool) (db : DataDb) : option (list Data) * DataDb :=
  match quoteQualifiedIdentifier dataTable, quoteQualifiedIdentifier dataStateTable with
  | Some _, Some _ =>
      if negb ok then (None, db)
      else if db_tables db then (Some (scan_item db <$> db_data db), db)
      else match createDataTables ok db with Some db' => (Some [], db') | None => (None, db) end
  | _, _ => (None, db)
  end.

(** Go: db/postgres_data.go UpdateRefreshTime *)
Definition UpdateRefreshTime (ok : bool) (dataName : string) (refreshTime : Z) (db : DataDb) : option DataDb :=
  match quoteQualifiedIdentifier dataStateTable with
  | None => None
  | Some _ =>
      if negb (ok && db_tables db) then None else
      Some (db <| db_state ::= insert dataName
                    match db_state db !! dataName with
                    | None => mkDataStateRow (Some (Unix refreshTime)) None None
                    | Some row => row <| ds_refresh_time := Some (Unix refreshTime) |>
                    end |>)
  end.

(** A column of the type smallint. *)
Definition smallint (z : option Z) : bool :=
  match z with None => true | Some z => (- 2 ^ 15 <=? z)%Z && (z <? 2 ^ 15)%Z end.

(** Go: db/postgres_data.go Refresh

    In one transaction. *)
Definition Refresh (ok : bool) (dataName refreshProcedure : string) (time : Z) (nextRefreshTime refreshEpoch : option Z)
    (db : DataDb) : option DataDb :=
  match quoteQualifiedIdentifier refreshProcedure, quoteQualifiedIdentifier dataStateTable with
  | Some quotedRefreshProcedure, Some _ =>
      let nextRefreshTimeUnix := Unix <$> nextRefreshTime in
      if negb ok then None else
      match CallProcedure quotedRefreshProcedure (db_content db) with
      | None => None
      | Some content =>
          if negb (db_tables db && smallint refreshEpoch) then None else
          Some (db <| db_content := content |>
                   <| db_state ::= insert dataName
                        (mkDataStateRow nextRefreshTimeUnix refreshEpoch (Some (Unix time))) |>)
      end
  | _, _ => None
  end.
End accessor.

(** ** The service *)

Section service.
Context `{DataEnv} (dataTable dataStateTable : string).

(** Go: data/service.go StartDataService:18-26 *)
Definition onCurrentEpoch (e : CurrentEpochEvent) (s : option state) : outcome (option state) :=
  Done (Some {| st_epoch := ce_Epoch e; st_epochHeight := ce_EpochHeight e; st_height := ce_Height e;
                st_epochPeriod := ce_EpochPeriod e |}).

(** Go: data/service.go StartDataService:27-31 *)
Definition onNewEpoch (e : NewEpochEvent) (s : option state) : outcome (option state) :=
  match s with
  | None => Panic
  | Some s => Done (Some (s <| st_epoch := ne_Epoch e |> <| st_epochHeight := ne_EpochHeight e |>))
  end.

(** Go: data/service.go StartDataService:32-36 *)
Definition onNewBlock (e : NewBlockEvent) (s : option state) : outcome (option state) :=
  match s with
  | None => Panic
  | Some s => Done (Some (s <| st_height := nb_Height e |> <| st_epochPeriod := nb_EpochPeriod e |>))
  end.

(** What is asked of the database. *)
Inductive command :=
  | CUpdateRefreshTime (name : string) (refreshTime : Z)
  | CRefresh (name refreshProcedure : string) (time : Z) (nextRefreshTime refreshEpoch : option Z).

(** Go: data/service.go observe:80-81 *)
Definition minutesAfterValidation : Z := 30.
Definition blocksAfterValidation : Z := 3 * minutesAfterValidation.

(** Go: data/service.go observe:82-82 *)
Definition isValidation (s : state) : bool :=
  (FlipLotteryPeriod <=? st_epochPeriod s)%Z
  || (u64 (st_height s - st_epochHeight s) <? blocksAfterValidation)%Z.

(** [t.Before(now)], of a time that may be nil, for which the branch is taken as well *)
Definition due (refreshTime : option Z) (now : Z) : bool :=
  match refreshTime with None => true | Some t => (t <? now)%Z end.

(** Go: data/service.go observe:79-121

    An item with a period of a day or an hour. *)
Definition check_periodic (s : state) (now clock : Z) (item : Data) (refreshProcedure refreshPeriod : string)
    : option command :=
  let period := if decide (refreshPeriod = refreshPeriodDay) then (Hour * 24)%Z else Hour in
  let truncatedNow := Truncate now period in
  match dt_RefreshTime item, dt_RefreshDelay item with
  | None, Some delay => Some (CUpdateRefreshTime (dt_Name item) (truncatedNow + delay)%Z)
  | refreshTime, delay =>
      if negb (due refreshTime now) then None
      else if isValidation s then
        Some (CUpdateRefreshTime (dt_Name item) (now + Minute * minutesAfterValidation)%Z)
      else
        let nextRefreshTime := (truncatedNow + period + default 0 delay)%Z in
        Some (CRefresh (dt_Name item) refreshProcedure clock (Some nextRefreshTime) None)
  end.

(** Go: data/service.go observe:122-144

    An item that is refreshed every epoch. *)
Definition check_epoch (s : state) (now clock : Z) (item : Data) (refreshProcedure : string) : option command :=
  let currentEpoch := st_epoch s in
  if negb (match dt_RefreshEpoch item with None => true | Some e => (e <=? currentEpoch)%Z end) then None else
  match dt_RefreshTime item, dt_RefreshDelay item with
  | None, Some delay => Some (CUpdateRefreshTime (dt_Name item) (now + delay)%Z)
  | refreshTime, _ =>
      if negb (due refreshTime now) then None
      else Some (CRefresh (dt_Name item) refreshProcedure clock None (Some (u16 (currentEpoch + 1))))
  end.

(** Go: data/service.go observe:74-146

    [clock] is the time when the procedure is called. *)
Definition check_item (s : state) (now clock : Z) (item : Data) : option command :=
  match dt_RefreshPeriod item, dt_RefreshProcedure item with
  | Some refreshPeriod, Some refreshProcedure =>
      if decide (refreshPeriod = refreshPeriodDay ∨ refreshPeriod = refreshPeriodHour)
      then check_periodic s now clock item refreshProcedure refreshPeriod
      else if decide (refreshPeriod = refreshPeriodEpoch) then check_epoch s now clock item refreshProcedure
      else None
  | _, _ => None
  end.

Definition execute (ok : bool) (c : command) (db : DataDb) : option DataDb :=
  match c with
  | CUpdateRefreshTime name t => UpdateRefreshTime dataStateTable ok name t db
  | CRefresh name procedure time next epoch => Refresh dataStateTable ok name procedure time next epoch db
  end.

(** What a turn of the loop meets: what the database answers, the state, which the
    handlers of the events may change between two items, and the times. *)
Record Turn := mkTurn {
  tn_started : bool;
  tn_list_ok : bool;
  tn_state : nat → state;
  tn_now : Z;
  tn_clock : nat → Z;
  tn_ok : nat → bool
}.

(** The items from the [i]-th on, with the commands the database carried out; an error is
    logged. *)
Fixpoint observe_items (t : Turn) (i : nat) (items : list Data) (acc : DataDb * list command)
    : DataDb * list command :=
  match items with
  | [] => acc
  | item :: rest =>
      observe_items t (S i) rest
        match check_item (tn_state t i) (tn_now t) (tn_clock t i) item with
        | None => acc
        | Some c =>
            match execute (tn_ok t i) c acc.1 with
            | None => acc
            | Some db => (db, acc.2 ++ [c])
            end
        end
  end.

(** Go: data/service.go observe:55-148

    One turn of the loop. *)
Definition observe (t : Turn) (acc : DataDb * list command) : DataDb * list command :=
  if negb (tn_started t) then acc else
  let (dataList, db) := GetDataList dataTable dataStateTable (tn_list_ok t) acc.1 in
  match dataList with
  | None => (db, acc.2)
  | Some dataList => observe_items t 0 dataList (db, acc.2)
  end.
End service.

(** ** When things are refreshed *)

(** [common.TimestampToTime], and [pq.QuoteIdentifier] of a text of the characters of
    identifiers. *)
Class DataLaws `{DataEnv} := {
  TimestampToTime_spec z : TimestampToTime z = ((z + unix_seconds) * Second)%Z;
  pq_QuoteIdentifier_spec s :
    all_chars word s = true → pq_QuoteIdentifier s = String "034" (String.append s (String "034" EmptyString))
}.

Section schedule.
Context `{DataLaws} (dataTable dataStateTable : string).
Implicit Types (db : DataDb) (log : list command) (row : DataRow).

(** A refresh comes after the time, and in a later epoch than, what the refresh before it
    left for the next one. *)
Definition follows (c1 c2 : command) : Prop :=
  match c1, c2 with
  | CRefresh n1 _ _ next1 epoch1, CRefresh n2 _ time2 _ epoch2 =>
      n1 = n2 →
      (∀ next, next1 = Some next → next < time2)%Z ∧
      (∀ e1, epoch1 = Some e1 → ∃ e2, epoch2 = Some e2 ∧ e1 < e2)%Z
  | _, _ => True
  end.

(** What a refresh leaves for the next one: the end of the period, with the delay of the
    row; or an epoch. *)
Definition leaves (rows : list DataRow) (c : command) : Prop :=
  match c with
  | CUpdateRefreshTime _ _ => True
  | CRefresh name _ time next epoch => ∃ row, row ∈ rows ∧ dr_name row = name ∧
      match epoch with
      | Some e => dr_refresh_period row = Some refreshPeriodEpoch ∧ next = None ∧ (0 ≤ e)%Z
      | None =>
          let delay := (default 0 (dr_refresh_delay_minutes row) * Minute)%Z in
          ∃ now period t, (now ≤ time)%Z ∧ next = Some t ∧
            (dr_refresh_period row = Some refreshPeriodDay ∧ period = (24 * Hour)%Z ∨
             dr_refresh_period row = Some refreshPeriodHour ∧ period = Hour) ∧
            ((period | t - delay) ∧ now < t - delay ≤ now + period)%Z
      end
  end.

(** The state table keeps what the last refresh left. *)
Definition kept db (c : command) : Prop :=
  match c with
  | CUpdateRefreshTime _ _ => True
  | CRefresh name _ _ next epoch => ∃ vs, db_state db !! name = Some vs ∧
      (∀ t, next = Some t → ∃ z, ds_refresh_time vs = Some z ∧ (t ≤ (z + unix_seconds) * Second)%Z) ∧
      (∀ e, epoch = Some e → ∃ e', ds_refresh_epoch vs = Some e' ∧ (e ≤ e' < 2 ^ 15)%Z)
  end.

Record log_ok db log : Prop := {
  lo_follows i j c1 c2 : i < j → log !! i = Some c1 → log !! j = Some c2 → follows c1 c2;
  lo_leaves : Forall (leaves (db_data db)) log;
  lo_kept : Forall (kept db) log
}.

Definition command_name (c : command) : string :=
  match c with CUpdateRefreshTime n _ | CRefresh n _ _ _ _ => n end.

Lemma Truncate_spec now period :
  (0 < period)%Z → ((period | Truncate now period + period) ∧ now < Truncate now period + period ≤ now + period)%Z.
Proof.
  intros Hp. unfold Truncate. pose proof (Z.mod_pos_bound now period Hp). split; [|lia].
  apply Z.divide_add_r; [|done]. exists (now / period)%Z. rewrite (Z.div_mod now period) at 1 by lia. lia.
Qed.

Lemma whole_seconds t : (Second | t)%Z → ((Unix t + unix_seconds) * Second = t)%Z.
Proof.
  intros [k ->]. unfold Unix. rewrite Z.div_mul by by unfold Second. lia.
Qed.

Lemma Unix_below t : (t - Second < (Unix t + unix_seconds) * Second ≤ t)%Z.
Proof.
  unfold Unix. assert (0 < Second)%Z as Hs by done. pose proof (Z.div_mod t Second). pose proof (Z.mod_pos_bound t Second Hs).
  lia.
Qed.

(** The commands that are carried out for an item. *)
Lemma check_item_name s now clock db row c :
  check_item s now clock (scan_item db row) = Some c → command_name c = dr_name row.
Proof.
  unfold check_item, check_periodic, check_epoch. cbn [scan_item dt_Name].
  repeat case_match; intros [= <-] || intros Hd; done.
Qed.

Lemma execute_frame ok c db db' :
  execute dataStateTable ok c db = Some db' →
  db_data db' = db_data db ∧ ∃ vs, db_state db' = <[command_name c := vs]> (db_state db).
Proof.
  unfold execute, UpdateRefreshTime, Refresh. repeat case_match; intros [= <-] || intros Hd; try done;
    (split; [done|eexists; done]).
Qed.

Definition row_delay row : Z := (default 0 (dr_refresh_delay_minutes row) * Minute)%Z.
Definition row_period row : option Z :=
  match dr_refresh_period row with
  | Some p => if decide (p = refreshPeriodDay) then Some (Hour * 24)%Z
              else if decide (p = refreshPeriodHour) then Some Hour else None
  | None => None
  end.

(** The cases of an item that asks something of the database. *)
Inductive checked (s : state) (now clock : Z) db row : command → Prop :=
  | checked_delay t :
      dt_RefreshTime (scan_item db row) = None →
      checked s now clock db row (CUpdateRefreshTime (dr_name row) t)
  | checked_validation period :
      row_period row = Some period → due (dt_RefreshTime (scan_item db row)) now = true →
      isValidation s = true →
      checked s now clock db row (CUpdateRefreshTime (dr_name row) (now + Minute * minutesAfterValidation)%Z)
  | checked_periodic period procedure :
      row_period row = Some period → due (dt_RefreshTime (scan_item db row)) now = true →
      isValidation s = false →
      checked s now clock db row
        (CRefresh (dr_name row) procedure clock (Some (Truncate now period + period + row_delay row)%Z) None)
  | checked_epoch procedure :
      dr_refresh_period row = Some refreshPeriodEpoch →
      (∀ e, dt_RefreshEpoch (scan_item db row) = Some e → (e ≤ st_epoch s)%Z) →
      due (dt_RefreshTime (scan_item db row)) now = true →
      checked s now clock db row (CRefresh (dr_name row) procedure clock None (Some (u16 (st_epoch s + 1)))).

Lemma row_delay_spec row :
  row_delay row = default 0%Z ((λ minutes, minutes * Minute)%Z <$> dr_refresh_delay_minutes row).
Proof. unfold row_delay. by destruct (dr_refresh_delay_minutes row). Qed.

Lemma check_item_cases s now clock db row c :
  check_item s now clock (scan_item db row) = Some c → checked s now clock db row c.
Proof.
  unfold check_item. cbn [scan_item dt_RefreshPeriod dt_RefreshProcedure].
  destruct (dr_refresh_period row) as [p|] eqn:Hp; [|done].
  destruct (dr_refresh_procedure row) as [procedure|]; [|done]. fold (scan_item db row).
  destruct (decide _) as [Hd|_]; [|destruct (decide _) as [->|_]; [|done]].
  - unfold check_periodic. set (period := if decide (p = refreshPeriodDay) then _ else _).
    assert (row_period row = Some period) as Hper.
    { unfold row_period, period. rewrite Hp. destruct (decide (p = refreshPeriodDay)); [done|].
      destruct Hd; [done|by rewrite decide_True]. }
    destruct (dt_RefreshTime _) as [t|] eqn:Ht.
    + destruct (due (Some t) now) eqn:Hdue; [|done]. cbn [negb]. rewrite <- Ht in Hdue.
      destruct (isValidation s) eqn:Hv; intros [= <-]; [by eapply checked_validation|].
      rewrite <- row_delay_spec. by eapply checked_periodic.
    + destruct (dt_RefreshDelay _) as [delay|] eqn:Hdelay.
      * intros [= <-]. by apply checked_delay.
      * cbn [due negb]. destruct (isValidation s) eqn:Hv; intros [= <-].
        -- eapply checked_validation; [done|by rewrite Ht|done].
        -- assert (row_delay row = 0)%Z as <- by (rewrite row_delay_spec; cbn in Hdelay; by rewrite Hdelay).
           eapply checked_periodic; [done|by rewrite Ht|done].
  - unfold check_epoch.
    destruct (negb (match dt_RefreshEpoch _ with None => true | Some e => _ end)) eqn:He; [done|].
    assert (∀ e, dt_RefreshEpoch (scan_item db row) = Some e → (e ≤ st_epoch s)%Z) as Hle.
    { intros e Hre. rewrite Hre in He. apply negb_false_iff in He. by apply Z.leb_le. }
    destruct (dt_RefreshTime _) as [t|] eqn:Ht.
    + destruct (due (Some t) now) eqn:Hdue; [|done]. cbn [negb]. rewrite <- Ht in Hdue. intros [= <-].
      by apply checked_epoch.
    + destruct (dt_RefreshDelay _) as [delay|]; [intros [= <-]; by apply checked_delay|].
      cbn [due negb]. intros [= <-]. apply checked_epoch; [done|done|by rewrite Ht].
Qed.

Lemma row_period_spec row period :
  row_period row = Some period →
  (0 < period)%Z ∧
  (dr_refresh_period row = Some refreshPeriodDay ∧ period = (24 * Hour)%Z ∨
   dr_refresh_period row = Some refreshPeriodHour ∧ period = Hour).
Proof.
  unfold row_period. destruct (dr_refresh_period row) as [p|]; [|done].
  destruct (decide _) as [->|_]; [intros [= <-]; split; [done|by left]|].
  destruct (decide _) as [->|_]; [intros [= <-]; split; [done|by right]|done].
Qed.

Lemma command_leaves s now clock db row c :
  row ∈ db_data db → (now ≤ clock)%Z → checked s now clock db row c → leaves (db_data db) c.
Proof.
  intros Hrow Hclock [|?|period procedure Hp|]; cbn [leaves]; [done|done|..]; exists row; split_and!; try done.
  2:{ apply uwrap_range. done. }
  destruct (row_period_spec _ _ Hp) as [Hpos Hcase].
  exists now, period, (Truncate now period + period + row_delay row)%Z.
  destruct (Truncate_spec now period Hpos) as [Hdiv Hrange]. split; [done|]. split; [done|]. split; [done|].
  fold (row_delay row). replace (_ + row_delay row - row_delay row)%Z with (Truncate now period + period)%Z by lia.
  by split.
Qed.

Lemma leaves_epoch rows name procedure time next e : leaves rows (CRefresh name procedure time next (Some e)) → (0 ≤ e)%Z.
Proof. by intros (? & _ & _ & _ & _ & He). Qed.

(** The rows of a table have their names. *)
Definition rows_ok (rows : list DataRow) : Prop :=
  NoDup (dr_name <$> rows) ∧ Forall (λ row, (0 ≤ row_delay row)%Z) rows.

Lemma row_by_name rows row row' :
  rows_ok rows → row ∈ rows → row' ∈ rows → dr_name row = dr_name row' → row = row'.
Proof.
  intros [Hnd _] (i & Hi)%list_elem_of_lookup (j & Hj)%list_elem_of_lookup Hn.
  assert (i = j) as <-; [|congruence].
  eapply (list.NoDup_lookup _ _ _ (dr_name row) Hnd); rewrite list_lookup_fmap; [by rewrite Hi|by rewrite Hj, Hn].
Qed.

(** A command of a row that leaves a time has a period, and one that leaves an epoch is
    of an epoch. *)
Lemma leaves_row rows row name procedure time next epoch :
  rows_ok rows → row ∈ rows → dr_name row = name → leaves rows (CRefresh name procedure time next epoch) →
  (next ≠ None → row_period row ≠ None) ∧ (epoch ≠ None → dr_refresh_period row = Some refreshPeriodEpoch).
Proof.
  intros Hok Hrow Hname (row' & Hrow' & Hname' & Hl).
  rewrite (row_by_name _ row' row Hok Hrow' Hrow) in Hl by congruence. destruct epoch as [e|].
  - destruct Hl as (Hp & -> & _). by split.
  - destruct Hl as (now & period & t & _ & _ & Hp & _). split; [|done]. intros _. unfold row_period.
    destruct Hp as [[-> _]|[-> _]]; by vm_compute.
Qed.

Lemma scan_RefreshTime db row vs z :
  db_state db !! dr_name row = Some vs → ds_refresh_time vs = Some z →
  dt_RefreshTime (scan_item db row) = Some ((z + unix_seconds) * Second)%Z.
Proof. intros Hvs Hz. cbn. rewrite Hvs. cbn. by rewrite Hz, <- TimestampToTime_spec. Qed.

Lemma scan_RefreshEpoch db row vs e :
  db_state db !! dr_name row = Some vs → ds_refresh_epoch vs = Some e → (0 ≤ e < 2 ^ 15)%Z →
  dt_RefreshEpoch (scan_item db row) = Some e.
Proof.
  intros Hvs He Hr. cbn. rewrite Hvs. cbn. rewrite He. cbn. f_equal. unfold uwrap. apply Z.mod_small. lia.
Qed.

(** What was kept of an earlier refresh of the same row stands against the new command. *)
Lemma kept_follows s now clock db row c c1 :
  rows_ok (db_data db) → row ∈ db_data db → (now ≤ clock)%Z → (0 ≤ st_epoch s < 2 ^ 16 - 1)%Z →
  checked s now clock db row c → leaves (db_data db) c1 → kept db c1 → follows c1 c.
Proof.
  intros Hok Hrow Hclock Hepoch Hc Hl Hk. destruct c1 as [|n1 p1 t1 next1 epoch1]; [done|].
  destruct Hk as (vs & Hvs & Hnext & Hep).
  destruct Hc as [|?|period procedure Hper Hdue _|procedure Hp He Hdue]; [done|done|..]; cbn [follows]; intros ->.
  - destruct (leaves_row _ _ _ _ _ _ _ Hok Hrow eq_refl Hl) as [_ Hepo]. split.
    + intros next Hn. destruct (Hnext next Hn) as (z & Hz & Hle).
      rewrite (scan_RefreshTime _ _ _ _ Hvs Hz) in Hdue. cbn in Hdue. apply Z.ltb_lt in Hdue. lia.
    + intros e1 ->. specialize (Hepo ltac:(done)). unfold row_period in Hper. rewrite Hepo in Hper.
      by vm_compute in Hper.
  - destruct (leaves_row _ _ _ _ _ _ _ Hok Hrow eq_refl Hl) as [Hper _]. split.
    + intros next ->. exfalso. apply Hper; [done|]. unfold row_period. by rewrite Hp.
    + intros e1 ->. destruct (Hep e1 eq_refl) as (e' & He' & Hle). pose proof (leaves_epoch _ _ _ _ _ _ Hl) as Hpos.
      specialize (He e' (scan_RefreshEpoch _ _ _ _ Hvs He' ltac:(lia))).
      eexists. split; [done|]. unfold uwrap. rewrite Z.mod_small; lia.
Qed.

(** The row that the state table has of a name after a command. *)
Definition after (c : command) (old : option DataStateRow) : DataStateRow :=
  match c with
  | CUpdateRefreshTime _ t =>
      match old with
      | None => mkDataStateRow (Some (Unix t)) None None
      | Some row => row <| ds_refresh_time := Some (Unix t) |>
      end
  | CRefresh _ _ time next epoch => mkDataStateRow (Unix <$> next) epoch (Some (Unix time))
  end.

Lemma execute_spec ok c db db' :
  execute dataStateTable ok c db = Some db' →
  db_data db' = db_data db ∧
  db_state db' = <[command_name c := after c (db_state db !! command_name c)]> (db_state db) ∧
  match c with CRefresh _ _ _ _ epoch => smallint epoch = true | _ => True end.
Proof.
  unfold execute, UpdateRefreshTime, Refresh.
  destruct c as [name t|name procedure time next epoch].
  - destruct (quoteQualifiedIdentifier dataStateTable); [|done].
    destruct (negb (ok && db_tables db)); [done|]. by intros [= <-].
  - destruct (quoteQualifiedIdentifier procedure), (quoteQualifiedIdentifier dataStateTable); try done.
    destruct (negb ok); [done|]. destruct (CallProcedure _ _); [|done].
    destruct (db_tables db); [|done]. destruct (smallint epoch); [|done]. by intros [= <-].
Qed.

Lemma kept_frame db db' c1 name vs :
  db_state db' = <[name := vs]> (db_state db) → command_name c1 ≠ name → kept db c1 → kept db' c1.
Proof.
  destruct c1 as [|n p t next epoch]; [done|]. cbn. intros -> Hn (w & Hw & Hk). exists w.
  by rewrite lookup_insert_ne.
Qed.

Lemma kept_old s now clock ok db db' row c c1 :
  rows_ok (db_data db) → row ∈ db_data db → (now ≤ clock)%Z → (0 ≤ st_epoch s < 2 ^ 16 - 1)%Z →
  checked s now clock db row c → execute dataStateTable ok c db = Some db' →
  leaves (db_data db) c1 → kept db c1 → command_name c1 = dr_name row → kept db' c1.
Proof.
  intros Hok Hrow Hclock Hepoch Hc He Hl Hk Hname.
  destruct c1 as [|n1 p1 t1 next1 epoch1]; [done|]. cbn in Hname. subst n1.
  destruct Hk as (vs & Hvs & Hnext & Hep).
  destruct (leaves_row _ _ _ _ _ _ _ Hok Hrow eq_refl Hl) as [Hper Hepo].
  destruct (execute_spec _ _ _ _ He) as (_ & Hst & Hsmall).
  assert (command_name c = dr_name row) as Hcn by by destruct Hc. rewrite Hcn, Hvs in Hst.
  exists (after c (Some vs)). rewrite Hst. split; [apply lookup_insert_eq|].
  destruct Hc as [t Hn|period Hp Hdue _|period procedure Hp Hdue _|procedure Hp Hle Hdue]; cbn [after].
  - split; [|done]. intros t' Ht'. destruct (Hnext t' Ht') as (z & Hz & _).
    by rewrite (scan_RefreshTime _ _ _ _ Hvs Hz) in Hn.
  - split; [|done]. intros t' Ht'. destruct (Hnext t' Ht') as (z & Hz & Hzle).
    rewrite (scan_RefreshTime _ _ _ _ Hvs Hz) in Hdue. cbn in Hdue. apply Z.ltb_lt in Hdue.
    eexists. split; [done|]. pose proof (Unix_below (now + Minute * minutesAfterValidation)%Z) as Hb.
    change (Minute * minutesAfterValidation)%Z with (1800 * Second)%Z in *. unfold Second in *. lia.
  - split.
    + intros t' Ht'. destruct (Hnext t' Ht') as (z & Hz & Hzle).
      rewrite (scan_RefreshTime _ _ _ _ Hvs Hz) in Hdue. cbn in Hdue. apply Z.ltb_lt in Hdue.
      eexists. split; [done|]. destruct (row_period_spec _ _ Hp) as [Hpp Hcase].
      destruct (Truncate_spec now period Hpp) as [Hdiv Hrange].
      destruct Hok as [_ Hdelay]. rewrite list.Forall_forall in Hdelay. specialize (Hdelay row Hrow). cbn in Hdelay.
      rewrite whole_seconds; [lia|]. apply Z.divide_add_r.
      * etrans; [|apply Hdiv]. destruct Hcase as [[_ ->]|[_ ->]]; by (apply Z.mod_divide; vm_compute).
      * unfold row_delay. exists (default 0 (dr_refresh_delay_minutes row) * 60)%Z. unfold Minute. lia.
    + intros e ->. specialize (Hepo ltac:(done)). unfold row_period in Hp. rewrite Hepo in Hp. by vm_compute in Hp.
  - split.
    + intros t' ->. exfalso. apply Hper; [done|]. unfold row_period. by rewrite Hp.
    + intros e ->. destruct (Hep e eq_refl) as (e' & He' & Hr). pose proof (leaves_epoch _ _ _ _ _ _ Hl) as Hpos.
      specialize (Hle e' (scan_RefreshEpoch _ _ _ _ Hvs He' ltac:(lia))).
      eexists. split; [done|]. unfold smallint in Hsmall. apply andb_true_iff in Hsmall as [_ Hs%Z.ltb_lt].
      unfold uwrap in *. rewrite Z.mod_small in * by lia. lia.
Qed.

Lemma kept_new ok db db' row c rows :
  execute dataStateTable ok c db = Some db' → command_name c = dr_name row → leaves rows c →
  (∀ name p t next epoch, c = CRefresh name p t next epoch → ∀ x, next = Some x → (Second | x)%Z) →
  kept db' c.
Proof.
  intros He Hn Hl Hw. destruct (execute_spec _ _ _ _ He) as (_ & Hst & Hsmall).
  destruct c as [|name p t next epoch]; [done|]. cbn in *. eexists. rewrite Hst. split; [apply lookup_insert_eq|].
  cbn. split.
  - intros x ->. eexists. split; [done|]. by rewrite whole_seconds by by eapply Hw.
  - intros e ->. eexists. split; [done|]. cbn in Hsmall. apply andb_true_iff in Hsmall as [_ ?%Z.ltb_lt]. lia.
Qed.

Lemma checked_whole s now clock db row c :
  checked s now clock db row c →
  ∀ name p t next epoch, c = CRefresh name p t next epoch → ∀ x, next = Some x → (Second | x)%Z.
Proof.
  intros Hc name p t next epoch Heq x ->. destruct Hc as [|?|period procedure Hp|]; simplify_eq.
  destruct (row_period_spec _ _ Hp) as [Hpp Hcase]. destruct (Truncate_spec now period Hpp) as [Hdiv _].
  apply Z.divide_add_r.
  - etrans; [|apply Hdiv]. destruct Hcase as [[_ ->]|[_ ->]]; by (apply Z.mod_divide; vm_compute).
  - unfold row_delay. exists (default 0 (dr_refresh_delay_minutes row) * 60)%Z. unfold Minute. lia.
Qed.

Lemma item_ok s now clock ok db db' row c log :
  rows_ok (db_data db) → row ∈ db_data db → (now ≤ clock)%Z → (0 ≤ st_epoch s < 2 ^ 16 - 1)%Z →
  log_ok db log → checked s now clock db row c → execute dataStateTable ok c db = Some db' →
  log_ok db' (log ++ [c]).
Proof.
  intros Hok Hrow Hclock Hepoch [Hf Hl Hk] Hc He. destruct (execute_spec _ _ _ _ He) as (Hd & Hst & _).
  assert (command_name c = dr_name row) as Hcn by by destruct Hc. rewrite list.Forall_forall in Hl, Hk. split.
  - intros i j c1 c2 Hij Hi Hj. apply lookup_snoc_Some in Hj as [[Hjl Hj]|[-> <-]].
    + rewrite lookup_app_l in Hi by lia. by apply (Hf i j).
    + rewrite lookup_app_l in Hi by done. apply list_elem_of_lookup_2 in Hi.
      by eapply kept_follows; [..|apply Hl|apply Hk].
  - rewrite Hd. apply list.Forall_app. rewrite list.Forall_singleton, list.Forall_forall. split; [done|].
    by eapply command_leaves.
  - apply list.Forall_app. rewrite list.Forall_singleton, list.Forall_forall. split.
    + intros c1 Hc1. destruct (decide (command_name c1 = dr_name row)) as [Hn|Hn].
      * by eapply kept_old; [..|apply Hl|apply Hk|].
      * eapply kept_frame; [done|by rewrite Hcn|by apply Hk].
    + eapply kept_new; [done|done|by eapply command_leaves|by eapply checked_whole].
Qed.

(** Times do not go back between the check of an item and its refresh, and the last epoch
    that the column, a [smallint], can hold is not reached. *)
Definition turn_ok (t : Turn) : Prop :=
  ∀ i, (tn_now t ≤ tn_clock t i)%Z ∧ (0 ≤ st_epoch (tn_state t i) < 2 ^ 15 - 1)%Z.

Lemma scan_item_frame db db' row vs name :
  db_state db' = <[name := vs]> (db_state db) → name ≠ dr_name row → scan_item db' row = scan_item db row.
Proof. intros Hst Hn. unfold scan_item. by rewrite Hst, lookup_insert_ne. Qed.

Lemma observe_items_ok t rows i acc :
  turn_ok t → rows_ok (db_data acc.1) → rows ⊆ db_data acc.1 → NoDup (dr_name <$> rows) → log_ok acc.1 acc.2 →
  let r := observe_items dataStateTable t i (scan_item acc.1 <$> rows) acc in
  db_data r.1 = db_data acc.1 ∧ log_ok r.1 r.2.
Proof.
  intros Ht. revert i acc. induction rows as [|row rows IH]; intros i [db log] Hok Hsub Hnd Hlog; [done|].
  cbn [fmap list_fmap observe_items fst snd] in *. apply list.NoDup_cons in Hnd as [Hn Hnd].
  assert (row ∈ db_data db ∧ rows ⊆ db_data db) as [Hrow Hrows].
  { split; [apply Hsub; by left|]. intros x Hx. apply Hsub. by right. }
  destruct (check_item _ _ _ (scan_item db row)) as [c|] eqn:Hc; [|by apply (IH (S i) (db, log))].
  destruct (execute dataStateTable (tn_ok t i) c db) as [db'|] eqn:He; [|by apply (IH (S i) (db, log))].
  destruct (execute_spec _ _ _ _ He) as (Hd & Hst & _). apply check_item_cases in Hc.
  assert (command_name c = dr_name row) as Hcn by by destruct Hc.
  assert (scan_item db <$> rows = scan_item db' <$> rows) as ->.
  { apply list_fmap_ext. intros j r Hj. symmetry. eapply scan_item_frame; [done|]. rewrite Hcn. intros Heq.
    apply Hn. rewrite Heq. apply list_elem_of_fmap. exists r. split; [done|]. by apply list_elem_of_lookup_2 in Hj. }
  rewrite <- Hd. apply (IH (S i) (db', log ++ [c])); cbn [fst snd]; rewrite ?Hd; [done..|].
  destruct (Ht i) as [Hclock Hepoch]. eapply item_ok; [..|done]; try done. lia.
Qed.

Lemma observe_ok t acc :
  turn_ok t → rows_ok (db_data acc.1) → log_ok acc.1 acc.2 →
  let r := observe dataTable dataStateTable t acc in db_data r.1 = db_data acc.1 ∧ log_ok r.1 r.2.
Proof.
  intros Ht Hok Hlog. unfold observe, GetDataList, createDataTables. destruct (negb (tn_started t)); [done|].
  destruct (quoteQualifiedIdentifier dataTable), (quoteQualifiedIdentifier dataStateTable); try done.
  destruct (tn_list_ok t); [|done]. cbn [negb]. destruct (db_tables acc.1).
  - destruct acc as [db log]. apply observe_items_ok; [done..| |by destruct Hok|done]. done.
  - split; [done|]. cbn [observe_items fst snd]. by destruct Hlog.
Qed.

(** [C17]  For a table of items with different names and delays that are not negative, which
    the schema does not ask for, and over any turns of the loop whose events have epochs
    below [2 ^ 15 - 1], as the column of the epochs is a [smallint], and whose clock does not
    go back within a turn: whatever the state of the items at first, whatever fails and
    whenever the events change the state, the refreshes of an item with a period of an hour
    or a day leave the next end of a period, with the delay of the item, and none comes
    before that; those of an item of an epoch have growing epochs. *)
Theorem refreshes_are_spaced db turns :
  rows_ok (db_data db) → Forall turn_ok turns →
  let log := (foldl (λ acc t, observe dataTable dataStateTable t acc) (db, []) turns).2 in
  (∀ i j c1 c2, i < j → log !! i = Some c1 → log !! j = Some c2 → follows c1 c2) ∧
  Forall (leaves (db_data db)) log.
Proof.
  intros Hok Hturns. set (r := foldl _ _ turns).
  assert (db_data r.1 = db_data db ∧ log_ok r.1 r.2) as [Hd [Hf Hl _]]; [|rewrite <- Hd; by split].
  unfold r. clear r. induction turns as [|t turns IH] using rev_ind; [done|].
  apply list.Forall_app in Hturns as [Hturns Ht]. rewrite list.Forall_singleton in Ht.
  destruct (IH Hturns) as [Hd Hlog]. rewrite foldl_snoc.
  destruct (observe_ok t (foldl (λ acc t, observe dataTable dataStateTable t acc) (db, []) turns)) as [Hd' Hlog'];
    [done|by rewrite Hd|done|]. by rewrite Hd', Hd.
Qed.

(** ** What is due is refreshed *)

(** The names can be put into statements, and the procedures and the database answer. *)
Record env_ok (rows : list DataRow) (t : Turn) : Prop := {
  eo_started : tn_started t = true;
  eo_list : tn_list_ok t = true;
  eo_ok i : tn_ok t i = true;
  eo_epoch i : (0 ≤ st_epoch (tn_state t i) < 2 ^ 15 - 1)%Z;
  eo_tables : is_Some (quoteQualifiedIdentifier dataTable) ∧ is_Some (quoteQualifiedIdentifier dataStateTable);
  eo_names row p : row ∈ rows → dr_refresh_procedure row = Some p → is_Some (quoteQualifiedIdentifier p);
  eo_call q content : is_Some (CallProcedure q content)
}.

Lemma check_item_procedure s now clock db row name p time next epoch :
  check_item s now clock (scan_item db row) = Some (CRefresh name p time next epoch) →
  dr_refresh_procedure row = Some p ∧ (epoch = None ∨ epoch = Some (u16 (st_epoch s + 1))).
Proof.
  unfold check_item, check_periodic, check_epoch. cbn [scan_item dt_RefreshProcedure dt_Name].
  repeat case_match; intros [= <- <- <- <- <-] || intros Hd; try done; simplify_eq; by auto.
Qed.

Lemma execute_ok rows t db row i c :
  env_ok rows t → row ∈ rows → db_tables db = true →
  check_item (tn_state t i) (tn_now t) (tn_clock t i) (scan_item db row) = Some c →
  ∃ db', execute dataStateTable (tn_ok t i) c db = Some db' ∧ db_tables db' = true.
Proof.
  intros [_ _ Hok Hep [_ [x Hx]] Hnames Hcall] Hrow Ht Hc. rewrite Hok.
  destruct c as [name tm|name p time next epoch]; cbn [execute].
  - unfold UpdateRefreshTime. rewrite Hx, Ht. cbn [andb negb]. eauto.
  - destruct (check_item_procedure _ _ _ _ _ _ _ _ _ _ Hc) as [Hp He].
    unfold Refresh. destruct (Hnames row p Hrow Hp) as [q ->]. rewrite Hx. cbn [negb].
    destruct (Hcall q (db_content db)) as [content ->]. rewrite Ht.
    assert (smallint epoch = true) as ->; [|cbn [andb negb]; by eauto].
    destruct He as [->| ->]; [done|]. specialize (Hep i). cbn. unfold uwrap. rewrite Z.mod_small by lia.
    apply andb_true_iff. split; [apply Z.leb_le|apply Z.ltb_lt]; lia.
Qed.

Lemma observe_items_grow t i items acc c :
  c ∈ acc.2 → c ∈ (observe_items dataStateTable t i items acc).2.
Proof.
  revert i acc. induction items as [|item items IH]; intros i acc Hc; [done|]. cbn [observe_items]. apply IH.
  repeat case_match; try done. apply elem_of_app. by left.
Qed.

Lemma observe_items_all all t rows i acc j row c :
  env_ok all t → rows ⊆ all → NoDup (dr_name <$> rows) → db_tables acc.1 = true → rows !! j = Some row →
  check_item (tn_state t (i + j)) (tn_now t) (tn_clock t (i + j)) (scan_item acc.1 row) = Some c →
  c ∈ (observe_items dataStateTable t i (scan_item acc.1 <$> rows) acc).2.
Proof.
  intros Henv. revert i j acc. induction rows as [|r rows IH]; intros i j [db log] Hsub Hnd Ht Hj Hc; [done|].
  cbn [fmap list_fmap observe_items fst snd] in *. apply list.NoDup_cons in Hnd as [Hn Hnd].
  assert (r ∈ all ∧ rows ⊆ all) as [Hr Hrows].
  { split; [apply Hsub; by left|]. intros x Hx. apply Hsub. by right. }
  destruct j as [|j].
  - cbn in Hj. injection Hj as ->. rewrite Nat.add_0_r in Hc. rewrite Hc.
    destruct (execute_ok _ _ _ _ _ _ Henv Hr Ht Hc) as (db' & -> & _). apply observe_items_grow. cbn.
    apply elem_of_app. right. by left.
  - cbn in Hj. replace (i + S j) with (S i + j) in Hc by lia.
    destruct (check_item _ _ _ (scan_item db r)) as [c'|] eqn:Hc'; [|by apply (IH (S i) j (db, log))].
    destruct (execute_ok _ _ _ _ _ _ Henv Hr Ht Hc') as (db' & He & Ht'). rewrite He.
    destruct (execute_spec _ _ _ _ He) as (_ & Hst & _). apply check_item_cases in Hc'.
    assert (command_name c' = dr_name r) as Hcn by by destruct Hc'.
    assert (∀ x, x ∈ rows → scan_item db' x = scan_item db x) as Hscan.
    { intros x Hx. eapply scan_item_frame; [done|]. rewrite Hcn. intros Heq. apply Hn. rewrite Heq.
      apply list_elem_of_fmap. by exists x. }
    assert (scan_item db <$> rows = scan_item db' <$> rows) as ->.
    { apply list_fmap_ext. intros k x Hx. symmetry. apply Hscan. by apply list_elem_of_lookup_2 in Hx. }
    apply (IH (S i) j (db', log ++ [c'])); try done. cbn. rewrite Hscan; [done|]. by apply list_elem_of_lookup_2 in Hj.
Qed.

(** Outside a validation, a turn of the loop refreshes every item with a period of an
    hour or a day whose time has come, or that has neither a time nor a delay, and sets
    the time of the next refresh to the end of the period, with the delay. *)
Theorem due_items_are_refreshed t db log row period p :
  env_ok (db_data db) t → rows_ok (db_data db) → db_tables db = true → row ∈ db_data db →
  row_period row = Some period → dr_refresh_procedure row = Some p →
  (∀ i, isValidation (tn_state t i) = false) →
  match db_state db !! dr_name row ≫= ds_refresh_time with
  | Some z => ((z + unix_seconds) * Second < tn_now t)%Z
  | None => dr_refresh_delay_minutes row = None
  end →
  ∃ time, CRefresh (dr_name row) p time (Some (Truncate (tn_now t) period + period + row_delay row)%Z) None
          ∈ (observe dataTable dataStateTable t (db, log)).2.
Proof.
  intros Henv Hok Ht Hrow Hper Hp Hval Hdue. destruct (Henv) as [Hs Hl _ _ [[q1 Hq1] [q2 Hq2]] _ _].
  unfold observe, GetDataList. rewrite Hs, Hq1, Hq2, Hl. cbn [negb fst snd]. rewrite Ht.
  apply list_elem_of_lookup in Hrow as Hj. destruct Hj as [j Hj]. exists (tn_clock t j).
  apply (observe_items_all (db_data db) t (db_data db) 0 (db, log) j row); [done|done|apply Hok|done|done|].
  destruct (row_period_spec _ _ Hper) as [_ Hcase]. unfold check_item. cbn [scan_item dt_RefreshPeriod dt_RefreshProcedure fst].
  rewrite Hp. fold (scan_item db row).
  assert (∃ rp, dr_refresh_period row = Some rp ∧ (rp = refreshPeriodDay ∨ rp = refreshPeriodHour) ∧
    (if decide (rp = refreshPeriodDay) then Hour * 24 else Hour)%Z = period) as (rp & -> & Hrp & Hperiod).
  { unfold row_period in Hper. destruct (dr_refresh_period row) as [rp|]; [|done]. exists rp.
    destruct Hcase as [[[= ->] ->]|[[= ->] ->]]; by auto. }
  rewrite decide_True by done. unfold check_periodic. rewrite Hperiod, Hval. rewrite row_delay_spec.
  cbn [scan_item dt_RefreshTime dt_RefreshDelay dt_Name]. destruct (db_state db !! dr_name row ≫= ds_refresh_time) as [z|].
  - cbn [fmap option_fmap option_map due]. rewrite TimestampToTime_spec.
    destruct (Z.ltb_spec ((z + unix_seconds) * Second) (tn_now t)); [done|lia].
  - rewrite Hdue. done.
Qed.
End schedule.

(** ** Quoted names *)

Section quoting.
Context `{DataLaws}.

Abbreviation dq := ("034"%char).

(** How the database reads a quoted identifier, after its first quote: two quotes stand
    for one. *)
Fixpoint read_quoted (s : string) : option (string * string) :=
  match s with
  | EmptyString => None
  | String c s =>
      if Ascii.eqb c dq then
        match s with
        | String c' s' =>
            if Ascii.eqb c' dq then (λ r, (String dq r.1, r.2)) <$> read_quoted s' else Some (EmptyString, s)
        | EmptyString => Some (EmptyString, EmptyString)
        end
      else (λ r, (String c r.1, r.2)) <$> read_quoted s
  end.

(** A qualified name, with what is left of the statement; [fuel] is more than the parts. *)
Fixpoint read_name (fuel : nat) (s : string) : option (list string * string) :=
  match fuel, s with
  | S fuel, String c s =>
      if negb (Ascii.eqb c dq) then None else
      match read_quoted s with
      | None => None
      | Some (part, rest) =>
          match rest with
          | String c' rest' =>
              if Ascii.eqb c' "." then (λ r, (part :: r.1, r.2)) <$> read_name fuel rest' else Some ([part], rest)
          | EmptyString => Some ([part], EmptyString)
          end
      end
  | _, _ => None
  end.

Definition starts_with (c : ascii) (s : string) : bool :=
  match s with String c' _ => Ascii.eqb c' c | EmptyString => false end.

Lemma word_not_quote c : word c = true → Ascii.eqb c dq = false ∧ Ascii.eqb c "." = false.
Proof. destruct c as [[] [] [] [] [] [] [] []]; vm_compute; intuition congruence. Qed.

Lemma word_lower c : word c = true → word (lower c) = true.
Proof. destruct c as [[] [] [] [] [] [] [] []]; vm_compute; intuition congruence. Qed.

Lemma words_lower s : all_chars word s = true → all_chars word (ToLower s) = true.
Proof.
  induction s as [|c s IH]; [done|]. cbn [all_chars ToLower]. intros [Hc Hs]%andb_true_iff.
  by rewrite word_lower, IH.
Qed.

Lemma pattern_words s : postgresIdentifierPattern s = true → all_chars word s = true.
Proof.
  destruct s as [|c s]; [done|]. cbn [postgresIdentifierPattern all_chars]. intros [Hc ->]%andb_true_iff.
  unfold word. by rewrite Hc.
Qed.

Lemma read_quoted_words s rest :
  all_chars word s = true → starts_with dq rest = false →
  read_quoted (String.append s (String dq rest)) = Some (s, rest).
Proof.
  intros Hs Hr. induction s as [|c s IH].
  - change (String.append EmptyString (String dq rest)) with (String dq rest). cbn [read_quoted].
    change (Ascii.eqb dq dq) with true. cbv iota. destruct rest as [|c rest]; [done|].
    cbn [starts_with] in Hr. by rewrite Hr.
  - cbn [all_chars] in Hs. apply andb_true_iff in Hs as [Hc Hs]. destruct (word_not_quote c Hc) as [Hq _].
    change (String.append (String c s) (String dq rest)) with (String c (String.append s (String dq rest))).
    cbn [read_quoted]. by rewrite Hq, IH.
Qed.

Lemma read_name_quoted parts rest fuel :
  parts ≠ [] → Forall (λ s, all_chars word s = true) parts → length parts ≤ fuel →
  starts_with dq rest = false → starts_with "." rest = false →
  read_name fuel (String.append (Join "." (pq_QuoteIdentifier <$> parts)) rest) = Some (parts, rest).
Proof.
  intros Hne Hp Hfuel Hr1 Hr2. revert fuel Hfuel. induction Hp as [|s parts Hs Hp IH]; [done|]. intros fuel Hfuel.
  destruct fuel as [|fuel]; cbn [length] in Hfuel; [lia|].
  assert (∀ a b c : string, String.append (String.append a b) c = String.append a (String.append b c)) as Happ.
  { intros a b c. induction a as [|x a IHa]; [done|].
    change (String x (String.append (String.append a b) c) = String x (String.append a (String.append b c))). by rewrite IHa. }
  assert (∀ t, starts_with dq t = false → read_quoted (String.append (String.append s (String dq EmptyString)) t) = Some (s, t)) as Hread.
  { intros t Ht. rewrite Happ. change (String.append (String dq EmptyString) t) with (String dq t).
    by apply read_quoted_words. }
  destruct parts as [|s' parts].
  - cbn [fmap list_fmap Join]. rewrite pq_QuoteIdentifier_spec by done.
    change (String.append (String dq ?x) rest) with (String dq (String.append x rest)).
    cbn [read_name]. change (Ascii.eqb dq dq) with true. cbn [negb]. rewrite Hread by done.
    destruct rest as [|c rest]; [done|]. cbn [starts_with] in Hr2. by rewrite Hr2.
  - change (Join "." (pq_QuoteIdentifier <$> s :: s' :: parts))
      with (String.append (pq_QuoteIdentifier s) (String "." (Join "." (pq_QuoteIdentifier <$> s' :: parts)))).
    rewrite pq_QuoteIdentifier_spec by done. rewrite Happ.
    set (more := String.append (String "." _) rest).
    change (String.append (String dq ?x) more) with (String dq (String.append x more)).
    cbn [read_name]. change (Ascii.eqb dq dq) with true. cbn [negb]. rewrite Hread by done.
    unfold more. change (String.append (String "." ?x) rest) with (String "." (String.append x rest)).
    change (Ascii.eqb "." ".") with true. cbv iota. rewrite IH; [done|done|cbn [length] in *; lia].
Qed.

Lemma Split_nonempty sep s : Split sep s ≠ [].
Proof. destruct s as [|c s]; [done|]. cbn. destruct (Ascii.eqb c sep); [done|]. by destruct (Split sep s). Qed.

(** A name of a table or a procedure that is accepted can be put into a statement:
    the database reads it as the parts of the name in lower case, and nothing of what
    follows as a part of it. *)
Theorem quoted_names_are_read value quoted rest :
  quoteQualifiedIdentifier value = Some quoted → starts_with dq rest = false → starts_with "." rest = false →
  read_name (S (length (Split "." value))) (String.append quoted rest) = Some (ToLower <$> Split "." value, rest).
Proof.
  unfold quoteQualifiedIdentifier. destruct (forallb _ _) eqn:Hall; [|done]. intros [= <-] Hr1 Hr2.
  change ((λ part, pq_QuoteIdentifier (ToLower part)) <$> Split "." value)
    with (pq_QuoteIdentifier ∘ ToLower <$> Split "." value).
  rewrite list_fmap_compose. apply read_name_quoted; [..|done|done].
  - pose proof (Split_nonempty "." value). by destruct (Split "." value).
  - apply list.Forall_fmap. apply list.Forall_forall. intros part Hpart. unfold compose. apply words_lower, pattern_words.
    rewrite forallb_forall in Hall. by apply Hall, list_elem_of_In.
  - rewrite length_fmap. lia.
Qed.
End quoting.

(** ** Witnesses *)

#[export] Instance SampleDataEnv : DataEnv := {|
  pq_QuoteIdentifier s := String "034" (String.append s (String "034" EmptyString));
  DbContent := nat;
  CallProcedure _ n := Some (S n);
  TimestampToTime z := ((z + unix_seconds) * Second)%Z;
  FlipLotteryPeriod := 1%Z
|}.

#[export] Instance SampleDataLaws : DataLaws.
Proof. by split. Qed.

Definition sample_rows : list DataRow :=
  [mkDataRow "stats" (Some "public.refresh_stats"%string) (Some refreshPeriodHour) (Some 5%Z);
   mkDataRow "epochs" (Some "refresh_epochs"%string) (Some refreshPeriodEpoch) None;
   mkDataRow "static" None None None].
Definition sample_db : DataDb := mkDataDb _ true sample_rows ∅ 0.

(** The [n]-th turn is [n] minutes after a full hour; the third epoch. *)
Definition sample_turn (n : Z) : Turn :=
  let now := (2023 * 8766 * Hour + n * Minute)%Z in
  mkTurn true true (λ _, mkState 3 1000 2000 0) now (λ i, (now + Z.of_nat i)%Z) (λ _, true).
Definition sample_turns : list Turn := sample_turn <$> seqZ 0 70.

Lemma sample_rows_ok : rows_ok sample_rows.
Proof. split; [apply (bool_decide_unpack _); by vm_compute|]. by repeat constructor. Qed.

Lemma sample_turn_ok n : turn_ok (sample_turn n).
Proof. intros i. cbn. lia. Qed.

(** In seventy minutes from the full hour: the epoch at once, the hour after its delay and
    again after the next hour with it. *)
Example sample_refreshes :
  omap (λ c, match c with CRefresh n _ _ _ _ => Some n | _ => None end)
    (foldl (λ acc t, observe "data" "data_state" t acc) (sample_db, []) sample_turns).2
  = ["epochs"; "stats"; "stats"]%string.
Proof. by vm_compute. Qed.

Lemma refreshes_are_spaced_witness :
  rows_ok (db_data sample_db) ∧ Forall turn_ok sample_turns ∧
  let log := (foldl (λ acc t, observe "data" "data_state" t acc) (sample_db, []) sample_turns).2 in
  (∀ i j c1 c2, i < j → log !! i = Some c1 → log !! j = Some c2 → follows c1 c2) ∧
  Forall (leaves (db_data sample_db)) log.
Proof.
  assert (Forall turn_ok sample_turns) as Ht.
  { apply list.Forall_fmap, list.Forall_forall. intros n _. apply sample_turn_ok. }
  split; [apply sample_rows_ok|]. split; [done|].
  apply (refreshes_are_spaced "data" "data_state" sample_db sample_turns); [apply sample_rows_ok|done].
Defined.

Definition sample_waiting : DataDb :=
  sample_db <| db_state := {["stats"%string := mkDataStateRow (Some 0%Z) None None]} |>.

Lemma due_items_are_refreshed_witness :
  ∃ time, CRefresh "stats" "public.refresh_stats" time
            (Some (Truncate (tn_now (sample_turn 7)) Hour + Hour + 5 * Minute)%Z) None
          ∈ (observe "data" "data_state" (sample_turn 7) (sample_waiting, [])).2.
Proof.
  apply (due_items_are_refreshed "data" "data_state" (sample_turn 7) sample_waiting []
           (mkDataRow "stats" (Some "public.refresh_stats"%string) (Some refreshPeriodHour) (Some 5%Z)) Hour).
  - split; try done.
    intros row p Hrow Hp. change (row ∈ sample_rows) in Hrow. unfold sample_rows in Hrow.
    rewrite !elem_of_cons in Hrow.
    destruct Hrow as [->|[->|[->|Hrow]]]; [..|by apply not_elem_of_nil in Hrow]; simplify_eq/=; by eexists.
  - apply sample_rows_ok.
  - done.
  - by left.
  - done.
  - done.
  - done.
  - by vm_compute.
Defined.

Lemma quoted_names_are_read_witness :
  read_name 3 (String.append (default EmptyString (quoteQualifiedIdentifier "Public.Data_1")) " v LEFT JOIN")
  = Some (["public"; "data_1"], " v LEFT JOIN")%string ∧
  quoteQualifiedIdentifier "data; drop table x" = None.
Proof.
  split; [|by vm_compute].
  exact (quoted_names_are_read "Public.Data_1" _ " v LEFT JOIN" eq_refl eq_refl eq_refl).
Defined.
