(* ===== verification/Restore.v ===== *)
(** * Restoring the database from a state

    core/restore/restore.go: when the program is asked to, it writes the balances, the
    birthdays, the sizes of the pools and the delegations of a state of the node to the
    database, for the last block that is indexed, and tries again until that is done. *)

From S2P Require Import Prelude Node ContractTypes Coins Rewards BalanceUpdates Tokens.
From S2P Require Import ContractTx ValidationSummary Balances EpochTypes Transactions.
From S2P Require Import Delegation EpochRewards EpochResult Upgrades BlockData DbEncoding Save.

(** What an attempt meets: the last height of the database, the height of the head of the
    chain and the states of the node; [inr] is an error and [None] nil. *)
Record RestoreEnv := mkRestoreEnv {
  en_GetLastHeight : Z + string;
  en_Head : option Z;
  en_Readonly : Z → AppState + string
}.

Section restore.
Context `{DbText, !Database} (a : postgresAccessor).
(** The order in which the map of the delegators is ranged over. *)
Context (pool_order : gmap Address Z → list (Address * Z)).
Local Open Scope Z_scope.

(** Go: core/restore/restore.go restoreHeight *)
Definition restoreHeight (e : RestoreEnv) : Z + string :=
  match en_Head e with
  | None => inr "blockchain header is nil"%string
  | Some height =>
      if height =? 0 then inr "blockchain header height is zero"%string else inl (u64 (height - 1))
  end.

(** Go: core/restore/restore.go collectBalances *)
Definition collectBalances (e : RestoreEnv) (height : Z) : list Balance + string :=
  match en_Readonly e height with
  | inr err => inr err
  | inl appState =>
      inl ((λ address, mkBalance _ (address_Hex address) EmptyString
              (ConvertToFloat (Some (GetBalance appState address)))
              (ConvertToFloat (Some (GetStakeBalance appState address)))) <$> IterateAccounts appState)
  end.

(** What [collectIdentityData] gathers. *)
Record identityData := mkIdentityData {
  id_birthdays : list Birthday;
  id_poolSizesByAddr : gmap Address Z;
  id_poolDelegatorsByAddr : gmap Address Z;
  id_delegations : list Delegation
}.

(** Go: core/restore/restore.go collectIdentityData:107-131

    The callback, for one identity. *)
Definition collect_identity (appState : AppState) (d : identityData) (x : Address * Identity) : identityData :=
  let (addr, identity) := x in
  let birthEpoch := id_Birthday identity in
  let d := d <| id_birthdays ::= λ l, l ++ [mkBirthday (address_Hex addr) birthEpoch] |> in
  match id_Delegatee identity with
  | None => d
  | Some p =>
      let delegatee := ap_val p in
      d <| id_poolDelegatorsByAddr ::= λ m, <[delegatee := u64 (default 0 (m !! delegatee) + 1)]> m |>
        <| id_poolSizesByAddr ::= λ m,
             match m !! delegatee with
             | Some _ => m
             | None => <[delegatee := u64 (PoolSize appState delegatee)]> m
             end |>
        <| id_delegations ::= λ l, l ++
             [mkDelegation addr delegatee
                (if NewbieOrBetter (id_State identity) || bool_decide (id_State identity = Suspended)
                    || bool_decide (id_State identity = Zombie)
                 then Some birthEpoch else None)] |>
  end.

(** Go: core/restore/restore.go collectIdentityData *)
Definition collectIdentityData (e : RestoreEnv) (height : Z)
    : (list Birthday * list PoolSizeRecord * list Delegation) + string :=
  match en_Readonly e height with
  | inr err => inr err
  | inl appState =>
      let d := foldl (collect_identity appState) (mkIdentityData [] ∅ ∅ []) (IterateOverIdentities appState) in
      let poolSizes := (λ kv, mkPoolSize kv.1 (default 0 (id_poolSizesByAddr d !! kv.1)) kv.2)
                         <$> pool_order (id_poolDelegatorsByAddr d) in
      inl (id_birthdays d, poolSizes, id_delegations d)
  end.

(** Go: core/restore/restore.go collectData *)
Definition collectData (e : RestoreEnv) : RestoredData + string :=
  match en_GetLastHeight e with
  | inr err => inr err
  | inl indexedHeight =>
      match restoreHeight e with
      | inr err => inr err
      | inl stateHeight =>
          match collectBalances e stateHeight with
          | inr err => inr err
          | inl balances =>
              match collectIdentityData e stateHeight with
              | inr err => inr err
              | inl (birthdays, poolSizes, delegations) =>
                  inl (mkRestoredData indexedHeight balances birthdays poolSizes delegations)
              end
          end
      end
  end.

(** Go: core/restore/restore.go tryToRestore

    [errors.Wrapf] of a nil error is nil. *)
Definition tryToRestore (e : RestoreEnv) (s : DbState) : DbState * error :=
  match collectData e with
  | inr err => (s, Wrap (Some err) "unable to collect data to restore")
  | inl data =>
      let (s, err) := SaveRestoredData a data s in
      (s, Wrap err "unable to save restored data")
  end.

(** Go: core/restore/restore.go Restore

    The attempts, one for a unit of [fuel]; [None] is no end. *)
Fixpoint Restore (fuel : nat) (attempt : nat → RestoreEnv) (s : DbState) : option DbState :=
  match fuel with
  | O => None
  | S fuel =>
      match tryToRestore (attempt O) s with
      | (s, Some _) => Restore fuel (attempt ∘ S) s
      | (s, None) => Some s
      end
  end.

(** ** What is restored *)

Implicit Types (ids : list (Address * Identity)) (w : AppState).

Definition delegates_to (p : Address) (x : Address * Identity) : Prop := ap_val <$> id_Delegatee x.2 = Some p.
#[local] Instance delegates_to_dec p x : Decision (delegates_to p x).
Proof. unfold delegates_to. apply _. Defined.
Definition delegators (p : Address) ids : Z := Z.of_nat (length (filter (delegates_to p) ids)).

(** The delegation of an identity; its birth is that of a validated identity, which may
    miss its validation. *)
Definition delegation_of (x : Address * Identity) : option Delegation :=
  (λ p, mkDelegation x.1 (ap_val p)
     (if NewbieOrBetter (id_State x.2) || bool_decide (id_State x.2 ∈ [Suspended; Zombie])
      then Some (id_Birthday x.2) else None)) <$> id_Delegatee x.2.

Record collected w ids (d : identityData) : Prop := {
  cl_birthdays : id_birthdays d = (λ x, mkBirthday (address_Hex x.1) (id_Birthday x.2)) <$> ids;
  cl_delegations : id_delegations d = omap delegation_of ids;
  cl_delegators p : id_poolDelegatorsByAddr d !! p = if decide (0 < delegators p ids) then Some (delegators p ids) else None;
  cl_sizes p : id_poolSizesByAddr d !! p = if decide (0 < delegators p ids) then Some (u64 (PoolSize w p)) else None;
  cl_total : sum_map (λ _ n, n) (id_poolDelegatorsByAddr d) = Z.of_nat (length (id_delegations d))
}.

Lemma delegators_snoc p ids x :
  delegators p (ids ++ [x]) = delegators p ids + (if decide (delegates_to p x) then 1 else 0).
Proof.
  unfold delegators. rewrite list.filter_app, length_app, filter_cons, filter_nil.
  destruct (decide (delegates_to p x)); cbn; lia.
Qed.

Lemma delegators_bound p ids : 0 ≤ delegators p ids ≤ Z.of_nat (length ids).
Proof. unfold delegators. pose proof (length_filter (delegates_to p) ids). lia. Qed.

Lemma collect_step w ids x d :
  Z.of_nat (length ids) + 1 < 2 ^ 64 → collected w ids d → collected w (ids ++ [x]) (collect_identity w d x).
Proof.
  intros Hlen [Hb Hd Hn Hs Ht]. destruct x as [addr identity]. unfold collect_identity.
  assert (∀ p, id_Delegatee identity = None → delegators p (ids ++ [(addr, identity)]) = delegators p ids) as Hno.
  { intros p Hp. rewrite delegators_snoc, decide_False; [lia|]. unfold delegates_to. cbn. by rewrite Hp. }
  destruct (id_Delegatee identity) as [q|] eqn:Hq.
  - assert (∀ p, delegators p (ids ++ [(addr, identity)]) = delegators p ids + (if decide (ap_val q = p) then 1 else 0)) as Hsnoc.
    { intros p. rewrite delegators_snoc. f_equal. apply decide_ext. unfold delegates_to. cbn. rewrite Hq. cbn. naive_solver. }
    split; cbn.
    + by rewrite fmap_app, Hb.
    + rewrite omap_app, Hd. f_equal. cbn. unfold delegation_of. cbn. rewrite Hq. cbn. do 2 f_equal.
      destruct (NewbieOrBetter _); [done|]. by destruct (id_State identity).
    + intros p. rewrite Hsnoc. pose proof (delegators_bound p ids) as Hp.
      destruct (decide (ap_val q = p)) as [<-|Hne].
      * rewrite lookup_insert_eq, decide_True by lia. f_equal. rewrite Hn. unfold uwrap. rewrite Z.mod_small; case_decide; cbn; lia.
      * rewrite lookup_insert_ne by done. rewrite Hn. by rewrite Z.add_0_r.
    + intros p. rewrite Hsnoc. pose proof (delegators_bound p ids) as Hp.
      destruct (decide (ap_val q = p)) as [<-|Hne].
      * rewrite (decide_True (P := 0 < _ + 1)) by lia. rewrite Hs. case_decide; [by rewrite Hs, decide_True|apply lookup_insert_eq].
      * rewrite Z.add_0_r, <- Hs. destruct (id_poolSizesByAddr d !! ap_val q); [done|by apply lookup_insert_ne].
    + rewrite sum_map_insert, Ht, length_app. cbn [length]. rewrite Hn.
      pose proof (delegators_bound (ap_val q) ids). unfold uwrap. case_decide; cbn; rewrite Z.mod_small; lia.
  - split; cbn.
    + by rewrite fmap_app, Hb.
    + rewrite omap_app, Hd. cbn. unfold delegation_of. cbn. rewrite Hq. cbn. by rewrite app_nil_r.
    + intros p. by rewrite Hno.
    + intros p. by rewrite Hno.
    + done.
Qed.

Lemma collect_all w ids :
  Z.of_nat (length ids) < 2 ^ 64 → collected w ids (foldl (collect_identity w) (mkIdentityData [] ∅ ∅ []) ids).
Proof.
  induction ids as [|x ids IH] using rev_ind; intros Hlen.
  - by split.
  - rewrite length_app in Hlen. cbn in Hlen. rewrite foldl_snoc. apply collect_step; [lia|]. apply IH. lia.
Qed.

(** The data to restore is that of the state: the balances and birthdays of all of it, the
    delegations, and for each pool its size and the number of those delegations, which
    add up. *)
Definition mirrors w (d : RestoredData) : Prop :=
  let ids := IterateOverIdentities w in
  rd_Balances d = (λ p, mkBalance _ (address_Hex p) EmptyString (ConvertToFloat (Some (GetBalance w p)))
                     (ConvertToFloat (Some (GetStakeBalance w p)))) <$> IterateAccounts w ∧
  rd_Birthdays d = (λ x, mkBirthday (address_Hex x.1) (id_Birthday x.2)) <$> ids ∧
  rd_Delegations d = omap delegation_of ids ∧
  NoDup (ps_Address <$> rd_PoolSizes d) ∧
  (∀ p, p ∈ rd_PoolSizes d ↔ 0 < delegators (ps_Address p) ids ∧
     p = mkPoolSize (ps_Address p) (u64 (PoolSize w (ps_Address p))) (delegators (ps_Address p) ids)) ∧
  sumZ ps_TotalDelegated (rd_PoolSizes d) = Z.of_nat (length (rd_Delegations d)).

Context (Horder : ∀ m, ranges m (pool_order m)).

Lemma collectData_mirrors e d :
  (∀ h w, en_Readonly e h = inl w → Z.of_nat (length (IterateOverIdentities w)) < 2 ^ 64) →
  collectData e = inl d →
  ∃ height w, en_GetLastHeight e = inl (rd_BlockHeight d) ∧ en_Head e = Some height ∧ height ≠ 0 ∧
    en_Readonly e (u64 (height - 1)) = inl w ∧ mirrors w d.
Proof.
  intros Hlen. unfold collectData. destruct (en_GetLastHeight e) as [indexed|]; [|done].
  unfold restoreHeight. destruct (en_Head e) as [height|]; [|done].
  destruct (Z.eqb_spec height 0) as [|Hz]; [done|]. unfold collectBalances, collectIdentityData.
  destruct (en_Readonly e (u64 (height - 1))) as [w|] eqn:Hw; [|done]. intros [= <-].
  exists height, w. split; [done|]. split; [done|]. split; [done|]. split; [done|].
  unfold mirrors. cbn zeta. cbn [rd_Balances rd_Birthdays rd_Delegations rd_PoolSizes].
  set (c := foldl _ _ _). destruct (collect_all w _ (Hlen _ _ Hw)) as [Hb Hd Hn Hs Ht]. fold c in Hb, Hd, Hn, Hs, Ht.
  split; [done|]. split; [done|]. split; [done|].
  assert (∀ p n, id_poolDelegatorsByAddr c !! p = Some n →
    0 < delegators p (IterateOverIdentities w) ∧ n = delegators p (IterateOverIdentities w)) as Hsome.
  { intros p n. rewrite Hn. case_decide; [by intros [= <-]|done]. }
  split_and!.
  - rewrite <- list_fmap_compose. apply (ranges_NoDup _ _ (Horder (id_poolDelegatorsByAddr c))).
  - intros p. rewrite list_elem_of_fmap. split.
    + intros ([q n] & -> & Hin). apply (ranges_elem _ _ _ _ (Horder _)) in Hin. apply Hsome in Hin as [Hpos ->].
      cbn. split; [done|]. by rewrite Hs, decide_True.
    + intros [Hpos ->]. cbn. exists (ps_Address p, delegators (ps_Address p) (IterateOverIdentities w)). cbn.
      rewrite Hs, decide_True by done. split; [done|]. apply (ranges_elem _ _ _ _ (Horder _)). by rewrite Hn, decide_True.
  - rewrite sumZ_map. cbn. rewrite (sumZ_perm _ _ _ (Horder (id_poolDelegatorsByAddr c))). apply Ht.
Qed.

Lemma Wrap_None (err : error) message : Wrap err message = None ↔ err = None.
Proof. by destruct err. Qed.

Lemma SaveRestoredData_undone d s s' err : SaveRestoredData a d s = (s', Some err) → s' = s.
Proof. unfold SaveRestoredData. by repeat case_match; intros [=]. Qed.

Lemma tryToRestore_undone e s s' err : tryToRestore e s = (s', Some err) → s' = s.
Proof.
  unfold tryToRestore. destruct (collectData e) as [d|]; [|by intros [=]].
  destruct (SaveRestoredData a d s) as [s1 [err'|]] eqn:Hs; [|done]. intros [= <-].
  by eapply SaveRestoredData_undone.
Qed.

(** The database is restored with the first attempt that succeeds, however many fail
    before it; a failing one leaves no trace; and what is saved then is the data of a
    state of the node, in one transaction, for the last indexed block. *)
Theorem restored_from_a_state n attempt (s : DbState) :
  (∀ k h w, en_Readonly (attempt k) h = inl w → Z.of_nat (length (IterateOverIdentities w)) < 2 ^ 64) →
  (∀ k, (k < n)%nat → (tryToRestore (attempt k) s).2 ≠ None) →
  (tryToRestore (attempt n) s).2 = None →
  ∃ d s' w height, Restore (S n) attempt s = Some s' ∧
    en_GetLastHeight (attempt n) = inl (rd_BlockHeight d) ∧ en_Head (attempt n) = Some height ∧
    en_Readonly (attempt n) (u64 (height - 1)) = inl w ∧ mirrors w d ∧
    SaveRestoredData a d s = (s', None).
Proof.
  intros Hlen Hfail Hok. unfold tryToRestore in Hok.
  destruct (collectData (attempt n)) as [d|] eqn:Hd; [|done].
  destruct (SaveRestoredData a d s) as [s' err] eqn:Hs. cbn in Hok. apply Wrap_None in Hok as ->.
  destruct (collectData_mirrors _ _ (Hlen n) Hd) as (height & w & Hi & Hh & _ & Hr & Hm).
  exists d, s', w, height. split_and!; try done. clear Hi Hh Hr Hm Hlen.
  revert attempt Hfail Hd. induction n as [|n IH]; intros attempt Hfail Hd; cbn [Restore].
  - unfold tryToRestore. by rewrite Hd, Hs.
  - destruct (tryToRestore (attempt 0%nat) s) as [s1 [err|]] eqn:Htry.
    + apply tryToRestore_undone in Htry as ->. apply (IH (attempt ∘ S)); [|done].
      intros k Hk. apply (Hfail (S k)). lia.
    + exfalso. apply (Hfail 0%nat); [lia|]. by rewrite Htry.
Qed.
End restore.

(** ** Witness *)

(** Two identities delegate to a third; the node is not ready at first. *)
Definition sample_delegator : Identity := sample_identity <| id_Delegatee := Some (mkAddressPtr 1 (mkAddress 3)) |>.
Definition sample_pool_state : AppState :=
  sample_state <| IterateOverIdentities :=
                    [(mkAddress 1, sample_delegator <| id_State := Verified |>); (mkAddress 2, sample_delegator);
                     (mkAddress 3, sample_identity)] |>
               <| IterateAccounts := [mkAddress 1] |> <| PoolSize := λ _, 1%Z |>.
Definition sample_attempts (n : nat) : RestoreEnv :=
  mkRestoreEnv (inl 7%Z) (match n with O => None | _ => Some 9%Z end) (λ _, inl sample_pool_state).

Example sample_restored :
  match collectData map_to_list (sample_attempts 1) with
  | inl d => Some (rd_PoolSizes d, dl_BirthEpoch <$> rd_Delegations d)
  | inr _ => None
  end = Some ([mkPoolSize (mkAddress 3) 1 2], [Some 0%Z; None]).
Proof. by vm_compute. Qed.

Lemma restored_from_a_state_witness :
  ∃ d s' w height, Restore sample_accessor map_to_list 2 sample_attempts [] = Some s' ∧
    en_GetLastHeight (sample_attempts 1) = inl (rd_BlockHeight d) ∧ en_Head (sample_attempts 1) = Some height ∧
    en_Readonly (sample_attempts 1) (u64 (height - 1)) = inl w ∧ mirrors w d ∧
    SaveRestoredData sample_accessor d [] = (s', None).
Proof.
  apply (restored_from_a_state sample_accessor map_to_list).
  - intros m. apply ranges_canonical.
  - intros k h w [= <-]. done.
  - intros k Hk. assert (k = 0%nat) as -> by lia. by vm_compute.
  - by vm_compute.
Defined.
