(* ===== verification/Verifier.v ===== *)
(** * The verification of contracts

    contract/verification/: a user submits the source of a contract; every few seconds
    one of the submissions that wait is sent to a service that compiles it, and the hash
    of the compiled code is compared with the hash of the code of the contract.  The
    query that finds a waiting submission is in the code; the procedures that save a
    submission and its result are the database's, and the compiler is a service. *)

From Stdlib Require Import Ascii.
From S2P Require Import Prelude Texts Node Tokens.

(** Go: contract/verification/db.go State:12-18 *)
Inductive State := StatePending | StateVerified | StateFailed.
#[export] Instance State_eq_dec : EqDecision State.
Proof. solve_decision. Defined.

(** Go: contract/verification/db.go PendingVerification *)
Record PendingVerification := mkPendingVerification { pv_Address : Address; pv_Code : bytes; pv_Data : bytes }.

(** A row of the table of the verifications, joined with the code of the contract ([None]:
    no code). *)
Record VerificationRow := mkVerificationRow {
  vr_state : State; vr_code : option bytes; vr_data : bytes; vr_message : option string
}.

(** The service, the hash function, the decoder, and the procedures of the database.  A
    row the query finds first is unspecified. *)
Class VerifierEnv := {
  sha256_Sum256 : bytes → bytes;
  (** [httpClient.Do] and [ioutil.ReadAll]: the status and the body *)
  http_Post : bytes → (Z * string) + string;
  hexutil_Decode : string → bytes + string;
  select_first : gmap Address VerificationRow → option (Address * VerificationRow);
  VerifierDb : Type;
  verifications : VerifierDb → gmap Address VerificationRow;
  save_contract_pending_verification : Address → bytes → string → VerifierDb → (VerifierDb * string) + string;
  update_contract_verification_state :
    Address → State → bytes → option string → VerifierDb → VerifierDb + string
}.

Section verifier.
Context `{VerifierEnv}.

(** Go: contract/verification/info.go Hash *)
Definition Hash_impl (data : bytes) : bytes + string :=
  match http_Post data with
  | inr err => inr err
  | inl (status, respBody) =>
      if negb (status =? 200)%Z then inr "unable to send request"%string
      else hexutil_Decode (TrimSpace (String.append "0x" respBody))
  end.

(** Go: contract/verification/db.go SavePendingVerification

    The answers: an error for the user, and one of the database. *)
Definition SavePendingVerification (contractAddress : Address) (data : bytes) (fileName : string) (s : VerifierDb)
    : VerifierDb * error * error :=
  match save_contract_pending_verification contractAddress data fileName s with
  | inr err => (s, None, Some err)
  | inl (s, userErrorMsg) =>
      (s, if (0 <? String.length userErrorMsg)%nat then Some userErrorMsg else None, None)
  end.

(** Go: contract/verification/verifier.go Submit *)
Definition Submit := SavePendingVerification.

(** Go: contract/verification/db.go GetPendingVerification

    [ok]: the database answers. *)
Definition GetPendingVerification (ok : bool) (s : VerifierDb) : option PendingVerification + string :=
  if negb ok then inr "query"%string else
  inl ((λ x, mkPendingVerification x.1 (default [] (vr_code x.2)) (vr_data x.2))
         <$> select_first (filter (λ x, vr_state x.2 = StatePending) (verifications s))).

(** Go: contract/verification/verifier.go getCodeHash *)
Definition getCodeHash (code : bytes) : bytes := sha256_Sum256 code.

(** Go: contract/verification/verifier.go getDataInfo *)
Definition getDataInfo (data : bytes) : bytes + string := Hash_impl data.

(** Go: contract/verification/verifier.go verifyPendingContract:60-84

    The verdict on a submission: a state and a message. *)
Definition verdict (verification : PendingVerification) : State * option string :=
  let codeHash := getCodeHash (pv_Code verification) in
  let verificationErr : error :=
    match getDataInfo (pv_Data verification) with
    | inr _ => Some "failed to compile"%string
    | inl dataHash => if decide (codeHash = dataHash) then None else Some "wrong compiled contract hash"%string
    end in
  match verificationErr with
  | None => (StateVerified, None)
  | Some err => (StateFailed, Some err)
  end.

(** Go: contract/verification/verifier.go verifyPendingContract *)
Definition verifyPendingContract (ok : bool) (s : VerifierDb) : VerifierDb * error :=
  match GetPendingVerification ok s with
  | inr err => (s, Wrap (Some err) "failed to get pending verification")
  | inl None => (s, None)
  | inl (Some verification) =>
      let (state, errorMessage) := verdict verification in
      match update_contract_verification_state (pv_Address verification) state (pv_Data verification) errorMessage s with
      | inr err => (s, Wrap (Some err) "failed to update verification state")
      | inl s => (s, None)
      end
  end.

(** Go: contract/verification/verifier.go loop

    Its turns, each with whether the database answers the query; an error is logged. *)
Definition loop (turns : list bool) (s : VerifierDb) : VerifierDb :=
  foldl (λ s ok, (verifyPendingContract ok s).1) s turns.

(** ** Every submission gets its verdict *)

(** What the documentation of the database promises: a row is found when there is one, and
    the procedure writes the state, the data and the message of the row of the contract;
    the times and the names of the files are left out. *)
Class VerifierLaws := {
  select_first_Some m x : select_first m = Some x → m !! x.1 = Some x.2;
  select_first_None m : select_first m = None → m = ∅;
  update_spec a st data msg s s' :
    update_contract_verification_state a st data msg s = inl s' →
    verifications s' = alter (λ r, mkVerificationRow st (vr_code r) data msg) a (verifications s)
}.
Context `{!VerifierLaws}.

(** What becomes of a row: one that does not wait is left as it is. *)
Definition settled (a : Address) (r : VerificationRow) : VerificationRow :=
  if decide (vr_state r = StatePending) then
    let (st, msg) := verdict (mkPendingVerification a (default [] (vr_code r)) (vr_data r)) in
    mkVerificationRow st (vr_code r) (vr_data r) msg
  else r.

Definition pending (s : VerifierDb) : gmap Address VerificationRow :=
  filter (λ x, vr_state x.2 = StatePending) (verifications s).

Lemma verdict_not_pending p : (verdict p).1 ≠ StatePending.
Proof. unfold verdict. by repeat case_match. Qed.

Lemma settled_settled a r : settled a (settled a r) = settled a r.
Proof.
  unfold settled at 2 3. destruct (decide (vr_state r = StatePending)) as [Hp|Hp]; [|unfold settled; by rewrite decide_False].
  destruct (verdict _) as [st msg] eqn:Hv. unfold settled. cbn. rewrite decide_False; [done|].
  intros ->. eapply verdict_not_pending. by rewrite Hv.
Qed.

(** One turn settles a row that waits, or changes nothing. *)
Lemma turn_spec ok s :
  (∃ a r, pending s !! a = Some r ∧ verifications (verifyPendingContract ok s).1 = <[a := settled a r]> (verifications s)
     ∧ (verifyPendingContract ok s).2 = None) ∨
  ((verifyPendingContract ok s).1 = s ∧ ((verifyPendingContract ok s).2 = None → pending s = ∅)).
Proof.
  unfold verifyPendingContract, GetPendingVerification. destruct ok; cbn [negb]; [|by right].
  fold (pending s). destruct (select_first (pending s)) as [[a r]|] eqn:Hsel; cbn.
  - apply select_first_Some in Hsel. cbn in Hsel. pose proof Hsel as [Hr Hp]%map_lookup_filter_Some. cbn in Hp.
    destruct (verdict _) as [st msg] eqn:Hv.
    destruct (update_contract_verification_state _ _ _ _ _) as [s'|] eqn:Hu; [left|by right].
    exists a, r. split_and!; [done| |done]. cbn [fst]. rewrite (update_spec _ _ _ _ _ _ Hu). apply map_eq. intros b. cbn [pv_Address pv_Data fst snd].
    destruct (decide (a = b)) as [<-|Hab].
    + rewrite lookup_insert_eq, lookup_alter_eq, Hr. cbn. unfold settled. by rewrite decide_True, Hv.
    + by rewrite lookup_insert_ne, lookup_alter_ne.
  - right. split; [done|]. intros _. by apply select_first_None.
Qed.

(** After any turns, a row is as it was or settled. *)
Lemma loop_partly turns s a :
  verifications (loop turns s) !! a = verifications s !! a ∨
  verifications (loop turns s) !! a = settled a <$> verifications s !! a.
Proof.
  induction turns as [|ok turns IH] using rev_ind; [by left|].
  unfold loop in *. rewrite foldl_snoc. set (s1 := foldl _ s turns) in *.
  destruct (turn_spec ok s1) as [(b & r & Hb & Hs & _)|[-> _]]; [|done].
  rewrite Hs. apply map_lookup_filter_Some in Hb as [Hb Hp]. cbn in Hp.
  destruct (decide (b = a)) as [->|Hab]; [|by rewrite lookup_insert_ne].
  rewrite lookup_insert_eq. right. rewrite Hb in IH. destruct (verifications s !! a) as [r0|]; [|by destruct IH].
  cbn in *. destruct IH as [[= ->]|[= ->]]; [done|by rewrite settled_settled].
Qed.

Definition turn_succeeds (ok : bool) (s : VerifierDb) : Prop := (verifyPendingContract ok s).2 = None.

Lemma pending_insert a r s s' :
  pending s !! a = Some r → verifications s' = <[a := settled a r]> (verifications s) → pending s' = delete a (pending s).
Proof.
  intros [Hr Hp]%map_lookup_filter_Some Hs. cbn in Hp. unfold pending. rewrite Hs. apply map_eq. intros b.
  destruct (decide (a = b)) as [<-|Hab].
  - rewrite lookup_delete_eq. apply map_lookup_filter_None. right. intros x. rewrite lookup_insert_eq. intros [= <-].
    cbn. unfold settled. rewrite decide_True by done. destruct (verdict _) as [st msg] eqn:Hv. cbn. intros ->.
    eapply verdict_not_pending. by rewrite Hv.
  - rewrite lookup_delete_ne, !map_lookup_filter by done. by rewrite lookup_insert_ne.
Qed.

Lemma loop_cons ok turns s : loop (ok :: turns) s = loop turns (verifyPendingContract ok s).1.
Proof. done. Qed.

(** The turns that succeed. *)
Fixpoint successes (turns : list bool) (s : VerifierDb) : nat :=
  match turns with
  | [] => 0
  | ok :: turns =>
      (if decide ((verifyPendingContract ok s).2 = None) then 1 else 0) + successes turns (verifyPendingContract ok s).1
  end.

Lemma pending_empties turns s : size (pending s) ≤ successes turns s → pending (loop turns s) = ∅.
Proof.
  revert s. induction turns as [|ok turns IH]; intros s Hn; cbn [successes] in Hn.
  - apply map_size_empty_inv. cbn. lia.
  - rewrite loop_cons. apply IH. destruct (turn_spec ok s) as [(a & r & Ha & Hs & He)|[Hs He]].
    + rewrite (pending_insert _ _ _ _ Ha Hs), map_size_delete, Ha. rewrite decide_True in Hn by done. cbn. lia.
    + rewrite Hs in *. destruct (decide ((verifyPendingContract ok s).2 = None)) as [Hd|Hd]; [|lia].
      rewrite (He Hd), map_size_empty. lia.
Qed.

(** [C19]  When as many turns of the loop succeed as submissions wait, each of these has its
    verdict - it is verified exactly when the service compiles it to code whose hash is
    that of the code of the contract - and nothing else has changed. *)
Theorem submissions_are_settled turns s :
  size (pending s) ≤ successes turns s →
  pending (loop turns s) = ∅ ∧
  (∀ a, verifications (loop turns s) !! a = settled a <$> verifications s !! a) ∧
  (∀ a r, verifications s !! a = Some r → vr_state r = StatePending →
     vr_state (settled a r) = StateVerified ↔
     ∃ body, http_Post (vr_data r) = inl (200%Z, body) ∧
       hexutil_Decode (TrimSpace (String.append "0x" body)) = inl (sha256_Sum256 (default [] (vr_code r)))).
Proof.
  intros Hn. pose proof (pending_empties turns s Hn) as He. split_and!; [done|..].
  - intros a. destruct (loop_partly turns s a) as [Ha|Ha]; [|done].
    destruct (verifications s !! a) as [r|] eqn:Hr; [|done]. rewrite Ha. cbn. f_equal. unfold settled.
    destruct (decide (vr_state r = StatePending)) as [Hp|Hp]; [|done]. exfalso.
    assert (pending (loop turns s) !! a = Some r) as Hl by by apply map_lookup_filter_Some.
    by rewrite He, lookup_empty in Hl.
  - intros a r _ Hp. unfold settled, verdict, getDataInfo, Hash_impl, getCodeHash. rewrite decide_True by done. cbn.
    destruct (http_Post (vr_data r)) as [[status body]|err]; cbn.
    + destruct (Z.eqb_spec status 200) as [->|Hs]; cbn.
      * destruct (hexutil_Decode _) as [h|err] eqn:Hh; cbn.
        -- case_decide as Hd; cbn; split; try done.
           ++ intros _. exists body. split; [done|]. rewrite Hh. by f_equal.
           ++ intros (b & [= <-] & Hb). rewrite Hh in Hb. injection Hb as Hb. congruence.
        -- split; [done|]. intros (b & [= <-] & Hb). congruence.
      * split; [done|]. intros (b & [=] & _). congruence.
    + split; [done|]. by intros (b & ? & _).
Qed.

(** A submission fails for good when the service cannot be reached, as if it did not
    compile. *)
Theorem unreachable_service_fails a r err s s' :
  pending s !! a = Some r → select_first (pending s) = Some (a, r) → http_Post (vr_data r) = inr err →
  verifyPendingContract true s = (s', None) →
  ∀ turns, verifications (loop turns s') !! a =
    Some (mkVerificationRow StateFailed (vr_code r) (vr_data r) (Some "failed to compile"%string)).
Proof.
  intros Ha Hsel Hpost Hv turns.
  assert (settled a r = mkVerificationRow StateFailed (vr_code r) (vr_data r) (Some "failed to compile"%string)) as Hset.
  { apply map_lookup_filter_Some in Ha as [_ Hp]. cbn in Hp. unfold settled, verdict, getDataInfo, Hash_impl.
    rewrite decide_True by done. cbn. by rewrite Hpost. }
  assert (verifications s' !! a = Some (settled a r)) as Hs'.
  { unfold verifyPendingContract, GetPendingVerification in Hv. cbn [negb] in Hv. fold (pending s) in Hv.
    rewrite Hsel in Hv. cbn in Hv. destruct (verdict _) as [st msg] eqn:Hver.
    destruct (update_contract_verification_state _ _ _ _ _) as [s1|] eqn:Hu; [|done]. injection Hv as <-.
    apply map_lookup_filter_Some in Ha as [Hr Hp]. cbn in Hp.
    rewrite (update_spec _ _ _ _ _ _ Hu), lookup_alter_eq, Hr. cbn. unfold settled. by rewrite decide_True, Hver. }
  destruct (loop_partly turns s' a) as [->| ->]; rewrite Hs'; cbn; by rewrite ?settled_settled, Hset.
Qed.
End verifier.

(** ** Witnesses *)

(** A service that knows one source and cannot be reached for an empty one. *)
#[export] Instance SampleVerifierEnv : VerifierEnv := {|
  sha256_Sum256 b := b;
  http_Post b := match b with [] => inr "connection refused"%string | [1%Z] => inl (200%Z, "ok "%string) | _ => inl (500%Z, ""%string) end;
  hexutil_Decode s := if decide (s = "0xok"%string) then inl [7%Z] else inr "hex"%string;
  select_first m := head (map_to_list m);
  VerifierDb := gmap Address VerificationRow;
  verifications s := s;
  save_contract_pending_verification a data _ s := inl (<[a := mkVerificationRow StatePending None data None]> s, ""%string);
  update_contract_verification_state a st data msg s := inl (alter (λ r, mkVerificationRow st (vr_code r) data msg) a s)
|}.

#[export] Instance SampleVerifierLaws : VerifierLaws.
Proof.
  split.
  - intros m [a r] Hh. apply elem_of_map_to_list. cbn in Hh. destruct (map_to_list m); [done|]. cbn in Hh.
    injection Hh as ->. by left.
  - intros m Hh. apply map_to_list_empty_iff. cbn in Hh. by destruct (map_to_list m).
  - by intros a st data msg s s' [= <-].
Qed.

Definition sample_verifications : VerifierDb :=
  ({[ mkAddress 1 := mkVerificationRow StatePending (Some [7%Z]) [1%Z] None;
     mkAddress 2 := mkVerificationRow StatePending (Some [8%Z]) [1%Z] None;
     mkAddress 3 := mkVerificationRow StateFailed None [] None ]} : gmap Address VerificationRow).

Lemma submissions_are_settled_witness :
  (λ a, vr_state <$> verifications (loop [true; false; true] sample_verifications) !! a) <$> [mkAddress 1; mkAddress 2; mkAddress 3]
    = [Some StateVerified; Some StateFailed; Some StateFailed] ∧
  pending (loop [true; false; true] sample_verifications) = ∅ ∧
  (∀ a, verifications (loop [true; false; true] sample_verifications) !! a
        = settled a <$> verifications sample_verifications !! a).
Proof.
  split; [by vm_compute|].
  destruct (submissions_are_settled [true; false; true] sample_verifications) as (H1 & H2 & _); [|by split].
  vm_compute. lia.
Defined.

Definition sample_unreachable : VerifierDb :=
  ({[ mkAddress 4 := mkVerificationRow StatePending (Some []) [] None ]} : gmap Address VerificationRow).

Lemma unreachable_service_fails_witness :
  ∀ turns, verifications (loop turns (verifyPendingContract true sample_unreachable).1) !! mkAddress 4 =
    Some (mkVerificationRow StateFailed (Some []) [] (Some "failed to compile"%string)).
Proof.
  apply (unreachable_service_fails (mkAddress 4) (mkVerificationRow StatePending (Some []) [] None)
           "connection refused" sample_unreachable); by vm_compute.
Defined.
