(* ===== verification/Online.v ===== *)
(** * The identities that are online

    core/holder/online/online.go: once a minute the program walks over the identities of
    the head and caches which of them mine, the validators by size, the weights of the
    stakes and the stakes of the pools, for the API to answer from. *)

From stdpp Require Import sorting.
From Stdlib Require Import Ascii.
From S2P Require Import Prelude Node.

(** ** Data *)

(** Go: core/holder/online/online.go Identity

    Times are integers. *)
Inductive CachedIdentity `{NodeApi} := mkCachedIdentity {
  ci_Address : string; ci_LastActivity : option Z; ci_Penalty : Decimal; ci_PenaltySeconds : Z;
  ci_Online : bool; ci_Delegatee : option CachedIdentity
}.

(** Go: core/holder/online/online.go Pool *)
Record Pool := mkPool { po_TotalStake : Z; po_TotalValidatedStake : Z }.

(** Go: core/types/types.go Validator *)
Record Validator `{NodeApi} := mkValidator {
  va_Address : string; va_Size : Z; va_Online : bool; va_LastActivity : option Z;
  va_Penalty : Decimal; va_PenaltySeconds : Z; va_IsPool : bool
}.

(** Go: core/types/types.go Staking *)
Record Staking `{NodeApi} := mkStaking {
  sk_Weight : Float64; sk_MinersWeight : Float64; sk_AverageMinerWeight : Float64; sk_MaxMinerWeight : Float64
}.

(** Go: core/holder/online/online.go currentOnlineIdentitiesCache *)
Record currentOnlineIdentitiesCache `{NodeApi} := mkCache {
  identities : list CachedIdentity;
  identitiesPerAddress : gmap string CachedIdentity;
  onlineCount : Z;
  validators : list Validator;
  onlineValidators : list Validator;
  staking : Staking;
  forkCommitteeSize : Z;
  poolsPerAddress : gmap string Pool
}.

(** Floating-point numbers, [int(math.Round(step * float64(i)))], and [sort.Slice]. *)
Class OnlineMath `{NodeApi} := {
  Float64_Add : Float64 → Float64 → Float64;
  Float64_less : Float64 → Float64 → bool;
  Float64_zero : Float64;
  Float64_two : Float64;
  (** the exponent 0.9 *)
  Float64_power : Float64;
  math_RoundMul : Float64 → Z → Z;
  sort_Slice : ∀ {A}, (A → A → bool) → list A → list A
}.

(** The head of the chain, the state at a height ([None]: an error), when addresses were
    active and the size of the committee after a fork. *)
Record OnlineNode := mkOnlineNode {
  on_Head : option Z;
  on_Readonly : Z → option AppState;
  on_ActivityMap : gmap Address Z;
  on_ForkCommitteeSize : AppState → Z
}.

(** ** Operations *)

Section online.
Context `{OnlineMath}.
Local Open Scope Z_scope.

(** Go: core/holder/online/online.go NewCurrentOnlineIdentitiesCache *)
Definition NewCurrentOnlineIdentitiesCache : currentOnlineIdentitiesCache :=
  mkCache _ [] ∅ 0 [] [] (mkStaking _ Float64_zero Float64_zero Float64_zero Float64_zero) 0 ∅.

(** Go: core/holder/online/online.go Get *)
Definition Get (cache : currentOnlineIdentitiesCache) (address : string) : option CachedIdentity :=
  identitiesPerAddress cache !! ToLower address.

(** Go: core/holder/online/online.go ValidatorsCount *)
Definition ValidatorsCount (cache : currentOnlineIdentitiesCache) : Z := Z.of_nat (length (validators cache)).

(** Go: core/holder/online/online.go OnlineValidatorsCount *)
Definition OnlineValidatorsCount (cache : currentOnlineIdentitiesCache) : Z :=
  Z.of_nat (length (onlineValidators cache)).

(** Go: core/holder/online/online.go GetPool *)
Definition GetPool (cache : currentOnlineIdentitiesCache) (address : string) : option Pool :=
  poolsPerAddress cache !! ToLower address.

(** [sort.Search(n, f)]: the binary search of the standard library, from [i] to [j];
    [fuel] is at least the number of the indices between them. *)
Fixpoint search (fuel : nat) (f : nat → bool) (i j : nat) : nat :=
  match fuel with
  | O => i
  | S fuel =>
      if (i <? j)%nat then
        let h := ((i + j) / 2)%nat in
        if f h then search fuel f i h else search fuel f (S h) j
      else i
  end.
Definition sort_Search (n : nat) (f : nat → bool) : nat := search n f 0 n.

(** Go: core/holder/online/online.go addToSorted

    An element is appended, the tail from [index] on is moved by one, and the value put
    there. *)
Definition addToSorted (values : list Float64) (value : Float64) : list Float64 :=
  let index := sort_Search (length values)
    (λ i, match values !! i with Some v => Float64_less value v | None => false end) in
  <[index := value]> (take (S index) (values ++ [Float64_zero]) ++ drop index values).

(** Go: core/holder/online/online.go calculateAverage

    [None]: an index out of range. *)
Definition calculateAverage (values : list Float64) (n : Z) : option Float64 :=
  if (length values =? 0)%nat then Some Float64_zero else
  let step := Float64_Div (Float64_of_int (Z.of_nat (length values))) (Float64_of_int n) in
  let sample := foldl (λ total i,
    t ← total;
    let index := math_RoundMul step i in
    let index := if Z.of_nat (length values) <=? index then Z.of_nat (length values) - 1 else index in
    if index <? 0 then None else v ← values !! Z.to_nat index; Some (Float64_Add t v)) (Some Float64_zero) (seqZ 0 n) in
  (λ total, Float64_Div total (Float64_of_int n)) <$> sample.

Section update.
Context (node : OnlineNode) (appState : AppState).

(** Go: core/holder/online/online.go update:175-195 *)
Definition buildIdentity (address : Address) (identity : Identity) (pOnline : option bool)
    (delegetee : option CachedIdentity) : CachedIdentity :=
  {| ci_Address := address_Hex address;
     ci_LastActivity := on_ActivityMap node !! address;
     ci_Penalty := ConvertToFloat (id_Penalty identity);
     ci_PenaltySeconds := id_PenaltySeconds identity;
     ci_Online := match pOnline with Some online => online | None => IsOnlineIdentity appState address end;
     ci_Delegatee := delegetee |}.

(** Go: core/holder/online/online.go update:197-221 *)
Definition buildValidator (address : Address) (identity : Identity) : option Validator :=
  let isPool := IsPool appState address in
  let size :=
    if NewbieOrBetter (id_State identity) && bool_decide (id_Delegatee identity = None) && negb isPool then 1
    else if isPool then u32 (PoolSize appState address) else 0 in
  if size =? 0 then None else
  Some {| va_Address := address_Hex address; va_Size := size; va_Online := IsOnlineIdentity appState address;
          va_LastActivity := on_ActivityMap node !! address; va_Penalty := ConvertToFloat (id_Penalty identity);
          va_PenaltySeconds := id_PenaltySeconds identity; va_IsPool := isPool |}.

(** Go: core/holder/online/online.go update:226-229 *)
Definition calculateStakeWeight (stake : option Z) : Float64 :=
  math_Pow (Decimal_Float64 (ConvertToFloat stake)) Float64_power.

(** The local variables of [update]. *)
Record Vars := mkVars {
  lv_identities : list CachedIdentity;
  lv_identitiesPerAddress : gmap string CachedIdentity;
  lv_onlineCount : Z;
  lv_delegateesByAddress : gmap Address CachedIdentity;
  lv_validators : list Validator;
  lv_onlineValidators : list Validator;
  lv_stakeWeight : Float64;
  lv_minersStakeWeight : Float64;
  lv_minerStakeWeights : list Float64;
  lv_maxMinerStakeWeight : Float64;
  lv_poolsByAddress : gmap string Pool
}.

(** An identity mines itself or with its pool. *)
Definition mines (address : Address) (identity : Identity) : bool :=
  IsOnlineIdentity appState address
  || match id_Delegatee identity with Some p => IsOnlineIdentity appState (ap_val p) | None => false end.

(** Go: core/holder/online/online.go update:232-246 *)
Definition add_weight (address : Address) (identity : Identity) (v : Vars) : Vars :=
  if negb (NewbieOrBetter (id_State identity)) then v else
  let weight := calculateStakeWeight (Some (default 0 (id_Stake identity))) in
  let v := v <| lv_stakeWeight ::= λ w, Float64_Add w weight |> in
  if negb (mines address identity) then v else
  v <| lv_minersStakeWeight ::= λ w, Float64_Add w weight |>
    <| lv_minerStakeWeights ::= λ l, addToSorted l weight |>
    <| lv_maxMinerStakeWeight ::= λ m, if Float64_less m weight then weight else m |>.

(** Go: core/holder/online/online.go update:247-252 *)
Definition add_validator (address : Address) (identity : Identity) (v : Vars) : Vars :=
  match buildValidator address identity with
  | None => v
  | Some validator =>
      let v := v <| lv_validators ::= λ l, l ++ [validator] |> in
      if va_Online validator then v <| lv_onlineValidators ::= λ l, l ++ [validator] |> else v
  end.

(** Go: core/holder/online/online.go update:264-275

    A pool that is not there is made with the stake of its owner. *)
Definition new_pool (p : Address) : Pool :=
  let delegateeIdentity := GetIdentity appState p in
  match id_Stake delegateeIdentity with
  | None => mkPool 0 0
  | Some stake => mkPool stake (if NewbieOrBetter (id_State delegateeIdentity) then stake else 0)
  end.
(** Go: core/holder/online/online.go update:260-281 *)
Definition add_to_pool (p : Address) (identity : Identity) (m : gmap string Pool) : gmap string Pool :=
  match id_Stake identity with
  | None => m
  | Some stake =>
      let poolKey := ToLower (address_Hex p) in
      let pool := default (new_pool p) (m !! poolKey) in
      <[poolKey := mkPool (po_TotalStake pool + stake)
                     (if NewbieOrBetter (id_State identity) then po_TotalValidatedStake pool + stake
                      else po_TotalValidatedStake pool)]> m
  end.

(** Go: core/holder/online/online.go update:253-282

    The cached identity of the delegatee, with the variables. *)
Definition add_delegatee (identity : Identity) (v : Vars) : option CachedIdentity * Vars :=
  match id_Delegatee identity with
  | None => (None, v)
  | Some p =>
      let delegeteeAddr := ap_val p in
      let delegatee := default (buildIdentity delegeteeAddr (GetIdentity appState delegeteeAddr) None None)
                         (lv_delegateesByAddress v !! delegeteeAddr) in
      (Some delegatee,
       v <| lv_delegateesByAddress ::= insert delegeteeAddr delegatee |>
         <| lv_poolsByAddress ::= add_to_pool delegeteeAddr identity |>)
  end.

(** Go: core/holder/online/online.go update:283-299 *)
Definition add_identity (address : Address) (identity : Identity) (delegatee : option CachedIdentity) (v : Vars) : Vars :=
  let online := IsOnlineIdentity appState address in
  let v := if online then
             v <| lv_onlineCount ::= λ n, n + (if IsPool appState address then PoolSize appState address else 1) |>
           else v in
  if negb (NewbieOrBetter (id_State identity)) then v else
  let onlineIdentity := default (buildIdentity address identity (Some online) delegatee)
                          (lv_delegateesByAddress v !! address) in
  v <| lv_identities ::= λ l, l ++ [onlineIdentity] |>
    <| lv_identitiesPerAddress ::= insert (ToLower (ci_Address onlineIdentity)) onlineIdentity |>.

(** Go: core/holder/online/online.go update:231-300

    The callback, for one identity. *)
Definition visit (v : Vars) (x : Address * Identity) : Vars :=
  let (address, identity) := x in
  let (delegatee, v) := add_delegatee identity (add_validator address identity (add_weight address identity v)) in
  add_identity address identity delegatee v.

Definition no_vars : Vars :=
  mkVars [] ∅ 0 ∅ [] [] Float64_zero Float64_zero [] Float64_zero ∅.

(** Go: core/holder/online/online.go update:303-313

    The order of the identities; of two without activity, each comes before the other. *)
Definition more_active (i j : CachedIdentity) : bool :=
  match ci_LastActivity j, ci_LastActivity i with
  | None, _ => true
  | Some _, None => false
  | Some tj, Some ti => tj <? ti
  end.
Definition larger (i j : Validator) : bool := va_Size j <? va_Size i.
End update.

(** Go: core/holder/online/online.go update

    [None] is a panic. *)
Definition update (node : OnlineNode) (cache : currentOnlineIdentitiesCache) : option currentOnlineIdentitiesCache :=
  match on_Head node with
  | None => Some cache
  | Some height =>
      match on_Readonly node height with
      | None => Some cache
      | Some appState =>
          let v := foldl (visit node appState) no_vars (IterateOverIdentities appState) in
          let weights := lv_minerStakeWeights v in
          let averageMinerWeight1 :=
            Float64_Div (lv_minersStakeWeight v) (Float64_of_int (Z.of_nat (length weights))) in
          averageMinerWeight2 ← calculateAverage weights 101;
          Some {| identities := sort_Slice more_active (lv_identities v);
                  identitiesPerAddress := lv_identitiesPerAddress v;
                  onlineCount := lv_onlineCount v;
                  validators := sort_Slice larger (lv_validators v);
                  onlineValidators := sort_Slice larger (lv_onlineValidators v);
                  staking := {| sk_Weight := lv_stakeWeight v; sk_MinersWeight := lv_minersStakeWeight v;
                                sk_AverageMinerWeight :=
                                  Float64_Div (Float64_Add averageMinerWeight1 averageMinerWeight2) Float64_two;
                                sk_MaxMinerWeight := lv_maxMinerStakeWeight v |};
                  forkCommitteeSize := on_ForkCommitteeSize node appState;
                  poolsPerAddress := lv_poolsByAddress v |}
      end
  end.
End online.

(** ** The sorted weights *)

(** The order of the floating-point numbers, which are not NaN; the hexadecimal form of
    an address is in lower case; [sort.Slice] sorts by a strict weak order. *)
Class OnlineLaws `{OnlineMath, !NodeLaws} := {
  number : Float64 → Prop;
  number_zero : number Float64_zero;
  number_weight stake : (0 ≤ stake)%Z → number (calculateStakeWeight (Some stake));
  less_irrefl x : number x → Float64_less x x = false;
  less_trans x y z : number x → number y → number z →
    Float64_less x y = true → Float64_less y z = true → Float64_less x z = true;
  less_weak x y z : number x → number y → number z →
    Float64_less x z = true → Float64_less x y = true ∨ Float64_less y z = true;
  weight_nonneg stake : (0 ≤ stake)%Z → Float64_less (calculateStakeWeight (Some stake)) Float64_zero = false;
  hex_lower a : ToLower (address_Hex a) = address_Hex a;
  sort_Slice_perm {A} less (l : list A) : sort_Slice less l ≡ₚ l;
  sort_Slice_sorted {A} less (l : list A) :
    (∀ x, less x x = false) → (∀ x y z, less x y = true → less y z = true → less x z = true) →
    (∀ x y z, less x z = true → less x y = true ∨ less y z = true) →
    StronglySorted (λ x y, less y x = false) (sort_Slice less l);
  (** the size of the list times a part of it, rounded, is not negative *)
  RoundMul_nonneg n i : (0 ≤ n)%Z → (0 ≤ i)%Z →
    (0 ≤ math_RoundMul (Float64_Div (Float64_of_int n) (Float64_of_int 101)) i)%Z
}.

Section weights.
Context `{OnlineLaws}.

Definition not_above (x y : Float64) : Prop := Float64_less y x = false.

(** The binary search finds the first index from which a predicate that stays true is. *)
Lemma search_spec fuel f i j :
  j - i ≤ fuel → i ≤ j → (∀ a b, i ≤ a ≤ b → b < j → f a = true → f b = true) →
  i ≤ search fuel f i j ≤ j ∧ (∀ k, i ≤ k < search fuel f i j → f k = false) ∧
  (∀ k, search fuel f i j ≤ k < j → f k = true).
Proof.
  revert i j. induction fuel as [|fuel IH]; intros i j Hfuel Hij Hf; cbn [search].
  - assert (i = j) as -> by lia. split_and!; [lia..| |]; intros k Hk; lia.
  - destruct (Nat.ltb_spec i j) as [Hlt|Hge].
    2:{ assert (i = j) as -> by lia. split_and!; [lia..| |]; intros k Hk; lia. }
    set (h := (i + j) / 2). assert (i ≤ h < j) as Hh.
    { split; [apply Nat.div_le_lower_bound; lia|apply Nat.Div0.div_lt_upper_bound; lia]. }
    destruct (f h) eqn:Hfh.
    + destruct (IH i h) as (Hr & Hlo & Hhi); [lia|lia|intros a b Ha Hb; apply Hf; lia|].
      split_and!; [lia|lia|done|]. intros k Hk. destruct (decide (k < h)); [apply Hhi; lia|].
      apply (Hf h k); [lia|lia|done].
    + destruct (IH (S h) j) as (Hr & Hlo & Hhi); [lia|lia|intros a b Ha Hb; apply Hf; lia|].
      split_and!; [lia|lia| |done]. intros k Hk. destruct (decide (h < k)); [apply Hlo; lia|].
      destruct (f k) eqn:Hk'; [|done]. rewrite (Hf k h) in Hfh; [done|lia|lia|done].
Qed.

(** Moving the tail by one and putting the value in its place inserts it. *)
Lemma shift_insert {A} (l : list A) (i : nat) (v d : A) :
  i ≤ length l → <[i:=v]> (take (S i) (l ++ [d]) ++ drop i l) = take i l ++ v :: drop i l.
Proof.
  revert i. induction l as [|x l IH]; intros [|i] Hi; cbn [length] in Hi; [done|lia|done|].
  cbn. f_equal. apply IH. lia.
Qed.

Lemma addToSorted_split values value :
  Forall number values → number value → StronglySorted not_above values →
  ∃ before after, values = before ++ after ∧ addToSorted values value = before ++ value :: after ∧
    Forall (λ v, not_above v value) before ∧ Forall (λ v, Float64_less value v = true) after.
Proof.
  intros Hnum Hv Hs. unfold addToSorted, sort_Search. set (f := λ i : nat, _). set (n := length values).
  destruct (search_spec n f 0 n) as ([_ Hr] & Hlo & Hhi); [lia|lia| |].
  { intros a b [_ Hab] Hb. unfold f. destruct (values !! a) as [x|] eqn:Ha; [|done].
    destruct (lookup_lt_is_Some_2 values b Hb) as [y Hy]. rewrite Hy. intros Hx.
    destruct (decide (a = b)) as [->|Hne]; [congruence|].
    rewrite list.Forall_forall in Hnum.
    assert (number x ∧ number y) as [Nx Ny] by (split; apply Hnum; by eapply list_elem_of_lookup_2).
    assert (not_above x y) as Hxy.
    { rewrite <- (take_drop (S a) values) in Hs. apply (StronglySorted_app_1_elem_of _ _ _ _ _ Hs).
      - apply list_elem_of_lookup_2 with a. by rewrite lookup_take_lt by lia.
      - apply list_elem_of_lookup_2 with (b - S a). rewrite lookup_drop. by replace (S a + (b - S a)) with b by lia. }
    destruct (less_weak value y x Hv Ny Nx Hx) as [|Hyx]; [done|]. unfold not_above in Hxy. congruence. }
  set (idx := search n f 0 n) in *. exists (take idx values), (drop idx values).
  split; [by rewrite take_drop|]. assert (length values = n) as Hn by done. split_and!.
  - by apply shift_insert.
  - apply list.Forall_forall. intros v (i & Hi)%list_elem_of_lookup. apply lookup_lt_Some in Hi as Hlt.
    rewrite length_take in Hlt. rewrite lookup_take_lt in Hi by lia.
    specialize (Hlo i). unfold f in Hlo. rewrite Hi in Hlo. apply Hlo. lia.
  - apply list.Forall_forall. intros v (i & Hi)%list_elem_of_lookup. rewrite lookup_drop in Hi.
    apply lookup_lt_Some in Hi as Hlt. specialize (Hhi (idx + i)). unfold f in Hhi. rewrite Hi in Hhi. apply Hhi. lia.
Qed.

Lemma decide_bool {A} (b : bool) (x y : A) : (if decide (b : Prop) then x else y) = if b then x else y.
Proof. by destruct b. Qed.

Lemma addToSorted_sorted values value :
  Forall number values → number value → StronglySorted not_above values →
  addToSorted values value ≡ₚ value :: values ∧ StronglySorted not_above (addToSorted values value).
Proof.
  intros Hnum Hv Hs. destruct (addToSorted_split _ _ Hnum Hv Hs) as (l1 & l2 & -> & -> & F1 & F2).
  split; [by rewrite Permutation_middle|]. apply list.Forall_app in Hnum as [N1 N2].
  rewrite list.Forall_forall in F1, F2, N1, N2. apply StronglySorted_app in Hs as (Hs & Hs1 & Hs2).
  apply StronglySorted_app. split_and!; [|done|].
  - intros x y Hx [->|Hy]%elem_of_cons; [by apply F1|by apply Hs].
  - apply StronglySorted_cons. split; [|done]. apply list.Forall_forall. intros y Hy. unfold not_above.
    destruct (Float64_less y value) eqn:Hless; [|done].
    rewrite <- (less_irrefl value Hv). symmetry.
    apply (less_trans value y value); [done|by apply N2|done|by apply F2|done].
Qed.
End weights.

(** ** The walk over the identities *)

Section walk.
Context `{OnlineLaws} (node : OnlineNode) (w : AppState).
Implicit Types (ids : list (Address * Identity)) (v : Vars) (x : Address * Identity).
Local Open Scope Z_scope.

Definition validated x : bool := NewbieOrBetter (id_State x.2).
Definition mining x : bool := validated x && mines w x.1 x.2.
Definition weight_of x : Float64 := calculateStakeWeight (Some (default 0 (id_Stake x.2))).

(** The stake that an identity brings to a pool, and the pool of an owner. *)
Definition stake_to (p : Address) x : option Z :=
  if decide (ap_val <$> id_Delegatee x.2 = Some p) then id_Stake x.2 else None.
Definition stakes_to (p : Address) ids : Z := sumZ id (omap (stake_to p) ids).
Definition own_stake (p : Address) : Z := default 0 (id_Stake (GetIdentity w p)).
Definition pool_of (p : Address) ids : option Pool :=
  match omap (stake_to p) ids with
  | [] => None
  | _ => Some (mkPool (own_stake p + stakes_to p ids)
                 ((if validated (p, GetIdentity w p) then own_stake p else 0) + stakes_to p (filter validated ids)))
  end.

(** What is cached of an address. *)
Definition describes (a : Address) (c : CachedIdentity) : Prop :=
  ci_Address c = address_Hex a ∧ ci_LastActivity c = on_ActivityMap node !! a ∧
  ci_Penalty c = ConvertToFloat (id_Penalty (GetIdentity w a)) ∧
  ci_PenaltySeconds c = id_PenaltySeconds (GetIdentity w a) ∧ ci_Online c = IsOnlineIdentity w a.

Definition online_size x : Z :=
  if IsOnlineIdentity w x.1 then (if IsPool w x.1 then PoolSize w x.1 else 1) else 0.

Record walked ids v : Prop := {
  wk_weights : lv_minerStakeWeights v ≡ₚ weight_of <$> filter mining ids;
  wk_sorted : StronglySorted not_above (lv_minerStakeWeights v);
  wk_max : number (lv_maxMinerStakeWeight v) ∧
    (∀ y, y ∈ lv_minerStakeWeights v → not_above y (lv_maxMinerStakeWeight v)) ∧
    (lv_maxMinerStakeWeight v = Float64_zero ∨ lv_maxMinerStakeWeight v ∈ lv_minerStakeWeights v);
  wk_validators : lv_validators v = omap (λ x, buildValidator node w x.1 x.2) ids;
  wk_online : lv_onlineValidators v = filter (λ va, va_Online va = true) (lv_validators v);
  wk_count : lv_onlineCount v = sumZ online_size ids;
  wk_pools p : lv_poolsByAddress v !! address_Hex p = pool_of p ids;
  wk_identities : Forall2 (λ c x, describes x.1 c) (lv_identities v) (filter validated ids);
  wk_delegatees p c : lv_delegateesByAddress v !! p = Some c → describes p c;
  wk_get a : lv_identitiesPerAddress v !! address_Hex a = None → a ∉ (filter validated ids).*1;
  wk_found a c : lv_identitiesPerAddress v !! address_Hex a = Some c → c ∈ lv_identities v ∧ describes a c
}.

(** ** One identity *)

Definition stakes_ok x : Prop := 0 ≤ default 0 (id_Stake x.2).

Lemma visit_weights v x :
  lv_minerStakeWeights (visit node w v x)
    = (if mining x then addToSorted (lv_minerStakeWeights v) (weight_of x) else lv_minerStakeWeights v) ∧
  lv_maxMinerStakeWeight (visit node w v x)
    = (if mining x then if Float64_less (lv_maxMinerStakeWeight v) (weight_of x) then weight_of x
                        else lv_maxMinerStakeWeight v
       else lv_maxMinerStakeWeight v).
Proof.
  destruct x as [a i]. unfold visit, add_identity, add_delegatee, add_validator, add_weight, mining, validated, weight_of.
  cbn [fst snd]. destruct (NewbieOrBetter (id_State i)), (mines w a i), (buildValidator node w a i) as [va|],
    (id_Delegatee i); cbn; try destruct (va_Online va); by destruct (IsOnlineIdentity w a).
Qed.

Lemma visit_validators v x :
  lv_validators (visit node w v x) = lv_validators v ++ option_list (buildValidator node w x.1 x.2) ∧
  lv_onlineValidators (visit node w v x)
    = lv_onlineValidators v ++ filter (λ va, va_Online va = true) (option_list (buildValidator node w x.1 x.2)) ∧
  lv_onlineCount (visit node w v x) = lv_onlineCount v + online_size x.
Proof.
  destruct x as [a i]. unfold visit, add_identity, add_delegatee, add_validator, add_weight, online_size. cbn [fst snd].
  destruct (NewbieOrBetter (id_State i)), (mines w a i), (buildValidator node w a i) as [va|] eqn:Hva,
    (id_Delegatee i); cbn; try destruct (va_Online va) eqn:Hon; destruct (IsOnlineIdentity w a);
    cbn; rewrite ?app_nil_r, ?filter_cons, ?filter_nil, ?Hon, ?app_nil_r; cbn; split_and!; try done; lia.
Qed.

Lemma visit_pools v x :
  lv_poolsByAddress (visit node w v x)
    = match id_Delegatee x.2 with
      | None => lv_poolsByAddress v
      | Some p => add_to_pool w (ap_val p) x.2 (lv_poolsByAddress v)
      end.
Proof.
  destruct x as [a i]. unfold visit, add_identity, add_delegatee, add_validator, add_weight. cbn [fst snd].
  destruct (NewbieOrBetter (id_State i)), (mines w a i), (buildValidator node w a i) as [va|],
    (id_Delegatee i); cbn; try destruct (va_Online va); by destruct (IsOnlineIdentity w a).
Qed.

(** The delegatee that is cached for an identity, and the identity that is. *)
Definition delegatee_for v x : option CachedIdentity :=
  (λ p, default (buildIdentity node w (ap_val p) (GetIdentity w (ap_val p)) None None)
          (lv_delegateesByAddress v !! ap_val p)) <$> id_Delegatee x.2.
Definition delegatees_after v x : gmap Address CachedIdentity :=
  match id_Delegatee x.2, delegatee_for v x with
  | Some p, Some c => <[ap_val p := c]> (lv_delegateesByAddress v)
  | _, _ => lv_delegateesByAddress v
  end.
Definition cached_for v x : CachedIdentity :=
  default (buildIdentity node w x.1 x.2 (Some (IsOnlineIdentity w x.1)) (delegatee_for v x)) (delegatees_after v x !! x.1).

Lemma visit_identities v x :
  lv_delegateesByAddress (visit node w v x) = delegatees_after v x ∧
  lv_identities (visit node w v x) = lv_identities v ++ (if validated x then [cached_for v x] else []) ∧
  lv_identitiesPerAddress (visit node w v x)
    = (if validated x then insert (ToLower (ci_Address (cached_for v x))) (cached_for v x) else id) (lv_identitiesPerAddress v).
Proof.
  destruct x as [a i]. unfold cached_for, delegatees_after, delegatee_for, visit, add_identity, add_delegatee,
    add_validator, add_weight, validated. cbn [fst snd].
  destruct (NewbieOrBetter (id_State i)), (mines w a i), (buildValidator node w a i) as [va|],
    (id_Delegatee i); cbn; try destruct (va_Online va); destruct (IsOnlineIdentity w a); cbn; by rewrite ?app_nil_r.
Qed.

(** ** The pools *)

Lemma stakes_to_snoc p ids x : stakes_to p (ids ++ [x]) = stakes_to p ids + default 0 (stake_to p x).
Proof. unfold stakes_to. rewrite omap_app, sumZ_app. cbn. destruct (stake_to p x); cbn; lia. Qed.

Lemma stakes_to_cons p ids x : stakes_to p (x :: ids) = default 0 (stake_to p x) + stakes_to p ids.
Proof. unfold stakes_to. cbn [omap list_omap]. by destruct (stake_to p x). Qed.

Lemma no_stakes p ids : omap (stake_to p) ids = [] → stakes_to p ids = 0 ∧ stakes_to p (filter validated ids) = 0.
Proof.
  induction ids as [|x ids IH]; [done|]. cbn [omap list_omap]. destruct (stake_to p x) eqn:Hx; [done|]. intros Hn.
  destruct (IH Hn) as [Ha Hb]. rewrite stakes_to_cons, Hx, Ha. split; [done|].
  rewrite filter_cons. case_decide; [|done]. by rewrite stakes_to_cons, Hx, Hb.
Qed.

Lemma new_pool_spec p : new_pool w p = mkPool (own_stake p) (if validated (p, GetIdentity w p) then own_stake p else 0).
Proof. unfold new_pool, own_stake, validated. cbn. destruct (id_Stake _); cbn; by destruct (NewbieOrBetter _). Qed.

Lemma pool_of_snoc p ids x :
  pool_of p (ids ++ [x]) = match stake_to p x with
    | None => pool_of p ids
    | Some stake =>
        let pool := default (new_pool w p) (pool_of p ids) in
        Some (mkPool (po_TotalStake pool + stake)
                (if validated x then po_TotalValidatedStake pool + stake else po_TotalValidatedStake pool))
    end.
Proof.
  rewrite new_pool_spec. unfold pool_of. rewrite omap_app. cbn [omap list_omap]. rewrite list.filter_app, filter_cons, filter_nil, stakes_to_snoc.
  assert (stakes_to p (filter validated ids ++ (if decide (validated x) then [x] else []))
    = stakes_to p (filter validated ids) + (if validated x then default 0 (stake_to p x) else 0)) as ->.
  { rewrite decide_bool. destruct (validated x); [by rewrite stakes_to_snoc|]. rewrite app_nil_r. lia. }
  destruct (stake_to p x) as [stake|]; cbn.
  - destruct (omap (stake_to p) ids) as [|s l] eqn:Hids; cbn.
    + destruct (no_stakes p ids Hids) as [-> ->]. do 2 f_equal; destruct (validated x); lia.
    + do 2 f_equal; destruct (validated x); lia.
  - rewrite app_nil_r. destruct (omap (stake_to p) ids); [done|]. do 2 f_equal; destruct (validated x); lia.
Qed.

Lemma add_to_pool_of q p ids x m :
  id_Delegatee x.2 = Some q → (∀ p, m !! address_Hex p = pool_of p ids) →
  add_to_pool w (ap_val q) x.2 m !! address_Hex p = pool_of p (ids ++ [x]).
Proof.
  intros Hq Hm. rewrite pool_of_snoc. unfold add_to_pool, stake_to. rewrite Hq, hex_lower. cbn [fmap option_fmap option_map].
  destruct (id_Stake x.2) as [stake|] eqn:Hs.
  - destruct (decide (ap_val q = p)) as [<-|Hne].
    + rewrite decide_True by done. rewrite lookup_insert_eq, Hm. done.
    + rewrite decide_False by congruence. rewrite lookup_insert_ne; [apply Hm|]. by intros ?%address_Hex_inj.
  - rewrite Hm. by case_decide.
Qed.

(** ** The cached identities *)

Lemma describes_build a i b c :
  GetIdentity w a = i → (b = None ∨ b = Some (IsOnlineIdentity w a)) → describes a (buildIdentity node w a i b c).
Proof. intros <- Hb. unfold describes. cbn. by destruct Hb as [->| ->]. Qed.

Lemma delegatees_describe v x p c :
  (∀ p c, lv_delegateesByAddress v !! p = Some c → describes p c) →
  delegatees_after v x !! p = Some c → describes p c.
Proof.
  intros Hd. unfold delegatees_after, delegatee_for. destruct (id_Delegatee x.2) as [q|]; [cbn|apply Hd].
  destruct (decide (ap_val q = p)) as [<-|Hne]; [|rewrite lookup_insert_ne by done; apply Hd].
  rewrite lookup_insert_eq. intros [= <-]. destruct (lv_delegateesByAddress v !! ap_val q) eqn:Hq; cbn; [by apply Hd|].
  apply describes_build; [done|by left].
Qed.

Lemma cached_describes v x :
  GetIdentity w x.1 = x.2 → (∀ p c, lv_delegateesByAddress v !! p = Some c → describes p c) → describes x.1 (cached_for v x).
Proof.
  intros Hx Hd. unfold cached_for. destruct (delegatees_after v x !! x.1) eqn:Hc; cbn.
  - by eapply delegatees_describe.
  - apply describes_build; [done|by right].
Qed.

Lemma mining_number x : stakes_ok x → number (weight_of x).
Proof. apply number_weight. Qed.

Lemma walked_weights ids v x :
  Forall stakes_ok ids → stakes_ok x → walked ids v →
  lv_minerStakeWeights (visit node w v x) ≡ₚ weight_of <$> filter mining (ids ++ [x]) ∧
  StronglySorted not_above (lv_minerStakeWeights (visit node w v x)) ∧
  number (lv_maxMinerStakeWeight (visit node w v x)) ∧
  (∀ y, y ∈ lv_minerStakeWeights (visit node w v x) → not_above y (lv_maxMinerStakeWeight (visit node w v x))) ∧
  (lv_maxMinerStakeWeight (visit node w v x) = Float64_zero
   ∨ lv_maxMinerStakeWeight (visit node w v x) ∈ lv_minerStakeWeights (visit node w v x)).
Proof.
  intros Hids Hx [Hw Hs (Hn & Hle & Hmax) _ _ _ _ _ _ _ _]. destruct (visit_weights v x) as [-> ->].
  rewrite list.filter_app, fmap_app, filter_cons, filter_nil, decide_bool. destruct (mining x) eqn:Hm.
  - cbn. assert (number (weight_of x)) as Nx by by apply mining_number.
    assert (∀ y, y ∈ lv_minerStakeWeights v → number y) as Hnum.
    { intros y Hy. rewrite Hw in Hy. apply list_elem_of_fmap in Hy as (z & -> & Hz).
      apply list_elem_of_filter in Hz as [_ Hz]. rewrite list.Forall_forall in Hids. by apply mining_number, Hids. }
    destruct (addToSorted_sorted (lv_minerStakeWeights v) (weight_of x)) as [Hp Hsort];
      [by apply list.Forall_forall|done|done|].
    rewrite Hp at 1. split; [rewrite Hw; by rewrite Permutation_app_comm|]. split; [done|].
    assert (∀ y, y ∈ addToSorted (lv_minerStakeWeights v) (weight_of x) ↔ y = weight_of x ∨ y ∈ lv_minerStakeWeights v) as Hin.
    { intros y. by rewrite Hp, elem_of_cons. }
    destruct (Float64_less (lv_maxMinerStakeWeight v) (weight_of x)) eqn:Hless.
    + split_and!; [done| |right; apply Hin; by left]. intros y [->|Hy]%Hin; [by apply less_irrefl|].
      unfold not_above. destruct (Float64_less (weight_of x) y) eqn:Hy'; [|done].
      rewrite <- (Hle y Hy). symmetry. by apply (less_trans _ (weight_of x)); [..|apply Hnum| |].
    + split_and!; [done| |].
      * intros y [->|Hy]%Hin; [done|by apply Hle].
      * destruct Hmax as [|Hmax]; [by left|right]. apply Hin. by right.
  - cbn. by rewrite app_nil_r.
Qed.

Lemma walked_step ids v x :
  Forall stakes_ok ids → stakes_ok x → GetIdentity w x.1 = x.2 → walked ids v → walked (ids ++ [x]) (visit node w v x).
Proof.
  intros Hids Hx Hi Hv. pose proof Hv as [_ _ _ Hval Hon Hcount Hpools Hident Hdel Hget Hfound].
  destruct (walked_weights ids v x Hids Hx Hv) as (W1 & W2 & W3 & W4 & W5).
  destruct (visit_validators v x) as (V1 & V2 & V3). destruct (visit_identities v x) as (I1 & I2 & I3).
  pose proof (cached_describes v x Hi Hdel) as Hc.
  assert (filter validated (ids ++ [x]) = filter validated ids ++ (if validated x then [x] else [])) as Hf.
  { by rewrite list.filter_app, filter_cons, filter_nil, decide_bool. }
  split; [done|done|by split_and!|..].
  - rewrite V1, omap_app, Hval. by f_equal.
  - by rewrite V1, V2, list.filter_app, Hon.
  - by rewrite V3, sumZ_snoc, Hcount.
  - intros p. rewrite visit_pools. destruct (id_Delegatee x.2) as [q|] eqn:Hq; [by apply add_to_pool_of|].
    rewrite pool_of_snoc. unfold stake_to. by rewrite Hq, decide_False.
  - rewrite I2, Hf. apply List.Forall2_app; [done|]. destruct (validated x); [|constructor]. constructor; [done|constructor].
  - intros p c. rewrite I1. by apply delegatees_describe.
  - intros a. rewrite I3, Hf, fmap_app. destruct (validated x); cbn; [|rewrite app_nil_r; apply Hget].
    destruct Hc as [-> _]. rewrite hex_lower. intros [Hn Hne]%lookup_insert_None.
    rewrite elem_of_app, list_elem_of_singleton. intros [Hin| ->]; [by apply (Hget a)|done].
  - intros a c. rewrite I2, I3. destruct (validated x); cbn; [|rewrite app_nil_r; apply Hfound].
    pose proof Hc as [Ha _]. rewrite Ha, hex_lower. intros [[Heq <-]|[_ Hl]]%lookup_insert_Some.
    + apply address_Hex_inj in Heq as <-. split; [apply elem_of_app; right; by left|done].
    + destruct (Hfound a c Hl). split; [apply elem_of_app; by left|done].
Qed.

Lemma walked_all ids :
  Forall stakes_ok ids → Forall (λ x, GetIdentity w x.1 = x.2) ids → walked ids (foldl (visit node w) no_vars ids).
Proof.
  induction ids as [|x ids IH] using rev_ind; intros Hs Hi.
  - split; [done|constructor| |done|done|done|intros p; apply lookup_empty|constructor|..].
    + split_and!; [apply number_zero|by intros y Hy%not_elem_of_nil|by left].
    + done.
    + intros a _. apply not_elem_of_nil.
    + done.
  - apply list.Forall_app in Hs as [Hs Hx], Hi as [Hi Hxi]. rewrite list.Forall_singleton in Hx, Hxi.
    rewrite foldl_snoc. by apply walked_step; [..|apply IH].
Qed.
End walk.

(** ** The cache *)

Section cache.
Context `{OnlineLaws}.
Local Open Scope Z_scope.

(** The identities of a state: the same as those it answers for their addresses, with
    stakes that are not negative. *)
Definition state_ok (w : AppState) : Prop :=
  Forall stakes_ok (IterateOverIdentities w) ∧
  Forall (λ x, GetIdentity w x.1 = x.2) (IterateOverIdentities w).

Lemma calculateAverage_some values : is_Some (calculateAverage values 101).
Proof.
  unfold calculateAverage. destruct (Nat.eqb_spec (length values) 0) as [Hn|Hn]; [by eexists|].
  set (step := Float64_Div _ _). set (f := λ (total : option Float64) (i : Z), _).
  assert (∀ l total, Forall (λ i, 0 ≤ i) l → is_Some total → is_Some (foldl f total l)) as Hf.
  { induction l as [|i l IH]; intros total Hl Ht; [done|]. apply list.Forall_cons in Hl as [Hi Hl].
    apply (IH (f total i) Hl). destruct Ht as [t ->]. unfold f. cbn [mbind option_bind].
    pose proof (RoundMul_nonneg (Z.of_nat (length values)) i) as Hr. fold step in Hr.
    set (r := math_RoundMul step i) in *.
    set (index := if Z.of_nat (length values) <=? r then _ else r).
    assert (0 ≤ index < Z.of_nat (length values)) as Hidx.
    { unfold index. destruct (Z.leb_spec (Z.of_nat (length values)) r); lia. }
    destruct (Z.ltb_spec index 0); [lia|].
    destruct (lookup_lt_is_Some_2 values (Z.to_nat index)) as [x Hx]; [lia|]. rewrite Hx. by eexists. }
  destruct (Hf (seqZ 0 101) (Some Float64_zero)) as [t Ht].
  - apply list.Forall_forall. intros i Hi%elem_of_seqZ. lia.
  - by eexists.
  - rewrite Ht. by eexists.
Qed.

Definition larger_order : ∀ x y : Validator, Prop := λ x y, va_Size y ≤ va_Size x.

Lemma sorted_by_size (l : list Validator) : StronglySorted larger_order (sort_Slice larger l).
Proof.
  assert (StronglySorted (λ x y, larger y x = false) (sort_Slice larger l)) as Hs.
  { apply sort_Slice_sorted; unfold larger.
    - intros x. apply Z.ltb_irrefl.
    - intros x y z ?%Z.ltb_lt ?%Z.ltb_lt. apply Z.ltb_lt. lia.
    - intros x y z ?%Z.ltb_lt. rewrite !Z.ltb_lt. lia. }
  induction Hs as [|x xs Hs IH Hx]; constructor; [done|]. rewrite list.Forall_forall in Hx |- *.
  intros y Hy. specialize (Hx y Hy). unfold larger_order. unfold larger in Hx. apply Z.ltb_ge in Hx. lia.
Qed.

(** What the cache holds of a state. *)
Record cache_of (node : OnlineNode) (w : AppState) (c : currentOnlineIdentitiesCache) : Prop := {
  co_pools p : GetPool c (address_Hex p) = pool_of w p (IterateOverIdentities w);
  co_validators : validators c ≡ₚ omap (λ x, buildValidator node w x.1 x.2) (IterateOverIdentities w) ∧
    StronglySorted larger_order (validators c);
  co_online : onlineValidators c ≡ₚ filter (λ va, va_Online va = true) (validators c) ∧
    StronglySorted larger_order (onlineValidators c);
  co_count : onlineCount c = sumZ (online_size w) (IterateOverIdentities w);
  co_identities : ∃ l, identities c ≡ₚ l ∧ Forall2 (λ c x, describes node w x.1 c) l (filter validated (IterateOverIdentities w));
  co_get a : a ∈ (filter validated (IterateOverIdentities w)).*1 →
    ∃ i, Get c (address_Hex a) = Some i ∧ i ∈ identities c ∧ describes node w a i
}.

(** [C20]  When the state of the head can be read, an update never panics and the cache is
    then that of the state: a pool has the stake of its owner and of those who
    delegate to it, the validators and those online are sorted by size, the count is that of
    the identities that are online with those of their pools, and every validated identity
    is found under its address; otherwise the cache stays. *)
Theorem cache_follows_state node cache :
  (∀ height w, on_Head node = Some height → on_Readonly node height = Some w → state_ok w) →
  ∃ c, update node cache = Some c ∧
  match on_Head node ≫= on_Readonly node with
  | Some w => cache_of node w c
  | None => c = cache
  end.
Proof.
  intros Hok. unfold update. destruct (on_Head node) as [height|] eqn:Hh; [|by exists cache]. cbn [mbind option_bind].
  destruct (on_Readonly node height) as [w|] eqn:Hw; [|by exists cache]. destruct (Hok height w eq_refl Hw) as [Hs Hi].
  pose proof (walked_all node w _ Hs Hi) as [_ _ _ Hval Hon Hcount Hpools Hident _ Hget Hfound].
  set (v := foldl (visit node w) no_vars (IterateOverIdentities w)) in *.
  destruct (calculateAverage_some (lv_minerStakeWeights v)) as [avg ->]. cbn [mbind option_bind].
  eexists. split; [done|]. split; cbn.
  - intros p. unfold GetPool. cbn. by rewrite hex_lower.
  - split; [|apply sorted_by_size]. by rewrite sort_Slice_perm, Hval.
  - split; [|apply sorted_by_size]. by rewrite !sort_Slice_perm, Hon.
  - done.
  - exists (lv_identities v). split; [apply sort_Slice_perm|done].
  - intros a Ha. unfold Get. cbn. rewrite hex_lower.
    destruct (lv_identitiesPerAddress v !! address_Hex a) as [i|] eqn:Hl; [|by apply Hget in Hl].
    exists i. split; [done|]. by rewrite sort_Slice_perm; apply Hfound.
Qed.

(** The weights of the miners that are sampled for their average are sorted, whatever
    the order of the identities, and the largest weight is one of them. *)
Theorem miner_weights_sorted node w :
  state_ok w →
  let v := foldl (visit node w) no_vars (IterateOverIdentities w) in
  lv_minerStakeWeights v ≡ₚ weight_of <$> filter (mining w) (IterateOverIdentities w) ∧
  StronglySorted not_above (lv_minerStakeWeights v) ∧
  (∀ y, y ∈ lv_minerStakeWeights v → not_above y (lv_maxMinerStakeWeight v)) ∧
  (lv_maxMinerStakeWeight v = Float64_zero ∨ lv_maxMinerStakeWeight v ∈ lv_minerStakeWeights v).
Proof.
  intros [Hs Hi]. pose proof (walked_all node w _ Hs Hi) as [Hw Hsorted (_ & Hle & Hmax) _ _ _ _ _ _ _ _]. done.
Qed.
End cache.

(** ** Witnesses *)

(** Insertion sort. *)
Fixpoint sorted_insert {A} (less : A → A → bool) (x : A) (l : list A) : list A :=
  match l with
  | [] => [x]
  | y :: l' => if less y x then y :: sorted_insert less x l' else x :: l
  end.
Definition insertion_sort {A} (less : A → A → bool) (l : list A) : list A := foldr (sorted_insert less) [] l.

Lemma sorted_insert_perm {A} less (x : A) l : sorted_insert less x l ≡ₚ x :: l.
Proof.
  induction l as [|y l IH]; [done|]. cbn. destruct (less y x); [|done]. rewrite IH. apply Permutation_swap.
Qed.

Lemma insertion_sort_perm {A} less (l : list A) : insertion_sort less l ≡ₚ l.
Proof.
  induction l as [|x l IH]; [done|].
  change (sorted_insert less x (insertion_sort less l) ≡ₚ x :: l). by rewrite sorted_insert_perm, IH.
Qed.

Lemma insertion_sort_sorted {A} (less : A → A → bool) l :
  (∀ x, less x x = false) → (∀ x y z, less x y = true → less y z = true → less x z = true) →
  (∀ x y z, less x z = true → less x y = true ∨ less y z = true) →
  StronglySorted (λ x y, less y x = false) (insertion_sort less l).
Proof.
  intros Hirr Htrans Hweak. induction l as [|x l IH]; [constructor|].
  change (StronglySorted (λ x y, less y x = false) (sorted_insert less x (insertion_sort less l))).
  induction IH as [|y ys Hs IHs Hy]; [by repeat constructor|]. cbn. destruct (less y x) eqn:Hless.
  - apply StronglySorted_cons. split; [|done]. rewrite sorted_insert_perm. apply list.Forall_cons. split; [|done].
    destruct (less x y) eqn:Hxy; [|done]. rewrite <- (Hirr x). symmetry. by apply (Htrans x y x).
  - apply StronglySorted_cons. split; [|by apply StronglySorted_cons]. apply list.Forall_cons. split; [done|].
    rewrite list.Forall_forall in Hy |- *. intros z Hz. specialize (Hy z Hz).
    destruct (less z x) eqn:Hzx; [|done]. destruct (Hweak z y x Hzx); congruence.
Qed.

#[export] Instance SampleOnlineMath : OnlineMath := {|
  Float64_Add := Z.add; Float64_less := Z.ltb; Float64_zero := 0%Z; Float64_two := 2%Z; Float64_power := 1%Z;
  math_RoundMul := Z.mul; sort_Slice := @insertion_sort
|}.

Lemma sample_hex_lower z : ToLower (sample_hex z) = sample_hex z.
Proof.
  assert (∀ n, ToLower (sample_digits n) = sample_digits n) as Hd.
  { induction n as [|n IH]; [done|]. cbn. by rewrite IH. }
  destruct z as [|p|p]; [done|..]; unfold sample_hex.
  - change (String "0" (String "x" (ToLower (sample_digits (Pos.to_nat p)))) = String "0" (String "x" (sample_digits (Pos.to_nat p)))).
    by rewrite Hd.
  - change (String "-" (String "x" (ToLower (sample_digits (Pos.to_nat p)))) = String "-" (String "x" (sample_digits (Pos.to_nat p)))).
    by rewrite Hd.
Qed.

#[export] Instance SampleOnlineLaws : OnlineLaws.
Proof.
  refine {| number := λ _, True |}; cbn; try done.
  - intros x _. apply Z.ltb_irrefl.
  - intros x y z _ _ _ ?%Z.ltb_lt ?%Z.ltb_lt. apply Z.ltb_lt. lia.
  - intros x y z _ _ _ ?%Z.ltb_lt. rewrite !Z.ltb_lt. lia.
  - intros stake Hs. unfold calculateStakeWeight. cbn. apply Z.ltb_ge. lia.
  - intros a. apply sample_hex_lower.
  - intros A less l. apply insertion_sort_perm.
  - intros A less l. apply insertion_sort_sorted.
  - intros n i Hn Hi. apply Z.mul_nonneg_nonneg; [apply Z.div_pos; lia|done].
Qed.

(** A pool of two validated identities, whose owner is online, and a miner. *)
Definition sample_validated (stake : Z) (delegatee : option AddressPtr) : Identity :=
  sample_identity <| id_State := Verified |> <| id_Stake := Some stake |> <| id_Delegatee := delegatee |>.
Definition sample_member (n : Z) : Identity :=
  match n with
  | 1 => sample_validated 30 (Some (mkAddressPtr 1 (mkAddress 3)))
  | 2 => sample_validated 20 (Some (mkAddressPtr 2 (mkAddress 3)))
  | 3 => sample_validated 50 None
  | 4 => sample_validated 10 None
  | _ => sample_identity
  end%Z.
Definition sample_members : AppState :=
  sample_state <| GetIdentity := λ a, sample_member (address_word a) |>
               <| IterateOverIdentities := (λ n, (mkAddress n, sample_member n)) <$> [1; 2; 3; 4]%Z |>
               <| IsPool := λ a, bool_decide (a = mkAddress 3) |>
               <| PoolSize := λ a, if decide (a = mkAddress 3) then 3%Z else 0%Z |>
               <| IsOnlineIdentity := λ a, (3 <=? address_word a)%Z |>.
Definition sample_node : OnlineNode :=
  mkOnlineNode (Some 7%Z) (λ _, Some sample_members) {[mkAddress 4 := 99%Z]} (λ _, 1%Z).

Example sample_cache :
  (λ c, (GetPool c (address_Hex (mkAddress 3)), onlineCount c, va_Size <$> validators c, ci_LastActivity <$> identities c,
         sk_MaxMinerWeight (staking c))) <$> update sample_node NewCurrentOnlineIdentitiesCache
  = Some (Some (mkPool 100 100), 4%Z, [3; 1]%Z, [Some 99%Z; None; None; None], 50%Z).
Proof. by vm_compute. Qed.

Lemma sample_members_ok : state_ok sample_members.
Proof. split; repeat constructor; by vm_compute. Qed.

Lemma cache_follows_state_witness :
  state_ok sample_members ∧
  ∃ c, update sample_node NewCurrentOnlineIdentitiesCache = Some c ∧ cache_of sample_node sample_members c.
Proof.
  split; [apply sample_members_ok|].
  apply (cache_follows_state sample_node NewCurrentOnlineIdentitiesCache). intros height w _ [= <-]. apply sample_members_ok.
Defined.

Lemma miner_weights_sorted_witness :
  let v := foldl (visit sample_node sample_members) no_vars (IterateOverIdentities sample_members) in
  lv_minerStakeWeights v = [10; 20; 30; 50]%Z ∧
  StronglySorted not_above (lv_minerStakeWeights v) ∧
  (∀ y, y ∈ lv_minerStakeWeights v → not_above y (lv_maxMinerStakeWeight v)).
Proof.
  cbn zeta. split; [by vm_compute|].
  destruct (miner_weights_sorted sample_node sample_members sample_members_ok) as (_ & Ha & Hb & _). by split.
Defined.
