(* ===== verification/Multisig.v ===== *)
(** * The state of a multisig contract

    core/holder/contract/contract.go reads, from the store of a contract in the state of
    the head, the addresses of its signers and the amounts they agreed on.  The store is
    ordered by its keys; a map of the contract is the range of the keys that begin with
    its name. *)

From S2P Require Import Prelude Node.

(** The store of a contract: its keys with their values, in a range of keys and in the
    order of [bytes.Compare]; and the conversions of the node, [None] being an error. *)
Class ContractStore `{NodeApi} := {
  IterateContractStore : AppState → Address → bytes → bytes → list (bytes * bytes);
  hexutil_Encode : bytes → string;
  ExtractUInt64 : bytes → option Z;
  (** [string(data)], [v.SetBytes(data)] and [v.String()] *)
  string_of_bytes : bytes → string;
  big_SetBytes : bytes → Z;
  big_String : Z → string
}.

(** Go: core/holder/contract/contract.go conversion:84-105

    The values of the empty interface that [conversion] makes. *)
Inductive converted `{NodeApi} :=
  | CNumber (n : Z)
  | CString (s : string)
  | CDecimal (d : Decimal).

(** Go: core/types/types.go MultisigSigner *)
Record MultisigSigner `{NodeApi} := mkMultisigSigner {
  ms_Address : string; ms_DescAddress : string; ms_Amount : Decimal
}.

Section multisig.
Context `{ContractStore}.

(** Go: core/holder/contract/contract.go conversion *)
Definition conversion (convertTo : string) (data : bytes) : option converted :=
  if decide (convertTo = "byte"%string) then
    (let (b, ok) := ExtractByte data in if ok then Some (CNumber b) else None)
  else if decide (convertTo = "uint64"%string) then CNumber <$> ExtractUInt64 data
  else if decide (convertTo = "string"%string) then Some (CString (string_of_bytes data))
  else if decide (convertTo = "bigint"%string) then Some (CString (big_String (big_SetBytes data)))
  else if decide (convertTo = "hex"%string) then Some (CString (hexutil_Encode data))
  else if decide (convertTo = "dna"%string) then Some (CDecimal (ConvertToFloat (Some (big_SetBytes data))))
  else Some (CString (hexutil_Encode data)).

Definition MaxContractStoreKeyLength : nat := 32.
(** [[]byte(s)], of ASCII *)
Fixpoint bytes_of (s : string) : bytes :=
  match s with EmptyString => [] | String.String c s => Z.of_nat (Ascii.nat_of_ascii c) :: bytes_of s end.

(** The entries up to the first that cannot be converted, which ends the iteration. *)
Fixpoint convert_entries (prefixLen : nat) (keyFormat valueFormat : string) (l : list (bytes * bytes))
    : list (converted * converted) :=
  match l with
  | [] => []
  | (key, value) :: l =>
      match conversion keyFormat (drop prefixLen key), conversion valueFormat value with
      | Some k, Some v => (k, v) :: convert_entries prefixLen keyFormat valueFormat l
      | _, _ => []
      end
  end.

(** Go: core/holder/contract/contract.go readMap

    The map is the list of what is put in it, a later entry replacing an earlier one of
    the same key; the [err] that is returned is never set. *)
Definition readMap (state : AppState) (contract : Address) (mapName keyFormat valueFormat : string)
    : list (converted * converted) :=
  let minKey := bytes_of mapName in
  let maxKey := bytes_of mapName ++ replicate (MaxContractStoreKeyLength - length (bytes_of mapName)) 255%Z in
  convert_entries (length (bytes_of mapName)) keyFormat valueFormat (IterateContractStore state contract minKey maxKey).

(** The maps of [GetMultisigState] have keys and values of one kind each: a key that is a
    string, a value that is a string or a decimal.  [None] is the panic of an assertion of
    the type. *)
Definition as_string (c : converted) : option string := match c with CString s => Some s | _ => None end.
Definition as_decimal (c : converted) : option Decimal := match c with CDecimal d => Some d | _ => None end.
Definition as_map {V} (as_value : converted → option V) (l : list (converted * converted)) : option (gmap string V) :=
  foldl (λ m kv, m ← m; k ← as_string kv.1; v ← as_value kv.2; Some (<[k := v]> m)) (Some ∅) l.

(** Go: core/holder/contract/contract.go GetMultisigState

    [appState] is the answer of the holder of the state ([None]: an error), [order] the
    order in which the map of the addresses is ranged over; an amount that is not there
    is the zero decimal. *)
Definition GetMultisigState (order : gmap string string → list (string * string)) (appState : option AppState)
    (contractAddress : string) : outcome (option (list MultisigSigner)) :=
  match appState with
  | None => Done None
  | Some appState =>
      let address := HexToAddress contractAddress in
      let addresses := readMap appState address "addr" "hex" "hex" in
      let amounts := readMap appState address "amount" "hex" "dna" in
      match as_map as_string addresses, as_map as_decimal amounts with
      | Some addresses, Some amounts =>
          Done (Some ((λ kv, mkMultisigSigner _ kv.1 kv.2 (default (Decimal_of_int 0) (amounts !! kv.1))) <$> order addresses))
      | _, _ => Panic
      end
  end.
End multisig.

(** ** Ranges of keys *)

(** [bytes.Compare(a, b) <= 0] *)
Fixpoint bytes_le (a b : bytes) : bool :=
  match a, b with
  | [], _ => true
  | _ :: _, [] => false
  | x :: a, y :: b => (x <? y)%Z || ((x =? y)%Z && bytes_le a b)
  end.

Definition key_ok (key : bytes) : Prop := length key ≤ MaxContractStoreKeyLength ∧ Forall (λ x, 0 ≤ x < 256)%Z key.

Lemma bytes_le_app p a b : bytes_le (p ++ a) (p ++ b) = bytes_le a b.
Proof. induction p as [|x p IH]; [done|]. cbn. by rewrite Z.ltb_irrefl, Z.eqb_refl, IH. Qed.

Lemma bytes_le_max n a : length a ≤ n → Forall (λ x, 0 ≤ x < 256)%Z a → bytes_le a (replicate n 255%Z) = true.
Proof.
  revert a. induction n as [|n IH]; intros [|x a] Hn Ha; cbn in *; [done|lia|done|].
  apply list.Forall_cons in Ha as [Hx Ha]. rewrite IH by (done || lia).
  destruct (Z.ltb_spec x 255); [done|]. by rewrite (proj2 (Z.eqb_eq x 255)) by lia.
Qed.

(** The keys of the range of a map are those that begin with its name. *)
Lemma range_is_prefix p key :
  Forall (λ x, 0 ≤ x < 255)%Z p → length p ≤ MaxContractStoreKeyLength → key_ok key →
  bytes_le p key = true ∧ bytes_le key (p ++ replicate (MaxContractStoreKeyLength - length p) 255%Z) = true
  ↔ p `prefix_of` key.
Proof.
  unfold key_ok. generalize MaxContractStoreKeyLength as n. revert key.
  induction p as [|x p IH]; intros key n Hp Hn [Hlen Hkey].
  - cbn. rewrite Nat.sub_0_r. split; [intros _; apply prefix_nil|intros _]. split; [done|by apply bytes_le_max].
  - apply list.Forall_cons in Hp as [Hx Hp]. destruct key as [|y key].
    + cbn. split; [by intros []|intros []; done].
    + cbn [length] in *. apply list.Forall_cons in Hkey as [Hy Hkey]. destruct n as [|n]; [lia|].
      cbn [length Nat.sub app bytes_le]. rewrite orb_true_iff, orb_true_iff, !andb_true_iff, !Z.ltb_lt, !Z.eqb_eq. split.
      * intros [[?|[-> Ha]] [?|[? Hb]]]; try lia. apply prefix_cons, (IH key n); [done|lia|split; [lia|done]|done].
      * intros Hpre. apply prefix_cons_inv_1 in Hpre as Heq. subst y. apply prefix_cons_inv_2 in Hpre.
        apply (IH key n) in Hpre as [Ha Hb]; [|done|lia|split; [lia|done]]. split; right; done.
Qed.

(** ** What is read *)

(** Documented behaviour of the store of a contract: its keys are distinct, and a walk
    visits those of the range, in the order of the store. *)
Class ContractStoreLaws `{ContractStore} := {
  contract_entries : AppState → Address → list (bytes * bytes);
  contract_keys_ok st a : Forall key_ok (contract_entries st a).*1;
  contract_keys_unique st a : NoDup (contract_entries st a).*1;
  IterateContractStore_range st a lo hi :
    IterateContractStore st a lo hi
    = filter (λ kv, bytes_le lo kv.1 = true ∧ bytes_le kv.1 hi = true) (contract_entries st a);
  hexutil_Encode_inj :: Inj (=) (=) hexutil_Encode
}.

(** A walk that puts the entries in a map leaves the entries, when their keys differ. *)
Lemma insert_all_entries {V} (l : list (string * V)) :
  NoDup l.*1 → map_to_list (foldl (λ (m : gmap string V) kv, <[kv.1 := kv.2]> m) ∅ l) ≡ₚ l.
Proof.
  induction l as [|[k v] l IH] using rev_ind; [intros _; cbn; by rewrite map_to_list_empty|].
  rewrite fmap_app, foldl_app. intros (Hl & Hk & _)%list.NoDup_app. cbn [foldl fst snd].
  rewrite map_to_list_insert, IH; [apply Permutation_cons_append|done|].
  apply eq_None_not_Some. intros [v' Hv]. apply elem_of_map_to_list in Hv. rewrite IH in Hv by done.
  apply (Hk k); [by apply (list_elem_of_fmap_2 fst _ (k, v'))|by left].
Qed.

Lemma filter_iff_in {X} (P Q : X → Prop) `{∀ x, Decision (P x)} `{∀ x, Decision (Q x)} (l : list X) :
  (∀ x, x ∈ l → P x ↔ Q x) → filter P l = filter Q l.
Proof.
  induction l as [|x l IH]; intros Hl; [done|]. rewrite !filter_cons, IH by (intros; apply Hl; by right).
  specialize (Hl x ltac:(by left)). by repeat case_decide; try tauto.
Qed.

Section laws.
Context `{HL : ContractStoreLaws}.

(** What the contract has under a key. *)
Definition stored (st : AppState) (a : Address) (key : bytes) : option bytes :=
  (list_to_map (contract_entries st a) : gmap bytes bytes) !! key.

(** The entries of a map of the contract, by what follows its name in the key. *)
Definition map_entries (st : AppState) (a : Address) (name : string) : list (bytes * bytes) :=
  (λ kv, (drop (length (bytes_of name)) kv.1, kv.2)) <$> filter (λ kv, bytes_of name `prefix_of` kv.1) (contract_entries st a).

Lemma convert_all_entries n k v f g l :
  (∀ x, conversion k x = Some (f x)) → (∀ x, conversion v x = Some (g x)) →
  convert_entries n k v l = (λ kv, (f (drop n kv.1), g kv.2)) <$> l.
Proof. intros Hk Hv. induction l as [|[x y] l IH]; [done|]. cbn. by rewrite Hk, Hv, IH. Qed.

Lemma readMap_entries st a name k v f g :
  Forall (λ x, 0 ≤ x < 255)%Z (bytes_of name) → length (bytes_of name) ≤ MaxContractStoreKeyLength →
  (∀ x, conversion k x = Some (f x)) → (∀ x, conversion v x = Some (g x)) →
  readMap st a name k v = (λ kv, (f kv.1, g kv.2)) <$> map_entries st a name.
Proof.
  intros Hb Hn Hk Hv. unfold readMap, map_entries. rewrite (convert_all_entries _ _ _ f g), <- list_fmap_compose by done.
  rewrite IterateContractStore_range. f_equal. apply filter_iff_in. intros x Hx.
  apply range_is_prefix; [done|done|]. eapply list.Forall_forall; [apply contract_keys_ok|by apply list_elem_of_fmap_2].
Qed.

(** Two keys of a map of the contract that agree after the name are equal. *)
Lemma map_entries_unique st a name : NoDup (map_entries st a name).*1.
Proof.
  unfold map_entries. rewrite <- list_fmap_compose. pose proof (contract_keys_unique st a) as Hu.
  induction (contract_entries st a) as [|[k v] l IH]; [constructor|].
  cbn in Hu. apply list.NoDup_cons in Hu as [Hk Hu]. rewrite filter_cons. case_decide as Hp; [|by apply IH].
  cbn in *. apply list.NoDup_cons. split; [|by apply IH]. intros ([k' v'] & Heq & [Hp' Hin]%list_elem_of_filter)%list_elem_of_fmap.
  cbn in Heq, Hp'. destruct Hp as [r ->], Hp' as [r' ->]. rewrite !drop_app_length in Heq. subst r'.
  apply Hk. by apply (list_elem_of_fmap_2 fst _ (_, v')).
Qed.

Lemma map_entries_stored st a name rest value :
  (rest, value) ∈ map_entries st a name ↔ stored st a (bytes_of name ++ rest) = Some value.
Proof.
  unfold map_entries, stored. rewrite <- elem_of_list_to_map by apply contract_keys_unique. split.
  - intros ([k v] & [= -> ->] & [[r Hr] Hin]%list_elem_of_filter)%list_elem_of_fmap. cbn in *. subst k.
    by rewrite drop_app_length.
  - intros Hin. apply list_elem_of_fmap. exists (bytes_of name ++ rest, value). cbn. rewrite drop_app_length.
    split; [done|]. apply list_elem_of_filter. split; [by eexists|done].
Qed.

(** Reading a map of hexadecimal keys, with values of one kind, gives its entries. *)
Lemma as_map_entries {V} (as_value : converted → option V) (g : bytes → converted) (h : bytes → V) l :
  (∀ x, as_value (g x) = Some (h x)) →
  as_map as_value ((λ kv, (CString (hexutil_Encode kv.1), g kv.2)) <$> l)
  = Some (foldl (λ (m : gmap string V) kv, <[kv.1 := kv.2]> m) ∅ ((λ kv, (hexutil_Encode kv.1, h kv.2)) <$> l)).
Proof.
  intros Hg. unfold as_map. generalize (∅ : gmap string V) as m.
  induction l as [|[x y] l IH]; intros m; [done|]. cbn. rewrite Hg. cbn. apply IH.
Qed.

Definition hex_entries {V} (h : bytes → V) (l : list (bytes * bytes)) : list (string * V) :=
  (λ kv, (hexutil_Encode kv.1, h kv.2)) <$> l.

Lemma hex_entries_unique {V} (h : bytes → V) st a name : NoDup (hex_entries h (map_entries st a name)).*1.
Proof.
  unfold hex_entries. rewrite <- list_fmap_compose.
  rewrite (list_fmap_ext _ (hexutil_Encode ∘ fst)), list_fmap_compose by done.
  apply NoDup_fmap_2; [apply _|apply map_entries_unique].
Qed.

(** The amount that a signer agreed on, which is zero when the contract has none. *)
Definition agreed_amount (st : AppState) (a : Address) (signer : bytes) : Decimal :=
  match stored st a (bytes_of "amount" ++ signer) with
  | Some value => ConvertToFloat (Some (big_SetBytes value))
  | None => Decimal_of_int 0
  end.

Lemma amount_of_signer st a signer (m : gmap string Decimal) :
  m = foldl (λ m kv, <[kv.1 := kv.2]> m) ∅ (hex_entries (λ v, ConvertToFloat (Some (big_SetBytes v))) (map_entries st a "amount")) →
  default (Decimal_of_int 0) (m !! hexutil_Encode signer) = agreed_amount st a signer.
Proof.
  intros Hm. unfold agreed_amount. set (h v := ConvertToFloat (Some (big_SetBytes v))) in *.
  assert (Hin : ∀ d, m !! hexutil_Encode signer = Some d ↔ (hexutil_Encode signer, d) ∈ hex_entries h (map_entries st a "amount")).
  { intros d. rewrite <- elem_of_map_to_list, Hm, insert_all_entries by apply hex_entries_unique. done. }
  destruct (stored st a _) as [value|] eqn:Hs.
  - apply map_entries_stored in Hs. rewrite (proj2 (Hin (h value))); [done|].
    apply list_elem_of_fmap. by exists (signer, value).
  - destruct (m !! _) as [d|] eqn:Hd; [|done]. exfalso. specialize (proj1 (Hin d) eq_refl) as Hd'.
    apply list_elem_of_fmap in Hd' as ([k v] & [= Hk ->] & Hkv). apply hexutil_Encode_inj in Hk. subst k.
    apply map_entries_stored in Hkv. by rewrite Hs in Hkv.
Qed.

(** The two maps that are read. *)
Definition read_addresses (st : AppState) (a : Address) : gmap string string :=
  foldl (λ m kv, <[kv.1 := kv.2]> m) ∅ (hex_entries hexutil_Encode (map_entries st a "addr")).
Definition read_amounts (st : AppState) (a : Address) : gmap string Decimal :=
  foldl (λ m kv, <[kv.1 := kv.2]> m) ∅ (hex_entries (λ v, ConvertToFloat (Some (big_SetBytes v))) (map_entries st a "amount")).

Lemma GetMultisigState_done order st contractAddress :
  let a := HexToAddress contractAddress in
  GetMultisigState order (Some st) contractAddress
  = Done (Some ((λ kv, mkMultisigSigner _ kv.1 kv.2 (default (Decimal_of_int 0) (read_amounts st a !! kv.1))) <$> order (read_addresses st a))).
Proof.
  intros a. unfold GetMultisigState. fold a.
  rewrite (readMap_entries _ _ "addr" _ _ (CString ∘ hexutil_Encode) (CString ∘ hexutil_Encode)) by
    (done || (cbn; lia) || by repeat constructor).
  rewrite (readMap_entries _ _ "amount" _ _ (CString ∘ hexutil_Encode) (λ v, CDecimal (ConvertToFloat (Some (big_SetBytes v))))) by
    (done || (cbn; lia) || by repeat constructor).
  unfold compose. by rewrite (as_map_entries as_string (λ x, CString (hexutil_Encode x)) hexutil_Encode),
    (as_map_entries as_decimal (λ v, CDecimal (ConvertToFloat (Some (big_SetBytes v)))) (λ v, ConvertToFloat (Some (big_SetBytes v)))) by done.
Qed.

(** The state of a multisig contract has one signer for each key that begins with the
    name of the map of addresses: its address is what follows the name, with the address
    stored there and the amount that is stored under the same suffix, zero if there is
    none; whatever the order in which the map of the code is ranged over. *)
Theorem multisig_state_is_read order st contractAddress :
  (∀ m, ranges m (order m)) →
  let a := HexToAddress contractAddress in
  ∃ signers, GetMultisigState order (Some st) contractAddress = Done (Some signers) ∧
    signers ≡ₚ (λ kv, mkMultisigSigner _ (hexutil_Encode kv.1) (hexutil_Encode kv.2) (agreed_amount st a kv.1)) <$> map_entries st a "addr".
Proof.
  intros Horder a. rewrite GetMultisigState_done. fold a. eexists. split; [done|].
  rewrite (Horder _). unfold read_addresses. rewrite insert_all_entries by apply (hex_entries_unique hexutil_Encode).
  unfold hex_entries. rewrite <- list_fmap_compose.
  match goal with |- ?x ≡ₚ ?y => assert (x = y) as ->; [|done] end.
  apply list_fmap_ext. intros _ [k v] _. cbn. f_equal. by apply amount_of_signer.
Qed.
End laws.

(** ** A contract with three signers, one of which agreed on no amount *)

Definition sample_entries : list (bytes * bytes) :=
  [(bytes_of "addr" ++ [1]%Z, [10]%Z); (bytes_of "addr" ++ [2]%Z, [20]%Z); (bytes_of "addr" ++ [3]%Z, [30]%Z);
   (bytes_of "amount" ++ [1]%Z, [100]%Z); (bytes_of "amount" ++ [3]%Z, [44]%Z); (bytes_of "time", [1]%Z)].

(** A text with one character for each unit of the bytes. *)
Definition sample_encode (b : bytes) : string :=
  (fix go l := match l with [] => EmptyString | c :: l => String.String c (go l) end) (Ascii.ascii_of_nat ∘ Z.to_nat <$> b).

#[export] Instance SampleStore : ContractStore := {|
  IterateContractStore _ a lo hi :=
    filter (λ kv, bytes_le lo kv.1 = true ∧ bytes_le kv.1 hi = true) (if decide (a = mkAddress 3) then sample_entries else []);
  hexutil_Encode b := pretty.pretty (encode b);
  ExtractUInt64 b := match b with x :: _ => Some x | [] => None end;
  string_of_bytes := sample_encode;
  big_SetBytes := foldl (λ acc x, acc * 256 + x)%Z 0%Z;
  big_String z := pretty.pretty z
|}.

#[export, refine] Instance SampleStoreLaws : ContractStoreLaws := {|
  contract_entries _ a := if decide (a = mkAddress 3) then sample_entries else []
|}.
Proof.
  - intros _ a. case_decide; [|constructor]. unfold key_ok. apply (bool_decide_unpack _). by vm_compute.
  - intros _ a. case_decide; [|constructor]. vm_compute. apply (bool_decide_unpack _). by vm_compute.
  - done.
Defined.

Lemma multisig_state_is_read_witness :
  ∃ signers, GetMultisigState map_to_list (Some sample_state) (sample_hex 3) = Done (Some signers) ∧
    signers ≡ₚ [mkMultisigSigner _ (hexutil_Encode [1]%Z) (hexutil_Encode [10]%Z) 100%Z;
                mkMultisigSigner _ (hexutil_Encode [2]%Z) (hexutil_Encode [20]%Z) 0%Z;
                mkMultisigSigner _ (hexutil_Encode [3]%Z) (hexutil_Encode [30]%Z) 44%Z].
Proof.
  exact (multisig_state_is_read map_to_list sample_state (sample_hex 3) ranges_canonical).
Defined.
