(* ===== verification/VoteTracker.v ===== *)
(** * The tracking of the countings of votes

    The collector publishes what the consensus of the node counts
    (core/stats/collector.go, events.go); core/mempool/vote_counting_tracker.go copies
    each event, puts it in one of four queues unless the queue is full, and one goroutine
    converts what is in the queues and saves it, trying again until the database accepts.
    core/mempool/peers_tracker.go counts the peers of the last hours.

    A state has the queues and what the goroutine is trying to save, with two logs: what
    was accepted in the queues, and what the database has saved.  The theorems are about
    every interleaving of the submissions with the turns of the goroutine. *)

From stdpp Require Import functions sorting.
From S2P Require Import Prelude Node.

(** ** Data *)

(** [types.Vote] and [validators.StepValidators] of the node, by what is read of them. *)
Record NodeVote := mkNodeVote {
  VoterAddr : Address; nv_ParentHash : Hash; nv_VotedHash : Hash; nv_TurnOffline : bool; nv_Upgrade : Z
}.
Record NodeStepValidators := mkNodeStepValidators {
  nsv_Original : option (gset Address); nsv_Validators : option (gset Address); nsv_ApprovedValidators : option (gset Address)
}.

(** Go: core/stats/events.go VoteCountingStepResultEvent *)
Record VoteCountingStepResultEvent := mkVoteCountingStepResultEvent {
  vse_Round : Z; vse_Step : Z; vse_VotesByBlock : gmap Hash (gmap Address NodeVote);
  vse_NecessaryVotesCount : Z; vse_CheckedRoundVotes : Z
}.
(** Go: core/stats/events.go VoteCountingResultEvent

    [vre_Cert] is the votes of the certificate, [None] being the nil pointer. *)
Record VoteCountingResultEvent := mkVoteCountingResultEvent {
  vre_Round : Z; vre_Step : Z; vre_Validators : option NodeStepValidators; vre_Hash : Hash;
  vre_Cert : option (list NodeVote); vre_Err : option string
}.
(** Go: core/stats/events.go ProofProposalEvent *)
Record ProofProposalEvent := mkProofProposalEvent {
  ppe_Round : Z; ppe_Hash : Hash; ppe_ProposerPubKey : bytes; ppe_Modifier : Z
}.
(** Go: core/stats/events.go BlockProposalEvent

    The proposal by its height, its coinbase and its hash. *)
Record BlockProposalEvent := mkBlockProposalEvent {
  bpe_Height : Z; bpe_Coinbase : Address; bpe_Hash : Hash; bpe_ReceivingTime : Z
}.

(** Go: db/types.go Vote *)
Record Vote := mkVote {
  vo_Voter : Address; vo_ParentHash : Hash; vo_VotedHash : Hash; vo_TurnOffline : bool; vo_Upgrade : Z
}.
(** Go: db/types.go VoteCountingStepResult *)
Record VoteCountingStepResult := mkVoteCountingStepResult {
  vsr_Timestamp : Z; vsr_Round : Z; vsr_Step : Z; vsr_NecessaryVotesCount : Z; vsr_CheckedRoundVotes : Z;
  vsr_Votes : list Vote
}.
(** Go: db/types.go StepValidators *)
Record StepValidators := mkStepValidators {
  sv_Original : list Address; sv_Validators : list Address; sv_ApprovedValidators : list Address; sv_Size : Z
}.
(** Go: db/types.go FullBlockCert *)
Record FullBlockCert := mkFullBlockCert { fc_Votes : list Vote }.
(** Go: db/types.go VoteCountingResult *)
Record VoteCountingResult := mkVoteCountingResult {
  vcr_Timestamp : Z; vcr_Round : Z; vcr_Step : Z; vcr_Validators : option StepValidators; vcr_Hash : Hash;
  vcr_Cert : option FullBlockCert; vcr_Err : option string
}.
(** Go: db/types.go ProofProposal *)
Record ProofProposal `{NodeApi} := mkProofProposal {
  pp_Timestamp : Z; pp_Round : Z; pp_Proposer : Address; pp_Hash : Hash; pp_Modifier : Z; pp_VrfScore : Float64
}.
(** Go: db/types.go BlockProposal *)
Record BlockProposal := mkBlockProposal {
  bp_ReceivingTime : Z; bp_Height : Z; bp_Proposer : Address; bp_Hash : Hash
}.

(** [crypto.PubKeyBytesToAddress] ([None]: an error), and [common.HashToFloat] with its
    [Float64]. *)
Class VoteApi `{NodeApi} := {
  PubKeyBytesToAddress : bytes → option Address;
  HashToFloat64 : Hash → Z → Float64
}.

(** The order in which the maps and the sets of an event are walked. *)
Record orders := mkOrders {
  o_blocks : gmap Hash (gmap Address NodeVote) → list (Hash * gmap Address NodeVote);
  o_votes : gmap Address NodeVote → list (Address * NodeVote);
  o_set : gset Address → list Address
}.
Definition good_orders (o : orders) : Prop :=
  (∀ m, ranges m (o_blocks o m)) ∧ (∀ m, ranges m (o_votes o m)) ∧ ∀ s, o_set o s ≡ₚ elements s.

(** Go: core/mempool/vote_counting_tracker.go voteCountingStepResultEventWrapper *)
Record voteCountingStepResultEventWrapper := mkStepWrapper { sw_timestamp : Z; sw_event : VoteCountingStepResultEvent }.
(** Go: core/mempool/vote_counting_tracker.go voteCountingResultEventWrapper *)
Record voteCountingResultEventWrapper := mkResultWrapper { rw_timestamp : Z; rw_event : VoteCountingResultEvent }.
(** Go: core/mempool/vote_counting_tracker.go proofProposalEventWrapper *)
Record proofProposalEventWrapper := mkProofWrapper { fw_timestamp : Z; fw_event : ProofProposalEvent }.

(** What is taken from a queue, and what is saved. *)
Inductive item :=
  | IStep (w : voteCountingStepResultEventWrapper)
  | ICounting (w : voteCountingResultEventWrapper)
  | IProof (w : proofProposalEventWrapper)
  | IBlock (e : BlockProposalEvent).
Inductive row `{NodeApi} :=
  | RStep (r : VoteCountingStepResult)
  | RCounting (r : VoteCountingResult)
  | RProof (r : ProofProposal)
  | RBlock (r : BlockProposal).

(** The four queues, in the order of the cases of [track]. *)
Inductive queue := Steps | Countings | Proofs | Blocks.
#[export] Instance queue_eq_dec : EqDecision queue.
Proof. solve_decision. Defined.

(** Go: core/mempool/vote_counting_tracker.go voteCountingTracker

    With the item that the goroutine saves, what its queues have accepted and what the
    database has saved. *)
Record voteCountingTracker `{NodeApi} := mkVoteCountingTracker {
  countingQueue : list voteCountingResultEventWrapper;
  countingStepQueue : list voteCountingStepResultEventWrapper;
  proofQueue : list proofProposalEventWrapper;
  blockQueue : list BlockProposalEvent;
  saving : option item;
  accepted : queue → list item;
  saved : queue → list row
}.

(** Go: core/mempool/vote_counting_tracker.go NewVoteCountingTracker:27-32

    The sizes of the channels. *)
Definition capacity (q : queue) : nat := match q with Countings => 100 | Steps | Proofs | Blocks => 1000 end.

Definition NewVoteCountingTracker `{NodeApi} : voteCountingTracker :=
  mkVoteCountingTracker _ [] [] [] [] None (λ _, []) (λ _, []).

(** ** Copies and conversions *)

(** A block without votes is not copied; the votes of the others are, so that later
    changes of the maps of the event are not seen. *)
Definition copy_votes (m : gmap Hash (gmap Address NodeVote)) : gmap Hash (gmap Address NodeVote) :=
  filter (λ kv, kv.2 ≠ ∅) m.

Definition copy_step (e : VoteCountingStepResultEvent) : VoteCountingStepResultEvent :=
  mkVoteCountingStepResultEvent (vse_Round e) (vse_Step e) (copy_votes (vse_VotesByBlock e))
    (vse_NecessaryVotesCount e) (vse_CheckedRoundVotes e).

(** Go: core/mempool/vote_counting_tracker.go convertVote *)
Definition convertVote (v : NodeVote) : Vote :=
  mkVote (VoterAddr v) (nv_ParentHash v) (nv_VotedHash v) (nv_TurnOffline v) (nv_Upgrade v).

(** Go: core/mempool/vote_counting_tracker.go convertVoteCountingStepResultEventWrapper *)
Definition convertVoteCountingStepResultEventWrapper (o : orders) (w : voteCountingStepResultEventWrapper) : VoteCountingStepResult :=
  let e := sw_event w in
  mkVoteCountingStepResult (sw_timestamp w) (vse_Round e) (vse_Step e) (vse_NecessaryVotesCount e) (vse_CheckedRoundVotes e)
    (o_blocks o (vse_VotesByBlock e) ≫= λ kv, (λ av, convertVote av.2) <$> o_votes o kv.2).

(** The addresses of a set, none of the nil one. *)
Definition convert_set (o : orders) (s : option (gset Address)) : list Address :=
  match s with None => [] | Some s => o_set o s end.

(** Go: core/mempool/vote_counting_tracker.go convertVoteCountingResultEvent *)
Definition convertVoteCountingResultEvent (o : orders) (w : voteCountingResultEventWrapper) : VoteCountingResult :=
  let e := rw_event w in
  mkVoteCountingResult (rw_timestamp w) (vre_Round e) (vre_Step e)
    ((λ v, mkStepValidators (convert_set o (nsv_Original v)) (convert_set o (nsv_Validators v))
             (convert_set o (nsv_ApprovedValidators v))
             (match nsv_ApprovedValidators v with None => 0%Z | Some s => Z.of_nat (size s) end)) <$> vre_Validators e)
    (vre_Hash e) ((λ votes, mkFullBlockCert (convertVote <$> votes)) <$> vre_Cert e) (vre_Err e).

Section tracker.
Context `{VoteApi}.

(** Go: core/mempool/vote_counting_tracker.go convertProofProposalEvent *)
Definition convertProofProposalEvent (w : proofProposalEventWrapper) : option ProofProposal :=
  let e := fw_event w in
  match PubKeyBytesToAddress (ppe_ProposerPubKey e) with
  | None => None
  | Some proposer =>
      Some (mkProofProposal _ (fw_timestamp w) (ppe_Round e) proposer (ppe_Hash e) (ppe_Modifier e)
              (HashToFloat64 (ppe_Hash e) (ppe_Modifier e)))
  end.

(** Go: core/mempool/vote_counting_tracker.go convertBlockProposalEvent *)
Definition convertBlockProposalEvent (e : BlockProposalEvent) : BlockProposal :=
  mkBlockProposal (bpe_ReceivingTime e) (bpe_Height e) (bpe_Coinbase e) (bpe_Hash e).

(** ** Submissions *)

Definition queue_of (i : item) : queue :=
  match i with IStep _ => Steps | ICounting _ => Countings | IProof _ => Proofs | IBlock _ => Blocks end.

Definition accept (i : item) (t : voteCountingTracker) : voteCountingTracker :=
  t <| accepted ::= λ a, <[queue_of i := a (queue_of i) ++ [i]]> a |>.

(** Go: core/mempool/vote_counting_tracker.go voteCountingTracker.SubmitVoteCountingStepResultEvent *)
Definition SubmitVoteCountingStepResultEvent (now : Z) (e : VoteCountingStepResultEvent) (t : voteCountingTracker) : voteCountingTracker :=
  let w := mkStepWrapper now (copy_step e) in
  if length (countingStepQueue t) <? capacity Steps then
    accept (IStep w) (t <| countingStepQueue ::= λ l, l ++ [w] |>)
  else t.

(** Go: core/mempool/vote_counting_tracker.go voteCountingTracker.SubmitVoteCountingResultEvent

    The copy of the sets, of the certificate and of the other fields has the values of
    the event. *)
Definition SubmitVoteCountingResultEvent (now : Z) (e : VoteCountingResultEvent) (t : voteCountingTracker) : voteCountingTracker :=
  let w := mkResultWrapper now e in
  if length (countingQueue t) <? capacity Countings then
    accept (ICounting w) (t <| countingQueue ::= λ l, l ++ [w] |>)
  else t.

(** Go: core/mempool/vote_counting_tracker.go voteCountingTracker.SubmitProofProposalEvent *)
Definition SubmitProofProposalEvent (now : Z) (e : ProofProposalEvent) (t : voteCountingTracker) : voteCountingTracker :=
  let w := mkProofWrapper now e in
  if length (proofQueue t) <? capacity Proofs then
    accept (IProof w) (t <| proofQueue ::= λ l, l ++ [w] |>)
  else t.

(** Go: core/mempool/vote_counting_tracker.go voteCountingTracker.SubmitBlockProposalEvent *)
Definition SubmitBlockProposalEvent (e : BlockProposalEvent) (t : voteCountingTracker) : voteCountingTracker :=
  if length (blockQueue t) <? capacity Blocks then
    accept (IBlock e) (t <| blockQueue ::= λ l, l ++ [e] |>)
  else t.

(** Go: core/stats/collector.go statsCollector.SubmitVoteCountingStepResult

    The bus calls the subscriber, which main.go makes the tracker. *)
Definition SubmitVoteCountingStepResult (now round step : Z) (votesByBlock : gmap Hash (gmap Address NodeVote))
    (necessaryVotesCount checkedRoundVotes : Z) : voteCountingTracker → voteCountingTracker :=
  SubmitVoteCountingStepResultEvent now
    (mkVoteCountingStepResultEvent round step votesByBlock necessaryVotesCount checkedRoundVotes).

(** Go: core/stats/collector.go statsCollector.SubmitVoteCountingResult *)
Definition SubmitVoteCountingResult (now round step : Z) (validators : option NodeStepValidators) (hash : Hash)
    (cert : option (list NodeVote)) (err : option string) : voteCountingTracker → voteCountingTracker :=
  SubmitVoteCountingResultEvent now (mkVoteCountingResultEvent round step validators hash cert err).

(** Go: core/stats/collector.go statsCollector.SubmitProofProposal

    [int64(modifier)] of an [int], which has 64 bits. *)
Definition SubmitProofProposal (now round : Z) (hash : Hash) (proposerPubKey : bytes) (modifier : Z)
    : voteCountingTracker → voteCountingTracker :=
  SubmitProofProposalEvent now (mkProofProposalEvent round hash proposerPubKey modifier).

(** Go: core/stats/collector.go statsCollector.SubmitBlockProposal *)
Definition SubmitBlockProposal (height : Z) (coinbase : Address) (hash : Hash) (receivingTime : Z)
    : voteCountingTracker → voteCountingTracker :=
  SubmitBlockProposalEvent (mkBlockProposalEvent height coinbase hash receivingTime).

(** ** The goroutine *)

Definition done_with (r : row) (q : queue) (t : voteCountingTracker) : voteCountingTracker :=
  t <| saving := None |> <| saved ::= λ s, <[q := s q ++ [r]]> s |>.

(** Go: core/mempool/vote_counting_tracker.go handleCountingStep

    One call of the database, whose answer is [ok]; what it refuses is tried again, and
    converted again, after a pause. *)
Definition handleCountingStep (o : orders) (ok : bool) (w : voteCountingStepResultEventWrapper) (t : voteCountingTracker) : voteCountingTracker :=
  if ok then done_with (RStep (convertVoteCountingStepResultEventWrapper o w)) Steps t else t.

(** Go: core/mempool/vote_counting_tracker.go handleCounting *)
Definition handleCounting (o : orders) (ok : bool) (w : voteCountingResultEventWrapper) (t : voteCountingTracker) : voteCountingTracker :=
  if ok then done_with (RCounting (convertVoteCountingResultEvent o w)) Countings t else t.

(** Go: core/mempool/vote_counting_tracker.go handleProofProposal

    What cannot be converted is logged. *)
Definition handleProofProposal (ok : bool) (w : proofProposalEventWrapper) (t : voteCountingTracker) : voteCountingTracker :=
  match convertProofProposalEvent w with
  | None => t <| saving := None |>
  | Some value => if ok then done_with (RProof value) Proofs t else t
  end.

(** Go: core/mempool/vote_counting_tracker.go handleBlockProposal *)
Definition handleBlockProposal (ok : bool) (e : BlockProposalEvent) (t : voteCountingTracker) : voteCountingTracker :=
  if ok then done_with (RBlock (convertBlockProposalEvent e)) Blocks t else t.

(** One attempt to save what the goroutine has taken. *)
Definition handle (o : orders) (ok : bool) (t : voteCountingTracker) : option voteCountingTracker :=
  match saving t with
  | None => None
  | Some (IStep w) => Some (handleCountingStep o ok w t)
  | Some (ICounting w) => Some (handleCounting o ok w t)
  | Some (IProof w) => Some (handleProofProposal ok w t)
  | Some (IBlock e) => Some (handleBlockProposal ok e t)
  end.

(** Go: core/mempool/vote_counting_tracker.go track

    A case of the [select] that receives: the goroutine is back in the loop and the queue
    is not empty.  The case of the ticker, [deleteOldData], deletes rows of the database
    by their age and leaves the tracker as it is. *)
Definition track (q : queue) (t : voteCountingTracker) : option voteCountingTracker :=
  match saving t with
  | Some _ => None
  | None =>
      match q with
      | Steps => match countingStepQueue t with [] => None | w :: l => Some (t <| countingStepQueue := l |> <| saving := Some (IStep w) |>) end
      | Countings => match countingQueue t with [] => None | w :: l => Some (t <| countingQueue := l |> <| saving := Some (ICounting w) |>) end
      | Proofs => match proofQueue t with [] => None | w :: l => Some (t <| proofQueue := l |> <| saving := Some (IProof w) |>) end
      | Blocks => match blockQueue t with [] => None | e :: l => Some (t <| blockQueue := l |> <| saving := Some (IBlock e) |>) end
      end
  end.

(** ** Runs *)

Inductive action :=
  | SubmitStep (now : Z) (e : VoteCountingStepResultEvent)
  | SubmitCounting (now : Z) (e : VoteCountingResultEvent)
  | SubmitProof (now : Z) (e : ProofProposalEvent)
  | SubmitBlock (e : BlockProposalEvent)
  | Receive (q : queue)
  | Attempt (o : orders) (ok : bool).

(** [None]: the goroutine waits. *)
Definition act (t : voteCountingTracker) (a : action) : option voteCountingTracker :=
  match a with
  | SubmitStep now e => Some (SubmitVoteCountingStepResultEvent now e t)
  | SubmitCounting now e => Some (SubmitVoteCountingResultEvent now e t)
  | SubmitProof now e => Some (SubmitProofProposalEvent now e t)
  | SubmitBlock e => Some (SubmitBlockProposalEvent e t)
  | Receive q => track q t
  | Attempt o ok => handle o ok t
  end.

Fixpoint run_tracker (t : voteCountingTracker) (l : list action) : option voteCountingTracker :=
  match l with [] => Some t | a :: l => t ← act t a; run_tracker t l end.
End tracker.

(** ** What is saved *)

Section accounts.
Context `{VoteApi}.
Implicit Types (q : queue) (i : item) (t : voteCountingTracker).

Definition items q t : list item :=
  match q with
  | Steps => IStep <$> countingStepQueue t
  | Countings => ICounting <$> countingQueue t
  | Proofs => IProof <$> proofQueue t
  | Blocks => IBlock <$> blockQueue t
  end.
Definition in_hand q t : list item :=
  match saving t with Some i => if decide (queue_of i = q) then [i] else [] | None => [] end.

(** The votes of an event, whatever the block. *)
Definition all_votes (e : VoteCountingStepResultEvent) : list NodeVote :=
  map_to_list (vse_VotesByBlock e) ≫= λ kv, (map_to_list kv.2).*2.

Definition set_described (l : list Address) (s : option (gset Address)) : Prop :=
  l ≡ₚ match s with None => [] | Some s => elements s end.

(** A row says what an item does, the order of what comes from maps and sets aside. *)
Definition describes i (r : row) : Prop :=
  match i, r with
  | IStep w, RStep r =>
      let e := sw_event w in
      vsr_Timestamp r = sw_timestamp w ∧ vsr_Round r = vse_Round e ∧ vsr_Step r = vse_Step e ∧
      vsr_NecessaryVotesCount r = vse_NecessaryVotesCount e ∧ vsr_CheckedRoundVotes r = vse_CheckedRoundVotes e ∧
      vsr_Votes r ≡ₚ convertVote <$> all_votes e
  | ICounting w, RCounting r =>
      let e := rw_event w in
      vcr_Timestamp r = rw_timestamp w ∧ vcr_Round r = vre_Round e ∧ vcr_Step r = vre_Step e ∧ vcr_Hash r = vre_Hash e ∧
      vcr_Err r = vre_Err e ∧ fc_Votes <$> vcr_Cert r = fmap convertVote <$> vre_Cert e ∧
      match vcr_Validators r, vre_Validators e with
      | None, None => True
      | Some v, Some v' =>
          set_described (sv_Original v) (nsv_Original v') ∧ set_described (sv_Validators v) (nsv_Validators v') ∧
          set_described (sv_ApprovedValidators v) (nsv_ApprovedValidators v') ∧
          sv_Size v = Z.of_nat (length (sv_ApprovedValidators v))
      | _, _ => False
      end
  | IProof w, RProof r => convertProofProposalEvent w = Some r
  | IBlock e, RBlock r => r = convertBlockProposalEvent e
  | _, _ => False
  end.

(** What handling an item saves: nothing for a proof whose key is not one. *)
Definition saved_as i (r : option row) : Prop :=
  match r with
  | Some r => describes i r
  | None => match i with IProof w => PubKeyBytesToAddress (ppe_ProposerPubKey (fw_event w)) = None | _ => False end
  end.

Lemma fmap_of_bind {A B C} (f : B → C) (g : A → list B) l : f <$> (l ≫= g) = l ≫= λ x, f <$> g x.
Proof. induction l as [|x l IH]; [done|]. by rewrite !bind_cons, fmap_app, IH. Qed.

Lemma bind_pointwise {A B} (f g : A → list B) l : (∀ x, f x ≡ₚ g x) → l ≫= f ≡ₚ l ≫= g.
Proof. intros Hfg. induction l as [|x l IH]; [done|]. by rewrite !bind_cons, IH, (Hfg x). Qed.

Lemma step_described o w : good_orders o → describes (IStep w) (RStep (convertVoteCountingStepResultEventWrapper o w)).
Proof.
  intros (Hb & Hv & _). split_and!; try done. cbn. unfold all_votes. rewrite fmap_of_bind.
  transitivity (map_to_list (vse_VotesByBlock (sw_event w)) ≫= λ kv, (λ av, convertVote av.2) <$> o_votes o kv.2).
  - by rewrite (Hb _).
  - apply bind_pointwise. intros kv. rewrite <- list_fmap_compose. by rewrite (Hv kv.2).
Qed.

Lemma set_converted o s : good_orders o → set_described (convert_set o s) s.
Proof. intros (_ & _ & Hs). unfold set_described. by destruct s as [s|]; [apply Hs|]. Qed.

Lemma counting_described o w : good_orders o → describes (ICounting w) (RCounting (convertVoteCountingResultEvent o w)).
Proof.
  intros Ho. split_and!; try done; cbn; [by destruct (vre_Cert _)|].
  destruct (vre_Validators _) as [v|]; cbn; [|done]. split_and!; try by apply set_converted.
  destruct (nsv_ApprovedValidators v) as [s|] eqn:Hs; [|done]. cbn. destruct Ho as (_ & _ & Hs').
  by rewrite (Hs' s).
Qed.

(** Everything accepted was handled, is in hand or waits; what was handled is saved. *)
Definition accounted q t : Prop :=
  ∃ handled rows, accepted t q = handled ++ in_hand q t ++ items q t ∧
    Forall2 saved_as handled rows ∧ omap id rows = saved t q.

Definition action_ok (a : action) : Prop := match a with Attempt o _ => good_orders o | _ => True end.

Lemma accounted_accept q i t t' :
  saving t' = saving t → saved t' = saved t → accepted t' = accepted t →
  items q t' = items q t ++ (if decide (queue_of i = q) then [i] else []) → accounted q t → accounted q (accept i t').
Proof.
  intros Hs Hsv Ha Hi (handled & rows & Hacc & Hrows & Hsaved). exists handled, rows.
  replace (items q (accept i t')) with (items q t') by by destruct q.
  unfold in_hand, accept in *. cbn. rewrite Hs, Hsv, Hi, Ha. split_and!; [|done|done]. case_decide as Hq.
  - subst q. by rewrite fn_lookup_insert, Hacc, <- !app_assoc.
  - by rewrite fn_lookup_insert_ne, app_nil_r by done.
Qed.

Lemma accounted_receive q i t t' :
  saving t = None → saving t' = Some i → saved t' = saved t → accepted t' = accepted t →
  items q t = (if decide (queue_of i = q) then [i] else []) ++ items q t' → accounted q t → accounted q t'.
Proof.
  intros Hs Hs' Hsv Ha Hi (handled & rows & Hacc & Hrows & Hsaved). exists handled, rows. unfold in_hand in *.
  rewrite Hs in Hacc. rewrite Hs', Hsv, Ha. cbn in Hacc. by rewrite <- Hi.
Qed.

Lemma accounted_done q i r t t' :
  saving t = Some i → saving t' = None → accepted t' = accepted t → items q t' = items q t →
  saved t' q = saved t q ++ (if decide (queue_of i = q) then option_list r else []) → saved_as i r →
  accounted q t → accounted q t'.
Proof.
  intros Hs Hs' Ha Hi Hsv Hr (handled & rows & Hacc & Hrows & Hsaved). unfold accounted, in_hand in *.
  rewrite Hs in Hacc. rewrite Hs', Hsv, Ha, Hi. case_decide as Hq.
  - exists (handled ++ [i]), (rows ++ [r]). split_and!; [by rewrite Hacc, <- app_assoc| |].
    + apply List.Forall2_app; [done|by constructor].
    + rewrite omap_app, Hsaved. by destruct r.
  - exists handled, rows. by rewrite app_nil_r.
Qed.

Lemma act_accounted a q t t' : action_ok a → act t a = Some t' → accounted q t → accounted q t'.
Proof.
  intros Ha Hact Hq. destruct a as [now e|now e|now e|e|k|o ok]; cbn in Hact.
  1-4: injection Hact as <-; unfold SubmitVoteCountingStepResultEvent, SubmitVoteCountingResultEvent,
    SubmitProofProposalEvent, SubmitBlockProposalEvent; case_match; [|done];
    apply (accounted_accept q _ t); [done..| |done]; destruct q; cbn; by rewrite ?fmap_app, ?app_nil_r.
  - unfold track in Hact. destruct (saving t) eqn:Hs; [done|].
    destruct k; case_match; simplify_eq; eapply (accounted_receive q); try done; try reflexivity;
      destruct q; cbn; by repeat match goal with E : _ = _ :: _ |- _ => rewrite E; clear E end.
  - unfold handle in Hact. destruct (saving t) as [[w|w|w|e]|] eqn:Hs; [..|done]; injection Hact as <-.
    + unfold handleCountingStep. destruct ok; [|done]. eapply (accounted_done q _ (Some _)); [done..| |by apply step_described|done].
      destruct q; cbn; by rewrite ?app_nil_r.
    + unfold handleCounting. destruct ok; [|done]. eapply (accounted_done q _ (Some _)); [done..| |by apply counting_described|done].
      destruct q; cbn; by rewrite ?app_nil_r.
    + unfold handleProofProposal. destruct (convertProofProposalEvent w) as [r|] eqn:Hw.
      * destruct ok; [|done]. eapply (accounted_done q _ (Some (RProof r))); [done..| |exact Hw|done].
        destruct q; cbn; by rewrite ?app_nil_r.
      * eapply (accounted_done q _ None); [done..| | |done]; [destruct q; cbn; by rewrite ?app_nil_r|].
        unfold convertProofProposalEvent in Hw. cbn in *. by destruct (PubKeyBytesToAddress _).
    + unfold handleBlockProposal. destruct ok; [|done]. eapply (accounted_done q _ (Some (RBlock (convertBlockProposalEvent e)))); [done..| |done|done].
      destruct q; cbn; by rewrite ?app_nil_r.
Qed.
End accounts.

(** ** The tracker and its properties *)

Section properties.
Context `{VoteApi}.
Implicit Types (q : queue) (i : item) (t : voteCountingTracker).

(** What an action submits. *)
Definition submitted q (a : action) : list item :=
  match a, q with
  | SubmitStep now e, Steps => [IStep (mkStepWrapper now (copy_step e))]
  | SubmitCounting now e, Countings => [ICounting (mkResultWrapper now e)]
  | SubmitProof now e, Proofs => [IProof (mkProofWrapper now e)]
  | SubmitBlock e, Blocks => [IBlock e]
  | _, _ => []
  end.

Lemma act_bounded a q t t' : act t a = Some t' → length (items q t) ≤ capacity q → length (items q t') ≤ capacity q.
Proof.
  intros Hact Hq. destruct a as [now e|now e|now e|e|k|o ok]; cbn in Hact.
  1-4: injection Hact as <-; unfold SubmitVoteCountingStepResultEvent, SubmitVoteCountingResultEvent,
    SubmitProofProposalEvent, SubmitBlockProposalEvent; case_match eqn:Hlt; [|done]; apply Nat.ltb_lt in Hlt;
    destruct q; try done; cbn [items] in *; rewrite length_fmap in *; cbn; rewrite length_app; cbn in *; lia.
  - unfold track in Hact. destruct (saving t); [done|].
    destruct k; case_match eqn:Hl; simplify_eq; destruct q; try done; cbn [items] in *;
      rewrite Hl in Hq; cbn in *; rewrite length_fmap in *; lia.
  - unfold handle, handleCountingStep, handleCounting, handleProofProposal, handleBlockProposal in Hact.
    by repeat case_match; simplify_eq; destruct q.
Qed.

Lemma act_accepted a q t t' :
  act t a = Some t' → ∃ l, l `sublist_of` submitted q a ∧ accepted t' q = accepted t q ++ l.
Proof.
  intros Hact. destruct a as [now e|now e|now e|e|k|o ok]; cbn in Hact.
  1-4: injection Hact as <-; unfold SubmitVoteCountingStepResultEvent, SubmitVoteCountingResultEvent,
    SubmitProofProposalEvent, SubmitBlockProposalEvent; case_match eqn:Hlt;
    [exists (submitted q ltac:(constructor; eassumption)); split; [done|]; destruct q; cbn; by rewrite ?app_nil_r
    |exists []; split; [apply sublist_nil_l|by rewrite app_nil_r]].
  - exists []. split; [apply sublist_nil_l|]. rewrite app_nil_r.
    unfold track in Hact. by repeat case_match; simplify_eq.
  - exists []. split; [apply sublist_nil_l|]. rewrite app_nil_r.
    unfold handle, handleCountingStep, handleCounting, handleProofProposal, handleBlockProposal in Hact.
    by repeat case_match; simplify_eq.
Qed.

Lemma run_invariant (P : voteCountingTracker → Prop) l t t' :
  (∀ a t t', a ∈ l → act t a = Some t' → P t → P t') → run_tracker t l = Some t' → P t → P t'.
Proof.
  revert t. induction l as [|a l IH]; intros t Hl Hrun Ht; cbn in Hrun; [by simplify_eq|].
  destruct (act t a) as [t1|] eqn:Ha; [|done]. cbn in Hrun. apply (IH t1); [|done|].
  - intros a' u u' Ha'. apply Hl. by right.
  - apply (Hl a t t1); [by left|done|done].
Qed.

Lemma run_accepted l q t t' :
  run_tracker t l = Some t' → ∃ k, k `sublist_of` (l ≫= submitted q) ∧ accepted t' q = accepted t q ++ k.
Proof.
  revert t. induction l as [|a l IH]; intros t Hrun; cbn in Hrun.
  - simplify_eq. exists []. by rewrite app_nil_r.
  - destruct (act t a) as [t1|] eqn:Ha; [|done]. cbn in Hrun.
    destruct (act_accepted a q t t1 Ha) as (k1 & Hk1 & Heq1), (IH t1 Hrun) as (k2 & Hk2 & Heq2).
    exists (k1 ++ k2). rewrite bind_cons. split; [by apply sublist_app|]. by rewrite Heq2, Heq1, app_assoc.
Qed.

(** Copying an event keeps its votes: what is left out has none. *)
Lemma all_votes_copy e : all_votes (copy_step e) ≡ₚ all_votes e.
Proof.
  unfold all_votes, copy_step, copy_votes. cbn. generalize (vse_VotesByBlock e) as m.
  induction m as [|h v m Hh IH] using map_ind; [by rewrite map_filter_empty|].
  rewrite map_to_list_insert, bind_cons by done. cbn.
  destruct (decide (v = ∅)) as [->|Hv].
  - rewrite map_filter_insert_False by naive_solver. rewrite map_filter_delete, delete_id, map_to_list_empty by (by rewrite map_lookup_filter, Hh).
    exact IH.
  - rewrite map_filter_insert_True by done. rewrite map_to_list_insert, bind_cons by (by rewrite map_lookup_filter, Hh).
    cbn. by rewrite IH.
Qed.

Lemma run_accounted l q t :
  Forall action_ok l → run_tracker NewVoteCountingTracker l = Some t → accounted q t.
Proof.
  intros Hl Hrun.
  apply (run_invariant (accounted q) l _ _ (λ a u u' Ha, act_accounted a q u u' (proj1 (list.Forall_forall _ _) Hl a Ha)) Hrun).
  exists [], []. destruct q; split_and!; (done || constructor).
Qed.

(** [C23]  Whatever the submissions, the turns of the goroutine and the answers of the database:
    a queue has accepted some of what was submitted to it, in that order; all of it was
    handled, or is being saved, or waits, with no more waiting than the queue may have;
    and what was handled is saved, once and in that order, with its rows saying what was
    submitted, but for the proofs whose key is not one. *)
Theorem accepted_events_are_saved l t q :
  Forall action_ok l → run_tracker NewVoteCountingTracker l = Some t →
  accepted t q `sublist_of` (l ≫= submitted q) ∧ length (items q t) ≤ capacity q ∧
  ∃ handled rows, accepted t q = handled ++ in_hand q t ++ items q t ∧
    Forall2 saved_as handled rows ∧ omap id rows = saved t q.
Proof.
  intros Hl Hrun. split_and!.
  - destruct (run_accepted l q _ _ Hrun) as (k & Hk & ->). done.
  - apply (run_invariant (λ t, length (items q t) ≤ capacity q) l _ _ (λ a u u' _, act_bounded a q u u') Hrun).
    destruct q; cbn; lia.
  - by apply (run_accounted l).
Qed.

(** A full queue, and only a full queue, drops what is submitted. *)
Lemma full_queue_drops now e t :
  accepted (SubmitVoteCountingStepResultEvent now e t) Steps
  = if decide (length (countingStepQueue t) < capacity Steps)
    then accepted t Steps ++ [IStep (mkStepWrapper now (copy_step e))] else accepted t Steps.
Proof.
  unfold SubmitVoteCountingStepResultEvent. case_decide as Hlt.
  - by rewrite (proj2 (Nat.ltb_lt _ _) Hlt).
  - by rewrite (proj2 (Nat.ltb_ge _ _)) by lia.
Qed.

(** ** Progress *)

(** A turn of the goroutine that receives, or that the database accepts. *)
Definition working (a : action) : Prop :=
  match a with Receive _ => True | Attempt _ ok => ok = true | _ => False end.

(** The number of turns until everything is saved, at most. *)
Definition turns_left t : nat :=
  2 * (length (countingStepQueue t) + length (countingQueue t) + length (proofQueue t) + length (blockQueue t))
  + (match saving t with Some _ => 1 | None => 0 end).

Lemma working_decreases a t t' : working a → act t a = Some t' → turns_left t' < turns_left t ∧ accepted t' = accepted t.
Proof.
  intros Ha Hact. destruct a as [| | | |k|o ok]; try done; cbn in Hact.
  - unfold track in Hact. unfold turns_left. destruct (saving t) eqn:Hs; [done|].
    destruct k; case_match eqn:Hl; simplify_eq; cbn; rewrite ?Hl; cbn; split; (done || lia).
  - cbn in Ha. subst ok. unfold handle, handleCountingStep, handleCounting, handleProofProposal, handleBlockProposal in Hact.
    unfold turns_left. repeat case_match; simplify_eq; cbn; split; (done || lia).
Qed.

Lemma nothing_left t : turns_left t = 0 → saving t = None ∧ ∀ q, items q t = [].
Proof.
  unfold turns_left. destruct (saving t) eqn:Hs; [lia|]. intros Ht. split; [done|].
  intros q. apply nil_length_inv. destruct q; cbn; rewrite length_fmap; lia.
Qed.

Definition some_orders : orders := mkOrders map_to_list map_to_list elements.
Lemma some_orders_good : good_orders some_orders.
Proof. unfold good_orders. split_and!; intros; [apply ranges_canonical..|done]. Qed.

Lemma goroutine_can_work t : turns_left t ≠ 0 → ∃ a, working a ∧ action_ok a ∧ is_Some (act t a).
Proof.
  intros Ht. destruct (saving t) as [i|] eqn:Hs.
  - exists (Attempt some_orders true). cbn. unfold handle. rewrite Hs. by destruct i; eauto using some_orders_good.
  - assert (Hq : ∃ q, items q t ≠ []).
    { unfold turns_left in Ht. rewrite Hs in Ht.
      destruct (countingStepQueue t) eqn:Hl1; [|by exists Steps; cbn; rewrite Hl1].
      destruct (countingQueue t) eqn:Hl2; [|by exists Countings; cbn; rewrite Hl2].
      destruct (proofQueue t) eqn:Hl3; [|by exists Proofs; cbn; rewrite Hl3].
      destruct (blockQueue t) eqn:Hl4; [by cbn in Ht; lia|by exists Blocks; cbn; rewrite Hl4]. }
    destruct Hq as [q Hq]. exists (Receive q). cbn. unfold track. rewrite Hs.
    destruct q; cbn in Hq; case_match; try done; eauto.
Qed.

Lemma turns_bounded l t t' :
  Forall working l → run_tracker t l = Some t' → length l + turns_left t' ≤ turns_left t ∧ accepted t' = accepted t.
Proof.
  revert t. induction l as [|a l IH]; intros t Hl Hrun; cbn in Hrun; [by simplify_eq|].
  apply list.Forall_cons in Hl as [Ha Hl]. destruct (act t a) as [t1|] eqn:Hact; [|done].
  destruct (working_decreases a t t1 Ha Hact) as [? Heq], (IH t1 Hl Hrun) as [? ->]. cbn [length]. split; [lia|done].
Qed.

(** Once the database accepts, the goroutine catches up with what was submitted: whatever
    the queues it takes from, it makes no more turns than [turns_left], it can make a turn
    until it has nothing left, and then all that was accepted is saved. *)
Theorem accepted_events_get_saved l more t t' :
  Forall action_ok l → run_tracker NewVoteCountingTracker l = Some t →
  Forall (λ a, working a ∧ action_ok a) more → run_tracker t more = Some t' →
  length more ≤ turns_left t ∧
  ((∃ a, working a ∧ action_ok a ∧ is_Some (act t' a)) ∨
   ∀ q, ∃ rows, Forall2 saved_as (accepted t q) rows ∧ omap id rows = saved t' q).
Proof.
  intros Hl Hrun Hmore Hrun'. apply list.Forall_and in Hmore as [Hw Hok].
  destruct (turns_bounded more t t' Hw Hrun') as [Hn Hacc]. split; [lia|].
  destruct (decide (turns_left t' = 0)) as [H0'|]; [right|left; by apply goroutine_can_work].
  intros q. destruct (nothing_left t' H0') as [Hs Hi].
  assert (Hrun2 : run_tracker NewVoteCountingTracker (l ++ more) = Some t').
  { clear -Hrun Hrun'. revert Hrun. generalize NewVoteCountingTracker as u. induction l as [|a l IH]; intros u Hrun; cbn in *; [by simplify_eq|].
    destruct (act u a); [by apply IH|done]. }
  destruct (run_accounted (l ++ more) q t' ltac:(by apply list.Forall_app) Hrun2) as (handled & rows & Hh & Hr & Hsv).
  exists rows. unfold in_hand in Hh. rewrite Hs, (Hi q), !app_nil_r, Hacc in Hh. by rewrite Hh.
Qed.
End properties.

(** ** Two proposals of proofs, one with a key that is not one, and a counted step *)

#[export] Instance SampleVotes : VoteApi := {|
  PubKeyBytesToAddress b := match b with [] => None | x :: _ => Some (mkAddress x) end;
  HashToFloat64 h m := (hash_word h + m)%Z
|}.

Definition sample_vote (n : Z) : NodeVote := mkNodeVote (mkAddress n) (mkHash 1) (mkHash 2) false 0.
Definition sample_step : VoteCountingStepResultEvent :=
  mkVoteCountingStepResultEvent 7 1
    {[ mkHash 2 := {[ mkAddress 3 := sample_vote 3; mkAddress 4 := sample_vote 4 ]}; mkHash 5 := ∅ ]} 2 2.
Definition sample_submissions : list action :=
  [SubmitStep 100 sample_step; SubmitProof 101 (mkProofProposalEvent 7 (mkHash 2) [] 1);
   SubmitProof 102 (mkProofProposalEvent 7 (mkHash 2) [9]%Z 1);
   Receive Proofs; Attempt some_orders false; Receive Steps; Attempt some_orders false].
Definition sample_turns : list action := [Attempt some_orders true; Receive Proofs; Attempt some_orders true].
Definition tracker_after (t : voteCountingTracker) (l : list action) : voteCountingTracker := default t (run_tracker t l).

Lemma sample_submissions_ok : Forall action_ok sample_submissions.
Proof. repeat constructor; (done || apply some_orders_good). Qed.
Lemma sample_turns_ok : Forall (λ a, working a ∧ action_ok a) sample_turns.
Proof. repeat constructor; (done || apply some_orders_good). Qed.

Lemma accepted_events_are_saved_witness :
  let t := tracker_after NewVoteCountingTracker (sample_submissions ++ sample_turns) in
  ∃ handled rows, accepted t Proofs = handled ++ in_hand Proofs t ++ items Proofs t ∧
    Forall2 saved_as handled rows ∧ omap id rows = [RProof (mkProofProposal _ 102 7 (mkAddress 9) (mkHash 2) 1 3%Z)].
Proof.
  intros t. destruct (accepted_events_are_saved (sample_submissions ++ sample_turns) t Proofs) as (_ & _ & handled & rows & Ha & Hr & Hs).
  - apply list.Forall_app. split; [apply sample_submissions_ok|].
    apply (list.Forall_impl _ _ _ sample_turns_ok). by intros a [_ Ha].
  - vm_compute. reflexivity.
  - exists handled, rows. split; [exact Ha|]. split; [exact Hr|]. rewrite Hs. vm_compute. reflexivity.
Defined.

Lemma accepted_events_get_saved_witness :
  let t := tracker_after NewVoteCountingTracker sample_submissions in
  let t' := tracker_after t sample_turns in
  length sample_turns ≤ turns_left t ∧
  ((∃ a, working a ∧ action_ok a ∧ is_Some (act t' a)) ∨
   ∀ q, ∃ rows, Forall2 saved_as (accepted t q) rows ∧ omap id rows = saved t' q).
Proof.
  intros t t'. apply (accepted_events_get_saved sample_submissions sample_turns t t').
  - apply sample_submissions_ok.
  - vm_compute. reflexivity.
  - apply sample_turns_ok.
  - vm_compute. reflexivity.
Defined.

(** ** The peers of the last hours *)

(** [cache.Cache] of go-cache, by the items it has with the times at which they expire;
    an item that has expired stays until expired items are deleted. *)
Class PeersCache := {
  Cache : Type;
  cache_New : Cache;
  cache_Set : Z → Z → string → Cache → Cache;
  cache_DeleteExpired : Z → Cache → Cache;
  cache_ItemCount : Cache → Z
}.
Class PeersCacheLaws `{PeersCache} := {
  cache_items : Cache → gmap string Z;
  cache_New_items : cache_items cache_New = ∅;
  cache_Set_items now d key c : cache_items (cache_Set now d key c) = <[key := (now + d)%Z]> (cache_items c);
  cache_DeleteExpired_items now c : cache_items (cache_DeleteExpired now c) = filter (λ kv, now ≤ kv.2)%Z (cache_items c);
  cache_ItemCount_items c : cache_ItemCount c = Z.of_nat (size (cache_items c))
}.

(** Go: core/mempool/peers_tracker.go expiration:11-14

    In nanoseconds, as [time.Hour] is. *)
Definition expiration : Z := 3 * 3600 * 1000000000.

Section peers.
Context `{PeersCache}.

(** Go: core/mempool/peers_tracker.go handlePeers

    A turn of the loop at the time [now], with the identifiers of the peers. *)
Definition handlePeers (now : Z) (peersData : list string) (c : Cache) : Cache :=
  foldl (λ c id, cache_Set now expiration id c) c peersData.

(** Go: core/mempool/peers_tracker.go track:69-80

    A turn of the loop at the time [now]: what is saved, which the database may refuse;
    the loop then waits, for a time that depends on the answer. *)
Definition track_peers (now : Z) (c : Cache) : Cache * (Z * Z) :=
  let c := cache_DeleteExpired now c in (c, (cache_ItemCount c, now)).

(** What the two goroutines do, at times that do not decrease. *)
Inductive peers_action := HandlePeers (now : Z) (peersData : list string) | TrackPeers (now : Z).
Definition time_of (a : peers_action) : Z := match a with HandlePeers now _ | TrackPeers now => now end.
Definition act_peers (c : Cache) (a : peers_action) : Cache :=
  match a with HandlePeers now ids => handlePeers now ids c | TrackPeers now => (track_peers now c).1 end.

(** The peers that came within the time of [expiration] before [now]. *)
Definition recent_peers (now : Z) (l : list peers_action) : gset string :=
  ⋃ ((λ a, match a with HandlePeers at_ ids => if decide (now ≤ at_ + expiration)%Z then list_to_set ids else ∅ | TrackPeers _ => ∅ end) <$> l).
End peers.

Section peers_laws.
Context `{PeersCacheLaws}.

Lemma handlePeers_items now ids c id :
  cache_items (handlePeers now ids c) !! id = if decide (id ∈ ids) then Some (now + expiration)%Z else cache_items c !! id.
Proof.
  unfold handlePeers. revert c. induction ids as [|x ids IH]; intros c; cbn; [by rewrite decide_False by apply not_elem_of_nil|].
  rewrite IH, cache_Set_items. destruct (decide (id ∈ ids)).
  - by rewrite decide_True by by right.
  - destruct (decide (id = x)) as [->|]; [rewrite decide_True by (by left); by rewrite lookup_insert_eq|].
    rewrite decide_False by (rewrite elem_of_cons; tauto). by rewrite lookup_insert_ne.
Qed.

Definition fresh now c id : Prop := ∃ e, cache_items c !! id = Some e ∧ (now ≤ e)%Z.

Lemma recent_peers_snoc now l a :
  recent_peers now (l ++ [a]) = recent_peers now l ∪
    match a with HandlePeers at_ ids => if decide (now ≤ at_ + expiration)%Z then list_to_set ids else ∅ | TrackPeers _ => ∅ end.
Proof. unfold recent_peers. rewrite fmap_app, union_list_app_L. cbn. by rewrite union_empty_r_L. Qed.

(** In the order of the times, no item expires later than the last action makes it. *)
Lemma expires_in_time l now id e :
  Forall (λ a, time_of a ≤ now)%Z l → cache_items (foldl act_peers cache_New l) !! id = Some e → (e ≤ now + expiration)%Z.
Proof.
  revert e. induction l as [|a l IH] using rev_ind; intros e Hl; [cbn; by rewrite cache_New_items|].
  apply list.Forall_app in Hl as [Hl [Ha _]%list.Forall_cons]. rewrite foldl_app. cbn [foldl].
  destruct a as [at_ ids|at_]; cbn [act_peers time_of track_peers fst] in *.
  - rewrite handlePeers_items. case_decide; [intros [= <-]; lia|by apply IH].
  - rewrite cache_DeleteExpired_items. intros [He _]%map_lookup_filter_Some. by apply IH.
Qed.

Lemma fresh_peers l now id :
  StronglySorted Z.le (time_of <$> l) → Forall (λ a, time_of a ≤ now)%Z l →
  fresh now (foldl act_peers cache_New l) id ↔ id ∈ recent_peers now l.
Proof.
  unfold fresh. induction l as [|a l IH] using rev_ind; intros Hs Hl.
  - cbn. rewrite cache_New_items. unfold recent_peers. cbn. rewrite elem_of_empty. split; [intros (e & He & _)|]; done.
  - rewrite fmap_app, StronglySorted_app in Hs. destruct Hs as (Hle & Hs & _).
    assert (Hbefore : Forall (λ b, time_of b ≤ time_of a)%Z l).
    { apply list.Forall_forall. intros b Hb. apply Hle; [by apply list_elem_of_fmap_2|by left]. }
    apply list.Forall_app in Hl as [Hl [Ha _]%list.Forall_cons]. rewrite recent_peers_snoc, elem_of_union, <- IH, foldl_app by done.
    cbn [foldl]. destruct a as [at_ ids|at_]; cbn [act_peers time_of track_peers fst] in *.
    + setoid_rewrite handlePeers_items. destruct (decide (id ∈ ids)) as [Hin|Hin].
      * case_decide as Hnow.
        -- rewrite elem_of_list_to_set. split; [by right|]. intros _. eauto.
        -- rewrite elem_of_empty. split; [intros (e & [= <-] & ?); lia|]. intros [(e & He & Hn)|[]].
           pose proof (expires_in_time l at_ id e Hbefore He). lia.
      * case_decide; rewrite ?elem_of_list_to_set, ?elem_of_empty; tauto.
    + setoid_rewrite cache_DeleteExpired_items. setoid_rewrite map_lookup_filter_Some. cbn. rewrite elem_of_empty.
      split; [intros (e & [He _] & ?); left; eauto|]. intros [(e & He & ?)|[]]. exists e. split_and!; [done|lia|done].
Qed.

(** The number of peers that is saved is the number of the different peers that came in
    the last hours. *)
Theorem peers_are_counted l now :
  StronglySorted Z.le (time_of <$> l) → Forall (λ a, time_of a ≤ now)%Z l →
  (track_peers now (foldl act_peers cache_New l)).2 = (Z.of_nat (size (recent_peers now l)), now).
Proof.
  intros Hs Hl. unfold track_peers. cbn [snd]. rewrite cache_ItemCount_items, cache_DeleteExpired_items. do 2 f_equal.
  rewrite <- size_dom. f_equal. apply set_eq. intros id. rewrite <- fresh_peers, elem_of_dom by done. unfold fresh, is_Some.
  by setoid_rewrite map_lookup_filter_Some.
Qed.
End peers_laws.

#[export] Instance SampleCache : PeersCache := {|
  Cache := gmap string Z;
  cache_New := ∅;
  cache_Set now d key c := <[key := (now + d)%Z]> c;
  cache_DeleteExpired now c := filter (λ kv, now ≤ kv.2)%Z c;
  cache_ItemCount c := Z.of_nat (size c)
|}.
#[export, refine] Instance SampleCacheLaws : PeersCacheLaws := {| cache_items c := c |}.
Proof. all: done. Defined.

Lemma peers_are_counted_witness :
  let l := [HandlePeers 0 ["a"; "b"]%string; HandlePeers (2 * expiration) ["b"; "c"]%string; TrackPeers (2 * expiration + 1)] in
  (track_peers (2 * expiration + 2) (foldl act_peers cache_New l)).2 = (2, 2 * expiration + 2)%Z.
Proof.
  intros l. rewrite (peers_are_counted l (2 * expiration + 2)); [by vm_compute| |].
  - repeat constructor; vm_compute; discriminate.
  - repeat constructor; vm_compute; discriminate.
Defined.
