(* ===== verification/Snapshots.v ===== *)
(** * The states of past epochs

    core/holder/state/proof.go proves what an identity was at the end of an epoch: the
    tree of the state is read from the snapshot of the epoch, an archive of chunks of
    nodes that indexer/tree.go has written, and kept.  core/holder/state/appstate.go gives
    the state of the head. *)

From Stdlib Require Import Ascii.
From S2P Require Import Prelude Node.

Definition MaxInt64 : Z := 2 ^ 63 - 1.
Definition MaxInt8 : Z := 127.

(** [models.ProtoSnapshotNodes_Node], with the widths of its numbers: 64 and 32 bits. *)
Record SnapshotNode := mkSnapshotNode {
  sn_Key : bytes; sn_Value : bytes; sn_Version : Z; sn_Height : Z; sn_EmptyValue : bool
}.
(** [iavl.ExportNode]: an [int64] and an [int8]. *)
Record ExportNode := mkExportNode { en_Key : bytes; en_Value : bytes; en_Version : Z; en_Height : Z }.

(** What [tr.Next()] gives: an error, or a header, with what [io.ReadAll] gives then
    ([None]: an error). *)
Inductive tar_item :=
  | TarError (err : string)
  | TarEntry (name : string) (typeflag : ascii) (size : Z) (data : option bytes).
Definition TypeDir : ascii := "5"%char.
Definition TypeReg : ascii := "0"%char.
Definition TypeRegA : ascii := "000"%char.

(** The database of the tree and its importer, the states and the encodings of the node.
    An operation of the importer may write to the database even when it fails. *)
Class SnapshotApi `{NodeApi} := {
  TreeDb : Type;
  NewMemDB : TreeDb;
  Importer : Type;
  tree_Importer : TreeDb → Z → option Importer;
  importer_Add : ExportNode → TreeDb → Importer → TreeDb * option Importer;
  importer_Commit : TreeDb → Importer → TreeDb * bool;
  tree_LoadVersion : TreeDb → Z → bool;
  tree_ValidateTree : TreeDb → bool;
  common_ClearDb : TreeDb → TreeDb;
  (** [proto.Unmarshal] of a chunk: its nodes, some of which may be nil *)
  Unmarshal : bytes → option (list (option SnapshotNode));
  MaxSnapshotChunkBytes : Z;
  (** [state.NewLazy] and [CommitSnapshot], over the database *)
  StateDB : Type;
  NewLazy : TreeDb → bool;
  CommitSnapshot : TreeDb → Z → StateDB;
  GetIdentityWithProof : StateDB → Address → option bytes
}.

Section snapshots.
Context `{SnapshotApi}.

(** Go: core/holder/state/proof.go readTreeFrom:149-158

    The node to import. *)
Definition export_node (node : SnapshotNode) : ExportNode :=
  mkExportNode (sn_Key node) (if sn_EmptyValue node then [] else sn_Value node)
    (swrap 64 (sn_Version node)) (swrap 8 (sn_Height node)).

(** What the reading has: the database, and the importer or an error. *)
Abbreviation reading := (TreeDb * (Importer + string))%type.

Definition failed (err : string) (db : TreeDb) : reading := (common_ClearDb db, inr err).

(** Go: core/holder/state/proof.go readTreeFrom:135-164 *)
Fixpoint add_nodes (nodes : list (option SnapshotNode)) (db : TreeDb) (importer : Importer) : reading :=
  match nodes with
  | [] => (db, inl importer)
  | None :: _ => failed "snapshot contains a nil node" db
  | Some node :: nodes =>
      if (MaxInt64 <? sn_Version node)%Z then failed "snapshot node version exceeds limit" db
      else if (MaxInt8 <? sn_Height node)%Z then failed "snapshot node height exceeds limit" db
      else match importer_Add (export_node node) db importer with
           | (db, None) => failed "import snapshot node" db
           | (db, Some importer) => add_nodes nodes db importer
           end
  end.

(** Go: core/holder/state/proof.go readTreeFrom:105-166

    The loop over the entries of the archive. *)
Fixpoint read_entries (from : list tar_item) (db : TreeDb) (importer : Importer) : reading :=
  match from with
  | [] => (db, inl importer)
  | TarError err :: _ => failed err db
  | TarEntry name typeflag size data :: from =>
      if decide (typeflag = TypeDir) then read_entries from db importer
      else if decide (typeflag ≠ TypeReg ∧ typeflag ≠ TypeRegA) then failed "unsupported snapshot entry" db
      else if (size <? 0)%Z || (MaxSnapshotChunkBytes <? size)%Z then failed "snapshot chunk size exceeds limit" db
      else match data with
           | None => failed "read" db
           | Some data =>
               match Unmarshal data with
               | None => failed "unmarshal" db
               | Some nodes =>
                   match add_nodes nodes db importer with
                   | (db, inl importer) => read_entries from db importer
                   | (db, inr err) => (db, inr err)
                   end
               end
           end
  end.

(** Go: core/holder/state/proof.go readTreeFrom

    The database, and the error if there is one. *)
Definition readTreeFrom (pdb : TreeDb) (height : Z) (from : list tar_item) : TreeDb * option string :=
  match tree_Importer pdb (swrap 64 height) with
  | None => (pdb, Some "importer"%string)
  | Some importer =>
      match read_entries from pdb importer with
      | (pdb, inr err) => (pdb, Some err)
      | (pdb, inl importer) =>
          match importer_Commit pdb importer with
          | (pdb, false) => (common_ClearDb pdb, Some "commit"%string)
          | (pdb, true) =>
              if negb (tree_LoadVersion pdb (swrap 64 height)) then (common_ClearDb pdb, Some "load version"%string)
              else if negb (tree_ValidateTree pdb) then (common_ClearDb pdb, Some "corrupted tree"%string)
              else (pdb, None)
          end
      end
  end.

(** Go: core/holder/state/proof.go holderImpl *)
Record holderImpl := mkHolderImpl { statesByVersion : gmap Z StateDB }.

(** Go: core/holder/state/proof.go NewHolder *)
Definition NewHolder : holderImpl := mkHolderImpl ∅.

(** Go: core/holder/state/proof.go getState

    [open] is the archive of the snapshot of an epoch, [None] when it cannot be opened.
    The mutex of the holder makes one action of it. *)
Definition getState (open : Z → option (list tar_item)) (epoch : Z) (h : holderImpl) : holderImpl * (StateDB + string) :=
  match statesByVersion h !! epoch with
  | Some st => (h, inl st)
  | None =>
      match open epoch with
      | None => (h, inr "open"%string)
      | Some file =>
          if negb (NewLazy NewMemDB) then (h, inr "lazy"%string)
          else match readTreeFrom NewMemDB MaxInt64 file with
               | (_, Some err) => (h, inr err)
               | (pdb, None) =>
                   let st := CommitSnapshot pdb MaxInt64 in
                   (h <| statesByVersion ::= <[epoch := st]> |>, inl st)
               end
      end
  end.

(** Go: core/holder/state/proof.go IdentityWithProof

    No value and no error when the state has no identity. *)
Definition IdentityWithProof (open : Z → option (list tar_item)) (epoch : Z) (address : Address) (h : holderImpl)
    : holderImpl * (option bytes + string) :=
  match getState open epoch h with
  | (h, inr err) => (h, inr err)
  | (h, inl state) =>
      match GetIdentityWithProof state address with
      | None => (h, inr "proof"%string)
      | Some [] => (h, inl None)
      | Some v => (h, inl (Some v))
      end
  end.

(** Go: core/holder/state/appstate.go GetAppState

    [Readonly] of the height of the head. *)
Definition GetAppState (Readonly : Z → option AppState) (headHeight : Z) : option AppState := Readonly headHeight.
End snapshots.

(** ** The import of a snapshot *)

Section import.
Context `{SnapshotApi}.

(** The widths of the numbers of a node. *)
Definition node_widths (node : SnapshotNode) : Prop := (0 ≤ sn_Version node < 2 ^ 64 ∧ 0 ≤ sn_Height node < 2 ^ 32)%Z.
Definition node_in_bounds (node : SnapshotNode) : Prop := (sn_Version node ≤ MaxInt64 ∧ sn_Height node ≤ MaxInt8)%Z.

(** The nodes of an archive, when it is one of directories and of readable chunks. *)
Definition all_some {A} (l : list (option A)) : option (list A) := mapM id l.
Fixpoint snapshot_nodes (from : list tar_item) : option (list SnapshotNode) :=
  match from with
  | [] => Some []
  | TarError _ :: _ => None
  | TarEntry _ typeflag size data :: from =>
      if decide (typeflag = TypeDir) then snapshot_nodes from
      else if decide ((typeflag = TypeReg ∨ typeflag = TypeRegA) ∧ 0 ≤ size ≤ MaxSnapshotChunkBytes)%Z then
        data ← data; nodes ← Unmarshal data; nodes ← all_some nodes; rest ← snapshot_nodes from; Some (nodes ++ rest)
      else None
  end.

(** The nodes with their numbers as they are. *)
Definition exact_node (node : SnapshotNode) : ExportNode :=
  mkExportNode (sn_Key node) (if sn_EmptyValue node then [] else sn_Value node) (sn_Version node) (sn_Height node).

Fixpoint add_all (nodes : list ExportNode) (db : TreeDb) (importer : Importer) : TreeDb * option Importer :=
  match nodes with
  | [] => (db, Some importer)
  | node :: nodes =>
      match importer_Add node db importer with
      | (db, Some importer) => add_all nodes db importer
      | (db, None) => (db, None)
      end
  end.

Lemma add_all_app l k db imp db' imp' :
  add_all (l ++ k) db imp = (db', Some imp') ↔
  ∃ db1 imp1, add_all l db imp = (db1, Some imp1) ∧ add_all k db1 imp1 = (db', Some imp').
Proof.
  revert db imp. induction l as [|n l IH]; intros db imp; cbn; [naive_solver|].
  destruct (importer_Add n db imp) as [db1 [imp1|]]; [apply IH|]. naive_solver.
Qed.

Lemma export_node_exact node : node_widths node → node_in_bounds node → export_node node = exact_node node.
Proof.
  unfold node_widths, node_in_bounds, MaxInt64, MaxInt8, export_node, exact_node. intros [Hv Hh] [Hv' Hh'].
  by rewrite !swrap_small by (cbn; lia).
Qed.

Lemma add_nodes_spec nodes db imp db' imp' :
  Forall (λ n, from_option node_widths True n) nodes →
  add_nodes nodes db imp = (db', inl imp') ↔
  ∃ l, all_some nodes = Some l ∧ Forall node_in_bounds l ∧ add_all (exact_node <$> l) db imp = (db', Some imp').
Proof.
  revert db imp. induction nodes as [|[node|] nodes IH]; intros db imp Hw; cbn.
  - split; [intros [= -> ->]; by exists []|]. intros (l & [= <-] & _ & [= -> ->]). done.
  - apply list.Forall_cons in Hw as [Hn Hw]. cbn in Hn.
    assert (Hb : (MaxInt64 <? sn_Version node)%Z = false ∧ (MaxInt8 <? sn_Height node)%Z = false ↔ node_in_bounds node)
      by (unfold node_in_bounds; rewrite !Z.ltb_ge; done).
    split.
    + destruct (MaxInt64 <? _)%Z; [done|]. destruct (MaxInt8 <? _)%Z; [done|]. apply proj1 in Hb. specialize (Hb ltac:(done)).
      rewrite export_node_exact by done. destruct (importer_Add _ _ _) as [db1 [imp1|]] eqn:Ha; [|done].
      intros (l & Hl & Hin & Hadd)%IH; [|done]. exists (node :: l). unfold all_some in *. cbn. rewrite Hl. cbn. rewrite Ha.
      split_and!; [done|by constructor|done].
    + intros (l & Hl & Hin & Hadd). unfold all_some in *. cbn in Hl. destruct (mapM id nodes) as [l'|] eqn:Hl'; [|done].
      cbn in Hl. injection Hl as <-. apply list.Forall_cons in Hin as [Hnode Hin]. apply proj2 in Hb. destruct (Hb Hnode) as [-> ->].
      rewrite export_node_exact by done. cbn in Hadd. destruct (importer_Add _ _ _) as [db1 [imp1|]]; [|done].
      apply IH; [done|]. eauto.
  - split; [done|]. by intros (l & Hl & _).
Qed.

(** The chunks of the archive are decoded to nodes of the right widths. *)
Definition decodes_widths : Prop := ∀ data nodes, Unmarshal data = Some nodes → Forall (λ n, from_option node_widths True n) nodes.

Lemma read_entries_spec from db imp db' imp' :
  decodes_widths →
  read_entries from db imp = (db', inl imp') ↔
  ∃ l, snapshot_nodes from = Some l ∧ Forall node_in_bounds l ∧ add_all (exact_node <$> l) db imp = (db', Some imp').
Proof.
  intros Hw. revert db imp. induction from as [|[err|name flag size data] from IH]; intros db imp; cbn.
  - split; [intros [= -> ->]; by exists []|]. intros (l & [= <-] & _ & [= -> ->]). done.
  - split; [done|]. by intros (l & Hl & _).
  - case_decide as Hd; [apply IH|].
    case_decide as Hf; [rewrite decide_False by tauto; split; [done|by intros (l & Hl & _)]|].
    destruct ((size <? 0)%Z || (MaxSnapshotChunkBytes <? size)%Z) eqn:Hs.
    { apply orb_true_iff in Hs. rewrite !Z.ltb_lt in Hs. rewrite decide_False by lia. split; [done|by intros (l & Hl & _)]. }
    apply orb_false_iff in Hs. rewrite !Z.ltb_ge in Hs.
    rewrite decide_True by (split; [destruct (decide (flag = TypeReg)), (decide (flag = TypeRegA)); tauto|lia]).
    destruct data as [data|]; cbn; [|split; [done|by intros (l & Hl & _)]].
    destruct (Unmarshal data) as [nodes|] eqn:Hu; cbn; [|split; [done|by intros (l & Hl & _)]].
    pose proof (Hw data nodes Hu) as Hn. split.
    + destruct (add_nodes nodes db imp) as [db1 [imp1|err]] eqn:Ha; [|done].
      apply add_nodes_spec in Ha as (l1 & Hl1 & Hb1 & Ha1); [|done]. intros (l2 & Hl2 & Hb2 & Ha2)%IH.
      exists (l1 ++ l2). rewrite Hl1, Hl2. cbn. split_and!; [done|by apply list.Forall_app|].
      rewrite fmap_app, add_all_app. eauto.
    + intros (l & Hl & Hb & Ha). destruct (all_some nodes) as [l1|] eqn:Hl1; [|done]. cbn in Hl.
      destruct (snapshot_nodes from) as [l2|] eqn:Hl2; [|done]. cbn in Hl. injection Hl as <-.
      apply list.Forall_app in Hb as [Hb1 Hb2]. rewrite fmap_app, add_all_app in Ha. destruct Ha as (db1 & imp1 & Ha1 & Ha2).
      rewrite (proj2 (add_nodes_spec nodes db imp db1 imp1 Hn)) by eauto. apply IH. eauto.
Qed.
End import.

(** ** The states that are kept *)

(** Documented behaviour: the numbers of a node have their widths, and clearing a database
    leaves it empty. *)
Class SnapshotLaws `{SnapshotApi} := {
  Unmarshal_widths : decodes_widths;
  ClearDb_empty db : common_ClearDb db = NewMemDB
}.

Section laws.
Context `{SnapshotLaws}.

(** What an import must be: every entry of the archive is a directory or a readable chunk,
    every node is there with its numbers in the bounds of the tree, the nodes are added
    in order with their numbers as they are, and the tree that is committed is valid. *)
Definition imports (from : list tar_item) (pdb db' : TreeDb) : Prop :=
  ∃ nodes imp db1 imp1,
    snapshot_nodes from = Some nodes ∧ Forall node_in_bounds nodes ∧
    tree_Importer pdb MaxInt64 = Some imp ∧ add_all (exact_node <$> nodes) pdb imp = (db1, Some imp1) ∧
    importer_Commit db1 imp1 = (db', true) ∧ tree_LoadVersion db' MaxInt64 = true ∧ tree_ValidateTree db' = true.

(** [C24]  The reading of a snapshot succeeds exactly when it is an import of all of its nodes,
    with no number cut to a smaller width, into a valid tree. *)
Theorem snapshot_is_imported from pdb db' :
  readTreeFrom pdb MaxInt64 from = (db', None) ↔ imports from pdb db'.
Proof.
  unfold readTreeFrom, imports. replace (swrap 64 MaxInt64) with MaxInt64 by reflexivity. split.
  - destruct (tree_Importer pdb MaxInt64) as [imp|]; [|done].
    destruct (read_entries from pdb imp) as [db1 [imp1|err]] eqn:Hr; [|done].
    apply read_entries_spec in Hr as (l & Hl & Hb & Ha); [|apply Unmarshal_widths].
    destruct (importer_Commit db1 imp1) as [db2 [|]] eqn:Hc; [|done].
    destruct (tree_LoadVersion db2 MaxInt64) eqn:Hv; [|done]. destruct (tree_ValidateTree db2) eqn:Ht; [|done].
    intros [= <-]. naive_solver.
  - intros (l & imp & db1 & imp1 & Hl & Hb & -> & Ha & Hc & Hv & Ht).
    rewrite (proj2 (read_entries_spec from pdb imp db1 imp1 Unmarshal_widths)) by eauto.
    by rewrite Hc, Hv, Ht.
Qed.

Lemma add_nodes_error nodes db imp db' err : add_nodes nodes db imp = (db', inr err) → db' = NewMemDB.
Proof.
  revert db imp. induction nodes as [|[node|] nodes IH]; intros db imp; cbn; [done| |].
  - repeat case_match; unfold failed; try (intros [= <- _]; apply ClearDb_empty). apply IH.
  - intros [= <- _]. apply ClearDb_empty.
Qed.

Lemma read_entries_error from db imp db' err : read_entries from db imp = (db', inr err) → db' = NewMemDB.
Proof.
  revert db imp. induction from as [|[err'|name flag size data] from IH]; intros db imp; cbn; [done| |].
  - intros [= <- _]. apply ClearDb_empty.
  - repeat case_match; unfold failed; try (intros [= <- _]; apply ClearDb_empty); try apply IH.
    intros [= <- <-]. by eapply add_nodes_error.
Qed.

(** A reading that fails leaves the new database empty, however much was imported before
    the error. *)
Theorem failed_reading_leaves_nothing from db' err :
  readTreeFrom NewMemDB MaxInt64 from = (db', Some err) → db' = NewMemDB.
Proof.
  unfold readTreeFrom. destruct (tree_Importer _ _) as [imp|]; [|by intros [= <- _]].
  destruct (read_entries from NewMemDB imp) as [db1 [imp1|err']] eqn:Hr.
  - destruct (importer_Commit db1 imp1) as [db2 [|]]; [|intros [= <- _]; apply ClearDb_empty].
    repeat case_match; intros [= <- _]; apply ClearDb_empty.
  - intros [= <- _]. by eapply read_entries_error.
Qed.

(** ** Requests *)

(** A request, with the snapshots that are there when it is answered. *)
Record request := mkRequest { rq_open : Z → option (list tar_item); rq_epoch : Z; rq_address : Address }.

Definition answer (h : holderImpl) (r : request) : holderImpl * (option bytes + string) :=
  IdentityWithProof (rq_open r) (rq_epoch r) (rq_address r) h.
Definition after (l : list request) : holderImpl := foldl (λ h r, (answer h r).1) NewHolder l.

Definition snapshot_state (r : request) (st : StateDB) : Prop :=
  ∃ file db', rq_open r (rq_epoch r) = Some file ∧ imports file NewMemDB db' ∧ st = CommitSnapshot db' MaxInt64.

Lemma answer_holder h r :
  (answer h r).1 = (getState (rq_open r) (rq_epoch r) h).1.
Proof. unfold answer, IdentityWithProof. destruct (getState _ _ h) as [h' [st|err]]; [|done]. by repeat case_match. Qed.

Lemma getState_cases open epoch h :
  (∃ st, statesByVersion h !! epoch = Some st ∧ getState open epoch h = (h, inl st)) ∨
  (statesByVersion h !! epoch = None ∧
    ((∃ err, getState open epoch h = (h, inr err)) ∨
     ∃ file db', open epoch = Some file ∧ imports file NewMemDB db' ∧
       getState open epoch h
       = (mkHolderImpl (<[epoch := CommitSnapshot db' MaxInt64]> (statesByVersion h)), inl (CommitSnapshot db' MaxInt64)))).
Proof.
  unfold getState. destruct (statesByVersion h !! epoch) as [st|]; [left; eauto|right; split; [done|]].
  destruct (open epoch) as [file|]; [|by left; eauto]. destruct (negb _); [by left; eauto|].
  destruct (readTreeFrom NewMemDB MaxInt64 file) as [db' [err|]] eqn:Hr; [by left; eauto|right].
  exists file, db'. split_and!; [done|by apply snapshot_is_imported|done].
Qed.

(** Whatever the requests, and whatever happens to the files between them: the states
    that are kept are those of valid snapshots, each as it was when it was first read
    without an error. *)
Theorem kept_states_are_valid l epoch st :
  statesByVersion (after l) !! epoch = Some st →
  ∃ before r rest, l = before ++ r :: rest ∧ rq_epoch r = epoch ∧ snapshot_state r st ∧
    statesByVersion (after before) !! epoch = None.
Proof.
  unfold after. induction l as [|r l IH] using rev_ind; [done|]. rewrite foldl_app. cbn [foldl]. rewrite answer_holder.
  destruct (getState_cases (rq_open r) (rq_epoch r) (foldl (λ h r, (answer h r).1) NewHolder l))
    as [(st' & _ & ->)|[Hnone [[err ->]|(file & db' & Hf & Hi & ->)]]]; cbn.
  1-2: intros (before & r' & rest & -> & ?)%IH; exists before, r', (rest ++ [r]); by rewrite <- app_assoc.
  rewrite lookup_insert_Some. intros [[<- <-]|[_ (before & r' & rest & -> & ?)%IH]].
  - exists l, r, []. split_and!; try done. by exists file, db'.
  - exists before, r', (rest ++ [r]). by rewrite <- app_assoc.
Qed.

(** An epoch that has its state keeps it, and is answered from it, whatever the files are
    by then. *)
Theorem kept_states_stay l more epoch st open address :
  statesByVersion (after l) !! epoch = Some st →
  statesByVersion (after (l ++ more)) !! epoch = Some st ∧
  (answer (after (l ++ more)) (mkRequest open epoch address)).2
  = match GetIdentityWithProof st address with
    | None => inr "proof"%string
    | Some v => inl (if decide (v = []) then None else Some v)
    end.
Proof.
  intros Hst. assert (Hkept : statesByVersion (after (l ++ more)) !! epoch = Some st).
  { unfold after in *. rewrite foldl_app. revert Hst. generalize (foldl (λ h r, (answer h r).1) NewHolder l) as h.
    induction more as [|r more IH]; intros h Hst; [done|]. cbn [foldl]. apply IH. rewrite answer_holder.
    destruct (getState_cases (rq_open r) (rq_epoch r) h)
      as [(st' & _ & ->)|[Hnone [[err ->]|(file & db' & Hf & Hi & ->)]]]; cbn; [done..|].
    by rewrite lookup_insert_ne by (intros Heq; rewrite Heq in Hnone; congruence). }
  split; [done|]. unfold answer, IdentityWithProof, getState. cbn. rewrite Hkept.
  destruct (GetIdentityWithProof st address) as [[|x v]|]; cbn; done.
Qed.
End laws.

(** ** A snapshot of three nodes in two chunks *)

(** A database is the nodes committed in it; a chunk is the versions of its nodes. *)
#[export] Instance SampleSnapshots : SnapshotApi := {|
  TreeDb := list ExportNode;
  NewMemDB := [];
  Importer := list ExportNode;
  tree_Importer _ _ := Some [];
  importer_Add node db imp := (db, Some (imp ++ [node]));
  importer_Commit db imp := (db ++ imp, true);
  tree_LoadVersion _ _ := true;
  tree_ValidateTree db := bool_decide (Forall (λ n, en_Version n ≠ 0%Z) db);
  common_ClearDb _ := [];
  Unmarshal data := Some ((λ v, Some (mkSnapshotNode [v] [v] (v `mod` 2 ^ 64) 1 false)) <$> data);
  MaxSnapshotChunkBytes := 10;
  StateDB := list ExportNode;
  NewLazy _ := true;
  CommitSnapshot db _ := db;
  GetIdentityWithProof st a := x ← list_find (λ n, en_Key n = [address_word a]) st; Some (en_Value x.2)
|}.

#[export] Instance SampleSnapshotsLaws : SnapshotLaws.
Proof.
  split.
  - intros data nodes [= <-]. apply list.Forall_fmap, list.Forall_true. intros v. cbn. unfold node_widths. cbn [sn_Version sn_Height].
    pose proof (Z.mod_pos_bound v (2 ^ 64) ltac:(lia)). lia.
  - done.
Defined.

Definition sample_chunks : list tar_item :=
  [TarEntry "nodes" TypeDir 0 None; TarEntry "nodes/0" TypeReg 2 (Some [4; 5]%Z); TarEntry "nodes/1" TypeReg 1 (Some [6]%Z)].
Definition sample_request : request := mkRequest (λ e, if decide (e = 8%Z) then Some sample_chunks else None) 8 (mkAddress 5).

Lemma failed_reading_leaves_nothing_witness :
  (readTreeFrom NewMemDB MaxInt64 (sample_chunks ++ [TarEntry "link" "2"%char 0 None])).1 = NewMemDB.
Proof.
  destruct (readTreeFrom NewMemDB MaxInt64 (sample_chunks ++ [TarEntry "link" "2"%char 0 None])) as [db' [err|]] eqn:Hr.
  - exact (failed_reading_leaves_nothing _ db' err Hr).
  - exfalso. vm_compute in Hr. discriminate.
Defined.

Lemma kept_states_are_valid_witness :
  ∃ before r rest, [mkRequest (λ _, None) 8 (mkAddress 5); sample_request] = before ++ r :: rest ∧ rq_epoch r = 8%Z ∧
    snapshot_state r [mkExportNode [4] [4] 4 1; mkExportNode [5] [5] 5 1; mkExportNode [6] [6] 6 1]%Z ∧
    statesByVersion (after before) !! 8%Z = None.
Proof.
  apply (kept_states_are_valid [mkRequest (λ _, None) 8 (mkAddress 5); sample_request] 8). vm_compute. reflexivity.
Defined.

Lemma kept_states_stay_witness :
  (answer (after ([sample_request] ++ [mkRequest (λ _, None) 8 (mkAddress 1)])) (mkRequest (λ _, None) 8 (mkAddress 5))).2
  = inl (Some [5]%Z).
Proof.
  refine (proj2 (kept_states_stay [sample_request] [mkRequest (λ _, None) 8 (mkAddress 1)] 8
    [mkExportNode [4] [4] 4 1; mkExportNode [5] [5] 5 1; mkExportNode [6] [6] 6 1]%Z (λ _, None) (mkAddress 5) _)).
  vm_compute. reflexivity.
Defined.

Lemma snapshot_is_imported_witness :
  imports sample_chunks NewMemDB [mkExportNode [4] [4] 4 1; mkExportNode [5] [5] 5 1; mkExportNode [6] [6] 6 1]%Z.
Proof.
  apply snapshot_is_imported. vm_compute. reflexivity.
Defined.
