(* ===== verification/Api.v ===== *)
(** * The API

    core/api/api.go answers from what the program keeps of the head and of the pending
    transactions: the cache of the identities, the votes for upgrades, the two pools, the
    states of past epochs, the contracts of the head and the verifications.  Lists are
    answered page by page, a page telling where the next one starts. *)

From Stdlib Require DecimalString DecimalN DecimalPos.
From S2P Require Import Prelude Node Transactions ContractTypes TxPool ContractsPool Upgrades Verifier Online Multisig VoteTracker Snapshots.

(** ** Data *)

(** Go: core/types/types.go OnlineIdentity *)
Inductive OnlineIdentity `{NodeApi} := mkOnlineIdentity {
  oi_Address : string; oi_LastActivity : option Z; oi_Penalty : Decimal; oi_PenaltySeconds : Z;
  oi_Online : bool; oi_Delegetee : option OnlineIdentity
}.

(** Go: core/types/types.go Pool *)
Record PoolStakes `{NodeApi} := mkPoolStakes { ps_TotalStake : Decimal; ps_TotalValidatedStake : Decimal }.

(** Go: core/types/types.go UpgradeVotes *)
Record VotesOfUpgrade := mkVotesOfUpgrade { vu_Upgrade : Z; vu_Votes : Z }.

(** The recovery of a public key from a signature. *)
Class ApiCrypto := { Ecrecover : bytes → bytes → bytes + string }.

(** Go: core/api/api.go Api

    With what the holders hold: the files of the snapshots, and the state of the head
    ([None]: an error). *)
Record Api `{NodeApi, !SnapshotApi, !VerifierEnv} := mkApi {
  onlineIdentities : currentOnlineIdentitiesCache;
  upgradesVoting : list Votes;
  api_memPool : memPool;
  contractsMemPool : contractsImpl;
  stateHolder : holderImpl;
  snapshot_files : Z → option (list tar_item);
  headState : option AppState;
  contractVerifier : VerifierDb
}.

(** The orders in which the maps are ranged over. *)
Record api_orders `{NodeApi} := mkApiOrders {
  ao_txs : gmap Hash Tx → list (Hash * Tx);
  ao_deploys : gmap Hash OracleVotingContract → list (Hash * OracleVotingContract);
  ao_contract_txs : gmap string Transaction → list (string * Transaction);
  ao_signers : gmap string string → list (string * string)
}.

(** ** Decimal numbers *)

(** [strconv.ParseUint(s, 10, 64)] ([None]: an error) and [strconv.FormatUint(n, 10)] *)
Definition ParseUint (s : string) : option Z :=
  if decide (s = EmptyString) then None
  else d ← DecimalString.NilEmpty.uint_of_string s;
       let n := Z.of_N (N.of_uint d) in if (n <? 2 ^ 64)%Z then Some n else None.
Definition FormatUint (n : Z) : string := DecimalString.NilEmpty.string_of_uint (N.to_uint (Z.to_N n)).

(** ** Pages *)

(** Go: core/api/api.go GetOnlineIdentities:67-69

    The elements from [i] up to [stop].  An index out of the list panics, as it does in the
    code; the conditions of the loop are met for as many turns as the list has elements at
    most, and running out of fuel, one more than that, counts as a panic. *)
Fixpoint page_loop {A} (fuel : nat) (all : list A) (i stop : Z) : outcome (list A) :=
  match fuel with
  | O => Panic
  | S fuel =>
      if (i <? stop)%Z && (i <? Z.of_nat (length all))%Z then
        match all !! Z.to_nat i with
        | Some x => match page_loop fuel all (u64 (i + 1)) stop with Done l => Done (x :: l) | Panic => Panic end
        | None => Panic
        end
      else Done []
  end.

Definition page_at {A} (all : list A) (startIndex count : Z) : outcome (list A) :=
  page_loop (S (length all)) all startIndex (u64 (startIndex + count)).

(** Go: core/api/api.go GetOnlineIdentities:56-76

    The body of [GetOnlineIdentities], [Validators] and [OnlineValidators], which are the
    same but for the list: the token is read, the elements are taken, and there is a
    token when the list is longer. *)
Definition page {A} (all : list A) (count : Z) (continuationToken : option string) : outcome ((list A * option string) + string) :=
  match match continuationToken with None => Some 0%Z | Some t => ParseUint t end with
  | None => Done (inr "invalid continuation token"%string)
  | Some startIndex =>
      match page_at all startIndex count with
      | Panic => Panic
      | Done res =>
          Done (inl (res,
            if (u64 (startIndex + count) <? Z.of_nat (length all))%Z then Some (FormatUint (u64 (startIndex + count))) else None))
      end
  end.

Section api.
Context `{NodeApi, !SnapshotApi, !VerifierEnv, !OnlineMath, !ContractStore, !VoteApi, !ApiCrypto}.
Implicit Type a : Api.

(** Go: core/api/api.go NewApi *)
Definition NewApi := mkApi.

(** Go: core/api/api.go convertOnlineIdentity

    Of an identity that is not nil; the delegatee of its delegatee is left out. *)
Definition convertOnlineIdentity (oi : CachedIdentity) : OnlineIdentity :=
  mkOnlineIdentity _ (ci_Address oi) (ci_LastActivity oi) (ci_Penalty oi) (ci_PenaltySeconds oi) (ci_Online oi)
    ((λ d, mkOnlineIdentity _ (ci_Address d) (ci_LastActivity d) (ci_Penalty d) (ci_PenaltySeconds d) (ci_Online d) None)
       <$> ci_Delegatee oi).

(** Go: core/api/api.go GetOnlineIdentitiesCount *)
Definition GetOnlineIdentitiesCount a : Z := Z.of_nat (length (identities (onlineIdentities a))).

(** Go: core/api/api.go GetOnlineIdentities *)
Definition GetOnlineIdentities a (count : Z) (continuationToken : option string) : outcome ((list OnlineIdentity * option string) + string) :=
  match page (identities (onlineIdentities a)) count continuationToken with
  | Done (inl (res, next)) => Done (inl (convertOnlineIdentity <$> res, next))
  | Done (inr err) => Done (inr err)
  | Panic => Panic
  end.

(** Go: core/api/api.go GetOnlineIdentitiesOld *)
Definition GetOnlineIdentitiesOld a (startIndex count : Z) : outcome (list OnlineIdentity) :=
  match page_at (identities (onlineIdentities a)) startIndex count with
  | Done res => Done (convertOnlineIdentity <$> res)
  | Panic => Panic
  end.

(** Go: core/api/api.go GetOnlineIdentity *)
Definition GetOnlineIdentity a (address : string) : option OnlineIdentity :=
  convertOnlineIdentity <$> Online.Get (onlineIdentities a) address.

(** Go: core/api/api.go GetOnlineCount *)
Definition GetOnlineCount a : Z := u64 (onlineCount (onlineIdentities a)).

(** Go: core/api/api.go convertPool *)
Definition convertPool (v : Pool) : PoolStakes :=
  mkPoolStakes _ (ConvertToFloat (Some (po_TotalStake v))) (ConvertToFloat (Some (po_TotalValidatedStake v))).

(** Go: core/api/api.go Api.GetPool *)
Definition GetPool a (address : string) : option PoolStakes :=
  convertPool <$> Online.GetPool (onlineIdentities a) address.

(** Go: core/api/api.go SignatureAddress

    The hash of the hash of the text. *)
Definition SignatureAddress (value signature : string) : string + string :=
  let hash := crypto_Hash (crypto_Hash (bytes_of value)) in
  match hexutil_Decode signature with
  | inr err => inr err
  | inl signatureBytes =>
      match Ecrecover hash signatureBytes with
      | inr err => inr err
      | inl pubKey =>
          match PubKeyBytesToAddress pubKey with
          | None => inr "invalid public key"%string
          | Some addr => inl (address_Hex addr)
          end
      end
  end.

(** Go: core/api/api.go UpgradeVoting *)
Definition UpgradeVoting a : list VotesOfUpgrade :=
  (λ v, mkVotesOfUpgrade (vt_Upgrade v) (vt_Votes v)) <$> upgradesVoting a.

(** Go: core/api/api.go MemPoolTransaction *)
Definition MemPoolTransaction a (hash : string) : option TransactionDetail := GetTransaction (api_memPool a) hash.
(** Go: core/api/api.go MemPoolTransactionRaw *)
Definition MemPoolTransactionRaw a (hash : string) : option bytes := GetTransactionRaw (api_memPool a) hash.
(** Go: core/api/api.go MemPoolAddressTransactions

    [int(count)] of a number of 64 bits. *)
Definition MemPoolAddressTransactions (o : api_orders) a (address : string) (count : Z) : list TransactionSummary :=
  GetAddressTransactions (ao_txs o) (api_memPool a) address (swrap 64 count).
(** Go: core/api/api.go MemPoolTransactions *)
Definition MemPoolTransactions (o : api_orders) a (count : Z) : list TransactionSummary :=
  GetTransactions (ao_txs o) (api_memPool a) (swrap 64 count).
(** Go: core/api/api.go MemPoolTransactionsCount *)
Definition MemPoolTransactionsCount a : Z := GetTransactionsCount (api_memPool a).
(** Go: core/api/api.go MemPoolOracleVotingContractDeploys *)
Definition MemPoolOracleVotingContractDeploys (o : api_orders) a (author : string) : list OracleVotingContract :=
  GetOracleVotingContractDeploys (ao_deploys o) (HexToAddress author) (contractsMemPool a).
(** Go: core/api/api.go MemPoolAddressContractTxs *)
Definition MemPoolAddressContractTxs (o : api_orders) a (address contractAddress : string) : list Transaction :=
  GetAddressContractTxs (ao_contract_txs o) address contractAddress (contractsMemPool a).

(** Go: core/api/api.go Api.ValidatorsCount *)
Definition ValidatorsCount a : Z := Online.ValidatorsCount (onlineIdentities a).
(** Go: core/api/api.go Api.Validators *)
Definition Validators a (count : Z) (continuationToken : option string) : outcome ((list Validator * option string) + string) :=
  page (validators (onlineIdentities a)) count continuationToken.
(** Go: core/api/api.go Api.OnlineValidatorsCount *)
Definition OnlineValidatorsCount a : Z := Online.OnlineValidatorsCount (onlineIdentities a).
(** Go: core/api/api.go Api.OnlineValidators *)
Definition OnlineValidators a (count : Z) (continuationToken : option string) : outcome ((list Validator * option string) + string) :=
  page (onlineValidators (onlineIdentities a)) count continuationToken.

(** Go: core/api/api.go Api.IdentityWithProof *)
Definition IdentityWithProof (epoch : Z) (address : string) a : Api * (option bytes + string) :=
  let (h, res) := Snapshots.IdentityWithProof (snapshot_files a) epoch (HexToAddress address) (stateHolder a) in
  (a <| stateHolder := h |>, res).

(** Go: core/api/api.go Api.Staking *)
Definition Staking_ a : Staking := staking (onlineIdentities a).
(** Go: core/api/api.go Api.Multisig *)
Definition Multisig (o : api_orders) a (address : string) : outcome (option (list MultisigSigner)) :=
  GetMultisigState (ao_signers o) (headState a) address.
(** Go: core/api/api.go Api.ForkCommitteeSize *)
Definition ForkCommitteeSize a : Z := u64 (forkCommitteeSize (onlineIdentities a)).

(** Go: core/api/api.go Api.VerifyContract

    The errors for the user and of the database. *)
Definition VerifyContract (contractAddress : string) (data : bytes) (fileName : string) a : Api * option string * option string :=
  let '(db, userErr, err) := Submit (HexToAddress contractAddress) data fileName (contractVerifier a) in
  (a <| contractVerifier := db |>, userErr, err).
End api.

(** ** Numbers are read back *)

Lemma ParseUint_FormatUint n : (0 ≤ n < 2 ^ 64)%Z → ParseUint (FormatUint n) = Some n.
Proof.
  intros Hn. unfold ParseUint, FormatUint. rewrite decide_False.
  - rewrite DecimalString.NilEmpty.usu. cbn [mbind option_bind]. rewrite DecimalN.Unsigned.of_to, Z2N.id by lia.
    by rewrite (proj2 (Z.ltb_lt _ _)) by lia.
  - destruct (Z.to_N n) as [|p]; [done|]. cbn. pose proof (DecimalPos.Unsigned.to_uint_nonnil p). by destruct (Pos.to_uint p).
Qed.

(** ** Pages follow one another *)

Lemma page_loop_slice {A} fuel (all : list A) i stop :
  (0 ≤ i)%Z → (stop < 2 ^ 64)%Z → length all < fuel + Z.to_nat i →
  page_loop fuel all i stop = Done (take (Z.to_nat (stop - i)) (drop (Z.to_nat i) all)) ∨ fuel = 0.
Proof.
  revert i. induction fuel as [|fuel IH]; intros i Hi Hs Hf; [by right|left]; cbn [page_loop].
  destruct (Z.ltb_spec i stop); cbn [andb].
  - destruct (Z.ltb_spec i (Z.of_nat (length all))).
    + destruct (lookup_lt_is_Some_2 all (Z.to_nat i)) as [x Hx]; [lia|]. rewrite Hx.
      replace (u64 (i + 1)) with (i + 1)%Z by (symmetry; apply uwrap_small; lia).
      destruct (IH (i + 1)%Z) as [->| ->]; [lia..| |lia]. rewrite (drop_S _ _ _ Hx).
      replace (Z.to_nat (stop - i)) with (S (Z.to_nat (stop - (i + 1)))) by lia. cbn [take].
      by replace (Z.to_nat (i + 1)) with (S (Z.to_nat i)) by lia.
    + rewrite drop_ge by lia. by rewrite take_nil.
  - by replace (Z.to_nat (stop - i)) with 0 by lia.
Qed.

(** A page is answered wherever it starts, also when the sum of the start and the length
    wraps around. *)
Lemma page_at_done {A} (all : list A) i count :
  (0 ≤ i)%Z → page_at all i count = Done (take (Z.to_nat (u64 (i + count) - i)) (drop (Z.to_nat i) all)).
Proof.
  intros Hi. destruct (page_loop_slice (S (length all)) all i (u64 (i + count))) as [H|H]; [done| |lia|exact H|done].
  pose proof (uwrap_range 64 (i + count)). lia.
Qed.

Lemma ParseUint_range t n : ParseUint t = Some n → (0 ≤ n < 2 ^ 64)%Z.
Proof.
  unfold ParseUint. destruct (decide _); [done|]. destruct (DecimalString.NilEmpty.uint_of_string t) as [d|]; [|done].
  cbn [mbind option_bind]. destruct (Z.ltb_spec (Z.of_N (N.of_uint d)) (2 ^ 64)); [|done]. intros [= <-]. lia.
Qed.

Lemma page_done {A} (all : list A) count token : ∃ res, page all count token = Done res.
Proof.
  unfold page. destruct token as [t|].
  - destruct (ParseUint t) as [i|] eqn:Hi; [|by eexists]. apply ParseUint_range in Hi.
    rewrite page_at_done by lia. by eexists.
  - rewrite page_at_done by lia. by eexists.
Qed.

Lemma page_slice {A} (all : list A) i count :
  (0 ≤ i)%Z → (0 ≤ count)%Z → (i + count < 2 ^ 64)%Z →
  page_at all i count = Done (take (Z.to_nat count) (drop (Z.to_nat i) all)).
Proof.
  intros Hi Hc Hw. rewrite page_at_done by lia.
  replace (u64 (i + count)) with (i + count)%Z by (symmetry; apply uwrap_small; lia). by replace (i + count - i)%Z with count by lia.
Qed.
