(* ===== verification/Server.v ===== *)
(** * The HTTP server of the API

    core/server/: a filter makes the path and the names of the parameters lower-case, the
    router of gorilla/mux picks a handler for the path, the handlers read the parameters
    (common.go) and answer with a result, the token of a next page, or errors
    (router.go).  A request is the form, the body and the variables that the handlers read
    of it; the writing of the answer as JSON is left out. *)

From Stdlib Require Import Ascii.
From S2P Require Import Prelude Node Transactions ContractTypes TxPool ContractsPool Upgrades Verifier Online Multisig VoteTracker Snapshots Api.

(** ** Answers *)

(** Go: core/server/common.go RespError *)
Record RespError := mkRespError { re_UserMessage : string; re_Message : string }.

(** The results of the handlers; [NoResult] is nil. *)
Inductive result `{NodeApi} :=
  | NoResult
  | Count (n : Z)
  | Identities (l : list OnlineIdentity)
  | AnIdentity (i : option OnlineIdentity)
  | Stakes (p : option PoolStakes)
  | ValidatorList (l : list Validator)
  | Text (s : string)
  | UpgradeVoting_ (l : list VotesOfUpgrade)
  | Time (t : Z)
  | Detail (tx : option TransactionDetail)
  | Raw (b : option bytes)
  | Summaries (l : list TransactionSummary)
  | Deploys (l : list OracleVotingContract)
  | Txs (l : list Transaction)
  | Weight (w : Float64)
  | StakingResult (s : Staking)
  | Signers (l : option (list MultisigSigner)).

(** Go: core/server/common.go ResponsePage *)
Record ResponsePage `{NodeApi} := mkResponsePage {
  rp_Result : result; rp_ContinuationToken : option string; rp_Error : option RespError
}.

(** What a handler reads of a request: [r.Form], by name with all of its values,
    [mux.Vars(r)], and the body ([None]: an error, such as a body over the limit). *)
Record Request := mkRequest_ {
  r_Form : gmap string (list string); r_Vars : gmap string string; r_Body : option bytes
}.

Section server.
Context `{NodeApi, !SnapshotApi, !VerifierEnv, !OnlineMath, !ContractStore, !VoteApi, !ApiCrypto}.
Implicit Types (a : Api) (r : Request).

(** Go: core/server/common.go getErrorMsgResponse *)
Definition getErrorMsgResponse (usrErrMsg errMsg : string) : ResponsePage :=
  mkResponsePage _ NoResult None (Some (mkRespError usrErrMsg errMsg)).

(** Go: core/server/common.go getErrorResponse *)
Definition getErrorResponse (userErr err : option string) : ResponsePage :=
  getErrorMsgResponse (default EmptyString userErr) (default EmptyString err).

(** Go: core/server/common.go getResponse *)
Definition getResponse (res : result) (continuationToken : option string) (userErr err : option string) : ResponsePage :=
  if bool_decide (userErr ≠ None ∨ err ≠ None) then getErrorResponse userErr err
  else mkResponsePage _ res continuationToken None.

(** Go: core/server/common.go WriteResponsePage *)
Definition WriteResponsePage (res : result) (continuationToken err : option string) : ResponsePage :=
  getResponse res continuationToken None err.
(** Go: core/server/common.go WriteResponse *)
Definition WriteResponse (res : result) (err : option string) : ResponsePage := WriteResponsePage res None err.
(** Go: core/server/common.go WriteErrorResponse *)
Definition WriteErrorResponse (err : string) : ResponsePage := WriteResponse NoResult (Some err).
(** Go: core/server/common.go WriteResponseWithUserErr *)
Definition WriteResponseWithUserErr (res : result) (userErr err : option string) : ResponsePage :=
  getResponse res None userErr err.

(** ** Parameters *)

Definition wrong_value (name value : string) : string :=
  String.append "wrong value " (String.append name (String.append "=" value)).
Definition too_big (count : Z) : string := String.append "too big value limit=" (FormatUint count).

(** [mux.Vars(r)[name]] and [params.Get(name)] *)
Definition var (r : Request) (name : string) : string := default EmptyString (r_Vars r !! name).
Definition form_get (params : gmap string (list string)) (name : string) : string :=
  match params !! name with Some (v :: _) => v | _ => EmptyString end.

(** Go: core/server/common.go ReadUint *)
Definition ReadUint (vars : gmap string string) (name : string) : Z + string :=
  let value := default EmptyString (vars !! name) in
  match ParseUint value with None => inr (wrong_value name value) | Some n => inl n end.

(** Go: core/server/common.go ReadUintUrlValue *)
Definition ReadUintUrlValue (params : gmap string (list string)) (name : string) : Z + string :=
  match ParseUint (form_get params name) with None => inr (wrong_value name (form_get params name)) | Some n => inl n end.

(** Go: core/server/common.go ReadOldPaginatorParams *)
Definition ReadOldPaginatorParams (vars : gmap string string) : (Z * Z) + string :=
  match ReadUint vars "skip" with
  | inr err => inr err
  | inl startIndex =>
      match ReadUint vars "limit" with
      | inr err => inr err
      | inl count => if (100 <? count)%Z then inr (too_big count) else inl (startIndex, count)
      end
  end.

(** Go: core/server/common.go ReadPaginatorParams *)
Definition ReadPaginatorParams (params : gmap string (list string)) : (Z * option string) + string :=
  let v := form_get params "continuationtoken" in
  let continuationToken := if (0 <? String.length v)%nat then Some v else None in
  match ReadUintUrlValue params "limit" with
  | inr err => inr err
  | inl count => if (100 <? count)%Z then inr (too_big count) else inl (count, continuationToken)
  end.

(** ** Handlers *)

(** A handler that only reads: from the API, the request and the time. *)
Definition read_only (f : Api → Request → Z → ResponsePage) (a : Api) (r : Request) (now : Z) : outcome (Api * ResponsePage) :=
  Done (a, f a r now).

(** A handler that reads a page of a list. *)
Definition reads_page (f : Api → Request → outcome ResponsePage) (a : Api) (r : Request) (now : Z) : outcome (Api * ResponsePage) :=
  match f a r with Done p => Done (a, p) | Panic => Panic end.

Definition no_error {A} (x : A + string) (f : A → ResponsePage) : ResponsePage :=
  match x with inl v => f v | inr err => WriteErrorResponse err end.

(** A page, or the error of its token. *)
Definition write_page {A} (f : list A → result) (x : outcome ((list A * option string) + string)) : outcome ResponsePage :=
  match x with
  | Done (inl (l, next)) => Done (WriteResponsePage (f l) next None)
  | Done (inr err) => Done (WriteResponsePage (f []) None (Some err))
  | Panic => Panic
  end.
Definition page_of_form {A} (f : list A → result) (form : gmap string (list string))
    (list_page : Z → option string → outcome ((list A * option string) + string)) : outcome ResponsePage :=
  match ReadPaginatorParams form with
  | inr err => Done (WriteErrorResponse err)
  | inl (count, continuationToken) => write_page f (list_page count continuationToken)
  end.

(** Go: core/server/router.go routerInitializer.onlineIdentitiesCount *)
Definition onlineIdentitiesCount := read_only (λ a _ _, WriteResponse (Count (GetOnlineIdentitiesCount a)) None).
(** Go: core/server/router.go routerInitializer.onlineIdentities *)
Definition onlineIdentities_ := reads_page (λ a r, page_of_form Identities (r_Form r) (GetOnlineIdentities a)).
(** Go: core/server/router.go routerInitializer.onlineIdentitiesOld *)
Definition onlineIdentitiesOld := reads_page (λ a r,
  match ReadOldPaginatorParams (r_Vars r) with
  | inr err => Done (WriteErrorResponse err)
  | inl (startIndex, count) =>
      match GetOnlineIdentitiesOld a startIndex count with
      | Done l => Done (WriteResponse (Identities l) None)
      | Panic => Panic
      end
  end).
(** Go: core/server/router.go routerInitializer.onlineIdentity *)
Definition onlineIdentity := read_only (λ a r _, WriteResponse (AnIdentity (GetOnlineIdentity a (var r "address"))) None).
(** Go: core/server/router.go routerInitializer.onlineCount *)
Definition onlineCount_ := read_only (λ a _ _, WriteResponse (Count (GetOnlineCount a)) None).
(** Go: core/server/router.go routerInitializer.pool *)
Definition pool_ := read_only (λ a r _, WriteResponse (Stakes (Api.GetPool a (var r "address"))) None).
(** Go: core/server/router.go routerInitializer.signatureAddress *)
Definition signatureAddress := read_only (λ a r _,
  match SignatureAddress (var r "value") (var r "signature") with
  | inl s => WriteResponse (Text s) None
  | inr err => WriteResponse (Text EmptyString) (Some err)
  end).
(** Go: core/server/router.go routerInitializer.upgradeVoting *)
Definition upgradeVoting_ := read_only (λ a _ _, WriteResponse (UpgradeVoting_ (UpgradeVoting a)) None).
(** Go: core/server/router.go routerInitializer.now

    The time is in nanoseconds. *)
Definition now_ := read_only (λ _ _ now, WriteResponse (Time (now - now `mod` 10 ^ 9)%Z) None).
(** Go: core/server/router.go routerInitializer.memPoolTransaction *)
Definition memPoolTransaction := read_only (λ a r _, WriteResponse (Detail (MemPoolTransaction a (var r "hash"))) None).
(** Go: core/server/router.go routerInitializer.memPoolTransactionRaw *)
Definition memPoolTransactionRaw := read_only (λ a r _, WriteResponse (Raw (MemPoolTransactionRaw a (var r "hash"))) None).
(** Go: core/server/router.go routerInitializer.memPoolAddressTransactions *)
Definition memPoolAddressTransactions (o : api_orders) := read_only (λ a r _, no_error (ReadPaginatorParams (r_Form r)) (λ '(count, _),
  WriteResponse (Summaries (MemPoolAddressTransactions o a (var r "address") count)) None)).
(** Go: core/server/router.go routerInitializer.memPoolTransactions *)
Definition memPoolTransactions (o : api_orders) := read_only (λ a r _, no_error (ReadPaginatorParams (r_Form r)) (λ '(count, _),
  WriteResponse (Summaries (MemPoolTransactions o a count)) None)).
(** Go: core/server/router.go routerInitializer.memPoolTransactionsCount *)
Definition memPoolTransactionsCount := read_only (λ a _ _, WriteResponse (Count (MemPoolTransactionsCount a)) None).
(** Go: core/server/router.go routerInitializer.memPoolOracleVotingContractDeploys *)
Definition memPoolOracleVotingContractDeploys (o : api_orders) := read_only (λ a r _,
  WriteResponse (Deploys (MemPoolOracleVotingContractDeploys o a (var r "author"))) None).
(** Go: core/server/router.go routerInitializer.memPoolAddressContractTxs *)
Definition memPoolAddressContractTxs (o : api_orders) := read_only (λ a r _,
  WriteResponse (Txs (MemPoolAddressContractTxs o a (var r "address") (var r "contractaddress"))) None).
(** Go: core/server/router.go routerInitializer.validatorsCount *)
Definition validatorsCount := read_only (λ a _ _, WriteResponse (Count (Api.ValidatorsCount a)) None).
(** Go: core/server/router.go routerInitializer.validators *)
Definition validators_ := reads_page (λ a r, page_of_form ValidatorList (r_Form r) (Validators a)).
(** Go: core/server/router.go routerInitializer.onlineValidatorsCount *)
Definition onlineValidatorsCount := read_only (λ a _ _, WriteResponse (Count (Api.OnlineValidatorsCount a)) None).
(** Go: core/server/router.go routerInitializer.onlineValidators *)
Definition onlineValidators_ := reads_page (λ a r, page_of_form ValidatorList (r_Form r) (OnlineValidators a)).
(** Go: core/server/router.go routerInitializer.identityWithProof *)
Definition identityWithProof a r (now : Z) : outcome (Api * ResponsePage) :=
  Done match ReadUint (r_Vars r) "epoch" with
       | inr err => (a, WriteErrorResponse err)
       | inl epoch =>
           match Api.IdentityWithProof epoch (var r "address") a with
           | (a, inl v) => (a, WriteResponse (Raw v) None)
           | (a, inr err) => (a, WriteResponse (Raw None) (Some err))
           end
       end.
(** Go: core/server/router.go routerInitializer.staking *)
Definition staking_handler := read_only (λ a _ _, WriteResponse (Weight (sk_Weight (Staking_ a))) None).
(** Go: core/server/router.go routerInitializer.stakingV2 *)
Definition stakingV2 := read_only (λ a _ _, WriteResponse (StakingResult (Staking_ a)) None).
(** Go: core/server/router.go routerInitializer.multisig *)
Definition multisig_ (o : api_orders) a r (now : Z) : outcome (Api * ResponsePage) :=
  match Multisig o a (var r "address") with
  | Panic => Panic
  | Done None => Done (a, WriteResponse (Signers None) (Some "state"%string))
  | Done (Some signers) => Done (a, WriteResponse (Signers (Some signers)) None)
  end.
(** Go: core/server/router.go routerInitializer.forkCommitteeSize *)
Definition forkCommitteeSize_ := read_only (λ a _ _, WriteResponse (Count (ForkCommitteeSize a)) None).
(** Go: core/server/router.go routerInitializer.verifyContract *)
Definition verifyContract a r (now : Z) : outcome (Api * ResponsePage) :=
  Done match r_Body r with
       | None => (a, WriteResponse NoResult (Some "failed to read request data"%string))
       | Some data =>
           let address := var r "address" in
           let fileName := String.append (ToLower address) ".zip" in
           let '(a, usrErr, err) := VerifyContract address data fileName a in
           (a, WriteResponseWithUserErr NoResult usrErr err)
       end.

(** ** Routes *)

Abbreviation handler := (Api → Request → Z → outcome (Api * ResponsePage)).

(** A template of a path, the templates of its query, and the handler. *)
Record route := mkRoute { rt_Path : string; rt_Queries : list (string * string); rt_Handler : handler }.

(** Go: core/server/router.go routerInitializer.InitRouter *)
Definition InitRouter (o : api_orders) : list route := [
  mkRoute (ToLower "/OnlineIdentities/Count") [] onlineIdentitiesCount;
  mkRoute (ToLower "/OnlineIdentities") [("skip", "{skip}"); ("limit", "{limit}")] onlineIdentitiesOld;
  mkRoute (ToLower "/OnlineIdentities") [] onlineIdentities_;
  mkRoute (ToLower "/OnlineIdentity/{address}") [] onlineIdentity;
  mkRoute (ToLower "/Pool/{address}") [] pool_;
  mkRoute (ToLower "/OnlineMiners/Count") [] onlineCount_;
  mkRoute (ToLower "/Validators/Count") [] validatorsCount;
  mkRoute (ToLower "/Validators") [] validators_;
  mkRoute (ToLower "/OnlineValidators/Count") [] onlineValidatorsCount;
  mkRoute (ToLower "/OnlineValidators") [] onlineValidators_;
  mkRoute (ToLower "/SignatureAddress") [("value", "{value}"); ("signature", "{signature}")] signatureAddress;
  mkRoute (ToLower "/UpgradeVoting") [] upgradeVoting_;
  mkRoute (ToLower "/Now") [] now_;
  mkRoute (ToLower "/MemPool/Transaction/{hash}") [] memPoolTransaction;
  mkRoute (ToLower "/MemPool/Transaction/{hash}/Raw") [] memPoolTransactionRaw;
  mkRoute (ToLower "/MemPool/Address/{address}/Transactions") [("limit", "{limit}")] (memPoolAddressTransactions o);
  mkRoute (ToLower "/MemPool/Transactions") [("limit", "{limit}")] (memPoolTransactions o);
  mkRoute (ToLower "/MemPool/Transactions/Count") [] memPoolTransactionsCount;
  mkRoute (ToLower "/MemPool/OracleVotingContractDeploys") [] (memPoolOracleVotingContractDeploys o);
  mkRoute (ToLower "/MemPool/Address/{address}/Contract/{contractAddress}/Txs") [] (memPoolAddressContractTxs o);
  mkRoute (ToLower "/Address/{address}/IdentityWithProof") [("epoch", "{epoch:[0-9]+}")] identityWithProof;
  mkRoute (ToLower "/Staking") [] staking_handler;
  mkRoute (ToLower "/StakingV2") [] stakingV2;
  mkRoute (ToLower "/Multisig/{address}") [] (multisig_ o);
  mkRoute (ToLower "/ForkCommittee/Count") [] forkCommitteeSize_;
  mkRoute (ToLower "/Contract/{address}/Verify") [] verifyContract
]%string.

(** The names of the variables of a template: what is between a brace and the next colon
    or brace. *)
Fixpoint take_name (s : string) : string :=
  match s with
  | EmptyString => EmptyString
  | String c s => if Ascii.eqb c ":" || Ascii.eqb c "}" then EmptyString else String c (take_name s)
  end.
Fixpoint template_vars (s : string) : list string :=
  match s with
  | EmptyString => []
  | String c s => if Ascii.eqb c "{" then take_name s :: template_vars s else template_vars s
  end.
Definition route_vars (rt : route) : list string :=
  template_vars (rt_Path rt) ++ (rt_Queries rt ≫= λ q, template_vars q.2).

(** ** Requests *)

(** What comes over the network: the path and the query as the router sees them, the form
    or why it cannot be parsed, and the body that is left. *)
Inductive form_error := TooLarge | Malformed.
Record HttpRequest := mkHttpRequest {
  h_Path : string; h_RawQuery : string; h_Form : gmap string (list string) + form_error; h_Body : option bytes
}.

Inductive reply := Status (code : Z) | Page (p : ResponsePage).

(** Go: core/server/server.go Server *)
Record Server := mkServer { counter : Z }.
(** Go: core/server/server.go generateReqId *)
Definition generateReqId (s : Server) : Z * Server := (counter s, s <| counter ::= λ c, swrap 64 (c + 1) |>).

(** A name of the form is looked up when the iteration comes to it. *)
Definition lower_names (order : list string) (form : gmap string (list string)) : gmap string (list string) :=
  foldl (λ form name, match form !! name with Some value => <[ToLower name := value]> form | None => form end) form order.

(** Go: core/server/server.go requestFilter

    [order] is the order in which the form is ranged over and [next] the router. *)
Definition requestFilter (order : list string) (next : HttpRequest → Api → outcome (Api * reply)) (rq : HttpRequest) (s : Server) (a : Api)
    : Server * outcome (Api * reply) :=
  let (_, s) := generateReqId s in
  (s, match h_Form rq with
      | inr TooLarge => Done (a, Status 413)
      | inr Malformed => Done (a, Status 400)
      | inl form => next (mkHttpRequest (ToLower (h_Path rq)) (h_RawQuery rq) (inl (lower_names order form)) (h_Body rq)) a
      end).
End server.

(** The router of gorilla/mux: the position of the first route whose templates the path
    and the query match, and the variables; and what is documented of it: only the
    variables of the templates are set. *)
Class Mux := { mux_Match : list (string * list (string * string)) → string → string → option (nat * gmap string string) }.

Section router.
Context `{NodeApi, !SnapshotApi, !VerifierEnv, !OnlineMath, !ContractStore, !VoteApi, !ApiCrypto, !Mux}.

(** Go: core/server/server.go Server.Start:43-53

    The handler of the path, called with the variables, or the status of the router. *)
Definition ServeHTTP (routes : list route) (now : Z) (rq : HttpRequest) (a : Api) : outcome (Api * reply) :=
  match h_Form rq, mux_Match ((λ rt, (String.append "/api" (rt_Path rt), rt_Queries rt)) <$> routes) (h_Path rq) (h_RawQuery rq) with
  | inl form, Some (i, vars) =>
      match routes !! i with
      | Some rt =>
          match rt_Handler rt a (mkRequest_ form vars (h_Body rq)) now with
          | Done (a, p) => Done (a, Page p)
          | Panic => Panic
          end
      | None => Done (a, Status 404)
      end
  | _, _ => Done (a, Status 404)
  end.

Definition serve (o : api_orders) (order : list string) (now : Z) (rq : HttpRequest) (s : Server) (a : Api) : Server * outcome (Api * reply) :=
  requestFilter order (ServeHTTP (InitRouter o) now) rq s a.
End router.

(** ** Pages *)

Section pages.
Context `{NodeApi, !SnapshotApi, !VerifierEnv, !OnlineMath, !ContractStore, !VoteApi, !ApiCrypto}.

Abbreviation handler := (Api → Request → Z → outcome (Api * ResponsePage)).

(** The parameters of a request for a page. *)
Definition page_form (count : Z) (token : option string) : gmap string (list string) :=
  match token with
  | None => {["limit"%string := [FormatUint count]]}
  | Some t => <["continuationtoken"%string := [t]]> {["limit"%string := [FormatUint count]]}
  end.

(** A client that follows the tokens: the results of the pages, at most [fuel]; [None]
    when there are more, or on an error. *)
Fixpoint browse (h : handler) (a : Api) (now count : Z) (fuel : nat) (token : option string) : option (list result) :=
  match fuel with
  | O => None
  | S fuel =>
      match h a (mkRequest_ (page_form count token) ∅ None) now with
      | Done (a, mkResponsePage _ res None None) => Some [res]
      | Done (a, mkResponsePage _ res (Some t) None) => cons res <$> browse h a now count fuel (Some t)
      | _ => None
      end
  end.

Lemma FormatUint_nonempty n : FormatUint n ≠ EmptyString.
Proof.
  unfold FormatUint. destruct (Z.to_N n) as [|p]; [done|]. cbn. pose proof (DecimalPos.Unsigned.to_uint_nonnil p).
  by destruct (Pos.to_uint p).
Qed.

Lemma read_page_form count i :
  (0 ≤ count ≤ 100)%Z → ReadPaginatorParams (page_form count (FormatUint <$> i)) = inl (count, FormatUint <$> i).
Proof.
  intros Hc. assert (Hl : form_get (page_form count (FormatUint <$> i)) "limit" = FormatUint count) by by destruct i.
  unfold ReadPaginatorParams, ReadUintUrlValue. rewrite Hl, ParseUint_FormatUint by lia.
  rewrite (proj2 (Z.ltb_ge _ _)) by lia. do 2 f_equal. destruct i as [i|]; [|done].
  cbn [fmap option_fmap option_map page_form]. unfold form_get. rewrite lookup_insert_eq.
  pose proof (FormatUint_nonempty i). by destruct (FormatUint i).
Qed.

Lemma page_from {A} (all : list A) count i :
  (0 ≤ default 0 i)%Z → (default 0 i ≤ Z.of_nat (length all) < 2 ^ 63)%Z → (0 ≤ count ≤ 100)%Z →
  let start := default 0%Z i in
  page all count (FormatUint <$> i)
  = Done (inl (take (Z.to_nat count) (drop (Z.to_nat start) all),
         FormatUint <$> (if (start + count <? Z.of_nat (length all))%Z then Some (start + count)%Z else None))).
Proof.
  intros Hi Hlen Hc start. unfold page.
  replace (match FormatUint <$> i with None => Some 0%Z | Some t => ParseUint t end) with (Some start)
    by (destruct i as [i|]; [cbn in *; by rewrite ParseUint_FormatUint by lia|done]).
  fold start in Hi, Hlen. rewrite page_slice by lia. replace (u64 (start + count)) with (start + count)%Z by (symmetry; apply uwrap_small; lia).
  by case_match.
Qed.

(** A handler that answers pages of a list. *)
Definition pages_handler {A B} (h : handler) (f : list B → result) (g : A → B) (list_of : Api → list A) : Prop :=
  ∀ a r now, h a r now = reads_page (λ a r, page_of_form f (r_Form r) (λ count token,
    match page (list_of a) count token with
    | Done (inl (res, next)) => Done (inl (g <$> res, next))
    | Done (inr err) => Done (inr err)
    | Panic => Panic
    end)) a r now.

Lemma browse_step {A B} h (f : list B → result) (g : A → B) list_of a now count fuel i :
  pages_handler h f g list_of → (0 ≤ count ≤ 100)%Z →
  (0 ≤ default 0 i ≤ Z.of_nat (length (list_of a)))%Z → (Z.of_nat (length (list_of a)) < 2 ^ 63)%Z →
  let p := f (g <$> take (Z.to_nat count) (drop (Z.to_nat (default 0%Z i)) (list_of a))) in
  let next := (default 0 i + count)%Z in
  browse h a now count (S fuel) (FormatUint <$> i)
  = if (next <? Z.of_nat (length (list_of a)))%Z then cons p <$> browse h a now count fuel (FormatUint <$> Some next) else Some [p].
Proof.
  intros Hh Hc Hi Hlen. cbn [browse]. rewrite Hh. unfold reads_page, page_of_form. cbn [r_Form]. rewrite read_page_form by lia.
  rewrite page_from by lia. cbn [write_page]. by destruct (_ <? _)%Z.
Qed.

Lemma browse_pages {A B} h (f : list B → result) (g : A → B) list_of a now count :
  pages_handler h f g list_of → (1 ≤ count ≤ 100)%Z → (Z.of_nat (length (list_of a)) < 2 ^ 63)%Z →
  ∀ fuel i, (0 ≤ default 0 i ≤ Z.of_nat (length (list_of a)))%Z →
  length (list_of a) ≤ fuel + Z.to_nat (default 0%Z i) →
  ∃ pages, browse h a now count (S fuel) (FormatUint <$> i) = Some (f <$> pages) ∧
    concat pages = g <$> drop (Z.to_nat (default 0%Z i)) (list_of a) ∧ Forall (λ p, (Z.of_nat (length p) ≤ count)%Z) pages.
Proof.
  intros Hh Hc Hlen fuel. induction fuel as [|fuel IH]; intros i Hi Hf; rewrite (browse_step h f g list_of) by (done || lia);
    set (start := default 0%Z i) in *; set (p := g <$> take (Z.to_nat count) (drop (Z.to_nat start) (list_of a)));
    assert (Hp : (Z.of_nat (length p) ≤ count)%Z) by (unfold p; rewrite length_fmap, length_take; lia);
    destruct (Z.ltb_spec (start + count) (Z.of_nat (length (list_of a)))) as [Hlt|Hge]; try lia.
  2: destruct (IH (Some (start + count)%Z)) as (pages & Hb & Hcat & Hall); [cbn; lia|cbn; lia|].
  2: exists (p :: pages); rewrite Hb; cbn [concat default] in *; rewrite Hcat; split_and!; [done| |by constructor].
  2: unfold p; rewrite <- fmap_app; f_equal; rewrite <- (take_drop (Z.to_nat count) (drop (Z.to_nat start) (list_of a))) at 2;
     rewrite drop_drop; do 2 f_equal; cbn; lia.
  all: exists [p]; split_and!; [done| |by constructor]; cbn; unfold p; by rewrite app_nil_r, take_ge by (rewrite length_drop; lia).
Qed.

Definition online_pages (a : Api) : list OnlineIdentity := convertOnlineIdentity <$> identities (onlineIdentities a).

(** [C26]  Whatever the size of the pages, from one to a hundred: following the tokens ends, and
    the pages are those of the whole list, in its order, once each. *)
Theorem listings_are_complete a now count :
  (1 ≤ count ≤ 100)%Z →
  (Z.of_nat (length (identities (onlineIdentities a))) < 2 ^ 63)%Z →
  (Z.of_nat (length (validators (onlineIdentities a))) < 2 ^ 63)%Z →
  (Z.of_nat (length (onlineValidators (onlineIdentities a))) < 2 ^ 63)%Z →
  (∃ pages, browse onlineIdentities_ a now count (S (length (identities (onlineIdentities a)))) None = Some (Identities <$> pages) ∧
     concat pages = online_pages a ∧ Forall (λ p, (Z.of_nat (length p) ≤ count)%Z) pages) ∧
  (∃ pages, browse validators_ a now count (S (length (validators (onlineIdentities a)))) None = Some (ValidatorList <$> pages) ∧
     concat pages = validators (onlineIdentities a) ∧ Forall (λ p, (Z.of_nat (length p) ≤ count)%Z) pages) ∧
  (∃ pages, browse onlineValidators_ a now count (S (length (onlineValidators (onlineIdentities a)))) None = Some (ValidatorList <$> pages) ∧
     concat pages = onlineValidators (onlineIdentities a) ∧ Forall (λ p, (Z.of_nat (length p) ≤ count)%Z) pages).
Proof.
  intros Hc Hl1 Hl2 Hl3.
  assert (Hv : pages_handler validators_ ValidatorList id (λ a, validators (onlineIdentities a)) ∧
               pages_handler onlineValidators_ ValidatorList id (λ a, onlineValidators (onlineIdentities a))).
  { split; intros a' r now'; unfold validators_, onlineValidators_, Validators, OnlineValidators, reads_page, page_of_form;
      destruct (ReadPaginatorParams _) as [[c t]|]; cbn; try done; destruct (page _ c t) as [[[l n]|]|]; by rewrite ?list_fmap_id. }
  destruct Hv as [Hv Ho]. split_and!.
  - by apply (browse_pages onlineIdentities_ Identities convertOnlineIdentity (λ a, identities (onlineIdentities a)) a now count)
      with (i := None); cbn; try lia.
  - destruct (browse_pages validators_ ValidatorList id (λ a, validators (onlineIdentities a)) a now count Hv Hc ltac:(done)
      (length (validators (onlineIdentities a))) None) as (pages & Hb & Hcat & Hall); [cbn; lia..|].
    rewrite list_fmap_id in Hcat. by exists pages.
  - destruct (browse_pages onlineValidators_ ValidatorList id (λ a, onlineValidators (onlineIdentities a)) a now count Ho Hc ltac:(done)
      (length (onlineValidators (onlineIdentities a))) None) as (pages & Hb & Hcat & Hall); [cbn; lia..|].
    rewrite list_fmap_id in Hcat. by exists pages.
Qed.

(** A limit of zero answers an empty page whose token is where it started. *)
Lemma zero_limit_stays {A} (all : list A) : all ≠ [] → page all 0 None = Done (inl ([], Some "0"%string)).
Proof.
  destruct all as [|x all]; [done|]. intros _. unfold page, page_at. change (u64 (0 + 0)) with 0%Z.
  by rewrite (proj2 (Z.ltb_lt 0 _)) by (cbn [length]; lia).
Qed.

(** A token near the largest number wraps around: the page is empty, and the next one is
    again near the beginning of the list. *)
Lemma wrapping_token_restarts {A} (all : list A) :
  1 < length all → page all 2 (Some "18446744073709551615"%string) = Done (inl ([], Some "1"%string)).
Proof.
  intros Hl. unfold page. change (ParseUint "18446744073709551615") with (Some (2 ^ 64 - 1)%Z). cbn [mbind].
  rewrite page_at_done by lia. change (u64 (2 ^ 64 - 1 + 2)) with 1%Z. rewrite (proj2 (Z.ltb_lt _ _)) by lia.
  by destruct all.
Qed.
End pages.

(** ** The names of parameters *)

Lemma lower_idemp c : lower (lower c) = lower c.
Proof. by destruct c as [[] [] [] [] [] [] [] []]; vm_compute. Qed.
Lemma ToLower_idemp s : ToLower (ToLower s) = ToLower s.
Proof. induction s as [|c s IH]; [done|]. cbn. by rewrite lower_idemp, IH. Qed.

(** A name with an upper-case letter is never written. *)
Lemma lower_names_other order form n : ToLower n ≠ n → lower_names order form !! n = form !! n.
Proof.
  intros Hn. unfold lower_names. revert form. induction order as [|m order IH]; intros form; [done|]. cbn [foldl]. rewrite IH.
  destruct (form !! m); [|done]. apply lookup_insert_ne. intros <-. by rewrite ToLower_idemp in Hn.
Qed.

Lemma lower_names_app order order' form : lower_names (order ++ order') form = lower_names order' (lower_names order form).
Proof. unfold lower_names. by rewrite foldl_app. Qed.

(** Names that are not one of a lower-case name leave it as it is. *)
Lemma lower_names_unrelated order form k :
  ToLower k = k → (∀ n, n ∈ order → ToLower n = k → n = k) → lower_names order form !! k = form !! k.
Proof.
  intros Hk. induction order as [|n order IH] using rev_ind; intros Hn; [done|]. rewrite lower_names_app. cbn.
  assert (Ho : lower_names order form !! k = form !! k) by (apply IH; intros m Hm; apply Hn, elem_of_app; by left).
  destruct (lower_names order form !! n) eqn:Hl; [|done].
  destruct (decide (ToLower n = k)) as [<-|Hne]; [|by rewrite lookup_insert_ne].
  assert (n = ToLower n) as Heq by (apply Hn; [apply elem_of_app; right; by left|done]).
  rewrite lookup_insert_eq. by rewrite <- Ho, <- Heq, Hl.
Qed.

Lemma lower_names_stays order form k v x :
  ToLower v ≠ v → form !! k = Some x → form !! v = Some x →
  (∀ n, n ∈ order → ToLower n = k → n = k ∨ n = v) → lower_names order form !! k = Some x.
Proof.
  intros Hv. unfold lower_names. revert form. induction order as [|n order IH]; intros form Hk Hx Hn; [done|]. cbn [foldl].
  apply IH; [..|intros m Hm; apply Hn; by right]; destruct (form !! n) as [y|] eqn:Hy; try done.
  - destruct (decide (ToLower n = k)) as [Heq|Hne]; [|by rewrite lookup_insert_ne].
    rewrite Heq, lookup_insert_eq. destruct (Hn n ltac:(by left) Heq) as [->| ->]; congruence.
  - rewrite lookup_insert_ne; [done|]. intros <-. by rewrite ToLower_idemp in Hv.
Qed.

(** A parameter may be written in any case: under its lower-case name the handlers find
    the values of the one name that was sent for it, whatever the order of the iteration
    over the form that the filter changes; and when the lower-case name was sent as well,
    it gives way to the other one. *)
Theorem parameter_names_ignore_case order form k v :
  (∀ n, n ∈ order ↔ n ∈ dom form) → ToLower k = k → ToLower v = k →
  v ∈ dom form → (∀ n, n ∈ dom form → ToLower n = k → n = k ∨ n = v) →
  lower_names order form !! k = form !! v.
Proof.
  intros Horder Hk Hv Hin Honly. destruct (decide (v = k)) as [->|Hvk].
  { apply lower_names_unrelated; [done|]. intros n Hn ?. by destruct (Honly n (proj1 (Horder n) Hn)). }
  apply elem_of_dom in Hin as Hx. destruct Hx as [x Hx]. rewrite Hx.
  assert (Hup : ToLower v ≠ v) by congruence.
  apply Horder in Hin. apply list_elem_of_split in Hin as (before & rest & ->).
  change (v :: rest) with ([v] ++ rest) in *. rewrite !lower_names_app.
  assert (Hx' : lower_names before form !! v = Some x) by by rewrite lower_names_other.
  apply (lower_names_stays rest _ k v).
  - done.
  - unfold lower_names at 1. cbn [foldl]. by rewrite Hx', Hv, lookup_insert_eq.
  - by rewrite lower_names_other.
  - intros n Hn. apply Honly, Horder. rewrite !elem_of_app. by right; right.
Qed.

(** Of two such names the one that the iteration comes to last is found. *)
Lemma two_spellings_race :
  let form : gmap string (list string) := {["Limit" := ["1"]; "LIMIT" := ["2"]]}%string in
  lower_names ["Limit"; "LIMIT"]%string form !! "limit"%string = Some ["2"%string] ∧
  lower_names ["LIMIT"; "Limit"]%string form !! "limit"%string = Some ["1"%string].
Proof. by vm_compute. Qed.

Lemma parameter_names_ignore_case_witness :
  let form : gmap string (list string) := {["Limit" := ["30"]; "continuationToken" := ["60"]]}%string in
  lower_names ["continuationToken"; "Limit"]%string form !! "limit"%string = Some ["30"%string] ∧
  lower_names ["continuationToken"; "Limit"]%string form !! "continuationtoken"%string = Some ["60"%string].
Proof.
  intros form. assert (Hdom : ∀ n, n ∈ ["continuationToken"; "Limit"]%string ↔ n ∈ dom form).
  { intros n. unfold form. rewrite dom_insert_L, dom_singleton_L, !elem_of_cons. set_solver. }
  split.
  - rewrite (parameter_names_ignore_case _ form "limit" "Limit" Hdom); [done..|set_solver|].
    intros n Hn. apply Hdom in Hn. rewrite !elem_of_cons in Hn. destruct Hn as [->|[->|Hn]]; [done|by right|by apply not_elem_of_nil in Hn].
  - rewrite (parameter_names_ignore_case _ form "continuationtoken" "continuationToken" Hdom); [done..|set_solver|].
    intros n Hn. apply Hdom in Hn. rewrite !elem_of_cons in Hn. destruct Hn as [->|[->|Hn]]; [by right|done|by apply not_elem_of_nil in Hn].
Defined.

(** ** Every request *)

(** Documented behaviour of the router: it answers one of the routes, and sets variables
    of the templates of that route only. *)
Class MuxLaws `{Mux} := {
  mux_vars routes path query i vars :
    mux_Match routes path query = Some (i, vars) →
    ∃ rt, routes !! i = Some rt ∧ ∀ name, name ∈ dom vars → name ∈ template_vars rt.1 ++ (rt.2 ≫= λ q, template_vars q.2)
}.

Section requests.
Context `{NodeApi, !SnapshotApi, !VerifierEnv, !OnlineMath, !ContractStore, !VoteApi, !ApiCrypto, !Mux}.
Context `{!ContractStoreLaws, !MuxLaws}.
Implicit Types (a : Api) (r : Request).

(** What a request may change: at most one state of a past epoch is added, which was not
    kept before, and at most one submission is added to the verifications. *)
Definition same_but_holders a a' : Prop :=
  a' = a <| stateHolder := stateHolder a' |> <| contractVerifier := contractVerifier a' |> ∧
  (statesByVersion (stateHolder a') = statesByVersion (stateHolder a) ∨
   ∃ epoch st, statesByVersion (stateHolder a) !! epoch = None ∧
     statesByVersion (stateHolder a') = <[epoch := st]> (statesByVersion (stateHolder a))) ∧
  (contractVerifier a' = contractVerifier a ∨
   ∃ address data fileName, contractVerifier a' = (Submit address data fileName (contractVerifier a)).1.1).

Definition answers (h : Api → Request → Z → outcome (Api * ResponsePage)) : Prop :=
  ∀ a r now, ∃ a' p, h a r now = Done (a', p) ∧ same_but_holders a a'.

Lemma same_but_holders_refl a : same_but_holders a a.
Proof. split_and!; [by destruct a|by left..]. Qed.

Lemma read_only_answers f : answers (read_only f).
Proof. intros a r now. unfold read_only. eexists _, _. split; [done|apply same_but_holders_refl]. Qed.

Lemma getState_keeps open epoch h :
  statesByVersion (getState open epoch h).1 = statesByVersion h ∨
  ∃ st, statesByVersion h !! epoch = None ∧ statesByVersion (getState open epoch h).1 = <[epoch := st]> (statesByVersion h).
Proof.
  unfold getState. destruct (statesByVersion h !! epoch) eqn:Hn; [by left|].
  destruct (open epoch); [|by left]. destruct (negb _); [by left|]. destruct (readTreeFrom _ _ _) as [db [err|]]; [by left|].
  right. by eexists.
Qed.

Lemma reads_page_answers f : (∀ a r, ∃ p, f a r = Done p) → answers (reads_page f).
Proof.
  intros Hf a r now. unfold reads_page. destruct (Hf a r) as [p ->]. eexists _, _. split; [done|apply same_but_holders_refl].
Qed.

Lemma page_of_form_done {A} (f : list A → result) form list_page :
  (∀ count token, ∃ res, list_page count token = Done res) → ∃ p, page_of_form f form list_page = Done p.
Proof.
  intros Hl. unfold page_of_form. destruct (ReadPaginatorParams form) as [[count token]|]; [|by eexists].
  destruct (Hl count token) as [[[l next]|err] ->]; by eexists.
Qed.

(** The pages of lists: no index is out of the list, also for a start that was sent. *)
Lemma online_pages_answer : answers onlineIdentities_ ∧ answers onlineIdentitiesOld ∧ answers validators_ ∧ answers onlineValidators_.
Proof.
  split_and!; apply reads_page_answers; intros a r.
  - apply page_of_form_done. intros count token. unfold GetOnlineIdentities.
    destruct (page_done (identities (onlineIdentities a)) count token) as [[[l next]|err] ->]; by eexists.
  - unfold ReadOldPaginatorParams, ReadUint. destruct (ParseUint (default _ (r_Vars r !! "skip"%string))) as [i|] eqn:Hi; [|by eexists].
    apply ParseUint_range in Hi. destruct (ParseUint _) as [count|]; [|by eexists]. destruct (_ <? _)%Z; [by eexists|].
    unfold GetOnlineIdentitiesOld. rewrite page_at_done by lia. by eexists.
  - apply page_of_form_done. intros count token. apply page_done.
  - apply page_of_form_done. intros count token. apply page_done.
Qed.

Lemma identityWithProof_answers : answers identityWithProof.
Proof.
  intros a r now. unfold identityWithProof. destruct (ReadUint _ _) as [epoch|err];
    [|eexists _, _; split; [done|apply same_but_holders_refl]].
  unfold Api.IdentityWithProof, Snapshots.IdentityWithProof.
  pose proof (getState_keeps (snapshot_files a) epoch (stateHolder a)) as Hk.
  destruct (getState _ _ _) as [h [st|err]]; cbn in Hk; repeat case_match; simplify_eq;
    eexists _, _; (split; [done|split_and!; [by destruct a| |by left]; cbn;
      destruct Hk as [Hk|(st' & Hn & Hk)]; [by left|right; by exists epoch, st']]).
Qed.

Lemma verifyContract_answers : answers verifyContract.
Proof.
  intros a r now. unfold verifyContract. destruct (r_Body r) as [data|];
    [|eexists _, _; split; [done|apply same_but_holders_refl]].
  destruct (VerifyContract _ _ _ _) as [[a' usrErr] err] eqn:Hv. eexists _, _. split; [done|].
  unfold VerifyContract in Hv. destruct (Submit _ _ _ _) as [[db ?] ?] eqn:Hs. simplify_eq.
  split_and!; [by destruct a|by left|]. right. eexists _, _, _. cbn. by rewrite Hs.
Qed.

Lemma multisig_answers o : answers (multisig_ o).
Proof.
  intros a r now. unfold multisig_, Multisig. destruct (headState a) as [st|].
  - rewrite GetMultisigState_done. eexists _, _. split; [done|apply same_but_holders_refl].
  - cbn. eexists _, _. split; [done|apply same_but_holders_refl].
Qed.

Lemma routes_answer o : Forall (λ rt, answers (rt_Handler rt)) (InitRouter o).
Proof.
  unfold InitRouter. repeat (apply list.Forall_cons; split; cbn [rt_Handler];
    [first [apply identityWithProof_answers|apply verifyContract_answers|apply multisig_answers|apply read_only_answers|apply online_pages_answer]|]).
  apply list.Forall_nil. done.
Qed.

(** A request with a form is answered, by the handler of the route when there is one. *)
Lemma ServeHTTP_answers o now rq form a :
  h_Form rq = inl form →
  ∃ a' rep, ServeHTTP (InitRouter o) now rq a = Done (a', rep) ∧ same_but_holders a a' ∧
    match mux_Match ((λ rt, (String.append "/api" (rt_Path rt), rt_Queries rt)) <$> InitRouter o) (h_Path rq) (h_RawQuery rq) with
    | Some (i, _) => is_Some (InitRouter o !! i) → ∃ p, rep = Page p
    | None => rep = Status 404 ∧ a' = a
    end.
Proof.
  intros Hf. unfold ServeHTTP. rewrite Hf.
  destruct (mux_Match _ _ _) as [[i vars]|]; [|eexists _, _; split; [done|split; [apply same_but_holders_refl|done]]].
  destruct (InitRouter o !! i) as [rt|] eqn:Hi.
  - destruct (proj1 (list.Forall_lookup _ _) (routes_answer o) i rt Hi a (mkRequest_ form vars (h_Body rq)) now) as (a' & p & -> & Hs).
    exists a', (Page p). split_and!; [done..|by exists p].
  - eexists _, _. split_and!; [done|apply same_but_holders_refl|by intros []].
Qed.

(** The reply to a request: a status when its form cannot be read or no route matches,
    and the page of a handler otherwise. *)
Definition replied (routes : list route) (rq : HttpRequest) a (path : string) a' (rep : reply) : Prop :=
  match h_Form rq with
  | inr TooLarge => rep = Status 413 ∧ a' = a
  | inr Malformed => rep = Status 400 ∧ a' = a
  | inl _ =>
      match mux_Match ((λ rt, (String.append "/api" (rt_Path rt), rt_Queries rt)) <$> routes) path (h_RawQuery rq) with
      | Some (i, _) => ∃ p, rep = Page p
      | None => rep = Status 404 ∧ a' = a
      end
  end.


(** The pending deployments of oracle votings are never those of an author that a request
    names: the route has no variable of that name, and the handler reads its author from
    the variables, so that it always answers those of the address of the empty text. *)
Theorem deploys_ignore_the_author o now rq a form vars :
  h_Form rq = inl form →
  mux_Match ((λ rt, (String.append "/api" (rt_Path rt), rt_Queries rt)) <$> InitRouter o) (h_Path rq) (h_RawQuery rq) = Some (18, vars) →
  ServeHTTP (InitRouter o) now rq a
  = Done (a, Page (mkResponsePage _ (Deploys (GetOracleVotingContractDeploys (ao_deploys o) (HexToAddress "") (contractsMemPool a))) None None)).
Proof.
  intros Hform Hm. unfold ServeHTTP. rewrite Hform, Hm. cbn. unfold memPoolOracleVotingContractDeploys, read_only, var.
  cbn [r_Vars]. destruct (vars !! "author"%string) as [v|] eqn:Hv; [|done]. exfalso.
  apply mux_vars in Hm as (rt & Hrt & Hnames). rewrite list_lookup_fmap in Hrt. cbn in Hrt. injection Hrt as <-.
  specialize (Hnames "author"%string ltac:(apply elem_of_dom; eauto)). vm_compute in Hnames. by apply not_elem_of_nil in Hnames.
Qed.
End requests.

(** ** An API with three identities *)

#[export] Instance SampleCrypto : ApiCrypto := {| Ecrecover _ signature := inl signature |}.

(** A router that knows the templates without variables. *)
#[export] Instance SampleMux : Mux := {|
  mux_Match routes path _ := (λ ix, (ix.1, ∅)) <$> list_find (λ rt, rt.1 = path) routes
|}.
#[export] Instance SampleMuxLaws : MuxLaws.
Proof.
  split. intros routes path query i vars Hm. cbn in Hm. destruct (list_find _ routes) as [[j rt]|] eqn:Hf; [|done].
  cbn in Hm. injection Hm as <- <-. apply list_find_Some in Hf as (Hj & _ & _). exists rt. split; [done|].
  intros name Hn. rewrite dom_empty in Hn. by apply elem_of_empty in Hn.
Qed.

Definition sample_cached (address : string) : CachedIdentity := mkCachedIdentity _ address None 0%Z 0 true None.
Definition sample_validator (address : string) : Validator := mkValidator _ address 1 true None 0%Z 0 false.
Definition sample_api : Api :=
  mkApi _ _ _
    (NewCurrentOnlineIdentitiesCache <| identities := [sample_cached "0x1"; sample_cached "0x2"; sample_cached "0x3"] |>
       <| validators := [sample_validator "0x1"; sample_validator "0x3"] |>)
    [] NewMemPool NewContracts NewHolder (λ e, if decide (e = 8%Z) then Some sample_chunks else None) (Some sample_state) sample_verifications.
Definition sample_orders : api_orders := mkApiOrders _ map_to_list map_to_list map_to_list map_to_list.

Lemma listings_are_complete_witness :
  ∃ pages, browse onlineIdentities_ sample_api 0 2 4 None = Some (Identities <$> pages) ∧
    concat pages = convertOnlineIdentity <$> [sample_cached "0x1"; sample_cached "0x2"; sample_cached "0x3"] ∧
    Forall (λ p, (Z.of_nat (length p) ≤ 2)%Z) pages.
Proof.
  refine (proj1 (listings_are_complete sample_api 0 2 _ _ _ _)); [lia|by vm_compute..].
Defined.

Definition sample_deploys_request : HttpRequest :=
  mkHttpRequest "/api/mempool/oraclevotingcontractdeploys" "author=0x7" (inl {["author"%string := ["0x7"%string]]}) None.

Lemma deploys_ignore_the_author_witness :
  ServeHTTP (InitRouter sample_orders) 0 sample_deploys_request sample_api
  = Done (sample_api, Page (mkResponsePage _ (Deploys (GetOracleVotingContractDeploys map_to_list (HexToAddress "") (contractsMemPool sample_api))) None None)).
Proof.
  apply (deploys_ignore_the_author sample_orders 0 sample_deploys_request sample_api {["author"%string := ["0x7"%string]]} ∅);
    [done|by vm_compute].
Defined.

