(* ===== verification/FlipSizes.v ===== *)
(** * The sizes of the flips

    core/flip/flip_loader.go fetches the flips that a block submits, to save their sizes,
    and goes back from time to time to the flips of the epoch that have none.  Two
    channels bring the headers of the flips to one goroutine: those of the blocks, with a
    buffer, which it takes first, and those that another goroutine tries again, one by
    one. *)

From S2P Require Import Prelude Node.

(** The network of flips and the cids as texts, and the table of flips: the epoch of each
    with its size, if it has one. *)
Class FlipNetwork `{NodeApi} := {
  (** the lengths of the two parts of a flip *)
  flip_parts : bytes → Z * Z;
  (** [cid.Parse] of a text, and [Bytes] *)
  cid_Parse_text : string → option Cid;
  cid_Bytes : Cid → bytes;
  FlipDb : Type;
  flips : FlipDb → gmap string (Z * option Z);
  GetEpochFlipsWithoutSize : Z → Z → FlipDb → list string;
  SaveFlipSize : string → Z → FlipDb → FlipDb
}.

(** Go: core/flip/flip_loader.go flipHeader *)
Record flipHeader := mkFlipHeader { cidBytes : bytes; fh_txHash : Hash }.
(** Go: core/flip/flip_loader.go flipBody

    The flip by the lengths of its parts. *)
Record flipBody := mkFlipBody { cidStr : string; PublicPart : Z; PrivatePart : Z }.

(** Go: core/flip/flip_loader.go loaderImpl

    [headersToRetry] is what the goroutine of [loadLoop] has still to hand over, and
    [checked] is whether [processLoop] is at its second [select]. *)
Record loaderImpl `{FlipNetwork} := mkLoader {
  headers : list flipHeader; headersToRetry : list flipHeader; checked : bool; flip_db : FlipDb
}.

(** Go: core/flip/flip_loader.go requestRetryInterval:13-16 *)
Definition flipsToRetry : Z := 50.
(** Go: core/flip/flip_loader.go NewLoader:33-33 *)
Definition headers_size : nat := 10.

Section loader.
Context `{FlipNetwork}.

(** Go: core/flip/flip_loader.go SubmitToLoad

    [None]: the channel is full and the caller waits. *)
Definition SubmitToLoad (cidBytes : bytes) (txHash : Hash) (l : loaderImpl) : option loaderImpl :=
  if length (headers l) <? headers_size then Some (l <| headers ::= λ q, q ++ [mkFlipHeader cidBytes txHash] |>) else None.

(** Go: core/flip/flip_loader.go load

    [found]: the network answers; [None]: an error. *)
Definition load (found : bool) (header : flipHeader) : option flipBody :=
  match cid_Parse (cidBytes header) with
  | None => None
  | Some flipCid =>
      if found then let (pub, priv) := flip_parts (cidBytes header) in Some (mkFlipBody (cid_String flipCid) pub priv) else None
  end.

(** Go: core/flip/flip_loader.go processHeader

    [ok]: the database saves. *)
Definition processHeader (found ok : bool) (header : flipHeader) (l : loaderImpl) : loaderImpl :=
  match load found header with
  | None => l
  | Some body => if ok then l <| flip_db ::= SaveFlipSize (cidStr body) (PublicPart body + PrivatePart body) |> else l
  end.

(** Go: core/flip/flip_loader.go processLoop

    One of its [select]s: at the first a header of the blocks is taken if there is one; at
    the second either kind, [retry] being the choice; [None]: the goroutine waits. *)
Definition processLoop (retry found ok : bool) (l : loaderImpl) : option loaderImpl :=
  if checked l then
    if retry then
      match headersToRetry l with
      | [] => None
      | header :: rest => Some (processHeader found ok header (l <| headersToRetry := rest |> <| checked := false |>))
      end
    else
      match headers l with
      | [] => None
      | header :: rest => Some (processHeader found ok header (l <| headers := rest |> <| checked := false |>))
      end
  else
    match headers l with
    | [] => Some (l <| checked := true |>)
    | header :: rest => Some (processHeader found ok header (l <| headers := rest |>))
    end.

Definition retry_header (flipCidStr : string) : flipHeader :=
  mkFlipHeader (cid_Bytes (default cid_Undef (cid_Parse_text flipCidStr))) (mkHash 0).

(** Go: core/flip/flip_loader.go loadLoop

    A turn after the pause: the flips of the epoch without a size are to be handed over,
    when retrying is enabled and the database answers. *)
Definition loadLoop (enabledRetry ok : bool) (epoch : Z) (l : loaderImpl) : option loaderImpl :=
  match headersToRetry l with
  | _ :: _ => None
  | [] =>
      if negb enabledRetry then Some l
      else if negb ok then Some l
      else Some (l <| headersToRetry := retry_header <$> GetEpochFlipsWithoutSize epoch flipsToRetry (flip_db l) |>)
  end.

Inductive flip_action :=
  | Submit (cidBytes : bytes) (txHash : Hash)
  | Process (retry found ok : bool)
  | LoadTurn (enabledRetry ok : bool) (epoch : Z).

Definition flip_act (l : loaderImpl) (a : flip_action) : option loaderImpl :=
  match a with
  | Submit cidBytes txHash => SubmitToLoad cidBytes txHash l
  | Process retry found ok => processLoop retry found ok l
  | LoadTurn enabledRetry ok epoch => loadLoop enabledRetry ok epoch l
  end.
Fixpoint flip_run (l : loaderImpl) (actions : list flip_action) : option loaderImpl :=
  match actions with [] => Some l | a :: actions => l ← flip_act l a; flip_run l actions end.
End loader.

(** ** Sizes *)

(** Documented behaviour: the query finds as many flips of the epoch without a size as
    there are, up to the limit; the update sets the size of the flip of the cid. *)
Class FlipLaws `{FlipNetwork} := {
  query_found e limit db s :
    s ∈ GetEpochFlipsWithoutSize e limit db → flips db !! s = Some (e, None);
  query_NoDup e limit db : NoDup (GetEpochFlipsWithoutSize e limit db);
  query_length e limit db :
    (0 ≤ limit)%Z →
    Z.of_nat (length (GetEpochFlipsWithoutSize e limit db))
    = Z.min limit (Z.of_nat (size (filter (λ kv, kv.2 = (e, None)) (flips db))));
  update_flips s n db : flips (SaveFlipSize s n db) = alter (λ f, (f.1, Some n)) s (flips db)
}.

Section laws.
Context `{FlipLaws}.
Implicit Types (l : loaderImpl) (s : string).

(** The text of a cid, which its bytes determine. *)
Definition text_of_a_cid s : Prop := ∃ c, cid_Parse_text s = Some c ∧ cid_Parse (cid_Bytes c) = Some c ∧ cid_String c = s.

Definition missing (e : Z) l : gmap string (Z * option Z) := filter (λ kv, kv.2 = (e, None)) (flips (flip_db l)).

(** A size is right when it is that of a flip with the cid. *)
Definition right_size s (n : Z) : Prop :=
  ∃ b c, cid_Parse b = Some c ∧ cid_String c = s ∧ n = ((flip_parts b).1 + (flip_parts b).2)%Z.

(** What a header may do to the table. *)
Lemma processHeader_db found ok h l :
  let l' := processHeader found ok h l in
  headers l' = headers l ∧ headersToRetry l' = headersToRetry l ∧ checked l' = checked l ∧
  (flip_db l' = flip_db l ∨
   ∃ c, cid_Parse (cidBytes h) = Some c ∧
     flip_db l' = SaveFlipSize (cid_String c) ((flip_parts (cidBytes h)).1 + (flip_parts (cidBytes h)).2) (flip_db l)).
Proof.
  unfold processHeader, load. destruct (cid_Parse (cidBytes h)) as [c|] eqn:Hc; [|by auto].
  destruct found; [|by auto]. destruct (flip_parts (cidBytes h)) as [pub priv] eqn:Hp. destruct ok; [|by auto].
  cbn. split_and!; [done..|]. right. by exists c.
Qed.

Lemma flip_act_db a l l' :
  flip_act l a = Some l' →
  flip_db l' = flip_db l ∨
  ∃ b c, cid_Parse b = Some c ∧ flip_db l' = SaveFlipSize (cid_String c) ((flip_parts b).1 + (flip_parts b).2) (flip_db l).
Proof.
  destruct a as [b tx|retry found ok|en ok e]; cbn.
  - unfold SubmitToLoad. case_match; [|done]. intros [= <-]. by left.
  - unfold processLoop. repeat case_match; intros [= <-]; try by left.
    all: match goal with |- context [processHeader ?f ?o ?h ?l] => destruct (processHeader_db f o h l) as (_ & _ & _ & [->|(c & Hc & ->)]) end;
      [by left|right; eauto].
  - unfold loadLoop. repeat case_match; intros [= <-]; by left.
Qed.

(** A step keeps the epochs, the sizes that are right, and what has a size. *)
Lemma flip_act_table a l l' s :
  flip_act l a = Some l' →
  flips (flip_db l') !! s = flips (flip_db l) !! s ∨
  ∃ e o n, flips (flip_db l) !! s = Some (e, o) ∧ flips (flip_db l') !! s = Some (e, Some n) ∧ right_size s n.
Proof.
  intros Ha. destruct (flip_act_db a l l' Ha) as [->|(b & c & Hc & ->)]; [by left|]. rewrite update_flips.
  destruct (decide (s = cid_String c)) as [->|Hne]; [|left; by rewrite lookup_alter_ne].
  rewrite lookup_alter_eq. destruct (flips (flip_db l) !! cid_String c) as [[e o]|]; [right|by left].
  exists e, o, ((flip_parts b).1 + (flip_parts b).2)%Z. split_and!; [done..|]. by exists b, c.
Qed.

Lemma flip_run_invariant (P : loaderImpl → Prop) l l' actions :
  (∀ a l l', a ∈ actions → flip_act l a = Some l' → P l → P l') → flip_run l actions = Some l' → P l → P l'.
Proof.
  revert l. induction actions as [|a actions IH]; intros l Hl Hrun Hp; cbn in Hrun; [by simplify_eq|].
  destruct (flip_act l a) as [l1|] eqn:Ha; [|done]. cbn in Hrun. apply (IH l1); [|done|].
  - intros a' u u' Ha'. apply Hl. by right.
  - apply (Hl a l l1); [by left|done|done].
Qed.

(** The sizes that are saved are those of the flips, whatever the order in which the
    headers come and are handled, and whatever fails. *)
Theorem saved_sizes_are_right l l' actions :
  flip_run l actions = Some l' →
  (∀ s e n, flips (flip_db l) !! s = Some (e, Some n) → right_size s n) →
  ∀ s e n, flips (flip_db l') !! s = Some (e, Some n) → right_size s n.
Proof.
  intros Hrun. apply (flip_run_invariant (λ l, ∀ s e n, flips (flip_db l) !! s = Some (e, Some n) → right_size s n) l l' actions); [|done].
  intros a u u' _ Ha Hu s e n Hs. destruct (flip_act_table a u u' s Ha) as [Heq|(e' & o & m & _ & Hm & Hr)].
  - apply (Hu s e). by rewrite <- Heq.
  - rewrite Hm in Hs. by simplify_eq.
Qed.

(** ** A round of retries *)

Definition succeeds (a : flip_action) : Prop := match a with Process _ found ok => found = true ∧ ok = true | _ => False end.

(** The number of [select]s until nothing is left to handle, at most. *)
Definition selects_left l : nat :=
  2 * (length (headers l) + length (headersToRetry l)) + (if checked l then 0 else 1).

Lemma select_decreases a l l' :
  succeeds a → flip_act l a = Some l' → selects_left l' < selects_left l ∧ ∃ n, headersToRetry l' = drop n (headersToRetry l).
Proof.
  destruct a as [|retry found ok|]; try done. intros [-> ->]. cbn. unfold processLoop, selects_left.
  destruct (checked l) eqn:Hc; [destruct retry|];
    [destruct (headersToRetry l) as [|h rest] eqn:Hl|destruct (headers l) as [|h rest] eqn:Hl|destruct (headers l) as [|h rest] eqn:Hl];
    try done; intros [= <-]; rewrite ?Hl.
  all: try match goal with |- context [processHeader ?f ?o ?h ?l] => destruct (processHeader_db f o h l) as (-> & -> & -> & _) end; cbn.
  - split; [lia|]. by exists 1.
  - split; [lia|]. by exists 0.
  - split; [cbn; lia|]. by exists 0.
  - rewrite Hc. split; [lia|]. by exists 0.
Qed.

Lemma select_enabled l : headersToRetry l ≠ [] → ∃ retry, is_Some (flip_act l (Process retry true true)).
Proof.
  intros Hl. exists true. cbn. unfold processLoop. destruct (checked l); [|by destruct (headers l); eauto].
  destruct (headersToRetry l); [done|by eauto].
Qed.

(** Handling the header of a flip of the table gives it a size, and nothing takes one away. *)
Lemma missing_mono a l l' e s : flip_act l a = Some l' → missing e l !! s = None → missing e l' !! s = None.
Proof.
  unfold missing. rewrite !map_lookup_filter_None. cbn. intros Ha Hs.
  destruct (flip_act_table a l l' s Ha) as [->|(e' & o & n & _ & -> & _)]; [done|]. right. by intros x [= <-] [=].
Qed.

Lemma table_mono a l l' s : flip_act l a = Some l' → is_Some (flips (flip_db l) !! s) → is_Some (flips (flip_db l') !! s).
Proof. intros Ha Hs. destruct (flip_act_table a l l' s Ha) as [->|(e' & o & n & _ & -> & _)]; [done|eauto]. Qed.

Lemma retried_header_gets_size e l s :
  text_of_a_cid s → is_Some (flips (flip_db l) !! s) → missing e (processHeader true true (retry_header s) l) !! s = None.
Proof.
  intros (c & Ht & Hp & Hs) [f Hf].
  unfold processHeader, load, retry_header. cbn [cidBytes]. rewrite Ht. change (default cid_Undef (Some c)) with c. rewrite Hp.
  destruct (flip_parts (cid_Bytes c)) as [pub priv]. unfold missing. cbn. rewrite update_flips, Hs.
  apply map_lookup_filter_None. right. rewrite lookup_alter_eq, Hf. cbn. by intros x [= <-] [=].
Qed.

Lemma select_handles a l l' e s :
  succeeds a → flip_act l a = Some l' → text_of_a_cid s → is_Some (flips (flip_db l) !! s) →
  retry_header s ∈ headersToRetry l → retry_header s ∈ headersToRetry l' ∨ missing e l' !! s = None.
Proof.
  destruct a as [|retry found ok|]; try done. intros [-> ->] Ha Hcid Hs Hin. cbn in Ha. unfold processLoop in Ha.
  destruct (checked l); [destruct retry|].
  - destruct (headersToRetry l) as [|h rest] eqn:Hl; [done|]. injection Ha as <-.
    apply elem_of_cons in Hin as [<-|Hin]; [by right; apply retried_header_gets_size|left].
    by match goal with |- context [processHeader ?f ?o ?h ?l] => destruct (processHeader_db f o h l) as (_ & -> & _) end.
  - destruct (headers l) as [|h rest]; [done|]. injection Ha as <-. left.
    by match goal with |- context [processHeader ?f ?o ?h ?l] => destruct (processHeader_db f o h l) as (_ & -> & _) end.
  - destruct (headers l) as [|h rest]; injection Ha as <-; left; [done|].
    by match goal with |- context [processHeader ?f ?o ?h ?l] => destruct (processHeader_db f o h l) as (_ & -> & _) end.
Qed.

Lemma retried_invariant e l l' actions (cids : list string) :
  Forall succeeds actions → flip_run l actions = Some l' →
  (∀ s, s ∈ cids → text_of_a_cid s ∧ is_Some (flips (flip_db l) !! s) ∧ (retry_header s ∈ headersToRetry l ∨ missing e l !! s = None)) →
  (∀ s, s ∈ cids → text_of_a_cid s ∧ is_Some (flips (flip_db l') !! s) ∧ (retry_header s ∈ headersToRetry l' ∨ missing e l' !! s = None)) ∧
  dom (missing e l') ⊆ dom (missing e l) ∧ length actions + selects_left l' ≤ selects_left l.
Proof.
  intros Hs Hrun. revert l Hrun. induction Hs as [|a actions Ha Hs IH]; intros l Hrun Hl; cbn in Hrun; [by simplify_eq|].
  destruct (flip_act l a) as [l1|] eqn:Hact; [|done]. cbn in Hrun.
  destruct (select_decreases a l l1 Ha Hact) as [Hlt _].
  destruct (IH l1 Hrun) as (Hl' & Hsub & Hlen).
  - intros s Hin. destruct (Hl s Hin) as (Hcid & Ht & Hc). split_and!; [done|by eapply table_mono|].
    destruct Hc as [Hc|Hc]; [by eapply select_handles|right; by eapply missing_mono].
  - split_and!; [done| |cbn [length]; lia]. intros s Hin. apply Hsub in Hin. apply elem_of_dom. apply elem_of_dom in Hin.
    destruct (missing e l !! s) eqn:Hm; [eauto|]. apply (missing_mono a l l1 e s Hact) in Hm. rewrite Hm in Hin. by apply is_Some_None in Hin.
Qed.

(** When the network and the database answer, a turn of the retrying goroutine makes
    fifty flips of the epoch get their sizes, or all that have none: the goroutine that
    handles them is done after a bounded number of [select]s, before which one is
    enabled. *)
Theorem missing_sizes_are_loaded e l l1 l2 actions :
  (∀ s f, flips (flip_db l) !! s = Some f → text_of_a_cid s) →
  loadLoop true true e l = Some l1 → Forall succeeds actions → flip_run l1 actions = Some l2 →
  length actions ≤ selects_left l1 ∧
  ((∃ retry, is_Some (flip_act l2 (Process retry true true)) ∧ headersToRetry l2 ≠ []) ∨
   Z.of_nat (size (missing e l2)) ≤ Z.max 0 (Z.of_nat (size (missing e l)) - flipsToRetry))%Z.
Proof.
  intros Hcids Hload Hs Hrun. unfold loadLoop in Hload. destruct (headersToRetry l) eqn:Hl; [|done]. cbn in Hload. injection Hload as <-.
  set (cids := GetEpochFlipsWithoutSize e flipsToRetry (flip_db l)) in *. match type of Hrun with flip_run ?x _ = _ => set (l1 := x) in * end.
  destruct (retried_invariant e l1 l2 actions cids Hs Hrun) as (Hc & Hsub & Hlen).
  { intros s Hin. apply query_found in Hin as Hf. split_and!; [by eapply Hcids|by eexists|left]. by apply list_elem_of_fmap_2. }
  split; [lia|]. destruct (decide (headersToRetry l2 = [])) as [Hnil|Hne]; [right|left].
  2: { destruct (select_enabled l2 Hne) as [retry Hr]. by exists retry. }
  assert (Hgone : dom (missing e l2) ⊆ dom (missing e l) ∖ list_to_set cids).
  { intros s Hin. apply elem_of_difference. split; [by apply Hsub|]. rewrite elem_of_list_to_set. intros Hs'.
    destruct (Hc s Hs') as (_ & _ & [Hr|Hm]); [rewrite Hnil in Hr; by apply not_elem_of_nil in Hr|].
    apply elem_of_dom in Hin. rewrite Hm in Hin. by apply is_Some_None in Hin. }
  apply subseteq_size in Hgone. rewrite size_difference, size_list_to_set, !size_dom in Hgone.
  - pose proof (query_length e flipsToRetry (flip_db l) ltac:(done)) as Hq. fold cids in Hq. unfold missing at 2. unfold missing at 2 in Hgone. lia.
  - apply query_NoDup.
  - intros s Hin. apply elem_of_list_to_set, query_found in Hin. apply elem_of_dom. exists (e, None). unfold missing. by apply map_lookup_filter_Some.
Qed.
End laws.

(** ** A table of three flips, two of which have no size *)

Definition sample_cid_text (s : string) : option bytes :=
  if decide (s ≠ EmptyString ∧ sample_digits (String.length s) = s) then Some [Z.of_nat (String.length s)] else None.

#[export] Instance SampleNetwork : FlipNetwork := {|
  flip_parts b := (sumZ id b, 10)%Z;
  cid_Parse_text := sample_cid_text;
  cid_Bytes c := c;
  FlipDb := gmap string (Z * option Z);
  flips db := db;
  GetEpochFlipsWithoutSize e limit db := take (Z.to_nat limit) (map_to_list (filter (λ kv, kv.2 = (e, None)) db)).*1;
  SaveFlipSize s n db := alter (λ f, (f.1, Some n)) s db
|}.

#[export] Instance SampleFlipLaws : FlipLaws.
Proof.
  split; cbn.
  - intros e limit db s Hs. eapply elem_of_sublist in Hs; [|apply sublist_take].
    apply list_elem_of_fmap in Hs as ([s' f] & -> & Hf). apply elem_of_map_to_list, map_lookup_filter_Some in Hf as [Hf Heq].
    cbn in *. by rewrite Hf, Heq.
  - intros e limit db. eapply sublist_NoDup; [|apply sublist_take]. apply NoDup_fst_map_to_list.
  - intros e limit db Hl. rewrite length_take, length_fmap, length_map_to_list. lia.
  - done.
Qed.

Definition sample_loader : loaderImpl :=
  mkLoader _ _ [mkFlipHeader [3]%Z (mkHash 1)] [] false
    ({["1" := (8, None); "11" := (8, None); "111" := (8, Some 13)]} : gmap string (Z * option Z))%Z%string.

Definition sample_flip_actions : list flip_action :=
  [Process false true true; Submit [2]%Z (mkHash 2); Process false false true; LoadTurn true true 8;
   Process false true true; Process true true true; Process false true true; Process true true true].

Lemma saved_sizes_are_right_witness :
  let l := default sample_loader (flip_run sample_loader sample_flip_actions) in
  flips (flip_db l) !! "11"%string = Some (8, Some 12)%Z ∧
  ∀ s e n, flips (flip_db l) !! s = Some (e, Some n) → right_size s n.
Proof.
  intros l. split; [by vm_compute|]. apply (saved_sizes_are_right sample_loader l sample_flip_actions); [by vm_compute|].
  intros s e n Hs. unfold sample_loader in Hs. cbn in Hs.
  apply lookup_insert_Some in Hs as [[_ [=]]|[_ Hs]]. apply lookup_insert_Some in Hs as [[_ [=]]|[_ Hs]].
  apply lookup_singleton_Some in Hs as [<- [= _ <-]]. by exists [3]%Z, [3]%Z.
Defined.

Lemma missing_sizes_are_loaded_witness :
  let l1 := default sample_loader (loadLoop true true 8 sample_loader) in
  let actions := [Process false true true; Process false true true; Process true true true; Process false true true; Process true true true] in
  let l2 := default l1 (flip_run l1 actions) in
  size (missing 8 l2) = 0.
Proof.
  intros l1 actions l2.
  destruct (missing_sizes_are_loaded 8 sample_loader l1 l2 actions) as [_ [(retry & _ & Hr)|Hsize]].
  - intros s f Hs. unfold sample_loader in Hs. cbn in Hs.
    apply lookup_insert_Some in Hs as [[<- _]|[_ Hs]]; [by exists [1]%Z|].
    apply lookup_insert_Some in Hs as [[<- _]|[_ Hs]]; [by exists [2]%Z|].
    apply lookup_singleton_Some in Hs as [<- _]. by exists [3]%Z.
  - by vm_compute.
  - by repeat constructor.
  - by vm_compute.
  - exfalso. apply Hr. by vm_compute.
  - assert (size (missing 8 sample_loader) = 2) as H2 by by vm_compute. rewrite H2 in Hsize. unfold flipsToRetry in Hsize. lia.
Defined.
