(* ===== verification/Program.v ===== *)
(** * The parts together

    main.go connects the events of the node and of the collector to the two pools of
    pending transactions, and the API answers from them while the goroutine of the
    contracts' pool works through its channel.  The buses call their subscribers. *)

From S2P Require Import Prelude Node Tokens ContractTx Transactions ContractTypes TxPool ContractsPool Upgrades Verifier Online Multisig VoteTracker Snapshots Api Server.

(** Go: core/stats/events.go RemovedMemPoolTxEvent *)
Record RemovedMemPoolTxEvent := mkRemovedMemPoolTxEvent { rm_Tx : Tx }.
(** [events.NewTxEvent] of the node *)
Record NewTxEvent := mkNewTxEvent { ne_Tx : Tx; ne_Deferred : bool }.

Section program.
Context `{NodeApi, !SnapshotApi, !VerifierEnv, !OnlineMath, !ContractStore, !VoteApi, !ApiCrypto, !Mux}.
Context `{TokenContractHolder, !PoolNode}.
Implicit Types (a : Api) (tx : Tx).

(** Go: main.go initIndexer:207-212

    An error, of a channel that is full, is logged. *)
Definition contracts_on_new (e : NewTxEvent) (c : contractsImpl) : contractsImpl := (ProcessTx (ne_Tx e) c).1.

(** Go: main.go initIndexer:141-152 *)
Definition on_new_tx (e : NewTxEvent) a : Api :=
  if ne_Deferred e then a
  else a <| contractsMemPool ::= contracts_on_new e |> <| api_memPool ::= AddTransaction (ne_Tx e) |>.

(** Go: main.go initIndexer:132-138 *)
Definition on_removed_tx (e : RemovedMemPoolTxEvent) a : Api :=
  a <| contractsMemPool ::= RemoveTx (rm_Tx e) |> <| api_memPool ::= RemoveTransaction (rm_Tx e) |>.

(** Go: core/stats/collector.go statsCollector.RemoveMemPoolTx

    [None] is the nil transaction. *)
Definition RemoveMemPoolTx (tx : option Tx) a : Api :=
  match tx with None => a | Some tx => on_removed_tx (mkRemovedMemPoolTxEvent tx) a end.

(** What happens: the node tells of a transaction, or that one left its pool; the
    goroutine of the contracts' pool makes a turn; a request is answered. *)
Inductive happening :=
  | TxComes (e : NewTxEvent)
  | TxLeaves (tx : option Tx)
  | ContractsTurn
  | RequestComes (o : api_orders) (order : list string) (now : Z) (rq : HttpRequest).

Definition happen (sa : Server.Server * Api) (h : happening) : outcome (Server.Server * Api) :=
  let (s, a) := sa in
  match h with
  | TxComes e => Done (s, on_new_tx e a)
  | TxLeaves tx => Done (s, RemoveMemPoolTx tx a)
  | ContractsTurn =>
      match listen (contractsMemPool a) with Done c => Done (s, a <| contractsMemPool := c |>) | Panic => Panic end
  | RequestComes o order now rq =>
      match serve o order now rq s a with
      | (s, Done (a, _)) => Done (s, a)
      | (s, Panic) => Panic
      end
  end.

Fixpoint happen_all (sa : Server.Server * Api) (l : list happening) : outcome (Server.Server * Api) :=
  match l with
  | [] => Done sa
  | h :: l => match happen sa h with Done sa => happen_all sa l | Panic => Panic end
  end.
End program.

Section pending.
Context `{NodeLaws, !SnapshotApi, !VerifierEnv, !OnlineMath, !ContractStore, !VoteApi, !ApiCrypto, !Mux}.
Context `{TokenContractHolder, !PoolNode, !ContractStoreLaws}.
Implicit Types (a : Api) (r : Request).

(** What the pool by hash is told. *)
Definition pool_calls (h : happening) : list PoolCall :=
  match h with
  | TxComes e => if ne_Deferred e then [] else [CAdd (ne_Tx e)]
  | TxLeaves (Some tx) => [CRemove tx]
  | _ => []
  end.

Lemma happen_pool sa h sa' :
  happen sa h = Done sa' → api_memPool sa'.2 = foldl pool_call (api_memPool sa.2) (pool_calls h).
Proof.
  destruct sa as [s a], h as [e|[tx|]| |o order now rq]; cbn [happen pool_calls snd].
  - intros [= <-]. unfold on_new_tx. by destruct (ne_Deferred e).
  - by intros [= <-].
  - by intros [= <-].
  - destruct (listen _); [|done]. by intros [= <-].
  - unfold serve, requestFilter. destruct (generateReqId s) as [id s'].
    destruct (h_Form rq) as [form|[]]; [|by intros [= <-]..].
    destruct (ServeHTTP_answers o now (mkHttpRequest (ToLower (h_Path rq)) (h_RawQuery rq) (inl (lower_names order form)) (h_Body rq)) _ a eq_refl)
      as (a' & rep & -> & [Heq _] & _). intros [= <-]. by rewrite Heq.
Qed.

Lemma happen_all_pool l sa sa' :
  happen_all sa l = Done sa' → api_memPool sa'.2 = foldl pool_call (api_memPool sa.2) (l ≫= pool_calls).
Proof.
  revert sa. induction l as [|h l IH]; intros sa; cbn [happen_all]; [by intros [= <-]|].
  destruct (happen sa h) as [sa1|] eqn:Hh; [|done]. intros Hrun. apply happen_pool in Hh.
  by rewrite (IH sa1 Hrun), Hh, bind_cons, foldl_app.
Qed.

(** [C21]  The API and the pools together: whatever came and left, with requests and the work of
    the other pool in between, the answers about pending transactions are those of the
    transactions that came, not deferred, and did not leave since: the one of a hash, their
    number, and lists of all of them and of those of an address, none twice, as many as
    there are up to the limit of the request. *)
Theorem pending_transactions_are_served l s a s' a' o :
  api_memPool a = NewMemPool → happen_all (s, a) l = Done (s', a') →
  hashes_determine (l ≫= pool_calls) → (∀ m, ranges m (ao_txs o m)) →
  let live := foldl live_call ∅ (l ≫= pool_calls) in
  ∀ r now,
    memPoolTransaction a' r now
      = Done (a', WriteResponse (Detail (toTransactionDetail <$> live !! HexToHash (var r "hash"))) None) ∧
    memPoolTransactionsCount a' r now = Done (a', WriteResponse (Count (Z.of_nat (size live))) None) ∧
    (∀ count token, ReadPaginatorParams (r_Form r) = inl (count, token) → (0 ≤ count)%Z →
      ∃ all_txs address_txs,
        memPoolTransactions o a' r now = Done (a', WriteResponse (Summaries all_txs) None) ∧ lists live count all_txs ∧
        memPoolAddressTransactions o a' r now = Done (a', WriteResponse (Summaries address_txs) None) ∧
        lists (of_address (HexToAddress (var r "address")) live) count address_txs).
Proof.
  intros Ha Hrun Hd Hord live r now. apply happen_all_pool in Hrun. cbn [snd] in Hrun. rewrite Ha in Hrun.
  destruct (pool_follows _ Hd) as [Hh Haddr]. rewrite <- Hrun in Hh, Haddr. fold live in Hh, Haddr.
  split_and!.
  - unfold memPoolTransaction, read_only, MemPoolTransaction, GetTransaction, wrapper_get. by rewrite Hh.
  - unfold memPoolTransactionsCount, read_only, MemPoolTransactionsCount, GetTransactionsCount, wrapper_len. by rewrite Hh.
  - intros count token Hr Hc.
    assert (Hsmall : swrap 64 count = count ∧ (count < 2 ^ 63)%Z).
    { unfold ReadPaginatorParams in Hr. destruct (ReadUintUrlValue _ _) as [n|]; [|done].
      destruct (Z.ltb_spec 100 n); [done|]. simplify_eq. split; [apply swrap_small; lia|lia]. }
    destruct Hsmall as [Hw Hlt]. unfold memPoolTransactions, memPoolAddressTransactions, read_only. rewrite Hr. cbn [no_error].
    unfold MemPoolTransactions, MemPoolAddressTransactions, GetTransactions, GetAddressTransactions, address_get.
    rewrite Hw, Haddr. eexists _, _. split_and!; [done| |done|].
    + destruct (txsByHash (api_memPool a')) as [m]. cbn in Hh. subst m. by apply all_lists.
    + unfold entry. case_decide as He; [|by apply all_lists].
      rewrite He. exists []. split; [done|]. split; [apply submseteq_nil_l|]. rewrite map_size_empty. cbn. lia.
Qed.
End pending.

(** ** Two transactions come, a request is answered, one of them leaves *)

#[local] Existing Instance SampleHolder.

Definition sample_happenings : list happening :=
  [TxComes (mkNewTxEvent sample_tx false); TxComes (mkNewTxEvent sample_sent false);
   TxComes (mkNewTxEvent (sample_tx <| tx_Hash := mkHash 5 |>) true);
   RequestComes sample_orders ["author"%string] 0 sample_deploys_request; TxLeaves (Some sample_tx)].
Definition after_happenings : Server.Server * Api :=
  match happen_all (mkServer 0, sample_api) sample_happenings with Done sa => sa | Panic => (mkServer 0, sample_api) end.

Lemma pending_transactions_are_served_witness :
  let r := mkRequest_ {["limit"%string := ["5"%string]]} {["hash"%string := sample_hex 2]} None in
  memPoolTransaction after_happenings.2 r 0
  = Done (after_happenings.2, WriteResponse (Detail (Some (toTransactionDetail sample_sent))) None) ∧
  memPoolTransactionsCount after_happenings.2 r 0 = Done (after_happenings.2, WriteResponse (Count 1) None).
Proof.
  intros r. destruct (pending_transactions_are_served sample_happenings (mkServer 0) sample_api after_happenings.1 after_happenings.2 sample_orders) with (r := r) (now := 0%Z)
    as (Htx & Hn & _).
  - done.
  - assert (Hok : match happen_all (mkServer 0, sample_api) sample_happenings with Done _ => True | Panic => False end)
      by (vm_compute; exact I).
    unfold after_happenings. by destruct (happen_all _ _) as [[s' a']|].
  - intros c c' Hc Hc'. cbn in Hc, Hc'. rewrite !elem_of_cons in Hc, Hc'.
    destruct Hc as [->|[->|[->|Hc]]], Hc' as [->|[->|[->|Hc']]]; cbn; intros [=]; try done;
      by first [apply not_elem_of_nil in Hc|apply not_elem_of_nil in Hc'].
  - intros m. apply ranges_canonical.
  - assert (Hl : foldl live_call ∅ (sample_happenings ≫= pool_calls) !! HexToHash (var r "hash") = Some sample_sent) by by vm_compute.
    assert (Hs : size (foldl live_call ∅ (sample_happenings ≫= pool_calls)) = 1) by by vm_compute.
    by rewrite Htx, Hn, Hl, Hs.
Defined.
