(* ===== verification/Monitoring.v ===== *)
(** * The monitor of performance

    monitoring/performance.go measures named stretches of the work on a block.  They nest:
    [Start] pushes a stretch and [Complete] must name the one on top, or it panics.  What
    is complete becomes a record below the stretch that encloses it, or a record of a
    block; after a number of blocks the records are reported.

    incoming/incoming.go, indexer/indexer.go and db/postgres.go make the calls.  The
    theorems say for which answers of the database these calls are nested. *)

From S2P Require Import Prelude.

(** ** The monitor *)

(** Go: monitoring/performance.go record *)
Inductive record := mkRecord (name : string) (duration : Z) (subRecords : list record).
Definition r_name (r : record) : string := match r with mkRecord n _ _ => n end.
Definition r_subRecords (r : record) : list record := match r with mkRecord _ _ s => s end.

(** Go: monitoring/performance.go eventType *)
Record eventType := mkEventType { et_name : string; et_time : Z; et_subRecords : list record }.

(** Go: monitoring/performance.go performanceMonitorImpl

    The stack with its top first, and what was reported. *)
Record performanceMonitorImpl := mkMonitor {
  pm_records : list record; pm_startTimes : list eventType; pm_blocksToLog : Z; pm_reports : list (list record)
}.

(** Go: monitoring/performance.go NewPerformanceMonitor *)
Definition NewPerformanceMonitor (blocksToLog : Z) : performanceMonitorImpl := mkMonitor [] [] blocksToLog [].

(** Go: monitoring/performance.go performanceMonitorImpl.Start *)
Definition Start (name : string) (now : Z) (pm : performanceMonitorImpl) : performanceMonitorImpl :=
  pm <| pm_startTimes ::= cons (mkEventType name now []) |>.

(** Go: monitoring/performance.go performanceMonitorImpl.Complete *)
Definition Complete (name : string) (now : Z) (pm : performanceMonitorImpl) : outcome performanceMonitorImpl :=
  match pm_startTimes pm with
  | [] => Panic
  | eventType :: startTimes =>
      if negb (bool_decide (et_name eventType = name)) then Panic
      else
        let a := mkRecord name (swrap 64 (now - et_time eventType)) (et_subRecords eventType) in
        Done match startTimes with
             | parent :: rest => pm <| pm_startTimes := (parent <| et_subRecords ::= λ l, l ++ [a] |>) :: rest |>
             | [] =>
                 let records := pm_records pm ++ [a] in
                 if (Z.of_nat (length records) =? pm_blocksToLog pm)%Z
                 then pm <| pm_startTimes := [] |> <| pm_records := [] |> <| pm_reports ::= λ l, l ++ [records] |>
                 else pm <| pm_startTimes := [] |> <| pm_records := records |>
             end
  end.

(** Go: monitoring/performance.go collectTotals

    A record and the records below it. *)
Fixpoint collect_total (r : record) (totals : gmap string Z) : gmap string Z :=
  match r with
  | mkRecord name duration subRecords =>
      foldl (λ totals r, collect_total r totals) (<[name := swrap 64 (default 0 (totals !! name) + duration)%Z]> totals) subRecords
  end.

(** Go: monitoring/performance.go collectTotals *)
Definition collectTotals (totals : gmap string Z) (records : list record) : gmap string Z :=
  foldl (λ totals r, collect_total r totals) totals records.

(** A line of a report: the level of the record, its name, the total, and the average. *)
Record line := mkLine { ln_level : nat; ln_name : string; ln_total : Z; ln_average : Z }.

Fixpoint log_record (totals : gmap string Z) (level : nat) (count : Z) (r : record) : list line :=
  match r with
  | mkRecord name _ subRecords =>
      let total := default 0%Z (totals !! name) in
      mkLine level name total (Z.quot total count) :: (subRecords ≫= log_record totals (S level) count)
  end.

(** Go: monitoring/performance.go logRecords *)
Definition logRecords (totals : gmap string Z) (records : list record) (level : nat) (count : Z) : list line :=
  records ≫= log_record totals level count.

(** Go: monitoring/performance.go logReport

    The lines are those of the stretches of the first block. *)
Definition logReport (records : list record) : list line :=
  logRecords (collectTotals ∅ records) (take 1 records) 0 (Z.of_nat (length records)).

(** ** The calls *)

Inductive call := CStart (name : string) | CComplete (name : string).
(** [pm.Start(name)], work that makes calls, [pm.Complete(name)] *)
Definition during (name : string) (calls : list call) : list call := CStart name :: calls ++ [CComplete name].
Arguments CStart name%_string.
Arguments CComplete name%_string.
Arguments during name%_string calls.

Fixpoint run_calls (l : list (call * Z)) (pm : performanceMonitorImpl) : outcome performanceMonitorImpl :=
  match l with
  | [] => Done pm
  | (CStart name, now) :: l => run_calls l (Start name now pm)
  | (CComplete name, now) :: l => match Complete name now pm with Done pm => run_calls l pm | Panic => Panic end
  end.

(** Go: db/postgres.go Save:86-221

    The steps of the transaction, in their order. *)
Definition save_steps (miningRewards : bool) : list string :=
  ["saveEpoch"; "saveBlock"; "saveAddressesAndTransactions"; "saveProposer"; "saveProposerVrfScore"; "saveCoins";
   "saveBalances"; "saveSubmittedFlips"; "saveFlipKeys"; "saveFlipsWords"; "savePenalties"]%string
  ++ (if miningRewards then ["saveMiningRewards"%string] else []) ++ ["saveBurntCoins"; "saveEpochResult"]%string.

(** What the database does with an attempt: it cannot begin, it refuses a step, or it
    takes them all, and then it commits or not. *)
Inductive attempt := NoTransaction | Refused (step : nat) | Taken (committed : bool).

(** Go: db/postgres.go Save

    The calls of an attempt: an error returns before the stretch is completed; the one of
    the commit is completed by a deferred call. *)
Definition Save_calls (miningRewards : bool) (a : attempt) : list call :=
  let steps := save_steps miningRewards in
  match a with
  | NoTransaction => [CStart "InitTx"]
  | Refused step =>
      during "InitTx" [] ++ CStart "RunTx" :: (take step steps ≫= λ s, during s [])
      ++ match steps !! step with Some s => [CStart s] | None => [] end
  | Taken _ => during "InitTx" [] ++ during "RunTx" (steps ≫= λ s, during s []) ++ during "CommitTx" []
  end.

Definition succeeds (a : attempt) : bool := match a with Taken true => true | _ => false end.

(** Go: indexer/indexer.go saveData

    The attempts up to the first that succeeds. *)
Fixpoint saveData_calls (miningRewards : bool) (l : list attempt) : list call :=
  match l with
  | [] => []
  | a :: l => Save_calls miningRewards a ++ (if succeeds a then [] else saveData_calls miningRewards l)
  end.

(** Go: indexer/indexer.go convertIncomingData:393-434

    The calls when there is no error; with one, the program ends. *)
Definition convertIncomingData_calls : list call := during "InitCtx" [] ++ during "ConvertBlock" [].

(** Go: indexer/indexer.go indexBlock:235-273

    The calls for a block that is indexed: before those of the block, those of the
    genesis block, if it is indexed first, with [genesis] the attempts to save it.  A
    block that is skipped or that waits for a reset makes none. *)
Definition indexBlock_calls (miningRewards : bool) (genesis : option (list attempt)) (attempts : list attempt) : list call :=
  match genesis with None => [] | Some l => convertIncomingData_calls ++ saveData_calls miningRewards l end
  ++ during "Convert" convertIncomingData_calls ++ during "Save" (saveData_calls miningRewards attempts) ++ during "Flips" [].

(** Go: incoming/incoming.go NewListener:53-66

    The handler of a block of the node, [index] being the calls of its indexing. *)
Definition block_calls (index : list call) : list call :=
  CComplete "Node" :: during "Index" index ++ [CComplete "Full"; CStart "Full"; CStart "Node"].

(** Go: incoming/incoming.go NewListener:50-51 *)
Definition listener_calls : list call := [CStart "Full"; CStart "Node"].

(** ** Nesting *)

(** The names on the stack, with the top first, are all that decides whether the calls
    panic. *)
Definition check_call (c : call) (s : list string) : option (list string) :=
  match c, s with
  | CStart n, _ => Some (n :: s)
  | CComplete n, n' :: s => if decide (n' = n) then Some s else None
  | CComplete _, [] => None
  end.
Fixpoint check (l : list call) (s : list string) : option (list string) :=
  match l with [] => Some s | c :: l => s ← check_call c s; check l s end.

Definition stack (pm : performanceMonitorImpl) : list string := et_name <$> pm_startTimes pm.

Lemma Complete_stack name now pm :
  match check_call (CComplete name) (stack pm) with
  | Some s => ∃ pm', Complete name now pm = Done pm' ∧ stack pm' = s
  | None => Complete name now pm = Panic
  end.
Proof.
  unfold stack, Complete. destruct (pm_startTimes pm) as [|e l]; cbn; [done|]. case_decide as Hn.
  - rewrite bool_decide_true by done. cbn. destruct l as [|parent rest]; [|by eexists].
    by case_match; eexists.
  - by rewrite bool_decide_false.
Qed.

Lemma run_calls_check l pm :
  match check l.*1 (stack pm) with
  | Some s => ∃ pm', run_calls l pm = Done pm' ∧ stack pm' = s
  | None => run_calls l pm = Panic
  end.
Proof.
  revert pm. induction l as [|[c now] l IH]; intros pm; [by exists pm|]. cbn [fmap list_fmap fst check].
  destruct c as [name|name]; [apply (IH (Start name now pm))|].
  pose proof (Complete_stack name now pm) as Hc. cbn [run_calls].
  destruct (check_call (CComplete name) (stack pm)) as [s|]; [|by rewrite Hc].
  destruct Hc as (pm' & -> & <-). apply IH.
Qed.

Lemma check_app l k s : check (l ++ k) s = (check l s ≫= check k).
Proof. revert s. induction l as [|c l IH]; intros s; [done|]. cbn. destruct (check_call c s); [apply IH|done]. Qed.

Lemma check_during n l s s' : check l (n :: s) = Some s' → check (during n l) s = check [CComplete n] s'.
Proof. intros Hl. unfold during. cbn [check check_call mbind option_bind]. by rewrite check_app, Hl. Qed.

Lemma check_nothing n s : check (during n []) s = Some s.
Proof. rewrite (check_during n [] s (n :: s)) by done. cbn. by rewrite decide_True. Qed.

Lemma check_each (names : list string) s : check (names ≫= λ n, during n []) s = Some s.
Proof. induction names as [|n names IH]; [done|]. by rewrite bind_cons, check_app, check_nothing. Qed.

(** ** The saving of a block *)

Section saving.
Context (miningRewards : bool).
Implicit Types (a : attempt) (l : list attempt).

Definition attempt_ok a : Prop := match a with Refused step => step < length (save_steps miningRewards) | _ => True end.
(** The database takes the steps, whether or not it commits them. *)
Definition taken a : bool := match a with Taken _ => true | _ => false end.

(** What an attempt leaves on the stack. *)
Definition left_over a : list string :=
  match a with
  | NoTransaction => ["InitTx"]
  | Refused step => match save_steps miningRewards !! step with Some s => [s; "RunTx"] | None => ["RunTx"] end
  | Taken _ => []
  end%string.
Definition left_overs l : list string := mjoin (left_over <$> rev l).

Lemma check_Save a s : check (Save_calls miningRewards a) s = Some (left_over a ++ s).
Proof.
  destruct a as [|step|ok]; cbn [Save_calls left_over]; [done| |].
  - rewrite check_app, check_nothing. cbn [mbind option_bind check check_call]. rewrite check_app, check_each.
    by destruct (save_steps miningRewards !! step).
  - rewrite check_app, check_nothing. cbn [mbind option_bind]. rewrite check_app.
    rewrite (check_during _ _ _ _ (check_each _ _)). cbn [check check_call mbind option_bind]. rewrite decide_True by done.
    cbn [mbind option_bind]. apply check_nothing.
Qed.

Lemma left_overs_cons a l : left_overs (a :: l) = left_overs l ++ left_over a.
Proof. unfold left_overs. cbn [rev]. rewrite fmap_app, join_app. cbn. by rewrite app_nil_r. Qed.

Lemma check_saveData before s :
  Forall (λ a, succeeds a = false) before →
  check (saveData_calls miningRewards (before ++ [Taken true])) s = Some (left_overs before ++ s).
Proof.
  intros Hb. revert s. induction Hb as [|a before Ha Hb IH]; intros s.
  - cbn [app saveData_calls]. rewrite check_app, check_Save. done.
  - cbn [app saveData_calls]. rewrite check_app, check_Save, Ha. cbn [mbind option_bind]. rewrite IH, left_overs_cons.
    by rewrite <- app_assoc.
Qed.

(** The names of the stretches of [Save] are not those of the stretches around it. *)
Lemma left_over_names a n : n ∈ left_over a → n ≠ "Save"%string ∧ n ≠ "Index"%string.
Proof.
  assert (Hsteps : Forall (λ n, n ≠ "Save" ∧ n ≠ "Index")%string ("InitTx" :: "RunTx" :: save_steps miningRewards)%string)
    by (apply (bool_decide_unpack _); by destruct miningRewards; vm_compute).
  intros Hn. eapply list.Forall_forall in Hsteps; [exact Hsteps|].
  destruct a as [|step|ok]; cbn [left_over] in Hn; [|destruct (save_steps miningRewards !! step) as [s|] eqn:Hs|].
  - apply elem_of_cons in Hn as [->|Hn]; [by left|by apply not_elem_of_nil in Hn].
  - apply list_elem_of_lookup_2 in Hs. rewrite !elem_of_cons in Hn. rewrite !elem_of_cons.
    destruct Hn as [->|[->|Hn]]; [by right; right|by right; left|by apply not_elem_of_nil in Hn].
  - apply elem_of_cons in Hn as [->|Hn]; [by right; left|by apply not_elem_of_nil in Hn].
  - by apply not_elem_of_nil in Hn.
Qed.

Lemma left_overs_top l name s :
  name = "Save"%string ∨ name = "Index"%string →
  check [CComplete name] (left_overs l ++ name :: s) = if decide (left_overs l = []) then Some s else None.
Proof.
  intros Hn. case_decide as Hl; [rewrite Hl; cbn; by rewrite decide_True|].
  destruct (left_overs l) as [|n rest] eqn:Hlo; [done|]. cbn. rewrite decide_False; [done|]. intros ->.
  assert (name ∈ left_overs l) as Hin by (rewrite Hlo; by left). unfold left_overs in Hin.
  apply list_elem_of_join in Hin as (x & Hin & (a & -> & _)%list_elem_of_fmap).
  destruct (left_over_names a name Hin), Hn; done.
Qed.

Lemma left_overs_nil l : left_overs l = [] ↔ forallb taken l = true.
Proof.
  induction l as [|a l IH]; [done|]. rewrite left_overs_cons. cbn. rewrite andb_true_iff, <- IH.
  assert (left_over a = [] ↔ taken a = true) as Ha by (destruct a as [|step|]; cbn; [done|by destruct (_ !! step)|done]).
  rewrite app_nil. tauto.
Qed.
End saving.

(** ** Blocks *)

(** The attempts to save end with one that succeeds. *)
Definition ends (miningRewards : bool) (l : list attempt) : Prop :=
  ∃ before, l = before ++ [Taken true] ∧ Forall (λ a, succeeds a = false) before ∧ Forall (attempt_ok miningRewards) before.

(** What happens to a block: the attempts to save it and, before it, a genesis block. *)
Record saved_block := mkSavedBlock { sb_genesis : option (list attempt); sb_attempts : list attempt }.
Definition sb_calls (miningRewards : bool) (b : saved_block) : list call :=
  block_calls (indexBlock_calls miningRewards (sb_genesis b) (sb_attempts b)).
Definition sb_ends (miningRewards : bool) (b : saved_block) : Prop :=
  from_option (ends miningRewards) True (sb_genesis b) ∧ ends miningRewards (sb_attempts b).
Definition sb_taken (b : saved_block) : bool := from_option (forallb taken) true (sb_genesis b) && forallb taken (sb_attempts b).

Definition between_blocks : list string := ["Node"; "Full"]%string.

Lemma check_indexBlock mr b s :
  sb_ends mr b →
  check (indexBlock_calls mr (sb_genesis b) (sb_attempts b)) s
  = if forallb taken (sb_attempts b) then Some (from_option (λ l, left_overs mr (take (length l - 1) l)) [] (sb_genesis b) ++ s) else None.
Proof.
  destruct b as [g l]. intros [Hg (before & -> & Hb & _)]. cbn [sb_genesis sb_attempts] in *. unfold indexBlock_calls.
  set (lo := from_option _ _ g).
  assert (check match g with None => [] | Some l => convertIncomingData_calls ++ saveData_calls mr l end s = Some (lo ++ s)) as Hgen.
  { unfold lo. destruct g as [lg|]; [|done]. destruct Hg as (bg & -> & Hbg & _).
    rewrite check_app. cbn [convertIncomingData_calls]. unfold convertIncomingData_calls.
    rewrite check_app, check_nothing. cbn [mbind option_bind]. rewrite check_nothing. cbn [mbind option_bind].
    rewrite check_saveData by done. cbn [from_option]. rewrite length_app. cbn [length].
    by rewrite Nat.add_sub, take_app_length. }
  rewrite check_app, Hgen. cbn [mbind option_bind]. rewrite check_app.
  rewrite (check_during "Convert" convertIncomingData_calls _ ("Convert"%string :: lo ++ s)) by
    (unfold convertIncomingData_calls; rewrite check_app, check_nothing; cbn [mbind option_bind]; apply check_nothing).
  cbn [check check_call mbind option_bind]. rewrite decide_True by done. cbn [mbind option_bind].
  rewrite check_app, (check_during "Save" _ _ _ (check_saveData mr before _ Hb)), left_overs_top by by left.
  rewrite forallb_app. cbn [forallb taken]. rewrite !andb_true_r.
  destruct (forallb taken before) eqn:Ht.
  - rewrite decide_True by by apply left_overs_nil. cbn [mbind option_bind]. apply check_nothing.
  - rewrite decide_False; [done|]. intros Hn%left_overs_nil. congruence.
Qed.

Lemma check_block mr b :
  sb_ends mr b → check (sb_calls mr b) between_blocks = if sb_taken b then Some between_blocks else None.
Proof.
  intros Hb. unfold sb_calls, block_calls, between_blocks, sb_taken. cbn [check check_call mbind option_bind]. rewrite decide_True by done.
  cbn [mbind option_bind]. rewrite check_app. pose proof (check_indexBlock mr b ["Index"; "Full"]%string Hb) as Hi.
  destruct (forallb taken (sb_attempts b)); [rewrite andb_true_r|rewrite andb_false_r].
  - rewrite (check_during _ _ _ _ Hi). destruct b as [[lg|] l]; cbn [sb_genesis from_option] in *.
    + destruct Hb as [(bg & -> & Hbg & _) _]. cbn [sb_genesis from_option] in *. rewrite length_app. cbn [length].
      rewrite Nat.add_sub, take_app_length, left_overs_top by by right. rewrite forallb_app. cbn [forallb taken]. rewrite andb_true_r.
      destruct (forallb taken bg) eqn:Ht.
      * rewrite decide_True by by apply left_overs_nil. by cbn.
      * rewrite decide_False; [done|]. intros Hn%left_overs_nil. congruence.
    + by cbn.
  - unfold during. cbn [check check_call mbind option_bind]. by rewrite check_app, Hi.
Qed.

(** [C22]  The monitor lives through a run of blocks exactly when the database never refuses to
    begin a transaction or to take a step of one: a stretch that was left by an error
    stays on the stack, and when the block is saved by a later attempt, as it must be, the
    completion of another stretch finds it there and ends the program. *)
Theorem monitor_survives_taken_attempts mr blocks calls n :
  Forall (sb_ends mr) blocks → calls.*1 = listener_calls ++ mjoin (sb_calls mr <$> blocks) →
  (∃ pm, run_calls calls (NewPerformanceMonitor n) = Done pm ∧ stack pm = between_blocks) ↔ forallb sb_taken blocks = true.
Proof.
  intros Hb Hc. pose proof (run_calls_check calls (NewPerformanceMonitor n)) as Hr. rewrite Hc, check_app in Hr.
  change (check listener_calls (stack (NewPerformanceMonitor n))) with (Some between_blocks) in Hr. cbn [mbind option_bind] in Hr.
  assert (check (mjoin (sb_calls mr <$> blocks)) between_blocks = if forallb sb_taken blocks then Some between_blocks else None) as Hk.
  { clear Hr Hc. induction Hb as [|b blocks Hb Hbs IH]; [done|]. cbn [fmap list_fmap mjoin list_join forallb].
    rewrite check_app, check_block by done. destruct (sb_taken b); [apply IH|done]. }
  rewrite Hk in Hr. destruct (forallb sb_taken blocks); [naive_solver|]. rewrite Hr. split; [by intros (pm & [=] & _)|done].
Qed.


(** ** Reports *)

Section reports.
Implicit Types (r : record) (name : string).

Lemma swrap_mod z : (swrap 64 z `mod` 2 ^ 64 = z `mod` 2 ^ 64)%Z.
Proof.
  unfold swrap. case_match; [|by rewrite Z.mod_mod]. rewrite <- (Z.mod_add _ 1) by done.
  replace (z `mod` 2 ^ 64 - 2 ^ 64 + 1 * 2 ^ 64)%Z with (z `mod` 2 ^ 64)%Z by lia. by rewrite Z.mod_mod.
Qed.

(** The time of the stretches of a name, in a record and below it. *)
Fixpoint time_in name r : Z :=
  match r with
  | mkRecord n d subRecords => (if decide (n = name) then d else 0) + sumZ (time_in name) subRecords
  end%Z.

(** A record is smaller than the one that has it. *)
Fixpoint record_size r : nat := match r with mkRecord _ _ l => S (sum_list_with record_size l) end.

(** Collecting adds the times, to the width of a duration. *)
Definition collects name (f : gmap string Z → gmap string Z) (time : Z) : Prop :=
  ∀ totals, (default 0 (f totals !! name) `mod` 2 ^ 64 = (default 0 (totals !! name) + time) `mod` 2 ^ 64)%Z.

Lemma collects_list name l :
  (∀ r, r ∈ l → collects name (collect_total r) (time_in name r)) →
  collects name (λ totals, foldl (λ t r, collect_total r t) totals l) (sumZ (time_in name) l).
Proof.
  induction l as [|x l IH]; intros Hl totals; cbn [foldl sumZ]; [by rewrite Z.add_0_r|].
  rewrite (IH (λ r Hr, Hl r (list_elem_of_further _ _ _ Hr))), Z.add_mod, (Hl x (list_elem_of_here _ _)), <- Z.add_mod by done.
  by rewrite Z.add_assoc.
Qed.

Lemma collects_record name r : collects name (collect_total r) (time_in name r).
Proof.
  remember (record_size r) as k eqn:Hk. assert (record_size r ≤ k) as Hle by lia. clear Hk. revert r Hle.
  induction k as [|k IH]; intros [n d l] Hle totals; cbn [record_size collect_total time_in] in *; [lia|].
  rewrite (collects_list name l).
  - case_decide as Hn; [|by rewrite lookup_insert_ne].
    subst n. rewrite lookup_insert_eq. cbn [from_option]. unfold id at 1. rewrite Z.add_mod, swrap_mod, <- Z.add_mod by done. f_equal. lia.
  - intros r Hr. apply IH. apply list_elem_of_split in Hr as (l1 & l2 & ->).
    rewrite sum_list_with_app in Hle. cbn in Hle. lia.
Qed.

(** The total of a name in a report is the time of all of its stretches, at any depth and
    in all of the blocks, to the width of a duration. *)
Lemma totals_of_report name records :
  (default 0 (collectTotals ∅ records !! name) `mod` 2 ^ 64 = sumZ (time_in name) records `mod` 2 ^ 64)%Z.
Proof.
  unfold collectTotals. rewrite (collects_list name records (λ r _, collects_record name r) ∅), lookup_empty. done.
Qed.
End reports.

(** ** A block that is saved at the second attempt *)

Definition sample_timed (l : list call) : list (call * Z) := imap (λ i c, (c, Z.of_nat i)) l.
Lemma sample_timed_calls l : (sample_timed l).*1 = l.
Proof. unfold sample_timed. rewrite fmap_imap. induction l using rev_ind; [done|]. by rewrite imap_app, IHl. Qed.

Definition sample_refused : saved_block := mkSavedBlock None [Refused 3; Taken true].
Definition sample_uncommitted : saved_block := mkSavedBlock None [Taken false; Taken true].

Lemma monitor_survives_taken_attempts_witness :
  ((∃ pm, run_calls (sample_timed (listener_calls ++ mjoin (sb_calls true <$> [sample_uncommitted]))) (NewPerformanceMonitor 2) = Done pm ∧
      stack pm = between_blocks) ↔ true = true) ∧
  ((∃ pm, run_calls (sample_timed (listener_calls ++ mjoin (sb_calls true <$> [sample_uncommitted; sample_refused]))) (NewPerformanceMonitor 2) = Done pm ∧
      stack pm = between_blocks) ↔ false = true).
Proof.
  assert (Hu : sb_ends true sample_uncommitted).
  { split; [done|]. exists [Taken false]. by rewrite !list.Forall_singleton. }
  assert (Hr : sb_ends true sample_refused).
  { split; [done|]. exists [Refused 3]. rewrite !list.Forall_singleton. split_and!; [done..|cbn; lia]. }
  split.
  - apply (monitor_survives_taken_attempts true [sample_uncommitted]); [by rewrite list.Forall_singleton|apply sample_timed_calls].
  - apply (monitor_survives_taken_attempts true [sample_uncommitted; sample_refused]); [by rewrite list.Forall_cons, list.Forall_singleton|apply sample_timed_calls].
Defined.
