(* ===== verification/TokenMigration.v ===== *)
(** * The tokens of a database that has none

    migration/tokens/tokens.go, called at the start of the program, fills the tables of
    the tokens and of their balances from the state of the head, when there are no tokens
    in the database: it asks every contract of WebAssembly for the balance of nobody, and
    takes those that answer for tokens. *)

From S2P Require Import Prelude Node Tokens Multisig.

(** The rows of the two tables, by what the statements insert; the contracts, by the order
    of their transactions, with the addresses as they are stored. *)
Record TokenTables := mkTokenTables {
  tt_contracts : list string;
  tt_tokens : list (Address * Token);
  tt_balances : list TokenBalance
}.

Section migration.
Context `{ContractStore, TokenContractHolder}.
Local Open Scope Z_scope.

(** Go: migration/tokens/tokens.go loadContracts

    The contracts of type 6, none when there is a token. *)
Definition loadContracts (t : TokenTables) : list Address :=
  match tt_tokens t with [] => HexToAddress <$> tt_contracts t | _ :: _ => [] end.

(** Go: migration/tokens/tokens.go isToken

    The error that is returned is always nil. *)
Definition isToken (address : Address) (appState : AppState) : bool :=
  bool_decide (is_Some (Balance appState address (address_Bytes zeroAddress))).

(** Go: migration/tokens/tokens.go token

    A contract that does not tell its name is a token with empty fields. *)
Definition token (address : Address) (appState : AppState) : Address * Token :=
  (address, default (mkToken [] [] 0) (Info appState address)).

(** Go: migration/tokens/tokens.go balances:119-128

    Fewer than twenty bytes are filled up with zeros on the right. *)
Definition bytesToAddress (b : bytes) : Address :=
  address_SetBytes (if (length b <? 20)%nat then b ++ replicate (20 - length b) 0 else b).

(** Go: migration/tokens/tokens.go balances *)
Definition balances (address : Address) (appState : AppState) : list TokenBalance :=
  omap (λ kv, let tokenHolder := bytesToAddress (drop 2 kv.1) in
              if decide (tokenHolder = zeroAddress) then None else Some (mkTokenBalance address tokenHolder (big_SetBytes kv.2)))
    (IterateContractStore appState address (bytes_of "b:" ++ replicate 20 0) (bytes_of "b:" ++ replicate 20 255)).

(** A statement, and the tables after it. *)
Inductive statement := InsertToken (t : Address * Token) | InsertBalance (b : TokenBalance).
Definition exec (s : statement) (t : TokenTables) : TokenTables :=
  match s with
  | InsertToken x => t <| tt_tokens ::= λ l, l ++ [x] |>
  | InsertBalance x => t <| tt_balances ::= λ l, l ++ [x] |>
  end.

(** Go: migration/tokens/tokens.go save:152-171

    The statements, which are not in a transaction. *)
Definition save_statements (tokens : list (Address * Token)) (balances : list TokenBalance) : list statement :=
  (InsertToken <$> tokens) ++ (InsertBalance <$> filter (λ b, 0 < tk_Balance b) balances).

(** Go: migration/tokens/tokens.go save

    [fails] is the statement that the database refuses, if it refuses one: the tables
    after it, and whether there is an error. *)
Definition save (fails : option nat) (tokens : list (Address * Token)) (balances : list TokenBalance) (t : TokenTables)
    : TokenTables * bool :=
  let statements := save_statements tokens balances in
  match fails with
  | Some n => if (n <? length statements)%nat then (foldl (λ t s, exec s t) t (take n statements), false)
              else (foldl (λ t s, exec s t) t statements, true)
  | None => (foldl (λ t s, exec s t) t statements, true)
  end.

(** Go: migration/tokens/tokens.go CollectData

    [true]: no error. *)
Definition CollectData (fails : option nat) (appState : AppState) (t : TokenTables) : TokenTables * bool :=
  let contracts := loadContracts t in
  match contracts with
  | [] => (t, true)
  | _ :: _ =>
      let found := filter (λ c, isToken c appState = true) contracts in
      save fails ((λ c, token c appState) <$> found) (found ≫= λ c, balances c appState) t
  end.

(** ** What is in the tables *)

(** The tables that the migration is to fill. *)
Definition migrated (appState : AppState) (t : TokenTables) : Prop :=
  let found := filter (λ c, isToken c appState = true) (HexToAddress <$> tt_contracts t) in
  tt_tokens t = (λ c, token c appState) <$> found ∧
  tt_balances t = filter (λ b, 0 < tk_Balance b) (found ≫= λ c, balances c appState).

Lemma exec_all l t :
  tt_contracts (foldl (λ t s, exec s t) t l) = tt_contracts t ∧
  tt_tokens (foldl (λ t s, exec s t) t l) = tt_tokens t ++ omap (λ s, match s with InsertToken x => Some x | _ => None end) l ∧
  tt_balances (foldl (λ t s, exec s t) t l) = tt_balances t ++ omap (λ s, match s with InsertBalance x => Some x | _ => None end) l.
Proof.
  revert t. induction l as [|s l IH]; intros t; [by rewrite !app_nil_r|]. cbn [foldl].
  destruct (IH (exec s t)) as (-> & -> & ->). destruct s; cbn; by rewrite <- ?app_assoc.
Qed.

Lemma save_statements_split tokens balances :
  omap (λ s, match s with InsertToken x => Some x | _ => None end) (save_statements tokens balances) = tokens ∧
  omap (λ s, match s with InsertBalance x => Some x | _ => None end) (save_statements tokens balances) = filter (λ b, 0 < tk_Balance b) balances.
Proof.
  unfold save_statements. rewrite !omap_app. split.
  - induction tokens as [|x tokens IH]; cbn; [by induction (filter _ balances)|by f_equal].
  - induction tokens as [|x tokens IH]; cbn; [|done]. induction (filter _ balances) as [|x l IH]; cbn; [done|by f_equal].
Qed.

Definition found (appState : AppState) (t : TokenTables) : list Address :=
  filter (λ c, isToken c appState = true) (HexToAddress <$> tt_contracts t).
Definition statements (appState : AppState) (t : TokenTables) : list statement :=
  save_statements ((λ c, token c appState) <$> found appState t) (found appState t ≫= λ c, balances c appState).

Lemma statements_same appState t t' : tt_contracts t' = tt_contracts t → statements appState t' = statements appState t.
Proof. unfold statements, found. by intros ->. Qed.

(** From no tokens, the statements are executed up to the one that is refused. *)
Lemma CollectData_statements fails appState t :
  tt_tokens t = [] →
  let n := match fails with Some n => n | None => length (statements appState t) end in
  CollectData fails appState t
  = (foldl (λ t s, exec s t) t (take n (statements appState t)), negb (n <? length (statements appState t))%nat).
Proof.
  intros Ht n. assert (Hsave : save fails ((λ c, token c appState) <$> found appState t) (found appState t ≫= λ c, balances c appState) t
    = (foldl (λ t s, exec s t) t (take n (statements appState t)), negb (n <? length (statements appState t))%nat)).
  { unfold save, n. fold (statements appState t). destruct fails as [m|]; [|by rewrite take_ge, Nat.ltb_irrefl].
    destruct (Nat.ltb_spec m (length (statements appState t))); [done|]. by rewrite take_ge. }
  unfold CollectData, loadContracts. rewrite Ht. unfold found at 1 2 in Hsave.
  destruct (HexToAddress <$> tt_contracts t) as [|c l] eqn:Hc; [|exact Hsave].
  assert (statements appState t = []) as -> by (unfold statements, found; by rewrite Hc).
  rewrite take_nil. unfold n. by destruct fails.
Qed.

(** Nothing is done to a database that has a token. *)
Lemma CollectData_again fails appState t : tt_tokens t ≠ [] → CollectData fails appState t = (t, true).
Proof. intros Ht. unfold CollectData, loadContracts. by destruct (tt_tokens t). Qed.

Lemma migrated_statements appState t :
  migrated appState t ↔
  tt_tokens t = omap (λ s, match s with InsertToken x => Some x | _ => None end) (statements appState t) ∧
  tt_balances t = omap (λ s, match s with InsertBalance x => Some x | _ => None end) (statements appState t).
Proof. unfold statements. by destruct (save_statements_split ((λ c, token c appState) <$> found appState t) (found appState t ≫= λ c, balances c appState)) as [-> ->]. Qed.

(** When the database takes every statement, empty tables are filled with the tokens and
    with their positive balances. *)
Theorem migration_fills_tables appState t :
  tt_tokens t = [] → tt_balances t = [] →
  (CollectData None appState t).2 = true ∧ migrated appState (CollectData None appState t).1.
Proof.
  intros Ht Hb. rewrite (CollectData_statements None) by done. cbn [fst snd]. rewrite Nat.ltb_irrefl, take_ge by done. split; [done|].
  destruct (exec_all (statements appState t) t) as (Hc & Htok & Hbal).
  apply migrated_statements. by rewrite (statements_same _ _ _ Hc), Htok, Hbal, Ht, Hb.
Qed.

Lemma kinds_length (l : list statement) :
  (length (omap (λ s, match s with InsertToken x => Some x | _ => None end) l)
   + length (omap (λ s, match s with InsertBalance x => Some x | _ => None end) l) = length l)%nat.
Proof. induction l as [|[x|x] l IH]; cbn; lia. Qed.

(** When the database refuses a statement after the first, the error ends the program with
    the tables half filled, and they stay so: from then on there are tokens, and the
    migration does nothing. *)
Theorem interrupted_migration_stays appState t n :
  tt_tokens t = [] → tt_balances t = [] → found appState t ≠ [] →
  (0 < n < length (statements appState t))%nat →
  let t' := (CollectData (Some n) appState t).1 in
  (CollectData (Some n) appState t).2 = false ∧ ¬ migrated appState t' ∧
  ∀ fails appState', CollectData fails appState' t' = (t', true).
Proof.
  intros Ht Hb Hf Hn. rewrite (CollectData_statements (Some n)) by done. cbn [fst snd].
  rewrite (proj2 (Nat.ltb_lt _ _)) by lia. destruct (exec_all (take n (statements appState t)) t) as (Hc & Htok & Hbal).
  set (t' := foldl _ t _) in *. rewrite Ht, Hb in *. cbn [app] in *. split_and!; [done| |].
  - intros [Hm1 Hm2]%migrated_statements. rewrite (statements_same _ _ _ Hc) in Hm1, Hm2.
    pose proof (kinds_length (take n (statements appState t))) as Hk. rewrite <- Htok, <- Hbal, Hm1, Hm2, kinds_length, length_take in Hk. lia.
  - intros fails appState'. apply CollectData_again. rewrite Htok. unfold statements, save_statements.
    destruct (found appState t) as [|c l]; [done|]. destruct n as [|n]; [lia|]. done.
Qed.
End migration.

(** ** A token with two holders, one of them without balance, and a contract that is none *)

Definition SampleTokenStore : ContractStore := {|
  IterateContractStore _ a _ _ :=
    if decide (a = mkAddress 7) then
      [(bytes_of "b:" ++ replicate 19 0 ++ [4], [5]); (bytes_of "b:" ++ replicate 19 0 ++ [6], [0]);
       (bytes_of "b:" ++ replicate 19 0 ++ [8], [9])]%Z
    else [];
  hexutil_Encode _ := EmptyString; ExtractUInt64 _ := None; string_of_bytes _ := EmptyString;
  big_SetBytes := foldl (λ acc x, acc * 256 + x)%Z 0%Z; big_String _ := EmptyString
|}.
Definition SampleTokens : TokenContractHolder := {|
  Info _ _ := None;
  Balance _ c _ := if decide (c = mkAddress 7) then Some 0%Z else None
|}.
#[local] Existing Instances SampleTokenStore SampleTokens.

Definition sample_tables : TokenTables := mkTokenTables [sample_hex 7; sample_hex 8] [] [].

Lemma migration_fills_tables_witness :
  (CollectData None sample_state sample_tables).2 = true ∧ migrated sample_state (CollectData None sample_state sample_tables).1 ∧
  (tk_Balance <$> tt_balances (CollectData None sample_state sample_tables).1) = [5; 9]%Z.
Proof.
  destruct (migration_fills_tables sample_state sample_tables eq_refl eq_refl) as [Hok Hm]. split; [exact Hok|]. split; [exact Hm|].
  vm_compute. reflexivity.
Defined.

Lemma interrupted_migration_stays_witness :
  let t' := (CollectData (Some 2) sample_state sample_tables).1 in
  ¬ migrated sample_state t' ∧ CollectData None sample_state t' = (t', true).
Proof.
  intros t'. destruct (interrupted_migration_stays sample_state sample_tables 2) as (_ & Hm & Hs).
  - done.
  - done.
  - by vm_compute.
  - split; [lia|]. apply Nat.ltb_lt. vm_compute. reflexivity.
  - split; [exact Hm|]. apply Hs.
Defined.
