(* ===== verification/IndexLoop.v ===== *)
(** * The indexing of a block

    indexer/indexer.go, [indexBlock] and what it calls on the state of the indexer:
    the heights it expects, the reset of the database when the node goes back, the
    genesis block of a new chain, the retries, the running totals and the oracle
    votings in progress.

    The database is an interface of operations that may fail for a while.  The
    outcomes of the attempts are a list: [false] is an error, and when the list is
    empty the attempts succeed, so that a finite number of failures is any list. *)

From S2P Require Import Prelude Node ContractTypes Coins ContractTx Balances EpochTypes.
From S2P Require Import Transactions EpochResult BlockData.

(** ** Data *)

(** Go: indexer/indexer.go resultData *)
Record resultData := mkResultData {
  rd_totalBalance : Z;
  rd_totalStake : Z;
  rd_newActualOracleVotings : list Address;
  rd_newNotActualOracleVotings : list Address;
  rd_flipTxs : list flipTx
}.

(** Go: indexer/indexer.go result *)
Record result `{NodeApi} := mkResult { r_dbData : Data; r_resData : resultData }.

(** The part of [db.Accessor] the loop uses. *)
Class Storage `{NodeApi} := {
  St : Type;
  GetLastHeight : St → Z;
  ActualOracleVotings : St → list Address;
  Save : Data → St → St;
  (** [None] is an error the procedure raises, whenever it is called *)
  ResetTo : Z → St → option St;
  (** the blocks that are stored, in the order they were saved *)
  stored : St → list Block
}.

(** The heights the procedure [reset_to] of resources/scripts/indexer/init.sql refuses:
    those more than one below the lowest stored block. *)
Definition reset_refused (h : Z) (l : list Block) : Prop :=
  l ≠ [] ∧ Forall (λ b, h < b_Height b - 1)%Z l.
#[export] Instance reset_refused_dec h l : Decision (reset_refused h l).
Proof. unfold reset_refused. apply _. Defined.

(** What the storage is documented to do. *)
Class StorageLaws `{Storage} := {
  stored_Save d s : stored (Save d s) = stored s ++ [d_Block d];
  stored_ResetTo h s :
    stored <$> ResetTo h s
    = if decide (reset_refused h (stored s)) then None
      else Some (filter (λ b, (b_Height b ≤ h)%Z) (stored s));
  GetLastHeight_stored s :
    GetLastHeight s = match list.last (stored s) with Some b => b_Height b | None => 0%Z end
}.

(** The node behind [incoming.Listener]; [None] is an error, or a nil block. *)
Class Chain := {
  genesisBlock : option Block;
  AppStateReadonly : Z → option AppState
}.

(** What the loop does to the outside, in order. *)
Inductive effect :=
  | EfCurrentEpoch
  | EfSaved (b : Block)
  | EfRestored
  | EfRemoveEpochTreeSnapshot
  | EfLoadFlips (flipTxs : list flipTx)
  | EfNewEpoch (epoch height : Z)
  | EfNewBlock (height : Z)
  | EfRefreshUpgradeVoting (votes : list UpgradeVotes) (height : Z)
  | EfMakeEpochTreeSnapshot
  | EfCheckBalances.

(** Go: indexer/indexer.go Indexer:57-77

    [ix_statsEnabled]: whether the collector answers its statistics;
    [ix_secondaryStorage]: the last height of the database that is being migrated. *)
Record Ix `{Storage} := mkIx {
  ix_enabled : bool;
  ix_db : St;
  ix_state : option indexerState;
  ix_secondaryStorage : option Z;
  ix_restore : bool;
  ix_firstBlockHeight : Z;
  ix_firstBlockHeightInitialized : bool;
  ix_checkBalances : bool;
  ix_statsEnabled : bool;
  ix_faults : list bool;
  ix_effects : list effect
}.

Section operations.
Context `{EpochApi, !TxApi, !BlockApi, !Storage, Chain}.

Definition emit (e : effect) : M Ix unit := modify_st (λ st, st <| ix_effects ::= λ l, l ++ [e] |>).

(** One attempt of an operation of the database: whether it succeeds. *)
Definition attempt : M Ix bool := λ st,
  match ix_faults st with
  | [] => Done (true, st)
  | ok :: f => Done (ok, st <| ix_faults := f |>)
  end.

(** [*indexer.state] *)
Definition current_state : M Ix indexerState := λ st,
  match ix_state st with Some s => Done (s, st) | None => Panic end.

(** The attempts that are left after those of the loop of [loadState]: the last
    height is asked for, and then the votings, again from the start on an error. *)
Fixpoint load_faults (f : list bool) : list bool :=
  match f with
  | [] => []
  | false :: f => load_faults f
  | [true] => []
  | true :: true :: f => f
  | true :: false :: f => load_faults f
  end.

(** Go: indexer/indexer.go loadState *)
Definition loadState : M Ix indexerState := λ st,
  Done (mkIndexerState (GetLastHeight (ix_db st)) None None
          (newActualOracleVotingHolder (ActualOracleVotings (ix_db st))),
        st <| ix_faults ::= load_faults |>).

(** Go: indexer/indexer.go getHeightToIndex *)
Definition getHeightToIndex : M Ix Z :=
  s ← gets ix_state;
  match s with
  | Some s => mret (u64 (is_lastIndexedHeight s + 1))
  | None =>
      s ← loadState;
      modify_st (λ st, st <| ix_state := Some s |>);;
      mret (u64 (is_lastIndexedHeight s + 1))
  end.

(** Go: indexer/indexer.go getGenesisBlock *)
Definition getGenesisBlock : option Block := genesisBlock.

(** Go: indexer/indexer.go initFirstBlockHeight *)
Definition initFirstBlockHeight : M Ix unit :=
  done ← gets ix_firstBlockHeightInitialized;
  if done : bool then mret tt else
  s ← current_state;
  (if (is_lastIndexedHeight s =? 0)%Z then
     match getGenesisBlock with
     | Some g => modify_st (λ st, st <| ix_firstBlockHeight := b_Height g |>)
     | None => panic
     end
   else modify_st (λ st, st <| ix_firstBlockHeight := 1%Z |>));;
  emit EfCurrentEpoch;;
  modify_st (λ st, st <| ix_firstBlockHeightInitialized := true |>).

(** Go: indexer/indexer.go isFirstBlockHeight *)
Definition isFirstBlockHeight (height : Z) : M Ix bool :=
  gets (λ st, (height =? ix_firstBlockHeight st)%Z).

(** Go: indexer/indexer.go isFirstBlock *)
Definition isFirstBlock (block : Block) : M Ix bool := isFirstBlockHeight (b_Height block).

(** Go: indexer/indexer.go resetTo

    [false] is an error of the database. *)
Definition resetTo (height : Z) : M Ix bool :=
  ok ← attempt;
  db ← gets ix_db;
  match (if ok : bool then ResetTo height db else None) with
  | None => mret false
  | Some db =>
      modify_st (λ st, st <| ix_db := db |>);;
      s ← loadState;
      modify_st (λ st, st <| ix_state := Some s |> <| ix_firstBlockHeightInitialized := false |>);;
      initFirstBlockHeight;;
      mret true
  end.

(** [indexer.listener.AppStateReadonly(height)], whose error ends in a panic *)
Definition state_at (height : Z) : M Ix AppState :=
  match AppStateReadonly height with Some w => mret w | None => panic end.

(** Go: indexer/indexer.go initializeStateIfNeeded *)
Definition initializeStateIfNeeded (block : Block) : M Ix unit :=
  s ← current_state;
  match is_totalStake s, is_totalBalance s with
  | Some _, Some _ => mret tt
  | _, _ =>
      prevState ← state_at (u64 (b_Height block - 1));
      modify_st (λ st, st <| ix_state := Some (s <| is_totalBalance := Some (total_balance prevState) |>
                                                 <| is_totalStake := Some (total_stake prevState) |>) |>)
  end.

(** Go: indexer/indexer.go getCoins *)
Definition getCoins (stats : BlockStats) (isFirstBlock : bool) (diff : balanceDiff)
    : M Ix (CoinsRecord * Z * Z) :=
  s ← current_state;
  match is_totalBalance s, is_totalStake s with
  | Some balance, Some stake =>
      let minted :=
        if isFirstBlock then Some (or_zero (bs_MintedCoins stats) + balance + stake)%Z
        else bs_MintedCoins stats in
      let totalBalance := (balance + bd_balance diff)%Z in
      let totalStake := (stake + bd_stake diff)%Z in
      mret (mkCoinsRecord _ (ConvertToFloat minted) (ConvertToFloat (bs_BurntCoins stats))
              (ConvertToFloat (Some totalBalance)) (ConvertToFloat (Some totalStake)),
            totalBalance, totalStake)
  | _, _ => panic
  end.

(** Go: indexer/indexer.go convertIncomingData

    [stats] is what the collector holds; the conversions that do not depend on the state
    of the indexer are those of [convert_data]. *)
Definition convertIncomingData (stats : BlockStats) (block : Block) : M Ix result :=
  enabled ← gets ix_statsEnabled;
  let stats := if enabled : bool then stats else emptyStats in
  prevState ← state_at (if decide (b_Hash block = genesisHash) then b_Height block
                        else u64 (b_Height block - 1));
  newState ← state_at (b_Height block);
  first ← isFirstBlock block;
  let '(balanceUpdates, diff) :=
    determineBalanceUpdates first (bs_BalanceUpdateAddrs stats) update_order prevState newState in
  '(coins, totalBalance, totalStake) ← getCoins stats first diff;
  s ← current_state;
  migrating ← gets (λ st, bool_decide (is_Some (ix_secondaryStorage st)));
  data ← lift_outcome (convert_data stats block prevState newState
           (mkIndexerPart migrating first (contracts (is_actualOracleVotingHolder s)) balanceUpdates coins));
  mret (mkResult _ data
    (mkResultData totalBalance totalStake (bs_NewActualOracleVotingContracts stats)
       (bs_NewNotActualOracleVotingContracts stats) (cc_flipTxs (d_collector data)))).

(** The attempts that are left after those of a loop that retries one operation. *)
Fixpoint retry_faults (f : list bool) : list bool :=
  match f with
  | [] => []
  | true :: f => f
  | false :: f => retry_faults f
  end.

(** Go: indexer/indexer.go saveData *)
Definition saveData (data : Data) : M Ix unit :=
  modify_st (λ st, st <| ix_faults ::= retry_faults |> <| ix_db ::= Save data |>);;
  emit (EfSaved (d_Block data)).

(** Go: indexer/indexer.go applyOnState *)
Definition applyOnState (data : result) : M Ix unit :=
  s ← current_state;
  modify_st (λ st, st <| ix_state := Some (
    s <| is_lastIndexedHeight := b_Height (d_Block (r_dbData data)) |>
      <| is_totalBalance := Some (rd_totalBalance (r_resData data)) |>
      <| is_totalStake := Some (rd_totalStake (r_resData data)) |>
      <| is_actualOracleVotingHolder ::= λ h,
           vh_remove (vh_remove (vh_add h (rd_newActualOracleVotings (r_resData data)))
                                (rd_newNotActualOracleVotings (r_resData data)))
                     (d_OracleVotingContractsToProlong (r_dbData data)) |>) |>).

(** Go: indexer/indexer.go indexBlock:271-299

    After the block is saved. *)
Definition publish_block (block : Block) (res : result) : M Ix unit :=
  emit (EfLoadFlips (rd_flipTxs (r_resData res)));;
  applyOnState res;;
  modify_st (λ st, st <| ix_secondaryStorage ::= λ s,
    match s with
    | Some last => if (last <=? b_Height block)%Z then None else Some last
    | None => None
    end |>);;
  (if b_ValidationFinished block
   then emit (EfNewEpoch (u16 (u16 (d_Epoch (r_dbData res)) + 1)) (b_Height block)) else mret tt);;
  emit (EfNewBlock (b_Height block));;
  emit (EfRefreshUpgradeVoting (d_UpgradesVotes (r_dbData res)) (b_Height block));;
  emit EfMakeEpochTreeSnapshot;;
  check ← gets ix_checkBalances;
  if check : bool then emit EfCheckBalances else mret tt.

(** Go: indexer/indexer.go indexBlock:230-269

    The part of [indexBlock] after the heights are settled; [genesis] is the genesis
    block that has to be saved first. *)
Definition process_block (stats : BlockStats) (block : Block) (genesis : option Block) : M Ix unit :=
  initializeStateIfNeeded block;;
  match genesis with
  | Some g =>
      modify_st (λ st, st <| ix_statsEnabled := false |>);;
      res ← convertIncomingData stats g;
      saveData (r_dbData res)
  | None => mret tt
  end;;
  restore ← gets ix_restore;
  (if restore : bool
   then emit EfRestored;; modify_st (λ st, st <| ix_restore := false |>) else mret tt);;
  modify_st (λ st, st <| ix_statsEnabled := true |>);;
  res ← convertIncomingData stats block;
  (if b_ValidationFinished block then emit EfRemoveEpochTreeSnapshot else mret tt);;
  saveData (r_dbData res);;
  publish_block block res.

(** Go: indexer/indexer.go indexBlock:188-228

    The loop: [None] when the fuel is not enough. *)
Fixpoint index_loop (fuel : nat) (stats : BlockStats) (block : Block) (genesis : option Block)
    : M Ix (option unit) :=
  match fuel with
  | O => mret None
  | S fuel =>
      h ← getHeightToIndex;
      let heightToIndex := match genesis with Some _ => u64 (h + 1) | None => h end in
      if (heightToIndex <? b_Height block)%Z then
        match getGenesisBlock with
        | None => index_loop fuel stats block None
        | Some g =>
            if (b_Height block =? u64 (b_Height g + 1))%Z
            then process_block stats block (Some g);; mret (Some tt)
            else panic
        end
      else if (b_Height block <? heightToIndex)%Z then
        let heightToReset := u64 (b_Height block - 1) in
        first ← isFirstBlock block;
        let afterGenesis := negb first && bool_decide (b_ParentHash block = genesisHash) in
        if afterGenesis && negb (bool_decide (is_Some getGenesisBlock))
        then index_loop fuel stats block None
        else
          let heightToReset := if afterGenesis then u64 (heightToReset - 1) else heightToReset in
          let genesis := if afterGenesis then getGenesisBlock else genesis in
          ok ← resetTo heightToReset;
          (if ok : bool then
             first ← isFirstBlockHeight (b_Height block);
             modify_st (λ st, st <| ix_restore ::= λ r, r || negb first |>)
           else mret tt);;
          index_loop fuel stats block genesis
      else process_block stats block genesis;; mret (Some tt)
  end.

(** Go: indexer/indexer.go indexBlock

    A disabled indexer waits forever. *)
Definition indexBlock (fuel : nat) (stats : BlockStats) (block : Block) : M Ix (option unit) :=
  enabled ← gets ix_enabled;
  if negb enabled then mret None else
  initFirstBlockHeight;;
  index_loop fuel stats block None.
End operations.

(** ** What a block does to the database *)

Section properties.
Context `{EpochApi, !NodeLaws, !TxApi, !BlockApi, !Storage, !StorageLaws, Chain}.
Implicit Types st : Ix.

(** The blocks of a stored chain have one height after another, from [a]. *)
Definition from (a : Z) (l : list Block) : Prop :=
  ∀ i b, l !! i = Some b → b_Height b = (a + Z.of_nat i)%Z.
Definition consecutive (l : list Block) : Prop := ∃ a, (1 ≤ a)%Z ∧ from a l.

Definition last_height (l : list Block) : Z :=
  match list.last l with Some b => b_Height b | None => 0%Z end.

Abbreviation below h := (filter (λ b : Block, (b_Height b ≤ h)%Z)).

Lemma from_cons a b l : from a (b :: l) ↔ b_Height b = a ∧ from (a + 1) l.
Proof.
  split.
  - intros Hf. split; [rewrite (Hf 0 b) by done; lia|].
    intros i c Hi. rewrite (Hf (S i) c) by done. lia.
  - intros [Hb Hf] [|i] c Hi; [cbn in Hi; simplify_eq; lia|]. rewrite (Hf i c) by done. lia.
Qed.

Lemma from_app a l k : from a (l ++ k) ↔ from a l ∧ from (a + Z.of_nat (length l)) k.
Proof.
  revert a. induction l as [|b l IH]; intros a; cbn.
  { rewrite Z.add_0_r. split; [|tauto]. intros Hf. by split; [intros i c Hi; rewrite lookup_nil in Hi|]. }
  rewrite !from_cons, IH.
  replace (a + 1 + Z.of_nat (length l))%Z with (a + Z.of_nat (S (length l)))%Z by lia. tauto.
Qed.

(** The last height of a chain tells its length. *)
Lemma last_height_from a l :
  from a l → l ≠ [] → last_height l = (a + Z.of_nat (length l) - 1)%Z.
Proof.
  intros Hf Hne. destruct l as [|b l _] using rev_ind; [done|].
  unfold last_height. rewrite last_snoc. apply from_app in Hf as [_ Hf].
  rewrite (Hf 0 b) by done. rewrite length_app. cbn. lia.
Qed.

Lemma below_from a (l : list Block) h : from a l →
  from a (below h l) ∧ (below h l = [] ∨ last_height (below h l) = Z.min h (last_height l)) ∧
  (below h l = [] → l = [] ∨ (h < a)%Z) ∧ ((last_height l ≤ h)%Z → below h l = l).
Proof.
  intros Hf. induction l as [|b l IH] using rev_ind.
  { cbn. split_and!; [done|by left|by left|done]. }
  apply from_app in Hf as [Hl Hb]. specialize (Hb 0 b eq_refl) as Hbh. rewrite Z.add_0_r in Hbh.
  destruct (IH Hl) as (I1 & I2 & I3 & I4). rewrite list.filter_app, filter_cons, filter_nil.
  assert (last_height (l ++ [b]) = b_Height b) as Hlb by (unfold last_height; by rewrite last_snoc).
  rewrite Hlb. destruct (decide (b_Height b ≤ h)%Z) as [Hle|Hgt].
  - assert (below h l = l) as Ebl.
    { destruct l as [|c l']; [done|]. apply I4.
      rewrite (last_height_from a) by done. lia. }
    rewrite Ebl, Hlb. split_and!; [by apply from_app|right; lia|by intros [_ [=]]%app_nil|done].
  - rewrite app_nil_r. split_and!; [done| | |intros; lia].
    + destruct I2 as [ ->| ->]; [by left|]. destruct l as [|c l']; [by left|].
      right. rewrite (last_height_from a) by done. lia.
    + intros He. right. destruct (I3 He) as [ ->|]; [|lia]. cbn in Hbh. lia.
Qed.

Lemma below_below h h' (l : list Block) : (h' ≤ h)%Z → below h' (below h l) = below h' l.
Proof.
  intros Hle. induction l as [|b l IH]; [done|].
  rewrite !filter_cons. destruct (decide (b_Height b ≤ h)%Z).
  - rewrite filter_cons. destruct (decide (b_Height b ≤ h')%Z); by rewrite IH.
  - rewrite decide_False by lia. apply IH.
Qed.

(** ** The pieces of the loop *)

(** The node answers for every height, and the genesis block and the block can be
    converted. *)
Record node_ok (stats : BlockStats) (g block : Block) : Prop := {
  nd_states : ∀ h, is_Some (AppStateReadonly h);
  nd_genesis : b_Hash g = genesisHash;
  nd_convert_genesis : ∀ w, AppStateReadonly (b_Height g) = Some w → conversion_ok emptyStats g w w;
  nd_convert : ∀ w0 w1, AppStateReadonly (b_Height block - 1) = Some w0 →
    AppStateReadonly (b_Height block) = Some w1 → conversion_ok stats block w0 w1
}.

(** The totals of a state, when they are set. *)
Definition totals (s : indexerState) : option (Z * Z) :=
  match is_totalStake s, is_totalBalance s with
  | Some k, Some b => Some (b, k)
  | _, _ => None
  end.

(** The totals [initializeStateIfNeeded] leaves. *)
Definition initial_totals (s : indexerState) (w : AppState) : Z * Z :=
  default (total_balance w, total_stake w) (totals s).

Lemma wp_state_at h w (Q : AppState → Ix → Prop) st :
  AppStateReadonly h = Some w → Q w st → wp (state_at h) Q st.
Proof. intros Hw HQ. unfold state_at. by rewrite Hw. Qed.

Lemma wp_current_state s (Q : indexerState → Ix → Prop) st :
  ix_state st = Some s → Q s st → wp current_state Q st.
Proof. intros Hs HQ. unfold wp, current_state. by rewrite Hs. Qed.

(** [st'] differs from [st] in the totals of the state, now set, at most. *)
Lemma wp_initializeStateIfNeeded block s w st :
  ix_state st = Some s → AppStateReadonly (u64 (b_Height block - 1)) = Some w →
  wp (initializeStateIfNeeded block) (λ _ st', st' = st <| ix_state := Some
    (s <| is_totalBalance := Some (initial_totals s w).1 |>
       <| is_totalStake := Some (initial_totals s w).2 |>) |>) st.
Proof.
  intros Hs Hw. unfold initializeStateIfNeeded. wp_step. apply (wp_current_state s); [done|].
  unfold initial_totals, totals.
  destruct (is_totalStake s) as [k|] eqn:Hk, (is_totalBalance s) as [b|] eqn:Hb; cbn.
  1: { destruct st, s. cbn in *. by subst. }
  all: wp_step; apply (wp_state_at _ w); [done|]; by wp_step.
Qed.

(** The result of a conversion. *)
Definition converts (stats : BlockStats) (block : Block) st (res : result) : Prop :=
  ∃ s w0 w1 b k,
    ix_state st = Some s ∧ is_totalBalance s = Some b ∧ is_totalStake s = Some k ∧
    AppStateReadonly (if decide (b_Hash block = genesisHash) then b_Height block
                      else u64 (b_Height block - 1)) = Some w0 ∧
    AppStateReadonly (b_Height block) = Some w1 ∧
    let stats := if ix_statsEnabled st then stats else emptyStats in
    let diff := (determineBalanceUpdates (b_Height block =? ix_firstBlockHeight st)%Z
                   (bs_BalanceUpdateAddrs stats) update_order w0 w1).2 in
    d_Block (r_dbData res) = block ∧ d_Epoch (r_dbData res) = Epoch w0 ∧
    rd_totalBalance (r_resData res) = (b + bd_balance diff)%Z ∧
    rd_totalStake (r_resData res) = (k + bd_stake diff)%Z ∧
    rd_newActualOracleVotings (r_resData res) = bs_NewActualOracleVotingContracts stats ∧
    rd_newNotActualOracleVotings (r_resData res) = bs_NewNotActualOracleVotingContracts stats ∧
    rd_flipTxs (r_resData res) = snd <$> omap detectSubmittedFlip (b_Transactions block) ∧
    d_OracleVotingContractsToProlong (r_dbData res)
    = detectOracleVotingsToProlong CanBeProlonged
        (voting_order (contracts (is_actualOracleVotingHolder s))) w1.

Lemma wp_convertIncomingData stats block st s b k :
  (∀ h, is_Some (AppStateReadonly h)) →
  (∀ w0 w1, AppStateReadonly (if decide (b_Hash block = genesisHash) then b_Height block
                              else u64 (b_Height block - 1)) = Some w0 →
     AppStateReadonly (b_Height block) = Some w1 →
     conversion_ok (if ix_statsEnabled st then stats else emptyStats) block w0 w1) →
  ix_state st = Some s → is_totalBalance s = Some b → is_totalStake s = Some k →
  wp (convertIncomingData stats block) (λ res st', st' = st ∧ converts stats block st res) st.
Proof.
  intros Hnode Hconv Hs Hb Hk. unfold convertIncomingData. do 2 wp_step.
  destruct (Hnode (if decide (b_Hash block = genesisHash) then b_Height block
                   else u64 (b_Height block - 1))) as [w0 Hw0].
  destruct (Hnode (b_Height block)) as [w1 Hw1]. specialize (Hconv w0 w1 Hw0 Hw1).
  wp_step. apply (wp_state_at _ w0); [done|]. wp_step. apply (wp_state_at _ w1); [done|].
  unfold isFirstBlock, isFirstBlockHeight. do 2 wp_step.
  match goal with |- context [determineBalanceUpdates ?f ?a ?o w0 w1] =>
    destruct (determineBalanceUpdates f a o w0 w1) as [ups diff] eqn:Hd end.
  unfold getCoins. wp_step. wp_step. apply (wp_current_state s); [done|]. rewrite Hb, Hk.
  do 2 wp_step. apply (wp_current_state s); [done|]. do 3 wp_step.
  match goal with |- context [convert_data ?a ?b ?c ?d ?ip] =>
    destruct (convert_data_done a b c d ip Hconv) as (data & K & sw & hist & -> & Hblk & _ & Hep & Hft & Hv & _)
  end.
  unfold lift_outcome, wp at 1. wp_step.
  split; [done|]. exists s, w0, w1, b, k. cbn zeta. cbn in Hv. rewrite Hd. cbn. rewrite Hblk, Hep, Hft, Hv. done.
Qed.

(** The state after [applyOnState]. *)
Definition applied (s : indexerState) (res : result) : indexerState :=
  mkIndexerState (b_Height (d_Block (r_dbData res)))
    (Some (rd_totalBalance (r_resData res))) (Some (rd_totalStake (r_resData res)))
    (vh_remove (vh_remove (vh_add (is_actualOracleVotingHolder s)
                                  (rd_newActualOracleVotings (r_resData res)))
                          (rd_newNotActualOracleVotings (r_resData res)))
               (d_OracleVotingContractsToProlong (r_dbData res))).

Definition published_effects (block : Block) (res : result) (check : bool) : list effect :=
  [EfLoadFlips (rd_flipTxs (r_resData res))]
  ++ (if b_ValidationFinished block
      then [EfNewEpoch (u16 (u16 (d_Epoch (r_dbData res)) + 1)) (b_Height block)] else [])
  ++ [EfNewBlock (b_Height block); EfRefreshUpgradeVoting (d_UpgradesVotes (r_dbData res)) (b_Height block);
      EfMakeEpochTreeSnapshot]
  ++ (if check then [EfCheckBalances] else []).

Lemma wp_publish_block block res s st :
  ix_state st = Some s → d_Block (r_dbData res) = block →
  wp (publish_block block res) (λ _ st',
    ix_state st' = Some (applied s res) ∧ ix_db st' = ix_db st ∧ ix_restore st' = ix_restore st ∧
    ix_enabled st' = ix_enabled st ∧ ix_faults st' = ix_faults st ∧
    ix_firstBlockHeight st' = ix_firstBlockHeight st ∧
    ix_firstBlockHeightInitialized st' = ix_firstBlockHeightInitialized st ∧
    ix_checkBalances st' = ix_checkBalances st ∧
    ix_effects st' = ix_effects st ++ published_effects block res (ix_checkBalances st)) st.
Proof.
  intros Hs Hb. unfold publish_block, emit, applyOnState, published_effects.
  do 2 wp_step. wp_step. wp_step. apply (wp_current_state s); [done|]. do 3 wp_step.
  wp_step. destruct (b_ValidationFinished block).
  all: repeat wp_step.
  all: match goal with |- wp (if ?c then _ else _) _ _ => change c with (ix_checkBalances st) end.
  all: destruct (ix_checkBalances st) eqn:Hc; wp_step; cbn; rewrite <- ?app_assoc; by destruct s.
Qed.

(** The state a block leaves the indexer in, from the state [s] before it: the totals
    move by the difference between the node's states before and after the block, and
    the votings the block starts and ends are added and removed. *)
Definition state_after (stats : BlockStats) (block : Block) (first : bool)
    (s s' : indexerState) : Prop :=
  ∃ w0 w1, AppStateReadonly (b_Height block - 1) = Some w0 ∧
    AppStateReadonly (b_Height block) = Some w1 ∧
    let diff := (determineBalanceUpdates first (bs_BalanceUpdateAddrs stats) update_order w0 w1).2 in
    s' = mkIndexerState (b_Height block)
      (Some ((initial_totals s w0).1 + bd_balance diff)%Z)
      (Some ((initial_totals s w0).2 + bd_stake diff)%Z)
      (vh_remove (vh_remove (vh_add (is_actualOracleVotingHolder s)
                              (bs_NewActualOracleVotingContracts stats))
                    (bs_NewNotActualOracleVotingContracts stats))
         (detectOracleVotingsToProlong CanBeProlonged
            (voting_order (contracts (is_actualOracleVotingHolder s))) w1)).

(** The effects of a block that is saved, [saved] being the genesis block saved before
    it. *)
Definition block_effects (block : Block) (res : result) (saved : list Block)
    (restore check : bool) : list effect :=
  (EfSaved <$> saved) ++ (if restore then [EfRestored] else [])
  ++ (if b_ValidationFinished block then [EfRemoveEpochTreeSnapshot] else [])
  ++ [EfSaved block] ++ published_effects block res check.

Record indexed (stats : BlockStats) (block : Block) (saved : list Block) (s : indexerState)
    st st' : Prop := {
  ixd_stored : stored (ix_db st') = stored (ix_db st) ++ saved ++ [block];
  ixd_state : ∃ s', ix_state st' = Some s' ∧
    state_after stats block (b_Height block =? ix_firstBlockHeight st)%Z s s';
  ixd_restore : ix_restore st' = false;
  ixd_enabled : ix_enabled st' = ix_enabled st;
  ixd_init : ix_firstBlockHeightInitialized st' = ix_firstBlockHeightInitialized st;
  ixd_effects : ∃ res,
    rd_flipTxs (r_resData res) = snd <$> omap detectSubmittedFlip (b_Transactions block) ∧
    ix_effects st' = ix_effects st
    ++ block_effects block res saved (ix_restore st) (ix_checkBalances st)
}.

Lemma wp_saveData data st (Q : unit → Ix → Prop) :
  Q tt (st <| ix_faults ::= retry_faults |> <| ix_db ::= Save data |>
           <| ix_effects ::= λ l, l ++ [EfSaved (d_Block data)] |>) →
  wp (saveData data) Q st.
Proof. done. Qed.

(** The genesis block is saved without a trace in the state of the indexer. *)
Lemma wp_save_genesis stats g block gp s b k st :
  node_ok stats g block → (gp = None ∨ gp = Some g) → ix_state st = Some s → is_totalBalance s = Some b → is_totalStake s = Some k →
  wp (match gp with
      | Some g =>
          modify_st (λ st, st <| ix_statsEnabled := false |>);;
          res ← convertIncomingData stats g;
          saveData (r_dbData res)
      | None => mret tt
      end)
    (λ _ st', stored (ix_db st') = stored (ix_db st) ++ option_list gp ∧ ix_state st' = Some s ∧
       ix_restore st' = ix_restore st ∧ ix_enabled st' = ix_enabled st ∧
       ix_firstBlockHeight st' = ix_firstBlockHeight st ∧
       ix_firstBlockHeightInitialized st' = ix_firstBlockHeightInitialized st ∧
       ix_checkBalances st' = ix_checkBalances st ∧
       ix_effects st' = ix_effects st ++ (EfSaved <$> option_list gp)) st.
Proof.
  intros [Hnode Hgen Hconv _] Hgp Hs Hb Hk.
  destruct gp as [g'|]; [|wp_step; cbn; by rewrite !app_nil_r].
  assert (g' = g) as -> by (destruct Hgp; congruence). do 3 wp_step.
  wp_call (wp_convertIncomingData stats g _ s b k Hnode); [|done..|].
  { intros w0 w1. rewrite decide_True by done. intros Hw0 Hw1. assert (w1 = w0) as -> by congruence.
    by apply Hconv. }
  intros res st' [-> (s' & w0 & w1 & b' & k' & _ & _ & _ & _ & _ & Hblk & _)].
  apply wp_saveData. cbn. rewrite stored_Save, Hblk. done.
Qed.

Lemma wp_process_block stats g block gp s st :
  node_ok stats g block → (gp = None ∨ gp = Some g) → ix_state st = Some s →
  (1 ≤ b_Height block < 2 ^ 64)%Z → b_Hash block ≠ genesisHash →
  wp (process_block stats block gp) (λ _ st', indexed stats block (option_list gp) s st st') st.
Proof.
  intros Hok Hgp Hs Hh Hhash. pose proof Hok as [Hnode _ _ Hconv]. unfold process_block.
  assert (u64 (b_Height block - 1) = b_Height block - 1)%Z as Hpred by (apply uwrap_small; lia).
  destruct (Hnode (b_Height block - 1)%Z) as [w0 Hw0].
  wp_step. wp_call (wp_initializeStateIfNeeded block s w0); [done|by rewrite Hpred|].
  intros [] st1 ->. wp_step.
  wp_call (wp_save_genesis stats g block gp _ _ _ _ Hok Hgp); [reflexivity..|].
  intros [] st2 (Hdb2 & Hs2 & Hr2 & He2 & Hf2 & Hi2 & Hc2 & Hef2). do 3 wp_step.
  assert (ix_restore st2 = ix_restore st) as Hrr by exact Hr2. rewrite Hrr.
  eapply (wp_mono _ (λ _ st3, ∃ l, st3 = st2 <| ix_effects := l |> <| ix_restore := false |> ∧
    l = ix_effects st2 ++ (if ix_restore st then [EfRestored] else []))).
  { clear Hr2. destruct (ix_restore st); unfold emit; repeat wp_step; eexists;
      (split; [|reflexivity]); cbn; [done|].
    rewrite app_nil_r. clear - Hrr. destruct st2. cbn in *. by subst. }
  intros [] st3 (l & -> & ->). do 3 wp_step.
  wp_call (wp_convertIncomingData stats block _ _ _ _ Hnode); [|exact Hs2|reflexivity|reflexivity|].
  { intros u0 u1. rewrite decide_False, Hpred by done. apply Hconv. }
  intros res st4 [-> (s' & v0 & v1 & b & k & Hs' & Hb & Hk & Hv0 & Hv1 & Hcv)].
  rewrite decide_False, Hpred in Hv0 by done. cbn [ix_state modify_field] in Hs'.
  assert (v0 = w0) as -> by congruence.
  assert (s' = s <| is_totalBalance := Some (initial_totals s w0).1 |>
                 <| is_totalStake := Some (initial_totals s w0).2 |>) as -> by (cbn in Hs'; congruence).
  destruct Hcv as (Hblk & _ & Htb & Htk & Hna & Hnn & Hft & Htp).
  wp_step. eapply (wp_mono _ (λ _ st5, ix_db st5 = ix_db st2 ∧ ix_state st5 = ix_state st2 ∧
    ix_restore st5 = false ∧ ix_enabled st5 = ix_enabled st2 ∧
    ix_firstBlockHeightInitialized st5 = ix_firstBlockHeightInitialized st2 ∧
    ix_checkBalances st5 = ix_checkBalances st2 ∧
    ix_effects st5 = ix_effects st2 ++ (if ix_restore st then [EfRestored] else [])
      ++ (if b_ValidationFinished block then [EfRemoveEpochTreeSnapshot] else []))).
  { destruct (b_ValidationFinished block); unfold emit; wp_step; cbn;
      rewrite ?app_nil_r, <- ?app_assoc; done. }
  intros [] st5 (Hdb5 & Hs5 & Hr5 & He5 & Hi5 & Hc5 & Hef5). wp_step.
  apply wp_saveData.
  wp_call (wp_publish_block block res); [cbn; rewrite Hs5; exact Hs2|exact Hblk|].
  intros [] st6 (Hs6 & Hdb6 & Hr6 & He6 & _ & _ & Hi6 & _ & Hef6). cbn in Hs6, Hdb6, Hr6, He6, Hi6, Hef6.
  split.
  - rewrite Hdb6, stored_Save, Hdb5, Hdb2, Hblk. cbn. by rewrite <- app_assoc.
  - eexists. split; [exact Hs6|]. exists w0, v1. split; [done|]. split; [done|]. cbn zeta.
    unfold applied. cbn in Htb, Htk, Hna, Hnn, Htp. rewrite Htb, Htk, Hna, Hnn, Htp, Hblk, Hf2.
    simplify_eq/=. done.
  - congruence.
  - rewrite He6, He5, He2. done.
  - rewrite Hi6, Hi5, Hi2. done.
  - exists res. split; [exact Hft|]. rewrite Hef6, Hef5, Hef2, Hc5, Hc2, Hblk. cbn. unfold block_effects.
    by rewrite <- !app_assoc.
Qed.

(** ** The loop *)

(** The effects of a block, the current epoch being announced before. *)
Definition announced (l l' : list effect) : Prop := ∃ n, l' = l ++ replicate n EfCurrentEpoch.

Lemma announced_refl l : announced l l.
Proof. exists 0%nat. by rewrite app_nil_r. Qed.
Lemma announced_trans l1 l2 l3 : announced l1 l2 → announced l2 l3 → announced l1 l3.
Proof. intros [n ->] [m ->]. exists (n + m)%nat. by rewrite replicate_add, app_assoc. Qed.

(** The height of the first block, once it is set. *)
Definition first_height st (s : indexerState) (g : Block) : Z :=
  if ix_firstBlockHeightInitialized st then ix_firstBlockHeight st
  else if (is_lastIndexedHeight s =? 0)%Z then b_Height g else 1.

Lemma wp_initFirstBlockHeight s g st :
  ix_state st = Some s → genesisBlock = Some g →
  wp initFirstBlockHeight (λ _ st', ∃ l,
    st' = st <| ix_firstBlockHeight := first_height st s g |>
             <| ix_firstBlockHeightInitialized := true |> <| ix_effects := l |> ∧
    announced (ix_effects st) l) st.
Proof.
  intros Hs Hg. unfold initFirstBlockHeight, first_height. do 2 wp_step.
  destruct (ix_firstBlockHeightInitialized st) eqn:Hi.
  { wp_step. exists (ix_effects st). split; [|apply announced_refl]. destruct st. cbn in *. by subst. }
  wp_step. apply (wp_current_state s); [done|]. unfold getGenesisBlock, emit. rewrite Hg.
  destruct (is_lastIndexedHeight s =? 0)%Z; repeat wp_step;
    (eexists; split; [reflexivity|]; by exists 1%nat).
Qed.

(** What the loop needs to know of the state, of the node and of the block. *)
Record ready (g block : Block) (s : indexerState) st : Prop := {
  rd_state : ix_state st = Some s;
  rd_last : is_lastIndexedHeight s = last_height (stored (ix_db st));
  rd_chain : consecutive (stored (ix_db st));
  rd_bound : (last_height (stored (ix_db st)) < 2 ^ 64 - 2)%Z
}.

Record incoming (stats : BlockStats) (g block : Block) : Prop := {
  in_node : node_ok stats g block;
  in_genesis : genesisBlock = Some g;
  in_genesis_height : (1 ≤ b_Height g < 2 ^ 64 - 2)%Z;
  in_height : (1 ≤ b_Height block < 2 ^ 64 - 2)%Z;
  in_hash : b_Hash block ≠ genesisHash;
  in_after : b_ParentHash block = genesisHash → b_Height block = (b_Height g + 1)%Z
}.

Lemma last_height_nonneg l : consecutive l → (0 ≤ last_height l)%Z.
Proof.
  intros (a & Ha & Hf). destruct l as [|b l]; [done|].
  rewrite (last_height_from a) by done. cbn. lia.
Qed.

(** The heights agree: the block is processed. *)
Lemma wp_settled fuel stats g block gp s st :
  incoming stats g block → ready g block s st → (gp = None ∨ gp = Some g) →
  let expected := (last_height (stored (ix_db st)) + 1 + match gp with Some _ => 1 | None => 0 end)%Z in
  (expected ≤ b_Height block)%Z →
  ((expected < b_Height block)%Z → b_Height block = (b_Height g + 1)%Z) →
  wp (index_loop (S fuel) stats block gp) (λ r st', r = Some tt ∧
    indexed stats block
      (if (expected <? b_Height block)%Z then [g] else option_list gp) s st st') st.
Proof.
  intros [Hnode Hg Hgh Hh Hhash _] [Hs Hl Hc Hb] Hgp expected Hle Hlt.
  pose proof (last_height_nonneg _ Hc) as Hnn. cbn [index_loop].
  wp_step. unfold getHeightToIndex. do 2 wp_step. rewrite Hs. wp_step.
  rewrite Hl, (uwrap_small 64 (last_height _ + 1)) by lia.
  assert (match gp with
          | Some _ => u64 (last_height (stored (ix_db st)) + 1 + 1)
          | None => (last_height (stored (ix_db st)) + 1)%Z end = expected) as ->.
  { unfold expected. destruct gp; [rewrite uwrap_small by lia|]; lia. }
  destruct (Z.ltb_spec expected (b_Height block)) as [Hlt'|Hge].
  - unfold getGenesisBlock. rewrite Hg, uwrap_small by lia. rewrite (proj2 (Z.eqb_eq _ _)) by auto.
    wp_step. wp_call (wp_process_block stats g block (Some g) s); [done|by right|done|lia|done|].
    intros [] st' Hi. by wp_step.
  - rewrite (proj2 (Z.ltb_ge _ _)) by lia.
    wp_step. wp_call (wp_process_block stats g block gp s); [done|done|done|lia|done|].
    intros [] st' Hi. by wp_step.
Qed.

(** The height the database is reset to. *)
Definition after_genesis (block : Block) st : bool :=
  negb (b_Height block =? ix_firstBlockHeight st)%Z && bool_decide (b_ParentHash block = genesisHash).
Definition reset_height (block : Block) (after : bool) : Z :=
  if after then (b_Height block - 2)%Z else (b_Height block - 1)%Z.

Lemma reset_height_u64 block (after : bool) :
  (1 ≤ b_Height block < 2 ^ 64)%Z → (after = true → (2 ≤ b_Height block)%Z) →
  (if after then u64 (u64 (b_Height block - 1) - 1) else u64 (b_Height block - 1))
  = reset_height block after.
Proof.
  intros Hh Ha. unfold reset_height. rewrite (uwrap_small 64 (b_Height block - 1)) by lia.
  destruct after; [|done]. specialize (Ha eq_refl). rewrite uwrap_small by lia. lia.
Qed.

Definition loaded (db : St) : indexerState :=
  mkIndexerState (GetLastHeight db) None None (newActualOracleVotingHolder (ActualOracleVotings db)).

Lemma wp_attempt (Q : bool → Ix → Prop) st :
  Q (default true (head (ix_faults st))) (st <| ix_faults ::= tail |>) → wp attempt Q st.
Proof.
  intros HQ. unfold wp, attempt. destruct (ix_faults st) as [|ok f] eqn:Hf; cbn in HQ |- *.
  - replace st with (st <| ix_faults := [] |>) by (destruct st; cbn in *; by subst).
    by rewrite Hf in HQ.
  - by rewrite Hf in HQ.
Qed.

(** What a reset that succeeds does. *)
Record was_reset (height : Z) st st' : Prop := {
  wr_db : ResetTo height (ix_db st) = Some (ix_db st');
  wr_state : ix_state st' = Some (loaded (ix_db st'));
  wr_enabled : ix_enabled st' = ix_enabled st;
  wr_check : ix_checkBalances st' = ix_checkBalances st;
  wr_effects : announced (ix_effects st) (ix_effects st')
}.

(** A reset that is not refused fails and leaves everything as it was, or succeeds. *)
Lemma wp_resetTo height g st : genesisBlock = Some g → ¬ reset_refused height (stored (ix_db st)) →
  wp (resetTo height) (λ ok st',
    if ok : bool then was_reset height st st' ∧ default true (head (ix_faults st)) = true
    else st' = st <| ix_faults ::= tail |> ∧ head (ix_faults st) = Some false) st.
Proof.
  intros Hg Hr. pose proof (stored_ResetTo height (ix_db st)) as Hreset. rewrite decide_False in Hreset by done.
  destruct (ResetTo height (ix_db st)) as [db|] eqn:Hdb; [|done].
  unfold resetTo. wp_step. apply wp_attempt. do 2 wp_step. cbn.
  destruct (head (ix_faults st)) as [[]|] eqn:Hf; cbn; [|done|].
  all: rewrite Hdb; cbv beta iota; do 2 wp_step; wp_step; unfold loadState; unfold wp at 1; do 3 wp_step.
  all: wp_call (wp_initFirstBlockHeight (loaded db) g); [reflexivity|done|].
  all: intros [] st2 (l & -> & Hl); wp_step; split; [split; try done; by rewrite Hdb|done].
Qed.

Lemma wp_resetTo_refused height st : reset_refused height (stored (ix_db st)) →
  wp (resetTo height) (λ ok st', ok = false ∧ st' = st <| ix_faults ::= tail |>) st.
Proof.
  intros Hr. pose proof (stored_ResetTo height (ix_db st)) as Hreset. rewrite decide_True in Hreset by done.
  destruct (ResetTo height (ix_db st)) as [db|] eqn:Hdb; [done|].
  unfold resetTo. wp_step. apply wp_attempt. do 2 wp_step.
  cbn. destruct (head (ix_faults st)) as [[]|]; cbn; rewrite ?Hdb; done.
Qed.

(** What [indexBlock] leaves after a reset: the blocks above the reset are gone, the
    genesis block is back if it was dropped, and the totals were read anew. *)
Definition reindexed (stats : BlockStats) (g block : Block) st st' : Prop :=
  ∃ after start saved s,
    stored (ix_db start) = below (reset_height block after) (stored (ix_db st)) ∧
    (saved = [] ∧ after = false ∧
       (below (b_Height block - 1) (stored (ix_db st)) ≠ [] ∨ b_Height block = 1%Z)
     ∨ saved = [g] ∧ b_Height block = (b_Height g + 1)%Z ∧
       (after = true ∨ below (b_Height block - 1) (stored (ix_db st)) = [])) ∧
    totals s = None ∧ ix_enabled start = ix_enabled st ∧
    ix_checkBalances start = ix_checkBalances st ∧
    announced (ix_effects st) (ix_effects start) ∧
    indexed stats block saved s start st'.

(** The block after a reset that succeeded. *)
Lemma wp_after_reset fuel stats g block s after st st1 :
  incoming stats g block → ready g block s st →
  (b_Height block ≤ last_height (stored (ix_db st)))%Z →
  (after = true → b_Height block = (b_Height g + 1)%Z) →
  ((∀ x, x ∈ stored (ix_db st) → (b_Height block ≤ b_Height x)%Z) →
     b_Height block = 1%Z ∨ b_Height block = (b_Height g + 1)%Z) →
  was_reset (reset_height block after) st st1 →
  wp (index_loop (S fuel) stats block (if after then Some g else None))
    (λ r st', r = Some tt ∧ reindexed stats g block st st') st1.
Proof.
  intros Hin [Hs Hl (a & Ha & Hf) Hb] Hle Hag Hdrop [Hdb Hs1 He Hc Hef].
  pose proof Hin as [Hnode Hg Hgh Hh Hhash _].
  assert (stored (ix_db st1) = below (reset_height block after) (stored (ix_db st))) as Hst
    by (pose proof (stored_ResetTo (reset_height block after) (ix_db st)) as Hreset; rewrite Hdb in Hreset; cbn in Hreset;
        destruct (decide _) in Hreset; [done|by injection Hreset]).
  pose proof (below_from a _ (reset_height block after) Hf) as (Hf1 & Hl1 & Hn1 & _).
  rewrite <- Hst in Hf1, Hl1, Hn1.
  assert (reset_height block after < b_Height block)%Z as Hrh
    by (unfold reset_height; destruct after; lia).
  assert (ready g block (loaded (ix_db st1)) st1) as Hrd1.
  { split; [done|apply GetLastHeight_stored|by exists a|].
    destruct Hl1 as [->| ->]; cbn; lia. }
  assert ((stored (ix_db st1) ≠ [] ∧ last_height (stored (ix_db st1)) = reset_height block after)
    ∨ stored (ix_db st1) = [] ∧ (b_Height block = 1 ∨ b_Height block = b_Height g + 1)%Z) as Hcase.
  { destruct Hl1 as [Hnil|Hlast]; [|destruct (decide (stored (ix_db st1) = [])) as [Hnil|Hne]].
    3: { left. split; [done|]. lia. }
    all: right; split; [done|]; destruct after; [right; by apply Hag|]; apply Hdrop.
    all: intros x [i Hx]%list_elem_of_lookup; pose proof (Hf i x Hx) as Hxh.
    all: destruct (Hn1 Hnil) as [Hn|Hn]; [by rewrite Hn in Hx|unfold reset_height in Hn; lia]. }
  clear Hl1 Hn1 Hdrop.
  eapply wp_mono; [apply (wp_settled fuel _ g); [done|done|destruct after; auto|..]|].
  - unfold reset_height in Hcase. destruct Hcase as [[_ ->]|[-> Hc1]]; destruct after; cbn;
      try specialize (Hag eq_refl); lia.
  - unfold reset_height in Hcase. destruct Hcase as [[_ ->]|[-> Hc1]]; destruct after; cbn;
      try lia; by rewrite Hag.
  - intros r st' [-> Hi]. split; [done|]. exists after, st1. eexists _, (loaded (ix_db st1)).
    split; [exact Hst|].
    split; [|split_and!; [done..|exact Hi]].
    assert (after = false → reset_height block after = b_Height block - 1)%Z as Hr by by intros ->.
    destruct Hcase as [[Hne Hlast]|[Hnil Hc1]]; destruct after; cbn [option_list].
    + right. rewrite Hlast. rewrite Tauto.if_same. auto.
    + left. rewrite Hlast, (Hr eq_refl). rewrite (proj2 (Z.ltb_ge _ _)) by lia.
      rewrite (Hr eq_refl) in Hst.
      rewrite <- Hst. auto.
    + right. rewrite Tauto.if_same. auto.
    + rewrite Hnil. cbn. change (0 + 1 + 0)%Z with 1%Z. rewrite Hr in Hst by done. rewrite <- Hst.
      destruct (Z.ltb_spec 1 (b_Height block)).
      * right. split_and!; [done|lia|by right].
      * left. split_and!; [done..|right; lia].
Qed.
(** The incoming height was indexed before: the database is reset, as many times as it
    takes, and the block is indexed. *)
Lemma wp_loop_reset stats g block s : ∀ fuel gp st,
  incoming stats g block → ready g block s st →
  (b_Height block ≤ last_height (stored (ix_db st)))%Z →
  (gp = None ∨ after_genesis block st = true ∧ gp = Some g) →
  ((∀ x, x ∈ stored (ix_db st) → (b_Height block ≤ b_Height x)%Z) →
     b_Height block = 1%Z ∨ b_Height block = (b_Height g + 1)%Z) →
  ¬ reset_refused (reset_height block (bool_decide (b_ParentHash block = genesisHash))) (stored (ix_db st)) →
  (length (ix_faults st) + 2 ≤ fuel)%nat →
  wp (index_loop fuel stats block gp) (λ r st', r = Some tt ∧ reindexed stats g block st st') st.
Proof.
  induction fuel as [|fuel IH]; intros gp st Hin Hrd Hle Hgp Hdrop Hfirst Hfuel; [lia|].
  pose proof Hin as [Hnode Hg Hgh Hh Hhash Hafter]. pose proof Hrd as [Hs Hl Hc Hb].
  pose proof (last_height_nonneg _ Hc) as Hnn. cbn [index_loop].
  wp_step. unfold getHeightToIndex. do 2 wp_step. rewrite Hs. wp_step.
  rewrite Hl, (uwrap_small 64 (last_height _ + 1)) by lia.
  set (h := match gp with Some _ => u64 (last_height (stored (ix_db st)) + 1 + 1)
            | None => (last_height (stored (ix_db st)) + 1)%Z end).
  assert (b_Height block < h)%Z as Hlt.
  { unfold h. destruct gp; [rewrite uwrap_small by lia|]; lia. }
  rewrite (proj2 (Z.ltb_ge h (b_Height block))), (proj2 (Z.ltb_lt (b_Height block) h)) by lia.
  unfold isFirstBlock, isFirstBlockHeight. do 2 wp_step.
  fold (after_genesis block st). unfold getGenesisBlock. rewrite Hg.
  rewrite (bool_decide_true (is_Some (Some g))) by done. cbn [negb]. rewrite andb_false_r.
  assert (after_genesis block st = true → b_Height block = (b_Height g + 1)%Z) as Hag.
  { intros [_ Hp]%andb_true_iff. apply bool_decide_eq_true in Hp. by apply Hafter. }
  rewrite reset_height_u64 by (try intros Ha; try apply Hag in Ha; lia).
  set (gp' := if after_genesis block st then Some g else gp).
  assert (gp' = if after_genesis block st then Some g else None) as Hgp'.
  { unfold gp'. destruct (after_genesis block st); [done|]. destruct Hgp as [->|[? _]]; done. }
  assert (¬ reset_refused (reset_height block (after_genesis block st)) (stored (ix_db st))) as Hok.
  { intros [Hne Hr]. apply Hfirst. split; [done|]. rewrite list.Forall_forall in *. intros x Hx. specialize (Hr x Hx).
    unfold after_genesis, reset_height in *. destruct (bool_decide _); [|by rewrite andb_false_r in Hr].
    destruct (negb _) in Hr; cbn in Hr; lia. }
  wp_step. wp_call (wp_resetTo (reset_height block (after_genesis block st)) g); [done|done|]. intros [] st1.
  - intros [Hwr _]. do 3 wp_step. rewrite Hgp'. destruct fuel as [|fuel]; [lia|].
    apply (wp_after_reset fuel _ g _ s); [done..|]. by destruct Hwr.
  - intros [-> Hf]. do 2 wp_step.
    set (st1 := st <| ix_faults ::= tail |>).
    assert (ready g block s st1) as Hrd1 by by split.
    apply (IH gp' st1 Hin Hrd1 Hle); [|exact Hdrop|exact Hfirst|].
    + rewrite Hgp'. change (after_genesis block st1) with (after_genesis block st).
      destruct (after_genesis block st); [by right|by left].
    + cbn. destruct (ix_faults st); cbn in *; [done|lia].
Qed.

(** A block for which the database would have to be reset to more than one height below its
    lowest block: the procedure refuses, and the indexer tries again without end. *)
Theorem refused_reset_never_ends stats g block s : ∀ fuel gp st,
  incoming stats g block → ready g block s st →
  (b_Height block ≤ last_height (stored (ix_db st)))%Z →
  (gp = None ∨ after_genesis block st = true ∧ gp = Some g) →
  reset_refused (reset_height block (after_genesis block st)) (stored (ix_db st)) →
  wp (index_loop fuel stats block gp) (λ r st', r = None ∧ ix_db st' = ix_db st) st.
Proof.
  induction fuel as [|fuel IH]; intros gp st Hin Hrd Hle Hgp Hr; [cbn [index_loop]; by wp_step|].
  pose proof Hin as [Hnode Hg Hgh Hh Hhash Hafter]. pose proof Hrd as [Hs Hl Hc Hb].
  pose proof (last_height_nonneg _ Hc) as Hnn. cbn [index_loop].
  wp_step. unfold getHeightToIndex. do 2 wp_step. rewrite Hs. wp_step.
  rewrite Hl, (uwrap_small 64 (last_height _ + 1)) by lia.
  set (h := match gp with Some _ => u64 (last_height (stored (ix_db st)) + 1 + 1)
            | None => (last_height (stored (ix_db st)) + 1)%Z end).
  assert (b_Height block < h)%Z as Hlt.
  { unfold h. destruct gp; [rewrite uwrap_small by lia|]; lia. }
  rewrite (proj2 (Z.ltb_ge h (b_Height block))), (proj2 (Z.ltb_lt (b_Height block) h)) by lia.
  unfold isFirstBlock, isFirstBlockHeight. do 2 wp_step.
  fold (after_genesis block st). unfold getGenesisBlock. rewrite Hg.
  rewrite (bool_decide_true (is_Some (Some g))) by done. cbn [negb]. rewrite andb_false_r.
  assert (after_genesis block st = true → b_Height block = (b_Height g + 1)%Z) as Hag.
  { intros [_ Hp]%andb_true_iff. apply bool_decide_eq_true in Hp. by apply Hafter. }
  rewrite reset_height_u64 by (try intros Ha; try apply Hag in Ha; lia).
  set (gp' := if after_genesis block st then Some g else gp).
  wp_step. wp_call (wp_resetTo_refused (reset_height block (after_genesis block st))); [done|].
  intros ok st1 [-> ->]. do 2 wp_step. set (st1 := st <| ix_faults ::= tail |>).
  apply (IH gp' st1 Hin); [by destruct Hrd; split|done| |done].
  unfold gp'. change (after_genesis block st1) with (after_genesis block st).
  destruct (after_genesis block st); [by right|]. destruct Hgp as [->|[? _]]; [by left|done].
Qed.

(** The block [indexBlock] writes, and the state it starts from: [kept] are the blocks
    that are left below it, [saved] is the genesis block saved before it. *)
Record written (stats : BlockStats) (g block : Block) (s0 s : indexerState)
    (saved : list Block) (start st st' : Ix) : Prop := {
  wn_kept : stored (ix_db start)
    = below (b_Height block - 1 - Z.of_nat (length saved)) (stored (ix_db st));
  wn_genesis : saved = [] ∧
      (below (b_Height block - 1) (stored (ix_db st)) ≠ [] ∨ b_Height block = 1%Z)
    ∨ saved = [g] ∧ b_Height block = (b_Height g + 1)%Z;
  wn_totals : (b_Height block ≤ last_height (stored (ix_db st)))%Z ∧ totals s = None
    ∨ s = s0 ∧ (last_height (stored (ix_db st)) < b_Height block)%Z;
  wn_enabled : ix_enabled start = ix_enabled st;
  wn_check : ix_checkBalances start = ix_checkBalances st;
  wn_effects : announced (ix_effects st) (ix_effects start);
  wn_indexed : indexed stats block saved s start st'
}.

(** The heights [indexBlock] accepts: a gap is left only for a new genesis block, and a
    reset that empties the database goes back to a first block; a reset leaves no gap
    below the lowest stored block, which the procedure would refuse: the database is empty,
    or holds a block at the height of the block or below it, and below it when its parent
    is the genesis block. *)
Record acceptable (g block : Block) (l : list Block) : Prop := {
  ac_gap : (last_height l + 1 < b_Height block)%Z → b_Height block = (b_Height g + 1)%Z;
  ac_drop : (∀ x, x ∈ l → (b_Height block ≤ b_Height x)%Z) →
    b_Height block = 1%Z ∨ b_Height block = (b_Height g + 1)%Z;
  ac_first : l ≠ [] → Exists (λ x, if decide (b_ParentHash block = genesisHash)
    then b_Height x < b_Height block else b_Height x ≤ b_Height block)%Z l
}.

Lemma acceptable_reset g block l :
  acceptable g block l → ¬ reset_refused (reset_height block (bool_decide (b_ParentHash block = genesisHash))) l.
Proof.
  intros [_ _ Hfirst] [Hne Hr]. specialize (Hfirst Hne). apply list.Exists_exists in Hfirst as (x & Hx & Hle).
  rewrite list.Forall_forall in Hr. specialize (Hr x Hx). unfold reset_height in Hr.
  destruct (decide _); [rewrite bool_decide_true in Hr by done|rewrite bool_decide_false in Hr by done]; lia.
Qed.

Lemma wp_indexBlock fuel stats g block s st :
  incoming stats g block → ready g block s st → acceptable g block (stored (ix_db st)) →
  ix_enabled st = true → (length (ix_faults st) + 2 ≤ fuel)%nat →
  wp (indexBlock fuel stats block) (λ r st', r = Some tt ∧
    ∃ s1 saved start, written stats g block s s1 saved start st st') st.
Proof.
  intros Hin Hrd Hac Hen Hfuel. pose proof (acceptable_reset _ _ _ Hac) as Hreset. destruct Hac as [Hgap Hdrop _].
  unfold indexBlock. do 2 wp_step.
  assert (ix_enabled st = true) as -> by done. cbn [negb]. wp_step.
  wp_call (wp_initFirstBlockHeight s g); [apply Hrd|apply Hin|].
  intros [] st1 (l & -> & Hl). set (st1 := modify_field ix_effects _ _).
  assert (ready g block s st1) as Hrd1 by (destruct Hrd; by split).
  pose proof Hrd as [_ _ (a & Ha & Hf) _].
  destruct (Z.le_gt_cases (b_Height block) (last_height (stored (ix_db st)))) as [Hle|Hgt].
  - eapply wp_mono; [apply (wp_loop_reset stats g block s fuel None st1 Hin Hrd1);
      [done|by left|done|exact Hreset|done]|].
    intros r st' [-> (after & start & saved & s1 & Hk & Hgen & Ht & He & Hc & Hef & Hi)].
    split; [done|]. exists s1, saved, start.
    change (ix_db st1) with (ix_db st) in *. change (ix_enabled st1) with (ix_enabled st) in *.
    change (ix_checkBalances st1) with (ix_checkBalances st) in *.
    change (ix_effects st1) with l in *.
    split; [|by destruct Hgen as [(? & _ & ?)|(? & ? & _)]; auto|by left|done|done
            |by eapply announced_trans|done].
    rewrite Hk. unfold reset_height.
    destruct Hgen as [(-> & -> & _)|(-> & _ & Hor)]; cbn; [by rewrite Z.sub_0_r|].
    destruct after; [by rewrite <- Z.sub_add_distr|]. destruct Hor as [|Hnil]; [done|].
    rewrite Hnil. rewrite <- (below_below (b_Height block - 1)) by lia. by rewrite Hnil.
  - destruct fuel as [|fuel]; [lia|].
    eapply wp_mono; [apply (wp_settled fuel stats g block None s st1); [done|done|by left|..]|].
    1, 2: change (ix_db st1) with (ix_db st); cbn; intros; try apply Hgap; lia.
    change (ix_db st1) with (ix_db st). rewrite Z.add_0_r.
    intros r st' [-> Hi]. split; [done|]. eexists s, _, st1.
    split; [| |right; split; [done|cbn; lia]|done|done|done|exact Hi]; change (ix_db st1) with (ix_db st); cbn.
    + destruct (Z.ltb_spec (last_height (stored (ix_db st)) + 1) (b_Height block));
        symmetry; apply (below_from a _ _ Hf); cbn; lia.
    + destruct (Z.ltb_spec (last_height (stored (ix_db st)) + 1) (b_Height block)) as [Hlt|Hge].
      * right. split; [done|by apply Hgap].
      * left. split; [done|]. destruct (below_from a _ (b_Height block - 1) Hf) as (_ & _ & _ & Hk1).
        rewrite Hk1 by lia. destruct (stored (ix_db st)) eqn:Hst; [right; cbn in Hgt, Hge; lia|by left].
Qed.

Lemma consecutive_snoc k b :
  consecutive k → (1 ≤ b_Height b)%Z → (k ≠ [] → b_Height b = last_height k + 1)%Z →
  consecutive (k ++ [b]).
Proof.
  intros (a & Ha & Hf) Hb Hl. destruct (decide (k = [])) as [->|Hne].
  - exists (b_Height b). split; [done|]. by apply from_cons.
  - exists a. split; [done|]. apply from_app. split; [done|]. apply from_cons. split; [|done].
    rewrite Hl, (last_height_from a) by done. lia.
Qed.

Lemma last_height_snoc k b : last_height (k ++ [b]) = b_Height b.
Proof. unfold last_height. by rewrite last_snoc. Qed.

(** What is left below a block, and the block itself, are a chain again. *)
Lemma written_consecutive stats g block s0 s saved start st st' :
  incoming stats g block → consecutive (stored (ix_db st)) →
  (stored (ix_db st) ≠ [] → b_Height block ≤ last_height (stored (ix_db st)) + 1)%Z →
  written stats g block s0 s saved start st st' →
  consecutive (stored (ix_db start) ++ saved ++ [block]).
Proof.
  intros Hin (a & Ha & Hf) Hgap [Hk Hgen _ _ _ _ _]. destruct Hin as [_ _ Hg Hh _ _].
  destruct (below_from a _ (b_Height block - 1 - Z.of_nat (length saved)) Hf) as (Hf' & Hl & Hn & _).
  rewrite <- Hk in Hf', Hl, Hn.
  assert (stored (ix_db start) ≠ [] →
    last_height (stored (ix_db start)) = b_Height block - 1 - Z.of_nat (length saved))%Z as Hlast.
  { intros Hne. destruct Hl as [|E]; [done|rewrite E].
    assert (stored (ix_db st) ≠ []) as Hne' by (intros Hs; by rewrite Hk, Hs in Hne).
    specialize (Hgap Hne'). lia. }
  destruct Hgen as [[-> _]|[-> Hgen]]; cbn [app length] in *.
  - apply consecutive_snoc; [by exists a|lia|]. intros Hne. rewrite (Hlast Hne). lia.
  - rewrite (app_assoc _ [g] [block]). apply consecutive_snoc; [|lia|].
    + apply consecutive_snoc; [by exists a|lia|]. intros Hne. rewrite (Hlast Hne). lia.
    + intros _. rewrite last_height_snoc. lia.
Qed.



Definition is_saved (e : effect) : bool := match e with EfSaved _ => true | _ => false end.

(** What other components are told of a block. *)
Definition is_published (e : effect) : bool :=
  match e with
  | EfLoadFlips _ | EfNewEpoch _ _ | EfNewBlock _ | EfRefreshUpgradeVoting _ _
  | EfMakeEpochTreeSnapshot | EfCheckBalances => true
  | _ => false
  end.

Lemma announced_quiet l l' : announced l l' → ∃ k, l' = l ++ k ∧
  filter is_saved k = [] ∧ filter is_published k = [].
Proof.
  intros [n ->]. exists (replicate n EfCurrentEpoch). split; [done|].
  split; by induction n.
Qed.

Lemma published_only block res check :
  filter is_saved (published_effects block res check) = [] ∧
  filter is_published (published_effects block res check) = published_effects block res check.
Proof. unfold published_effects. by destruct (b_ValidationFinished block), check. Qed.


(** A block that leaves a gap and is not the first after the genesis block is not
    indexed: [indexBlock] panics. *)
Theorem index_block_gap_panics fuel stats g block s st :
  genesisBlock = Some g → ready g block s st → ix_enabled st = true →
  (last_height (stored (ix_db st)) + 1 < b_Height block)%Z →
  b_Height block ≠ u64 (b_Height g + 1) →
  indexBlock (S fuel) stats block st = Panic.
Proof.
  intros Hg Hrd Hen Hgap Hne. pose proof Hrd as [Hs Hl Hc Hb].
  pose proof (last_height_nonneg _ Hc) as Hnn.
  destruct (wp_done _ _ _ (wp_initFirstBlockHeight s g st Hs Hg)) as ([] & st1 & Hrun & l & -> & _).
  unfold indexBlock. erewrite bind_done by reflexivity. rewrite Hen. cbn [negb].
  erewrite bind_done by exact Hrun. cbn [index_loop]. set (st1 := modify_field ix_effects _ _).
  erewrite bind_done by (unfold getHeightToIndex; erewrite bind_done by reflexivity;
    change (ix_state st1) with (ix_state st); rewrite Hs; reflexivity).
  rewrite Hl, uwrap_small by lia. rewrite (proj2 (Z.ltb_lt _ _)) by lia.
  unfold getGenesisBlock. rewrite Hg. by rewrite (proj2 (Z.eqb_neq _ _)) by done.
Qed.
End properties.

(** ** A concrete run *)

(** A storage that keeps what it is given. *)
#[local] Instance sample_storage : Storage := {|
  St := list Data;
  GetLastHeight l := match list.last l with Some d => b_Height (d_Block d) | None => 0%Z end;
  ActualOracleVotings l := [];
  Save d l := l ++ [d];
  ResetTo h l :=
    if decide (reset_refused h (d_Block <$> l)) then None
    else Some (filter (λ d, (b_Height (d_Block d) ≤ h)%Z) l);
  stored l := d_Block <$> l
|}.

#[local] Instance sample_storage_laws : StorageLaws.
Proof.
  split.
  - intros d l. exact (fmap_app d_Block l [d]).
  - intros h l. cbn. destruct (decide _); [done|]. cbn. f_equal. clear. induction l as [|d l IH]; [done|]. rewrite fmap_cons, !filter_cons.
    destruct (decide _); cbn; by rewrite IH.
  - intros l. cbn. rewrite (fmap_last d_Block l). by destruct (list.last l).
Qed.

(** One account, whose balance is ten times the height; the network starts at 5. *)
Definition sample_at (h : Z) : AppState :=
  {| GetBalance a := if decide (a = mkAddress 1) then (10 * h)%Z else 0%Z;
     GetStakeBalance _ := 0%Z; GetIdentity _ := sample_identity; GetCodeHash _ := None;
     GetShardId _ := 1%Z; PoolSize _ := 0%Z; IsPool _ := false; IsOnlineIdentity _ := false;
     IterateOverIdentities := []; IterateAccounts := [mkAddress 1]; Delegations := [];
     OnlineSize := 0%Z; ValidatorsSize := 0%Z; Epoch := 0%Z; EpochBlock := 0%Z |}.

Definition sample_genesis : Block := sample_block 5 5 0.

#[local] Existing Instance sample_attachments.

#[local] Instance sample_chain : Chain := {|
  genesisBlock := Some sample_genesis;
  AppStateReadonly h := Some (sample_at h)
|}.

Definition sample_stats : BlockStats := emptyStats <| bs_BalanceUpdateAddrs := {[mkAddress 1]} |>.

(** The data of a block between two states without changes. *)
Definition sample_data (b : Block) : Data :=
  match convert_data emptyStats b sample_state sample_state sample_part with
  | Done d => d
  | Panic => mkData _ 0 EmptyString 0 None b
      (mkBlockRecord _ 0 EmptyString [] 0 EmptyString [] false 0 0 0%Z 0 0 0%Z 0%Z None None 0)
      emptyStats (newCc ∅) [] [] (mkCoinsRecord _ 0%Z 0%Z 0%Z 0%Z) [] [] None [] [] [] [] None [] false
  end.

(** The blocks 5 to 8 are stored, and the database fails twice. *)
Definition sample_ix (last : Z) (t : option Z) : Ix :=
  mkIx _ _ true
    [sample_data sample_genesis; sample_data (sample_block 6 6 5);
     sample_data (sample_block 7 7 6);
     sample_data (sample_block 8 8 7)]
    (Some (mkIndexerState last t ((λ _, 0%Z) <$> t) (mkVotingHolder ∅))) None false 1 true true true [false; false] [].

(** Another block 7. *)
Definition sample_fork : Block := sample_block 7 17 6.

Lemma sample_converts stats b w0 w1 :
  b_Transactions b = [] → b_Flags b = [] → conversion_ok stats b w0 w1.
Proof.
  intros Ht Hf. split; [by rewrite Ht| |intros m; apply ranges_canonical].
  unfold HasFlag. rewrite Hf. intros Hin%bool_decide_eq_true. by apply not_elem_of_nil in Hin.
Qed.

Lemma sample_incoming : incoming sample_stats sample_genesis sample_fork.
Proof.
  split; try done. split; [by intros h; eexists|done| |]; intros; by apply sample_converts.
Qed.

Lemma sample_ready t : ready sample_genesis sample_fork
  (mkIndexerState 8 t ((λ _, 0%Z) <$> t) (mkVotingHolder ∅)) (sample_ix 8 t).
Proof.
  split; try done. exists 5%Z. split; [done|]. cbn. rewrite !from_cons. by split_and!.
Qed.

Lemma sample_acceptable : acceptable sample_genesis sample_fork (stored (ix_db (sample_ix 8 None))).
Proof.
  split; [done| |].
  - intros Hle. specialize (Hle sample_genesis). cbn in Hle. set_solver by lia.
  - intros _. left. by vm_compute.
Qed.

Definition sample_run (block : Block) (t : option Z) : outcome (option unit * Ix) :=
  indexBlock 4 sample_stats block (sample_ix 8 t).

Example sample_heights :
  match sample_run sample_fork None with
  | Done (_, st) => b_Height <$> stored (ix_db st)
  | Panic => []
  end = [5; 6; 7]%Z.
Proof. vm_compute. reflexivity. Qed.


Lemma sample_covers : covers (bs_BalanceUpdateAddrs sample_stats) (sample_at 6) (sample_at 7).
Proof. intros a Ha. cbn in *. rewrite decide_False by set_solver. by rewrite decide_False by set_solver. Qed.

Lemma sample_held h : held_by {[mkAddress 1]} (sample_at h).
Proof. intros a Ha. cbn in *. split; [|done]. rewrite decide_False; [done|set_solver]. Qed.



Lemma index_block_gap_panics_witness :
  indexBlock 1 sample_stats (sample_block 10 10 9) (sample_ix 8 None) = Panic.
Proof.
  apply (index_block_gap_panics 0 sample_stats sample_genesis _ (mkIndexerState 8 None None (mkVotingHolder ∅))).
  - reflexivity.
  - destruct (sample_ready None). by split.
  - reflexivity.
  - vm_compute. reflexivity.
  - vm_compute. by intros [=].
Defined.
