(* ===== verification/LogFormat.v ===== *)
(** * The lines of the log

    log/format.go and the levels of log/logger.go: a record of the log is printed as a
    line of keys and values, with the values escaped.  Texts are sequences of bytes, read
    and written in UTF-8 as Go does when it ranges over a string; [read_line] is what a
    reader of the format does with a line. *)

From Stdlib Require Import Ascii DecimalString.
From S2P Require Import Prelude Texts.

(** ** Escaping *)

Definition quote : ascii := char_of 34.
Definition backslash : ascii := char_of 92.
Definition newline : ascii := char_of 10.
Definition return_char : ascii := char_of 13.
Definition tab : ascii := char_of 9.

Definition needs_quotes (r : Z) : bool := (r <=? 32)%Z || (r =? 61)%Z || (r =? 34)%Z.
Definition needs_escape (r : Z) : bool :=
  (r =? 92)%Z || (r =? 34)%Z || (r =? 10)%Z || (r =? 13)%Z || (r =? 9)%Z.

(** Go: log/format.go escapeString:380-394

    What the loop writes for one rune. *)
Definition escape_rune (r : Z) : string :=
  if (r =? 92)%Z || (r =? 34)%Z then String backslash (String (char_of r) EmptyString)
  else if (r =? 10)%Z then String backslash "n"
  else if (r =? 13)%Z then String backslash "r"
  else if (r =? 9)%Z then String backslash "t"
  else EncodeRune r.

(** Go: log/format.go escapeString

    A text without quotes is cut from between the two that are written. *)
Definition escapeString (s : string) : string :=
  let needsQuotes := existsb needs_quotes (runes s) in
  let needsEscape := existsb needs_escape (runes s) in
  if negb needsEscape && negb needsQuotes then s
  else let e := concat_texts (escape_rune <$> runes s) in
       if needsQuotes then String quote (String.append e (String quote EmptyString)) else e.

(** ** Values *)

(** The types whose texts come from the standard library or from go-stack. *)
Class LogTypes := { Float : Type; Time : Type; Call : Type; CallStack : Type; Any : Type }.

(** A value of the context of a record, by what the printing asks of its dynamic type:
    an [error] and a [fmt.Stringer] have the text of their method, a [TerminalStringer]
    has another one for the terminal.  [VNilPointer] is a nil pointer whose method
    panics; a level is a [fmt.Stringer] whose method may panic; other methods do not. *)
Inductive value `{LogTypes} :=
  | VNil
  | VBool (b : bool)
  | VInt (z : Z)
  | VFloat (x : Float)
  | VString (s : string)
  | VTime (t : Time)
  | VLvl (l : Z)
  | VError (text : string)
  | VStringer (text : string)
  | VNilPointer
  | VTerminal (short : string) (v : value)
  | VStack (s : CallStack)
  | VSlice (l : list value)
  | VCtx (m : list (string * value))
  | VLazy (f : lazy_fn)
  | VAny (a : Any)
(** What [reflect] says of the function of a [Lazy], and what it returns. *)
with lazy_fn `{LogTypes} :=
  | NilFunc
  | NotFunc (a : Any)
  | TakesArgs (a : Any)
  | NoResult (a : Any)
  | Results (l : list value).

Class LogText `{LogTypes} := {
  (** [strconv.FormatFloat(v, 'f', 3, 64)] *)
  FormatFloat : Float → string;
  time_Format : string → Time → string;
  Stack_String : CallStack → string;
  (** [fmt.Sprintf("%+v", v)] *)
  Sprintf_plus_v : value → string;
  (** [fmt.Sprintf] of a call with a verb, and its program counter *)
  Call_text : string → Call → string;
  PC : Call → Z
}.

Definition LvlCrit : Z := 0.
Definition LvlError : Z := 1.
Definition LvlWarn : Z := 2.
Definition LvlInfo : Z := 3.
Definition LvlDebug : Z := 4.
Definition LvlTrace : Z := 5.

(** Go: log/logger.go Lvl.AlignedString *)
Definition AlignedString (l : Z) : option string :=
  match l with
  | 5 => Some "TRACE" | 4 => Some "DEBUG" | 3 => Some "INFO " | 2 => Some "WARN "
  | 1 => Some "ERROR" | 0 => Some "CRIT " | _ => None
  end%Z%string.

(** Go: log/logger.go Lvl.String

    [None]: a panic. *)
Definition Lvl_String (l : Z) : option string :=
  match l with
  | 5 => Some "trce" | 4 => Some "dbug" | 3 => Some "info" | 2 => Some "warn"
  | 1 => Some "eror" | 0 => Some "crit" | _ => None
  end%Z%string.

(** Go: log/logger.go LvlFromString

    With an error, the level is [LvlDebug]. *)
Definition LvlFromString (s : string) : Z * bool :=
  let named t := bool_decide (s = t) in
  if named "trace" || named "trce" then (LvlTrace, true)
  else if named "debug" || named "dbug" then (LvlDebug, true)
  else if named "info" then (LvlInfo, true)
  else if named "warn" then (LvlWarn, true)
  else if named "error" || named "eror" then (LvlError, true)
  else if named "crit" then (LvlCrit, true)
  else (LvlDebug, false).

Definition timeFormat : string := "2006-01-02T15:04:05-0700".
Definition termTimeFormat : string := "01-02|15:04:05.000".
Definition termMsgJust : nat := 40.
Definition errorKey : string := "LOG15_ERROR".

(** ** Printing a record *)

Section printing.
Context `{LogText}.

(** Go: log/format.go formatShared

    [None]: a panic that is not recovered from. *)
Fixpoint formatShared (v : value) : option value :=
  match v with
  | VTime t => Some (VString (time_Format timeFormat t))
  | VError s | VStringer s => Some (VString s)
  | VStack s => Some (VString (Stack_String s))
  | VLvl l => s ← Lvl_String l; Some (VString s)
  | VNilPointer => Some (VString "nil")
  | VTerminal _ v => formatShared v
  | v => Some v
  end.

(** Go: log/format.go formatLogfmtValue:344-360

    The text of a value without a method of its own. *)
Definition shared_text (v : value) : string :=
  match v with
  | VBool b => if b then "true" else "false"
  | VFloat x => FormatFloat x
  | VInt z => FormatInt z
  | VString s => escapeString s
  | v => escapeString (Sprintf_plus_v v)
  end%string.

(** Go: log/format.go formatLogfmtValue *)
Definition formatLogfmtValue (v : value) (term : bool) : option string :=
  match v, term with
  | VNil, _ => Some "nil"%string
  | VTime t, _ => Some (time_Format timeFormat t)
  | VTerminal short _, true => Some (escapeString short)
  | v, _ => shared_text <$> formatShared v
  end.

(** Go: log/format.go fieldPadding:38-51

    The widths of the fields so far; and what the printing of the origins keeps. *)
Record format_state := mkFormatState {
  fieldPadding : gmap string nat; locationEnabled : bool; locationLength : Z
}.

Definition ESC : ascii := char_of 27.
Definition spaces (n : nat) : string := concat_texts (replicate n " "%string).

(** A text between the sequences of a color. *)
Definition colored (color : Z) (s : string) : string :=
  concat_texts [String ESC "["; FormatInt color; "m"; s; String ESC "[0m"]%string.

(** Go: log/format.go logfmt:166-190

    One key and its value, with the widths before and after.  [last]: nothing follows. *)
Definition logfmt_field (k v : value) (color : Z) (term last : bool) (padding : gmap string nat)
    : option (string * gmap string nat) :=
  text ← formatLogfmtValue v term;
  '(key, text) ← match k with
                 | VString k => Some (k, text)
                 | _ => (errorKey,.) <$> formatLogfmtValue (VString EmptyString) term
                 end;
  let len := RuneCount text in
  let padding :=
    if (default 0%nat (padding !! key) <? len)%nat then <[key := len]> padding else padding in
  let width := default 0%nat (padding !! key) in
  Some (concat_texts [if (0 <? color)%Z then colored color key else key; "="; text;
                if last then "" else spaces (width - len)]%string, padding).

(** Go: log/format.go logfmt:160-192

    [None]: a panic, for instance on an index out of range when the context is odd.  The
    fields after the first one start with a space. *)
Fixpoint logfmt_fields (ctx : list value) (first : bool) (color : Z) (term : bool) (padding : gmap string nat)
    : option (string * gmap string nat) :=
  match ctx with
  | [] => Some (String newline EmptyString, padding)
  | [_] => None
  | k :: v :: ctx =>
      '(field, padding) ← logfmt_field k v color term (match ctx with [] => true | _ => false end) padding;
      '(rest, padding) ← logfmt_fields ctx false color term padding;
      Some (concat_texts [if first then "" else " "; field; rest]%string, padding)
  end.

(** Go: log/format.go logfmt *)
Definition logfmt (ctx : list value) (color : Z) (term : bool) (fs : format_state) : option (string * format_state) :=
  '(line, padding) ← logfmt_fields ctx true color term (fieldPadding fs);
  Some (line, fs <| fieldPadding := padding |>).

(** Go: log/logger.go Record

    The names of the keys are those that [write] gives to every record. *)
Record Record_ := mkRecord { r_Time : Time; r_Lvl : Z; r_Msg : string; r_Ctx : list value; r_Call : Call }.

Definition timeKey : string := "t".
Definition lvlKey : string := "lvl".
Definition msgKey : string := "msg".

(** Go: log/format.go LogfmtFormat *)
Definition LogfmtFormat (r : Record_) (fs : format_state) : option (string * format_state) :=
  logfmt ([VString timeKey; VTime (r_Time r); VString lvlKey; VLvl (r_Lvl r); VString msgKey; VString (r_Msg r)]
          ++ r_Ctx r) 0 false fs.

(** Go: log/format.go TerminalFormat:88-103 *)
Definition level_color (l : Z) : Z :=
  match l with
  | 0 => 35 | 1 => 31 | 2 => 33 | 3 => 32 | 4 => 36 | 5 => 34 | _ => 0
  end%Z.

(** [strings.TrimPrefix] *)
Definition TrimPrefix (s prefix : string) : string :=
  if String.prefix prefix s then String.substring (String.length prefix) (String.length s - String.length prefix) s
  else s.

Definition locationTrims : list string := ["github.com/idena-network/idena-indexer/"]%string.

(** Go: log/format.go TerminalFormat:106-136

    The heading of a line, with the origin of the record if it was asked for. *)
Definition terminal_heading (color : Z) (lvl : string) (r : Record_) (fs : format_state) : string * format_state :=
  let name := if (0 <? color)%Z then colored color lvl else lvl in
  let time := time_Format termTimeFormat (r_Time r) in
  if locationEnabled fs then
    let location := foldl TrimPrefix (Call_text "%+v" (r_Call r)) locationTrims in
    let len := Z.of_nat (String.length location) in
    let align := Z.max (locationLength fs) len in
    (concat_texts [name; "["; time; "|"; location; "]"; spaces (Z.to_nat (align - len)); " "; r_Msg r; " "]%string,
     if (locationLength fs <? len)%Z then fs <| locationLength := u32 align |> else fs)
  else (concat_texts [name; "["; time; "] "; r_Msg r; " "]%string, fs).

(** Go: log/format.go TerminalFormat *)
Definition TerminalFormat (usecolor : bool) (r : Record_) (fs : format_state) : option (string * format_state) :=
  let color := if usecolor then level_color (r_Lvl r) else 0%Z in
  lvl ← AlignedString (r_Lvl r);
  let (heading, fs) := terminal_heading color lvl r fs in
  let len := RuneCount (r_Msg r) in
  let just := match r_Ctx r with
              | [] => EmptyString
              | _ => if (len <? termMsgJust)%nat then spaces (termMsgJust - len) else EmptyString
              end in
  '(line, fs) ← logfmt (r_Ctx r) color true fs;
  Some (concat_texts [heading; just; line], fs).

(** Go: log/format.go formatJSONValue *)
Definition formatJSONValue (v : value) : option value :=
  v ← formatShared v;
  Some match v with
       | VInt _ | VFloat _ | VString _ => v
       | _ => VString (Sprintf_plus_v v)
       end.

(** Go: log/format.go JSONFormatEx:265-271

    The loop over the context. *)
Fixpoint json_fields (ctx : list value) (props : gmap string value) : option (gmap string value) :=
  match ctx with
  | [] => Some props
  | [_] => None
  | k :: v :: ctx =>
      let (key, props) :=
        match k with
        | VString k => (k, props)
        | _ => (EmptyString,
                <[errorKey := VString (String.append (Sprintf_plus_v k) " is not a string key")]> props)
        end in
      v ← formatJSONValue v; json_fields ctx (<[key := v]> props)
  end.

(** Go: log/format.go JSONFormatEx:259-271

    The object that is encoded. *)
Definition json_object (r : Record_) : option (gmap string value) :=
  lvl ← Lvl_String (r_Lvl r);
  json_fields (r_Ctx r) (<[msgKey := VString (r_Msg r)]> (<[lvlKey := VString lvl]> {[timeKey := VTime (r_Time r)]})).
End printing.

(** ** Reading a line *)

(** The character that an escaped one stands for. *)
Definition unescape (c : ascii) : ascii :=
  if Ascii.eqb c "n" then newline else if Ascii.eqb c "r" then return_char
  else if Ascii.eqb c "t" then tab else c.

(** The rest of a value in quotes, and what follows the last one.  A line has no newline
    but at its end. *)
Fixpoint read_quoted (s : string) : option (string * string) :=
  match s with
  | EmptyString => None
  | String c s =>
      if Ascii.eqb c quote then Some (EmptyString, s)
      else if Ascii.eqb c newline then None
      else if Ascii.eqb c backslash then
        match s with
        | String d s => if Ascii.eqb d newline then None
                        else '(v, rest) ← read_quoted s; Some (String (unescape d) v, rest)
        | EmptyString => None
        end
      else '(v, rest) ← read_quoted s; Some (String c v, rest)
  end.

(** A value without quotes: it ends before a space or the end of the line. *)
Fixpoint read_bare (s : string) : option (string * string) :=
  match s with
  | EmptyString => None
  | String c rest =>
      if Ascii.eqb c " " || Ascii.eqb c newline then Some (EmptyString, s)
      else if Ascii.eqb c backslash then
        match rest with
        | String d rest => if Ascii.eqb d newline then None
                           else '(v, rest) ← read_bare rest; Some (String (unescape d) v, rest)
        | EmptyString => None
        end
      else '(v, rest) ← read_bare rest; Some (String c v, rest)
  end.

Definition read_value (s : string) : option (string * string) :=
  match s with
  | String c rest => if Ascii.eqb c quote then read_quoted rest else read_bare s
  | EmptyString => None
  end.

Fixpoint skip_spaces (s : string) : string :=
  match s with
  | String c rest => if Ascii.eqb c " " then skip_spaces rest else s
  | EmptyString => s
  end.

(** A key: what precedes the sign. *)
Fixpoint read_key (s : string) : option (string * string) :=
  match s with
  | EmptyString => None
  | String c s => if Ascii.eqb c "=" then Some (EmptyString, s)
                  else if Ascii.eqb c newline then None
                  else '(k, rest) ← read_key s; Some (String c k, rest)
  end.

(** The pairs of a line that ends with a newline. *)
Fixpoint read_fields (fuel : nat) (s : string) : option (list (string * string)) :=
  match fuel with
  | O => None
  | S fuel =>
      let s := skip_spaces s in
      if bool_decide (s = String newline EmptyString) then Some []
      else '(k, s) ← read_key s; '(v, s) ← read_value s; rest ← read_fields fuel s; Some ((k, v) :: rest)
  end.
Definition read_line (s : string) : option (list (string * string)) := read_fields (S (String.length s)) s.

Definition high (c : ascii) : bool := (128 <=? byte_of c)%Z.

Lemma eqb_byte c d : Ascii.eqb c d = (byte_of c =? byte_of d)%Z.
Proof.
  destruct (Ascii.eqb_spec c d) as [->|Hne]; [by rewrite Z.eqb_refl|].
  symmetry. apply Z.eqb_neq. by intros ?%byte_of_inj.
Qed.
Lemma eqb_char r d : (0 ≤ r < 256)%Z → Ascii.eqb (char_of r) d = (r =? byte_of d)%Z.
Proof. intros Hr. by rewrite eqb_byte, byte_char. Qed.

Lemma encode_ascii r : (0 ≤ r < 128)%Z → EncodeRune r = String (char_of r) EmptyString.
Proof.
  intros Hr. unfold EncodeRune, valid_rune. decide_Z. cbn [andb negb]. by decide_Z.
Qed.
Lemma high_continuation r : high (continuation r) = true.
Proof. unfold high. rewrite byte_continuation. pose proof (Z.mod_pos_bound r 64). apply Z.leb_le. lia. Qed.
Lemma encode_high r : valid_rune r = true → (128 ≤ r)%Z → all_chars high (EncodeRune r) = true.
Proof.
  intros Hv Hr. unfold EncodeRune. rewrite Hv.
  assert (r ≤ 1114111)%Z as Hm by (unfold valid_rune in Hv; lia).
  assert (∀ z, (192 ≤ z < 256)%Z → high (char_of z) = true) as Hz.
  { intros z Hz. unfold high. rewrite byte_char by lia. apply Z.leb_le. lia. }
  destruct (Z.ltb_spec r 128) as [|_]; [lia|].
  destruct (Z.ltb_spec r 2048) as [H2|H2]; [|destruct (Z.ltb_spec r 65536) as [H3|H3]];
    cbn [all_chars]; rewrite !high_continuation, Hz; try done.
  - pose proof (Z.div_pos r 64). pose proof (Z.div_lt_upper_bound r 64 32). lia.
  - pose proof (Z.div_pos r 4096). pose proof (Z.div_lt_upper_bound r 4096 16). lia.
  - pose proof (Z.div_pos r 262144). pose proof (Z.div_lt_upper_bound r 262144 8). lia.
Qed.

(** How a reader of escaped texts goes over one that has nothing to it. *)
Definition reads (rd : string → option (string * string)) (s out : string) : Prop :=
  ∀ t, rd (String.append s t) = '(v, rest) ← rd t; Some (String.append out v, rest).

Lemma reads_nil rd : reads rd EmptyString EmptyString.
Proof. intros t. rewrite append_nil. by destruct (rd t) as [[v rest]|]. Qed.
Lemma reads_append rd s s' out out' :
  reads rd s out → reads rd s' out' → reads rd (String.append s s') (String.append out out').
Proof.
  intros Hs Hs' t. rewrite append_assoc, Hs, Hs'. destruct (rd t) as [[v rest]|]; [|done].
  cbn. by rewrite append_assoc.
Qed.
Lemma reads_concat {A} rd (f g : A → string) l :
  (∀ x, x ∈ l → reads rd (f x) (g x)) → reads rd (concat_texts (f <$> l)) (concat_texts (g <$> l)).
Proof.
  induction l as [|x l IH]; intros Hl; [apply reads_nil|].
  cbn [fmap list_fmap concat_texts foldr]. apply reads_append; [apply Hl; left|].
  apply IH. intros y Hy. apply Hl. by right.
Qed.
Lemma reads_chars rd (p : ascii → bool) s :
  (∀ c t, p c = true → rd (String c t) = '(v, rest) ← rd t; Some (String c v, rest)) →
  all_chars p s = true → reads rd s s.
Proof.
  intros Hp. induction s as [|c s IH]; [intros _; apply reads_nil|].
  cbn [all_chars]. intros [Hc Hs]%andb_true_iff t. rewrite append_cons, Hp, IH by done.
  by destruct (rd t) as [[v rest]|].
Qed.

(** Compare characters by their codes. *)
Ltac char_codes :=
  rewrite ?eqb_byte; change (byte_of quote) with 34%Z; change (byte_of backslash) with 92%Z;
  change (byte_of " ") with 32%Z; change (byte_of newline) with 10%Z.

(** Characters that both readers take as they are. *)
Definition plain_char (c : ascii) : bool :=
  negb (Ascii.eqb c quote || Ascii.eqb c backslash || Ascii.eqb c " " || Ascii.eqb c newline).
Lemma plain_high c : high c = true → plain_char c = true.
Proof.
  unfold high. intros Hc%Z.leb_le. unfold plain_char. char_codes.
  by rewrite !(proj2 (Z.eqb_neq _ _)) by lia.
Qed.

Lemma quoted_char c t :
  negb (Ascii.eqb c quote || Ascii.eqb c backslash || Ascii.eqb c newline) = true →
  read_quoted (String c t) = '(v, rest) ← read_quoted t; Some (String c v, rest).
Proof. intros [[? ?]%orb_false_iff ?]%negb_true_iff%orb_false_iff. cbn [read_quoted]. by rewrite H, H0, H1. Qed.
Lemma bare_char c t :
  negb (Ascii.eqb c backslash || Ascii.eqb c " " || Ascii.eqb c newline) = true →
  read_bare (String c t) = '(v, rest) ← read_bare t; Some (String c v, rest).
Proof. intros [[? ?]%orb_false_iff ?]%negb_true_iff%orb_false_iff. cbn [read_bare]. by rewrite H, H0, H1. Qed.
Lemma plain_quoted c t :
  plain_char c = true → read_quoted (String c t) = '(v, rest) ← read_quoted t; Some (String c v, rest).
Proof.
  intros Hp. apply quoted_char. unfold plain_char in Hp. by destruct (Ascii.eqb c quote), (Ascii.eqb c backslash), (Ascii.eqb c " "), (Ascii.eqb c newline).
Qed.
Lemma plain_bare c t :
  plain_char c = true → read_bare (String c t) = '(v, rest) ← read_bare t; Some (String c v, rest).
Proof.
  intros Hp. apply bare_char. unfold plain_char in Hp.
  by destruct (Ascii.eqb c quote), (Ascii.eqb c backslash), (Ascii.eqb c " "), (Ascii.eqb c newline).
Qed.

Lemma all_chars_impl (p q : ascii → bool) s :
  (∀ c, p c = true → q c = true) → all_chars p s = true → all_chars q s = true.
Proof.
  intros Hpq. induction s as [|c s IH]; [done|]. cbn. intros [Hc Hs]%andb_true_iff.
  by rewrite Hpq, IH by done.
Qed.

(** Reading what is written for one rune gives the rune. *)
Lemma rune_cases r (P : Prop) :
  valid_rune r = true →
  (∀ e, r = byte_of e → e = backslash ∨ e = quote → escape_rune r = String backslash (String e EmptyString) → P) →
  (∀ d, r = byte_of (unescape d) → unescape d = newline ∨ unescape d = return_char ∨ unescape d = tab →
     Ascii.eqb d newline = false → escape_rune r = String backslash (String d EmptyString) → P) →
  ((r ≠ 92 ∧ r ≠ 34 ∧ r ≠ 10)%Z → escape_rune r = EncodeRune r → P) → P.
Proof.
  intros Hv Hq Hu He. unfold escape_rune in *.
  destruct (Z.eqb_spec r 92) as [->|H1]; [by apply (Hq backslash); [|left|]|].
  destruct (Z.eqb_spec r 34) as [->|H2]; [by apply (Hq quote); [|right|]|].
  destruct (Z.eqb_spec r 10) as [->|H3]; [by apply (Hu "n"%char); [|left| |]|].
  destruct (Z.eqb_spec r 13) as [->|H4]; [by apply (Hu "r"%char); [|right; left| |]|].
  destruct (Z.eqb_spec r 9) as [->|H5]; [by apply (Hu "t"%char); [|right; right| |]|].
  by apply He.
Qed.

Lemma encode_byte c : (byte_of c < 128)%Z → EncodeRune (byte_of c) = String c EmptyString.
Proof. intros Hc. pose proof (byte_of_range c). by rewrite encode_ascii, char_byte by lia. Qed.

Lemma reads_rune rd (special : Z → bool) r :
  (∀ d t, Ascii.eqb d newline = false → rd (String backslash (String d t)) = '(v, rest) ← rd t; Some (String (unescape d) v, rest)) →
  (∀ c t, special (byte_of c) = false → rd (String c t) = '(v, rest) ← rd t; Some (String c v, rest)) →
  (∀ c, high c = true → special (byte_of c) = false) →
  ((r ≠ 92 ∧ r ≠ 34 ∧ r ≠ 10)%Z → special r = false) →
  valid_rune r = true → reads rd (escape_rune r) (EncodeRune r).
Proof.
  intros Hesc Hplain Hhigh Hr Hv.
  apply (rune_cases r); [done|intros e -> He ->|intros d -> Hd Hnl ->|intros Hne ->].
  - intros t. rewrite !append_cons, append_nil, Hesc by (destruct He as [-> | ->]; reflexivity).
    replace (unescape e) with e by (destruct He as [-> | ->]; reflexivity).
    rewrite encode_byte by (destruct He as [-> | ->]; reflexivity).
    by destruct (rd t) as [[v rest]|].
  - intros t. rewrite !append_cons, append_nil, Hesc by done.
    rewrite encode_byte by (destruct Hd as [-> | [-> | ->]]; reflexivity).
    by destruct (rd t) as [[v rest]|].
  - destruct (Z.lt_ge_cases r 128) as [Hlt|Hge].
    + assert (0 ≤ r)%Z by (unfold valid_rune in Hv; lia). rewrite encode_ascii by lia.
      intros t. rewrite append_cons, append_nil, Hplain by (rewrite byte_char by lia; by apply Hr).
      by destruct (rd t) as [[v rest]|].
    + apply (reads_chars _ high); [|by apply encode_high]. intros c t Hc. by apply Hplain, Hhigh.
Qed.

Lemma reads_quoted_rune r : valid_rune r = true → reads read_quoted (escape_rune r) (EncodeRune r).
Proof.
  apply (reads_rune _ (λ z, (z =? 34)%Z || (z =? 92)%Z || (z =? 10)%Z)); [intros d t Hd; cbn [read_quoted]; by rewrite Hd|..].
  - intros c t Hc. apply quoted_char. char_codes. by rewrite Hc.
  - intros c Hc. unfold high in Hc. lia.
  - lia.
Qed.
Lemma reads_bare_rune r : needs_quotes r = false → valid_rune r = true → reads read_bare (escape_rune r) (EncodeRune r).
Proof.
  intros Hq. apply (reads_rune _ (λ z, (z =? 92)%Z || (z =? 32)%Z || (z =? 10)%Z));
    [intros d t Hd; cbn [read_bare]; by rewrite Hd|..].
  - intros c t Hc. apply bare_char. char_codes. by rewrite Hc.
  - intros c Hc. unfold high in Hc. lia.
  - unfold needs_quotes in Hq. lia.
Qed.

(** Texts in UTF-8. *)
Definition utf8 (s : string) : Prop := ∃ rs, forallb valid_rune rs = true ∧ s = utf8_text rs.

Lemma forallb_elem {A} (p : A → bool) l x : forallb p l = true → x ∈ l → p x = true.
Proof. intros Hl Hx. apply (proj1 (forallb_forall p l) Hl x). by apply list_elem_of_In. Qed.
Lemma existsb_elem {A} (p : A → bool) l x : existsb p l = false → x ∈ l → p x = false.
Proof.
  intros Hl Hx. destruct (p x) eqn:Hp; [|done]. rewrite <- Hl. symmetry. apply existsb_exists.
  exists x. split; [by apply list_elem_of_In|done].
Qed.

Lemma escape_unneeded rs :
  existsb needs_escape rs = false → concat_texts (escape_rune <$> rs) = utf8_text rs.
Proof.
  unfold utf8_text. intros Hn. f_equal. apply list.list_fmap_ext. intros i r Hr%list_elem_of_lookup_2.
  pose proof (existsb_elem _ _ _ Hn Hr) as Hf. unfold needs_escape in Hf. unfold escape_rune.
  by rewrite !(proj2 (Z.eqb_neq _ _)) by lia.
Qed.

(** The end of a value: a space or the end of the line. *)
Definition ends (c : ascii) : Prop := c = " "%char ∨ c = newline.

Lemma read_bare_end c t : ends c → read_bare (String c t) = Some (EmptyString, String c t).
Proof. by intros [-> | ->]. Qed.

Lemma bare_is_read rs c t :
  forallb valid_rune rs = true → existsb needs_quotes rs = false → ends c →
  read_value (String.append (concat_texts (escape_rune <$> rs)) (String c t)) = Some (utf8_text rs, String c t).
Proof.
  intros Hv Hq Hc.
  assert (read_bare (String.append (concat_texts (escape_rune <$> rs)) (String c t)) = Some (utf8_text rs, String c t)) as Hb.
  { rewrite (reads_concat _ escape_rune EncodeRune) by
      (intros r Hr; apply reads_bare_rune; [by eapply existsb_elem|by eapply forallb_elem]).
    rewrite read_bare_end by done. cbn. by rewrite append_nil_r. }
  revert Hb. destruct (String.append _ _) as [|d s] eqn:Hs; [done|]. intros Hb.
  unfold read_value. assert (Ascii.eqb d quote = false) as ->; [|done].
  destruct rs as [|r rs].
  { cbn in Hs. rewrite append_nil in Hs. injection Hs as <- _. by destruct Hc as [-> | ->]. }
  cbn [forallb existsb fmap list_fmap concat_texts foldr] in *.
  apply andb_true_iff in Hv as [Hv _]. apply orb_false_iff in Hq as [Hq _].
  apply (rune_cases r); [done|intros e -> _ He|intros e -> _ _ He|intros Hne He]; rewrite He in Hs.
  - rewrite !append_cons in Hs. by injection Hs as <- _.
  - rewrite !append_cons in Hs. by injection Hs as <- _.
  - destruct (EncodeRune_cons r) as (c' & e & Hce). rewrite Hce, !append_cons in Hs. injection Hs as <- _.
    destruct (Z.lt_ge_cases r 128) as [Hlt|Hge].
    + assert (0 ≤ r)%Z by (unfold valid_rune in Hv; lia). rewrite encode_ascii in Hce by lia.
      injection Hce as <- _. rewrite eqb_char by lia. change (byte_of quote) with 34%Z. lia.
    + pose proof (encode_high r Hv Hge) as Hh. rewrite Hce in Hh. cbn in Hh.
      apply andb_true_iff in Hh as [Hh _]. unfold high in Hh. char_codes. lia.
Qed.

(** An escaped text is read as the text. *)
Lemma escaped_is_read s c t :
  utf8 s → ends c → read_value (String.append (escapeString s) (String c t)) = Some (s, String c t).
Proof.
  intros (rs & Hv & ->) Hc. unfold escapeString. rewrite runes_utf8 by done.
  destruct (existsb needs_quotes rs) eqn:Hq.
  - cbn [negb andb]. rewrite andb_false_r. rewrite append_cons, append_assoc, append_cons, append_nil. cbn [read_value].
    assert (Ascii.eqb quote quote = true) as -> by done.
    rewrite (reads_concat _ escape_rune EncodeRune) by
      (intros r Hr; apply reads_quoted_rune; by eapply forallb_elem).
    cbn. by rewrite append_nil_r.
  - rewrite andb_true_r. destruct (existsb needs_escape rs) eqn:He; cbn [negb].
    + by apply bare_is_read.
    + rewrite <- (escape_unneeded rs) at 1 by done. by apply bare_is_read.
Qed.

(** A text that needs nothing is read as it is. *)
Lemma plain_is_read s c t :
  all_chars plain_char s = true → ends c → read_value (String.append s (String c t)) = Some (s, String c t).
Proof.
  intros Hp Hc.
  assert (read_bare (String.append s (String c t)) = Some (s, String c t)) as Hb.
  { rewrite (reads_chars _ plain_char) by (done || apply plain_bare).
    rewrite read_bare_end by done. cbn. by rewrite append_nil_r. }
  destruct s as [|d s]; rewrite ?append_cons, ?append_nil in *; unfold read_value.
  { assert (Ascii.eqb c quote = false) as ->; [|done]. by destruct Hc as [-> | ->]. }
  assert (Ascii.eqb d quote = false) as ->; [|done]. cbn in Hp. apply andb_true_iff in Hp as [Hp _].
  unfold plain_char in Hp. by destruct (Ascii.eqb d quote).
Qed.

(** ** Lines are read back *)

(** The formats of floats and times have no character that a reader of a line takes for
    something else. *)
Class LogTextLaws `{LogText} : Prop := {
  plain_FormatFloat x : all_chars plain_char (FormatFloat x) = true;
  plain_time_Format t : all_chars plain_char (time_Format timeFormat t) = true
}.

Section lines.
Context `{LogTextLaws}.

(** The text of a value, before it is escaped. *)
Definition plain_text (v : value) : string :=
  match v with
  | VBool b => if b then "true" else "false"
  | VFloat x => FormatFloat x
  | VInt z => FormatInt z
  | VString s => s
  | v => Sprintf_plus_v v
  end%string.
Definition field_text (v : value) (term : bool) : option string :=
  match v, term with
  | VNil, _ => Some "nil"%string
  | VTime t, _ => Some (time_Format timeFormat t)
  | VTerminal short _, true => Some short
  | v, _ => plain_text <$> formatShared v
  end.

Lemma number_chars z : all_chars plain_char (FormatInt z) = true.
Proof.
  assert (∀ d, all_chars plain_char (NilEmpty.string_of_uint d) = true) as Hu by (induction d; done).
  unfold FormatInt. destruct (Z.to_int z); cbn [NilEmpty.string_of_int all_chars]; by rewrite Hu.
Qed.

Lemma shared_is_read v c t :
  utf8 (plain_text v) → ends c → read_value (String.append (shared_text v) (String c t)) = Some (plain_text v, String c t).
Proof.
  intros Hu Hc. destruct v; cbn [shared_text plain_text] in *;
    try (by apply escaped_is_read); apply plain_is_read; try done.
  - by destruct b.
  - apply number_chars.
  - apply plain_FormatFloat.
Qed.

(** What is printed for a value is read as its text. *)
Lemma field_is_read v term text :
  field_text v term = Some text → utf8 text →
  ∃ printed, formatLogfmtValue v term = Some printed ∧
    ∀ c t, ends c → read_value (String.append printed (String c t)) = Some (text, String c t).
Proof.
  assert (∀ v', plain_text <$> formatShared v' = Some text → utf8 text →
    ∃ printed, shared_text <$> formatShared v' = Some printed ∧
      ∀ c t, ends c → read_value (String.append printed (String c t)) = Some (text, String c t)) as Hshared.
  { intros v' Hv Hu. destruct (formatShared v') as [w|]; [|done]. cbn in *. injection Hv as <-.
    eexists; split; [done|]. intros c t Hc. by apply shared_is_read. }
  destruct v, term; cbn [field_text formatLogfmtValue]; try (by apply Hshared); intros [= <-] Hu;
    eexists; (split; [done|]); intros c t' Hc;
    first [by apply escaped_is_read | apply plain_is_read; [apply plain_time_Format|done] | by apply plain_is_read].
Qed.

(** A key that is found again: it has no equals sign and no newline, and does not start with
    a space. *)
Definition good_key (k : string) : bool :=
  all_chars (λ c, negb (Ascii.eqb c "=" || Ascii.eqb c newline)) k
  && match k with String c _ => negb (Ascii.eqb c " ") | EmptyString => true end.

Lemma key_is_read k t :
  all_chars (λ c, negb (Ascii.eqb c "=" || Ascii.eqb c newline)) k = true → read_key (String.append k (String "=" t)) = Some (k, t).
Proof.
  induction k as [|c k IH]; [done|]. cbn [all_chars]. intros [[Hc Hn]%negb_true_iff%orb_false_iff Hk]%andb_true_iff.
  rewrite append_cons. cbn [read_key]. by rewrite Hc, Hn, IH.
Qed.

Lemma skip_spaces_spaces n s : skip_spaces (String.append (spaces n) s) = skip_spaces s.
Proof. induction n as [|n IH]; [done|]. apply IH. Qed.

Definition ctx_of (fields : list (string * value)) : list value := fields ≫= λ kv, [VString kv.1; kv.2].
Lemma ctx_of_cons k v fields : ctx_of ((k, v) :: fields) = VString k :: v :: ctx_of fields.
Proof. done. Qed.
Definition texts_of (term : bool) (fields : list (string * value)) : option (list (string * string)) :=
  mapM (λ kv, (kv.1,.) <$> field_text kv.2 term) fields.

(** Spaces after a value are a space before what follows. *)
Lemma spaces_end n s : ∃ c t, String.append (spaces n) (String " " s) = String c t ∧ ends c ∧
  skip_spaces (String c t) = skip_spaces s.
Proof.
  destruct n as [|n]; [by exists " "%char, s; repeat split; left|].
  exists " "%char, (String.append (spaces n) (String " " s)). split; [done|]. split; [by left|].
  cbn [skip_spaces]. assert (Ascii.eqb " " " " = true) as -> by done. by rewrite skip_spaces_spaces.
Qed.

Lemma good_key_skip k t : good_key k = true →
  skip_spaces (String.append k (String "=" t)) = String.append k (String "=" t).
Proof.
  unfold good_key. intros [_ Hk]%andb_true_iff. destruct k as [|c k]; [done|].
  rewrite append_cons. cbn [skip_spaces]. apply negb_true_iff in Hk. by rewrite Hk.
Qed.

Lemma not_newline k t : String.append k (String "=" t) ≠ String newline EmptyString.
Proof. destruct k as [|c k]; [done|]. rewrite append_cons. intros [= _ Hk]. by destruct k. Qed.

Lemma read_fields_skip fuel s s' : skip_spaces s = skip_spaces s' → read_fields fuel s = read_fields fuel s'.
Proof. destruct fuel; [done|]. cbn [read_fields]. by intros ->. Qed.

(** One field, and the rest of the line. *)
Lemma field_step fuel k printed text tail pairs :
  good_key k = true →
  (∀ c t, ends c → read_value (String.append printed (String c t)) = Some (text, String c t)) →
  (∃ c t, tail = String c t ∧ ends c) → read_fields fuel tail = Some pairs →
  read_fields (S fuel) (String.append k (String "=" (String.append printed tail))) = Some ((k, text) :: pairs).
Proof.
  intros Hk Hread (c & t & -> & Hc) Hrest. cbn [read_fields].
  rewrite good_key_skip by done. rewrite bool_decide_eq_false_2 by apply not_newline.
  rewrite key_is_read by (by apply andb_true_iff in Hk as [Hk _]). cbn [mbind option_bind].
  rewrite Hread by done. cbn [mbind option_bind]. by rewrite Hrest.
Qed.

Lemma logfmt_first fields term padding line padding' color :
  fields ≠ [] → logfmt_fields fields true color term padding = Some (line, padding') →
  logfmt_fields fields false color term padding = Some (String " " line, padding').
Proof.
  destruct fields as [|k [|v fields]]; [done..|]. intros _. cbn [logfmt_fields].
  destruct (logfmt_field _ _ _ _ _ _) as [[field padding1]|]; [|done]. cbn [mbind option_bind].
  destruct (logfmt_fields fields false color term padding1) as [[rest padding2]|]; [|done].
  cbn [mbind option_bind]. by intros [= <- <-].
Qed.

(** The fields of a line, with what is needed to read them. *)
Lemma fields_are_read fields term padding pairs :
  Forall (λ kv, good_key kv.1 = true) fields → texts_of term fields = Some pairs →
  Forall (λ p, utf8 p.2) pairs →
  ∃ line padding', logfmt_fields (ctx_of fields) true 0 term padding = Some (line, padding') ∧
    ∀ fuel, (length fields < fuel)%nat → read_fields fuel line = Some pairs.
Proof.
  intros Hk. revert padding pairs.
  induction Hk as [|[k v] fields Hgood Hk IH]; intros padding pairs Hp Hu.
  { cbn in Hp. injection Hp as <-. eexists _, _. split; [done|]. intros [|fuel] Hf; [lia|]. done. }
  unfold texts_of in Hp. cbn in Hp. destruct (field_text v term) as [text|] eqn:Ht; [|done].
  cbn in Hp. fold (texts_of term fields) in Hp. destruct (texts_of term fields) as [pairs'|]; [|done].
  cbn in Hp. injection Hp as <-. apply list.Forall_cons in Hu as [Hu Hus].
  destruct (field_is_read v term text Ht Hu) as (printed & Hpr & Hread).
  rewrite ctx_of_cons. cbn [logfmt_fields]. unfold logfmt_field. rewrite Hpr. cbn [mbind option_bind].
  set (padding1 := if (default 0 (padding !! k) <? RuneCount printed)%nat then <[k := RuneCount printed]> padding else padding).
  set (width := default 0%nat (padding1 !! k)).
  destruct (IH padding1 pairs' eq_refl Hus) as (line & padding' & Hl & Hline).
  assert (∀ sp, concat_texts [k; "="; printed; sp]%string = String.append k (String "=" (String.append printed sp))) as Hcat.
  { intros sp. cbn [concat_texts foldr]. by rewrite append_nil_r. }
  destruct fields as [|kv fields].
  { cbn in Hl. injection Hl as <- <-. eexists _, _. split; [done|]. intros [|fuel] Hf; [cbn in Hf; lia|].
    cbn [concat_texts foldr]. rewrite !append_nil, !append_nil_r, append_assoc.
    change (String.append "=" printed) with (String "=" printed).
    rewrite append_cons. apply field_step; [done|done| |apply Hline; cbn in *; lia].
    exists newline, EmptyString. split; [done|by right]. }
  pose proof (logfmt_first (ctx_of (kv :: fields)) term padding1 line padding' 0) as Hfirst.
  rewrite Hl in Hfirst. specialize (Hfirst ltac:(by destruct kv) eq_refl).
  destruct kv as [k' v']. rewrite ctx_of_cons in Hfirst |- *. rewrite Hfirst. cbn [mbind option_bind].
  eexists _, _. split; [done|]. intros [|fuel] Hf; [cbn in Hf; lia|].
  cbn [concat_texts foldr]. rewrite !append_nil, !append_nil_r, !append_assoc.
  assert (∀ s, String.append "=" s = String "=" s) as -> by done.
  destruct (spaces_end (width - RuneCount printed) line) as (c & t & Hs & Hc & Hskip).
  apply field_step; [done|done| |].
  - by exists c, t.
  - rewrite Hs. rewrite (read_fields_skip _ _ line) by done. apply Hline. cbn in *. lia.
Qed.

(** Every field has at least a character, and the line ends with one. *)
Lemma fields_length fields first color term padding line padding' :
  logfmt_fields (ctx_of fields) first color term padding = Some (line, padding') →
  (length fields < String.length line)%nat.
Proof.
  revert first padding line. induction fields as [|[k v] fields IH]; intros first padding line Hl.
  { cbn in Hl. injection Hl as <- <-. cbn. lia. }
  rewrite ctx_of_cons in Hl. cbn [logfmt_fields] in Hl. destruct (logfmt_field _ _ _ _ _ _) as [[field padding1]|] eqn:Hf; [|done].
  cbn [mbind option_bind] in Hl. destruct (logfmt_fields _ _ _ _ padding1) as [[rest padding2]|] eqn:Hr; [|done].
  cbn [mbind option_bind] in Hl. injection Hl as <- <-. specialize (IH _ _ _ Hr).
  assert (0 < String.length field)%nat as Hfield.
  { unfold logfmt_field in Hf. destruct (formatLogfmtValue v term) as [text|]; [|done].
    cbn [mbind option_bind] in Hf. injection Hf as <- _. cbn [concat_texts foldr].
    rewrite !length_append_text. cbn. lia. }
  cbn [concat_texts foldr length]. rewrite !length_append_text. cbn. lia.
Qed.

(** Texts of ASCII characters are in UTF-8. *)
Lemma utf8_ascii s : all_chars (λ c, negb (high c)) s = true → utf8 s.
Proof.
  induction s as [|c s IH]; [by exists []|]. cbn [all_chars]. intros [Hc Hs]%andb_true_iff.
  destruct (IH Hs) as (rs & Hv & ->). pose proof (byte_of_range c). unfold high in Hc.
  exists (byte_of c :: rs). split.
  - cbn [forallb]. rewrite Hv, andb_true_r. unfold valid_rune. lia.
  - unfold utf8_text. cbn [fmap list_fmap concat_texts foldr]. by rewrite encode_byte by lia.
Qed.
Lemma utf8_level l s : Lvl_String l = Some s → utf8 s.
Proof. unfold Lvl_String. intros Hl. apply utf8_ascii. repeat case_match; by simplify_eq. Qed.

(** A text without a newline. *)
Definition one_line (s : string) : bool := all_chars (λ c, negb (Ascii.eqb c newline)) s.

Lemma one_line_append s s' : one_line (String.append s s') = one_line s && one_line s'.
Proof. unfold one_line. induction s as [|c s IH]; [done|]. rewrite append_cons. cbn [all_chars]. rewrite IH. by rewrite andb_assoc. Qed.

Definition after_line (s rest : string) : Prop := ∃ pre, s = String.append pre rest ∧ one_line pre = true.

Lemma after_line_refl s : after_line s s.
Proof. by exists EmptyString. Qed.
Lemma after_line_cons c s rest : Ascii.eqb c newline = false → after_line s rest → after_line (String c s) rest.
Proof. intros Hc (pre & -> & Hp). exists (String c pre). split; [done|]. unfold one_line in *. cbn [all_chars]. by rewrite Hc, Hp. Qed.
Lemma after_line_trans s s' rest : after_line s s' → after_line s' rest → after_line s rest.
Proof.
  intros (p & -> & Hp) (q & -> & Hq). exists (String.append p q). rewrite append_assoc, one_line_append, Hp, Hq. done.
Qed.

(** What a reader goes over has no newline. *)
Lemma quoted_line n s v rest : (String.length s ≤ n)%nat → read_quoted s = Some (v, rest) → after_line s rest.
Proof.
  revert s v. induction n as [|n IH]; intros [|c s] v; cbn [read_quoted String.length]; try done; [lia|]. intros Hn.
  destruct (Ascii.eqb_spec c quote) as [->|Hq]; [intros [= <- <-]; by apply after_line_cons; [|apply after_line_refl]|].
  destruct (Ascii.eqb c newline) eqn:Hc; [done|]. destruct (Ascii.eqb c backslash).
  - destruct s as [|d s]; [done|]. destruct (Ascii.eqb d newline) eqn:Hd; [done|]. cbn in Hn.
    destruct (read_quoted s) as [[v' rest']|] eqn:Hr; [|done]. cbn. intros [= <- <-].
    apply after_line_cons; [done|]. apply after_line_cons; [done|]. by apply (IH s v'); [lia|].
  - destruct (read_quoted s) as [[v' rest']|] eqn:Hr; [|done]. cbn. intros [= <- <-].
    apply after_line_cons; [done|]. by apply (IH s v'); [lia|].
Qed.
Lemma bare_line n s v rest : (String.length s ≤ n)%nat → read_bare s = Some (v, rest) → after_line s rest.
Proof.
  revert s v. induction n as [|n IH]; intros [|c s] v; cbn [read_bare String.length]; try done; [lia|]. intros Hn.
  destruct (Ascii.eqb c " " || Ascii.eqb c newline) eqn:He; [intros [= <- <-]; apply after_line_refl|].
  apply orb_false_iff in He as [_ Hc]. destruct (Ascii.eqb c backslash).
  - destruct s as [|d s]; [done|]. destruct (Ascii.eqb d newline) eqn:Hd; [done|]. cbn in Hn.
    destruct (read_bare s) as [[v' rest']|] eqn:Hr; [|done]. cbn. intros [= <- <-].
    apply after_line_cons; [done|]. apply after_line_cons; [done|]. by apply (IH s v'); [lia|].
  - destruct (read_bare s) as [[v' rest']|] eqn:Hr; [|done]. cbn. intros [= <- <-].
    apply after_line_cons; [done|]. by apply (IH s v'); [lia|].
Qed.
Lemma value_line s v rest : read_value s = Some (v, rest) → after_line s rest.
Proof.
  unfold read_value. destruct s as [|c s]; [done|]. destruct (Ascii.eqb_spec c quote) as [->|_].
  - intros Hr. apply after_line_cons; [done|]. by apply (quoted_line (String.length s) s v).
  - intros Hr. by apply (bare_line (String.length (String c s)) _ v).
Qed.
Lemma key_line s k rest : read_key s = Some (k, rest) → after_line s rest.
Proof.
  revert k. induction s as [|c s IH]; intros k; cbn [read_key]; [done|].
  destruct (Ascii.eqb_spec c "=") as [->|_]; [intros [= <- <-]; by apply after_line_cons; [|apply after_line_refl]|].
  destruct (Ascii.eqb c newline) eqn:Hc; [done|]. destruct (read_key s) as [[k' rest']|]; [|done]. cbn. intros [= <- <-].
  apply after_line_cons; [done|]. by apply (IH k').
Qed.
Lemma spaces_line s : after_line s (skip_spaces s).
Proof.
  induction s as [|c s IH]; cbn [skip_spaces]; [apply after_line_refl|].
  destruct (Ascii.eqb_spec c " ") as [->|_]; [by apply after_line_cons|apply after_line_refl].
Qed.

(** What can be read is one line. *)
Lemma read_is_one_line fuel s pairs : read_fields fuel s = Some pairs → after_line s (String newline EmptyString).
Proof.
  revert s pairs. induction fuel as [|fuel IH]; intros s pairs; cbn [read_fields]; [done|].
  destruct (bool_decide_reflect (skip_spaces s = String newline EmptyString)) as [He|_].
  { intros _. rewrite <- He. apply spaces_line. }
  destruct (read_key (skip_spaces s)) as [[k s1]|] eqn:Hk; [|done]. cbn [mbind option_bind].
  destruct (read_value s1) as [[v s2]|] eqn:Hv; [|done]. cbn [mbind option_bind].
  destruct (read_fields fuel s2) as [rest|] eqn:Hr; [|done]. intros _.
  eapply after_line_trans; [apply spaces_line|]. eapply after_line_trans; [by eapply key_line|].
  eapply after_line_trans; [by eapply value_line|]. by eapply IH.
Qed.

(** [C28]  A line of the log can be read: a record is printed as one line, whose only newline
    is at its end, in which a reader finds the time, the level and the message of the
    record and then every key of its context with the text of its value, whatever has been
    printed before.  The level is one of the six; the keys are texts without an equals sign
    and a newline, as keys are not escaped, which do not start with a space; the message,
    the time and the texts of the values are in UTF-8, and may have any characters,
    newlines and quotes among them. *)
Theorem logfmt_lines_are_read (r : Record_) fields pairs fs lvl :
  r_Ctx r = ctx_of fields → Lvl_String (r_Lvl r) = Some lvl →
  Forall (λ kv, good_key kv.1 = true) fields → texts_of false fields = Some pairs →
  Forall (λ p, utf8 p.2) pairs → utf8 (r_Msg r) → utf8 (time_Format timeFormat (r_Time r)) →
  ∃ body fs', LogfmtFormat r fs = Some (String.append body (String newline EmptyString), fs') ∧ one_line body = true ∧
    read_line (String.append body (String newline EmptyString))
    = Some ((timeKey, time_Format timeFormat (r_Time r)) :: (lvlKey, lvl) :: (msgKey, r_Msg r) :: pairs).
Proof.
  intros Hctx Hl Hk Hp Hu Hm Ht.
  destruct (fields_are_read ((timeKey, VTime (r_Time r)) :: (lvlKey, VLvl (r_Lvl r)) :: (msgKey, VString (r_Msg r)) :: fields)
    false (fieldPadding fs)
    ((timeKey, time_Format timeFormat (r_Time r)) :: (lvlKey, lvl) :: (msgKey, r_Msg r) :: pairs))
    as (line & padding & Hline & Hread).
  - by repeat constructor.
  - unfold texts_of in *. cbn. by rewrite Hl, Hp.
  - repeat constructor; try done. by eapply utf8_level.
  - apply fields_length in Hline as Hlen. pose proof (Hread (S (String.length line)) ltac:(lia)) as Hpairs.
    pose proof (read_is_one_line _ _ _ Hpairs) as (body & Hbody & Hone). subst line.
    exists body, (fs <| fieldPadding := padding |>). split; [|split; [done|]].
    + unfold LogfmtFormat, logfmt. rewrite Hctx. cbn [app]. rewrite !ctx_of_cons in Hline. by rewrite Hline.
    + exact Hpairs.
Qed.
End lines.

(** A sample: times are numbers, and everything else is printed as it is. *)
#[export] Instance SampleLogTypes : LogTypes := {|
  Float := Z; Time := Z; Call := Z; CallStack := unit; Any := string
|}.
#[export] Instance SampleLogText : LogText := {|
  FormatFloat := FormatInt; time_Format _ t := FormatInt t; Stack_String _ := "[]"%string;
  Sprintf_plus_v v := match v with VAny a => a | VLvl l => FormatInt l | _ => "?"%string end;
  Call_text _ c := FormatInt c; PC c := c
|}.
#[export] Instance SampleLogTextLaws : LogTextLaws.
Proof. split; intros; apply number_chars. Qed.

Definition sample_message : string :=
  String.append "say " (String quote (String.append "hi" (String quote (String newline "you")))).
Definition sample_path : string := String.append "c:" (String backslash "dir").

Definition sample_fields : list (string * value) :=
  [("err", VError "line"); ("path", VString sample_path); ("n", VInt (-5))]%string.
Definition sample_log_record : Record_ :=
  mkRecord (1700 : Z) LvlWarn sample_message (ctx_of sample_fields) (7 : Z).

Lemma logfmt_lines_are_read_witness : ∃ body fs',
  LogfmtFormat sample_log_record (mkFormatState {["err"%string := 9%nat]} false 0) = Some (String.append body (String newline EmptyString), fs') ∧
  one_line body = true ∧
  read_line (String.append body (String newline EmptyString))
  = Some [("t", "1700"); ("lvl", "warn"); ("msg", sample_message); ("err", "line"); ("path", sample_path); ("n", "-5")]%string.
Proof.
  destruct (logfmt_lines_are_read sample_log_record sample_fields
    [("err", "line"); ("path", sample_path); ("n", "-5")]%string
    (mkFormatState {["err"%string := 9%nat]} false 0) "warn") as (body & fs' & Hl & Ho & Hr);
    [done|done|..|by exists body, fs'].
  - repeat constructor.
  - done.
  - repeat constructor; by apply utf8_ascii.
  - by apply utf8_ascii.
  - by apply utf8_ascii.
Defined.

(** A key that is not a text is lost, and so is its value. *)
Lemma bad_key_is_lost (v : value) (k : Any) term last padding text :
  formatLogfmtValue v term = Some text →
  logfmt_field (VAny k) v 0 term last padding = logfmt_field (VString errorKey) (VString EmptyString) 0 term last padding.
Proof. intros Hv. unfold logfmt_field. by rewrite Hv. Qed.
