(* ===== verification/Logging.v ===== *)
(** * Loggers and handlers

    log/logger.go, handler.go, handler_go14.go and root.go: a logger has a context of keys
    and values and the place of its handler; a handler is a tree that filters, extends and
    writes the records.  The record is one object that all handlers of a tree change; a
    place of a handler ([swapHandler]) refers to other places, so that the handling has
    the depth of the stack as an argument: running out of it is a panic, as it is of Go. *)

From S2P Require Import Prelude Texts LogFormat.

(** What go-stack does with stacks, and what a writer answers: the error of a write, if
    there is one, may depend on everything that was written before. *)
Class LogOutput `{LogText} := {
  TrimBelow : CallStack → Call → CallStack;
  stack_Trace : Call → CallStack;
  stack_len : CallStack → nat;
  Stack_text : string → CallStack → string;
  write_error : list (nat * string) → nat → string → option string
}.

(** A format: one of the package, or a function ([None]: it panics). *)
Inductive Format `{LogTypes} :=
  | FLogfmt
  | FTerminal (usecolor : bool)
  | FFunc (f : Record_ → option string).

(** Go: log/handler.go Handler

    The handlers of the package, as the constructors of the package build them. *)
Inductive Handler `{LogTypes} :=
  | HNil
  | HWrite (wr : nat) (fmtr : Format)
  | HSync (h : Handler)
  | HLazy (h : Handler)
  | HCallerFile (h : Handler)
  | HCallerFunc (h : Handler)
  | HCallerStack (format : string) (h : Handler)
  | HFilter (fn : Record_ → bool) (h : Handler)
  | HMulti (hs : list Handler)
  | HFailover (hs : list Handler)
  | HDiscard
  | HSwap (i : nat).

Section constructors.
Context `{LogTypes}.

(** Go: log/handler.go StreamHandler *)
Definition StreamHandler (wr : nat) (fmtr : Format) : Handler := HLazy (HSync (HWrite wr fmtr)).

(** Go: log/handler.go FilterHandler *)
Definition FilterHandler (fn : Record_ → bool) (h : Handler) : Handler := HFilter fn h.

(** Go: log/handler.go LvlFilterHandler *)
Definition LvlFilterHandler (maxLvl : Z) (h : Handler) : Handler :=
  FilterHandler (λ r, (r_Lvl r <=? maxLvl)%Z) h.

(** Go: log/handler.go DiscardHandler *)
Definition DiscardHandler : Handler := HDiscard.

(** Go: log/logger.go logger *)
Record logger := mkLogger { l_ctx : list value; l_h : nat }.

(** The loggers, the places of the handlers, what the formats keep and what was written,
    in order; the first logger is the root. *)
Record world := mkWorld {
  loggers : list logger; swaps : list Handler; formats : format_state; written : list (nat * string)
}.
End constructors.

Section handling.
Context `{LogOutput}.

(** A handler works on the record that is passed to it and on the world. *)
Abbreviation HM := (M (Record_ * world)).

Definition add_ctx (l : list value) : HM unit := modify_st (λ s, (s.1 <| r_Ctx ::= (λ c, c ++ l) |>, s.2)).
Definition of_option {S A} (o : option A) : M S A :=
  λ s, match o with Some a => Done (a, s) | None => Panic end.

(** The line of a record. *)
Definition line_of (f : Format) (r : Record_) (fs : format_state) : option (string * format_state) :=
  match f with
  | FLogfmt => LogfmtFormat r fs
  | FTerminal usecolor => TerminalFormat usecolor r fs
  | FFunc f => (., fs) <$> f r
  end.
Definition format (f : Format) : HM string :=
  r ← gets fst; w ← gets snd;
  '(text, fs) ← of_option (line_of f r (formats w));
  modify_st (λ s, (s.1, s.2 <| formats := fs |>));; mret text.

(** Go: log/handler.go StreamHandler:42-45

    The write, and its error. *)
Definition write_line (wr : nat) (text : string) : HM (option string) :=
  w ← gets snd;
  modify_st (λ s, (s.1, s.2 <| written ::= (λ l, l ++ [(wr, text)]) |>));;
  mret (write_error (written w) wr text).

(** Go: log/handler.go evaluateLazy

    [None]: a panic; [inr]: an error. *)
Definition evaluateLazy (lz : lazy_fn) : option (value + string) :=
  match lz with
  | NilFunc => None
  | NotFunc a => Some (inr (String.append "INVALID_LAZY, not func: " (Sprintf_plus_v (VAny a))))
  | TakesArgs a => Some (inr (String.append "INVALID_LAZY, func takes args: " (Sprintf_plus_v (VAny a))))
  | NoResult a => Some (inr (String.append "INVALID_LAZY, no func return val: " (Sprintf_plus_v (VAny a))))
  | Results [v] => Some (inl v)
  | Results l => Some (inl (VSlice l))
  end.

(** Go: log/handler.go LazyHandler:373-387

    The values of the context after the evaluation, and whether one had an error. *)
Fixpoint lazy_ctx (call : Call) (ctx : list value) : option (list value * bool) :=
  match ctx with
  | k :: v :: ctx =>
      '(v, err) ← match v with
                  | VLazy lz =>
                      v ← evaluateLazy lz;
                      Some match v with
                           | inr err => (VError err, true)
                           | inl (VStack cs) => (VStack (TrimBelow cs call), false)
                           | inl v => (v, false)
                           end
                  | _ => Some (v, false)
                  end;
      '(ctx, err') ← lazy_ctx call ctx;
      Some (k :: v :: ctx, err || err')
  | ctx => Some (ctx, false)
  end.

(** Go: log/handler.go LazyHandler:370-391 *)
Definition evaluate_lazies : HM unit :=
  r ← gets fst;
  '(ctx, hadErr) ← of_option (lazy_ctx (r_Call r) (r_Ctx r));
  modify_st (λ s, (s.1 <| r_Ctx := ctx |>, s.2));;
  if hadErr : bool then add_ctx [VString errorKey; VString "bad lazy"] else mret tt.

Section lists.
Variable handle : Handler → HM (option string).

(** Go: log/handler.go MultiHandler *)
Fixpoint multi (hs : list Handler) : HM (option string) :=
  match hs with [] => mret None | h :: hs => handle h;; multi hs end.

(** Go: log/handler.go FailoverHandler

    [i] is the index of the handler, [err] the last error. *)
Fixpoint failover (i : Z) (err : option string) (hs : list Handler) : HM (option string) :=
  match hs with
  | [] => mret err
  | h :: hs =>
      err ← handle h;
      match err with
      | None => mret None
      | Some e =>
          add_ctx [VString (String.append "failover_err_" (FormatInt i)); VError e];;
          failover (i + 1) err hs
      end
  end.
End lists.

(** What a handler does with a record, where [next] is what the handler it wraps does. *)
Section bodies.
Variable next : HM (option string).

Definition sprint_call (fmt : string) : HM string := r ← gets fst; mret (Call_text fmt (r_Call r)).

(** Go: log/handler.go SyncHandler:54-58

    Between the lock and the unlock nothing else goes through the handler. *)
Definition SyncHandler_Log : HM (option string) := next.

(** Go: log/handler.go LazyHandler:369-394 *)
Definition LazyHandler_Log : HM (option string) := evaluate_lazies;; next.

(** Go: log/handler.go CallerFileHandler:193-196 *)
Definition CallerFileHandler_Log : HM (option string) :=
  text ← sprint_call "%v"; add_ctx [VString "caller"; VString text];; next.

(** Go: log/handler.go CallerFuncHandler:202-205 *)
Definition CallerFuncHandler_Log : HM (option string) :=
  text ← sprint_call "%+n"; add_ctx [VString "fn"; VString text];; next.

(** Go: log/handler.go CallerStackHandler:219-225 *)
Definition CallerStackHandler_Log (format : string) : HM (option string) :=
  r ← gets fst;
  let s := TrimBelow (stack_Trace (r_Call r)) (r_Call r) in
  (if (0 <? stack_len s)%nat then add_ctx [VString "stack"; VString (Stack_text format s)] else mret tt);;
  next.

(** Go: log/handler.go FilterHandler:242-247 *)
Definition FilterHandler_Log (fn : Record_ → bool) : HM (option string) :=
  r ← gets fst; if fn r then next else mret None.
End bodies.

(** The handling of a record by a handler: the depth of the stack only counts the places
    of handlers that are gone through. *)
Fixpoint handle (stack : nat) : Handler → HM (option string) :=
  fix go (h : Handler) : HM (option string) :=
    match h with
    | HNil => panic
    | HWrite wr fmtr => text ← format fmtr; write_line wr text
    | HSync h => SyncHandler_Log (go h)
    | HLazy h => LazyHandler_Log (go h)
    | HCallerFile h => CallerFileHandler_Log (go h)
    | HCallerFunc h => CallerFuncHandler_Log (go h)
    | HCallerStack fmt h => CallerStackHandler_Log (go h) fmt
    | HFilter fn h => FilterHandler_Log (go h) fn
    | HMulti hs => multi go hs
    | HFailover hs => failover go 0 None hs
    | HDiscard => mret None
    | HSwap i =>
        match stack with
        | O => panic
        | S stack => w ← gets snd; h ← of_option (swaps w !! i); handle stack h
        end
    end.

(** ** Loggers *)

Definition ctx_odd : string := "Normalized odd number of arguments by adding nil".

(** Go: log/logger.go Ctx.toArray

    [m] is in the order in which the map is ranged over. *)
Definition toArray (m : list (string * value)) : list value := m ≫= λ kv, [VString kv.1; kv.2].

(** Go: log/logger.go normalize *)
Definition normalize (ctx : list value) : list value :=
  let ctx := match ctx with [VCtx m] => toArray m | _ => ctx end in
  if Nat.odd (length ctx) then ctx ++ [VNil; VString errorKey; VString ctx_odd] else ctx.

(** Go: log/logger.go newContext

    A new array: what a handler changes in the context of a record is not seen by the
    logger. *)
Definition newContext (prefix suffix : list value) : list value := prefix ++ normalize suffix.

(** What the program does with loggers, which are given by their number; the time and the
    call of a record are arguments. *)
Inductive log_op :=
  | ONew (l : nat) (ctx : list value)
  | OSetHandler (l : nat) (h : Handler)
  | OWrite (l : nat) (lvl : Z) (msg : string) (ctx : list value) (now : Time) (call : Call).

(** Go: log/logger.go logger.New

    The child has a place of its own, with the place of its parent in it. *)
Definition New (l : nat) (ctx : list value) : M world unit :=
  w ← get_st; p ← of_option (loggers w !! l);
  modify_st (λ w, w <| loggers ::= (λ ls, ls ++ [mkLogger (newContext (l_ctx p) ctx) (length (swaps w))]) |>
                    <| swaps ::= (λ hs, hs ++ [HSwap (l_h p)]) |>).

(** Go: log/logger.go logger.SetHandler *)
Definition SetHandler (l : nat) (h : Handler) : M world unit :=
  w ← get_st; p ← of_option (loggers w !! l);
  modify_st (λ w, w <| swaps ::= <[l_h p := h]> |>).

(** Go: log/logger.go logger.write

    The error of the handler is dropped. *)
Definition write (stack l : nat) (lvl : Z) (msg : string) (ctx : list value) (now : Time) (call : Call) : M world unit :=
  λ w, match loggers w !! l with
       | None => Panic
       | Some p =>
           match handle stack (HSwap (l_h p)) (mkRecord now lvl msg (newContext (l_ctx p) ctx) call, w) with
           | Done (_, (_, w)) => Done (tt, w)
           | Panic => Panic
           end
       end.

Definition log_step (stack : nat) (o : log_op) : M world unit :=
  match o with
  | ONew l ctx => New l ctx
  | OSetHandler l h => SetHandler l h
  | OWrite l lvl msg ctx now call => write stack l lvl msg ctx now call
  end.

(** Go: log/root.go init

    The root, which writes nothing until its handler is set. *)
Definition init_world : world :=
  mkWorld [mkLogger [] 0] [DiscardHandler] (mkFormatState ∅ false 0) [].

Definition stdout : nat := 1.
Definition stderr : nat := 2.

(** Go: main.go initLog

    For the log of the program; the node has a log of its own. *)
Definition initLog (windows : bool) (verbosity : Z) : log_op :=
  OSetHandler 0 (LvlFilterHandler verbosity
    (if windows then StreamHandler stdout FLogfmt else StreamHandler stderr (FTerminal true))).
End handling.

(** ** Logging does not panic *)

Section safety.
Context `{LogOutput}.

Definition level_ok (l : Z) : bool := (0 <=? l)%Z && (l <=? 5)%Z.

(** A value that can be printed, and evaluated: its levels exist, and no function of a
    [Lazy] is nil. *)
Fixpoint value_ok (v : value) : bool :=
  match v with
  | VLvl l => level_ok l
  | VTerminal _ v => value_ok v
  | VLazy NilFunc => false
  | VLazy (Results [v]) => value_ok v
  | _ => true
  end.

(** Pairs of keys and values. *)
Fixpoint ctx_ok (ctx : list value) : bool :=
  match ctx with
  | [] => true
  | [_] => false
  | _ :: v :: ctx => value_ok v && ctx_ok ctx
  end.

(** What is passed to a logger. *)
Definition args_ok (ctx : list value) : bool :=
  match ctx with [VCtx m] => forallb value_ok m.*2 | _ => forallb value_ok ctx end.

Definition format_ok (f : Format) : Prop :=
  match f with FFunc f => ∀ r, is_Some (f r) | _ => True end.

(** A handler that has no nil one and refers to places before [n] only. *)
Fixpoint handler_ok (n : nat) (h : Handler) : Prop :=
  match h with
  | HNil => False
  | HWrite _ f => format_ok f
  | HSync h | HLazy h | HCallerFile h | HCallerFunc h | HCallerStack _ h | HFilter _ h => handler_ok n h
  | HMulti hs | HFailover hs =>
      (fix all hs := match hs with [] => True | h :: hs => handler_ok n h ∧ all hs end) hs
  | HDiscard => True
  | HSwap i => (i < n)%nat
  end.

(** Every logger has the place of its number, with a handler that refers to the places of
    the loggers before it, and its context is one of pairs. *)
Definition world_ok (w : world) : Prop :=
  length (loggers w) = length (swaps w) ∧ (∀ i h, swaps w !! i = Some h → handler_ok i h) ∧
  (∀ l p, loggers w !! l = Some p → ctx_ok (l_ctx p) = true ∧ l_h p = l).

(** What a program with [n] loggers can do: it logs at a level of its own on values that
    can be printed, and a handler it sets does not lead back to its logger. *)
Definition op_ok (n : nat) (o : log_op) : Prop :=
  match o with
  | ONew l ctx => (l < n)%nat ∧ args_ok ctx = true
  | OSetHandler l h => (l < n)%nat ∧ handler_ok l h
  | OWrite l lvl msg ctx now call => (l < n)%nat ∧ level_ok lvl = true ∧ args_ok ctx = true
  end.
Definition new_loggers (o : log_op) : nat := match o with ONew _ _ => 1 | _ => 0 end.
Fixpoint ops_ok (n : nat) (ops : list log_op) : Prop :=
  match ops with [] => True | o :: ops => op_ok n o ∧ ops_ok (n + new_loggers o) ops end.

Lemma ctx_ok_app c c' : ctx_ok c = true → ctx_ok (c ++ c') = ctx_ok c'.
Proof.
  revert c. fix IH 1. intros [|k [|v c]]; [done..|]. cbn [ctx_ok app].
  intros [Hv Hc]%andb_true_iff. rewrite Hv, (IH c) by done. done.
Qed.

Lemma ctx_ok_even c : forallb value_ok c = true → Nat.odd (length c) = false → ctx_ok c = true.
Proof.
  revert c. fix IH 1. intros [|k [|v c]]; [done..|]. cbn [forallb length ctx_ok].
  intros [_ [Hv Hc]%andb_true_iff]%andb_true_iff. rewrite !Nat.odd_succ, Nat.even_succ. intros Ho.
  by rewrite Hv, (IH c).
Qed.

Lemma toArray_ok m : forallb value_ok m.*2 = true → forallb value_ok (toArray m) = true.
Proof.
  induction m as [|[k v] m IH]; [done|]. change (toArray ((k, v) :: m)) with (VString k :: v :: toArray m).
  cbn [fmap list_fmap snd forallb value_ok andb]. intros [Hv Hm]%andb_true_iff. by rewrite Hv, IH.
Qed.

(** Whatever is passed to a logger, the context has a value for every key. *)
Lemma normalize_ok ctx : args_ok ctx = true → ctx_ok (normalize ctx) = true.
Proof.
  intros Ha. unfold normalize.
  set (c := match ctx with [VCtx m] => toArray m | _ => ctx end).
  assert (forallb value_ok c = true) as Hc.
  { subst c. destruct ctx as [|[] [|? ?]]; try done. by apply toArray_ok. }
  clearbody c. destruct (Nat.odd (length c)) eqn:Ho; [|by apply ctx_ok_even].
  apply ctx_ok_even; [by rewrite forallb_app, Hc|].
  rewrite length_app. replace (length c + length _)%nat with (S (S (S (length c)))) by (cbn; lia).
  by rewrite Nat.odd_succ, Nat.even_succ, Nat.odd_succ, <- Nat.negb_odd, Ho.
Qed.

Lemma level_text l : level_ok l = true → is_Some (Lvl_String l) ∧ is_Some (AlignedString l).
Proof.
  unfold level_ok. intros Hl. assert (l = 0 ∨ l = 1 ∨ l = 2 ∨ l = 3 ∨ l = 4 ∨ l = 5)%Z as Hc by lia.
  destruct_or! Hc; subst; split; by eexists.
Qed.

Lemma value_text v term : value_ok v = true → is_Some (formatLogfmtValue v term).
Proof.
  assert (∀ v, value_ok v = true → is_Some (formatShared v)) as Hs.
  { clear. fix IH 1. intros v Hv. destruct v; cbn [formatShared value_ok] in *; try (by eexists).
    - destruct (proj1 (level_text l Hv)) as [s ->]. by eexists.
    - by apply IH. }
  intros Hv. specialize (Hs v Hv). destruct v, term; cbn in *; try (by eexists);
    destruct Hs as [? ->]; by eexists.
Qed.

Lemma fields_printed ctx first color term padding :
  ctx_ok ctx = true → is_Some (logfmt_fields ctx first color term padding).
Proof.
  revert ctx first padding. fix IH 1. intros [|k [|v ctx]] first padding; [by eexists|done|].
  cbn [ctx_ok logfmt_fields]. intros [Hv Hc]%andb_true_iff. unfold logfmt_field.
  destruct (value_text v term Hv) as [text ->]. cbn [mbind option_bind].
  assert (∃ key text', match k with
      | VString k => Some (k, text)
      | _ => (errorKey,.) <$> formatLogfmtValue (VString EmptyString) term
      end = Some (key, text')) as (key & text' & ->) by (destruct k; by eexists _, _).
  cbn [mbind option_bind]. cbv zeta. cbn [mbind option_bind].
  destruct (IH ctx false (if (default 0 (padding !! key) <? RuneCount text')%nat
                          then <[key := RuneCount text']> padding else padding) Hc) as [[rest p] Hr].
  rewrite Hr. cbn [mbind option_bind]. by eexists.
Qed.

Lemma line_printed f r fs :
  format_ok f → ctx_ok (r_Ctx r) = true → level_ok (r_Lvl r) = true → is_Some (line_of f r fs).
Proof.
  intros Hf Hc Hv. destruct (level_text _ Hv) as [_ [s2 Hs2]]. destruct f as [|usecolor|f]; cbn [line_of].
  - unfold LogfmtFormat, logfmt.
    edestruct (fields_printed ([VString timeKey; VTime (r_Time r); VString lvlKey; VLvl (r_Lvl r);
      VString msgKey; VString (r_Msg r)] ++ r_Ctx r)) as [[line p] ->]; [by cbn; rewrite Hv|by eexists].
  - unfold TerminalFormat. rewrite Hs2. cbn [mbind option_bind]. destruct (terminal_heading _ _ _ _) as [heading fs'].
    unfold logfmt. edestruct (fields_printed (r_Ctx r)) as [[line p] ->]; [done|by eexists].
  - destruct (Hf r) as [text ->]. by eexists.
Qed.

(** Induction on handlers, with the ones of a list. *)
Lemma Handler_ind' (P : Handler → Prop) :
  P HNil → (∀ wr f, P (HWrite wr f)) → (∀ h, P h → P (HSync h)) → (∀ h, P h → P (HLazy h)) →
  (∀ h, P h → P (HCallerFile h)) → (∀ h, P h → P (HCallerFunc h)) → (∀ f h, P h → P (HCallerStack f h)) →
  (∀ fn h, P h → P (HFilter fn h)) → (∀ hs, Forall P hs → P (HMulti hs)) → (∀ hs, Forall P hs → P (HFailover hs)) →
  P HDiscard → (∀ i, P (HSwap i)) → ∀ h, P h.
Proof.
  intros P1 P2 P3 P4 P5 P6 P7 P8 P9 P10 P11 P12. fix IH 1.
  intros [|wr f|h|h|h|h|f h|fn h|hs|hs| |i].
  - apply P1.
  - apply P2.
  - apply P3, IH.
  - apply P4, IH.
  - apply P5, IH.
  - apply P6, IH.
  - apply P7, IH.
  - apply P8, IH.
  - apply P9. induction hs; constructor; [apply IH|done].
  - apply P10. induction hs; constructor; [apply IH|done].
  - apply P11.
  - apply P12.
Qed.

(** What a handler keeps: the context has pairs, the level exists, and the loggers and
    the handlers are the same. *)
Lemma wp_of_option {S A} (o : option A) a (Q : A → S → Prop) s : o = Some a → Q a s → wp (of_option o) Q s.
Proof. by intros -> ?. Qed.

Section keeping.
Variables (ls : list logger) (hs : list Handler).
Definition kept (s : Record_ * world) : Prop :=
  ctx_ok (r_Ctx s.1) = true ∧ level_ok (r_Lvl s.1) = true ∧ loggers s.2 = ls ∧ swaps s.2 = hs.

Definition keeps {A} (m : M (Record_ * world) A) : Prop := ∀ s, kept s → wp m (λ _, kept) s.

Lemma keeps_bind {A B} (m : M (Record_ * world) A) (f : A → M (Record_ * world) B) :
  keeps m → (∀ a, keeps (f a)) → keeps (m ≫= f).
Proof. intros Hm Hf s Hs. apply wp_bind. eapply wp_mono; [by apply Hm|]. intros a s' Hs'. by apply Hf. Qed.
Lemma keeps_ret {A} (a : A) : keeps (mret a).
Proof. intros s Hs. by apply wp_ret. Qed.
Lemma keeps_gets {A} (f : Record_ * world → A) : keeps (gets f).
Proof. intros s Hs. by apply wp_gets. Qed.
Lemma keeps_add l : ctx_ok l = true → keeps (add_ctx l).
Proof.
  intros Hl [r w] (Hc & Hv & Hls & Hhs). apply wp_modify. unfold kept in *. cbn in *.
  by rewrite ctx_ok_app.
Qed.

Lemma keeps_format f : format_ok f → keeps (format f).
Proof.
  intros Hf [r w] (Hc & Hv & Hls & Hhs). cbn in *.
  destruct (line_printed f r (formats w)) as [[text fs'] Heq]; [done..|].
  unfold format. wp_steps. cbn [fst snd]. eapply wp_of_option; [exact Heq|]. by wp_steps.
Qed.

Lemma keeps_write wr text : keeps (write_line wr text).
Proof. by intros [r w]. Qed.

Lemma lazies_evaluated call ctx : ctx_ok ctx = true → ∃ ctx' err, lazy_ctx call ctx = Some (ctx', err) ∧ ctx_ok ctx' = true.
Proof.
  revert ctx. fix IH 1. intros [|k [|v ctx]]; [by eexists _, _|done|]. cbn [ctx_ok lazy_ctx].
  intros [Hv Hc]%andb_true_iff. destruct (IH ctx Hc) as (ctx' & err' & -> & Hc').
  assert (∃ v' err, match v with
      | VLazy lz => v ← evaluateLazy lz;
          Some match v with inr err => (VError err, true) | inl (VStack cs) => (VStack (TrimBelow cs call), false)
               | inl v => (v, false) end
      | _ => Some (v, false) end = Some (v', err) ∧ value_ok v' = true) as (v' & err & -> & Hv').
  { destruct v; try by eexists _, _. destruct f as [| | | |[|v [|? ?]]]; try done; try by eexists _, _.
    cbn in *. destruct v; by eexists _, _. }
  cbn. eexists _, _. split; [done|]. cbn. by rewrite Hv', Hc'.
Qed.

Lemma keeps_lazies : keeps evaluate_lazies.
Proof.
  intros [r w] (Hc & Hv & Hls & Hhs). cbn in *.
  destruct (lazies_evaluated (r_Call r) _ Hc) as (ctx & err & Heq & Hc').
  unfold evaluate_lazies. wp_steps. cbn [fst snd]. eapply wp_of_option; [exact Heq|]. wp_steps.
  destruct err; unfold add_ctx; wp_steps; unfold kept; cbn; [|done]. by rewrite ctx_ok_app.
Qed.

#[local] Hint Resolve keeps_bind keeps_ret keeps_gets keeps_add keeps_format keeps_write keeps_lazies : idx.

Lemma keeps_multi go l : Forall (λ h, keeps (go h)) l → keeps (multi go l).
Proof. induction 1; cbn [multi]; auto with idx. Qed.
Lemma keeps_failover go l : Forall (λ h, keeps (go h)) l → ∀ i err, keeps (failover go i err l).
Proof.
  induction 1 as [|h l Hh _ IH]; intros i err; cbn [failover]; [auto with idx|].
  apply keeps_bind; [done|]. intros [e|]; auto with idx.
Qed.
#[local] Hint Resolve keeps_multi keeps_failover : idx.

Lemma all_ok n (l : list Handler) (P : Handler → Prop) :
  Forall (λ h, handler_ok n h → P h) l → handler_ok n (HMulti l) → Forall P l.
Proof. induction 1 as [|h l Hh _ IH]; [done|]. intros [? ?]. constructor; auto. Qed.

(** What is at a place is handled with what is left of the stack. *)
Lemma keeps_swap stack i h :
  hs !! i = Some h → keeps (handle stack h) → keeps (handle (S stack) (HSwap i)).
Proof.
  intros Hi Hh s Hs. cbn [handle]. wp_steps. eapply wp_of_option; [|by apply Hh].
  destruct Hs as (_ & _ & _ & ->). exact Hi.
Qed.

(** With a stack that is deep enough a handler does not panic. *)
Lemma keeps_handle stack n h :
  (∀ i h, hs !! i = Some h → handler_ok i h) → (n ≤ length hs)%nat → (n ≤ stack)%nat → handler_ok n h →
  keeps (handle stack h).
Proof.
  intros Hok. revert n h. induction stack as [|stack IHs]; intros n h Hn Hle.
  all: induction h as [|wr f|h IH|h IH|h IH|h IH|f h IH|fn h IH|l IH|l IH| |i] using Handler_ind'; intros Hh.
  all: try (cbn [handler_ok] in Hh; lia).
  all: try (destruct (lookup_lt_is_Some_2 hs i) as [h' Hi]; [cbn [handler_ok] in Hh; lia|];
    apply (keeps_swap _ _ h' Hi), (IHs i); cbn [handler_ok] in Hh; eauto; lia).
  all: cbn [handle handler_ok] in *; try done; auto with idx.
  all: try (apply keeps_multi; by eapply all_ok); try (apply keeps_failover; by eapply all_ok).
  all: unfold LazyHandler_Log, CallerFileHandler_Log, CallerFuncHandler_Log, CallerStackHandler_Log, FilterHandler_Log,
    sprint_call; repeat (apply keeps_bind; [by auto with idx|intros]); auto with idx.
  all: case_match; by auto with idx.
Qed.
End keeping.

Lemma insert_ok (hs : list Handler) j h :
  (∀ i h, hs !! i = Some h → handler_ok i h) → handler_ok j h →
  ∀ i h', <[j := h]> hs !! i = Some h' → handler_ok i h'.
Proof. intros Hhs Hh i h' [(-> & <- & _)|[_ Hi]]%list_lookup_insert_Some; eauto. Qed.

(** An operation keeps the world in order, when the stack is as deep as there are places. *)
Lemma wp_log_step stack o w :
  world_ok w → op_ok (length (loggers w)) o → (length (loggers w) ≤ stack)%nat →
  wp (log_step stack o) (λ _ w', world_ok w' ∧ length (loggers w') = (length (loggers w) + new_loggers o)%nat) w.
Proof.
  intros (Hlen & Hhs & Hls) Ho Hst. destruct o as [l ctx|l h|l lvl msg ctx now call]; cbn [log_step op_ok new_loggers] in *;
    destruct Ho as [[p Hp]%lookup_lt_is_Some_2 Ho]; destruct (Hls l p Hp) as [Hc Hi].
  - unfold New, get_st. apply wp_bind. cbn. apply wp_bind.
    eapply wp_of_option; [exact Hp|]. apply wp_modify. unfold world_ok. cbn. rewrite !length_app. cbn.
    pose proof (lookup_lt_Some _ _ _ Hp). split; [|done]. split; [lia|]. split.
    + intros i h [Hi'|[Hle Hi']]%lookup_app_Some; [eauto|].
      apply list_lookup_singleton_Some in Hi' as [He <-]. cbn. lia.
    + intros l' p' [Hp'|[Hle Hp']]%lookup_app_Some; [eauto|].
      apply list_lookup_singleton_Some in Hp' as [He <-]. cbn. split; [|lia].
      unfold newContext. rewrite ctx_ok_app by done. by apply normalize_ok.
  - unfold SetHandler, get_st. apply wp_bind. cbn. apply wp_bind.
    eapply wp_of_option; [exact Hp|]. apply wp_modify. unfold world_ok. cbn. rewrite length_insert, Hi.
    split; [|lia]. split; [done|]. split; [by apply insert_ok|done].
  - destruct Ho as [Hl Ha]. unfold wp, write. rewrite Hp.
    assert (kept (loggers w) (swaps w) (mkRecord now lvl msg (newContext (l_ctx p) ctx) call, w)) as Hk.
    { unfold kept, newContext. cbn. rewrite ctx_ok_app by done. by rewrite normalize_ok. }
    pose proof (lookup_lt_Some _ _ _ Hp).
    eapply (keeps_handle (loggers w) (swaps w) stack (length (swaps w)) (HSwap (l_h p))) in Hk;
      [|done|lia|lia|cbn; lia].
    unfold wp in Hk. destruct (handle _ _ _) as [[e [r w']]|]; [|done]. destruct Hk as (_ & _ & Els & Ehs). cbn in *.
    unfold world_ok. rewrite Els, Ehs. split; [done|lia].
Qed.

End safety.

(** ** What reaches the console *)

Section console.
Context `{LogOutput}.

(** The records that are logged, with the contexts [ctxs] of the loggers: the context of a
    logger is that of its parent, and what it was made with. *)
Fixpoint logged (ctxs : list (list value)) (ops : list log_op) : list Record_ :=
  match ops with
  | [] => []
  | ONew l ctx :: ops => logged (ctxs ++ [default [] (ctxs !! l) ++ normalize ctx]) ops
  | OSetHandler _ _ :: ops => logged ctxs ops
  | OWrite l lvl msg ctx now call :: ops =>
      mkRecord now lvl msg (default [] (ctxs !! l) ++ normalize ctx) call :: logged ctxs ops
  end.

(** A record whose lazy values were evaluated. *)
Definition evaluated (r : Record_) : Record_ :=
  match lazy_ctx (r_Call r) (r_Ctx r) with
  | Some (ctx, err) => r <| r_Ctx := ctx ++ if err : bool then [VString errorKey; VString "bad lazy"] else [] |>
  | None => r
  end.

Definition sets_no_handler (o : log_op) : Prop := match o with OSetHandler _ _ => False | _ => True end.

Variables (windows : bool) (verbosity : Z).
Definition console_writer : nat := if windows then stdout else stderr.
Definition console_handler : Handler :=
  LvlFilterHandler verbosity (if windows then StreamHandler stdout FLogfmt else StreamHandler stderr (FTerminal true)).

(** A line of the console for a record, after any others. *)
Definition console_line (r : Record_) (out : nat * string) : Prop :=
  out.1 = console_writer ∧
  ∃ fs fs', (if windows then LogfmtFormat (evaluated r) fs else TerminalFormat true (evaluated r) fs) = Some (out.2, fs').

(** What the handling of [r] adds to what was written. *)
Definition adds_line (r : Record_) (w w' : world) : Prop :=
  loggers w' = loggers w ∧ swaps w' = swaps w ∧
  ∃ outs, written w' = written w ++ outs ∧ Forall2 console_line (filter (λ r, r_Lvl r ≤ verbosity)%Z [r]) outs.

Lemma wp_lazies r w :
  ctx_ok (r_Ctx r) = true →
  wp evaluate_lazies (λ _ s, s = (evaluated r, w) ∧ ctx_ok (r_Ctx (evaluated r)) = true ∧ r_Lvl (evaluated r) = r_Lvl r) (r, w).
Proof.
  intros Hc. destruct (lazies_evaluated (r_Call r) _ Hc) as (ctx & err & Heq & Hc').
  unfold evaluate_lazies, evaluated. rewrite Heq. wp_steps. cbn [fst snd]. eapply wp_of_option; [exact Heq|].
  wp_steps. destruct err; unfold add_ctx; wp_steps; cbn; rewrite ?ctx_ok_app, ?app_nil_r by done; done.
Qed.

Lemma wp_format_write f wr r w :
  format_ok f → ctx_ok (r_Ctx r) = true → level_ok (r_Lvl r) = true →
  wp (text ← format f; write_line wr text) (λ _ s, loggers s.2 = loggers w ∧ swaps s.2 = swaps w ∧
    ∃ text fs', line_of f r (formats w) = Some (text, fs') ∧ written s.2 = written w ++ [(wr, text)]) (r, w).
Proof.
  intros Hf Hc Hv. destruct (line_printed f r (formats w)) as [[text fs'] Heq]; [done..|].
  unfold format, write_line. wp_steps. cbn [fst snd]. eapply wp_of_option; [exact Heq|]. wp_steps. cbn.
  split; [done|]. split; [done|]. eauto.
Qed.

Lemma handle_console stack r w :
  ctx_ok (r_Ctx r) = true → level_ok (r_Lvl r) = true →
  wp (handle stack console_handler) (λ _ s, adds_line r w s.2) (r, w).
Proof.
  intros Hc Hl. unfold console_handler, LvlFilterHandler, FilterHandler, adds_line.
  assert (∀ wr f, format_ok f → wr = console_writer →
    (∀ r fs, line_of f r fs = if windows then LogfmtFormat r fs else TerminalFormat true r fs) →
    wp (handle stack (HFilter (λ r, (r_Lvl r <=? verbosity)%Z) (StreamHandler wr f))) (λ _ s,
      loggers s.2 = loggers w ∧ swaps s.2 = swaps w ∧
      ∃ outs, written s.2 = written w ++ outs ∧ Forall2 console_line (filter (λ r, r_Lvl r ≤ verbosity)%Z [r]) outs) (r, w)) as Hstream.
  { intros wr f Hf -> Hline. unfold StreamHandler. destruct stack; cbn [handle]; unfold FilterHandler_Log; wp_steps; cbn [fst].
    all: destruct (Z.leb_spec (r_Lvl r) verbosity) as [Hle|Hlt].
    all: try (wp_steps; split; [done|]; split; [done|]; exists []; rewrite app_nil_r; split; [done|];
      rewrite filter_cons_False by lia; constructor).
    all: unfold LazyHandler_Log, SyncHandler_Log; apply wp_bind; (eapply wp_mono; [by apply wp_lazies|]).
    all: intros [] s (-> & Hc' & Hl'); (eapply wp_mono; [apply wp_format_write; [done|done|by rewrite Hl']|]).
    all: intros e s (-> & -> & text & fs' & Htext & ->); split; [done|]; split; [done|].
    all: eexists; split; [done|]; rewrite filter_cons_True by done; repeat constructor; rewrite Hline in Htext; eauto. }
  destruct windows eqn:Hwin; (apply Hstream; [done|unfold console_writer; by rewrite Hwin|done]).
Qed.

(** From any logger the record gets to the root. *)
Definition leads_to_root (hs : list Handler) : Prop :=
  hs !! 0%nat = Some console_handler ∧ ∀ i h, hs !! S i = Some h → ∃ j, h = HSwap j ∧ (j ≤ i)%nat.

Lemma handle_chain hs i stack r w :
  leads_to_root hs → (i < length hs)%nat → (i < stack)%nat → swaps w = hs →
  ctx_ok (r_Ctx r) = true → level_ok (r_Lvl r) = true →
  wp (handle stack (HSwap i)) (λ _ s, adds_line r w s.2) (r, w).
Proof.
  intros [H0' HS] Hi Hst Hw Hc Hl. revert i Hi Hst. induction stack as [|stack IH]; intros i Hi Hst; [lia|].
  cbn [handle]. wp_steps. cbn [snd]. rewrite Hw. destruct i as [|i].
  - eapply wp_of_option; [exact H0'|]. by apply handle_console.
  - destruct (lookup_lt_is_Some_2 hs (S i) Hi) as [h Hh]. destruct (HS i h Hh) as (j & -> & Hj).
    eapply wp_of_option; [exact Hh|]. apply IH; lia.
Qed.

Definition follows (ctxs : list (list value)) (w : world) : Prop :=
  world_ok w ∧ leads_to_root (swaps w) ∧ l_ctx <$> loggers w = ctxs.

Lemma console_step stack o w ctxs :
  follows ctxs w → op_ok (length (loggers w)) o → sets_no_handler o → (length (loggers w) ≤ stack)%nat →
  wp (log_step stack o) (λ _ w',
    follows (match o with ONew l ctx => ctxs ++ [default [] (ctxs !! l) ++ normalize ctx] | _ => ctxs end) w' ∧
    ∃ outs, written w' = written w ++ outs ∧
      Forall2 console_line (filter (λ r, r_Lvl r ≤ verbosity)%Z (logged ctxs [o])) outs) w.
Proof.
  intros (Hw & Hroot & <-) Ho Hset Hst. pose proof (wp_log_step stack o w Hw Ho Hst) as Hok.
  destruct Hw as (Hlen & Hhs & Hls). destruct o as [l ctx|l h|l lvl msg ctx now call]; [|done|]; clear Hset;
    cbn [log_step op_ok logged] in *; destruct Ho as [[p Hp]%lookup_lt_is_Some_2 Ho]; destruct (Hls l p Hp) as [Hc Hi];
    rewrite list_lookup_fmap, Hp; cbn [fmap option_fmap option_map default].
  - unfold New, get_st, wp, of_option, mbind, M_bind in *. rewrite Hp in *. cbn in *. destruct Hok as [Hok _].
    split; [|by exists []; rewrite app_nil_r]. split; [done|]. split;
      [|exact (fmap_app l_ctx (loggers w) [mkLogger (newContext (l_ctx p) ctx) (length (swaps w))])].
    destruct Hroot as [H0' HS]. split; cbn.
    + by apply lookup_app_l_Some.
    + intros i h [Hi'|[Hle Hi']]%lookup_app_Some; [eauto|].
      apply list_lookup_singleton_Some in Hi' as [He <-]. exists (l_h p). split; [done|].
      pose proof (lookup_lt_Some _ _ _ Hp). lia.
  - destruct Ho as [Hl Ha]. pose proof (lookup_lt_Some _ _ _ Hp).
    assert (wp (handle stack (HSwap (l_h p))) (λ _ s, adds_line (mkRecord now lvl msg (newContext (l_ctx p) ctx) call) w s.2)
      (mkRecord now lvl msg (newContext (l_ctx p) ctx) call, w)) as Hh.
    { apply (handle_chain (swaps w)); try done; try lia.
      unfold newContext. cbn. rewrite ctx_ok_app by done. by apply normalize_ok. }
    unfold wp, write in *. rewrite Hp in *. destruct (handle _ _ _) as [[e [r w']]|]; [|done].
    cbn in Hh, Hok. destruct Hh as (El & Es & outs & Ewr & Hout). destruct Hok as [Hok _].
    split; [|by exists outs]. split; [done|]. by rewrite Es, El.
Qed.

(** What is logged reaches the console: after the log is set up with a verbosity, and
    whatever loggers are derived from the root and from each other, exactly the records
    up to that verbosity are written, one line each, in order and by the format of the
    console, and each with the contexts of its logger and of the ones that it is derived
    from before its own. *)
Theorem console_lines stack ops :
  ops_ok 1 ops → Forall sets_no_handler ops → (S (length ops) < stack)%nat →
  wp (for_each (initLog windows verbosity :: ops) (log_step stack)) (λ _ w,
    Forall2 console_line (filter (λ r, r_Lvl r ≤ verbosity)%Z (logged [[]] ops)) (written w)) init_world.
Proof.
  intros Ho Hset Hst.
  assert (∀ ops ctxs w, follows ctxs w → ops_ok (length (loggers w)) ops → Forall sets_no_handler ops →
    (length (loggers w) + length ops ≤ stack)%nat →
    wp (for_each ops (log_step stack)) (λ _ w', ∃ outs, written w' = written w ++ outs ∧
      Forall2 console_line (filter (λ r, r_Lvl r ≤ verbosity)%Z (logged ctxs ops)) outs) w) as Hrun.
  { clear. induction ops as [|o ops IH]; intros ctxs w Hw Ho Hset Hst; [by exists []; rewrite app_nil_r|].
    destruct Ho as [Ho Hos]. apply list.Forall_cons in Hset as [Hs Hset]. cbn [for_each length] in *. apply wp_bind.
    pose proof (wp_log_step stack o w ltac:(by apply Hw) Ho ltac:(lia)) as Hok.
    pose proof (console_step stack o w ctxs Hw Ho Hs ltac:(lia)) as Hc.
    unfold wp in Hok, Hc |- *. destruct (log_step stack o w) as [[[] w1]|]; [|done].
    destruct Hok as [_ Hlen], Hc as (Hw1 & outs1 & Hwr1 & Hout1). rewrite <- Hlen in Hos.
    specialize (IH _ w1 Hw1 Hos Hset ltac:(rewrite Hlen; destruct o; cbn; lia)). unfold wp in IH.
    destruct (for_each ops (log_step stack) w1) as [[[] w2]|]; [|done]. destruct IH as (outs2 & Hwr2 & Hout2).
    exists (outs1 ++ outs2). rewrite Hwr2, Hwr1, app_assoc. split; [done|].
    replace (logged ctxs (o :: ops)) with (logged ctxs [o] ++
      logged (match o with ONew l ctx => ctxs ++ [default [] (ctxs !! l) ++ normalize ctx] | _ => ctxs end) ops)
      by (by destruct o). rewrite list.filter_app. by apply Forall2_app. }
  cbn [for_each]. unfold wp.
  rewrite (bind_done _ _ init_world tt (mkWorld [mkLogger [] 0] [console_handler] (mkFormatState ∅ false 0) [])) by done.
  assert (wp (for_each ops (log_step stack)) (λ _ w', ∃ outs, written w' = [] ++ outs ∧
      Forall2 console_line (filter (λ r, r_Lvl r ≤ verbosity)%Z (logged [[]] ops)) outs)
    (mkWorld [mkLogger [] 0] [console_handler] (mkFormatState ∅ false 0) [])) as Hend.
  { apply Hrun; [|done|done|cbn; lia]. split; [|done]. split; [done|].
    split; [intros [|i] h [= <-]; cbn; by destruct windows|by intros [|l] p [= <-]]. }
  unfold wp in Hend. destruct (for_each _ _ _) as [[[] w]|]; [|done]. by destruct Hend as (outs & -> & Hout).
Qed.
End console.

#[export] Instance SampleLogOutput : LogOutput := {|
  TrimBelow s _ := s; stack_Trace _ := tt; stack_len _ := 0%nat; Stack_text _ _ := EmptyString; write_error _ _ _ := None
|}.

(** A program that logs at three levels with a child logger, and sets a file for it. *)
Definition sample_log_ops : list log_op :=
  [ONew 0 [VString "component"; VString "api"]%string; OWrite 1 LvlInfo "started" [VString "port"; VInt 8080]%string (5 : Z) (9 : Z);
   OWrite 0 LvlTrace "hidden" [] (6 : Z) (9 : Z); OWrite 1 LvlError "odd" [VString "err"]%string (7 : Z) (9 : Z)].


Lemma console_lines_witness :
  wp (for_each (initLog false LvlInfo :: sample_log_ops) (log_step 8)) (λ _ w,
    Forall2 (console_line false) (filter (λ r, r_Lvl r ≤ LvlInfo)%Z (logged [[]] sample_log_ops)) (written w)) init_world
  ∧ length (filter (λ r, r_Lvl r ≤ LvlInfo)%Z (logged [[]] sample_log_ops)) = 2%nat.
Proof.
  split; [|reflexivity]. apply console_lines; [repeat split; cbn; try lia|by repeat constructor|cbn; lia].
Defined.

(** A logger whose handler could not be made has no handler, and its first record ends the
    program. *)
Lemma nil_handler_panics `{LogOutput} stack lvl msg ctx now call :
  for_each [OSetHandler 0 HNil; OWrite 0 lvl msg ctx now call] (log_step (S stack)) init_world = Panic.
Proof. by destruct stack. Qed.
