(* ===== verification/LogFile.v ===== *)
(** * The files of the log

    log/handler.go writes records to a file and starts a new one when the file has grown
    over a limit; the one before is kept under another name.  core/log/log.go makes such
    loggers; the API has one.  [prepFile] cuts a line that was not finished. *)

From Stdlib Require Import Ascii.
From S2P Require Import Prelude.

Abbreviation text := (list ascii).

(** What the system answers to the operations of one [Log], as far as they are called:
    whether the removal, the renaming and the opening succeed, and how many bytes are
    written, and without an error or with one. *)
Record os_answers := mkAnswers {
  remove_ok : bool; rename_ok : bool; open_ok : bool; write_n : nat; write_ok : bool
}.

(** Go: log/handler.go countingWriter

    With the files: the one at the path, the one at the path with .old, and whether the
    file that is written to is open.  The file that is open is the one at the path. *)
Record rotating := mkRotating { cur : option text; old : option text; opened : bool; count : Z }.

(** [os.OpenFile(path, os.O_CREATE|os.O_APPEND|os.O_WRONLY, 0644)] *)
Definition open_file (st : rotating) : rotating := st <| cur ::= (λ c, Some (default [] c)) |> <| opened := true |>.

(** Go: log/handler.go RotatingFileHandler:133-141

    [None]: an error. *)
Definition RotatingFileHandler (open_ok stat_ok : bool) (cur old : option text) : option rotating :=
  if negb open_ok || negb stat_ok then None
  else Some (mkRotating (Some (default [] cur)) old true (u64 (Z.of_nat (length (default [] cur))))).

(** Go: log/handler.go RotatingFileHandler:147-149

    The file is closed, and takes the place of the old one; the errors are dropped. *)
Definition move_file (io : os_answers) (st : rotating) : rotating :=
  let st := st <| opened := false |> in
  let st := if remove_ok io then st <| old := None |> else st in
  match cur st with
  | Some c => if rename_ok io then st <| old := Some c |> <| cur := None |> else st
  | None => st
  end.

(** Go: log/handler.go RotatingFileHandler:143-162

    What is done before a record is written; the boolean is false on an error.  The check
    is made again under the lock. *)
Definition rotate (limit : Z) (io : os_answers) (st : rotating) : rotating * bool :=
  if (limit <? count st)%Z then
    let st := move_file io st in
    if open_ok io then (open_file st <| count := 0%Z |>, true) else (st, false)
  else (st, true).

(** Go: log/handler.go countingWriter.Write

    Nothing is written to a file that is closed. *)
Definition Write (io : os_answers) (p : text) (st : rotating) : rotating * bool :=
  let n := if opened st then Nat.min (write_n io) (length p) else 0%nat in
  (st <| cur ::= (λ c, if opened st then Some (default [] c ++ take n p) else c) |>
      <| count ::= (λ c, u64 (c + Z.of_nat n)) |>, opened st && write_ok io).

(** Go: log/handler.go RotatingFileHandler:142-164

    [p] is the line of the record. *)
Definition Log (limit : Z) (io : os_answers) (p : text) (st : rotating) : rotating * bool :=
  match rotate limit io st with
  | (st, true) => Write io p st
  | (st, false) => (st, false)
  end.

(** Go: core/log/log.go GetLogFileHandler

    The error is dropped, so that the handler may be nil, which is [None]. *)
Definition GetLogFileHandler (open_ok stat_ok : bool) (cur old : option text) (logFileSize : Z)
    : option rotating * Z :=
  (RotatingFileHandler open_ok stat_ok cur old, u64 (swrap 64 (logFileSize * 1024))).

Definition log_all (limit : Z) (l : list (os_answers * text)) (st : rotating) : rotating :=
  foldl (λ st p, (Log limit p.1 p.2 st).1) st l.

(** Go: log/handler.go prepFile:108-119

    The loop that goes back from the last byte: [pos] is the position that is read, and
    the result what is to be cut; [None] is an error. *)
Fixpoint cut_from (pos : nat) (content : text) (cut : Z) : option Z :=
  match content !! pos with
  | None => None
  | Some c =>
      if Ascii.eqb c "010" then Some cut
      else match pos with O => None | S pos => cut_from pos content (cut + 1) end
  end.

(** Go: log/handler.go prepFile

    The file after it is cut, and the count of the writer; the system makes no error of
    its own. *)
Definition prepFile (content : text) : option (text * Z) :=
  match length content with
  | O => None
  | S last =>
      cut ← cut_from last content 0;
      let ns := (Z.of_nat (length content) - cut)%Z in
      Some (take (Z.to_nat ns) content, u64 ns)
  end.

(** ** What the two files hold *)

Definition kept_text (st : rotating) : text := default [] (old st) ++ default [] (cur st).
Definition accepted (p : os_answers * text) : text := take (write_n p.1) p.2.

(** The files follow a history: they are its end, and nothing of it was dropped unless the
    old file alone has more than the limit; the count is the size of the file. *)
Definition holds (limit bound : Z) (history : text) (st : rotating) : Prop :=
  (∃ dropped, history = dropped ++ kept_text st ∧
    (dropped = [] ∨ ∃ o, old st = Some o ∧ limit < Z.of_nat (length o))%Z) ∧
  opened st = true ∧ ∃ c, cur st = Some c ∧ count st = Z.of_nat (length c) ∧ (count st ≤ bound)%Z.

Lemma rotate_holds limit bound io history st :
  (0 ≤ limit)%Z → rename_ok io = true → open_ok io = true → holds limit bound history st →
  ∃ st', rotate limit io st = (st', true) ∧ holds limit bound history st' ∧ (count st' ≤ limit)%Z.
Proof.
  intros Hlim Hren Hop ((dropped & Hh & Hd) & Ho & c & Hc & Hcnt & Hb). unfold rotate.
  destruct (Z.ltb_spec limit (count st)) as [Hlt|Hge].
  - unfold move_file. rewrite Hop.
    replace (cur (if remove_ok io then _ else _)) with (Some c) by (by destruct (remove_ok io)).
    rewrite Hren. eexists. split; [done|]. split; [|cbn; lia]. split; [|split; [done|]].
    + exists (dropped ++ default [] (old st)). unfold kept_text in *. cbn. rewrite Hc in Hh. cbn in Hh.
      rewrite app_nil_r, Hh, app_assoc. split; [done|]. right. exists c. split; [done|lia].
    + exists []. cbn. split; [by destruct (remove_ok io)|]. split; [done|lia].
  - exists st. split; [done|]. split; [|done]. split; [by exists dropped|]. split; [done|]. by exists c.
Qed.

Lemma write_holds limit bound io p history st :
  (0 ≤ bound < 2 ^ 64)%Z → (count st + Z.of_nat (length p) ≤ bound)%Z → holds limit bound history st →
  holds limit bound (history ++ accepted (io, p)) (Write io p st).1.
Proof.
  intros Hb Hsize ((dropped & Hh & Hd) & Ho & c & Hc & Hcnt & Hbound).
  unfold Write. rewrite Ho. cbn [fst andb]. unfold accepted. cbn [fst snd].
  assert (take (Nat.min (write_n io) (length p)) p = take (write_n io) p) as Ht.
  { destruct (Nat.min_spec (write_n io) (length p)) as [[? ->]|[? ->]]; [done|].
    by rewrite !take_ge by lia. }
  split; [|split; [done|]].
  - exists dropped. unfold kept_text in *. cbn. rewrite Hc in *. cbn in *. rewrite Ht.
    split; [by rewrite Hh, !app_assoc|done].
  - exists (c ++ take (write_n io) p). cbn. rewrite Hc, Ht. cbn. split; [done|].
    rewrite length_app, length_take. rewrite uwrap_small by lia. split; lia.
Qed.

(** [C30]  What [RotatingFileHandler] keeps, which is not what its comment says (files named
    after times): two files, the current one and the one before it.  As long as the files
    can be renamed and opened, and no line is longer than a bound, the two files are
    together the end of everything that was in them at first and was ever accepted by the
    system since, in order; text is only dropped when the older file alone has more than
    the limit; the count is the size of the current file, and that file is no longer than
    the limit and a line, or than it was at first. *)
Theorem log_keeps_the_latest (limit line : Z) l c o st :
  RotatingFileHandler true true c o = Some st →
  (0 ≤ limit ∧ 0 ≤ line ∧ limit + line < 2 ^ 64 ∧ Z.of_nat (length (default [] c)) < 2 ^ 64)%Z →
  Forall (λ p, rename_ok p.1 = true ∧ open_ok p.1 = true ∧ Z.of_nat (length p.2) ≤ line)%Z l →
  holds limit (Z.max (Z.of_nat (length (default [] c))) (limit + line))
    ((default [] o ++ default [] c) ++ (l ≫= accepted)) (log_all limit l st).
Proof.
  unfold RotatingFileHandler. cbn [negb orb]. generalize (default [] c) as c0.
  intros c0 [= <-] (Hlim & Hline & Hmax & Hlen) Hl. set (bound := Z.max _ _). assert (0 ≤ bound < 2 ^ 64)%Z as Hb by lia.
  assert (∀ l history st, holds limit bound history st →
    Forall (λ p, rename_ok p.1 = true ∧ open_ok p.1 = true ∧ Z.of_nat (length p.2) ≤ line)%Z l →
    holds limit bound (history ++ (l ≫= accepted)) (log_all limit l st)) as Hrun.
  { clear -Hlim Hline Hb. subst bound. induction l as [|[io p] l IH]; intros history st Hst Hl; [by rewrite app_nil_r|].
    apply list.Forall_cons in Hl as [(Hr & Ho & Hp) Hl]. cbn [mbind list_bind log_all foldl].
    destruct (rotate_holds _ _ io _ _ Hlim Hr Ho Hst) as (st' & Hrot & Hst' & Hcnt).
    rewrite app_assoc. apply IH; [|done]. unfold Log. cbn [fst snd]. rewrite Hrot. cbn in Hp. apply write_holds; [done|lia|done]. }
  apply Hrun; [|done]. split; [by exists []; split; [|left]|]. split; [done|].
  exists c0. cbn [cur count]. rewrite uwrap_small by lia. split; [done|]. split; [done|lia].
Qed.

Definition all_ok (n : nat) : os_answers := mkAnswers true true true n true.

Lemma log_keeps_the_latest_witness :
  holds 3 10 (["a"; "b"; "c"; "d"; "e"; "f"; "g"; "h"]%char)
    (log_all 3 [(all_ok 9, ["c"; "d"]%char); (all_ok 1, ["e"; "x"]%char); (all_ok 9, ["f"; "g"; "h"]%char)]
       (mkRotating (Some ["b"]%char) (Some ["a"]%char) true 1)).
Proof.
  apply (log_keeps_the_latest 3 7 [(all_ok 9, ["c"; "d"]%char); (all_ok 1, ["e"; "x"]%char); (all_ok 9, ["f"; "g"; "h"]%char)]
    (Some ["b"]%char) (Some ["a"]%char)); [done|cbn; lia|].
  repeat constructor; cbn; lia.
Defined.

(** A file that cannot be opened takes both files with it: the first attempt makes the
    file the old one, and the next one removes it. *)
Lemma failed_opens_lose_the_log limit p q st io io' c :
  (limit < count st)%Z → cur st = Some c → open_ok io = false → open_ok io' = false →
  rename_ok io = true → remove_ok io' = true →
  kept_text (log_all limit [(io, p); (io', q)] st) = [].
Proof.
  intros Hlt Hc Ho Ho' Hr Hr'. unfold log_all, Log, rotate. cbn [foldl fst snd].
  apply Z.ltb_lt in Hlt. rewrite Hlt, Ho. cbn [fst]. unfold move_file.
  destruct (remove_ok io); cbn; rewrite Hc, Hr; cbn; rewrite Hlt, Ho'; cbn; rewrite Hr'; done.
Qed.

(** The file is closed under another lock than it is written to: a record that has passed
    the check is lost when another one starts a new file meanwhile. *)
Lemma line_lost_in_between limit io p st :
  (count st ≤ limit)%Z → rotate limit io st = (st, true) ∧ (Write io p (move_file io st)).2 = false ∧
  kept_text (Write io p (move_file io st)).1 = kept_text (move_file io st).
Proof.
  intros Hle. unfold rotate, Write, kept_text. rewrite (proj2 (Z.ltb_ge _ _)) by done. split; [done|].
  assert (opened (move_file io st) = false) as ->; [|done].
  unfold move_file. repeat case_match; done.
Qed.

(** ** Lines that were not finished *)

Lemma cut_from_spec pos content cut n :
  cut_from pos content cut = Some n →
  ∃ k, (k ≤ pos)%nat ∧ n = (cut + Z.of_nat k)%Z ∧ content !! (pos - k)%nat = Some "010"%char ∧
    ∀ i, (pos - k < i ≤ pos)%nat → content !! i ≠ Some "010"%char.
Proof.
  revert cut. induction pos as [|pos IH]; intros cut; cbn [cut_from]; destruct (content !! _) as [c|] eqn:Hc; try done.
  all: destruct (Ascii.eqb_spec c "010") as [->|Hne]; try done.
  - intros [= <-]. exists 0%nat. split; [lia|]. split; [lia|]. split; [done|lia].
  - intros [= <-]. exists 0%nat. split; [lia|]. split; [lia|]. split; [done|lia].
  - intros (k & Hk & -> & Hl & Hr)%IH. exists (S k). split; [lia|]. split; [lia|]. split; [done|].
    intros i Hi. destruct (decide (i = S pos)) as [->|]; [congruence|]. apply Hr. lia.
Qed.
Lemma cut_from_none pos content cut :
  (pos < length content)%nat → cut_from pos content cut = None → ∀ i, (i ≤ pos)%nat → content !! i ≠ Some "010"%char.
Proof.
  revert cut. induction pos as [|pos IH]; intros cut Hp; cbn [cut_from];
    destruct (lookup_lt_is_Some_2 content _ Hp) as [c Hc]; rewrite Hc; destruct (Ascii.eqb_spec c "010") as [->|Hne]; try done.
  - intros _ i Hi. replace i with 0%nat by lia. congruence.
  - intros Hn i Hi. destruct (decide (i = S pos)) as [->|]; [congruence|]. eapply IH; [lia|done|lia].
Qed.

(** What is left of a file is its lines that were finished; the loop ends, and without such
    a line the file is refused. *)
Lemma finished_lines_are_kept content :
  (Z.of_nat (length content) < 2 ^ 64)%Z →
  match prepFile content with
  | Some (kept, n) => n = Z.of_nat (length kept) ∧ (∃ before, kept = before ++ ["010"%char]) ∧
                      ∃ rest, content = kept ++ rest ∧ "010"%char ∉ rest
  | None => "010"%char ∉ content
  end.
Proof.
  intros Hlen. unfold prepFile. destruct (length content) as [|end_] eqn:Hl.
  { apply nil_length_inv in Hl as ->. apply not_elem_of_nil. }
  destruct (cut_from end_ content 0) as [n|] eqn:Hn; cbn [mbind option_bind].
  - apply cut_from_spec in Hn as (k & Hk & -> & Hc & Hr).
    replace (Z.of_nat (S end_) - (0 + Z.of_nat k))%Z with (Z.of_nat (S (end_ - k))) by lia.
    rewrite Nat2Z.id. split; [|split].
    + rewrite length_take, uwrap_small by lia. lia.
    + rewrite (take_S_r _ _ _ Hc). eauto.
    + exists (drop (S (end_ - k)) content). split; [by rewrite take_drop|].
      intros [i Hi]%list_elem_of_lookup. rewrite lookup_drop in Hi.
      pose proof (lookup_lt_Some _ _ _ Hi). eapply Hr; [|exact Hi]. lia.
  - intros [i Hi]%list_elem_of_lookup. pose proof (lookup_lt_Some _ _ _ Hi).
    apply (cut_from_none end_ content 0 ltac:(lia) Hn i); [lia|done].
Qed.
