(* ===== verification/LogGlog.v ===== *)
(** * Levels by source file

    log/handler_glog.go: a handler that lets records through by a level that is global or
    that the first rule matching the file of the record gives, and that keeps what the
    rules gave for every place of the program. *)

From Stdlib Require Import Ascii DecimalString.
From S2P Require Import Prelude Texts LogFormat.

(** ** Patterns *)

(** The parts of the regular expression of a rule, as [Vmodule] writes them: anything,
    a slash and anything or nothing, a slash with a quoted component, and the name of a
    file with its slash; the end of the expression is that of the text. *)
Inductive regexp_part := PAny | PDirs | PName (comp : string) | PFile.

(** What may be left of a text after any characters, of which the end of a line is none,
    and after characters that are not slashes. *)
Fixpoint after_any (s : string) : list string :=
  s :: match s with
       | String c s => if Ascii.eqb c newline then [] else after_any s
       | EmptyString => []
       end.
Fixpoint after_names (s : string) : list string :=
  s :: match s with
       | String c s => if Ascii.eqb c "/" then [] else after_names s
       | EmptyString => []
       end.

(** What is left after a prefix. *)
Definition strip (prefix s : string) : list string :=
  if String.prefix prefix s
  then [String.substring (String.length prefix) (String.length s - String.length prefix) s] else [].

(** What may be left of a text after a part. *)
Definition after_part (p : regexp_part) (s : string) : list string :=
  match p with
  | PAny => after_any s
  | PDirs => s :: (strip "/" s ≫= after_any)
  | PName comp => strip (String "/" comp) s
  | PFile => strip "/" s ≫= λ s, match s with
                                  | String c s => if Ascii.eqb c "/" then [] else after_names s
                                  | EmptyString => []
                                  end ≫= strip ".go"
  end.

Fixpoint tails (s : string) : list string :=
  s :: match s with String _ s => tails s | EmptyString => [] end.

(** [MatchString]: a match may start anywhere. *)
Definition MatchString (ps : list regexp_part) (s : string) : bool :=
  existsb (String.eqb EmptyString) (foldl (λ rests p, rests ≫= after_part p) (tails s) ps).

(** Go: log/handler_glog.go Vmodule:118-130

    The expression of a rule. *)
Definition matcher (pat : string) (hasSuffixGo : bool) : list regexp_part :=
  [PAny] ++ (Split "/" pat ≫= λ comp,
    if bool_decide (comp = "*"%string) then [PDirs]
    else if bool_decide (comp = EmptyString) then [] else [PName comp])
  ++ (if hasSuffixGo then [] else [PFile]).

(** [regexp.Compile] refuses a text that is not in UTF-8, and the error is dropped. *)
Definition is_utf8 (s : string) : bool := bool_decide (utf8_text (runes s) = s).
Definition Compile (pat : string) (ps : list regexp_part) : option (list regexp_part) :=
  if is_utf8 pat then Some ps else None.

(** [strings.HasSuffix] *)
Definition HasSuffix (s suffix : string) : bool :=
  (String.length suffix <=? String.length s)%nat
  && String.eqb (String.substring (String.length s - String.length suffix) (String.length suffix) s) suffix.

(** [strconv.Atoi], with 64 bits. *)
Definition Atoi (s : string) : option Z :=
  let '(neg, digits) := match s with
                        | String "-" s => (true, s)
                        | String "+" s => (false, s)
                        | s => (false, s)
                        end in
  if bool_decide (digits = EmptyString) then None
  else d ← NilEmpty.uint_of_string digits;
       let n := Z.of_uint d in
       let z := if neg : bool then (- n)%Z else n in
       if ((- 2 ^ 63 <=? z) && (z <? 2 ^ 63))%Z then Some z else None.

(** ** The handler *)

(** Go: log/handler_glog.go pattern

    [None]: a nil expression. *)
Record pattern := mkPattern { pt_pattern : option (list regexp_part); pt_level : Z }.

(** Go: log/handler_glog.go GlogHandler *)
Record GlogHandler := mkGlogHandler {
  g_level : Z; override : Z; backtrace : Z; patterns : list pattern; siteCache : gmap Z Z; location : string
}.

(** Go: log/handler_glog.go NewGlogHandler *)
Definition NewGlogHandler : GlogHandler := mkGlogHandler 0 0 0 [] ∅ EmptyString.

(** Go: log/handler_glog.go Verbosity *)
Definition Verbosity (level : Z) (h : GlogHandler) : GlogHandler := h <| g_level := u32 level |>.

(** Go: log/handler_glog.go Vmodule:95-134

    The rules of a text; [None] is an error of the syntax. *)
Fixpoint parse_rules (rules : list string) : option (list pattern) :=
  match rules with
  | [] => Some []
  | EmptyString :: rules => parse_rules rules
  | rule :: rules =>
      match Split "=" rule with
      | [pat; n] =>
          let pat := TrimSpace pat in let n := TrimSpace n in
          if bool_decide (pat = EmptyString) || bool_decide (n = EmptyString) then None
          else level ← Atoi n;
               filter ← parse_rules rules;
               Some (if (level <=? 0)%Z then filter
                     else mkPattern (Compile pat (matcher pat (HasSuffix pat ".go"))) level :: filter)
      | _ => None
      end
  end.

(** Go: log/handler_glog.go Vmodule

    The boolean is false on an error, which leaves the handler as it was. *)
Definition Vmodule (ruleset : string) (h : GlogHandler) : GlogHandler * bool :=
  match parse_rules (Split "," ruleset) with
  | None => (h, false)
  | Some filter =>
      (h <| patterns := filter |> <| siteCache := ∅ |> <| override := u32 (Z.of_nat (length filter)) |>, true)
  end.

(** Go: log/handler_glog.go BacktraceAt *)
Definition BacktraceAt (loc : string) (h : GlogHandler) : GlogHandler * bool :=
  match Split ":" loc with
  | [file; line] =>
      let file := TrimSpace file in let line := TrimSpace line in
      if bool_decide (file = EmptyString) || bool_decide (line = EmptyString) || negb (HasSuffix file ".go")
      then (h, false)
      else match Atoi line with
           | None => (h, false)
           | Some _ => (h <| location := loc |> <| backtrace := u32 (Z.of_nat (String.length loc)) |>, true)
           end
  | _ => (h, false)
  end.

Section glog.
Context `{LogText}.

(** Go: log/handler_glog.go GlogHandler.Log:216-221

    The level of the first rule that matches; [Panic] at a nil expression. *)
Fixpoint rule_level (rules : list pattern) (site : string) : outcome (option Z) :=
  match rules with
  | [] => Done None
  | rule :: rules =>
      match pt_pattern rule with
      | None => Panic
      | Some ps => if MatchString ps site then Done (Some (pt_level rule)) else rule_level rules site
      end
  end.

(** Go: log/handler_glog.go GlogHandler.Log:183-200

    The record after a backtrace, whose text is [stacks]. *)
Definition with_backtrace (stacks : string) (r : Record_) (h : GlogHandler) : Record_ :=
  if (0 <? backtrace h)%Z && String.eqb (location h) (Call_text "%v" (r_Call r))
  then r <| r_Lvl := LvlInfo |>
         <| r_Msg := String.append (r_Msg r) (String newline (String newline stacks)) |>
  else r.

(** Go: log/handler_glog.go GlogHandler.Log

    The record for the origin, if it is let through. *)
Definition Log (stacks : string) (r : Record_) (h : GlogHandler) : outcome (option Record_ * GlogHandler) :=
  let r := with_backtrace stacks r h in
  if (u32 (r_Lvl r) <=? g_level h)%Z then Done (Some r, h)
  else if (override h =? 0)%Z then Done (None, h)
  else
    let answer lvl h := Done (if (r_Lvl r <=? lvl)%Z then Some r else None, h) in
    match siteCache h !! PC (r_Call r) with
    | Some lvl => answer lvl h
    | None =>
        match rule_level (patterns h) (Call_text "%+s" (r_Call r)) with
        | Panic => Panic
        | Done lvl => let lvl := default 0%Z lvl in
                      answer lvl (h <| siteCache ::= <[PC (r_Call r) := lvl]> |>)
        end
    end.

(** What can be done with the handler. *)
Inductive glog_op :=
  | GVerbosity (level : Z)
  | GVmodule (ruleset : string)
  | GBacktraceAt (loc : string)
  | GLog (stacks : string) (r : Record_).

(** The records that are let through. *)
Fixpoint run (ops : list glog_op) (h : GlogHandler) : outcome (list Record_ * GlogHandler) :=
  match ops with
  | [] => Done ([], h)
  | GVerbosity level :: ops => run ops (Verbosity level h)
  | GVmodule ruleset :: ops => run ops (Vmodule ruleset h).1
  | GBacktraceAt loc :: ops => run ops (BacktraceAt loc h).1
  | GLog stacks r :: ops =>
      match Log stacks r h with
      | Panic => Panic
      | Done (o, h) => match run ops h with Panic => Panic | Done (l, h) => Done (option_list o ++ l, h) end
      end
  end.

(** ** The cache does not show *)

(** The settings: the global level, the rules and the location of the backtrace. *)
Record settings := mkSettings { s_level : Z; s_rules : list pattern; s_location : string }.

(** A record is let through by the global level, or by the rules of its file. *)
Definition passes (s : settings) (stacks : string) (r : Record_) : outcome (option Record_) :=
  let r := if negb (String.eqb (s_location s) EmptyString) && String.eqb (s_location s) (Call_text "%v" (r_Call r))
           then r <| r_Lvl := LvlInfo |> <| r_Msg := String.append (r_Msg r) (String newline (String newline stacks)) |>
           else r in
  if (u32 (r_Lvl r) <=? s_level s)%Z then Done (Some r)
  else match s_rules s with
       | [] => Done None
       | rules => match rule_level rules (Call_text "%+s" (r_Call r)) with
                  | Panic => Panic
                  | Done lvl => Done (if (r_Lvl r <=? default 0 lvl)%Z then Some r else None)
                  end
       end.

Fixpoint passed (ops : list glog_op) (s : settings) : outcome (list Record_) :=
  match ops with
  | [] => Done []
  | GVerbosity level :: ops => passed ops (s <| s_level := u32 level |>)
  | GVmodule ruleset :: ops =>
      passed ops (match parse_rules (Split "," ruleset) with Some rules => s <| s_rules := rules |> | None => s end)
  | GBacktraceAt loc :: ops => passed ops (if (BacktraceAt loc NewGlogHandler).2 then s <| s_location := loc |> else s)
  | GLog stacks r :: ops =>
      match passes s stacks r with
      | Panic => Panic
      | Done o => match passed ops s with Panic => Panic | Done l => Done (option_list o ++ l) end
      end
  end.

(** The handler has the settings, and what it keeps is what the rules give. *)
Definition agrees (h : GlogHandler) (s : settings) : Prop :=
  g_level h = s_level s ∧ patterns h = s_rules s ∧ location h = s_location s ∧
  backtrace h = Z.of_nat (String.length (location h)) ∧ override h = Z.of_nat (length (patterns h)) ∧
  ∀ call lvl, siteCache h !! PC call = Some lvl →
    ∃ o, rule_level (patterns h) (Call_text "%+s" call) = Done o ∧ lvl = default 0%Z o.

(** Texts have less than 2^32 characters, as their lengths are kept in 32 bits. *)
Definition short_op (o : glog_op) : Prop :=
  match o with
  | GVmodule ruleset => ∀ rules, parse_rules (Split "," ruleset) = Some rules → (Z.of_nat (length rules) < 2 ^ 32)%Z
  | GBacktraceAt loc => (Z.of_nat (String.length loc) < 2 ^ 32)%Z
  | _ => True
  end.

Lemma BacktraceAt_spec loc h :
  BacktraceAt loc h = if (BacktraceAt loc NewGlogHandler).2
                      then (h <| location := loc |> <| backtrace := u32 (Z.of_nat (String.length loc)) |>, true)
                      else (h, false).
Proof. unfold BacktraceAt. repeat case_match; simplify_eq; done. Qed.

Lemma log_agrees stacks r h s :
  (∀ c c', PC c = PC c' → Call_text "%+s" c = Call_text "%+s" c') → agrees h s →
  match Log stacks r h, passes s stacks r with
  | Done (o, h), Done o' => o = o' ∧ agrees h s
  | Panic, Panic => True
  | _, _ => False
  end.
Proof.
  intros Hpc Ha. pose proof Ha as (Hl & Hp & Hloc & Hb & Ho & Hcache). unfold Log, passes.
  set (r1 := with_backtrace stacks r h).
  replace (if negb _ && _ then _ else r) with r1.
  2:{ unfold r1, with_backtrace. rewrite <- Hloc, Hb. by destruct (location h). }
  assert (r_Call r1 = r_Call r) as Hcall by (unfold r1, with_backtrace; by case_match).
  rewrite Hl. destruct (u32 (r_Lvl r1) <=? s_level s)%Z; [by split|]. rewrite Ho, <- Hp.
  destruct (patterns h) as [|p ps] eqn:Hps; [by split|]. cbn [length].
  rewrite (proj2 (Z.eqb_neq _ _)) by lia. rewrite Hcall.
  destruct (siteCache h !! PC (r_Call r)) as [lvl|] eqn:Hs.
  - destruct (Hcache _ _ Hs) as (o & -> & ->). by split.
  - destruct (rule_level (p :: ps) (Call_text "%+s" (r_Call r))) as [o|] eqn:Hr; [|done].
    split; [done|]. unfold agrees. cbn. rewrite Hps. do 5 (split; [done|]).
    intros call lvl. destruct (decide (PC call = PC (r_Call r))) as [Heq|Hne].
    + rewrite Heq, lookup_insert_eq. intros [= <-]. exists o. by rewrite (Hpc _ _ Heq).
    + rewrite lookup_insert_ne by done. apply Hcache.
Qed.

(** The cache of the levels does not show: whatever is logged and however the
    verbosity, the rules and the backtrace are changed in between, the records that the
    handler lets through are those that the settings of their time let through, each
    decided by the first rule that matches its file. *)
Theorem glog_cache_does_not_show ops :
  (∀ c c', PC c = PC c' → Call_text "%+s" c = Call_text "%+s" c') → Forall short_op ops →
  match run ops NewGlogHandler with
  | Done (l, _) => passed ops (mkSettings 0 [] EmptyString) = Done l
  | Panic => passed ops (mkSettings 0 [] EmptyString) = Panic
  end.
Proof.
  intros Hpc Hops.
  assert (agrees NewGlogHandler (mkSettings 0 [] EmptyString)) as Ha by (do 5 (split; [done|]); intros ? ?; cbn; by rewrite lookup_empty).
  revert Ha. generalize NewGlogHandler, (mkSettings 0 [] EmptyString).
  induction Hops as [|o ops Ho _ IH]; intros h s Ha; [done|].
  destruct o as [level|ruleset|loc|stacks r]; cbn [run passed].
  - apply IH. destruct Ha as (Hl & Hrest). split; [done|exact Hrest].
  - unfold Vmodule. cbn [short_op] in Ho. destruct (parse_rules _) as [rules|]; [|by apply IH].
    apply IH. destruct Ha as (Hl & Hp & Hloc & Hb & _). do 4 (split; [done|]). cbn.
    split; [apply uwrap_small; specialize (Ho _ eq_refl); lia|]. by intros ? ?; rewrite lookup_empty.
  - cbn [short_op] in Ho. rewrite (BacktraceAt_spec loc h). apply IH.
    destruct (BacktraceAt loc NewGlogHandler).2; [|exact Ha].
    destruct Ha as (Hl & Hp & Hloc & Hb & Hrest). do 3 (split; [done|]). split; [apply uwrap_small; cbn; lia|exact Hrest].
  - pose proof (log_agrees stacks r h s Hpc Ha) as Hlog.
    destruct (Log stacks r h) as [[o h']|], (passes s stacks r) as [o'|]; try done.
    destruct Hlog as [-> Ha']. specialize (IH h' s Ha'). destruct (run ops h') as [[l h'']|]; by rewrite IH.
Qed.
End glog.

(** Two places of a program, with the texts of their files. *)
Definition GlogText : LogText (H := SampleLogTypes) := {|
  FormatFloat := FormatInt; time_Format _ t := FormatInt t; Stack_String _ := "[]"%string;
  Sprintf_plus_v _ := "?"%string;
  Call_text f (c : Z) := if String.eqb f "%v" then String.append "api.go:" (FormatInt c)
                         else if (c =? 1)%Z then "github.com/x/db/db.go"%string else "github.com/x/core/api/api.go"%string;
  PC (c : Z) := c
|}.
#[local] Existing Instance GlogText.

Definition at_level (l : Z) (call : Z) : Record_ := mkRecord (5 : Z) l "m" [] (call : Z).
Definition sample_glog_ops : list glog_op :=
  [GVerbosity 1; GVmodule "core/*=4, db.go=3,"%string; GLog "" (at_level 4 2); GLog "" (at_level 4 1);
   GLog "" (at_level 3 1); GBacktraceAt "api.go:2"%string; GLog "s" (at_level 5 2); GVmodule "db=5"%string; GLog "" (at_level 4 2)].

Lemma glog_cache_does_not_show_witness :
  match run sample_glog_ops NewGlogHandler with
  | Done (l, _) => passed sample_glog_ops (mkSettings 0 [] EmptyString) = Done l ∧ r_Lvl <$> l = [4; 3; 3]%Z
  | Panic => False
  end.
Proof.
  pose proof (glog_cache_does_not_show sample_glog_ops) as Hglog. revert Hglog.
  destruct (run sample_glog_ops NewGlogHandler) as [[l h]|] eqn:Hrun; [|by vm_compute in Hrun].
  intros Hglog. split.
  - apply Hglog.
    + intros c c'. cbn. by intros ->.
    + repeat constructor. all: intros rules Hr; vm_compute in Hr; injection Hr as <-; cbn; lia.
  - apply (f_equal (λ o, match o with Done (l, _) => r_Lvl <$> l | Panic => [] end)) in Hrun.
    rewrite <- Hrun. by vm_compute.
Defined.
