(* ===== verification/Queries.v ===== *)
(** * The statements of the database

    db/common.go reads the SQL scripts of a directory, db/postgres_init.go prepares the
    database with them and fills its dictionary of words, and db/postgres_balances.go,
    postgres_flip.go, postgres_upgrades_history.go, postgres_actual_voting_loader.go and
    migration/runtime/ run single queries.  What a statement does is a parameter; the
    theorems are on the names of the statements, the dictionary and the rows. *)

From S2P Require Import Prelude Node.

(** ** The scripts *)

(** What a directory has: files with their contents and directories; [None] cannot be
    read. *)
Inductive entry :=
  | EFile (name : string) (content : option string)
  | EDir (name : string) (entries : option (list entry)).

Definition initQuery : string := "init.sql".

(** [strings.HasPrefix] and [strings.HasSuffix] *)
Definition HasPrefix (s prefix : string) : bool := String.prefix prefix s.
Definition HasSuffix (s suffix : string) : bool :=
  (String.length suffix <=? String.length s)%nat
  && String.eqb (String.substring (String.length s - String.length suffix) (String.length suffix) s) suffix.

(** Go: db/common.go readDirQueries:38-55

    The loop over the entries; [None]: a panic. *)
Fixpoint read_entry (namePrefix : string) (queries : gmap string string) (e : entry) : option (gmap string string) :=
  match e with
  | EDir name None => None
  | EDir name (Some l) =>
      (fix read_entries queries l :=
         match l with
         | [] => Some queries
         | e :: l => queries ← read_entry (concat_texts [namePrefix; name; "/"]%string) queries e; read_entries queries l
         end) queries l
  | EFile name content =>
      if HasSuffix name ".sql" then query ← content; Some (<[String.append namePrefix name := query]> queries)
      else Some queries
  end.

(** Go: db/common.go readDirQueries *)
Fixpoint readDirQueries (l : list entry) (queries : gmap string string) (namePrefix : string) : option (gmap string string) :=
  match l with
  | [] => Some queries
  | e :: l => queries ← read_entry namePrefix queries e; readDirQueries l queries namePrefix
  end.

(** Go: db/common.go ReadQueries:18-20

    A script that is added to the first one. *)
Definition part_of_init (name : string) : bool := HasPrefix name "init/" && negb (HasSuffix name initQuery).

(** Go: db/common.go ReadQueries

    [order] is the order in which the map is ranged over. *)
Definition ReadQueries (order : gmap string string → list (string * string)) (dir : option (list entry))
    : option (gmap string string) :=
  l ← dir; queries ← readDirQueries l ∅ EmptyString;
  let parts := filter (λ nq, part_of_init nq.1) (order queries) in
  let queries := foldl (λ m nq, delete nq.1 m) queries parts in
  Some (foldl (λ m nq, <[initQuery := String.append (default EmptyString (m !! initQuery)) nq.2]> m) queries parts).

(** Go: db/postgres.go getQuery

    [None]: a panic. *)
Definition getQuery (queries : gmap string string) (name : string) : option string := queries !! name.

(** Go: db/postgres.go ResetTo:29-48

    The names of the statements of a block, of the memory pool and of what is derived. *)
Definition block_statements : list string :=
  ["init.sql"; "maxHeight.sql"; "insertBlock.sql"; "insertBlockProposer.sql"; "insertBlockProposerVrfScore.sql";
   "insertAddressesAndTransactions.sql"; "insertSubmittedFlip.sql"; "insertFlipKey.sql"; "insertEpoch.sql";
   "resetToBlock.sql"; "saveBalances.sql"; "saveBirthdays.sql"; "insertCoins.sql"; "insertPenalty.sql";
   "insertMiningRewards.sql"; "insertBurntCoins.sql"; "saveEpochResult.sql"; "saveFlipsWords.sql"]%string.
(** Go: db/postgres_flip.go SaveFlipSize:9-14 *)
Definition flip_statements : list string :=
  ["selectEpochFlipsWithoutSize.sql"; "selectFlipsToLoadContent.sql"; "saveFlipsContent.sql"; "updateFlipSize.sql"]%string.
(** Go: db/postgres_upgrades_history.go UpdateUpgrades:7-12 *)
Definition upgrade_statements : list string :=
  ["getUpgradeVotingShortHistoryInfo.sql"; "getUpgradeVotingHistory.sql"; "updateUpgradeVotingShortHistory.sql";
   "updateUpgrades.sql"]%string.
(** Go: db/postgres_voting.go SaveProofProposal:3-8 *)
Definition voting_statements : list string :=
  ["saveVoteCountingStepResult.sql"; "saveVoteCountingResult.sql"; "saveProofProposal.sql"; "saveBlockProposal.sql";
   "deleteVoteCountingOldData.sql"]%string.
(** Go: db/postgres_mempool.go SaveMemPoolData:3-5 *)
Definition saveMemPoolDataQuery : string := "saveMemPoolData.sql".
(** Go: db/postgres_peers.go SavePeersCount:5-5 *)
Definition savePeersCountQuery : string := "savePeersCount.sql".
(** Go: db/postgres_restore.go SaveRestoredData:8-8 *)
Definition saveRestoredDataQuery : string := "saveRestoredData.sql".
(** Go: db/postgres_actual_voting_loader.go ActualOracleVotings:5-7 *)
Definition selectActualOracleVotingsQuery : string := "selectActualOracleVotings.sql".
Definition all_statements : list string :=
  block_statements ++ flip_statements ++ upgrade_statements ++ voting_statements
  ++ [saveMemPoolDataQuery; savePeersCountQuery; saveRestoredDataQuery; selectActualOracleVotingsQuery].

(** Go: migration/runtime/db/db.go GetLastHeight:34-38 *)
Definition migration_statements : list string := ["proposerVrfScore.sql"; "memPoolFlipKeys.sql"; "maxHeight.sql"]%string.

(** ** What is read of the scripts *)

(** The scripts of an entry, with their names. *)
Fixpoint files_of (namePrefix : string) (e : entry) : option (list (string * string)) :=
  match e with
  | EDir name None => None
  | EDir name (Some l) =>
      (fix files l := match l with
                      | [] => Some []
                      | e :: l => fs ← files_of (concat_texts [namePrefix; name; "/"]%string) e; rest ← files l; Some (fs ++ rest)
                      end) l
  | EFile name content =>
      if HasSuffix name ".sql" then query ← content; Some [(String.append namePrefix name, query)] else Some []
  end.
Fixpoint scripts (namePrefix : string) (l : list entry) : option (list (string * string)) :=
  match l with
  | [] => Some []
  | e :: l => fs ← files_of namePrefix e; rest ← scripts namePrefix l; Some (fs ++ rest)
  end.

Definition add_all (m : gmap string string) (l : list (string * string)) : gmap string string :=
  foldl (λ m nq, <[nq.1 := nq.2]> m) m l.

Lemma add_scripts_app m l k : add_all m (l ++ k) = add_all (add_all m l) k.
Proof. apply foldl_app. Qed.

Lemma read_entry_files : ∀ e p m, read_entry p m e = add_all m <$> files_of p e.
Proof.
  fix IH 1. intros [name content|name [l|]] p m; [| |done].
  - cbn. case_match; [|done]. by destruct content.
  - cbn. set (q := String.append p _). clearbody q. revert m. induction l as [|e l IHl]; intros m; [done|].
    rewrite IH. destruct (files_of q e) as [fs|]; [|done]. cbn. rewrite IHl.
    destruct (_ l) as [rest|]; [|done]. cbn. by rewrite add_scripts_app.
Qed.

Lemma read_dir_scripts l p m : readDirQueries l m p = add_all m <$> scripts p l.
Proof.
  revert m. induction l as [|e l IH]; intros m; [done|]. cbn. rewrite read_entry_files.
  destruct (files_of p e) as [fs|]; [|done]. cbn. rewrite IH. destruct (scripts p l); [|done]. cbn. by rewrite add_scripts_app.
Qed.

Lemma lookup_add_all m l n q :
  NoDup l.*1 → add_all m l !! n = Some q ↔ ((n, q) ∈ l) ∨ ((n ∉ (l.*1)) ∧ m !! n = Some q).
Proof.
  revert m. induction l as [|[n' q'] l IH]; intros m; cbn [add_all foldl fmap list_fmap fst snd].
  - intros _. set_solver.
  - intros [Hn Hnd]%list.NoDup_cons. fold (add_all (<[n' := q']> m) l). rewrite (IH _ Hnd).
    destruct (decide (n = n')) as [->|Hne].
    + rewrite lookup_insert_eq. split.
      * intros [Hl|[_ [= <-]]]; [|by left; left]. exfalso. apply Hn. exact (list_elem_of_fmap_2 fst _ _ Hl).
      * intros [[[= <-]|Hl]%elem_of_cons|[Hl _]]; [by right|..].
        -- exfalso. apply Hn. exact (list_elem_of_fmap_2 fst _ _ Hl).
        -- exfalso. apply Hl. left.
    + rewrite lookup_insert_ne by done. split.
      * intros [Hl|[Hl Hm]]; [left; by right|]. right. split; [|done]. intros [?|?]%elem_of_cons; done.
      * intros [[[=]|Hl]%elem_of_cons|[Hl Hm]]; [done|by left|]. right. split; [|done]. intros Hi. apply Hl. by right.
Qed.

Lemma lookup_delete_all (parts : list (string * string)) (m : gmap string string) n :
  foldl (λ m nq, delete nq.1 m) m parts !! n = if bool_decide (n ∈ parts.*1) then None else m !! n.
Proof.
  revert m. induction parts as [|[n' q'] parts IH]; intros m; [done|]. cbn [foldl fmap list_fmap fst].
  rewrite IH. destruct (decide (n = n')) as [->|Hne].
  - rewrite lookup_delete_eq, (bool_decide_eq_true_2 (n' ∈ n' :: _)) by left. by case_bool_decide.
  - rewrite lookup_delete_ne by done. apply (f_equal (λ b : bool, if b then None else m !! n)).
    apply bool_decide_ext. split; [by right|]. by intros [?|?]%elem_of_cons.
Qed.

Lemma lookup_append_all (parts : list (string * string)) (m : gmap string string) n :
  foldl (λ m nq, <[initQuery := String.append (default EmptyString (m !! initQuery)) nq.2]> m) m parts !! n
  = if bool_decide (n = initQuery ∧ parts ≠ []) then Some (String.append (default EmptyString (m !! n)) (concat_texts parts.*2))
    else m !! n.
Proof.
  revert m. induction parts as [|[n' q'] parts IH]; intros m; cbn [foldl fmap list_fmap snd].
  { by rewrite bool_decide_eq_false_2 by (by intros []). }
  rewrite IH. destruct (decide (n = initQuery)) as [->|Hne].
  - rewrite lookup_insert_eq, (bool_decide_eq_true_2 (initQuery = initQuery ∧ _ :: _ ≠ [])) by done.
    destruct parts as [|p parts]; [by rewrite bool_decide_eq_false_2 by (by intros []); cbn; rewrite append_nil_r|].
    rewrite bool_decide_eq_true_2 by done. cbn. by rewrite append_assoc.
  - rewrite lookup_insert_ne by done. by rewrite !bool_decide_eq_false_2 by (by intros []).
Qed.

(** What the statements are: a script is the statement of its name, and the first statement
    is its script with the parts after it, in the order in which the map was ranged over. *)
Lemma read_queries order l fs :
  (∀ m, ranges m (order m)) → scripts EmptyString l = Some fs → NoDup fs.*1 →
  ∃ m parts, ReadQueries order (Some l) = Some m ∧ parts ≡ₚ filter (λ nq, part_of_init nq.1) fs ∧
    (∀ n q, n ≠ initQuery → m !! n = Some q ↔ (n, q) ∈ fs ∧ part_of_init n = false) ∧
    (∀ q, (initQuery, q) ∈ fs → m !! initQuery = Some (String.append q (concat_texts parts.*2))).
Proof.
  intros Ho Hs Hnd. cbn [ReadQueries mbind option_bind]. rewrite read_dir_scripts, Hs. cbn [fmap option_fmap option_map mbind option_bind].
  set (m := add_all ∅ fs). set (parts := filter _ (order m)).
  assert (∀ n q, m !! n = Some q ↔ (n, q) ∈ fs) as Hm.
  { intros n q. unfold m. rewrite lookup_add_all, lookup_empty by done. naive_solver. }
  assert (order m ≡ₚ fs) as Hperm.
  { unfold m. rewrite (Ho _ : order _ ≡ₚ _). apply NoDup_Permutation.
    - apply NoDup_map_to_list.
    - by eapply NoDup_fmap_1.
    - intros [n q]. rewrite elem_of_map_to_list. apply Hm. }
  assert (∀ n, n ∈ parts.*1 ↔ part_of_init n = true ∧ ∃ q, (n, q) ∈ fs) as Hparts.
  { intros n. unfold parts. rewrite list_elem_of_fmap. setoid_rewrite list_elem_of_filter. setoid_rewrite Hperm.
    split; [intros ([n' q] & -> & Hp & Hq); split; [by apply Is_true_true|by exists q]|].
    intros [Hp [q Hq]]. exists (n, q). split; [done|]. split; [by apply Is_true_true|done]. }
  eexists _, parts. split; [done|]. split; [unfold parts; by rewrite Hperm|]. split.
  - intros n q Hn. rewrite lookup_append_all, bool_decide_eq_false_2 by (by intros []).
    rewrite lookup_delete_all. case_bool_decide as Hd.
    + apply Hparts in Hd as [Hd _]. split; [done|]. intros [_ ?]. congruence.
    + rewrite Hm. split; [|by intros []]. intros Hq. split; [done|].
      destruct (part_of_init n) eqn:Hp; [|done]. exfalso. apply Hd, Hparts. eauto.
  - intros q Hq. rewrite lookup_append_all, lookup_delete_all.
    rewrite (bool_decide_eq_false_2 (initQuery ∈ _)) by (by intros [? _]%Hparts).
    apply Hm in Hq as Hq'. rewrite Hq'. cbn. case_bool_decide as Hd; [done|].
    destruct parts as [|p parts']; [cbn; by rewrite append_nil_r|]. exfalso. by apply Hd.
Qed.

(** The files of resources/scripts/indexer and of resources/scripts/runtime_migration, with
    any contents. *)
Definition indexer_files : list string :=
  ["deleteVoteCountingOldData.sql"; "getUpgradeVotingHistory.sql"; "getUpgradeVotingShortHistoryInfo.sql";
   "init.sql"; "insertAddressesAndTransactions.sql"; "insertBlock.sql"; "insertBlockProposer.sql";
   "insertBlockProposerVrfScore.sql"; "insertBurntCoins.sql"; "insertCoins.sql"; "insertEpoch.sql";
   "insertFlipKey.sql"; "insertMiningRewards.sql"; "insertPenalty.sql"; "insertSubmittedFlip.sql"; "maxHeight.sql";
   "resetToBlock.sql"; "saveBalances.sql"; "saveBirthdays.sql"; "saveBlockProposal.sql"; "saveEpochResult.sql";
   "saveFlipsContent.sql"; "saveFlipsWords.sql"; "saveMemPoolData.sql"; "savePeersCount.sql";
   "saveProofProposal.sql"; "saveRestoredData.sql"; "saveVoteCountingResult.sql"; "saveVoteCountingStepResult.sql";
   "selectActualOracleVotings.sql"; "selectEpochFlipsWithoutSize.sql"; "selectFlipsToLoadContent.sql";
   "updateFlipSize.sql"; "updateUpgradeVotingShortHistory.sql"; "updateUpgrades.sql"]%string.
Definition table_files : list string :=
  ["contractVerifications.sql"; "contracts.sql"; "mempool.sql"; "minersHistory.sql"; "peersHistory.sql"; "pools.sql";
   "summaries.sql"; "tokens.sql"; "upgradeVotingHistory.sql"; "voteCounting.sql"]%string.
Definition procedure_files : list string :=
  ["addressSummaries.sql"; "contractVerifications.sql"; "delegateeEpochRewards.sql"; "generateEpochSummaries.sql";
   "resetChanges.sql"; "resetContracts.sql"; "saveBlock.sql"; "saveCoins.sql"; "saveContracts.sql";
   "saveContractsSummaries.sql"; "saveEpochResult.sql"; "saveFlipsContent.sql"; "saveMemPoolData.sql";
   "saveMinersHistory.sql"; "savePools.sql"; "saveValidationRewardsSummaries.sql"; "tokens.sql";
   "upgradeVotingHistory.sql"; "voteCounting.sql"]%string.
Definition migration_files : list string :=
  ["maxHeight.sql"; "memPoolFlipKeys.sql"; "proposerVrfScore.sql"]%string.
Definition indexer_dir (content : string → string) : list entry :=
  let file dir n := EFile n (Some (content (String.append dir n))) in
  EDir "init" (Some [EDir "procedures" (Some (file "init/procedures/" <$> procedure_files));
                     EDir "tables" (Some (file "init/tables/" <$> table_files))]) :: (file "" <$> indexer_files).
Definition migration_dir (content : string → string) : list entry :=
  (λ n, EFile n (Some (content n))) <$> migration_files.
Definition indexer_names : list string :=
  (String.append "init/procedures/" <$> procedure_files) ++ (String.append "init/tables/" <$> table_files) ++ indexer_files.

Lemma indexer_scripts content :
  scripts EmptyString (indexer_dir content) = Some ((λ n, (n, content n)) <$> indexer_names).
Proof. vm_compute. done. Qed.
Lemma migration_scripts content :
  scripts EmptyString (migration_dir content) = Some ((λ n, (n, content n)) <$> migration_files).
Proof. vm_compute. done. Qed.

Lemma named_keys (content : string → string) names : ((λ n, (n, content n)) <$> names).*1 = names.
Proof. rewrite <- list_fmap_compose. apply list_fmap_id. Qed.

(** The scripts of a list of names, which has no name twice, give the statements of a list
    of names that does not ask for a part of the first one. *)
Lemma named_statements order dir content names asked :
  (∀ m, ranges m (order m)) → scripts EmptyString dir = Some ((λ n, (n, content n)) <$> names) →
  forallb (λ n, bool_decide (n ∈ names) && negb (part_of_init n)) asked = true → NoDup names →
  ∃ m parts, ReadQueries order (Some dir) = Some m ∧ parts ≡ₚ content <$> filter part_of_init names ∧
    (∀ n, n ∈ asked → getQuery m n = Some (if bool_decide (n = initQuery)
                                           then String.append (content n) (concat_texts parts) else content n)).
Proof.
  intros Ho Hs Hasked Hnd.
  destruct (read_queries order dir _ Ho Hs) as (m & parts & Hm & Hp & Hother & Hinit); [by rewrite named_keys|].
  exists m, parts.*2. split; [done|]. split.
  - rewrite Hp. clear. induction names as [|n names IH]; [done|]. cbn [fmap list_fmap].
    destruct (decide (part_of_init n)) as [Hn|Hn].
    + rewrite !filter_cons_True by done. cbn. by rewrite IH.
    + by rewrite !filter_cons_False by done.
  - intros n Hn. pose proof (proj1 (forallb_forall _ _) Hasked n ltac:(by apply list_elem_of_In)) as Hb.
    apply andb_true_iff in Hb as [Hin%bool_decide_eq_true Hpart%negb_true_iff].
    assert ((n, content n) ∈ (λ n, (n, content n)) <$> names) as Hfs by (by apply (list_elem_of_fmap_2 (λ n, (n, content n)))).
    unfold getQuery. case_bool_decide as Hi; [subst; by apply Hinit|]. by apply Hother.
Qed.

(** [C32]  Every statement that the program asks for exists: with the files of the
    repository, whatever their contents and in whatever order the map is ranged over,
    reading the scripts succeeds, each name that is asked for gives the script of that
    name, and the first statement is followed by all the tables and procedures, once
    each; the same for the scripts of the migration. *)
Theorem statements_are_found order content :
  (∀ m, ranges m (order m)) →
  (∃ m parts, ReadQueries order (Some (indexer_dir content)) = Some m ∧
     parts ≡ₚ content <$> (String.append "init/procedures/" <$> procedure_files)
                          ++ (String.append "init/tables/" <$> table_files) ∧
     ∀ n, n ∈ all_statements → getQuery m n = Some (if bool_decide (n = initQuery)
       then String.append (content n) (concat_texts parts) else content n)) ∧
  (∃ m, ReadQueries order (Some (migration_dir content)) = Some m ∧
     ∀ n, n ∈ migration_statements → getQuery m n = Some (content n)).
Proof.
  intros Ho. split.
  - destruct (named_statements order _ _ _ all_statements Ho (indexer_scripts content)) as (m & parts & Hm & Hp & Hq).
    + by vm_compute.
    + apply (proj1 (bool_decide_eq_true (NoDup _))). by vm_compute.
    + exists m, parts. split; [done|]. split; [by rewrite Hp|done].
  - destruct (named_statements order _ _ _ migration_statements Ho (migration_scripts content)) as (m & parts & Hm & _ & Hq).
    + by vm_compute.
    + apply (proj1 (bool_decide_eq_true (NoDup _))). by vm_compute.
    + exists m. split; [done|]. intros n Hn. rewrite (Hq n Hn). rewrite bool_decide_eq_false_2; [done|].
      intros ->. revert Hn. apply (proj1 (bool_decide_eq_true (initQuery ∉ migration_statements))). by vm_compute.
Qed.

Lemma statements_are_found_witness :
  ∃ m, ReadQueries map_to_list (Some (indexer_dir id)) = Some m ∧ getQuery m "insertBlock.sql" = Some "insertBlock.sql"%string.
Proof.
  destruct (statements_are_found map_to_list id) as [(m & parts & Hm & _ & Hq) _]; [intros m; apply ranges_canonical|].
  exists m. split; [done|]. rewrite (Hq "insertBlock.sql"%string); [done|].
  apply (proj1 (bool_decide_eq_true ("insertBlock.sql"%string ∈ all_statements))). by vm_compute.
Defined.

(** ** The dictionary of words *)

(** Go: import/words/words.go Word *)
Record Word := mkWord { w_Name : string; w_Desc : string }.

(** Go: import/words/words.go LoadWords

    [words]: what the content of the file decodes to, if it does. *)
Definition LoadWords (stat_ok open_ok : bool) (words : option (list Word)) : option (list Word) :=
  if negb stat_ok then None else if negb open_ok then None else words.

(** What an attempt to prepare the database meets: whether each operation succeeds, and
    what is loaded of the file of words. *)
Record attempt := mkAttempt {
  at_ping : bool; at_begin : bool; at_init : bool; at_count : bool; at_words : option (list Word);
  at_insert : Z → bool; at_commit : bool
}.

(** Go: db/postgres_init.go initWords:84-92

    The loop: the words from the number [i] on are inserted with their numbers. *)
Fixpoint insert_words (insert_ok : Z → bool) (i : Z) (words : list Word) (table : list (Z * Word))
    : list (Z * Word) * bool :=
  match words with
  | [] => (table, true)
  | w :: words => if insert_ok i then insert_words insert_ok (i + 1) words (table ++ [(i, w)]) else (table, false)
  end.

(** Go: db/postgres_init.go initWords

    The dictionary, and whether there is no error. *)
Definition initWords (a : attempt) (table : list (Z * Word)) : list (Z * Word) * bool :=
  if negb (at_count a) then (table, false)
  else match at_words a with
       | None => (table, false)
       | Some importedWords =>
           if (length table =? length importedWords)%nat then (table, true)
           else if (length importedWords <? length table)%nat then (table, false)
           else insert_words (at_insert a) (Z.of_nat (length table)) (drop (length table) importedWords) table
       end.

(** Go: db/postgres_init.go postgresAccessor.init

    The transaction is rolled back unless it is committed.  [None]: a panic. *)
Definition init (queries : gmap string string) (a : attempt) (table : list (Z * Word))
    : option (list (Z * Word) * bool) :=
  if negb (at_ping a) then Some (table, false)
  else if negb (at_begin a) then Some (table, false)
  else
    _ ← getQuery queries initQuery;
    if negb (at_init a) then Some (table, false)
    else match initWords a table with
         | (_, false) => Some (table, false)
         | (table', true) => Some (if at_commit a then table' else table, at_commit a)
         end.

(** Go: db/postgres_init.go NewPostgresAccessor:37-44

    The attempts are made until one succeeds; [inl]: the program is still trying. *)
Fixpoint prepare (queries : gmap string string) (attempts : list attempt) (table : list (Z * Word))
    : option (list (Z * Word) + list (Z * Word)) :=
  match attempts with
  | [] => Some (inl table)
  | a :: attempts =>
      '(table, ok) ← init queries a table;
      if ok : bool then Some (inr table) else prepare queries attempts table
  end.

(** The words with their numbers. *)
Definition numbered (words : list Word) : list (Z * Word) := imap (λ i w, (Z.of_nat i, w)) words.

(** An attempt where everything succeeds. *)
Definition succeeds (a : attempt) : Prop :=
  at_ping a = true ∧ at_begin a = true ∧ at_init a = true ∧ at_count a = true ∧ is_Some (at_words a) ∧
  (∀ i, at_insert a i = true) ∧ at_commit a = true.

Lemma imap_take_drop words n :
  numbered words = numbered (take n words) ++ imap (λ i w, (Z.of_nat (n + i), w)) (drop n words) ∨ (length words < n)%nat.
Proof.
  destruct (decide (length words < n)%nat) as [|Hn]; [by right|left].
  unfold numbered. rewrite <- (take_drop n words) at 1. rewrite imap_app. f_equal.
  rewrite length_take_le by lia. done.
Qed.

Lemma numbered_from k (w : Word) words :
  imap (λ i w, (Z.of_nat (k + i), w)) (w :: words) = (Z.of_nat k, w) :: imap (λ i w, (Z.of_nat (S k + i), w)) words.
Proof.
  cbn. rewrite Nat.add_0_r. f_equal. apply imap_ext. intros i x _. cbn. do 2 f_equal. lia.
Qed.

Lemma insert_words_all insert_ok k words table :
  (∀ i, insert_ok i = true) →
  insert_words insert_ok (Z.of_nat k) words table = (table ++ imap (λ i w, (Z.of_nat (k + i), w)) words, true).
Proof.
  intros Hi. revert k table. induction words as [|w words IH]; intros k table; [by cbn; rewrite app_nil_r|].
  cbn [insert_words]. rewrite Hi. replace (Z.of_nat k + 1)%Z with (Z.of_nat (S k)) by lia.
  by rewrite IH, numbered_from, <- app_assoc.
Qed.

Lemma insert_words_done insert_ok k words table table' :
  insert_words insert_ok (Z.of_nat k) words table = (table', true) →
  table' = table ++ imap (λ i w, (Z.of_nat (k + i), w)) words.
Proof.
  revert k table. induction words as [|w words IH]; intros k table; [by intros [= <-]; cbn; rewrite app_nil_r|].
  cbn [insert_words]. destruct (insert_ok _); [|done]. replace (Z.of_nat k + 1)%Z with (Z.of_nat (S k)) by lia.
  intros ->%IH. by rewrite numbered_from, <- app_assoc.
Qed.

Lemma rest_of_words words n :
  (n ≤ length words)%nat → numbered (take n words) ++ imap (λ i w, (Z.of_nat (n + i), w)) (drop n words) = numbered words.
Proof. intros Hn. destruct (imap_take_drop words n) as [->|]; [done|lia]. Qed.

Lemma init_words queries a n words :
  is_Some (getQuery queries initQuery) → (n ≤ length words)%nat → (at_words a = Some words ∨ at_words a = None) →
  ∃ table ok, init queries a (numbered (take n words)) = Some (table, ok) ∧
    (if ok : bool then table = numbered words else table = numbered (take n words)) ∧ (succeeds a → ok = true).
Proof.
  intros [q Hq] Hn Hw. unfold init. rewrite Hq. cbn [mbind option_bind].
  assert (length (numbered (take n words)) = n) as Hlen by (unfold numbered; rewrite length_imap, length_take_le by lia; done).
  destruct (at_ping a) eqn:H1; [|by eexists _, _; repeat split; intros (? & _); congruence].
  destruct (at_begin a) eqn:H2; [|by eexists _, _; repeat split; intros (_ & ? & _); congruence].
  destruct (at_init a) eqn:H3; [|by eexists _, _; repeat split; intros (_ & _ & ? & _); congruence].
  cbn [negb]. unfold initWords. rewrite Hlen.
  destruct (at_count a) eqn:H4; [|by eexists _, _; repeat split; intros (_ & _ & _ & ? & _); congruence]. cbn [negb].
  destruct Hw as [Hw|Hw]; rewrite Hw;
    [|by eexists _, _; repeat split; intros (_ & _ & _ & _ & [? ?] & _); congruence].
  destruct (Nat.eqb_spec n (length words)) as [Heq|Hne].
  - rewrite take_ge by lia. eexists _, _. split; [done|]. split; [by destruct (at_commit a)|]. by intros (_ & _ & _ & _ & _ & _ & ?).
  - rewrite (proj2 (Nat.ltb_ge _ _)) by lia. destruct (insert_words _ _ _ _) as [table' [|]] eqn:Hi.
    + apply insert_words_done in Hi as ->. rewrite rest_of_words by done. eexists _, _. split; [done|].
      split; [by destruct (at_commit a)|]. by intros (_ & _ & _ & _ & _ & _ & ?).
    + eexists _, _. split; [done|]. split; [done|]. intros (_ & _ & _ & _ & _ & Hok & _).
      rewrite insert_words_all in Hi by done. by injection Hi.
Qed.

(** The dictionary is filled: from a dictionary that has the first words of the file
    with their numbers, however the attempts to prepare the database fail, it has all of
    them as soon as an attempt succeeds, which ends the attempts, and is as it was until
    then. *)
Theorem dictionary_is_filled queries attempts n words :
  is_Some (getQuery queries initQuery) → (n ≤ length words)%nat →
  Forall (λ a, at_words a = Some words ∨ at_words a = None) attempts →
  (prepare queries attempts (numbered (take n words)) = Some (inr (numbered words)) ∨
   prepare queries attempts (numbered (take n words)) = Some (inl (numbered (take n words)))) ∧
  (Exists succeeds attempts → prepare queries attempts (numbered (take n words)) = Some (inr (numbered words))).
Proof.
  intros Hq Hn. induction 1 as [|a attempts Ha _ IH]; [split; [by right|by intros ?%Exists_nil]|].
  cbn [prepare]. destruct (init_words queries a n words Hq Hn Ha) as (table & ok & -> & Ht & Hok).
  cbn [mbind option_bind]. destruct ok; subst table; [by split; [left|]|].
  destruct IH as [IH1 IH2]. split; [done|]. intros [Hs|Hs]%Exists_cons; [|by apply IH2]. by apply Hok in Hs.
Qed.

Definition fine (words : list Word) : attempt := mkAttempt true true true true (Some words) (λ _, true) true.
Definition sample_words : list Word := [mkWord "one" "1"; mkWord "two" "2"; mkWord "three" "3"]%string.

Definition sample_attempts : list attempt :=
  [mkAttempt false true true true None (λ _, true) true;
   mkAttempt true true true true (Some sample_words) (λ i, (i <? 2)%Z) true; fine sample_words].

Lemma dictionary_is_filled_witness :
  prepare {[initQuery := EmptyString]} sample_attempts (numbered (take 1 sample_words)) = Some (inr (numbered sample_words)).
Proof.
  destruct (dictionary_is_filled {[initQuery := EmptyString]} sample_attempts 1 sample_words) as [_ Hfilled].
  - by eexists.
  - cbn. lia.
  - constructor; [by right|]. constructor; [by left|]. constructor; [by left|constructor].
  - apply Hfilled, Exists_cons_tl, Exists_cons_tl, Exists_cons_hd. repeat split. by eexists.
Defined.

(** ** Rows *)

(** What the database answers to a query for rows: an error, or rows, each of which may
    fail to be read, after which the iteration may end with an error. *)
Inductive answer (A : Type) := QueryError | Rows (l : list (option A)) (end_error : bool).
Arguments QueryError {A}.
Arguments Rows {A} l end_error.

(** The loop of every query for rows: [rows.Next()] ends it at the last row and at an error
    of the iteration, which [rows.Err()] would tell but nobody asks for. *)
Definition read_rows {A} (q : answer A) : option (list A) :=
  match q with QueryError => None | Rows l _ => mapM id l end.
(** A query for one row. *)
Definition read_row {A} (q : option A) : option A := q.

Section rows.
Context `{NodeApi} (queries : gmap string string).
(** The outer [None] is a panic, as there is no such statement; the inner one an error. *)

(** Go: db/postgres_balances.go Balances *)
Definition Balances (query : string → answer (string * Decimal)) : option (list (string * Decimal)) :=
  read_rows (query "select a.address, b.balance from balances b join addresses a on a.id = b.address_id"%string).

(** Go: db/postgres_balances.go LatestBalanceUpdates *)
Definition LatestBalanceUpdates (query : string → answer (string * Decimal)) : option (list (string * Decimal)) :=
  read_rows (query "select distinct on (a.address) a.address, bu.balance_new from balance_updates bu join addresses a on a.id = bu.address_id order by a.address, bu.id desc"%string).

(** Go: db/postgres_balances.go cnt *)
Definition cnt (q : option Z) : option Z := res ← read_row q; Some res.

(** Go: db/postgres_balances.go BurntCoinsInconsistencyCnt:86-91

    The sum of two counts, of 64 bits. *)
Definition BurntCoinsInconsistencyCnt (q1 q2 : option Z) : option Z :=
  res1 ← cnt q1; res2 ← cnt q2; Some (swrap 64 (res1 + res2)).

(** Go: db/postgres.go GetLastHeight

    The height is signed in the database. *)
Definition GetLastHeight (q : string → option Z) : option (option Z) :=
  sql ← getQuery queries "maxHeight.sql"; Some (u64 <$> read_row (q sql)).

(** Go: db/postgres_upgrades_history.go GetUpgradeVotingShortHistoryInfo *)
Definition GetUpgradeVotingShortHistoryInfo (q : string → Z → option (Z * Z * Z)) (upgrade : Z)
    : option (option (Z * Z * Z)) :=
  sql ← getQuery queries "getUpgradeVotingShortHistoryInfo.sql"; Some (read_row (q sql upgrade)).

(** Go: db/postgres_upgrades_history.go GetUpgradeVotingHistory

    The heights and the votes. *)
Definition GetUpgradeVotingHistory (q : string → Z → answer (Z * Z)) (upgrade : Z) : option (option (list (Z * Z))) :=
  sql ← getQuery queries "getUpgradeVotingHistory.sql"; Some (read_rows (q sql upgrade)).

(** Go: db/postgres_actual_voting_loader.go ActualOracleVotings *)
Definition ActualOracleVotings (q : string → answer string) : option (option (list Address)) :=
  sql ← getQuery queries selectActualOracleVotingsQuery;
  Some match read_rows (q sql) with Some l => Some (HexToAddress <$> l) | None => None end.

(** Go: db/postgres_flip.go GetEpochFlipsWithoutSize *)
Definition GetEpochFlipsWithoutSize (q : string → Z → Z → answer string) (epoch limit : Z) : option (option (list string)) :=
  sql ← getQuery queries "selectEpochFlipsWithoutSize.sql"; Some (read_rows (q sql epoch limit)).

(** Go: db/postgres_flip.go GetFlipsToLoadContent

    The cid, the key and the attempts of each flip; the time is cut to 64 bits. *)
Definition GetFlipsToLoadContent (q : string → Z → Z → answer (string * string * Z)) (timestamp limit : Z)
    : option (option (list (string * string * Z))) :=
  sql ← getQuery queries "selectFlipsToLoadContent.sql"; Some (read_rows (q sql (swrap 64 timestamp) limit)).

(** Go: migration/runtime/db/db.go GetMemPoolFlipKeys

    The addresses and the keys. *)
Definition GetMemPoolFlipKeys (q : string → Z → answer (string * string)) (epoch : Z)
    : option (option (list (string * string))) :=
  sql ← getQuery queries "memPoolFlipKeys.sql"; Some (read_rows (q sql epoch)).

(** Go: migration/runtime/db/db.go GetProposerVrfScore *)
Definition GetProposerVrfScore (q : string → Z → option Float64) (height : Z) : option (option Float64) :=
  sql ← getQuery queries "proposerVrfScore.sql"; Some (read_row (q sql height)).
End rows.

(** Go: migration/runtime/storage.go SecondaryStorage

    With whether its database is still open. *)
Record SecondaryStorage := mkSecondaryStorage { ss_open : bool; lastBlockHeight : Z }.

(** Go: migration/runtime/storage.go NewSecondaryStorage

    [None]: a panic, on an error too. *)
Definition NewSecondaryStorage (height : option (option Z)) : option SecondaryStorage :=
  height ← height; height ← height; Some (mkSecondaryStorage true height).

(** Go: migration/runtime/storage.go SecondaryStorage.Destroy

    The number of times the database is closed, and the storage. *)
Definition Destroy (s : SecondaryStorage) : nat * SecondaryStorage :=
  if ss_open s then (1, s <| ss_open := false |>) else (0, s).

(** All rows are read, in order, when each can be; an error that ends the iteration early
    is not noticed, and its rows pass for all there are. *)
Lemma rows_are_all {A} (l : list A) e : read_rows (Rows (Some <$> l) e) = Some l.
Proof. cbn. induction l as [|x l IH]; [done|]. cbn. by rewrite IH. Qed.
Lemma early_end_is_missed {A} (l k : list A) :
  read_rows (Rows (Some <$> l) true) = read_rows (Rows (Some <$> l) false) ∧
  (k ≠ [] → read_rows (Rows (Some <$> l) true) ≠ read_rows (Rows (Some <$> (l ++ k)) false)).
Proof.
  rewrite !rows_are_all. split; [done|]. intros Hk [= Heq]. apply Hk.
  apply (app_inv_head l). by rewrite app_nil_r.
Qed.
