(* ===== verification/EpochTree.v ===== *)
(** * Snapshots of the epochs

    indexer/tree.go writes a snapshot of the state at the beginning of each epoch to a file
    named after the epoch, and removes what is there when a validation is finished, as the
    chain may have been reorganised; core/holder/state (Snapshots) reads the files.  The
    two are put together here over a chain that grows and is cut. *)

From Stdlib Require Import Ascii.
From S2P Require Import Prelude Node Snapshots.

(** A block of the chain: its number, and whether a validation finishes with it. *)
Record ChainBlock := mkChainBlock { cb_id : Z; cb_ValidationFinished : bool }.

Abbreviation chain := (list ChainBlock).

(** The epoch of the state after a chain, which every validation increases. *)
Definition Epoch (c : chain) : nat := length (filter (λ b, cb_ValidationFinished b) c).

(** The chain up to the block that began an epoch. *)
Fixpoint start (e : nat) (c : chain) : chain :=
  match e, c with
  | O, _ | _, [] => []
  | S e', b :: c => b :: start (if cb_ValidationFinished b then e' else e) c
  end.
(** The height of the block that began the epoch of the state. *)
Definition EpochBlock (c : chain) : nat := length (start (Epoch c) c).

(** What the writing of a snapshot comes to: it may fail, or the program may end, with a
    part of the archive in the file. *)
Inductive writing := Written | WriteFails (part : list tar_item) | WriteKilled (part : list tar_item).

(** What the system answers, as far as it is asked: [os.Stat] makes no error but that
    there is no file. *)
Record answers := mkAnswers { stat_ok : bool; mkdir_ok : bool; create_ok : bool; write_ends : writing; remove_ok : bool }.

Inductive result := Returned (err : option string) | Killed.

(** Go: indexer/tree.go getEpochTreeSnapshotFilePath

    In the directory of the snapshots. *)
Definition getEpochTreeSnapshotFilePath (epoch : Z) : string := String.append (FormatInt epoch) ".tar".

Section tree.
(** The archive of the state after a chain. *)
Context (archive : chain → list tar_item).
Abbreviation files := (gmap string (list tar_item)).

(** Go: indexer/tree.go removeEpochTreeSnapshot

    The boolean is false on an error. *)
Definition removeEpochTreeSnapshot (o : answers) (c : chain) (fs : files) : files * bool :=
  let name := getEpochTreeSnapshotFilePath (Z.of_nat (Epoch c)) in
  match fs !! name with
  | None => (fs, stat_ok o)
  | Some _ => if remove_ok o then (delete name fs, true) else (fs, false)
  end.

(** Go: indexer/tree.go makeEpochTreeSnapshot

    A file that is there is left as it is. *)
Definition makeEpochTreeSnapshot (o : answers) (c : chain) (fs : files) : files * result :=
  if (Epoch c =? 0)%nat then (fs, Returned None)
  else
    let name := getEpochTreeSnapshotFilePath (Z.of_nat (Epoch c)) in
    if negb (stat_ok o) then (fs, Returned (Some "failed to check snapshot file"%string))
    else if bool_decide (is_Some (fs !! name)) then (fs, Returned None)
    else if negb (mkdir_ok o) then (fs, Returned (Some "failed to create tree dump dir"%string))
    else if negb (create_ok o) then (fs, Returned (Some "failed to create snapshot file"%string))
    else match write_ends o with
         | Written => (<[name := archive (take (EpochBlock c) c)]> fs, Returned None)
         | WriteFails part =>
             ((removeEpochTreeSnapshot o c (<[name := part]> fs)).1, Returned (Some "failed to write snapshot"%string))
         | WriteKilled part => (<[name := part]> fs, Killed)
         end.

(** Go: indexer/indexer.go indexBlock:261-293

    What the indexing of the last block of a chain does with the files: the answers are
    those before the block is saved and those after. *)
Definition index_files (o1 o2 : answers) (c : chain) (b : ChainBlock) (fs : files) : files * result :=
  let fs := if cb_ValidationFinished b then (removeEpochTreeSnapshot o1 c fs).1 else fs in
  makeEpochTreeSnapshot o2 c fs.

Context `{SnapshotApi}.

(** What happens: a block is added to the chain and indexed, the chain is cut to a number
    of blocks, a proof is asked for, the program is started again. *)
Inductive tree_event :=
  | TBlock (b : ChainBlock) (o1 o2 : answers)
  | TReset (n : nat)
  | TRequest (epoch : Z) (address : Address)
  | TRestart.

Record tree_state := mkTreeState { ts_chain : chain; ts_files : files; ts_holder : holderImpl }.

(** The files as the holder opens them. *)
Definition open_snapshot (fs : files) (epoch : Z) : option (list tar_item) := fs !! getEpochTreeSnapshotFilePath epoch.

Definition tree_step (s : tree_state) (e : tree_event) : tree_state :=
  match e with
  | TBlock b o1 o2 =>
      let c := ts_chain s ++ [b] in
      match index_files o1 o2 c b (ts_files s) with
      | (fs, Returned _) => mkTreeState c fs (ts_holder s)
      | (fs, Killed) => mkTreeState c fs NewHolder
      end
  | TReset n => s <| ts_chain ::= take n |>
  | TRequest epoch address => s <| ts_holder := (IdentityWithProof (open_snapshot (ts_files s)) epoch address (ts_holder s)).1 |>
  | TRestart => s <| ts_holder := NewHolder |>
  end.
Definition tree_run (l : list tree_event) : tree_state := foldl tree_step (mkTreeState [] ∅ NewHolder) l.

(** A file that is to be removed is, and the program does not end while it writes one. *)
Definition event_ok (e : tree_event) : Prop :=
  match e with
  | TBlock b o1 o2 =>
      (cb_ValidationFinished b = true → remove_ok o1 = true) ∧
      match write_ends o2 with Written => True | WriteFails _ => remove_ok o2 = true | WriteKilled _ => False end
  | _ => True
  end.

Lemma Epoch_app c c' : Epoch (c ++ c') = (Epoch c + Epoch c')%nat.
Proof. unfold Epoch. by rewrite list.filter_app, length_app. Qed.
Lemma Epoch_cons b c : Epoch (b :: c) = ((if cb_ValidationFinished b then 1 else 0) + Epoch c)%nat.
Proof.
  unfold Epoch. cbn. destruct (decide _) as [Hb|Hb], (cb_ValidationFinished b); try done; by destruct Hb.
Qed.

Lemma start_0 c : start 0 c = [].
Proof. by destruct c. Qed.
(** The beginning of an epoch does not depend on what follows in the chain. *)
Lemma start_app e c c' : (e ≤ Epoch c)%nat → start e (c ++ c') = start e c.
Proof.
  revert e. induction c as [|b c IH]; intros [|e] He; rewrite ?start_0; [done|cbn in He; lia|done|].
  rewrite Epoch_cons in He. cbn [app start]. f_equal. destruct (cb_ValidationFinished b); apply IH; cbn in He; lia.
Qed.
Lemma start_prefix e c : take (length (start e c)) c = start e c.
Proof.
  revert e. induction c as [|b c IH]; intros [|e]; rewrite ?start_0; try done. cbn. by rewrite IH.
Qed.
Lemma path_inj e e' : getEpochTreeSnapshotFilePath e = getEpochTreeSnapshotFilePath e' → e = e'.
Proof.
  unfold getEpochTreeSnapshotFilePath. intros Heq. apply FormatInt_inj. revert Heq.
  generalize (FormatInt e) as s, (FormatInt e') as s'.
  assert (∀ s s', String.append s ".tar" = String.append s' ".tar" → s = s'); [|done].
  intros s. induction s as [|a s IH]; intros [|a' s'] Heq; rewrite ?append_cons, ?append_nil in Heq; [done|..].
  1-2: apply (f_equal String.length) in Heq; cbn in Heq; rewrite length_append_text in Heq; cbn in Heq; lia.
  injection Heq as -> Heq. f_equal. by apply IH.
Qed.

(** The files of the epochs of a chain hold the states that began them, when they are there. *)
Definition follows (c : chain) (fs : files) : Prop :=
  ∀ e f, (1 ≤ e ≤ Epoch c)%nat → fs !! getEpochTreeSnapshotFilePath (Z.of_nat e) = Some f → f = archive (start e c).

(** Those of the epochs before the last one at least. *)
Definition follows_below (c : chain) (fs : files) : Prop :=
  ∀ e f, (1 ≤ e < Epoch c)%nat → fs !! getEpochTreeSnapshotFilePath (Z.of_nat e) = Some f → f = archive (start e c).

Lemma file_epoch_ne e e' : e ≠ e' → getEpochTreeSnapshotFilePath (Z.of_nat e) ≠ getEpochTreeSnapshotFilePath (Z.of_nat e').
Proof. intros Hne Heq%path_inj. lia. Qed.

Lemma follows_at c fs :
  follows_below c fs → fs !! getEpochTreeSnapshotFilePath (Z.of_nat (Epoch c)) = None → follows c fs.
Proof.
  intros Hfs Hnone e f He Hf. destruct (decide (e = Epoch c)) as [->|]; [congruence|]. apply Hfs; [lia|done].
Qed.

Lemma follows_take n c fs : follows c fs → follows (take n c) fs.
Proof.
  intros Hfs e f He Hf. rewrite <- (start_app e (take n c) (drop n c)), take_drop by lia.
  apply Hfs; [|done]. rewrite <- (take_drop n c), Epoch_app. lia.
Qed.

Lemma remove_other o c fs e :
  e ≠ Epoch c →
  (removeEpochTreeSnapshot o c fs).1 !! getEpochTreeSnapshotFilePath (Z.of_nat e) = fs !! getEpochTreeSnapshotFilePath (Z.of_nat e).
Proof.
  intros He. unfold removeEpochTreeSnapshot. destruct (fs !! getEpochTreeSnapshotFilePath (Z.of_nat (Epoch c))); [|done].
  destruct (remove_ok o); [|done]. cbn. rewrite lookup_delete_ne; [done|]. by apply file_epoch_ne.
Qed.
Lemma remove_this o c fs :
  remove_ok o = true → (removeEpochTreeSnapshot o c fs).1 !! getEpochTreeSnapshotFilePath (Z.of_nat (Epoch c)) = None.
Proof.
  intros Ho. unfold removeEpochTreeSnapshot. destruct (fs !! _) eqn:Hf; [|done]. rewrite Ho. cbn. apply lookup_delete_eq.
Qed.

(** The snapshot that is written is that of the state that began the epoch. *)
Lemma make_follows o c fs :
  follows c fs → match write_ends o with Written => True | WriteFails _ => remove_ok o = true | WriteKilled _ => False end →
  follows c (makeEpochTreeSnapshot o c fs).1.
Proof.
  intros Hfs Ho. unfold makeEpochTreeSnapshot. destruct (Epoch c =? 0)%nat; [done|]. destruct (negb (stat_ok o)); [done|].
  case_bool_decide; [done|]. destruct (negb (mkdir_ok o)); [done|]. destruct (negb (create_ok o)); [done|].
  destruct (write_ends o) as [|part|part]; [| |done]; cbn [fst].
  - intros e f He. destruct (decide (e = Epoch c)) as [->|Hne].
    + rewrite lookup_insert_eq. intros [= <-]. f_equal. apply start_prefix.
    + rewrite lookup_insert_ne by by apply file_epoch_ne. by apply Hfs.
  - apply follows_at; [|by apply remove_this]. intros e f He. rewrite remove_other by lia.
    rewrite lookup_insert_ne by (apply file_epoch_ne; lia). apply Hfs. lia.
Qed.

Lemma index_follows o1 o2 c b fs :
  follows c fs → event_ok (TBlock b o1 o2) → follows (c ++ [b]) (index_files o1 o2 (c ++ [b]) b fs).1.
Proof.
  intros Hfs [Hr Hw]. apply make_follows; [|done].
  assert (Hle : ∀ e f, (1 ≤ e ≤ Epoch c)%nat → fs !! getEpochTreeSnapshotFilePath (Z.of_nat e) = Some f → f = archive (start e (c ++ [b]))).
  { intros e f He Hf. rewrite start_app by lia. by apply Hfs. }
  destruct (cb_ValidationFinished b) eqn:Hb.
  - apply follows_at; [|apply remove_this; by apply Hr]. intros e f He. rewrite remove_other by lia.
    rewrite Epoch_app, Epoch_cons, Hb in He. apply Hle. cbn in He. lia.
  - intros e f He. apply Hle. rewrite Epoch_app, Epoch_cons, Hb in He. cbn in He. lia.
Qed.

Lemma run_follows l : Forall event_ok l → follows (ts_chain (tree_run l)) (ts_files (tree_run l)).
Proof.
  unfold tree_run. induction l as [|ev l IH] using rev_ind; [intros _ e f; cbn; lia|].
  intros [Hl Hev]%list.Forall_app. apply list.Forall_cons in Hev as [Hev _]. rewrite foldl_app. cbn [foldl]. specialize (IH Hl).
  destruct (foldl _ _ l) as [c fs h]. cbn [ts_chain ts_files] in IH. destruct ev as [b o1 o2|n|e a|]; cbn.
  - pose proof (index_follows o1 o2 c b fs IH Hev). by destruct (index_files _ _ _ _ _) as [fs' [|]].
  - by apply follows_take.
  - done.
  - done.
Qed.

(** With no error the snapshot of the epoch is there. *)
Definition all_fine (o : answers) : Prop := stat_ok o ∧ mkdir_ok o ∧ create_ok o ∧ write_ends o = Written.

Lemma make_is_there o c fs :
  all_fine o → (1 ≤ Epoch c)%nat →
  is_Some ((makeEpochTreeSnapshot o c fs).1 !! getEpochTreeSnapshotFilePath (Z.of_nat (Epoch c))).
Proof.
  intros (Hs & Hm & Hc & Hw) He. unfold makeEpochTreeSnapshot. rewrite (proj2 (Nat.eqb_neq _ _)) by lia.
  destruct (stat_ok o), (mkdir_ok o), (create_ok o); try done. cbn. case_bool_decide; [done|]. rewrite Hw. cbn.
  rewrite lookup_insert_eq. done.
Qed.

(** [C25]  Over any events - blocks that are added to the chain, cuts of it, requests, new
    starts of the program, and files that cannot be looked for, created or written - among
    which a file that is to be removed always is, and no write is interrupted by the end of
    the program ([interrupted_snapshot_stays] otherwise): the file of an epoch of the chain
    is the archive of the state which began that epoch on this chain, even when an abandoned
    chain began it with another block; a block that is indexed with no error leaves the file
    of the epoch there, whatever else failed before; and an epoch which the holder has no
    state of is answered from that archive. *)
Theorem snapshots_follow_the_chain l :
  Forall event_ok l →
  let s := tree_run l in
  let e_path e := getEpochTreeSnapshotFilePath (Z.of_nat e) in
  (∀ e f, (1 ≤ e ≤ Epoch (ts_chain s))%nat → ts_files s !! e_path e = Some f → f = archive (start e (ts_chain s))) ∧
  (∀ b o1 o2, event_ok (TBlock b o1 o2) → all_fine o2 →
    let s' := tree_step s (TBlock b o1 o2) in
    (1 ≤ Epoch (ts_chain s'))%nat →
    ts_files s' !! e_path (Epoch (ts_chain s')) = Some (archive (start (Epoch (ts_chain s')) (ts_chain s')))) ∧
  (∀ e address, (1 ≤ e ≤ Epoch (ts_chain s))%nat →
    is_Some (ts_files s !! e_path e) → statesByVersion (ts_holder s) !! Z.of_nat e = None →
    (IdentityWithProof (open_snapshot (ts_files s)) (Z.of_nat e) address (ts_holder s)).2
    = (IdentityWithProof (λ _, Some (archive (start e (ts_chain s)))) (Z.of_nat e) address NewHolder).2).
Proof.
  intros Hl s e_path. pose proof (run_follows l Hl) as Hfs. fold s in Hfs. split_and!; [exact Hfs|..].
  - intros b o1 o2 Hev Hfine s' He.
    assert (Hs' : follows (ts_chain s') (ts_files s')).
    { replace s' with (tree_run (l ++ [TBlock b o1 o2])) by (unfold tree_run; by rewrite foldl_app).
      apply run_follows, list.Forall_app. split; [done|]. by apply Forall_cons; [|apply Forall_nil]. }
    assert (is_Some (ts_files s' !! e_path (Epoch (ts_chain s')))) as [f Hf]; [|rewrite Hf; f_equal; by apply Hs'; [lia|]].
    revert He. subst s'. cbn. unfold index_files.
    set (fs := if cb_ValidationFinished b then _ else _).
    pose proof (make_is_there o2 (ts_chain s ++ [b]) fs Hfine) as Hthere.
    by destruct (makeEpochTreeSnapshot o2 (ts_chain s ++ [b]) fs) as [fs' [|]].
  - intros e address He [f Hf] Hnone.
    rewrite (Hfs e f He Hf) in Hf. unfold IdentityWithProof, getState, open_snapshot.
    rewrite Hnone. unfold e_path in Hf. rewrite Hf. cbn [statesByVersion NewHolder]. rewrite lookup_empty.
    destruct (negb _); [done|]. destruct (readTreeFrom _ _ _) as [pdb [err|]]; [done|].
    destruct (GetIdentityWithProof _ _) as [[|]|]; done.
Qed.

(** ** What was begun *)

Definition quiet (e : tree_event) : Prop :=
  match e with TBlock b _ _ => cb_ValidationFinished b = false | TReset _ => False | _ => True end.

(** A file of the epoch that is there is not written again before a validation is finished. *)
Lemma file_stays l s f :
  Forall quiet l → (1 ≤ Epoch (ts_chain s))%nat →
  ts_files s !! getEpochTreeSnapshotFilePath (Z.of_nat (Epoch (ts_chain s))) = Some f →
  let s' := foldl tree_step s l in Epoch (ts_chain s') = Epoch (ts_chain s) ∧ ts_files s' = ts_files s.
Proof.
  intros Hl. revert s. induction Hl as [|ev l Hev Hl IH]; intros s He Hf; [done|]. cbn [foldl].
  assert (Hstep : Epoch (ts_chain (tree_step s ev)) = Epoch (ts_chain s) ∧ ts_files (tree_step s ev) = ts_files s).
  { destruct ev as [b o1 o2| | |]; [|done..]. cbn in Hev. cbn. unfold index_files. rewrite Hev.
    assert (Hsame : Epoch (ts_chain s ++ [b]) = Epoch (ts_chain s)) by (rewrite Epoch_app, Epoch_cons, Hev; cbn; lia).
    unfold makeEpochTreeSnapshot. rewrite Hsame, (proj2 (Nat.eqb_neq _ _)) by lia.
    destruct (negb (stat_ok o2)); [by rewrite <- Hsame|]. rewrite bool_decide_true by by rewrite Hf. by rewrite <- Hsame. }
  destruct Hstep as [H1 H2], (IH (tree_step s ev)) as [H3 H4]; rewrite ?H1, ?H2; [done|done|by rewrite H3, H4].
Qed.

(** When the program ends while it writes a snapshot, the part that is written is taken for
    the snapshot until the validation of the epoch. *)
Lemma interrupted_snapshot_stays s b o1 o2 part l :
  stat_ok o2 → mkdir_ok o2 → create_ok o2 → write_ends o2 = WriteKilled part →
  cb_ValidationFinished b = false → (1 ≤ Epoch (ts_chain s))%nat →
  ts_files s !! getEpochTreeSnapshotFilePath (Z.of_nat (Epoch (ts_chain s))) = None →
  Forall quiet l →
  ts_files (foldl tree_step s (TBlock b o1 o2 :: l)) !! getEpochTreeSnapshotFilePath (Z.of_nat (Epoch (ts_chain s))) = Some part.
Proof.
  intros Hs Hm Hc Hw Hb He Hf Hl. cbn [foldl].
  assert (Hsame : Epoch (ts_chain s ++ [b]) = Epoch (ts_chain s)) by (rewrite Epoch_app, Epoch_cons, Hb; cbn; lia).
  assert (Hstep : tree_step s (TBlock b o1 o2)
    = mkTreeState (ts_chain s ++ [b]) (<[getEpochTreeSnapshotFilePath (Z.of_nat (Epoch (ts_chain s))) := part]> (ts_files s)) NewHolder).
  { cbn. unfold index_files, makeEpochTreeSnapshot. rewrite Hb, Hsame, (proj2 (Nat.eqb_neq _ _)) by lia.
    destruct (stat_ok o2), (mkdir_ok o2), (create_ok o2); try done. cbn.
    rewrite bool_decide_false by (rewrite Hf; by intros [? ?]). by rewrite Hw. }
  rewrite Hstep.
  destruct (file_stays l (mkTreeState (ts_chain s ++ [b])
      (<[getEpochTreeSnapshotFilePath (Z.of_nat (Epoch (ts_chain s))) := part]> (ts_files s)) NewHolder) part) as [_ ->];
    cbn [ts_chain ts_files]; rewrite ?Hsame; [done|done|by rewrite lookup_insert_eq|by rewrite lookup_insert_eq].
Qed.
End tree.

(** ** A chain that is cut past a validation *)

(** An archive of one node, which is named after the block that began the epoch. *)
Definition sample_archive (c : chain) : list tar_item :=
  [TarEntry "nodes/0" TypeReg 1 (Some [from_option cb_id 0%Z (list.last c)])].
Definition fine : answers := mkAnswers true true true Written true.
Definition cut_chain : list tree_event :=
  [TBlock (mkChainBlock 1 true) fine fine; TReset 0; TBlock (mkChainBlock 7 true) fine (mkAnswers true true true (WriteFails []) true);
   TBlock (mkChainBlock 8 false) fine fine; TBlock (mkChainBlock 9 false) fine fine].

Lemma snapshots_follow_the_chain_witness :
  ts_files (tree_run sample_archive cut_chain) !! "1.tar"%string = Some (sample_archive [mkChainBlock 7 true]) ∧
  (IdentityWithProof (open_snapshot (ts_files (tree_run sample_archive cut_chain))) 1 (mkAddress 7) NewHolder).2 = inl (Some [7]%Z).
Proof.
  assert (Hok : Forall event_ok cut_chain) by (repeat (apply Forall_cons; [done|]); by apply Forall_nil).
  destruct (snapshots_follow_the_chain sample_archive cut_chain Hok) as (_ & Hthere & Hanswer).
  destruct (snapshots_follow_the_chain sample_archive (take 4 cut_chain)) as (_ & Hlast & _).
  { by apply (list.Forall_take _ 4). }
  split.
  - refine (Hlast (mkChainBlock 9 false) fine fine _ _ _); [done|done|vm_compute; lia].
  - refine (Hanswer 1%nat (mkAddress 7) _ _ _); [vm_compute; lia|vm_compute; by eexists|vm_compute; reflexivity].
Defined.

(** The holder keeps the state it has read: after the chain is cut past a validation and
    goes on with another block, the epoch is answered from the state of the abandoned one. *)
Lemma kept_state_outlives_its_chain :
  let s := tree_run sample_archive
    [TBlock (mkChainBlock 1 true) fine fine; TRequest 1 (mkAddress 1); TReset 0; TBlock (mkChainBlock 7 true) fine fine] in
  ts_files s !! "1.tar"%string = Some (sample_archive [mkChainBlock 7 true]) ∧
  (IdentityWithProof (open_snapshot (ts_files s)) 1 (mkAddress 1) (ts_holder s)).2 = inl (Some [1]%Z) ∧
  (IdentityWithProof (open_snapshot (ts_files s)) 1 (mkAddress 1) NewHolder).2 = inr "proof"%string.
Proof. vm_compute. done. Qed.
