(* ===== verification/Govulncheck.v ===== *)
(** * The gate on known vulnerabilities

    scripts/govulncheck_filter.go reads what govulncheck found in the program and ends with
    an error unless the policy of the build allows every finding.  What the JSON decoder
    gives is taken as it comes: a message or an error at a time. *)

From Stdlib Require Import Ascii.
From stdpp Require Import sorting.
From S2P Require Import Prelude Texts.

(** ** The data *)

(** Go: scripts/govulncheck_filter.go govulncheckFrame *)
Record govulncheckFrame := mkFrame { fr_Module : string; fr_Package : string; fr_Function : string }.
(** Go: scripts/govulncheck_filter.go govulncheckFinding *)
Record govulncheckFinding := mkFinding { OSV : string; Trace : list govulncheckFrame }.
(** Go: scripts/govulncheck_filter.go govulncheckMessage *)
Record govulncheckMessage := mkMessage { Finding : option govulncheckFinding }.

(** What [decoder.Decode] gives, up to the end of the input. *)
Inductive decoded := DMessage (msg : govulncheckMessage) | DError (err : string).

(** Go: scripts/govulncheck_filter.go allowPolicy

    The modules of the map are those with true. *)
Record allowPolicy := mkPolicy { allowAll : bool; modules : gset string }.
(** Go: scripts/govulncheck_filter.go findingKey *)
Record findingKey := mkKey { osv : string; module : string }.

#[export] Instance findingKey_eq : EqDecision findingKey.
Proof. solve_decision. Defined.
#[export] Instance findingKey_countable : Countable findingKey.
Proof. apply (inj_countable' (λ k, (osv k, module k)) (λ p, mkKey p.1 p.2)). by intros []. Defined.

Abbreviation counts := (gmap findingKey Z).

(** ** The policy *)

(** [strings.Cut(s, sep)] for one character *)
Fixpoint Cut (sep : ascii) (s : string) : string * string * bool :=
  match s with
  | EmptyString => (EmptyString, EmptyString, false)
  | String c s =>
      if Ascii.eqb c sep then (EmptyString, s, true)
      else match Cut sep s with (before, after, found) => (String c before, after, found) end
  end.

(** Go: scripts/govulncheck_filter.go parseAllowList:126-146 *)
Definition add_entry (allowed : gmap string allowPolicy) (entry : string) : gmap string allowPolicy :=
  let entry := TrimSpace entry in
  if bool_decide (entry = EmptyString) then allowed
  else let '(id, module, hasModule) := Cut "@" entry in
       let id := TrimSpace id in
       let module := TrimSpace module in
       if bool_decide (id = EmptyString) then allowed
       else let policy := default (mkPolicy false ∅) (allowed !! id) in
            let policy := if negb hasModule || bool_decide (module = EmptyString) then policy <| allowAll := true |>
                          else policy <| modules ::= λ m, {[module]} ∪ m |> in
            <[id := policy]> allowed.

(** Go: scripts/govulncheck_filter.go parseAllowList *)
Definition parseAllowList (raw : string) : gmap string allowPolicy := foldl add_entry ∅ (Split "," raw).

(** Go: scripts/govulncheck_filter.go allowPolicy.allowsModule *)
Definition allowsModule (p : allowPolicy) (module : string) : bool :=
  if allowAll p then true else bool_decide (module ∈ modules p).

(** [allowed[key.osv].allowsModule(key.module)] *)
Definition allows (allowed : gmap string allowPolicy) (key : findingKey) : bool :=
  allowsModule (default (mkPolicy false ∅) (allowed !! osv key)) (module key).

(** ** The findings *)

(** The first text of a trace that is not empty. *)
Definition first_text (get : govulncheckFrame → string) (trace : list govulncheckFrame) : option string :=
  get ∘ snd <$> list_find (λ frame, get frame ≠ EmptyString) trace.

(** Go: scripts/govulncheck_filter.go findingModule *)
Definition findingModule (finding : govulncheckFinding) : string :=
  match first_text fr_Module (Trace finding), first_text fr_Package (Trace finding) with
  | Some m, _ => m
  | None, Some p => p
  | None, None => EmptyString
  end.

(** Go: scripts/govulncheck_filter.go findingIsReachable *)
Definition findingIsReachable (finding : govulncheckFinding) : bool :=
  existsb (λ frame, negb (bool_decide (fr_Function frame = EmptyString))) (Trace finding).

(** Go: scripts/govulncheck_filter.go displayFinding *)
Definition displayFinding (key : findingKey) : string :=
  if bool_decide (module key = EmptyString) then osv key
  else concat_texts [osv key; "@"; module key]%string.

(** Go: scripts/govulncheck_filter.go displayModule *)
Definition displayModule (module : string) : string :=
  if bool_decide (module = EmptyString) then "<unknown module>" else module.

(** Go: scripts/govulncheck_filter.go sortedFindingKeys:115-120 *)
Definition key_ltb (k k' : findingKey) : bool :=
  if bool_decide (osv k = osv k') then text_ltb (module k) (module k') else text_ltb (osv k) (osv k').
Definition key_le (k k' : findingKey) : Prop := key_ltb k' k = false.
#[export] Instance key_le_dec k k' : Decision (key_le k k').
Proof. unfold key_le. apply _. Defined.

(** Go: scripts/govulncheck_filter.go sortedFindingKeys

    No two keys of a map are the same, so that every way to sort them gives the same. *)
Definition sortedFindingKeys (m : counts) : list findingKey := merge_sort key_le (map_to_list m).*1.

(** [m[key]++], with 64 bits *)
Definition increment (key : findingKey) (m : counts) : counts := <[key := swrap 64 (default 0%Z (m !! key) + 1)]> m.

(** What the two maps have: the reachable findings, and the others. *)
Abbreviation found := (counts * counts)%type.

Definition finding_key (finding : govulncheckFinding) : findingKey := mkKey (OSV finding) (findingModule finding).

(** Go: scripts/govulncheck_filter.go runFilter:63-73 *)
Definition count_message (msg : govulncheckMessage) (m : found) : found :=
  match Finding msg with
  | None => m
  | Some finding =>
      if bool_decide (OSV finding = EmptyString) then m
      else let key := finding_key finding in
           if findingIsReachable finding then (increment key m.1, m.2) else (m.1, increment key m.2)
  end.

(** Go: scripts/govulncheck_filter.go runFilter:53-74

    The loop ends with the maps or with an error. *)
Fixpoint count_messages (input : list decoded) (m : found) : found + string :=
  match input with
  | [] => inl m
  | DError err :: _ => inr err
  | DMessage msg :: input => count_messages input (count_message msg m)
  end.

(** A line about a finding. *)
Definition report (what : string) (key : findingKey) (n : Z) (unit_ : string) : string :=
  concat_texts ["govulncheck: "; what; " "; osv key; " in "; displayModule (module key); " ("; FormatInt n; " "; unit_; ")"]%string.

(** What is written so far, and the findings that are blocked. *)
Abbreviation verdict := (list string * list string)%type.

(** Go: scripts/govulncheck_filter.go runFilter:82-89 *)
Definition judge_reachable (allowed : gmap string allowPolicy) (reachable : counts) (v : verdict) (key : findingKey) : verdict :=
  let n := default 0%Z (reachable !! key) in
  if allows allowed key then (v.1 ++ [report "allowed reachable" key n "trace(s)"], v.2)
  else (v.1 ++ [report "blocked reachable" key n "trace(s)"], v.2 ++ [displayFinding key]).

(** Go: scripts/govulncheck_filter.go runFilter:91-101 *)
Definition judge_unreachable (ignored : gmap string allowPolicy) (reachable unreachable : counts) (v : verdict) (key : findingKey)
    : verdict :=
  let n := default 0%Z (unreachable !! key) in
  if (0 <? default 0 (reachable !! key))%Z then v
  else if allows ignored key then (v.1 ++ [report "ignored module/package-only" key n "finding(s)"], v.2)
  else (v.1 ++ [report "blocked module/package-only" key n "finding(s)"], v.2 ++ [displayFinding key]).

(** [strings.Join(l, ", ")] *)
Fixpoint join_comma (l : list string) : string :=
  match l with [] => EmptyString | [s] => s | s :: l => concat_texts [s; ", "; join_comma l]%string end.

(** Go: scripts/govulncheck_filter.go runFilter

    The lines that are written to the standard error, and the code. *)
Definition runFilter (input : list decoded) (allowReachableList ignoreUnreachableList : string) : list string * Z :=
  let allowedReachable := parseAllowList allowReachableList in
  let ignoredUnreachable := parseAllowList ignoreUnreachableList in
  match count_messages input (∅, ∅) with
  | inr err => ([String.append "failed to parse govulncheck JSON: " err], 2%Z)
  | inl (reachable, unreachable) =>
      if (size reachable =? 0)%nat && (size unreachable =? 0)%nat
      then (["govulncheck: no reachable vulnerabilities found"%string], 0%Z)
      else
        let v := foldl (judge_reachable allowedReachable reachable) ([], []) (sortedFindingKeys reachable) in
        let v := foldl (judge_unreachable ignoredUnreachable reachable unreachable) v (sortedFindingKeys unreachable) in
        if (0 <? length v.2)%nat
        then (v.1 ++ [concat_texts ["govulncheck: refusing "; FormatInt (Z.of_nat (length v.2));
                " unallowed vulnerability finding(s): "; join_comma v.2]%string], 1%Z)
        else (v.1, 0%Z)
  end.

(** ** The policy of a text *)

(** What an entry of the list allows: the findings of its id, or those in its module. *)
Definition entry_allows (key : findingKey) (entry : string) : bool :=
  let '(id, m, hasModule) := Cut "@" (TrimSpace entry) in
  bool_decide (TrimSpace id = osv key ∧ osv key ≠ EmptyString)
  && (negb hasModule || bool_decide (TrimSpace m = EmptyString) || bool_decide (TrimSpace m = module key)).
Definition policy_allows (raw : string) (key : findingKey) : bool := existsb (entry_allows key) (Split "," raw).

Lemma allows_add allowed entry key : allows (add_entry allowed entry) key = allows allowed key || entry_allows key entry.
Proof.
  unfold add_entry, entry_allows. case_bool_decide as He.
  { rewrite He. cbn. rewrite bool_decide_false by (intros [? ?]; congruence). by rewrite orb_false_r. }
  destruct (Cut "@" (TrimSpace entry)) as [[id m] hasModule]. case_bool_decide as Hid.
  { rewrite bool_decide_false by (intros [? ?]; congruence). by rewrite orb_false_r. }
  unfold allows. destruct (decide (TrimSpace id = osv key)) as [Heq|Hne].
  - rewrite Heq, lookup_insert_eq. rewrite (bool_decide_true (_ ∧ _)) by (rewrite <- Heq; done).
    cbn [default from_option]. destruct (default (mkPolicy false ∅) (allowed !! osv key)) as [all ms]. unfold allowsModule.
    destruct (negb hasModule || bool_decide (TrimSpace m = EmptyString)) eqn:Hall; cbn.
    + by rewrite orb_true_r.
    + destruct all; [done|]. rewrite orb_comm. repeat case_bool_decide; try done; set_solver.
  - rewrite lookup_insert_ne by done. rewrite (bool_decide_false (_ ∧ _)) by tauto. by rewrite orb_false_r.
Qed.

(** The list allows what one of its entries does. *)
Lemma allows_policy raw key : allows (parseAllowList raw) key = policy_allows raw key.
Proof.
  unfold parseAllowList, policy_allows.
  assert (H : ∀ l a, allows (foldl add_entry a l) key = allows a key || existsb (entry_allows key) l).
  { induction l as [|e l IH]; intros a; cbn; [by rewrite orb_false_r|]. by rewrite IH, allows_add, orb_assoc. }
  rewrite H. unfold allows. by rewrite lookup_empty.
Qed.

(** ** What is counted *)

(** The findings that are counted. *)
Definition message_finding (d : decoded) : option govulncheckFinding :=
  match d with
  | DMessage (mkMessage (Some f)) => if bool_decide (OSV f = EmptyString) then None else Some f
  | _ => None
  end.
Definition findings (input : list decoded) : list govulncheckFinding := omap message_finding input.
Definition reported_at (input : list decoded) (reachable : bool) (key : findingKey) : Prop :=
  Exists (λ f, findingIsReachable f = reachable ∧ finding_key f = key) (findings input).
#[export] Instance reported_at_dec input r key : Decision (reported_at input r key).
Proof. unfold reported_at. apply _. Defined.

(** The counts that a number of increments more keeps positive. *)
Definition counted (n : nat) (m : counts) : Prop := ∀ k c, m !! k = Some c → (0 < c ≤ 2 ^ 63 - 1 - Z.of_nat n)%Z.

Lemma counted_less n m : counted (S n) m → counted n m.
Proof. intros Hm k c Hk. specialize (Hm k c Hk). lia. Qed.
Lemma counted_increment n key m : (Z.of_nat (S n) < 2 ^ 63)%Z → counted (S n) m → counted n (increment key m).
Proof.
  intros Hn Hm k c. unfold increment. rewrite lookup_insert_Some. intros [[-> <-]|[_ Hk]]; [|by apply (counted_less n m Hm k)].
  destruct (m !! k) as [c|] eqn:Hk; cbn; [specialize (Hm k c Hk)|]; rewrite swrap_small by (cbn; lia); lia.
Qed.
Lemma increment_is_some key m k : is_Some (increment key m !! k) ↔ key = k ∨ is_Some (m !! k).
Proof. unfold increment. rewrite lookup_insert_is_Some. destruct (decide (key = k)); tauto. Qed.

Lemma count_message_spec msg input m :
  (Z.of_nat (S (length input)) < 2 ^ 63)%Z → counted (S (length input)) m.1 →
  let m1 := count_message msg m in
  counted (length input) m1.1 ∧
  ∀ r k (get : found → counts), get = (if r : bool then fst else snd) →
    (is_Some (get m1 !! k) ∨ reported_at input r k ↔ is_Some (get m !! k) ∨ reported_at (DMessage msg :: input) r k).
Proof.
  intros Hn Hm m1. split.
  { subst m1. unfold count_message. destruct (Finding msg) as [f|]; [|by apply counted_less].
    case_bool_decide; [by apply counted_less|]. destruct (findingIsReachable f); [by apply counted_increment|by apply counted_less]. }
  intros r k get Hget. unfold reported_at, findings. subst m1. unfold count_message. cbn [omap list_omap message_finding].
  destruct msg as [[f|]]; cbn [Finding]; [|done]. case_bool_decide as Ho; [done|]. rewrite Exists_cons.
  destruct (findingIsReachable f), r; subst get; cbn [fst snd]; rewrite ?increment_is_some; intuition congruence.
Qed.

Lemma count_messages_spec input m m' :
  count_messages input m = inl m' →
  (Z.of_nat (length input) < 2 ^ 63)%Z → counted (length input) m.1 →
  counted 0 m'.1 ∧
  (∀ k, is_Some (m'.1 !! k) ↔ is_Some (m.1 !! k) ∨ reported_at input true k) ∧
  (∀ k, is_Some (m'.2 !! k) ↔ is_Some (m.2 !! k) ∨ reported_at input false k).
Proof.
  revert m. induction input as [|[msg|err] input IH]; intros m; [|cbn..]; [| |done].
  - intros [= <-] _ Hm. split_and!; [done|..]; intros k; (split; [by left|]); by intros [?|?%Exists_nil].
  - intros Hc Hn Hm. destruct (count_message_spec msg input m Hn Hm) as [Hm1 Hs].
    destruct (IH (count_message msg m) Hc ltac:(lia) Hm1) as (Hm' & H1 & H2). split_and!; [done|..]; intros k.
    + rewrite H1. by apply (Hs true k fst).
    + rewrite H2. by apply (Hs false k snd).
Qed.

Lemma count_messages_error input m : (∃ err, count_messages input m = inr err) ↔ ∃ err, DError err ∈ input.
Proof.
  revert m. induction input as [|[msg|err] input IH]; intros m; cbn.
  - split; [by intros [? ?]|]. by intros [err ?%elem_of_nil].
  - rewrite IH. split; intros [err Herr]; exists err; [by apply list_elem_of_further|].
    by apply elem_of_cons in Herr as [|].
  - split; intros _; [exists err; apply list_elem_of_here|by exists err].
Qed.

(** ** The verdict *)

Lemma elem_of_sorted m k : k ∈ sortedFindingKeys m ↔ is_Some (m !! k).
Proof.
  unfold sortedFindingKeys. rewrite (merge_sort_Permutation key_le), list_elem_of_fmap. split.
  - intros ((k' & n) & -> & Hin%elem_of_map_to_list). by exists n.
  - intros [n Hn]. exists (k, n). by rewrite elem_of_map_to_list.
Qed.
Lemma NoDup_sorted m : NoDup (sortedFindingKeys m).
Proof. unfold sortedFindingKeys. rewrite (merge_sort_Permutation key_le). apply NoDup_fst_map_to_list. Qed.

(** The keys that are refused, in the order of the report. *)
Definition refused (allowed ignored : gmap string allowPolicy) (reachable unreachable : counts) : list findingKey :=
  filter (λ k, allows allowed k = false) (sortedFindingKeys reachable)
  ++ filter (λ k, ¬ (0 < default 0 (reachable !! k))%Z ∧ allows ignored k = false) (sortedFindingKeys unreachable).

Lemma judged allowed ignored reachable unreachable v :
  (foldl (judge_unreachable ignored reachable unreachable)
     (foldl (judge_reachable allowed reachable) v (sortedFindingKeys reachable)) (sortedFindingKeys unreachable)).2
  = v.2 ++ (displayFinding <$> refused allowed ignored reachable unreachable).
Proof.
  assert (H1 : ∀ ks v, (foldl (judge_reachable allowed reachable) v ks).2
    = v.2 ++ (displayFinding <$> filter (λ k, allows allowed k = false) ks)).
  { induction ks as [|k ks IH]; intros w; cbn [foldl]; [by rewrite app_nil_r|]. rewrite IH. unfold judge_reachable.
    destruct (allows allowed k) eqn:Hk; [by rewrite filter_cons_False by congruence|].
    rewrite filter_cons_True by done. cbn. by rewrite <- app_assoc. }
  assert (H2 : ∀ ks v, (foldl (judge_unreachable ignored reachable unreachable) v ks).2
    = v.2 ++ (displayFinding <$> filter (λ k, ¬ (0 < default 0 (reachable !! k))%Z ∧ allows ignored k = false) ks)).
  { induction ks as [|k ks IH]; intros w; cbn [foldl]; [by rewrite app_nil_r|]. rewrite IH. unfold judge_unreachable.
    destruct (Z.ltb_spec 0 (default 0%Z (reachable !! k))); [by rewrite filter_cons_False by tauto|].
    destruct (allows ignored k) eqn:Hk; [by rewrite filter_cons_False by (rewrite Hk; naive_solver)|].
    rewrite filter_cons_True by (split; [lia|done]). cbn. by rewrite <- app_assoc. }
  unfold refused. by rewrite H2, H1, fmap_app, app_assoc.
Qed.

(** What the policy makes of a finding: a reachable one must be allowed; another one passes
    if it is ignored, or if it is counted as a reachable one anyway. *)
Definition passes (input : list decoded) (allow ignore : string) (f : govulncheckFinding) : Prop :=
  if findingIsReachable f then policy_allows allow (finding_key f) = true
  else reported_at input true (finding_key f) ∨ policy_allows ignore (finding_key f) = true.
#[export] Instance passes_dec input allow ignore f : Decision (passes input allow ignore f).
Proof. unfold passes. destruct (findingIsReachable f); apply _. Defined.

Lemma refused_spec input allow ignore reachable unreachable k :
  (Z.of_nat (length input) < 2 ^ 63)%Z → count_messages input (∅, ∅) = inl (reachable, unreachable) →
  k ∈ refused (parseAllowList allow) (parseAllowList ignore) reachable unreachable ↔
  ∃ f, f ∈ findings input ∧ ¬ passes input allow ignore f ∧ finding_key f = k.
Proof.
  intros Hn Hc. destruct (count_messages_spec input (∅, ∅) (reachable, unreachable) Hc Hn) as (Hpos & Hr & Hu); [done|].
  cbn [fst snd] in Hpos, Hr, Hu.
  assert (Hr' : is_Some (reachable !! k) ↔ reported_at input true k) by (rewrite Hr, lookup_empty; split; [by intros [[? ?]|]|by right]).
  assert (Hu' : is_Some (unreachable !! k) ↔ reported_at input false k) by (rewrite Hu, lookup_empty; split; [by intros [[? ?]|]|by right]).
  assert (Hcount : (0 < default 0 (reachable !! k))%Z ↔ reported_at input true k).
  { rewrite <- Hr'. destruct (reachable !! k) as [c|] eqn:Hk; cbn; [|split; [lia|by intros [? ?]]].
    split; [by eexists|]. intros _. by apply (Hpos k c). }
  unfold refused. rewrite elem_of_app, !list_elem_of_filter, !elem_of_sorted, Hr', Hu', !allows_policy, Hcount.
  unfold passes. split.
  - intros [(Hk & (f & Hf & Hreach & <-)%list.Exists_exists)|([Hnot Hk] & (f & Hf & Hreach & <-)%list.Exists_exists)];
      exists f; rewrite Hreach; (split; [done|split; [|done]]); rewrite ?Hk; naive_solver.
  - intros (f & Hf & Hp & <-). assert (Hat : reported_at input (findingIsReachable f) (finding_key f)) by (apply list.Exists_exists; eauto).
    destruct (findingIsReachable f); [left|right]; destruct (policy_allows _ _); tauto.
Qed.

(** [C33]  The gate opens exactly when every message could be read and the policy lets every
    finding with an id pass: a reachable one must be allowed by an entry of the first
    list, one that is not must be ignored by an entry of the second unless it is reported
    as reachable too.  It answers 2 when a message could not be read, and 1 otherwise,
    and then the last line names the findings that are refused. *)
Theorem gate_opens_by_policy input allow ignore :
  (Z.of_nat (length input) < 2 ^ 63)%Z →
  let '(lines, code) := runFilter input allow ignore in
  (code = 2%Z ↔ ∃ err, DError err ∈ input) ∧
  (code = 0%Z ↔ (∀ err, DError err ∉ input) ∧ ∀ f, f ∈ findings input → passes input allow ignore f) ∧
  (code ≠ 0%Z → code ≠ 2%Z → code = 1%Z ∧ ∃ keys,
    (∀ k, k ∈ keys ↔ ∃ f, f ∈ findings input ∧ ¬ passes input allow ignore f ∧ finding_key f = k) ∧
    list.last lines = Some (concat_texts ["govulncheck: refusing "; FormatInt (Z.of_nat (length keys));
      " unallowed vulnerability finding(s): "; join_comma (displayFinding <$> keys)]%string)).
Proof.
  intros Hn. unfold runFilter. pose proof (count_messages_error input (∅, ∅)) as Herr.
  destruct (count_messages input (∅, ∅)) as [[reachable unreachable]|err] eqn:Hc.
  2:{ destruct (proj1 Herr (ex_intro _ err eq_refl)) as [e He]. split_and!; [split; [by exists e|done]| |done].
      split; [done|]. intros [Hno _]. by destruct (Hno e). }
  assert (Hno : ∀ err, DError err ∉ input) by (intros err He; destruct (proj2 Herr (ex_intro _ err He)); done).
  pose proof (λ k, refused_spec input allow ignore reachable unreachable k Hn Hc) as Hrefused.
  rewrite judged, app_nil_l. set (keys := refused _ _ _ _) in *. rewrite length_fmap.
  assert (Hopen : (∀ f, f ∈ findings input → passes input allow ignore f) ↔ keys = []).
  { split.
    - intros Hp. destruct keys as [|k ks]; [done|].
      destruct (proj1 (Hrefused k) (list_elem_of_here _ _)) as (f & Hf & Hnp & _). by destruct Hnp; apply Hp.
    - intros Hk f Hf. destruct (decide (passes input allow ignore f)) as [|Hnp]; [done|].
      assert (Hin : finding_key f ∈ keys) by (apply Hrefused; eauto). rewrite Hk in Hin. by apply elem_of_nil in Hin. }
  destruct ((size reachable =? 0)%nat && (size unreachable =? 0)%nat) eqn:Hempty.
  - apply andb_true_iff in Hempty as [H1%Nat.eqb_eq%map_size_empty_inv H2%Nat.eqb_eq%map_size_empty_inv]. subst reachable unreachable.
    assert (keys = []) by (unfold keys, refused, sortedFindingKeys; by rewrite map_to_list_empty).
    split_and!; [split; [done|by intros [e He%Hno]]|split; [|done]|done]. intros _. split; [done|by apply Hopen].
  - destruct keys as [|k ks] eqn:Hk; cbn [length fmap list_fmap Nat.ltb Nat.leb].
    + split_and!; [split; [done|by intros [e He%Hno]]|split; [|done]|done]. intros _. split; [done|by apply Hopen].
    + split_and!; [split; [done|by intros [e He%Hno]]|split; [done|]|].
      * intros [_ Hp%Hopen]. done.
      * intros _ _. split; [done|]. exists (k :: ks). split; [exact Hrefused|]. by rewrite last_snoc.
Qed.

(** The lines are in the order of the ids, and of the modules of an id. *)
Lemma text_ltb_asymm s t : text_ltb s t = true → text_ltb t s = true → False.
Proof. intros H1 H2. pose proof (text_ltb_trans _ _ _ H1 H2) as H. by rewrite text_ltb_irrefl in H. Qed.
#[export] Instance key_le_total : Total key_le.
Proof.
  intros a b. unfold key_le, key_ltb. destruct (decide (osv a = osv b)) as [Heq|Hne].
  - rewrite !bool_decide_true by congruence. destruct (text_ltb (module b) (module a)) eqn:H; [right|by left].
    destruct (text_ltb (module a) (module b)) eqn:H'; [|done]. by destruct (text_ltb_asymm _ _ H H').
  - rewrite !bool_decide_false by congruence. destruct (text_ltb (osv b) (osv a)) eqn:H; [right|by left].
    destruct (text_ltb (osv a) (osv b)) eqn:H'; [|done]. by destruct (text_ltb_asymm _ _ H H').
Qed.
Lemma keys_are_sorted m : Sorted key_le (sortedFindingKeys m) ∧ NoDup (sortedFindingKeys m).
Proof. split; [apply (Sorted_merge_sort key_le)|apply NoDup_sorted]. Qed.

(** ** A scan with three findings *)

Definition scan : list decoded :=
  [DMessage (mkMessage None);
   DMessage (mkMessage (Some (mkFinding "GO-1" [mkFrame "a.org/m" "" ""])));
   DMessage (mkMessage (Some (mkFinding "GO-1" [mkFrame "" "a.org/m/p" "F"; mkFrame "a.org/m" "" ""])));
   DMessage (mkMessage (Some (mkFinding "GO-2" [mkFrame "" "b.org/q" ""])))]%string.

Lemma gate_opens_by_policy_witness :
  (runFilter scan " GO-1 @ a.org/m ,GO-3" "GO-2").2 = 0%Z ∧ (runFilter scan "GO-1@c.org" "GO-2").2 = 1%Z.
Proof.
  pose proof (gate_opens_by_policy scan " GO-1 @ a.org/m ,GO-3" "GO-2" ltac:(cbn; lia)) as H1.
  pose proof (gate_opens_by_policy scan "GO-1@c.org" "GO-2" ltac:(cbn; lia)) as H2.
  destruct (runFilter scan " GO-1 @ a.org/m ,GO-3" "GO-2") as [lines1 code1].
  destruct (runFilter scan "GO-1@c.org" "GO-2") as [lines2 code2]. cbn [snd].
  assert (Hno : ∀ err, DError err ∉ scan) by (intros err; unfold scan; set_solver).
  split.
  - apply (proj1 (proj2 H1)). split; [exact Hno|].
    assert (Hall : Forall (passes scan " GO-1 @ a.org/m ,GO-3" "GO-2") (findings scan)) by (apply (bool_decide_unpack _); vm_compute; exact I).
    intros f Hf. by apply (proj1 (list.Forall_forall _ _) Hall).
  - apply (proj2 (proj2 H2)).
    + intros [_ Hp]%(proj1 (proj2 H2)).
      assert (Hbad : Exists (λ f, ¬ passes scan "GO-1@c.org" "GO-2" f) (findings scan)) by (apply (bool_decide_unpack _); vm_compute; exact I).
      apply list.Exists_exists in Hbad as (f & Hf & Hnp). by apply Hnp, Hp.
    + intros [e He]%(proj1 H2). by apply (Hno e).
Defined.
