(* ===== verification/Config.v ===== *)
(** * The configuration

    config/config.go: the settings of a file of JSON are read over the default ones.  The
    tree of the text is the input; [encoding/json] stores it in the structures, by the
    names of their fields. *)

From Stdlib Require Import Ascii.
From S2P Require Import Prelude.

(** ** JSON *)

(** A value; a number is an integer when it is written without a fraction and without an
    exponent. *)
Inductive json :=
  | JNull
  | JBool (b : bool)
  | JInt (z : Z)
  | JFloat (literal : string)
  | JString (s : string)
  | JArray (l : list json)
  | JObject (members : list (string * json)).

(** How a value is stored where another one is; [None] is an error, with which the
    structure that is left is not used. *)
Definition decoder (A : Type) : Type := json → A → option A.

(** A field of a structure: its name, where it is and how it is stored. *)
Record field (R : Type) := Field {
  f_name : string; f_type : Type; f_get : R → f_type; f_set : f_type → R → R; f_decode : decoder f_type
}.
Arguments Field {R} f_name {f_type} f_get f_set f_decode.
Arguments f_name {R}. Arguments f_type {R}. Arguments f_get {R}. Arguments f_set {R}. Arguments f_decode {R}.

Notation "'key' n 'at' p 'as' d" := (Field n%string p (λ v r, modify_field p (λ _, v) r) d)
  (at level 10, n at level 0, p at level 0, d at level 9) : idx_scope.

Definition decode_bool : decoder bool := λ j old,
  match j with JNull => Some old | JBool b => Some b | _ => None end.
(** An [int] of 64 bits. *)
Definition decode_int : decoder Z := λ j old,
  match j with
  | JNull => Some old
  | JInt z => if ((- 2 ^ 63 <=? z) && (z <? 2 ^ 63))%Z then Some z else None
  | _ => None
  end.
Definition decode_string : decoder string := λ j old,
  match j with JNull => Some old | JString s => Some s | _ => None end.
(** A pointer: null makes it nil; what a pointer has is changed, and a nil one gets a new
    value. *)
Definition decode_pointer {A} (zero : A) (decode : decoder A) : decoder (option A) := λ j old,
  match j with JNull => Some None | _ => Some <$> decode j (default zero old) end.

(** The folding of a name: letters in upper case, with the two that are not ASCII but have
    an ASCII letter for their upper or lower case. *)
Definition upper (c : ascii) : ascii :=
  let n := nat_of_ascii c in if ((97 <=? n) && (n <=? 122))%nat then ascii_of_nat (n - 32) else c.
Fixpoint foldName (s : string) : string :=
  match s with
  | String "197" (String "191" s) => String "S" (foldName s)
  | String "226" (String "132" (String "170" s)) => String "K" (foldName s)
  | String c s => String (upper c) (foldName s)
  | EmptyString => EmptyString
  end.

(** The field of a member: the one of its name, or else the first that differs in case. *)
Definition select {R} (fields : list (field R)) (k : string) : option (field R) :=
  match list_find (λ f, f_name f = k) fields with
  | Some (_, f) => Some f
  | None => snd <$> list_find (λ f, foldName (f_name f) = foldName k) fields
  end.

Definition decode_member {R} (fields : list (field R)) (r : R) (m : string * json) : option R :=
  match select fields m.1 with
  | None => Some r
  | Some f => v ← f_decode f m.2 (f_get f r); Some (f_set f v r)
  end.
Fixpoint decode_members {R} (fields : list (field R)) (ms : list (string * json)) (r : R) : option R :=
  match ms with [] => Some r | m :: ms => r ← decode_member fields r m; decode_members fields ms r end.
(** [json.Unmarshal] into a structure *)
Definition decode_struct {R} (fields : list (field R)) : decoder R := λ j r,
  match j with JNull => Some r | JObject ms => decode_members fields ms r | _ => None end.

(** ** The settings *)

(** Go: config/config.go Api *)
Record Api := mkApi { api_Port : Z; api_LogFileSize : Z }.
(** Go: config/config.go PerformanceMonitorConfig *)
Record PerformanceMonitorConfig := mkPerformanceMonitorConfig { pm_Enabled : bool; pm_BlocksToLog : Z }.
(** Go: config/config.go PostgresConfig *)
Record PostgresConfig := mkPostgresConfig { pg_ConnStr : string; pg_ScriptsDir : string }.
(** Go: config/config.go RuntimeMigrationConfig *)
Record RuntimeMigrationConfig := mkRuntimeMigrationConfig { rm_Enabled : bool; rm_Postgres : PostgresConfig }.
(** Go: config/config.go FlipContentLoaderConfig *)
Record FlipContentLoaderConfig := mkFlipContentLoaderConfig { fl_BatchSize : Z; fl_AttemptsLimit : Z; fl_RetryIntervalMin : Z }.
(** Go: config/config.go DataConfig *)
Record DataConfig := mkDataConfig { dc_Enabled : bool; dc_Table : string; dc_StateTable : string }.
(** Go: config/config.go VoteCountingConfig *)
Record VoteCountingConfig := mkVoteCountingConfig { vc_Enabled : bool }.

(** Go: config/config.go Config *)
Record Config := mkConfig {
  Postgres : PostgresConfig; RuntimeMigration : RuntimeMigrationConfig;
  NodeConfigFile : string; WordsFile : string; Verbosity : Z; NodeVerbosity : Z; RestoreInitially : bool;
  PerformanceMonitor : PerformanceMonitorConfig; FlipContentLoader : FlipContentLoaderConfig;
  CommitteeRewardBlocksCount : Z; MiningRewards : bool; Enabled : option bool; conf_Api : option Api;
  UpgradeVotingShortHistoryItems : Z; UpgradeVotingShortHistoryMinShift : Z;
  Data : option DataConfig; TreeSnapshotDir : string; VoteCounting : VoteCountingConfig;
  CheckBalances : bool; WasmInfoUrl : string; DisableDelegationHistory : bool
}.

Definition Api_fields : list (field Api) :=
  [key "Port" at api_Port as decode_int; key "LogFileSize" at api_LogFileSize as decode_int].
Definition PerformanceMonitorConfig_fields : list (field PerformanceMonitorConfig) :=
  [key "Enabled" at pm_Enabled as decode_bool; key "BlocksToLog" at pm_BlocksToLog as decode_int].
Definition PostgresConfig_fields : list (field PostgresConfig) :=
  [key "ConnStr" at pg_ConnStr as decode_string; key "ScriptsDir" at pg_ScriptsDir as decode_string].
Definition RuntimeMigrationConfig_fields : list (field RuntimeMigrationConfig) :=
  [key "Enabled" at rm_Enabled as decode_bool;
   key "Postgres" at rm_Postgres as (decode_struct PostgresConfig_fields)].
Definition FlipContentLoaderConfig_fields : list (field FlipContentLoaderConfig) :=
  [key "BatchSize" at fl_BatchSize as decode_int; key "AttemptsLimit" at fl_AttemptsLimit as decode_int;
   key "RetryIntervalMin" at fl_RetryIntervalMin as decode_int].
Definition DataConfig_fields : list (field DataConfig) :=
  [key "Enabled" at dc_Enabled as decode_bool; key "Table" at dc_Table as decode_string;
   key "StateTable" at dc_StateTable as decode_string].
Definition VoteCountingConfig_fields : list (field VoteCountingConfig) :=
  [key "Enabled" at vc_Enabled as decode_bool].

Definition zero_Api : Api := mkApi 0 0.
Definition zero_DataConfig : DataConfig := mkDataConfig false "" "".

(** The fields of [Config], in the order of the structure. *)
Definition Config_fields : list (field Config) := [
  key "Postgres" at Postgres as (decode_struct PostgresConfig_fields);
  key "RuntimeMigration" at RuntimeMigration as (decode_struct RuntimeMigrationConfig_fields);
  key "NodeConfigFile" at NodeConfigFile as decode_string;
  key "WordsFile" at WordsFile as decode_string;
  key "Verbosity" at Verbosity as decode_int;
  key "NodeVerbosity" at NodeVerbosity as decode_int;
  key "RestoreInitially" at RestoreInitially as decode_bool;
  key "PerformanceMonitor" at PerformanceMonitor as (decode_struct PerformanceMonitorConfig_fields);
  key "FlipContentLoader" at FlipContentLoader as (decode_struct FlipContentLoaderConfig_fields);
  key "CommitteeRewardBlocksCount" at CommitteeRewardBlocksCount as decode_int;
  key "MiningRewards" at MiningRewards as decode_bool;
  key "Enabled" at Enabled as (decode_pointer false decode_bool);
  key "Api" at conf_Api as (decode_pointer zero_Api (decode_struct Api_fields));
  key "UpgradeVotingShortHistoryItems" at UpgradeVotingShortHistoryItems as decode_int;
  key "UpgradeVotingShortHistoryMinShift" at UpgradeVotingShortHistoryMinShift as decode_int;
  key "Data" at Data as (decode_pointer zero_DataConfig (decode_struct DataConfig_fields));
  key "TreeSnapshotDir" at TreeSnapshotDir as decode_string;
  key "VoteCounting" at VoteCounting as (decode_struct VoteCountingConfig_fields);
  key "CheckBalances" at CheckBalances as decode_bool;
  key "WasmInfoUrl" at WasmInfoUrl as decode_string;
  key "DisableDelegationHistory" at DisableDelegationHistory as decode_bool ].

(** [filepath.Join], of names that need no cleaning, with the separator of the system *)
Definition Join_path (separator : ascii) (l : list string) : string := Join separator l.

(** Go: config/config.go newDefaultConfig *)
Definition newDefaultConfig (separator : ascii) : Config := {|
  NodeConfigFile := Join_path separator ["conf"; "node.json"];
  Postgres := mkPostgresConfig "" (Join_path separator ["resources"; "scripts"; "indexer"]);
  Verbosity := 3; NodeVerbosity := 0;
  FlipContentLoader := mkFlipContentLoaderConfig 50 5 10;
  conf_Api := Some (mkApi 8080 (100 * 1024));
  CommitteeRewardBlocksCount := 1000;
  UpgradeVotingShortHistoryItems := 400;
  UpgradeVotingShortHistoryMinShift := 5;
  RuntimeMigration := mkRuntimeMigrationConfig false (mkPostgresConfig "" "");
  WordsFile := ""; RestoreInitially := false; PerformanceMonitor := mkPerformanceMonitorConfig false 0;
  MiningRewards := false; Enabled := None; Data := None; TreeSnapshotDir := "";
  VoteCounting := mkVoteCountingConfig false; CheckBalances := false; WasmInfoUrl := "";
  DisableDelegationHistory := false
|}%string%Z.

(** Go: config/config.go LoadConfig

    The file is there and can be opened, and the text that is read is [content] ([None]:
    not JSON); the answer is the configuration or a panic with a message. *)
Definition LoadConfig (separator : ascii) (configPath : string) (stat_ok open_ok : bool) (content : option json) : Config + string :=
  if negb stat_ok then inr (String.append "Config file cannot be found, path: " configPath)
  else if negb open_ok then inr (String.append "Config file cannot be opened, path: " configPath)
  else match j ← content; decode_struct Config_fields j (newDefaultConfig separator) with
       | None => inr (String.append "Cannot parse JSON config, path: " configPath)
       | Some conf => inl conf
       end.

(** ** What a field becomes *)

Section struct.
Context {R : Type} (fields : list (field R)).

(** The names differ even in upper case, and a field that is stored is the only one that
    changes. *)
Definition separate : Prop :=
  NoDup (foldName ∘ f_name <$> fields) ∧
  ∀ f g, f ∈ fields → g ∈ fields → f_name f ≠ f_name g → ∀ v r, f_get f (f_set g v r) = f_get f r.
Definition stored : Prop := ∀ f, f ∈ fields → ∀ v r, f_get f (f_set f v r) = v.

(** The values that are read for a field: those of the members with its name, in any
    case. *)
Definition values (f : field R) (ms : list (string * json)) : list json :=
  snd <$> filter (λ m, foldName m.1 = foldName (f_name f)) ms.
(** Each is stored over the one before. *)
Fixpoint decode_all {A} (decode : decoder A) (l : list json) (old : A) : option A :=
  match l with [] => Some old | j :: l => v ← decode j old; decode_all decode l v end.

Hypothesis Hsep : separate.

Lemma fold_inj f g : f ∈ fields → g ∈ fields → foldName (f_name f) = foldName (f_name g) → f = g.
Proof.
  intros Hf Hg Heq. destruct Hsep as [Hnd _].
  apply list_elem_of_lookup in Hf as [i Hi]. apply list_elem_of_lookup in Hg as [k Hk].
  assert (i = k) as ->; [|congruence].
  rewrite list.NoDup_alt in Hnd. apply (Hnd i k (foldName (f_name f))); rewrite list_lookup_fmap.
  - by rewrite Hi.
  - rewrite Hk. cbn. by f_equal.
Qed.

Lemma select_spec k :
  match select fields k with
  | Some f => f ∈ fields ∧ foldName k = foldName (f_name f)
  | None => ∀ f, f ∈ fields → foldName k ≠ foldName (f_name f)
  end.
Proof.
  unfold select. destruct (list_find (λ f, f_name f = k) fields) as [[i f]|] eqn:H1.
  { apply list_find_Some in H1 as (Hi & <- & _). split; [by eapply list_elem_of_lookup_2|done]. }
  destruct (list_find (λ f, foldName (f_name f) = foldName k) fields) as [[i f]|] eqn:H2; cbn.
  - apply list_find_Some in H2 as (Hi & Heq & _). split; [by eapply list_elem_of_lookup_2|done].
  - apply list_find_None in H2. intros f Hf Heq. rewrite list.Forall_forall in H2. by apply (H2 f Hf).
Qed.

(** A field becomes what its own members make of it, whatever the others are. *)
Lemma decode_members_spec ms r r' f :
  stored → f ∈ fields → decode_members fields ms r = Some r' →
  decode_all (f_decode f) (values f ms) (f_get f r) = Some (f_get f r').
Proof.
  intros Hst Hf. revert r. induction ms as [|[k j] ms IH]; intros r; cbn [decode_members]; [by intros [= ->]|].
  unfold decode_member. cbn [fst snd]. pose proof (select_spec k) as Hk. unfold values. destruct (select fields k) as [g|].
  - destruct Hk as [Hg Hk]. destruct (f_decode g j (f_get g r)) as [v|] eqn:Hv; [|done]. cbn. intros Hr.
    destruct (decide (foldName k = foldName (f_name f))) as [Heq|Hne].
    + assert (g = f) as -> by (apply fold_inj; [done..|congruence]). cbn. rewrite Hv. cbn.
      apply IH in Hr. by rewrite Hst in Hr.
    + apply IH in Hr. rewrite (proj2 Hsep f g) in Hr; [done|done..|]. intros Heq. apply Hne. by rewrite Hk, Heq.
  - cbn. intros Hr. rewrite decide_False; [by apply IH|]. intros Heq. by apply (Hk f Hf).
Qed.

Lemma decode_members_fails ms r f :
  stored → f ∈ fields → decode_all (f_decode f) (values f ms) (f_get f r) = None → decode_members fields ms r = None.
Proof.
  intros Hst Hf Hnone. destruct (decode_members fields ms r) as [r'|] eqn:Hr; [|done].
  by rewrite (decode_members_spec ms r r' f Hst Hf Hr) in Hnone.
Qed.

(** And when all of its fields have their values, a structure is read. *)
Lemma decode_members_works ms r :
  stored → (∀ f, f ∈ fields → is_Some (decode_all (f_decode f) (values f ms) (f_get f r))) →
  is_Some (decode_members fields ms r).
Proof.
  intros Hst. revert r. induction ms as [|[k j] ms IH]; intros r Hall; cbn [decode_members]; [by eexists|].
  unfold decode_member. cbn [fst snd]. pose proof (select_spec k) as Hk. destruct (select fields k) as [g|].
  - destruct Hk as [Hg Hk]. pose proof (Hall g Hg) as Hthis. unfold values in Hthis. cbn in Hthis.
    rewrite decide_True in Hthis by done. cbn in Hthis. destruct (f_decode g j (f_get g r)) as [v|] eqn:Hv; [|by destruct Hthis].
    cbn. apply IH. intros f Hf. destruct (decide (foldName (f_name f) = foldName (f_name g))) as [Heq|Hne].
    + assert (f = g) as -> by by apply fold_inj. by rewrite Hst.
    + rewrite (proj2 Hsep f g) by (done || congruence). specialize (Hall f Hf). unfold values in Hall. cbn in Hall.
      by rewrite decide_False in Hall by congruence.
  - cbn. apply IH. intros f Hf. specialize (Hall f Hf). unfold values in Hall. cbn in Hall.
    rewrite decide_False in Hall; [done|]. by apply Hk.
Qed.
End struct.

Ltac each_field H :=
  repeat (apply elem_of_cons in H as [->|H]; [|try by apply elem_of_nil in H]).

(** What the fields of a structure are: with a name of their own each, apart from each
    other, and all there is. *)
Record structure {R} (fields : list (field R)) : Prop := mkStructure {
  fields_separate : separate fields;
  fields_stored : stored fields;
  fields_ext r r' : Forall (λ f, f_get f r = f_get f r') fields → r = r'
}.

Ltac by_fields :=
  split;
  [ split; [by apply (bool_decide_unpack _); vm_compute|];
    let f := fresh in let g := fresh in let Hf := fresh in let Hg := fresh in let Hne := fresh in
    intros f g Hf Hg; each_field Hf; each_field Hg; (reflexivity || (intros Hne; by destruct Hne))
  | let f := fresh in let Hf := fresh in intros f Hf; by each_field Hf
  | let r := fresh in let r' := fresh in let H := fresh in
    intros r r' H; repeat (apply list.Forall_cons in H as [? H]); destruct r, r'; cbn in *; by subst ].

Lemma Api_structure : structure Api_fields. Proof. by_fields. Qed.
Lemma PerformanceMonitorConfig_structure : structure PerformanceMonitorConfig_fields. Proof. by_fields. Qed.
Lemma PostgresConfig_structure : structure PostgresConfig_fields. Proof. by_fields. Qed.
Lemma RuntimeMigrationConfig_structure : structure RuntimeMigrationConfig_fields. Proof. by_fields. Qed.
Lemma FlipContentLoaderConfig_structure : structure FlipContentLoaderConfig_fields. Proof. by_fields. Qed.
Lemma DataConfig_structure : structure DataConfig_fields. Proof. by_fields. Qed.
Lemma VoteCountingConfig_structure : structure VoteCountingConfig_fields. Proof. by_fields. Qed.
Lemma Config_structure : structure Config_fields. Proof. by_fields. Qed.
Create HintDb config.
#[export] Hint Resolve Api_structure PerformanceMonitorConfig_structure PostgresConfig_structure RuntimeMigrationConfig_structure
  FlipContentLoaderConfig_structure DataConfig_structure VoteCountingConfig_structure Config_structure : config.

(** [C31]  The configuration is, setting by setting, what the members of the file with the name of
    the setting, in upper or lower case, make of the default one, and none of the others
    changes it: a setting the file does not have stays at its default, of several the last
    has the say, and the settings of a part keep theirs when the file has only some.  The
    program ends with a panic exactly when a setting has a value of another type. *)
Theorem settings_come_from_the_file separator path ms :
  let default_of f := f_get f (newDefaultConfig separator) in
  match LoadConfig separator path true true (Some (JObject ms)) with
  | inl conf => ∀ f, f ∈ Config_fields → decode_all (f_decode f) (values f ms) (default_of f) = Some (f_get f conf)
  | inr _ => ∃ f, f ∈ Config_fields ∧ decode_all (f_decode f) (values f ms) (default_of f) = None
  end.
Proof.
  cbn. unfold LoadConfig. cbn [negb mbind option_bind decode_struct].
  destruct (decode_members Config_fields ms (newDefaultConfig separator)) as [conf|] eqn:Hr.
  - intros f Hf. by eapply decode_members_spec; [apply Config_structure|apply Config_structure|..].
  - destruct (decide (Exists (λ f, decode_all (f_decode f) (values f ms) (f_get f (newDefaultConfig separator)) = None) Config_fields))
      as [Hex|Hno]; [by apply list.Exists_exists|].
    destruct (decode_members_works Config_fields (fields_separate _ Config_structure) ms (newDefaultConfig separator)
      (fields_stored _ Config_structure)) as [c Hc]; [|congruence].
    intros f Hf. destruct (decode_all _ _ _) eqn:Hd; [by eexists|]. destruct Hno. apply list.Exists_exists. eauto.
Qed.

Lemma values_absent {R} (f : field R) ms : Forall (λ m, foldName m.1 ≠ foldName (f_name f)) ms → values f ms = [].
Proof.
  unfold values. induction 1 as [|m ms Hm _ IH]; [done|]. cbn. by rewrite decide_False.
Qed.

(** A setting that the file has not is the default one. *)
Lemma absent_settings_stay separator path ms conf f :
  f ∈ Config_fields → Forall (λ m, foldName m.1 ≠ foldName (f_name f)) ms →
  LoadConfig separator path true true (Some (JObject ms)) = inl conf → f_get f conf = f_get f (newDefaultConfig separator).
Proof.
  intros Hf Hno Hl. pose proof (settings_come_from_the_file separator path ms) as H. cbn zeta in H. rewrite Hl in H.
  specialize (H f Hf). rewrite values_absent in H by done. by injection H as ->.
Qed.

(** ** A configuration as a file *)

Definition Api_json (a : Api) : json := JObject [("Port", JInt (api_Port a)); ("LogFileSize", JInt (api_LogFileSize a))]%string.
Definition PostgresConfig_json (p : PostgresConfig) : json :=
  JObject [("ConnStr", JString (pg_ConnStr p)); ("ScriptsDir", JString (pg_ScriptsDir p))]%string.
Definition DataConfig_json (d : DataConfig) : json :=
  JObject [("Enabled", JBool (dc_Enabled d)); ("Table", JString (dc_Table d)); ("StateTable", JString (dc_StateTable d))]%string.
Definition pointer_json {A} (to_json : A → json) (o : option A) : json := from_option to_json JNull o.

Definition Config_json (c : Config) : json := JObject [
  ("Postgres", PostgresConfig_json (Postgres c));
  ("RuntimeMigration", JObject [("Enabled", JBool (rm_Enabled (RuntimeMigration c)));
     ("Postgres", PostgresConfig_json (rm_Postgres (RuntimeMigration c)))]);
  ("NodeConfigFile", JString (NodeConfigFile c)); ("WordsFile", JString (WordsFile c));
  ("Verbosity", JInt (Verbosity c)); ("NodeVerbosity", JInt (NodeVerbosity c)); ("RestoreInitially", JBool (RestoreInitially c));
  ("PerformanceMonitor", JObject [("Enabled", JBool (pm_Enabled (PerformanceMonitor c)));
     ("BlocksToLog", JInt (pm_BlocksToLog (PerformanceMonitor c)))]);
  ("FlipContentLoader", JObject [("BatchSize", JInt (fl_BatchSize (FlipContentLoader c)));
     ("AttemptsLimit", JInt (fl_AttemptsLimit (FlipContentLoader c))); ("RetryIntervalMin", JInt (fl_RetryIntervalMin (FlipContentLoader c)))]);
  ("CommitteeRewardBlocksCount", JInt (CommitteeRewardBlocksCount c)); ("MiningRewards", JBool (MiningRewards c));
  ("Enabled", pointer_json JBool (Enabled c)); ("Api", pointer_json Api_json (conf_Api c));
  ("UpgradeVotingShortHistoryItems", JInt (UpgradeVotingShortHistoryItems c));
  ("UpgradeVotingShortHistoryMinShift", JInt (UpgradeVotingShortHistoryMinShift c));
  ("Data", pointer_json DataConfig_json (Data c)); ("TreeSnapshotDir", JString (TreeSnapshotDir c));
  ("VoteCounting", JObject [("Enabled", JBool (vc_Enabled (VoteCounting c)))]);
  ("CheckBalances", JBool (CheckBalances c)); ("WasmInfoUrl", JString (WasmInfoUrl c));
  ("DisableDelegationHistory", JBool (DisableDelegationHistory c)) ]%string.

Definition int64 (z : Z) : Prop := (- 2 ^ 63 ≤ z < 2 ^ 63)%Z.
Definition Config_widths (c : Config) : Prop :=
  Forall int64 ([Verbosity c; NodeVerbosity c; pm_BlocksToLog (PerformanceMonitor c); fl_BatchSize (FlipContentLoader c);
    fl_AttemptsLimit (FlipContentLoader c); fl_RetryIntervalMin (FlipContentLoader c); CommitteeRewardBlocksCount c;
    UpgradeVotingShortHistoryItems c; UpgradeVotingShortHistoryMinShift c]
    ++ match conf_Api c with Some a => [api_Port a; api_LogFileSize a] | None => [] end).

Lemma decode_int_range z old : int64 z → decode_int (JInt z) old = Some z.
Proof. unfold int64, decode_int. intros Hz. by rewrite (proj2 (Z.leb_le _ _)), (proj2 (Z.ltb_lt _ _)) by lia. Qed.

(** With one member for every name, a field reads that of its name. *)
Lemma values_at {R} (f : field R) ms i k j :
  NoDup (foldName <$> ms.*1) → ms !! i = Some (k, j) → foldName k = foldName (f_name f) → values f ms = [j].
Proof.
  intros Hnd Hi Hk. apply list_elem_of_split_length in Hi as (l1 & l2 & -> & _).
  rewrite !fmap_app, !fmap_cons in Hnd. cbn [fst] in Hnd.
  apply list.NoDup_app in Hnd as (_ & H1 & [H2 _]%list.NoDup_cons).
  assert (Hnone : ∀ l, foldName k ∉ foldName <$> l.*1 → filter (λ m : string * json, foldName m.1 = foldName (f_name f)) l = []).
  { intros l. induction l as [|m l IH]; [done|]. cbn [fmap list_fmap]. rewrite not_elem_of_cons. intros [Hne Hl].
    rewrite list.filter_cons_False by congruence. by apply IH. }
  unfold values. rewrite list.filter_app, list.filter_cons_True by done. rewrite !Hnone; [done|done|].
  intros Hin. apply (H1 _ Hin). apply list_elem_of_here.
Qed.

(** What a member has to be, for its field to get the value it has in a structure. *)
Definition reads {R} (r c : R) (f : field R) (m : string * json) : Prop :=
  m.1 = f_name f ∧ f_decode f m.2 (f_get f r) = Some (f_get f c).

(** A structure is read from its members, over any other. *)
Lemma structure_read {R} (fields : list (field R)) ms r c :
  structure fields → Forall2 (reads r c) fields ms → decode_struct fields (JObject ms) r = Some c.
Proof.
  intros [Hsep Hst Hext] Hms. cbn [decode_struct].
  assert (Hkeys : foldName <$> ms.*1 = foldName ∘ f_name <$> fields).
  { clear Hsep Hst Hext. induction Hms as [|f m fs ms [Hm _] _ IH]; [done|]. cbn. by rewrite Hm, <- IH. }
  assert (Hval : ∀ f, f ∈ fields → decode_all (f_decode f) (values f ms) (f_get f r) = Some (f_get f c)).
  { intros f [i Hi]%list_elem_of_lookup. destruct (Forall2_lookup_l _ _ _ _ _ Hms Hi) as ([k j] & Hm & Hk & Hj). cbn in Hk, Hj.
    rewrite (values_at f ms i k j); [cbn; by rewrite Hj|rewrite Hkeys; apply Hsep|done|by rewrite Hk]. }
  destruct (decode_members_works fields Hsep ms r Hst) as [r' Hr]; [intros f Hf; rewrite Hval by done; by eexists|].
  rewrite Hr. f_equal. apply Hext, list.Forall_forall. intros f Hf.
  pose proof (decode_members_spec fields Hsep ms r r' f Hst Hf Hr) as H'. rewrite Hval in H' by done. by injection H'.
Qed.

(** The members one by one. *)
Ltac read_members :=
  apply structure_read; [solve [auto with config]|];
  repeat (apply Forall2_cons; [split; [reflexivity|]; cbn [f_decode f_get snd]|]); [..|by apply Forall2_nil];
  try first [reflexivity | by apply decode_int_range].

Lemma PostgresConfig_read p old : decode_struct PostgresConfig_fields (PostgresConfig_json p) old = Some p.
Proof. unfold PostgresConfig_json. read_members. Qed.
Lemma Api_read a old : int64 (api_Port a) → int64 (api_LogFileSize a) → decode_struct Api_fields (Api_json a) old = Some a.
Proof. intros. unfold Api_json. read_members. Qed.
Lemma DataConfig_read d old : decode_struct DataConfig_fields (DataConfig_json d) old = Some d.
Proof. unfold DataConfig_json. read_members. Qed.

Lemma configuration_read separator path c :
  Config_widths c → LoadConfig separator path true true (Some (Config_json c)) = inl c.
Proof.
  intros [Hw Hapi]%list.Forall_app. repeat (apply list.Forall_cons in Hw as [? Hw]).
  unfold LoadConfig. cbn [negb mbind option_bind]. set (old := newDefaultConfig separator).
  enough (decode_struct Config_fields (Config_json c) old = Some c) as -> by done.
  unfold Config_json. read_members.
  - apply PostgresConfig_read.
  - read_members. apply PostgresConfig_read.
  - read_members.
  - read_members.
  - by destruct (Enabled c).
  - destruct (conf_Api c) as [a|]; [|done]. apply list.Forall_cons in Hapi as [? Hapi]. apply list.Forall_cons in Hapi as [? _].
    unfold decode_pointer. cbn [pointer_json from_option Api_json]. fold (Api_json a). by rewrite Api_read.
  - destruct (Data c) as [d|]; [|done].
    unfold decode_pointer. cbn [pointer_json from_option DataConfig_json]. fold (DataConfig_json d). by rewrite DataConfig_read.
  - read_members.
Qed.

(** A configuration that is written to the file with all of its settings is the one the
    program gets. *)
Theorem written_settings_are_read separator path c :
  Config_widths c → LoadConfig separator path true true (Some (Config_json c)) = inl c.
Proof. apply configuration_read. Qed.

(** ** A file with some settings *)

Definition sample_config : Config :=
  (newDefaultConfig "/") <| Enabled := Some true |> <| Data := Some (mkDataConfig true "t" "s") |> <| Verbosity := -1 |>%Z.

Lemma written_settings_are_read_witness :
  LoadConfig "/" "c.json" true true (Some (Config_json sample_config)) = inl sample_config.
Proof. apply (written_settings_are_read "/" "c.json" sample_config). unfold Config_widths, int64. by repeat constructor. Defined.

(** A null in the place of the API leaves the program without its settings. *)
Lemma null_api_is_taken separator path :
  LoadConfig separator path true true (Some (JObject [("api"%string, JNull)])) = inl ((newDefaultConfig separator) <| conf_Api := None |>).
Proof. reflexivity. Qed.
