(* ===== verification/Startup.v ===== *)
(** * The start of the program

    main.go reads the configuration, makes the parts of the indexer with its settings,
    brings the rules of the consensus of the node to the version of its chain, and starts
    the node where the database ends; incoming/incoming.go is the node as the indexer
    sees it.  What the parts do once they run is in the other files. *)

From Stdlib Require Import Ascii.
From S2P Require Import Prelude Node ContractTypes Coins ContractTx Balances EpochTypes.
From S2P Require Import Transactions EpochResult BlockData IndexLoop Monitoring Config.

(** ** The configuration of the node *)

(** The configuration of the node and the rules of its consensus, with the versions that
    change them: numbers of [version_width] bits. *)
Class NodeStart := {
  ConsensusConf : Type;
  Version : ConsensusConf → Z;
  version_width : Z;
  ApplyConsensusVersion : Z → ConsensusConf → ConsensusConf;
  LowPowerMaxInboundNotOwnShardPeers : Z; LowPowerMaxOutboundNotOwnShardPeers : Z;
  LowPowerMaxInboundOwnShardPeers : Z; LowPowerMaxOutboundOwnShardPeers : Z;
  (** the rest of the configuration *)
  OtherSettings : Type
}.

(** What the start sets of the [config.Config] of the node. *)
Record NodeConfig `{NodeStart} := mkNodeConfig {
  DataDir : string; Consensus : ConsensusConf;
  MaxInboundPeers : Z; MaxOutboundPeers : Z; MaxInboundOwnShardPeers : Z; MaxOutboundOwnShardPeers : Z;
  LowWater : Z; HighWater : Z; GracePeriod : string; ReproviderInterval : string; Routing : string; PublishPeers : bool;
  FastSync : bool; ResetInCeremony : bool; others : OtherSettings
}.

Arguments mkNodeConfig {_}.

Section consensus.
Context `{NodeStart}.

(** Go: main.go cfgTransform:323-326

    The variable of the loop is a version, and wraps around; [None] when the fuel is not
    enough. *)
Fixpoint apply_versions (fuel : nat) (v last : Z) (c : ConsensusConf) : option ConsensusConf :=
  match fuel with
  | O => None
  | S fuel =>
      if (v <=? last)%Z
      then apply_versions fuel ((v + 1) `mod` 2 ^ version_width)%Z last (ApplyConsensusVersion v c)
      else Some c
  end.

(** Go: main.go cfgTransform

    The version that is read from the database of the node, which may not open. *)
Definition cfgTransform (fuel : nat) (db : option Z) (cfg : NodeConfig) : option NodeConfig :=
  match db with
  | None => Some cfg
  | Some consVersion =>
      if (consVersion <=? Version (Consensus cfg) `mod` 2 ^ 32)%Z then Some cfg
      else c ← apply_versions fuel ((Version (Consensus cfg) + 1) `mod` 2 ^ version_width)%Z
                 (consVersion `mod` 2 ^ version_width)%Z (Consensus cfg);
           Some (cfg <| Consensus := c |>)
  end.

(** Go: main.go initNodeConfig:294-305 *)
Definition light_node (cfg : NodeConfig) : NodeConfig :=
  cfg <| MaxInboundPeers := LowPowerMaxInboundNotOwnShardPeers |>
      <| MaxOutboundPeers := LowPowerMaxOutboundNotOwnShardPeers |>
      <| MaxInboundOwnShardPeers := LowPowerMaxInboundOwnShardPeers |>
      <| MaxOutboundOwnShardPeers := LowPowerMaxOutboundOwnShardPeers |>
      <| LowWater := 8%Z |> <| HighWater := 10%Z |> <| GracePeriod := "30s"%string |>
      <| ReproviderInterval := "0"%string |> <| Routing := "dhtclient"%string |> <| PublishPeers := true |>
      <| FastSync := false |> <| ResetInCeremony := true |>.

(** Go: main.go initNodeConfig

    The file of the node, [None] when it cannot be read, and the database of the node;
    the answer is [None] when the fuel is not enough. *)
Definition initNodeConfig (fuel : nat) (file : option NodeConfig) (db : option Z) : option (outcome NodeConfig) :=
  match file with
  | None => Some Panic
  | Some cfg => Done <$> cfgTransform fuel db (light_node cfg)
  end.
End consensus.

(** ** The parts of the indexer *)

(** What the settings make of the parts. *)
Record Wiring := mkWiring {
  w_monitor : option performanceMonitorImpl;
  w_tables : string * string;
  w_committeeRewardBlocksCount : Z; w_miningRewards : bool;
  w_secondaryStorage : option PostgresConfig;
  w_flips : Z * Z * Z;
  w_trackedEvents : list string; w_dataService : bool;
  w_enabled : bool; w_restoreInitially : bool; w_shortHistory : Z * Z;
  w_treeSnapshotDir : string; w_checkBalances : bool; w_disableDelegationHistory : bool
}.

(** Go: main.go initPerformanceMonitor

    [None]: the monitor that does nothing. *)
Definition initPerformanceMonitor (config : PerformanceMonitorConfig) : option performanceMonitorImpl :=
  if negb (pm_Enabled config) then None else Some (NewPerformanceMonitor (pm_BlocksToLog config)).

(** Go: main.go initIndexer:161-164

    The tables of the derived data. *)
Definition data_tables (conf : Config) : string * string :=
  match Data conf with
  | Some d => if dc_Enabled d then (dc_Table d, dc_StateTable d) else (EmptyString, EmptyString)
  | None => (EmptyString, EmptyString)
  end.
(** Go: main.go initIndexer:168-172

    The database to migrate from. *)
Definition secondary_storage (conf : Config) : option PostgresConfig :=
  if rm_Enabled (RuntimeMigration conf) then Some (rm_Postgres (RuntimeMigration conf)) else None.

(** Go: main.go initIndexer:182-193

    Whether flips can be loaded, as it is asked for: the state before the head must not
    have reached the lottery of the flips. *)
Definition flips_can_be_loaded {A} (head : option Z) (Readonly : Z → option A) (ValidationPeriod : A → Z) (FlipLotteryPeriod : Z) : bool :=
  match head with
  | None => false
  | Some h =>
      match Readonly (u64 (h - 1)) with
      | None => false
      | Some prevState => (ValidationPeriod prevState <? FlipLotteryPeriod)%Z
      end
  end.

Definition Minute : Z := 60 * 10 ^ 9.

(** Go: main.go initIndexer:196-203

    The batches, the attempts and the interval, in nanoseconds, of the loader of flips. *)
Definition content_loader (conf : Config) : Z * Z * Z :=
  (fl_BatchSize (FlipContentLoader conf), fl_AttemptsLimit (FlipContentLoader conf),
   swrap 64 (Minute * fl_RetryIntervalMin (FlipContentLoader conf))).

(** Go: main.go initIndexer:225-239

    The events of the collector the tracker of votes gets, by their ids. *)
Definition tracked_events (conf : Config) : list string :=
  if vc_Enabled (VoteCounting conf)
  then ["vote-counting-result"; "vote-counting-step-result"; "proof-proposal"; "block-proposal"]%string else [].

(** Go: main.go initIndexer:241-243 *)
Definition data_service (conf : Config) : bool :=
  match Data conf with Some d => dc_Enabled d | None => false end.

(** Go: main.go initIndexer:258-280 *)
Definition wiring (conf : Config) : Wiring := {|
  w_monitor := initPerformanceMonitor (PerformanceMonitor conf);
  w_tables := data_tables conf;
  w_committeeRewardBlocksCount := CommitteeRewardBlocksCount conf;
  w_miningRewards := MiningRewards conf;
  w_secondaryStorage := secondary_storage conf;
  w_flips := content_loader conf;
  w_trackedEvents := tracked_events conf; w_dataService := data_service conf;
  w_enabled := default true (Enabled conf);
  w_restoreInitially := RestoreInitially conf;
  w_shortHistory := (UpgradeVotingShortHistoryItems conf, UpgradeVotingShortHistoryMinShift conf);
  w_treeSnapshotDir := TreeSnapshotDir conf;
  w_checkBalances := CheckBalances conf;
  w_disableDelegationHistory := DisableDelegationHistory conf
|}.

(** ** The listener *)

(** Go: incoming/incoming.go listenerImpl

    Whether it knows what to do with a block, and the height the node was started with. *)
Record listenerImpl := mkListener { handleBlock : bool; startedWith : option Z }.

(** Go: incoming/incoming.go NewListener:67-86 *)
Definition NewListener (created : bool) : outcome listenerImpl := if created then Done (mkListener false None) else Panic.

(** Go: incoming/incoming.go listenerImpl.Listen *)
Definition Listen (expectedHeadHeight : Z) (l : listenerImpl) : listenerImpl :=
  l <| handleBlock := true |> <| startedWith := Some expectedHeadHeight |>.

(** Go: incoming/incoming.go NewListener:53-66

    A block that comes before [Listen] is handled by a nil function. *)
Definition on_block (l : listenerImpl) : outcome listenerImpl := if handleBlock l then Done l else Panic.

Section start.
Context `{EpochApi, !NodeLaws, !TxApi, !BlockApi, !Storage, !StorageLaws, Chain, NodeStart}.

(** Go: indexer/indexer.go Start

    The height the node is started with. *)
Definition Start (l : listenerImpl) : M Ix listenerImpl :=
  h ← getHeightToIndex;
  mret (Listen (u64 (h - 1)) l).

(** What the system answers at the start: the file of the configuration, the files of the
    node, and whether the node can be made and the database opened. *)
Record start_answers := mkStartAnswers {
  an_config : bool * bool * option json;
  an_node_file : option NodeConfig; an_node_db : option Z; an_created : bool; an_db_opened : bool;
  (** the state of the head, when there is a head, and the migration of the tokens *)
  an_head : bool; an_head_state : bool; an_tokens : bool
}.

(** What the start has come to. *)
Inductive start_step :=
  | SIndexing (w : Wiring) (node : NodeConfig) (height : Z)
  | SServing (api : Api).

Definition height_of (l : listenerImpl) : Z := default 0%Z (startedWith l).

(** Go: main.go main:61-98

    The steps, and whether the start ends without a panic; [None] when the fuel is not
    enough.  The logger of the API is made before its server. *)
Definition main (fuel : nat) (separator : Ascii.ascii) (path : string) (an : start_answers) (st : Ix)
    : option (list start_step * outcome unit) :=
  match LoadConfig separator path (an_config an).1.1 (an_config an).1.2 (an_config an).2 with
  | inr _ => Some ([], Panic)
  | inl conf =>
      node ← initNodeConfig fuel (an_node_file an) (an_node_db an);
      match node with
      | Panic => Some ([], Panic)
      | Done node =>
          match NewListener (an_created an) with
          | Panic => Some ([], Panic)
          | Done l =>
              if negb (an_db_opened an) then Some ([], Panic)
              else if an_head an && negb (an_head_state an && an_tokens an) then Some ([], Panic)
              else match Start l st with
                   | Panic => Some ([], Panic)
                   | Done (l, _) =>
                       let started := [SIndexing (wiring conf) node (height_of l)] in
                       match conf_Api conf with
                       | None => Some (started, Panic)
                       | Some api => Some (started ++ [SServing api], Done tt)
                       end
                   end
          end
      end
  end.

(** ** The rules of the consensus *)

(** Documented behaviour: to apply a version makes it the version of the rules. *)
Definition version_laws : Prop := ∀ v c, Version (ApplyConsensusVersion v c) = v.

Definition version_ok (v : Z) : Prop := (0 ≤ v < 2 ^ version_width)%Z.

Lemma apply_versions_S n v last c :
  apply_versions (S n) v last c
  = if (v <=? last)%Z then apply_versions n ((v + 1) `mod` 2 ^ version_width)%Z last (ApplyConsensusVersion v c) else Some c.
Proof. done. Qed.

(** The versions from one on, each once and in order. *)
Lemma apply_versions_spec n v last c :
  (0 ≤ v)%Z → (last < 2 ^ version_width - 1)%Z → n = Z.to_nat (last + 1 - v) →
  apply_versions (S n) v last c = Some (foldl (λ c v, ApplyConsensusVersion v c) c (seqZ v (last + 1 - v))).
Proof.
  intros Hv Hl. revert v c Hv. induction n as [|n IH]; intros v c Hv Hn; rewrite apply_versions_S.
  - rewrite (proj2 (Z.leb_gt _ _)) by lia. by rewrite seqZ_nil by lia.
  - rewrite (proj2 (Z.leb_le _ _)) by lia. rewrite Z.mod_small by lia.
    rewrite (seqZ_cons v) by lia. cbn [foldl]. rewrite IH by lia. do 2 f_equal. f_equal; lia.
Qed.

Lemma last_version l c v : version_laws → Version (foldl (λ c v, ApplyConsensusVersion v c) c (l ++ [v])) = v.
Proof. intros Hlaw. rewrite foldl_app. apply Hlaw. Qed.

Lemma seqZ_one m : seqZ m 1 = [m].
Proof. by rewrite seqZ_cons, seqZ_nil by lia. Qed.
Lemma light_node_consensus cfg : Consensus (light_node cfg) = Consensus cfg.
Proof. by destruct cfg. Qed.

Lemma node_follows fuel cfg consVersion :
  version_laws → (0 ≤ version_width ≤ 32)%Z →
  (0 ≤ Version (Consensus cfg) < 2 ^ version_width)%Z → (0 ≤ consVersion < 2 ^ version_width - 1)%Z →
  (Z.to_nat (consVersion - Version (Consensus cfg)) < fuel)%nat →
  ∃ node, initNodeConfig fuel (Some cfg) (Some consVersion) = Some (Done node) ∧
    Version (Consensus node) = Z.max (Version (Consensus cfg)) consVersion ∧
    Consensus node = foldl (λ c v, ApplyConsensusVersion v c) (Consensus cfg)
      (seqZ (Version (Consensus cfg) + 1) (consVersion - Version (Consensus cfg))) ∧
    node = (light_node cfg) <| Consensus := Consensus node |>.
Proof.
  intros Hlaw Hw Hv Hc Hfuel. unfold initNodeConfig, cfgTransform. rewrite light_node_consensus.
  assert (Hsame : light_node cfg = (light_node cfg) <| Consensus := Consensus cfg |>).
  { rewrite <- (light_node_consensus cfg). by destruct (light_node cfg). }
  revert Hsame. generalize (light_node cfg) as node. intros node Hsame.
  set (c0 := Consensus cfg) in *.
  assert (H32 : (2 ^ version_width ≤ 2 ^ 32)%Z) by exact (Z.pow_le_mono_r 2 _ 32 eq_refl (proj2 Hw)).
  rewrite (Z.mod_small (Version c0)) by lia. destruct (Z.leb_spec consVersion (Version c0)) as [Hle|Hgt].
  - eexists. split; [reflexivity|]. rewrite Hsame. cbn. rewrite Z.max_l by lia. by rewrite seqZ_nil by lia.
  - rewrite (Z.mod_small (Version c0 + 1)) by lia. rewrite (Z.mod_small consVersion) by lia.
    assert (Happly : apply_versions fuel (Version c0 + 1) consVersion c0
      = Some (foldl (λ c v, ApplyConsensusVersion v c) c0 (seqZ (Version c0 + 1) (consVersion - Version c0)))).
    { destruct fuel as [|fuel]; [lia|].
      assert (Hless : ∀ n v c r, apply_versions n v consVersion c = Some r → ∀ m, (n ≤ m)%nat → apply_versions m v consVersion c = Some r).
      { induction n as [|n IH]; intros v c r Hr [|m] Hm; [done|done|lia|]. rewrite apply_versions_S in *.
        destruct (v <=? consVersion)%Z; [|done]. apply (IH _ _ _ Hr). lia. }
      eapply (Hless (S (Z.to_nat (consVersion + 1 - (Version c0 + 1))))); [|lia].
      rewrite apply_versions_spec by lia. do 2 f_equal. f_equal. lia. }
    assert (Hlast : Version (foldl (λ c v, ApplyConsensusVersion v c) c0 (seqZ (Version c0 + 1) (consVersion - Version c0))) = consVersion).
    { replace (consVersion - Version c0)%Z with (consVersion - Version c0 - 1 + 1)%Z by lia.
      rewrite seqZ_app by lia. rewrite (seqZ_one _), last_version by done. lia. }
    rewrite Happly. eexists. split; [reflexivity|]. rewrite Z.max_r by lia. by split_and!.
Qed.

(** With more steps than there are versions, the rules become those of the version the
    chain of the node has come to, every version since the one of the configuration being
    applied once and in order; they stay when they are newer. *)
Theorem consensus_follows_the_chain fuel cfg consVersion :
  version_laws → (0 ≤ version_width ≤ 32)%Z →
  (0 ≤ Version (Consensus cfg) < 2 ^ version_width)%Z → (0 ≤ consVersion < 2 ^ version_width - 1)%Z →
  (Z.to_nat (consVersion - Version (Consensus cfg)) < fuel)%nat →
  ∃ node, initNodeConfig fuel (Some cfg) (Some consVersion) = Some (Done node) ∧
    Version (Consensus node) = Z.max (Version (Consensus cfg)) consVersion ∧
    Consensus node = foldl (λ c v, ApplyConsensusVersion v c) (Consensus cfg)
      (seqZ (Version (Consensus cfg) + 1) (consVersion - Version (Consensus cfg))) ∧
    node = (light_node cfg) <| Consensus := Consensus node |>.
Proof. apply node_follows. Qed.

(** The last number of the width is never passed: the loop does not end when the chain of
    the node has come to it. *)
Lemma last_version_never_ends fuel v c :
  (0 < version_width)%Z → (0 ≤ v < 2 ^ version_width)%Z → apply_versions fuel v (2 ^ version_width - 1) c = None.
Proof.
  intros Hw. revert v c. induction fuel as [|fuel IH]; intros v c Hv; [done|]. rewrite apply_versions_S.
  rewrite (proj2 (Z.leb_le _ _)) by lia. apply IH. apply Z.mod_pos_bound. lia.
Qed.

(** ** The start *)

(** A program that has just been started has its node start where its database ends. *)
Lemma start_height l st :
  ix_state st = None → (0 ≤ GetLastHeight (ix_db st) < 2 ^ 64)%Z →
  ∃ st', Start l st = Done (Listen (GetLastHeight (ix_db st)) l, st') ∧ ix_db st' = ix_db st.
Proof.
  intros Hst Hh.
  assert (Hheight : u64 (u64 (GetLastHeight (ix_db st) + 1) - 1) = GetLastHeight (ix_db st)).
  { unfold uwrap. rewrite Zminus_mod_idemp_l. rewrite Z.add_simpl_r. by rewrite Z.mod_small by exact Hh. }
  unfold Start, getHeightToIndex, loadState, gets, modify_st, mbind, M_bind. rewrite Hst.
  cbn [is_lastIndexedHeight mret M_ret]. rewrite Hheight. eexists. split; reflexivity.
Qed.

(** What the start comes to with a configuration, when the node can be made and the tokens
    can be read. *)
Definition parts_start (an : start_answers) : Prop :=
  an_created an = true ∧ an_db_opened an = true ∧ (an_head an = true → an_head_state an = true ∧ an_tokens an = true).

Lemma main_starts fuel separator path an st conf node :
  LoadConfig separator path (an_config an).1.1 (an_config an).1.2 (an_config an).2 = inl conf →
  initNodeConfig fuel (an_node_file an) (an_node_db an) = Some (Done node) → parts_start an →
  ix_state st = None → (0 ≤ GetLastHeight (ix_db st) < 2 ^ 64)%Z →
  main fuel separator path an st
  = Some match conf_Api conf with
         | Some api => ([SIndexing (wiring conf) node (GetLastHeight (ix_db st)); SServing api], Done tt)
         | None => ([SIndexing (wiring conf) node (GetLastHeight (ix_db st))], Panic)
         end.
Proof.
  intros Hconf Hnode (Hcreated & Hopened & Hhead) Hst Hh. unfold main. rewrite Hconf, Hnode. cbn [mbind option_bind].
  rewrite Hcreated, Hopened. cbn [NewListener negb].
  destruct (start_height (mkListener false None) st Hst Hh) as (st' & -> & _).
  assert (Htokens : an_head an && negb (an_head_state an && an_tokens an) = false).
  { destruct (an_head an); [|done]. by destruct (Hhead eq_refl) as [-> ->]. }
  rewrite Htokens. by destruct (conf_Api conf).
Qed.

(** The program that is started with the file of a configuration indexes with its settings
    from the block after the last one that is stored, with the rules the chain of the node
    has come to, and then serves the API where the settings say. *)
Theorem program_starts fuel separator path an st conf api cfg consVersion :
  version_laws → (0 ≤ version_width ≤ 32)%Z →
  (0 ≤ Version (Consensus cfg) < 2 ^ version_width)%Z → (0 ≤ consVersion < 2 ^ version_width - 1)%Z →
  (Z.to_nat (consVersion - Version (Consensus cfg)) < fuel)%nat →
  Config_widths conf → conf_Api conf = Some api →
  an_config an = (true, true, Some (Config_json conf)) → an_node_file an = Some cfg → an_node_db an = Some consVersion →
  parts_start an → ix_state st = None → (0 ≤ GetLastHeight (ix_db st) < 2 ^ 64)%Z →
  ∃ node, Version (Consensus node) = Z.max (Version (Consensus cfg)) consVersion ∧
    node = (light_node cfg) <| Consensus := Consensus node |> ∧
    main fuel separator path an st
    = Some ([SIndexing (wiring conf) node (GetLastHeight (ix_db st)); SServing api], Done tt).
Proof.
  intros Hlaw Hw Hv Hc Hfuel Hconf Hapi Han Hfile Hdb Hparts Hst Hh.
  destruct (node_follows fuel cfg consVersion Hlaw Hw Hv Hc Hfuel) as (node & Hnode & Hversion & _ & Hsettings).
  exists node. split_and!; [done|done|].
  rewrite (main_starts fuel separator path an st conf node); [by rewrite Hapi| |by rewrite Hfile, Hdb|done..].
  rewrite Han. cbn [fst snd]. by apply configuration_read.
Qed.

(** With a null in the place of the settings of the API the program indexes before it ends
    with a panic. *)
Lemma null_api_ends_late fuel separator path an st node :
  an_config an = (true, true, Some (JObject [("Api"%string, JNull)])) →
  initNodeConfig fuel (an_node_file an) (an_node_db an) = Some (Done node) → parts_start an →
  ix_state st = None → (0 ≤ GetLastHeight (ix_db st) < 2 ^ 64)%Z →
  ∃ w, main fuel separator path an st = Some ([SIndexing w node (GetLastHeight (ix_db st))], Panic).
Proof.
  intros Han Hnode Hparts Hst Hh. eexists.
  erewrite (main_starts _ _ _ _ _ ((newDefaultConfig separator) <| conf_Api := None |>)); [reflexivity| |done..].
  rewrite Han. reflexivity.
Qed.
End start.

(** ** A start *)

(** The rules are the versions that were applied, the last one first. *)
#[local] Instance SampleNodeStart : NodeStart := {|
  ConsensusConf := list Z; Version l := default 9%Z (head l); version_width := 16;
  ApplyConsensusVersion := cons;
  LowPowerMaxInboundNotOwnShardPeers := 1; LowPowerMaxOutboundNotOwnShardPeers := 2;
  LowPowerMaxInboundOwnShardPeers := 3; LowPowerMaxOutboundOwnShardPeers := 4; OtherSettings := unit
|}%Z.

Definition sample_node : NodeConfig := mkNodeConfig "datadir" [] 10 10 10 10 20 20 "1m" "12h" "dht" false true false tt.

Lemma consensus_follows_the_chain_witness :
  ∃ node, initNodeConfig 4 (Some sample_node) (Some 12%Z) = Some (Done node) ∧ Consensus node = [12; 11; 10]%Z.
Proof.
  destruct (consensus_follows_the_chain 4 sample_node 12) as (node & Hnode & _ & Hc & _).
  - done.
  - cbn. lia.
  - cbn. lia.
  - cbn. lia.
  - cbn. lia.
  - exists node. split; [exact Hnode|]. rewrite Hc. reflexivity.
Defined.

#[local] Existing Instances sample_attachments sample_storage sample_storage_laws sample_chain.

Definition sample_ready_ix : Ix := (sample_ix 8 None) <| ix_state := None |>.
Definition sample_start : start_answers :=
  mkStartAnswers (true, true, Some (Config_json sample_config)) (Some sample_node) (Some 12%Z) true true true true true.

Lemma program_starts_witness :
  ∃ node, Version (Consensus node) = 12%Z ∧
    main 4 "/"%char "conf.json" sample_start sample_ready_ix
    = Some ([SIndexing (wiring sample_config) node 8; SServing (mkApi 8080 102400)], Done tt).
Proof.
  destruct (program_starts 4 "/"%char "conf.json" sample_start sample_ready_ix sample_config (mkApi 8080 102400) sample_node 12)
    as (node & Hversion & _ & Hmain); [done|cbn; lia..| | | | | | | | |].
  - unfold Config_widths, int64. by repeat constructor.
  - reflexivity.
  - reflexivity.
  - reflexivity.
  - reflexivity.
  - by split.
  - reflexivity.
  - vm_compute. by split.
  - exists node. split; [exact Hversion|exact Hmain].
Defined.
